(* ===== verification/_CoqProject ===== *)
-Q . S2P
Prelude.v
Machine.v
Queue.v
UHeap.v
UHeapSpec.v
KUHeap.v
State.v
AddressSpace.v
PageFlags.v
FrameAlloc.v
FrameAllocSpec.v
Paging.v
PagingSpec.v
KHeap.v
KHeapSpec.v
KHeapInv.v
HeapMem.v
PageFile.v
PageFileSpec.v
WorkingSet.v
Fault.v
FaultSpec.v
EvictSpec.v
ProtectSpec.v
UserEnv.v
UserEnvSpec.v
Sched.v
SchedSpec.v
Syscall.v
UserMemSpec.v
TestKHeap.v
TestKHeapSpec.v
TestKHeapPass.v
UserLib.v
UserLibSpec.v
Traps.v
TrapsSpec.v
Boot.v
BootSpec.v
BootVM.v
Link.v
LinkSpec.v
Hoare.v
Quiet.v
LifeCycle.v
Strings.v
Devices.v
Console.v
Init.v
KernelLife.v
StringsSpec.v
SplitSpec.v
Printf.v
PrintfSpec.v
ConsoleSpec.v
InitSpec.v
BootTests.v
Prompt.v
PromptSpec.v
KDebug.v
KDebugSpec.v
Loader.v
LoaderSpec.v
Sorting.v
SortingSpec.v
Programs.v
ProgramsSpec.v
