(* ===== verification/Prelude.v ===== *)
(** * FOS: a verification development

    FOS is a teaching operating system for 32-bit x86 derived from JOS: a kernel with paging, a
    kernel heap, environments (processes) with a page file and working sets, a round-robin
    scheduler and a command prompt, and a library for user programs.  Its C code is under
    src/FOS_Project_2016_Template: kern/ (kernel), inc/ (headers), lib/ (shared with user
    programs), boot/ (loader), user/ (programs).  This library translates that code into
    executable definitions and proves what the parts promise and how they work together.

    ** How code becomes definitions

    A C function is a term of the state monad [M S A] of this file: it returns, panics, crashes (a
    page fault in the kernel, or behaviour C leaves undefined), leaves the kernel for an
    environment or the prompt, or runs out of fuel.  The state of the kernel is [KState] (State.v):
    memory as words, CR2 and CR3, which give the translation [mmu], and the global variables of
    kern/*.c, one record per source file.  Loads and stores of the kernel go through [mmu], so a
    missing mapping is a fault of the model.  A [struct X *] into a global array is the index of
    the element; the lists of inc/queue.h are the links inside the elements (Queue.v).  Words are
    integers with the wrap written out ([u8], [u16], [u32], [s32] of Machine.v).

    Loops over a range known on entry are [forM]; other loops are [mloop], with a bound on the
    iterations taken from the data they run over: the number of frames or of environments for a
    list, 1024 for a table, the length for a string, 2802 for the printer's busy-wait, which gives
    up after 2800 polls.  Theorems about such loops state the result itself, so they show that the
    bound is enough.  Functions that call each other in a cycle (kmalloc, the page-table code, the
    fault handler) take the calls through the class [Extern]; Link.v ties the knot with a depth,
    and LinkSpec.v shows the depth that creating a table needs.

    ** The parts

    - Queue: inc/queue.h; any sequence of list operations acts on the sequence the list represents.
    - PageFlags, FrameAlloc, FrameAllocSpec, Paging, PagingSpec, AddressSpace: frames, page tables
      and mappings of kern/memory_manager.c.  The frame allocator refines a free sequence with
      reference counts; map_frame and unmap_frame change one translation and one count.
    - KHeap, KHeapSpec, KHeapInv, HeapMem: kern/kheap.c.  kmalloc maps fresh pages, kfree undoes it,
      and in every state a client can reach with requests for at least a page allocations are disjoint
      and mapped to frames of their own.  HeapMem: they are memory; what a client stores in one stays
      there.
    - TestKHeap, TestKHeapSpec, TestKHeapPass: kern/test_kheap.c, the kernel's tests of its heap, and
      the proof that three of the four that exercise kmalloc and kfree pass, while the array of the
      fourth does not fit on the kernel's stack.
    - Boot, BootSpec, BootVM: initialize_kernel_VM and its self-check; the address space it leaves.
    - Traps, TrapsSpec: the descriptor tables of inc/mmu.h, kern/helpers.c and kern/trap.c, the
      entry stubs of kern/trapentry.S, the trap frame; what the processor does with them is
      specified in TrapsSpec.v.
    - Init, InitSpec: kern/init.c; FOS_initialize from power-on to the prompt: there the environments
      and the descriptor tables are in the states the other theorems start from, and so is the heap
      if memory held no entry that looks present (boot does not clear its page tables).
    - BootTests: if memory was zero, the state at the prompt is the one the tests of the heap start
      from.
    - PageFile, PageFileSpec: kern/file_manager.c and lib/disk.c over a drive; pages round trip.
    - WorkingSet, Fault, FaultSpec, EvictSpec: working sets and page replacement (LRU, FIFO, CLOCK).
      ProtectSpec: what the fault handler does with an access to a page the program does not have.
    - UserEnv, UserEnvSpec, Sched, SchedSpec: kern/user_environment.c and kern/sched.c; the ready
      queue as the sequence of turns, fairness.
    - Syscall, UserMemSpec, UserLib, UserLibSpec: kern/syscall.c, the trap dispatcher, semaphores,
      shared objects and the stubs of lib/; a call from a user program reaches the handler it
      names, and what allocateMem reserves in the page file freeMem gives back.
    - Hoare, Quiet, LifeCycle, KernelLife: triples for kernel code; each environment slot is on one
      list at most and has that list's status, whatever sequence of traps, commands and panics, as
      long as the kernel's own memory is left alone.
    - UHeap, UHeapSpec, KUHeap: lib/uheap.c and the older kern/uheap.c; malloc and free refine a
      finite map of blocks for the four placement strategies.
    - Strings, StringsSpec, SplitSpec, Printf, PrintfSpec: lib/string.c and lib/printfmt.c.
    - Devices, Console, ConsoleSpec: kern/picirq.c, kern/kclock.c and kern/console.c over I/O ports.
    - Prompt, PromptSpec: kern/command_prompt.c and lib/readline.c, with the test of
      kern/test_kheap.c that gives a command itself.
    - KDebug, KDebugSpec: kern/kdebug.c.  Loader, LoaderSpec: boot/main.c.
    - Sorting, SortingSpec: the sorting functions of the programs in user/; quick sort and merge
      sort terminate with an ordered permutation of any array.
    - Programs, ProgramsSpec: _main of user/quicksort.c, which puts the line editor, strtol, the user
      heap and the sort together; it runs through whatever rounds the user asks for, if the lines fit
      in its array.

    A file X.v holds definitions, XSpec.v (and KHeapInv, HeapMem, TestKHeapPass, BootVM, BootTests,
    KernelLife) what is proved about them, with an instance for every theorem that has hypotheses.
    The theorems that state what the program promises carry a number (C1 to C40) in their comments;
    the other lemmas are the steps to them, and some describe what the code does where it goes
    wrong.

    ** Parameters

    The drive and the I/O ports ([Ports]), what the keyboard and the time-stamp counter deliver
    ([Devices]), the addresses the linker assigns, the table of user programs in the image, and
    the processor's part of a trap.  Hypotheses about them state what such hardware does, and the
    witnesses instantiate them.

    ** Not modelled

    - Inline assembly and .S files, except the entry stubs; the translation lookaside buffer and the
      dirty and accessed bits the processor sets; preemption inside the kernel, which runs with
      interrupts off.
    - Output whose only effect is text: print_trapframe, the printing of working sets, the messages
      of panic and warnings, atomic_cprintf and atomic_readline, lib/panic.c; and printing inside
      the kernel's handlers, which does not touch [KState] (the read of a program's string by
      sys_cputs is modelled, since it can fault).
    - The kernel's variables as bytes of memory: they are records of [KState], which stray stores
      and lost mappings do not reach (State.v).
    - The depth of the stack: of it only the bound on the large local arrays of the tests of the heap
      is modelled ([on_stack] of TestKHeap.v).
    - The timer calls of env_run and trap (kclock_resume, kclock_stop; the functions are in Devices.v),
      which act on ports only.
    - The tests in user/ (tst_*.c) and the main functions of the programs in user/ other than
      quicksort.c, which only call what is modelled.
    - The bodies of the semaphore and shared-memory operations, which panic in the source. *)
From stdpp Require Export base tactics list gmap fin_maps numbers strings.
From Stdlib Require Export ZArith Lia.

#[global] Open Scope Z_scope.

Create Rewrite HintDb monad.

(** ** Outcomes of kernel code

    A C function of the kernel returns, calls [panic] (a failed [assert] does), dereferences
    an unmapped address or does something the C standard leaves undefined, or never comes back
    because it hands the processor to an environment or to the command prompt.  [OutOfFuel] is
    an artefact of bounded loops; every loop theorem of the development excludes it. *)
Inductive crash :=
  | PageFault (va : Z)          (** kernel access to an address with no usable mapping *)
  | Undefined (what : string).  (** uninitialised variable, array overrun, null dereference *)

Inductive outcome (S A : Type) : Type :=
  | Ret (a : A) (s : S)
  | Panic (msg : string) (s : S)
  | Crash (c : crash) (s : S)
  | Leave (dest : option Z) (s : S)
  | OutOfFuel.
Arguments Ret {S A} a s.
Arguments Panic {S A} msg s.
Arguments Crash {S A} c s.
Arguments Leave {S A} dest s.
Arguments OutOfFuel {S A}.

Definition M (S A : Type) : Type := S → outcome S A.

#[export] Instance M_ret S : MRet (M S) := λ A a s, Ret a s.
#[export] Instance M_bind S : MBind (M S) := λ A B f m s,
  match m s with
  | Ret a s' => f a s'
  | Panic msg s' => Panic msg s'
  | Crash c s' => Crash c s'
  | Leave d s' => Leave d s'
  | OutOfFuel => OutOfFuel
  end.

Section Primitives.
Context {S : Type}.

Definition gets {A} (f : S → A) : M S A := λ s, Ret (f s) s.
Definition modify (f : S → S) : M S unit := λ s, Ret tt (f s).
Definition panic {A} (msg : string) : M S A := λ s, Panic msg s.
Definition undefined {A} (what : string) : M S A := λ s, Crash (Undefined what) s.
Definition assert_ (b : bool) (msg : string) : M S unit :=
  if b then mret tt else panic msg.
Definition when (b : bool) (m : M S unit) : M S unit := if b then m else mret tt.

(** Reading a local that may not have been assigned yet. *)
Definition read_local {A} (what : string) (x : option A) : M S A :=
  match x with Some a => mret a | None => undefined what end.

(** A [while] or [for] loop: [body] maps the loop's locals to the next locals ([inl]) or
    leaves the loop with a result ([inr]). *)
Fixpoint mloop {A B} (fuel : nat) (body : A → M S (A + B)) (a : A) : M S B :=
  match fuel with
  | O => λ _, OutOfFuel
  | Datatypes.S n =>
      r ← body a;
      match r with
      | inl a' => mloop n body a'
      | inr b => mret b
      end
  end.

(** [for (x in xs) f x] over a range known on entry. *)
Fixpoint forM {A} (xs : list A) (f : A → M S unit) : M S unit :=
  match xs with
  | [] => mret tt
  | x :: xs' => f x;; forM xs' f
  end.
End Primitives.

Section MonadFacts.
Context {S : Type}.

Lemma bind_Ret {A B} (m : M S A) (f : A → M S B) s a s' :
  m s = Ret a s' → (m ≫= f) s = f a s'.
Proof. intros H. unfold mbind, M_bind. by rewrite H. Qed.

Lemma bind_modify {B} (g : S → S) (f : unit → M S B) s :
  (modify g ≫= f) s = f tt (g s).
Proof. done. Qed.
Lemma bind_gets {A B} (g : S → A) (f : A → M S B) s : (gets g ≫= f) s = f (g s) s.
Proof. done. Qed.
Lemma bind_mret {A B} (a : A) (f : A → M S B) s : (mret a ≫= f) s = f a s.
Proof. done. Qed.

Lemma bind_Ret_inv {A B} (m : M S A) (f : A → M S B) s b s'' :
  (m ≫= f) s = Ret b s'' → ∃ a s', m s = Ret a s' ∧ f a s' = Ret b s''.
Proof. unfold mbind, M_bind. destruct (m s); naive_solver. Qed.

Lemma bind_assoc {A B C} (m : M S A) (f : A → M S B) (g : B → M S C) s :
  ((m ≫= f) ≫= g) s = (m ≫= (λ a, f a ≫= g)) s.
Proof. unfold mbind, M_bind. by destruct (m s). Qed.

Lemma bind_ext {A B} (m : M S A) (f g : A → M S B) s :
  (∀ a s', f a s' = g a s') → (m ≫= f) s = (m ≫= g) s.
Proof. intros Hfg. unfold mbind, M_bind. by destruct (m s). Qed.

Lemma forM_app {A} (xs ys : list A) (f : A → M S unit) s :
  forM (xs ++ ys) f s = (forM xs f;; forM ys f) s.
Proof.
  revert s. induction xs as [|x xs IH]; intros s; [done|].
  cbn. rewrite bind_assoc. unfold mbind, M_bind. by destruct (f x s).
Qed.

(** Running a [forM] with an invariant indexed by the elements already done. *)
Lemma forM_ind {A} (I : list A → S → Prop) (f : A → M S unit) xs s :
  I [] s →
  (∀ done x todo s, xs = done ++ x :: todo → I done s →
     ∃ s', f x s = Ret tt s' ∧ I (done ++ [x]) s') →
  ∃ s', forM xs f s = Ret tt s' ∧ I xs s'.
Proof.
  intros H0 Hstep.
  assert (∀ todo done s, xs = done ++ todo → I done s →
            ∃ s', forM todo f s = Ret tt s' ∧ I xs s') as Hgen.
  { induction todo as [|x todo IH]; intros done s1 Heq HI.
    - rewrite app_nil_r in Heq. subst. eexists. done.
    - destruct (Hstep done x todo s1 Heq HI) as (s2 & Hf & HI2).
      destruct (IH (done ++ [x]) s2) as (s3 & Hf3 & HI3); [|done|].
      { by rewrite <-app_assoc. }
      exists s3. split; [|done]. cbn. by rewrite (bind_Ret _ _ _ _ _ Hf). }
  by apply (Hgen xs []).
Qed.

(** The same over a range of integers, with an invariant on the number of iterations. *)
Lemma forM_seqZ (I : Z → S → Prop) (f : Z → M S unit) a n s :
  0 ≤ n → I 0 s →
  (∀ i s, 0 ≤ i < n → I i s → ∃ s', f (a + i) s = Ret tt s' ∧ I (i + 1) s') →
  ∃ s', forM (seqZ a n) f s = Ret tt s' ∧ I n s'.
Proof.
  intros Hn H0 Hstep.
  destruct (forM_ind (λ done, I (Z.of_nat (length done))) f (seqZ a n) s) as (s' & ? & HI);
    [done| |exists s'; by rewrite length_seqZ, Z2Nat.id in HI by lia].
  intros done x todo s1 Heq HI. pose proof (f_equal length Heq) as Hlen.
  rewrite length_seqZ, length_app in Hlen. cbn in Hlen.
  assert (x = a + Z.of_nat (length done)) as ->.
  { assert (seqZ a n !! length done = Some x) as Hx by (by rewrite Heq, list_lookup_middle).
    apply lookup_seqZ in Hx. lia. }
  destruct (Hstep (Z.of_nat (length done)) s1) as (s2 & ? & ?); [lia|done|].
  exists s2. split; [done|]. rewrite length_app. cbn. by rewrite Nat2Z.inj_add.
Qed.

(** One iteration. *)
Lemma mloop_next {A B} (body : A → M S (A + B)) n a s a' s' :
  body a s = Ret (inl a') s' → mloop (Datatypes.S n) body a s = mloop n body a' s'.
Proof. intros H. cbn. by rewrite (bind_Ret _ _ _ _ _ H). Qed.
Lemma mloop_break {A B} (body : A → M S (A + B)) n a s b s' :
  body a s = Ret (inr b) s' → mloop (Datatypes.S n) body a s = Ret b s'.
Proof. intros H. cbn. by rewrite (bind_Ret _ _ _ _ _ H). Qed.

Lemma mloop_crash {A B} (body : A → M S (A + B)) n a s c s' :
  body a s = Crash c s' → mloop (Datatypes.S n) body a s = Crash c s'.
Proof. intros H. cbn. unfold mbind, M_bind. by rewrite H. Qed.
Lemma bind_Crash {A B} (m : M S A) (f : A → M S B) s c s' :
  m s = Crash c s' → (m ≫= f) s = Crash c s'.
Proof. intros H. unfold mbind, M_bind. by rewrite H. Qed.

(** Total correctness of a loop: an invariant and a measure bounded by the fuel. *)
Lemma mloop_total {A B} (I : A → S → Prop) (Q : B → S → Prop) (μ : A → S → nat)
    (body : A → M S (A + B)) fuel a s :
  (∀ a s, I a s →
     (∃ a' s', body a s = Ret (inl a') s' ∧ I a' s' ∧ (μ a' s' < μ a s)%nat) ∨
     (∃ b s', body a s = Ret (inr b) s' ∧ Q b s')) →
  I a s → (μ a s < fuel)%nat →
  ∃ b s', mloop fuel body a s = Ret b s' ∧ Q b s'.
Proof.
  intros Hbody. revert a s. induction fuel as [|n IH]; intros a s HI Hμ; [lia|].
  destruct (Hbody a s HI) as [(a' & s' & Hb & HI' & Hlt)|(b & s' & Hb & HQ)].
  - destruct (IH a' s' HI') as (b & s'' & Hl & HQ); [lia|].
    exists b, s''. split; [|done]. cbn. by rewrite (bind_Ret _ _ _ _ _ Hb).
  - exists b, s'. split; [|done]. cbn. by rewrite (bind_Ret _ _ _ _ _ Hb).
Qed.

(** The first [k] iterations, when they only move the locals. *)
Lemma mloop_steps {A B} (body : A → M S (A + B)) (f : nat → A) s k n :
  (∀ j, (j < k)%nat → body (f j) s = Ret (inl (f (Datatypes.S j))) s) →
  mloop (k + n) body (f O) s = mloop n body (f k) s.
Proof.
  revert f. induction k as [|k IH]; intros f Hf; [done|]. cbn.
  rewrite (bind_Ret _ _ _ _ _ (Hf O ltac:(lia))).
  apply (IH (λ j, f (Datatypes.S j))). intros j Hj. apply (Hf (Datatypes.S j)). lia.
Qed.

(** More fuel never changes a result. *)
Lemma mloop_fuel_mono {A B} (body : A → M S (A + B)) n m a s :
  mloop n body a s ≠ OutOfFuel → (n ≤ m)%nat → mloop m body a s = mloop n body a s.
Proof.
  revert m a s. induction n as [|n IH]; intros m a s H Hle; [done|].
  destruct m as [|m]; [lia|]. cbn in *. unfold mbind, M_bind in *.
  destruct (body a s) as [[a'|b] s'| | | |]; try done. apply IH; [done|lia].
Qed.
End MonadFacts.

#[export] Hint Rewrite @bind_modify @bind_gets @bind_mret : monad.

(** Evaluating one monadic bind whose first computation is known to return. *)
Ltac mstep H := rewrite (bind_Ret _ _ _ _ _ H).
Ltac munfold := unfold mbind, M_bind, mret, M_ret, gets, modify, when, assert_, read_local in *.

(** ** Zero-initialised arrays

    A C array is a [gmap Z] read with [!!!]: an index that was never written reads as the
    all-zero element, which is what [memset] at boot (or the BSS) left there.  The instance for
    words takes precedence over the one of the library, whose inhabitant is 1. *)
#[export] Instance Z_zero_inhabited : Inhabited Z | 0 := populate 0.
Lemma zero_array i : (∅ : gmap Z Z) !!! i = 0.
Proof. by rewrite lookup_total_empty. Qed.
Lemma array_get_set_eq {A} `{Inhabited A} (m : gmap Z A) i x : <[i:=x]> m !!! i = x.
Proof. apply lookup_total_insert_eq. Qed.
Lemma array_get_set_ne {A} `{Inhabited A} (m : gmap Z A) i j x :
  i ≠ j → <[i:=x]> m !!! j = m !!! j.
Proof. intros. by apply lookup_total_insert_ne. Qed.
Lemma array_set_set {A} (m : gmap Z A) i x y : <[i:=x]> (<[i:=y]> m) = <[i:=x]> m.
Proof. apply insert_insert_eq. Qed.

Create HintDb fos discriminated.
Create Rewrite HintDb arrays.
#[export] Hint Rewrite @array_get_set_eq @array_set_set : arrays.
#[export] Hint Rewrite @array_get_set_ne using (first [done | lia | congruence]) : arrays.

(** Solving goals about reads of updated arrays. *)
Ltac arr := repeat (autorewrite with arrays in *; cbn in *; try done).

(** Linear arithmetic with divisions and remainders by constants. *)
Ltac zdiv := Z.to_euclidean_division_equations; lia.

(** Membership in a list given by its elements. *)
Ltac in_list := first [by left | right; in_list].

(** ** Generic lemmas *)
Lemma Z_div_mul_small a b c : 0 ≤ c < b → (a * b + c) / b = a.
Proof. intros. rewrite Z.div_add_l by lia. rewrite Z.div_small by lia. lia. Qed.
Lemma Z_mod_mul_small a b c : 0 ≤ c < b → (a * b + c) `mod` b = c.
Proof. intros. rewrite Z.add_comm, Z.mod_add by lia. by apply Z.mod_small. Qed.

(** Boolean tests of the source as propositions. *)
Ltac zify_bool :=
  repeat match goal with
  | H : (_ =? _) = true |- _ => apply Z.eqb_eq in H
  | H : (_ =? _) = false |- _ => apply Z.eqb_neq in H
  | H : (_ <? _) = true |- _ => apply Z.ltb_lt in H
  | H : (_ <? _) = false |- _ => apply Z.ltb_ge in H
  | H : (_ <=? _) = true |- _ => apply Z.leb_le in H
  | H : (_ <=? _) = false |- _ => apply Z.leb_gt in H
  | H : _ && _ = true |- _ => apply andb_true_iff in H; destruct H
  | H : negb _ = true |- _ => apply negb_true_iff in H
  | H : negb _ = false |- _ => apply negb_false_iff in H
  end.
