(* ===== verification/Machine.v ===== *)
(** * Machine words and the address layout

    [inc/types.h] (integer types, rounding), [inc/mmu.h] (the two-level split of a linear
    address, page-table entries), [inc/memlayout.h] (the address map), [inc/error.h],
    [kern/helpers.h] (CONSTRUCT_ENTRY).  A [uint32] is a [Z] in [0, 2^32); every operation of
    the source that can leave that range wraps explicitly with [u32]. *)
From S2P Require Import Prelude.

Definition u32 (x : Z) : Z := x `mod` 2 ^ 32.
Definition u16 (x : Z) : Z := x `mod` 2 ^ 16.
Definition u8 (x : Z) : Z := x `mod` 2 ^ 8.
(** [int]: the two's complement reading of a 32-bit word. *)
Definition s32 (x : Z) : Z := (x + 2 ^ 31) `mod` 2 ^ 32 - 2 ^ 31.
(** [char], which is signed. *)
Definition s8 (x : Z) : Z := (x + 2 ^ 7) `mod` 2 ^ 8 - 2 ^ 7.

Definition is_u32 (x : Z) : Prop := 0 ≤ x < 2 ^ 32.

(** ** Rounding ([inc/types.h]) *)
Definition ROUNDDOWN (a n : Z) : Z := u32 (u32 a - u32 a `mod` n).
Definition ROUNDUP (a n : Z) : Z := ROUNDDOWN (u32 (u32 a + u32 n - 1)) (u32 n).

(** ** Linear addresses ([inc/mmu.h]) *)
Definition PAGE_SIZE : Z := 4096.
Definition NPTENTRIES : Z := 1024.
Definition PTSIZE : Z := PAGE_SIZE * NPTENTRIES.
Definition PGSHIFT : Z := 12.
Definition PTXSHIFT : Z := 12.
Definition PDXSHIFT : Z := 22.

Definition PPN (la : Z) : Z := Z.shiftr (u32 la) PTXSHIFT.
Definition PDX (la : Z) : Z := Z.land (Z.shiftr (u32 la) PDXSHIFT) 0x3FF.
Definition PTX (la : Z) : Z := Z.land (Z.shiftr (u32 la) PTXSHIFT) 0x3FF.
Definition PGOFF (la : Z) : Z := Z.land (u32 la) 0xFFF.
Definition PGADDR (d t o : Z) : Z :=
  Z.lor (Z.lor (u32 (Z.shiftl d PDXSHIFT)) (u32 (Z.shiftl t PTXSHIFT))) o.

(** Page-table entry flags. *)
Definition PERM_PRESENT : Z := 0x001.
Definition PERM_WRITEABLE : Z := 0x002.
Definition PERM_USER : Z := 0x004.
Definition PERM_USED : Z := 0x020.
Definition PERM_MODIFIED : Z := 0x040.
Definition PERM_BUFFERED : Z := 0x200.
Definition PERM_AVAILABLE : Z := 0xE00.

(** [~x] on a [uint32]. *)
Definition not32 (x : Z) : Z := u32 (Z.lnot x).
Definition EXTRACT_ADDRESS (entry : Z) : Z := Z.land (u32 entry) (not32 0xFFF).
Definition CONSTRUCT_ENTRY (phys_frame_address permissions : Z) : Z :=
  Z.lor phys_frame_address permissions.

(** ** The address map ([inc/memlayout.h]) *)
Definition KERNEL_BASE : Z := 0xF0000000.
Definition PHYS_IO_MEM : Z := 0x0A0000.
Definition PHYS_EXTENDED_MEM : Z := 0x100000.
Definition VPT : Z := KERNEL_BASE - PTSIZE.
Definition KERNEL_STACK_TOP : Z := VPT.
Definition KERNEL_STACK_SIZE : Z := 8 * PAGE_SIZE.
Definition USER_LIMIT : Z := KERNEL_STACK_TOP - PTSIZE.
Definition UVPT : Z := USER_LIMIT - PTSIZE.
Definition UENVS : Z := UVPT - 2 * PTSIZE.
Definition USER_TOP : Z := UENVS.
Definition USTACKTOP : Z := USER_TOP - 2 * PAGE_SIZE.
Definition UTEXT : Z := 2 * PTSIZE.
Definition KERNEL_HEAP_START : Z := 0xF6000000.
Definition KERNEL_HEAP_MAX : Z := 0xFFFFF000.
Definition USER_HEAP_START : Z := 0x80000000.
Definition USER_HEAP_MAX : Z := 0xA0000000.
(** [sizeof(struct WorkingSetElement)]: two words and a byte padded to a word. *)
Definition SIZEOF_WorkingSetElement : Z := 12.
Definition USER_PAGES_WS_START : Z := USER_HEAP_MAX.
(** [sizeof(struct WorkingSetElement) * USER_TOP/PAGE_SIZE]: the product comes first, in
    unsigned arithmetic. *)
Definition USER_PAGES_WS_MAX : Z :=
  u32 (USER_PAGES_WS_START + u32 (SIZEOF_WorkingSetElement * USER_TOP) `div` PAGE_SIZE).
Definition USTACKBOTTOM : Z := ROUNDUP USER_PAGES_WS_MAX PAGE_SIZE.
Definition USER_SHARED_MEM_START : Z := USER_HEAP_MAX.

Definition CHECK_IF_KERNEL_ADDRESS (va : Z) : bool :=
  (USER_TOP <=? u32 va) && (u32 va <=? 0xFFFFFFFF).

(** ** Error codes ([inc/error.h]) *)
Definition E_NO_MEM : Z := -4.
Definition E_NO_FREE_ENV : Z := -5.
Definition E_BAD_ENV : Z := -2.
Definition E_INVAL : Z := -3.
Definition E_NO_PAGE_FILE_SPACE : Z := -8.
Definition E_PAGE_NOT_EXIST_IN_PF : Z := -9.
Definition E_TABLE_NOT_EXIST_IN_PF : Z := -10.
Definition E_ENV_CREATION_ERROR : Z := -17.
Definition E_NO_VM : Z := -20.

(** ** Placement strategies of the user heap ([inc/uheap.h]) *)
Definition UHP_PLACE_FIRSTFIT : Z := 1.
Definition UHP_PLACE_BESTFIT : Z := 2.
Definition UHP_PLACE_NEXTFIT : Z := 3.
Definition UHP_PLACE_WORSTFIT : Z := 4.

(** ** Facts about words and addresses *)
Lemma u8_small x : 0 ≤ x < 256 → u8 x = x.
Proof. intros. by apply Z.mod_small. Qed.
Lemma u8_range x : 0 ≤ u8 x < 256.
Proof. apply Z.mod_pos_bound. done. Qed.
Lemma u32_small x : is_u32 x → u32 x = x.
Proof. apply Z.mod_small. Qed.
Lemma u32_range x : is_u32 (u32 x).
Proof. apply Z.mod_pos_bound. lia. Qed.
Lemma u32_idemp x : u32 (u32 x) = u32 x.
Proof. apply u32_small, u32_range. Qed.
Lemma u32_idemp_add x y : u32 (u32 x + y) = u32 (x + y).
Proof. apply Z.add_mod_idemp_l. done. Qed.
Lemma u32_idemp_sub x y : u32 (u32 x - y) = u32 (x - y).
Proof. apply Zminus_mod_idemp_l. Qed.
#[export] Hint Resolve u32_range : fos.

(** Signed words. *)
Definition is_s32 (x : Z) : Prop := - 2 ^ 31 ≤ x < 2 ^ 31.
Lemma s32_range x : is_s32 (s32 x).
Proof. unfold is_s32, s32. zdiv. Qed.
Lemma s32_small x : is_s32 x → s32 x = x.
Proof. unfold is_s32, s32. intros. zdiv. Qed.
Lemma s32_period x k : s32 (x + k * 2 ^ 32) = s32 x.
Proof. unfold s32. by rewrite <-Z.add_assoc, (Z.add_comm (k * _)), Z.add_assoc, Z.mod_add. Qed.
Lemma s32_word x : ∃ k, s32 x = x + k * 2 ^ 32.
Proof. unfold s32. exists (- ((x + 2 ^ 31) / 2 ^ 32)). zdiv. Qed.
Lemma s32_step x b c : s32 (s32 x * b + c) = s32 (x * b + c).
Proof.
  destruct (s32_word x) as [k ->]. rewrite <-(s32_period (x * b + c) (k * b)). f_equal. lia.
Qed.
Lemma s32_idemp x : s32 (s32 x) = s32 x.
Proof. apply s32_small, s32_range. Qed.
Lemma s32_opp x : s32 (- s32 x) = s32 (- x).
Proof. destruct (s32_word x) as [k ->]. rewrite <-(s32_period (- x) (- k)). f_equal. lia. Qed.
Lemma s32_u32 x : s32 (u32 x) = s32 x.
Proof. unfold u32. rewrite <-(s32_period (x `mod` 2 ^ 32) (x / 2 ^ 32)). f_equal. zdiv. Qed.
Lemma u32_s32 x : u32 (s32 x) = u32 x.
Proof. destruct (s32_word x) as [k ->]. unfold u32. by rewrite Z.mod_add. Qed.
Lemma u8_u32 x : u8 (u32 x) = u8 x.
Proof. unfold u8, u32. zdiv. Qed.

Lemma land_0x3FF x : Z.land x 0x3FF = x `mod` 1024.
Proof. apply (Z.land_ones x 10). lia. Qed.
Lemma land_0xFFF x : Z.land x 0xFFF = x `mod` 4096.
Proof. apply (Z.land_ones x 12). lia. Qed.

Lemma PDX_eq la : PDX la = u32 la `div` PTSIZE.
Proof.
  unfold PDX. rewrite land_0x3FF, Z.shiftr_div_pow2 by done. apply Z.mod_small.
  pose proof (u32_range la) as [? ?]. unfold PTSIZE, PAGE_SIZE, NPTENTRIES, PDXSHIFT in *.
  split; [apply Z.div_pos; lia | apply Z.div_lt_upper_bound; lia].
Qed.
Lemma PTX_eq la : PTX la = (u32 la `div` PAGE_SIZE) `mod` NPTENTRIES.
Proof. unfold PTX. by rewrite land_0x3FF, Z.shiftr_div_pow2. Qed.
Lemma PPN_eq la : PPN la = u32 la `div` PAGE_SIZE.
Proof. unfold PPN. by rewrite Z.shiftr_div_pow2. Qed.

Lemma PDX_range la : 0 ≤ PDX la < 1024.
Proof.
  rewrite PDX_eq. pose proof (u32_range la) as [? ?]. unfold PTSIZE, PAGE_SIZE, NPTENTRIES.
  split; [apply Z.div_pos; lia | apply Z.div_lt_upper_bound; lia].
Qed.
Lemma PTX_range la : 0 ≤ PTX la < 1024.
Proof. rewrite PTX_eq. apply Z.mod_pos_bound. done. Qed.
#[export] Hint Resolve PDX_range PTX_range : fos.

Lemma PDX_PTX_PPN la : PPN la = PDX la * NPTENTRIES + PTX la.
Proof.
  rewrite PPN_eq, PDX_eq, PTX_eq. unfold PTSIZE.
  rewrite <-Z.div_div by done. rewrite Z.mul_comm. by apply Z.div_mod.
Qed.

Lemma EXTRACT_ADDRESS_eq e : EXTRACT_ADDRESS e = (u32 e `div` PAGE_SIZE) * PAGE_SIZE.
Proof.
  unfold EXTRACT_ADDRESS. apply Z.bits_inj'. intros n Hn.
  rewrite Z.land_spec. unfold PAGE_SIZE. change 4096 with (2 ^ 12).
  rewrite <-Z.shiftl_mul_pow2, <-Z.shiftr_div_pow2 by done.
  rewrite Z.shiftl_spec by done.
  destruct (decide (n < 32)) as [H32|H32].
  - unfold not32, u32 at 2. rewrite Z.mod_pow2_bits_low, Z.lnot_spec by lia.
    change 4095 with (Z.ones 12).
    destruct (decide (n < 12)).
    + rewrite Z.ones_spec_low, (Z.testbit_neg_r _ (n - 12)) by lia. apply andb_false_r.
    + rewrite Z.ones_spec_high, Z.shiftr_spec by lia. rewrite andb_true_r. f_equal. lia.
  - rewrite Z.shiftr_spec by lia. unfold u32.
    rewrite !Z.mod_pow2_bits_high by lia. apply andb_false_l.
Qed.

Lemma EXTRACT_CONSTRUCT f perm :
  0 ≤ f < 2 ^ 20 → 0 ≤ perm < PAGE_SIZE →
  EXTRACT_ADDRESS (CONSTRUCT_ENTRY (f * PAGE_SIZE) perm) = f * PAGE_SIZE.
Proof.
  intros Hf Hp. rewrite EXTRACT_ADDRESS_eq. unfold CONSTRUCT_ENTRY, PAGE_SIZE in *.
  assert (Z.lor (f * 4096) perm = f * 4096 + perm) as ->.
  { rewrite <-Z.add_lor_land.
    assert (Z.land (f * 4096) perm = 0) as ->; [|lia].
    apply Z.bits_inj'. intros n Hn. rewrite Z.land_spec, Z.bits_0.
    change 4096 with (2 ^ 12). rewrite Z.mul_pow2_bits by done.
    destruct (decide (n < 12)).
    - by rewrite (Z.testbit_neg_r _ (n - 12)) by lia.
    - rewrite <-(Z.mod_small perm (2 ^ 12)) by (cbn; lia).
      rewrite Z.mod_pow2_bits_high by lia. apply andb_false_r. }
  rewrite u32_small by (unfold is_u32; lia). by rewrite Z_div_mul_small.
Qed.
