(* ===== verification/Queue.v ===== *)
(** * The intrusive doubly linked list of [inc/queue.h]

    The macros work on any structure with a [prev_next_info] member; a node type is an instance
    of [LinkedNode], which names that member's two pointers and the laws of a structure
    member.  A pointer into an array of nodes is [Some i], [NULL] is [None].  Each operation
    performs the macro's assignments in the macro's order on the node array and the head.

    [dll h l xs] says that the pointers represent the sequence [xs]; the second half proves that
    every operation implements its sequence operation and leaves all other nodes alone. *)
From S2P Require Import Prelude Machine.

Class LinkedNode (E : Type) `{Inhabited E} := {
  le_next : E → option Z;
  le_prev : E → option Z;
  set_le_next : option Z → E → E;
  set_le_prev : option Z → E → E;
  next_set_next p e : le_next (set_le_next p e) = p;
  next_set_prev p e : le_next (set_le_prev p e) = le_next e;
  prev_set_prev p e : le_prev (set_le_prev p e) = p;
  prev_set_next p e : le_prev (set_le_next p e) = le_prev e;
  set_next_next p q e : set_le_next p (set_le_next q e) = set_le_next p e;
  set_prev_prev p q e : set_le_prev p (set_le_prev q e) = set_le_prev p e;
  set_next_prev p q e : set_le_next p (set_le_prev q e) = set_le_prev q (set_le_next p e);
}.
#[export] Hint Rewrite @next_set_next @next_set_prev @prev_set_prev @prev_set_next : arrays.

(** [LIST_HEAD]: first, last, size.  [___ptr_next] is a scratch cell that only [LIST_FOREACH]
    uses; it is the local [next] of [list_foreach]. *)
Record ListHead := MkListHead { lh_first : option Z; lh_last : option Z; lh_size : Z }.
#[export] Instance ListHead_inhabited : Inhabited ListHead := populate (MkListHead None None 0).

Definition set_first (p : option Z) (l : ListHead) : ListHead :=
  MkListHead p (lh_last l) (lh_size l).
Definition set_last (p : option Z) (l : ListHead) : ListHead :=
  MkListHead (lh_first l) p (lh_size l).
Definition set_size (n : Z) (l : ListHead) : ListHead :=
  MkListHead (lh_first l) (lh_last l) (u32 n).

Section Macros.
Context {E : Type} `{LinkedNode E}.
#[local] Abbreviation heap := (gmap Z E).

Definition LIST_NEXT (h : heap) (x : Z) : option Z := le_next (h !!! x).
Definition LIST_PREV (h : heap) (x : Z) : option Z := le_prev (h !!! x).
Definition put_next (x : Z) (p : option Z) (h : heap) : heap :=
  <[x := set_le_next p (h !!! x)]> h.
Definition put_prev (x : Z) (p : option Z) (h : heap) : heap :=
  <[x := set_le_prev p (h !!! x)]> h.
Definition put_next_opt (x : option Z) (p : option Z) (h : heap) : heap :=
  match x with Some y => put_next y p h | None => h end.
Definition put_prev_opt (x : option Z) (p : option Z) (h : heap) : heap :=
  match x with Some y => put_prev y p h | None => h end.

Definition LIST_EMPTY (l : ListHead) : bool :=
  match lh_first l with None => true | Some _ => false end.
Definition LOOP_LIST_NEXT (h : heap) (elm : option Z) : option Z :=
  match elm with None => None | Some x => LIST_NEXT h x end.
Definition LIST_INIT (l : ListHead) : ListHead := MkListHead None None 0.

Definition LIST_INSERT_AFTER (h : heap) (l : ListHead) (listelm elm : Z) : heap * ListHead :=
  let h := put_next elm (LIST_NEXT h listelm) h in
  let h := match LIST_NEXT h elm with
           | Some _ => put_prev_opt (LIST_NEXT h listelm) (Some elm) h
           | None => h end in
  let h := put_next listelm (Some elm) h in
  let h := put_prev elm (Some listelm) h in
  let l := match LIST_NEXT h elm with None => set_last (Some elm) l | Some _ => l end in
  (h, set_size (lh_size l + 1) l).

Definition LIST_INSERT_BEFORE (h : heap) (l : ListHead) (listelm elm : Z) : heap * ListHead :=
  let h := put_prev elm (LIST_PREV h listelm) h in
  let h := put_next elm (Some listelm) h in
  let '(h, l) := match LIST_PREV h listelm with
                 | Some p => (put_next p (Some elm) h, l)
                 | None => (h, set_first (Some elm) l) end in
  let h := put_prev listelm (Some elm) h in
  (h, set_size (lh_size l + 1) l).

Definition LIST_INSERT_HEAD (h : heap) (l : ListHead) (elm : Z) : heap * ListHead :=
  let h := put_next elm (lh_first l) h in
  let '(h, l) := match lh_first l with
                 | Some f => (put_prev f (Some elm) h, l)
                 | None => (h, set_last (Some elm) l) end in
  let l := set_first (Some elm) l in
  let h := put_prev elm None h in
  (h, set_size (lh_size l + 1) l).

Definition LIST_INSERT_TAIL (h : heap) (l : ListHead) (elm : Z) : heap * ListHead :=
  let h := put_prev elm (lh_last l) h in
  let '(h, l) := match lh_last l with
                 | Some f => (put_next f (Some elm) h, l)
                 | None => (h, set_first (Some elm) l) end in
  let l := set_last (Some elm) l in
  let h := put_next elm None h in
  (h, set_size (lh_size l + 1) l).

Definition LIST_REMOVE (h : heap) (l : ListHead) (elm : Z) : heap * ListHead :=
  let '(h, l) := match LIST_NEXT h elm with
                 | Some n => (put_prev n (LIST_PREV h elm) h, l)
                 | None => (h, set_last (LIST_PREV h elm) l) end in
  let '(h, l) := match LIST_PREV h elm with
                 | Some p => (put_next p (LIST_NEXT h elm) h, l)
                 | None => (h, set_first (LIST_NEXT h elm) l) end in
  let h := put_next elm None h in
  let h := put_prev elm None h in
  (h, set_size (lh_size l - 1) l).

(** [LIST_CONCAT(list1, list2)]: the new node array and both heads. *)
Definition LIST_CONCAT (h : heap) (l1 l2 : ListHead) : heap * ListHead * ListHead :=
  let '(h, l1, l2) :=
    match lh_first l1, lh_first l2 with
    | None, _ => (h, set_last (lh_last l2) (set_first (lh_first l2) l1), l2)
    | Some _, None => (h, l1, l2)
    | Some _, Some f2 =>
        let h := put_next_opt (lh_last l1) (Some f2) h in
        let h := put_prev f2 (lh_last l1) h in
        let l1 := set_last (lh_last l2) l1 in
        (h, l1, LIST_INIT l2)
    end in
  (h, set_size (lh_size l1 + lh_size l2) l1, l2).

(** [LIST_FOREACH(var, head) body]: the successor is saved before the body runs, so a body
    may remove [var].  [heap_of] reads the node array of the current state. *)
Definition list_foreach {S} (heap_of : S → heap) (fuel : nat) (first : option Z)
    (body : Z → M S unit) : M S unit :=
  mloop fuel (λ var,
    h ← gets heap_of;
    let next := LOOP_LIST_NEXT h var in
    match var, next with
    | None, None => mret (inr tt)
    | None, Some _ => undefined "LIST_FOREACH body on NULL"
    | Some x, _ => body x;; mret (inl next)
    end) first.

(** [LIST_FOREACH] whose body updates locals [a] or leaves the loop ([inr]); [fin] is what the
    code after the loop makes of the locals. *)
Definition list_loop {S A B} (heap_of : S → heap) (fuel : nat) (first : option Z)
    (a : A) (body : A → Z → M S (A + B)) (fin : A → B) : M S B :=
  mloop fuel (λ '(a, var),
    h ← gets heap_of;
    match var with
    | None => mret (inr (fin a))
    | Some x =>
        let next := LIST_NEXT h x in
        r ← body a x;
        match r with inl a' => mret (inl (a', next)) | inr b => mret (inr b) end
    end) (a, first).
End Macros.

(** ** What the pointers represent *)
Section Representation.
Context {E : Type} `{LinkedNode E}.
#[local] Abbreviation heap := (gmap Z E).
Implicit Types (h : heap) (l : ListHead) (xs ys : list Z) (x y z : Z).

Definition hd_or (n : option Z) xs : option Z := match xs with [] => n | y :: _ => Some y end.
Fixpoint last_or (p : option Z) xs : option Z :=
  match xs with [] => p | y :: ys => last_or (Some y) ys end.

(** The nodes [xs] are linked both ways, between the outer neighbours [p] and [n]. *)
Fixpoint dseg h (p : option Z) xs (n : option Z) : Prop :=
  match xs with
  | [] => True
  | x :: ys => LIST_PREV h x = p ∧ LIST_NEXT h x = hd_or n ys ∧ dseg h (Some x) ys n
  end.

Definition dll h l xs : Prop :=
  lh_first l = hd_or None xs ∧ lh_last l = last_or None xs ∧
  lh_size l = u32 (Z.of_nat (length xs)) ∧ NoDup xs ∧ dseg h None xs None.

(** A node without its links; list operations only change links. *)
Definition strip (e : E) : E := set_le_next None (set_le_prev None e).
Definition relinked h h' : Prop := ∀ z, strip (h' !!! z) = strip (h !!! z).

#[export] Instance relinked_equiv : Equivalence relinked.
Proof. unfold relinked. split; red; intros; congruence. Qed.

Lemma strip_next p e : strip (set_le_next p e) = strip e.
Proof. unfold strip. by rewrite set_next_prev, set_next_next, <-set_next_prev. Qed.
Lemma strip_prev p e : strip (set_le_prev p e) = strip e.
Proof. unfold strip. by rewrite set_prev_prev. Qed.

Lemma next_put_next x p h y :
  LIST_NEXT (put_next x p h) y = if decide (x = y) then p else LIST_NEXT h y.
Proof. unfold LIST_NEXT, put_next. case_decide; subst; arr; by rewrite ?next_set_next. Qed.
Lemma prev_put_next x p h y : LIST_PREV (put_next x p h) y = LIST_PREV h y.
Proof.
  unfold LIST_PREV, put_next. destruct (decide (x = y)); subst; arr; by rewrite ?prev_set_next.
Qed.
Lemma prev_put_prev x p h y :
  LIST_PREV (put_prev x p h) y = if decide (x = y) then p else LIST_PREV h y.
Proof. unfold LIST_PREV, put_prev. case_decide; subst; arr; by rewrite ?prev_set_prev. Qed.
Lemma next_put_prev x p h y : LIST_NEXT (put_prev x p h) y = LIST_NEXT h y.
Proof.
  unfold LIST_NEXT, put_prev. destruct (decide (x = y)); subst; arr; by rewrite ?next_set_prev.
Qed.
Lemma relinked_put_next x p h : relinked h (put_next x p h).
Proof.
  intros z. unfold put_next. destruct (decide (x = z)); subst; arr; by rewrite ?strip_next.
Qed.
Lemma relinked_put_prev x p h : relinked h (put_prev x p h).
Proof.
  intros z. unfold put_prev. destruct (decide (x = z)); subst; arr; by rewrite ?strip_prev.
Qed.
Lemma put_next_other x p h z : x ≠ z → put_next x p h !!! z = h !!! z.
Proof. intros. unfold put_next. by rewrite array_get_set_ne. Qed.
Lemma put_prev_other x p h z : x ≠ z → put_prev x p h !!! z = h !!! z.
Proof. intros. unfold put_prev. by rewrite array_get_set_ne. Qed.

Lemma hd_or_app n xs ys : hd_or n (xs ++ ys) = hd_or (hd_or n ys) xs.
Proof. by destruct xs. Qed.
Lemma last_or_app p xs ys : last_or p (xs ++ ys) = last_or (last_or p xs) ys.
Proof. revert p. by induction xs; cbn. Qed.
Lemma last_or_Some p xs y : last_or p xs = Some y → p = Some y ∨ y ∈ xs.
Proof.
  revert p. induction xs as [|x xs IH]; cbn; [by left|]. intros p Hl. right.
  destruct (IH _ Hl); [|by right]. simplify_eq. by left.
Qed.

Lemma dseg_app h p xs ys n :
  dseg h p (xs ++ ys) n ↔ dseg h p xs (hd_or n ys) ∧ dseg h (last_or p xs) ys n.
Proof.
  revert p. induction xs as [|x xs IH]; intros p; cbn; [tauto|].
  rewrite IH, hd_or_app. tauto.
Qed.

Lemma dseg_agree h h' p xs n :
  (∀ x, x ∈ xs → LIST_NEXT h' x = LIST_NEXT h x ∧ LIST_PREV h' x = LIST_PREV h x) →
  dseg h p xs n → dseg h' p xs n.
Proof.
  revert p. induction xs as [|x xs IH]; intros p Hag; cbn; [done|].
  intros (Hp & Hn & Hs). destruct (Hag x) as [-> ->]; [by left|].
  split_and!; try done. apply IH; [|done]. intros. apply Hag. by right.
Qed.
Lemma dseg_put_next_other h p xs n y q :
  y ∉ xs → dseg h p xs n → dseg (put_next y q h) p xs n.
Proof.
  intros Hy. apply dseg_agree. intros x Hx. rewrite next_put_next, prev_put_next.
  case_decide; [subst; done|done].
Qed.
Lemma dseg_put_prev_other h p xs n y q :
  y ∉ xs → dseg h p xs n → dseg (put_prev y q h) p xs n.
Proof.
  intros Hy. apply dseg_agree. intros x Hx. rewrite prev_put_prev, next_put_prev.
  case_decide; [subst; done|done].
Qed.
(** Changing what lies before the first node or after the last one. *)
Lemma dseg_put_prev_first h p q x xs n :
  x ∉ xs → dseg h p (x :: xs) n → dseg (put_prev x q h) q (x :: xs) n.
Proof.
  intros Hx (Hp & Hn & Hs). cbn. rewrite prev_put_prev, next_put_prev.
  rewrite decide_True by done. split_and!; try done. by apply dseg_put_prev_other.
Qed.
Lemma dseg_put_next_last h p xs x n q :
  x ∉ xs → dseg h p (xs ++ [x]) n → dseg (put_next x q h) p (xs ++ [x]) q.
Proof.
  intros Hx. rewrite !dseg_app. cbn. intros (Hs & Hp & Hn & _).
  rewrite next_put_next, prev_put_next, decide_True by done.
  split_and!; try done. by apply dseg_put_next_other.
Qed.
End Representation.

(** ** Each operation implements its sequence operation *)
Section Refinement.
Context {E : Type} `{LinkedNode E}.
#[local] Abbreviation heap := (gmap Z E).
Implicit Types (h : heap) (l : ListHead) (xs ys : list Z) (x y z : Z).

Lemma last_or_snoc p xs x : last_or p (xs ++ [x]) = Some x.
Proof. by rewrite last_or_app. Qed.

Lemma dseg_set_end h p xs m q :
  NoDup xs → dseg h p xs m → dseg (put_next_opt (last_or None xs) q h) p xs q.
Proof.
  destruct xs as [|x xs _] using rev_ind; [done|]. rewrite last_or_snoc.
  intros Hnd. apply NoDup_app in Hnd as (_ & Hd & _). apply dseg_put_next_last.
  intros Hin. apply (Hd x Hin). by left.
Qed.
Lemma dseg_set_begin h p xs n q :
  NoDup xs → dseg h p xs n → dseg (put_prev_opt (hd_or None xs) q h) q xs n.
Proof.
  destruct xs as [|x xs]; [done|]. intros [Hx _]%NoDup_cons. by apply dseg_put_prev_first.
Qed.
Lemma dseg_put_next_opt_other h p xs n o q :
  (∀ y, o = Some y → y ∉ xs) → dseg h p xs n → dseg (put_next_opt o q h) p xs n.
Proof. destruct o as [y|]; cbn; [|done]. intros Hy. apply dseg_put_next_other. auto. Qed.
Lemma dseg_put_prev_opt_other h p xs n o q :
  (∀ y, o = Some y → y ∉ xs) → dseg h p xs n → dseg (put_prev_opt o q h) p xs n.
Proof. destruct o as [y|]; cbn; [|done]. intros Hy. apply dseg_put_prev_other. auto. Qed.

(** [h'] differs from [h] at most in the links of the nodes [W]. *)
Definition links_only (W : list Z) h h' : Prop :=
  relinked h h' ∧ ∀ z, z ∉ W → h' !!! z = h !!! z.

Lemma links_only_refl W h : links_only W h h.
Proof. by split. Qed.
Lemma links_only_put_next W h h' x p :
  x ∈ W → links_only W h h' → links_only W h (put_next x p h').
Proof.
  intros Hx [Hr Ho]. split; [etrans; [done|apply relinked_put_next]|].
  intros z Hz. rewrite put_next_other by (intros ->; done). auto.
Qed.
Lemma links_only_put_prev W h h' x p :
  x ∈ W → links_only W h h' → links_only W h (put_prev x p h').
Proof.
  intros Hx [Hr Ho]. split; [etrans; [done|apply relinked_put_prev]|].
  intros z Hz. rewrite put_prev_other by (intros ->; done). auto.
Qed.
Lemma links_only_put_next_opt W h h' o p :
  (∀ y, o = Some y → y ∈ W) → links_only W h h' → links_only W h (put_next_opt o p h').
Proof. destruct o; cbn; [|done]. intros. apply links_only_put_next; auto. Qed.
Lemma links_only_put_prev_opt W h h' o p :
  (∀ y, o = Some y → y ∈ W) → links_only W h h' → links_only W h (put_prev_opt o p h').
Proof. destruct o; cbn; [|done]. intros. apply links_only_put_prev; auto. Qed.
Lemma hd_or_Some xs y : hd_or None xs = Some y → y ∈ xs.
Proof. destruct xs; cbn; [done|]. intros. simplify_eq. by left. Qed.
Lemma last_or_None_Some xs y : last_or None xs = Some y → y ∈ xs.
Proof. intros [|]%last_or_Some; done. Qed.
Lemma last_or_cons p x xs : ∃ y, last_or p (x :: xs) = Some y.
Proof. revert x p. induction xs as [|y xs IH]; intros x p; [by exists x|]. apply (IH y None). Qed.
Lemma last_or_cons_None p xs : xs ≠ [] → last_or p xs = last_or None xs.
Proof. by destruct xs. Qed.
Lemma hd_or_cons_None p xs : xs ≠ [] → hd_or p xs = hd_or None xs.
Proof. by destruct xs. Qed.

Lemma NoDup_mid xs x ys :
  NoDup (xs ++ x :: ys) →
  NoDup xs ∧ NoDup ys ∧ x ∉ xs ∧ x ∉ ys ∧ (∀ z, z ∈ xs → z ∉ ys) ∧ NoDup (xs ++ ys).
Proof.
  rewrite !NoDup_app, NoDup_cons. intros (? & Hd & ? & ?).
  assert (x ∉ xs) by (intros Hx; apply (Hd x Hx); by left).
  assert (∀ z, z ∈ xs → z ∉ ys) by (intros z Hz Hz'; apply (Hd z Hz); by right).
  naive_solver.
Qed.

(** What [LIST_REMOVE] computes, with the conditional assignments folded. *)
Lemma LIST_REMOVE_eq h l x n p :
  LIST_NEXT h x = n → LIST_PREV h x = p → n ≠ Some x → p ≠ Some x →
  LIST_REMOVE h l x =
    (put_prev x None (put_next x None (put_next_opt p n (put_prev_opt n p h))),
     MkListHead (match p with Some _ => lh_first l | None => n end)
                (match n with Some _ => lh_last l | None => p end) (u32 (lh_size l - 1))).
Proof.
  intros Hn Hp Hnx Hpx. unfold LIST_REMOVE. rewrite Hn, Hp.
  destruct n as [n|]; destruct p as [p|]; cbn;
    rewrite ?prev_put_prev, ?next_put_prev, ?decide_False by congruence; rewrite ?Hn, ?Hp; done.
Qed.

Lemma dll_remove h l xs x ys :
  dll h l (xs ++ x :: ys) →
  let '(h', l') := LIST_REMOVE h l x in
  dll h' l' (xs ++ ys) ∧ links_only (xs ++ x :: ys) h h' ∧
  LIST_NEXT h' x = None ∧ LIST_PREV h' x = None.
Proof.
  intros (Hf & Hl & Hsz & Hnd & Hs).
  apply NoDup_mid in Hnd as (Hnx & Hny & Hxx & Hxy & Hdis & Hnd).
  apply dseg_app in Hs as [Hs1 (Hp & Hn & Hs2)].
  assert (∀ z, last_or None xs = Some z → z ∈ xs) as Hlast by apply last_or_None_Some.
  assert (∀ z, hd_or None ys = Some z → z ∈ ys) as Hhd by apply hd_or_Some.
  rewrite (LIST_REMOVE_eq h l x (hd_or None ys) (last_or None xs));
    [|done|done|intros Hc; by apply Hhd in Hc|intros Hc; by apply Hlast in Hc].
  split_and!.
  - split_and!; cbn.
    + rewrite Hf, !hd_or_app. destruct xs as [|a xs]; [done|].
      destruct (last_or_cons None a xs) as [y Hy]. by rewrite Hy.
    + rewrite Hl, !last_or_app. cbn. by destruct ys.
    + rewrite Hsz, !length_app, u32_idemp_sub. cbn. f_equal. lia.
    + done.
    + apply dseg_app. split.
      * apply dseg_put_prev_other, dseg_put_next_other; [done..|].
        eapply dseg_set_end; [done|]. apply dseg_put_prev_opt_other; [|done].
        intros y Hy%Hhd Hy'. by eapply Hdis.
      * apply dseg_put_prev_other, dseg_put_next_other; [done..|].
        apply dseg_put_next_opt_other; [intros y Hy%Hlast; by apply Hdis|].
        by eapply dseg_set_begin.
  - apply links_only_put_prev, links_only_put_next, links_only_put_next_opt,
      links_only_put_prev_opt, links_only_refl; try set_solver.
  - by rewrite next_put_prev, next_put_next, decide_True.
  - by rewrite prev_put_prev, decide_True.
Qed.

(** The links of [h] with [x] spliced in between the neighbours [p] and [n]. *)
Definition link_in h x (p n : option Z) : heap :=
  put_next_opt p (Some x) (put_prev_opt n (Some x) (put_next x n (put_prev x p h))).
Definition same_links h h' : Prop :=
  ∀ z, LIST_NEXT h' z = LIST_NEXT h z ∧ LIST_PREV h' z = LIST_PREV h z.

Lemma next_link_in h x p n z :
  LIST_NEXT (link_in h x p n) z =
    if decide (p = Some z) then Some x else if decide (x = z) then n else LIST_NEXT h z.
Proof.
  unfold link_in. destruct p as [p|], n as [n|]; cbn;
    rewrite ?next_put_next, ?next_put_prev, ?next_put_next, ?next_put_prev;
    repeat case_decide; congruence.
Qed.
Lemma prev_link_in h x p n z :
  LIST_PREV (link_in h x p n) z =
    if decide (n = Some z) then Some x else if decide (x = z) then p else LIST_PREV h z.
Proof.
  unfold link_in. destruct p as [p|], n as [n|]; cbn;
    rewrite ?prev_put_next, ?prev_put_prev, ?prev_put_next, ?prev_put_prev;
    repeat case_decide; congruence.
Qed.

Lemma dseg_link_in h x xs ys :
  NoDup (xs ++ ys) → x ∉ xs ++ ys → dseg h None (xs ++ ys) None →
  dseg (link_in h x (last_or None xs) (hd_or None ys)) None (xs ++ x :: ys) None.
Proof.
  intros (Hnx & Hdis & Hny)%NoDup_app Hx Hs. rewrite not_elem_of_app in Hx. destruct Hx as [Hxx Hxy].
  apply dseg_app in Hs as [Hs1 Hs2]. apply dseg_app. cbn. split_and!.
  - eapply dseg_set_end; [done|].
    apply dseg_put_prev_opt_other; [intros y Hy%hd_or_Some Hy'; by eapply Hdis|].
    by apply dseg_put_next_other, dseg_put_prev_other.
  - rewrite prev_link_in. rewrite decide_False by (intros Hc%hd_or_Some; done).
    by rewrite decide_True.
  - rewrite next_link_in. rewrite decide_False by (intros Hc%last_or_None_Some; done).
    by rewrite decide_True.
  - apply dseg_put_next_opt_other; [intros y Hy%last_or_None_Some; by apply Hdis|].
    eapply dseg_set_begin; [done|]. by apply dseg_put_next_other, dseg_put_prev_other.
Qed.

Lemma dll_link_in h h' l l' xs x ys :
  dll h l (xs ++ ys) → x ∉ xs ++ ys →
  same_links (link_in h x (last_or None xs) (hd_or None ys)) h' →
  lh_first l' = hd_or None (xs ++ x :: ys) → lh_last l' = last_or None (xs ++ x :: ys) →
  lh_size l' = u32 (lh_size l + 1) →
  dll h' l' (xs ++ x :: ys).
Proof.
  intros (Hf & Hl & Hsz & Hnd & Hs) Hx Hsame Hf' Hl' Hsz'. split_and!; try done.
  - rewrite Hsz', Hsz, u32_idemp_add, !length_app. cbn. f_equal. lia.
  - apply NoDup_app in Hnd as (? & Hd & ?). rewrite not_elem_of_app in Hx.
    apply NoDup_app. rewrite NoDup_cons. set_solver.
  - eapply dseg_agree, dseg_link_in; auto.
Qed.

Lemma links_only_link_in W h x p n :
  x ∈ W → (∀ y, p = Some y → y ∈ W) → (∀ y, n = Some y → y ∈ W) →
  links_only W h (link_in h x p n).
Proof.
  intros. unfold link_in. apply links_only_put_next_opt, links_only_put_prev_opt,
    links_only_put_next, links_only_put_prev, links_only_refl; auto.
Qed.

Ltac link_cases :=
  intros ?; rewrite ?next_link_in, ?prev_link_in;
  repeat first [rewrite next_put_next | rewrite next_put_prev
               | rewrite prev_put_next | rewrite prev_put_prev];
  repeat case_decide; split; congruence.
Ltac write_links :=
  repeat first [apply links_only_refl | apply links_only_put_next; [set_solver|]
               | apply links_only_put_prev; [set_solver|]].

Lemma dll_insert_before h l xs y ys x :
  dll h l (xs ++ y :: ys) → x ∉ xs ++ y :: ys →
  let '(h', l') := LIST_INSERT_BEFORE h l y x in
  dll h' l' (xs ++ x :: y :: ys) ∧ links_only (x :: xs ++ y :: ys) h h'.
Proof.
  intros Hd Hx. pose proof Hd as (Hf & Hl & Hsz & Hnd & Hs).
  assert (LIST_PREV h y = last_or None xs) as Hp by (apply dseg_app in Hs; cbn in Hs; tauto).
  apply NoDup_mid in Hnd as (_ & _ & Hyx & _).
  assert (∀ q, last_or None xs = Some q → q ∈ xs) as Hlast by apply last_or_None_Some.
  assert (x ≠ y) by set_solver.
  unfold LIST_INSERT_BEFORE. rewrite Hp, prev_put_next, prev_put_prev, decide_False, Hp by done.
  destruct (last_or None xs) as [q|] eqn:Hq.
  - assert (q ∈ xs) by auto. assert (q ≠ x ∧ q ≠ y) as [] by set_solver.
    destruct xs as [|a xs]; [done|]. split; [|write_links].
    eapply dll_link_in; [done|done| |done| |done]; [rewrite Hq; cbn; link_cases|].
    cbn. rewrite Hl. cbn. by rewrite !last_or_app.
  - destruct xs as [|a xs]; [|by destruct (last_or_cons None a xs); congruence].
    split; [|write_links].
    eapply (dll_link_in h _ l _ []); [done|done| |done| |done]; [cbn; link_cases|done].
Qed.

Lemma dll_insert_head h l xs x :
  dll h l xs → x ∉ xs →
  let '(h', l') := LIST_INSERT_HEAD h l x in
  dll h' l' (x :: xs) ∧ links_only (x :: xs) h h'.
Proof.
  intros Hd Hx. pose proof Hd as (Hf & Hl & Hsz & Hnd & Hs). unfold LIST_INSERT_HEAD.
  rewrite Hf. destruct xs as [|y xs]; cbn [hd_or]; (split; [|write_links]).
  - eapply (dll_link_in h _ l _ [] x []); [done|done| |done|done|done]. cbn. link_cases.
  - assert (x ≠ y) by set_solver.
    eapply (dll_link_in h _ l _ [] x (y :: xs)); [done|done| |done|done|done].
    cbn. link_cases.
Qed.

Lemma dll_insert_tail h l xs x :
  dll h l xs → x ∉ xs →
  let '(h', l') := LIST_INSERT_TAIL h l x in
  dll h' l' (xs ++ [x]) ∧ links_only (x :: xs) h h'.
Proof.
  intros Hd Hx. rewrite <-(app_nil_r xs) in Hd. pose proof Hd as (Hf & Hl & Hsz & Hnd & Hs).
  rewrite app_nil_r in *. unfold LIST_INSERT_TAIL. rewrite Hl.
  assert (∀ q, last_or None xs = Some q → q ∈ xs) as Hlast by apply last_or_None_Some.
  destruct (last_or None xs) as [q|] eqn:Hq.
  - assert (q ∈ xs) by auto. assert (q ≠ x) by set_solver.
    destruct xs as [|a xs]; [done|]. split; [|write_links].
    eapply (dll_link_in h _ l _ (a :: xs) x []); rewrite ?app_nil_r; [done|done| |done| |done].
    + rewrite Hq. cbn. link_cases.
    + cbn. by rewrite last_or_app.
  - destruct xs as [|a xs]; [|by destruct (last_or_cons None a xs); congruence].
    split; [|write_links].
    eapply (dll_link_in h _ l _ [] x []); [done|done| |done|done|done]. cbn. link_cases.
Qed.
End Refinement.

(** ** Whole runs of list operations *)
Inductive qop :=
  | QInsertHead (x : Z) | QInsertTail (x : Z) | QInsertBefore (y x : Z) | QRemove (x : Z).

Section Runs.
Context {E : Type} `{LinkedNode E}.
#[local] Abbreviation heap := (gmap Z E).

Definition qop_run (op : qop) (hl : heap * ListHead) : heap * ListHead :=
  let '(h, l) := hl in
  match op with
  | QInsertHead x => LIST_INSERT_HEAD h l x
  | QInsertTail x => LIST_INSERT_TAIL h l x
  | QInsertBefore y x => LIST_INSERT_BEFORE h l y x
  | QRemove x => LIST_REMOVE h l x
  end.
Definition qops_run (ops : list qop) (hl : heap * ListHead) : heap * ListHead :=
  fold_left (λ hl op, qop_run op hl) ops hl.
End Runs.

(** The same operations on plain sequences; [None] when the caller breaks the contract (inserting
    a node that is already linked, naming one that is not). *)
Fixpoint insert_before (y x : Z) (xs : list Z) : list Z :=
  match xs with
  | [] => []
  | z :: zs => if decide (z = y) then x :: z :: zs else z :: insert_before y x zs
  end.
Definition seq_step (op : qop) (xs : list Z) : option (list Z) :=
  match op with
  | QInsertHead x => if decide (x ∈ xs) then None else Some (x :: xs)
  | QInsertTail x => if decide (x ∈ xs) then None else Some (xs ++ [x])
  | QInsertBefore y x =>
      if decide (x ∈ xs) then None else
      if decide (y ∈ xs) then Some (insert_before y x xs) else None
  | QRemove x => if decide (x ∈ xs) then Some (filter (λ z : Z, z ≠ x) xs) else None
  end.
Definition seq_steps (ops : list qop) (xs : list Z) : option (list Z) :=
  fold_left (λ o op, o ≫= seq_step op) ops (Some xs).

Section RunsRefine.
Context {E : Type} `{LinkedNode E}.
#[local] Abbreviation heap := (gmap Z E).

Lemma insert_before_mid (y x : Z) (xs ys : list Z) :
  y ∉ xs → insert_before y x (xs ++ y :: ys) = xs ++ x :: y :: ys.
Proof.
  induction xs as [|a xs IH]; cbn; [by rewrite decide_True|].
  intros Hy. rewrite decide_False by set_solver. rewrite IH by set_solver. done.
Qed.
Lemma filter_mid (x : Z) (xs ys : list Z) :
  x ∉ xs → x ∉ ys → filter (λ z : Z, z ≠ x) (xs ++ x :: ys) = xs ++ ys.
Proof.
  intros Hx Hy. rewrite filter_app, filter_cons_False by naive_solver.
  assert (∀ zs : list Z, x ∉ zs → filter (λ z : Z, z ≠ x) zs = zs) as Hid.
  { induction zs as [|z zs IH]; intros Hz; [done|].
    rewrite filter_cons_True by set_solver. by rewrite IH by set_solver. }
  by rewrite !Hid.
Qed.

Lemma qop_run_refines op (h : heap) l xs xs' :
  dll h l xs → seq_step op xs = Some xs' →
  let '(h', l') := qop_run op (h, l) in dll h' l' xs' ∧ relinked h h'.
Proof.
  intros Hd. destruct op as [x|x|y x|x]; cbn; repeat case_decide; intros [= <-].
  - pose proof (dll_insert_head h l xs x Hd) as Hi.
    destruct (LIST_INSERT_HEAD h l x). destruct Hi as [? []]; auto.
  - pose proof (dll_insert_tail h l xs x Hd) as Hi.
    destruct (LIST_INSERT_TAIL h l x). destruct Hi as [? []]; auto.
  - destruct (list_elem_of_split xs y) as (xs1 & xs2 & ->); [done|].
    pose proof Hd as (_ & _ & _ & (_ & _ & Hy & _)%NoDup_mid & _).
    rewrite insert_before_mid by done.
    pose proof (dll_insert_before h l xs1 y xs2 x Hd) as Hi.
    destruct (LIST_INSERT_BEFORE h l y x). destruct Hi as [? []]; auto.
  - destruct (list_elem_of_split xs x) as (xs1 & xs2 & ->); [done|].
    pose proof Hd as (_ & _ & _ & (_ & _ & Hx & Hy & _)%NoDup_mid & _).
    rewrite filter_mid by done.
    pose proof (dll_remove h l xs1 x xs2 Hd) as Hi.
    destruct (LIST_REMOVE h l x). destruct Hi as (? & [] & _); auto.
Qed.

Lemma seq_steps_None ops : fold_left (λ o op, o ≫= seq_step op) ops None = None.
Proof. by induction ops. Qed.

(** [LIST_FOREACH] visits the nodes that were linked when it started, even when the body
    unlinks the node it is given. *)
Lemma list_foreach_total {S} (heap_of : S → heap) (I : list Z → S → Prop) body fuel xs s :
  (∀ x rest s, I (x :: rest) s →
     LIST_NEXT (heap_of s) x = hd_or None rest ∧ ∃ s', body x s = Ret tt s' ∧ I rest s') →
  I xs s → (length xs < fuel)%nat →
  ∃ s', list_foreach heap_of fuel (hd_or None xs) body s = Ret tt s' ∧ I [] s'.
Proof.
  intros Hbody. revert xs s. induction fuel as [|n IH]; intros xs s HI Hlen; [lia|].
  unfold list_foreach. cbn. munfold. destruct xs as [|x xs]; cbn; [eauto|].
  destruct (Hbody x xs s HI) as (Hnext & s' & Hb & HI'). rewrite Hb, Hnext.
  apply IH; [done|]. cbn in Hlen. lia.
Qed.

(** A [LIST_FOREACH] that only computes folds over the sequence. *)
Lemma list_loop_fold {S A B} (heap_of : S → heap) (body : A → Z → M S (A + B)) fin g fuel l xs a s :
  dll (heap_of s) l xs → (∀ a x, x ∈ xs → body a x s = Ret (inl (g a x)) s) →
  (length xs < fuel)%nat →
  list_loop heap_of fuel (hd_or None xs) a body fin s = Ret (fin (foldl g a xs)) s.
Proof.
  intros (_ & _ & _ & _ & Hs) Hb. revert a fuel Hs Hb. generalize (@None Z) at 1 as p.
  induction xs as [|x xs IH]; intros p a fuel Hs Hb Hlen; (destruct fuel as [|fuel]; [lia|]).
  - done.
  - destruct Hs as (_ & Hn & Hs). unfold list_loop. cbn [mloop]. cbn in Hn, Hlen.
    rewrite bind_assoc, bind_gets. cbn [hd_or]. rewrite bind_assoc, (bind_Ret _ _ _ _ _ (Hb a x ltac:(by left))).
    rewrite bind_mret, Hn. apply (IH (Some x)); [done| |lia]. intros. apply Hb. by right.
Qed.
End RunsRefine.

(** A duplicate-free list of numbers below [n] has at most [n] elements. *)
Lemma NoDup_bounded (xs : list Z) n :
  NoDup xs → (∀ x, x ∈ xs → 0 ≤ x < n) → (length xs ≤ Z.to_nat n)%nat.
Proof.
  intros Hnd Hb. rewrite <-(length_seqZ 0 n). apply submseteq_length, NoDup_submseteq; [done|].
  intros x Hx%Hb. apply elem_of_seqZ. lia.
Qed.

(** A bare node, for examples. *)
Definition bare_node : Type := option Z * option Z.
#[export] Instance bare_node_inhabited : Inhabited bare_node := populate (None, None).
#[export] Program Instance bare_node_linked : LinkedNode bare_node := {|
  le_next := fst; le_prev := snd;
  set_le_next p e := (p, snd e); set_le_prev p e := (fst e, p) |}.
Solve All Obligations with done.

(** ** Properties *)

(** C22: any run of list operations that respects the list contract implements the same run on a
    plain sequence of nodes: the pointers, the end pointers and the size represent the result,
    and nothing but list links has changed in the node array. *)
Theorem queue_refines_sequence {E} `{LinkedNode E} (ops : list qop) (h : gmap Z E) l xs xs' :
  dll h l xs → seq_steps ops xs = Some xs' →
  dll (qops_run ops (h, l)).1 (qops_run ops (h, l)).2 xs' ∧ relinked h (qops_run ops (h, l)).1.
Proof.
  unfold seq_steps, qops_run. revert h l xs.
  induction ops as [|op ops IH]; intros h l xs Hd Hs; cbn [fold_left] in *; [by simplify_eq|].
  change (Some xs ≫= seq_step op) with (seq_step op xs) in Hs.
  destruct (seq_step op xs) as [ys|] eqn:Hop; [|by rewrite seq_steps_None in Hs].
  pose proof (qop_run_refines op h l xs ys Hd Hop) as Hr.
  destruct (qop_run op (h, l)) as [h1 l1]. destruct Hr as [Hd1 Hr1].
  destruct (IH h1 l1 ys Hd1 Hs) as [? ?]. split; [done|]. by etrans.
Qed.

Lemma queue_refines_sequence_witness :
  seq_steps [QInsertHead 4; QInsertTail 7; QInsertBefore 7 5; QRemove 4] [] = Some [5; 7] ∧
  dll (qops_run [QInsertHead 4; QInsertTail 7; QInsertBefore 7 5; QRemove 4]
         (∅ : gmap Z bare_node, MkListHead None None 0)).1
      (MkListHead (Some 5) (Some 7) 2) [5; 7].
Proof.
  split; [reflexivity|].
  refine (proj1 (queue_refines_sequence
    [QInsertHead 4; QInsertTail 7; QInsertBefore 7 5; QRemove 4] ∅ (MkListHead None None 0)
    [] [5; 7] _ _)); [|reflexivity].
  split_and!; try reflexivity; constructor.
Defined.

(** [LIST_CONCAT] of two non-empty disjoint lists links their nodes into one list, but its
    [LIST_INIT(list2)] runs before the sizes are added, so the size of the result is the size
    of the first list alone. *)
Theorem list_concat_loses_size {E} `{LinkedNode E} (h : gmap Z E) l1 l2 xs ys :
  dll h l1 xs → dll h l2 ys → xs ≠ [] → ys ≠ [] → NoDup (xs ++ ys) →
  let '(h', l1', l2') := LIST_CONCAT h l1 l2 in
  lh_first l1' = hd_or None (xs ++ ys) ∧ lh_last l1' = last_or None (xs ++ ys) ∧
  dseg h' None (xs ++ ys) None ∧ dll h' l2' [] ∧ lh_size l1' = u32 (Z.of_nat (length xs)).
Proof.
  intros (Hf1 & Hl1 & Hs1 & Hn1 & Hd1) (Hf2 & Hl2 & Hs2 & Hn2 & Hd2) Hx Hy Hnd.
  destruct ys as [|y ys]; [done|]. destruct xs as [|a xs]; [done|].
  apply NoDup_app in Hnd as (_ & Hdis & _). cbn in Hf1, Hf2.
  unfold LIST_CONCAT. rewrite Hf1, Hf2. cbn [lh_first lh_last lh_size set_last set_size LIST_INIT].
  rewrite Hl1, Hs1, Hl2, Hf1. split_and!; cbn [hd_or app]; try done.
  - cbn. by rewrite last_or_app.
  - apply (dseg_app _ _ (a :: xs) (y :: ys)). split.
    + apply dseg_put_prev_other; [intros Hc; apply (Hdis y Hc); by left|].
      by eapply dseg_set_end.
    + eapply dseg_put_prev_first; [by apply NoDup_cons in Hn2 as []|].
      apply dseg_put_next_opt_other; [|done].
      intros q Hq%last_or_None_Some. by apply Hdis.
  - split_and!; try done. constructor.
  - by rewrite Z.add_0_r, u32_idemp.
Qed.

(** Two one-element lists: the concatenation has two nodes and size 1. *)
Lemma list_concat_loses_size_witness :
  ∃ (h : gmap Z bare_node) l1 l2,
    dll h l1 [3] ∧ dll h l2 [8] ∧
    dseg (LIST_CONCAT h l1 l2).1.1 None [3; 8] None ∧ lh_size (LIST_CONCAT h l1 l2).1.2 = 1.
Proof.
  exists ∅, (MkListHead (Some 3) (Some 3) 1), (MkListHead (Some 8) (Some 8) 1).
  assert (∀ x, dll (∅ : gmap Z bare_node) (MkListHead (Some x) (Some x) 1) [x]) as Hone
    by (intros x; split_and!; try done; apply NoDup_singleton).
  split_and!; [apply Hone|apply Hone|..];
    pose proof (list_concat_loses_size (∅ : gmap Z bare_node) _ _ [3] [8] (Hone 3) (Hone 8)
      ltac:(done) ltac:(done) ltac:(by apply (bool_decide_unpack _))) as Hc; hnf in Hc;
    destruct Hc as (_ & _ & Hd & _ & Hz).
  - exact Hd.
  - exact Hz.
Defined.
