(* ===== verification/UHeap.v ===== *)
(** * The user heap: [lib/uheap.c]

    [malloc] and [free] of user programs.  The heap is the address range
    [USER_HEAP_START, USER_HEAP_MAX) cut in [UHEAP_PAGES] pages; [UHeap_Tracker] holds the number
    of pages of a block at the index of its first page and 0 everywhere else, [sizeOfVAs] the size
    and address of the block.  The strategy is the kernel's ([sys_get_heap_strategy]); the two
    system calls that reach the kernel are recorded in a trace. *)
From S2P Require Import Prelude Machine.

Definition UHEAP_PAGES : Z := (USER_HEAP_MAX - USER_HEAP_START) `div` PAGE_SIZE.

Record Size_Address_UHeap := MkSizeAddr { ua_size : Z; ua_virtualAddress : Z }.
#[export] Instance Size_Address_UHeap_inhabited : Inhabited Size_Address_UHeap :=
  populate (MkSizeAddr 0 0).

Inductive sys_event :=
  | SysAllocateMem (virtual_address size : Z)
  | SysFreeMem (virtual_address size : Z).

Record UState := MkUState {
  sizeOfVAs : gmap Z Size_Address_UHeap;
  UHeap_Tracker : gmap Z Z;
  generalAddress : Z;
  heap_strategy : Z;
  sys_trace : list sys_event;
}.
Definition set_sizeOfVAs v s :=
  MkUState v (UHeap_Tracker s) (generalAddress s) (heap_strategy s) (sys_trace s).
Definition set_tracker v s :=
  MkUState (sizeOfVAs s) v (generalAddress s) (heap_strategy s) (sys_trace s).
Definition set_generalAddress v s :=
  MkUState (sizeOfVAs s) (UHeap_Tracker s) v (heap_strategy s) (sys_trace s).
Definition set_trace v s :=
  MkUState (sizeOfVAs s) (UHeap_Tracker s) (generalAddress s) (heap_strategy s) v.

(** Zero-initialised data section, [generalAddress = USER_HEAP_START]. *)
Definition uheap_init (strategy : Z) : UState :=
  MkUState ∅ ∅ USER_HEAP_START strategy [].

(** ** System calls ([lib/syscall.c]) *)
Definition sys_isUHeapPlacementStrategy (which : Z) : M UState bool :=
  gets (λ s, heap_strategy s =? which).
Definition sys_isUHeapPlacementStrategyFIRSTFIT := sys_isUHeapPlacementStrategy UHP_PLACE_FIRSTFIT.
Definition sys_isUHeapPlacementStrategyBESTFIT := sys_isUHeapPlacementStrategy UHP_PLACE_BESTFIT.
Definition sys_isUHeapPlacementStrategyNEXTFIT := sys_isUHeapPlacementStrategy UHP_PLACE_NEXTFIT.
Definition sys_isUHeapPlacementStrategyWORSTFIT := sys_isUHeapPlacementStrategy UHP_PLACE_WORSTFIT.
Definition sys_allocateMem (va size : Z) : M UState unit :=
  modify (λ s, set_trace (sys_trace s ++ [SysAllocateMem va size]) s).
Definition sys_freeMem (va size : Z) : M UState unit :=
  modify (λ s, set_trace (sys_trace s ++ [SysFreeMem va size]) s).

(** ** Array accesses: an index outside the array is undefined behaviour *)
Definition uheap_index (va : Z) : Z := u32 (va - USER_HEAP_START) `div` PAGE_SIZE.
Definition in_array (i : Z) : bool := (0 <=? i) && (i <? UHEAP_PAGES).
Definition read_tracker (i : Z) : M UState Z :=
  if in_array i then gets (λ s, UHeap_Tracker s !!! i) else undefined "UHeap_Tracker".
Definition write_tracker (i v : Z) : M UState unit :=
  if in_array i then modify (λ s, set_tracker (<[i:=v]> (UHeap_Tracker s)) s)
  else undefined "UHeap_Tracker".
Definition write_sizeOfVAs (i : Z) (v : Size_Address_UHeap) : M UState unit :=
  if in_array i then modify (λ s, set_sizeOfVAs (<[i:=v]> (sizeOfVAs s)) s)
  else undefined "sizeOfVAs".

(** ** The four searches of [malloc]

    The locals of the scanning loops: [i], [j] (unassigned at first), [currentSize], [flag]. *)
Record scan := MkScan { sc_i : Z; sc_j : option Z; sc_currentSize : Z; sc_flag : bool }.

(** [generalAddress = j]. *)
Definition take_j (j : option Z) : M UState unit :=
  a ← read_local "j" j; modify (set_generalAddress a).

(** [for] loop of first fit; the result is [found] with the last [j] and [currentSize]. *)
Definition firstfit_body (size : Z) (x : scan)
    : M UState (scan + (bool * option Z * Z)) :=
  let '(MkScan i j currentSize flag) := x in
  if negb (i <? USER_HEAP_MAX) then mret (inr (false, j, currentSize)) else
  t ← read_tracker (uheap_index i);
  if (t =? 0) && flag then
    mret (inl (MkScan (u32 (i + PAGE_SIZE)) j (u32 (currentSize + PAGE_SIZE)) flag))
  else if (t =? 0) && negb flag then
    mret (inl (MkScan (u32 (i + PAGE_SIZE)) (Some i) (u32 (currentSize + PAGE_SIZE)) true))
  else if size <=? currentSize then
    take_j j;; mret (inr (true, j, currentSize))
  else mret (inl (MkScan (u32 (i + u32 (PAGE_SIZE * t))) j 0 false)).

(** Best fit and worst fit never leave the loop early; [viable] is [minViableSize] or
    [maxViableSize]. *)
Definition bestfit_body (size : Z) (x : scan * Z * bool)
    : M UState ((scan * Z * bool) + (bool * option Z * Z)) :=
  let '(MkScan i j currentSize flag, minViableSize, found) := x in
  if negb (i <? USER_HEAP_MAX) then mret (inr (found, j, currentSize)) else
  t ← read_tracker (uheap_index i);
  if (t =? 0) && flag then
    mret (inl (MkScan (u32 (i + PAGE_SIZE)) j (u32 (currentSize + PAGE_SIZE)) flag,
               minViableSize, found))
  else if (t =? 0) && negb flag then
    mret (inl (MkScan (u32 (i + PAGE_SIZE)) (Some i) (u32 (currentSize + PAGE_SIZE)) true,
               minViableSize, found))
  else
    let better := (size <=? currentSize) && (currentSize <? minViableSize) in
    when better (take_j j);;
    mret (inl (MkScan (u32 (i + u32 (PAGE_SIZE * t))) j 0 false,
               (if better then currentSize else minViableSize), found || better)).

Definition worstfit_body (size : Z) (x : scan * Z * bool)
    : M UState ((scan * Z * bool) + (bool * option Z * Z)) :=
  let '(MkScan i j currentSize flag, maxViableSize, found) := x in
  if negb (i <? USER_HEAP_MAX) then mret (inr (found, j, currentSize)) else
  t ← read_tracker (uheap_index i);
  if (t =? 0) && flag then
    mret (inl (MkScan (u32 (i + PAGE_SIZE)) j (u32 (currentSize + PAGE_SIZE)) flag,
               maxViableSize, found))
  else if (t =? 0) && negb flag then
    mret (inl (MkScan (u32 (i + PAGE_SIZE)) (Some i) (u32 (currentSize + PAGE_SIZE)) true,
               maxViableSize, found))
  else
    let better := (size <=? currentSize) && (maxViableSize <? currentSize) in
    when better (take_j j);;
    mret (inl (MkScan (u32 (i + u32 (PAGE_SIZE * t))) j 0 false,
               (if better then currentSize else maxViableSize), found || better)).

(** Next fit: at most [k] pages from [generalAddress], wrapping at the end of the heap. *)
Definition nextfit_body (size : Z) (x : Z * scan)
    : M UState ((Z * scan) + (bool * option Z * Z)) :=
  let '(k, MkScan i j currentSize flag) := x in
  if k =? 0 then mret (inr (false, j, currentSize)) else
  t ← read_tracker (uheap_index i);
  let after (k i : Z) (j : option Z) (currentSize : Z) (flag : bool) :=
    if size <=? currentSize then take_j j;; mret (inr (true, j, currentSize))
    else if USER_HEAP_MAX <=? i then mret (inl (k, MkScan USER_HEAP_START j 0 false))
    else mret (inl (k, MkScan i j currentSize flag)) in
  if (t =? 0) && flag then
    after (u32 (k - 1)) (u32 (i + PAGE_SIZE)) j (u32 (currentSize + PAGE_SIZE)) flag
  else if (t =? 0) && negb flag then
    after (u32 (k - 1)) (u32 (i + PAGE_SIZE)) (Some i) (u32 (currentSize + PAGE_SIZE)) true
  else if size <=? currentSize then take_j j;; mret (inr (true, j, currentSize))
  else after (u32 (k - t)) (u32 (i + u32 (PAGE_SIZE * t))) j 0 false.

(** Every loop visits each page at most once. *)
Definition scan_fuel : nat := Z.to_nat (UHEAP_PAGES + 1).

(** [if(found == 0 && currentSize >= size) generalAddress=j; else if(found == 0) return NULL;]
    The result says whether [malloc] goes on. *)
Definition after_search (size : Z) (r : bool * option Z * Z) : M UState bool :=
  let '(found, j, currentSize) := r in
  if negb found && (size <=? currentSize) then take_j j;; mret true
  else mret found.

Definition firstfit_search (size : Z) : M UState bool :=
  modify (set_generalAddress USER_HEAP_START);;
  r ← mloop scan_fuel (firstfit_body size) (MkScan USER_HEAP_START None 0 false);
  after_search size r.
Definition bestfit_search (size : Z) : M UState bool :=
  modify (set_generalAddress USER_HEAP_START);;
  r ← mloop scan_fuel (bestfit_body size)
        (MkScan USER_HEAP_START None 0 false, USER_HEAP_MAX - USER_HEAP_START, false);
  after_search size r.
Definition worstfit_search (size : Z) : M UState bool :=
  modify (set_generalAddress USER_HEAP_START);;
  r ← mloop scan_fuel (worstfit_body size)
        (MkScan USER_HEAP_START None 0 false, 0, false);
  after_search size r.
Definition nextfit_search (size : Z) : M UState bool :=
  i ← gets generalAddress;
  r ← mloop scan_fuel (nextfit_body size) (UHEAP_PAGES, MkScan i None 0 false);
  after_search size r.

(** ** [malloc] and [free]; [NULL] is 0 *)
Definition malloc (size : Z) : M UState Z :=
  let size := ROUNDUP size PAGE_SIZE in
  go ← (nextfit ← sys_isUHeapPlacementStrategyNEXTFIT;
        if nextfit : bool then nextfit_search size else
        firstfit ← sys_isUHeapPlacementStrategyFIRSTFIT;
        if firstfit : bool then firstfit_search size else
        bestfit ← sys_isUHeapPlacementStrategyBESTFIT;
        if bestfit : bool then bestfit_search size else
        worstfit ← sys_isUHeapPlacementStrategyWORSTFIT;
        if worstfit : bool then worstfit_search size else mret true);
  if negb go then mret 0 else
  ret ← gets generalAddress;
  write_tracker (uheap_index ret) (size `div` PAGE_SIZE);;
  sys_allocateMem ret size;;
  write_sizeOfVAs (uheap_index ret) (MkSizeAddr size ret);;
  when (USER_HEAP_MAX <=? u32 (ret + size)) (modify (set_generalAddress USER_HEAP_START));;
  mret ret.

(** [for(i = 0; i < ...; ++i) if (sizeOfVAs[i].virtualAddress == virtual_address) {...; break;}] *)
Definition free_body (virtual_address : Z) (i : Z) : M UState (Z + unit) :=
  if negb (i <? UHEAP_PAGES) then mret (inr tt) else
  e ← gets (λ s, sizeOfVAs s !!! i);
  if ua_virtualAddress e =? virtual_address then
    let tmp := uheap_index (ua_virtualAddress e) in
    write_tracker tmp 0;;
    sys_freeMem virtual_address (ua_size e);;
    write_sizeOfVAs i (MkSizeAddr 0 0);;
    mret (inr tt)
  else mret (inl (i + 1)).
Definition free (virtual_address : Z) : M UState unit :=
  mloop scan_fuel (free_body virtual_address) 0.

(** [realloc] is not implemented: it panics. *)
Definition realloc (virtual_address new_size : Z) : M UState Z :=
  panic "realloc() is not implemented yet...!!".

(** ** Pages and blocks *)
Definition page (p : Z) : Z := USER_HEAP_START + PAGE_SIZE * p.

Lemma UHEAP_PAGES_val : UHEAP_PAGES = 131072.
Proof. reflexivity. Qed.
Lemma page_N : page UHEAP_PAGES = USER_HEAP_MAX.
Proof. reflexivity. Qed.

Ltac uheap_unfold :=
  unfold page, uheap_index, is_u32, USER_HEAP_MAX, USER_HEAP_START, PAGE_SIZE in *;
  rewrite ?UHEAP_PAGES_val in *.

Lemma uheap_index_page p : 0 ≤ p ≤ UHEAP_PAGES → uheap_index (page p) = p.
Proof.
  intros Hp. uheap_unfold. rewrite u32_small by (unfold is_u32; lia).
  replace (0x80000000 + 4096 * p - 0x80000000) with (p * 4096) by lia. by apply Z.div_mul.
Qed.
Lemma page_lt_max p : (page p <? USER_HEAP_MAX) = (p <? UHEAP_PAGES).
Proof. uheap_unfold. destruct (Z.ltb_spec p 131072), (Z.ltb_spec (0x80000000 + 4096 * p) 0xA0000000); lia. Qed.
Lemma u32_page_add p k : 0 ≤ p + k ≤ UHEAP_PAGES → u32 (page p + PAGE_SIZE * k) = page (p + k).
Proof. intros Hp. uheap_unfold. rewrite u32_small by (unfold is_u32; lia). lia. Qed.
Lemma u32_pages k : 0 ≤ k ≤ UHEAP_PAGES → u32 (PAGE_SIZE * k) = PAGE_SIZE * k.
Proof. intros Hp. uheap_unfold. rewrite u32_small by (unfold is_u32; lia). lia. Qed.
Lemma in_array_true p : 0 ≤ p < UHEAP_PAGES → in_array p = true.
Proof. unfold in_array. lia. Qed.

(** The tracker describes disjoint blocks inside the heap. *)
Record tracker_wf (T : gmap Z Z) : Prop := {
  wf_nonneg p : 0 ≤ T !!! p;
  wf_range p : T !!! p ≠ 0 → 0 ≤ p ∧ p + T !!! p ≤ UHEAP_PAGES;
  wf_inner p q : p < q < p + T !!! p → T !!! q = 0;
}.
(** Page [q] belongs to a block; [q] does not lie strictly inside one; [n] pages from [a] are
    free and inside the heap. *)
Definition used (T : gmap Z Z) (q : Z) : Prop := ∃ p, p ≤ q < p + T !!! p.
Definition boundary (T : gmap Z Z) (q : Z) : Prop := ∀ p, ¬ (p < q < p + T !!! p).
Definition free_range (T : gmap Z Z) (a n : Z) : Prop :=
  0 ≤ a ∧ a + n ≤ UHEAP_PAGES ∧ ∀ q, a ≤ q < a + n → ¬ used T q.

Section Tracker.
Context (T : gmap Z Z) (Hwf : tracker_wf T).

Lemma boundary_free p : boundary T p → T !!! p = 0 → ¬ used T p.
Proof.
  intros Hb H0 [q Hq]. destruct (decide (q = p)) as [->|]; [lia|]. apply (Hb q). lia.
Qed.
Lemma boundary_succ p : boundary T p → T !!! p = 0 → boundary T (p + 1).
Proof.
  intros Hb H0 q Hq. destruct (decide (q = p)) as [->|]; [lia|]. apply (Hb q). lia.
Qed.
Lemma boundary_block p : T !!! p ≠ 0 → boundary T (p + T !!! p).
Proof.
  intros H0 q Hq. destruct (Z.lt_trichotomy q p) as [Hlt|[->|Hgt]]; [|lia|].
  - apply H0. apply (wf_inner T Hwf q p). pose proof (wf_nonneg T Hwf p). lia.
  - pose proof (wf_inner T Hwf p q). lia.
Qed.
Lemma used_block p q : p ≤ q < p + T !!! p → used T q.
Proof. by exists p. Qed.
Lemma boundary_0 : boundary T 0.
Proof. intros p Hp. pose proof (wf_range T Hwf p). lia. Qed.
Lemma used_in_heap q : used T q → 0 ≤ q < UHEAP_PAGES.
Proof. intros [p Hp]. pose proof (wf_range T Hwf p). lia. Qed.
Lemma free_range_not_used a n q : free_range T a n → a ≤ q < a + n → ¬ used T q.
Proof. intros (_ & _ & Hf). apply Hf. Qed.

(** A scan has reached page [p] and the last [k] pages before it are a free run that starts
    at the heap's start or just after a block. *)
Record run (p k : Z) : Prop := {
  run_range : 0 ≤ k ≤ p ∧ p ≤ UHEAP_PAGES;
  run_boundary : boundary T p;
  run_free q : p - k ≤ q < p → ¬ used T q;
  run_start : k < p → used T (p - k - 1);
}.
Lemma run_0 : run 0 0.
Proof. split; [rewrite UHEAP_PAGES_val; lia|apply boundary_0|lia|lia]. Qed.
Lemma run_step_free p k : run p k → p < UHEAP_PAGES → T !!! p = 0 → run (p + 1) (k + 1).
Proof.
  intros [Hr Hb Hf Hs] Hp H0. split; [lia|by apply boundary_succ| |].
  - intros q Hq. destruct (decide (q = p)) as [->|]; [by apply boundary_free|apply Hf; lia].
  - intros Hlt. replace (p + 1 - (k + 1) - 1) with (p - k - 1) by lia. apply Hs. lia.
Qed.
Lemma run_step_used p k : run p k → T !!! p ≠ 0 → run (p + T !!! p) 0.
Proof.
  intros [Hr Hb Hf Hs] H0. pose proof (wf_range T Hwf p H0) as [? ?].
  pose proof (wf_nonneg T Hwf p).
  split; [lia|by apply boundary_block|lia|]. intros _. exists p. lia.
Qed.
(** Nothing of [n] pages fits before the current run. *)
Definition no_fit (n b : Z) : Prop := ∀ a, a + n ≤ b → ¬ free_range T a n.
Lemma no_fit_step n p k t :
  0 < n → run p k → k < n → no_fit n (p - k) → (∀ q, p ≤ q < p + t → used T q) →
  0 ≤ t → no_fit n (p + t).
Proof.
  intros Hn [Hr Hb Hf Hs] Hk Hnf Hu Ht a Ha Hfr. pose proof Hfr as (Ha0 & _ & Hfree).
  destruct (decide (a + n ≤ p - k)); [by apply (Hnf a)|].
  destruct (decide (a + n ≤ p)) as [Hap|Hap].
  - apply (Hfree (p - k - 1)); [lia|]. apply Hs. lia.
  - destruct (decide (a < p)).
    + apply (Hfree p); [lia|]. apply Hu. lia.
    + apply (Hfree a); [lia|]. apply Hu. lia.
Qed.
Lemma no_fit_lowest n p k b :
  run p k → n ≤ k → no_fit n (p - k) → b < p - k → ¬ free_range T b n.
Proof.
  intros [Hr Hb Hf Hs] Hk Hnf Hlt Hfr. pose proof Hfr as (Hb0 & _ & Hfree).
  destruct (decide (b + n ≤ p - k)); [by apply (Hnf b)|].
  apply (Hfree (p - k - 1)); [lia|]. apply Hs. lia.
Qed.
End Tracker.

(** ** The scanning loops, page by page *)
Definition scan_at (p k : Z) (x : scan) : Prop :=
  ∃ j, x = MkScan (page p) j (PAGE_SIZE * k) (0 <? k) ∧ (0 < k → j = Some (page (p - k))).

(** The three things a loop body can see at page [p]; the locals after it. *)
Lemma scan_at_extend p k x :
  0 ≤ k ≤ p → p < UHEAP_PAGES → scan_at p k x →
  let '(MkScan i j c flag) := x in
  i = page p ∧ scan_at (p + 1) (k + 1)
    (MkScan (u32 (i + PAGE_SIZE)) (if flag then j else Some i) (u32 (c + PAGE_SIZE)) true).
Proof.
  intros Hk Hp (j & -> & Hj). split; [done|].
  exists (if 0 <? k then j else Some (page p)). split.
  - f_equal; [| |].
    + rewrite <-(Z.mul_1_r PAGE_SIZE). apply (u32_page_add p 1). lia.
    + replace (PAGE_SIZE * k + PAGE_SIZE) with (PAGE_SIZE * (k + 1)) by lia. apply u32_pages. lia.
    + symmetry. lia.
  - intros _. replace (p + 1 - (k + 1)) with (p - k) by lia.
    destruct (Z.ltb_spec 0 k); [by apply Hj|]. by replace (p - k) with p by lia.
Qed.
Lemma scan_at_reset p t j : 0 ≤ p → 0 ≤ t → p + t ≤ UHEAP_PAGES →
  scan_at (p + t) 0 (MkScan (u32 (page p + u32 (PAGE_SIZE * t))) j 0 false).
Proof.
  intros. exists j. rewrite u32_pages, u32_page_add by lia. split; [done|lia].
Qed.
Lemma pages_leb n k : (PAGE_SIZE * n <=? PAGE_SIZE * k) = (n <=? k).
Proof. unfold PAGE_SIZE. destruct (Z.leb_spec n k), (Z.leb_spec (4096 * n) (4096 * k)); lia. Qed.
Lemma pages_ltb n k : (PAGE_SIZE * n <? PAGE_SIZE * k) = (n <? k).
Proof. unfold PAGE_SIZE. destruct (Z.ltb_spec n k), (Z.ltb_spec (4096 * n) (4096 * k)); lia. Qed.

Lemma read_tracker_page p s :
  0 ≤ p < UHEAP_PAGES → read_tracker (uheap_index (page p)) s = Ret (UHeap_Tracker s !!! p) s.
Proof.
  intros Hp. unfold read_tracker. rewrite uheap_index_page, in_array_true by lia. done.
Qed.
Lemma write_tracker_page p v s :
  0 ≤ p < UHEAP_PAGES →
  write_tracker (uheap_index (page p)) v s = Ret tt (set_tracker (<[p:=v]> (UHeap_Tracker s)) s).
Proof.
  intros Hp. unfold write_tracker. rewrite uheap_index_page, in_array_true by lia. done.
Qed.

(** Pages left to visit. *)
Definition pages_left (x : scan) : nat := Z.to_nat (UHEAP_PAGES - uheap_index (sc_i x)).
Lemma pages_left_at p k x : 0 ≤ p ≤ UHEAP_PAGES → scan_at p k x →
  pages_left x = Z.to_nat (UHEAP_PAGES - p).
Proof. intros Hp (j & -> & _). unfold pages_left. cbn. by rewrite uheap_index_page. Qed.

Section FirstFit.
Context (s : UState) (Hwf : tracker_wf (UHeap_Tracker s)) (n : Z) (Hn : 0 < n).
Let T := UHeap_Tracker s.

Definition firstfit_inv (x : scan) (s1 : UState) : Prop :=
  s1 = s ∧ ∃ p k, scan_at p k x ∧ run T p k ∧ no_fit T n (p - k).
Definition firstfit_post (r : bool * option Z * Z) (s1 : UState) : Prop :=
  ∃ found j k a, r = (found, j, PAGE_SIZE * k) ∧ 0 ≤ k ∧
    if found : bool then
      s1 = set_generalAddress (page a) s ∧ n ≤ k ∧ free_range T a n ∧
      (∀ b, b < a → ¬ free_range T b n)
    else s1 = s ∧ (0 < k → j = Some (page (UHEAP_PAGES - k))) ∧
         run T UHEAP_PAGES k ∧ no_fit T n (UHEAP_PAGES - k).

Lemma firstfit_loop : ∃ r s1,
  mloop scan_fuel (firstfit_body (PAGE_SIZE * n)) (MkScan USER_HEAP_START None 0 false) s
    = Ret r s1 ∧ firstfit_post r s1.
Proof.
  apply (mloop_total firstfit_inv firstfit_post (λ x _, pages_left x)).
  2: { split; [done|]. exists 0, 0. split_and!; [|by apply run_0|].
    - exists None. by rewrite Z.mul_0_r.
    - intros a Ha (Ha0 & _). lia. }
  2: { unfold pages_left, scan_fuel. cbn. change USER_HEAP_START with (page 0).
    rewrite uheap_index_page by done. apply Z2Nat.inj_lt; done. }
  intros x s1 (-> & p & k & Hx & Hrun & Hnf).
  pose proof (run_range _ _ _ Hrun) as [Hk Hp].
  rewrite (pages_left_at p k x) by (lia || done). destruct x as [i j c flag].
  pose proof (scan_at_extend p k (MkScan i j c flag) Hk) as Hext. destruct Hx as (j' & [= -> -> -> ->] & Hj).
  unfold firstfit_body. rewrite page_lt_max. destruct (Z.ltb_spec p UHEAP_PAGES) as [Hlt|Hge]; cbn [negb].
  - rewrite (bind_Ret _ _ _ _ _ (read_tracker_page p s ltac:(lia))). fold T.
    destruct Hext as [_ Hext]; [done|by exists j'|].
    destruct (Z.eqb_spec (T !!! p) 0) as [H0|H0]; cbn [andb].
    + left. destruct (0 <? k) eqn:Hflag; cbn [negb]; do 2 eexists; (split; [done|]).
      all: rewrite (pages_left_at (p + 1) (k + 1)) by (lia || done).
      all: split; [|lia]; split; [done|].
      all: exists (p + 1), (k + 1); split_and!; [done|by apply run_step_free|].
      all: by replace (p + 1 - (k + 1)) with (p - k) by lia.
    + rewrite pages_leb. destruct (Z.leb_spec n k) as [Hle|Hgt].
      * right. destruct (Z.ltb_spec 0 k); [|lia]. rewrite Hj by done.
        do 2 eexists; split; [done|].
        exists true, (Some (page (p - k))), k, (p - k).
        split_and!; [done|lia|done|done| |].
        -- split_and!; [lia|lia|]. intros q Hq. apply (run_free _ _ _ Hrun). lia.
        -- intros b Hb. by eapply (no_fit_lowest T n p k).
      * left. pose proof (wf_range T Hwf p H0). pose proof (wf_nonneg T Hwf p).
        do 2 eexists; split; [done|].
        rewrite (pages_left_at (p + T !!! p) 0) by (lia || apply scan_at_reset; lia).
        split; [|lia]. split; [done|]. exists (p + T !!! p), 0.
        split_and!; [apply scan_at_reset; lia|by apply (run_step_used T Hwf p k)|].
        rewrite Z.sub_0_r. eapply no_fit_step; try done. intros q Hq. by exists p.
  - right. assert (p = UHEAP_PAGES) as -> by lia. do 2 eexists; split; [done|].
    exists false, j', k, 0. split_and!; auto; lia.
Qed.
End FirstFit.

(** A trailing run that reaches the end of the heap. *)
Lemma no_fit_total T n p k : run T p k → p = UHEAP_PAGES → k < n → 0 < n → no_fit T n (p - k) →
  ∀ b, ¬ free_range T b n.
Proof.
  intros [Hr Hb Hf Hs] -> Hk Hn Hnf b (Hb0 & Hbn & Hfree).
  destruct (decide (b + n ≤ UHEAP_PAGES - k)); [by apply (Hnf b)|].
  apply (Hfree (UHEAP_PAGES - k - 1)); [lia|]. apply Hs. lia.
Qed.

(** First fit finds the lowest address with [n] free pages, or there is none. *)
Lemma firstfit_search_spec s n : tracker_wf (UHeap_Tracker s) → 0 < n → ∃ go a,
  firstfit_search (PAGE_SIZE * n) s = Ret go (set_generalAddress (page a) s) ∧
  if go : bool then free_range (UHeap_Tracker s) a n ∧ ∀ b, b < a → ¬ free_range (UHeap_Tracker s) b n
  else a = 0 ∧ ∀ b, ¬ free_range (UHeap_Tracker s) b n.
Proof.
  intros Hwf Hn. unfold firstfit_search. rewrite bind_modify.
  destruct (firstfit_loop (set_generalAddress USER_HEAP_START s) Hwf n Hn)
    as (r & s1 & Hl & found & j & k & a & -> & Hk & Hpost).
  rewrite (bind_Ret _ _ _ _ _ Hl). unfold after_search. rewrite pages_leb.
  destruct found; cbn [negb andb].
  - destruct Hpost as (-> & Hnk & Hfr & Hlow). exists true, a. done.
  - destruct Hpost as (-> & Hj & Hrun & Hnf). destruct (Z.leb_spec n k) as [Hle|Hgt].
    + rewrite Hj by lia. exists true, (UHEAP_PAGES - k). split; [done|]. split.
      * pose proof (run_range _ _ _ Hrun). split_and!; [lia|lia|].
        intros q Hq. apply (run_free _ _ _ Hrun). lia.
      * intros b Hb. by eapply (no_fit_lowest _ n UHEAP_PAGES k).
    + exists false, 0. split; [done|]. split; [done|]. by eapply no_fit_total.
Qed.

(** ** Best fit and worst fit

    Both loops keep the preferred run among the free runs that a block closes; they differ in
    the preference alone. *)
Definition closed_run (T : gmap Z Z) (a m : Z) : Prop :=
  0 < m ∧ free_range T a m ∧ (0 < a → used T (a - 1)) ∧ used T (a + m).
(** The free run that ends with the heap. *)
Definition trailing_run (T : gmap Z Z) (a m : Z) : Prop :=
  0 < m ∧ free_range T a m ∧ (0 < a → used T (a - 1)) ∧ a + m = UHEAP_PAGES.

Definition pick_body (cmp : Z → Z → bool) (size : Z) (x : scan * Z * bool)
    : M UState ((scan * Z * bool) + (bool * option Z * Z)) :=
  let '(MkScan i j currentSize flag, viable, found) := x in
  if negb (i <? USER_HEAP_MAX) then mret (inr (found, j, currentSize)) else
  t ← read_tracker (uheap_index i);
  if (t =? 0) && flag then
    mret (inl (MkScan (u32 (i + PAGE_SIZE)) j (u32 (currentSize + PAGE_SIZE)) flag, viable, found))
  else if (t =? 0) && negb flag then
    mret (inl (MkScan (u32 (i + PAGE_SIZE)) (Some i) (u32 (currentSize + PAGE_SIZE)) true,
               viable, found))
  else
    let better := (size <=? currentSize) && cmp currentSize viable in
    when better (take_j j);;
    mret (inl (MkScan (u32 (i + u32 (PAGE_SIZE * t))) j 0 false,
               (if better then currentSize else viable), found || better)).

Lemma closed_run_step T p k a m : tracker_wf T → run T p k → T !!! p ≠ 0 →
  closed_run T a m → a + m < p + T !!! p → a + m < p - k ∨ (a = p - k ∧ m = k).
Proof.
  intros Hwf [Hr Hb Hf Hs] H0 (Hm & (Ha & _ & Hfree) & Hstart & Hend) Hlt.
  destruct (decide (a + m < p - k)); [by left|right].
  destruct (decide (a + m < p)) as [Hp|Hp]; [destruct (Hf (a + m)); [lia|done]|].
  destruct (decide (a + m = p)) as [He|He].
  2: { destruct (Hfree (a + m - 1)); [lia|]. exists p. lia. }
  destruct (Z.lt_trichotomy a (p - k)) as [Hl|[->|Hg]]; [| |].
  - destruct (Hfree (p - k - 1)); [lia|]. apply Hs. lia.
  - split; [done|lia].
  - destruct (Hf (a - 1)); [lia|]. apply Hstart. lia.
Qed.

Section Pick.
Context (cmp : Z → Z → bool) (v0 : Z).
Hypothesis cmp_irrefl : ∀ x, cmp x x = false.
Hypothesis cmp_first : ∀ m, 0 < m < UHEAP_PAGES → cmp (PAGE_SIZE * m) v0 = true.
Hypothesis cmp_better : ∀ x y z, cmp x y = true → cmp z y = false → cmp z x = false.
Context (s : UState) (Hwf : tracker_wf (UHeap_Tracker s)) (n : Z) (Hn : 0 < n).
Let T := UHeap_Tracker s.

(** The best closed run that ends before [b], with the loop's record of it. *)
Definition picked (b v : Z) (found : bool) (s1 : UState) : Prop :=
  if found then
    ∃ a m, s1 = set_generalAddress (page a) s ∧ v = PAGE_SIZE * m ∧ closed_run T a m ∧ n ≤ m ∧
      ∀ a' m', closed_run T a' m' → a' + m' < b → n ≤ m' → cmp (PAGE_SIZE * m') v = false
  else s1 = s ∧ v = v0 ∧ no_fit T n b ∧ ∀ a m, closed_run T a m → a + m < b → m < n.

Definition pick_inv (x : scan * Z * bool) (s1 : UState) : Prop :=
  ∃ p k, scan_at p k x.1.1 ∧ run T p k ∧ picked (p - k) x.1.2 x.2 s1.
Definition pick_post (r : bool * option Z * Z) (s1 : UState) : Prop :=
  ∃ found j k v, r = (found, j, PAGE_SIZE * k) ∧ 0 ≤ k ∧
    (0 < k → j = Some (page (UHEAP_PAGES - k))) ∧ run T UHEAP_PAGES k ∧
    picked (UHEAP_PAGES - k) v found s1.

Lemma run_closed p k : run T p k → T !!! p ≠ 0 → 0 < k → closed_run T (p - k) k.
Proof.
  intros [Hr Hb Hf Hs] H0 Hk. pose proof (wf_range T Hwf p H0). pose proof (wf_nonneg T Hwf p).
  split_and!; [done| | |].
  - split_and!; [lia|lia|]. intros q Hq. apply Hf. lia.
  - intros. apply Hs. lia.
  - exists p. lia.
Qed.

(** One block seen after a run of [k] pages: the record is updated when the run is better. *)
Lemma pick_at_block p k v found s1 j :
  run T p k → T !!! p ≠ 0 → (0 < k → j = Some (page (p - k))) → picked (p - k) v found s1 →
  let better := (n <=? k) && cmp (PAGE_SIZE * k) v in
  ∃ s2, when better (take_j j) s1 = Ret tt s2 ∧
    picked (p + T !!! p) (if better then PAGE_SIZE * k else v) (found || better) s2.
Proof.
  intros Hrun H0 Hj Hpick better. pose proof (run_range _ _ _ Hrun) as [Hk Hp].
  pose proof (wf_range T Hwf p H0) as [_ HN]. pose proof (wf_nonneg T Hwf p).
  subst better. destruct (Z.leb_spec n k) as [Hle|Hgt]; cbn [andb].
  - pose proof (run_closed p k Hrun H0 ltac:(lia)) as Hc. rewrite Hj by lia.
    destruct (cmp (PAGE_SIZE * k) v) eqn:Hcmp; cbn [when].
    + exists (set_generalAddress (page (p - k)) s). rewrite orb_true_r. split.
      * destruct found; [by destruct Hpick as (? & ? & -> & _)|by destruct Hpick as [-> _]].
      * exists (p - k), k. split_and!; try done. intros a' m' Hc' Hlt Hm'.
        destruct (closed_run_step T p k a' m' Hwf Hrun H0 Hc' Hlt) as [Hb|[-> ->]];
          [|apply cmp_irrefl].
        destruct found.
        -- destruct Hpick as (a & m & _ & -> & _ & _ & Hall). eauto.
        -- destruct Hpick as (_ & _ & _ & Hall). specialize (Hall _ _ Hc' Hb). lia.
    + exists s1. split; [done|]. rewrite orb_false_r. destruct found.
      * destruct Hpick as (a & m & -> & -> & Hca & Hm & Hall). exists a, m.
        split_and!; try done. intros a' m' Hc' Hlt Hm'.
        destruct (closed_run_step T p k a' m' Hwf Hrun H0 Hc' Hlt) as [Hb|[-> ->]]; eauto.
      * destruct Hpick as (_ & -> & _). rewrite cmp_first in Hcmp by lia. done.
  - exists s1. split; [done|]. rewrite orb_false_r. destruct found.
    + destruct Hpick as (a & m & -> & -> & Hca & Hm & Hall). exists a, m.
      split_and!; try done. intros a' m' Hc' Hlt Hm'.
      destruct (closed_run_step T p k a' m' Hwf Hrun H0 Hc' Hlt) as [Hb|[-> ->]]; [eauto|lia].
    + destruct Hpick as (-> & -> & Hnf & Hall). split_and!; try done.
      * eapply no_fit_step; try done. intros q Hq. by exists p.
      * intros a' m' Hc' Hlt.
        destruct (closed_run_step T p k a' m' Hwf Hrun H0 Hc' Hlt) as [Hb|[-> ->]]; [eauto|lia].
Qed.

Lemma picked_tracker b v found s1 : picked b v found s1 → UHeap_Tracker s1 = T.
Proof. destruct found; [intros (? & ? & -> & _); done|intros [-> _]; done]. Qed.

Lemma pick_loop : ∃ r s1,
  mloop scan_fuel (pick_body cmp (PAGE_SIZE * n)) (MkScan USER_HEAP_START None 0 false, v0, false) s
    = Ret r s1 ∧ pick_post r s1.
Proof.
  apply (mloop_total pick_inv pick_post (λ x _, pages_left x.1.1)).
  2: { exists 0, 0. split_and!; [exists None; by rewrite Z.mul_0_r|by apply run_0|].
    split_and!; [done..| |].
    - intros a Ha (Ha0 & _). lia.
    - intros a m (Hm & (Ha & _) & _) Hlt. lia. }
  2: { unfold pages_left, scan_fuel. cbn. change USER_HEAP_START with (page 0).
    rewrite uheap_index_page by done. apply Z2Nat.inj_lt; done. }
  intros [[[i j c flag] v] found] s1 (p & k & Hx & Hrun & Hpick). cbn [fst snd] in *.
  pose proof (run_range _ _ _ Hrun) as [Hk Hp]. pose proof (picked_tracker _ _ _ _ Hpick) as HT.
  rewrite (pages_left_at p k _) by (lia || done).
  pose proof (scan_at_extend p k (MkScan i j c flag) Hk) as Hext.
  destruct Hx as (j' & [= -> -> -> ->] & Hj).
  unfold pick_body. rewrite page_lt_max. destruct (Z.ltb_spec p UHEAP_PAGES) as [Hlt|Hge]; cbn [negb].
  - left. rewrite (bind_Ret _ _ _ _ _ (read_tracker_page p s1 ltac:(lia))). rewrite HT.
    destruct Hext as [_ Hext]; [done|by exists j'|].
    destruct (Z.eqb_spec (T !!! p) 0) as [H0|H0]; cbn [andb].
    + destruct (0 <? k) eqn:Hflag; cbn [negb]; do 2 eexists; (split; [done|]); cbn [fst snd].
      all: rewrite (pages_left_at (p + 1) (k + 1)) by (lia || done).
      all: split; [|lia]; exists (p + 1), (k + 1).
      all: split_and!; [done|by apply run_step_free|].
      all: by replace (p + 1 - (k + 1)) with (p - k) by lia.
    + rewrite pages_leb. pose proof (wf_range T Hwf p H0). pose proof (wf_nonneg T Hwf p).
      destruct (pick_at_block p k v found s1 j' Hrun H0 Hj Hpick) as (s2 & Hw & Hpick2).
      rewrite (bind_Ret _ _ _ _ _ Hw). do 2 eexists. split; [done|]. cbn [fst snd].
      rewrite (pages_left_at (p + T !!! p) 0) by (lia || apply scan_at_reset; lia).
      split; [|lia]. exists (p + T !!! p), 0. rewrite Z.sub_0_r.
      split_and!; [apply scan_at_reset; lia|by apply (run_step_used T Hwf p k)|done].
  - right. assert (p = UHEAP_PAGES) as -> by lia. do 2 eexists; split; [done|].
    exists found, j', k, v. split_and!; auto; lia.
Qed.
End Pick.

(** What best fit and worst fit promise, in terms of their preference [cmp]: the preferred closed
    run that fits; only when no closed run fits, the trailing run; [NULL] only when no [n] free
    pages exist anywhere. *)
Definition pick_spec (cmp : Z → Z → bool) (T : gmap Z Z) (n a : Z) (go : bool) : Prop :=
  if go then
    (∃ m, n ≤ m ∧ closed_run T a m ∧
       ∀ a' m', closed_run T a' m' → n ≤ m' → cmp (PAGE_SIZE * m') (PAGE_SIZE * m) = false) ∨
    ((∀ a' m', closed_run T a' m' → m' < n) ∧ ∃ m, n ≤ m ∧ trailing_run T a m)
  else a = 0 ∧ ∀ b, ¬ free_range T b n.

Lemma closed_run_end T a m k : tracker_wf T → run T UHEAP_PAGES k → closed_run T a m →
  a + m < UHEAP_PAGES - k.
Proof.
  intros Hwf [Hr Hb Hf Hs] (Hm & (Ha & HN & Hfree) & Hstart & Hend).
  pose proof (used_in_heap T Hwf _ Hend).
  destruct (decide (a + m < UHEAP_PAGES - k)); [done|]. destruct (Hf (a + m)); [lia|done].
Qed.

Lemma pick_after cmp s n r s1 v0 :
  tracker_wf (UHeap_Tracker s) → 0 < n → pick_post cmp v0 s n r s1 →
  ∃ go a, after_search (PAGE_SIZE * n) r s1 = Ret go (if decide (a = 0 ∧ go = false) then s else set_generalAddress (page a) s) ∧
    pick_spec cmp (UHeap_Tracker s) n a go.
Proof.
  intros Hwf Hn (found & j & k & v & -> & Hk & Hj & Hrun & Hpick).
  assert (∀ a m, closed_run (UHeap_Tracker s) a m → a + m < UHEAP_PAGES - k) as Hend
    by (intros; by eapply closed_run_end).
  unfold after_search. rewrite pages_leb. destruct found; cbn [negb andb].
  - destruct Hpick as (a & m & -> & -> & Hc & Hm & Hall). exists true, a.
    rewrite decide_False by naive_solver. split; [done|]. left. exists m. naive_solver.
  - destruct Hpick as (-> & -> & Hnf & Hall). destruct (Z.leb_spec n k) as [Hle|Hgt].
    + rewrite Hj by lia. exists true, (UHEAP_PAGES - k).
      rewrite decide_False by naive_solver. split; [done|]. right. split; [naive_solver|].
      exists k. split; [done|]. pose proof (run_range _ _ _ Hrun).
      split_and!; [lia|split_and!; [lia|lia|]| |lia].
      * intros q Hq. apply (run_free _ _ _ Hrun). lia.
      * intros. apply (run_start _ _ _ Hrun). lia.
    + exists false, 0. rewrite decide_True by done. split; [done|]. split; [done|].
      by eapply no_fit_total.
Qed.

Lemma bestfit_body_pick size x : bestfit_body size x = pick_body (λ c v, c <? v) size x.
Proof. done. Qed.
Lemma worstfit_body_pick size x : worstfit_body size x = pick_body (λ c v, v <? c) size x.
Proof. done. Qed.

Lemma bestfit_search_spec s n : tracker_wf (UHeap_Tracker s) → 0 < n → ∃ go a,
  bestfit_search (PAGE_SIZE * n) s = Ret go (set_generalAddress (page a) s) ∧
  pick_spec (λ c v, c <? v) (UHeap_Tracker s) n a go.
Proof.
  intros Hwf Hn. unfold bestfit_search. rewrite bind_modify.
  destruct (pick_loop (λ c v, c <? v) (USER_HEAP_MAX - USER_HEAP_START)) with
    (s := set_generalAddress USER_HEAP_START s) (n := n) as (r & s1 & Hl & Hpost); try done.
  { intros. apply Z.ltb_irrefl. }
  { intros m Hm. change (USER_HEAP_MAX - USER_HEAP_START) with (PAGE_SIZE * UHEAP_PAGES).
    rewrite pages_ltb. lia. }
  { intros x y z. lia. }
  rewrite (bind_Ret _ _ _ _ _ Hl). eapply pick_after in Hpost as (go & a & Ha & Hspec); [|done..].
  exists go, a. split; [|done]. rewrite Ha. case_decide as Hc; [|done].
  destruct Hc as [-> _]. done.
Qed.
Lemma worstfit_search_spec s n : tracker_wf (UHeap_Tracker s) → 0 < n → ∃ go a,
  worstfit_search (PAGE_SIZE * n) s = Ret go (set_generalAddress (page a) s) ∧
  pick_spec (λ c v, v <? c) (UHeap_Tracker s) n a go.
Proof.
  intros Hwf Hn. unfold worstfit_search. rewrite bind_modify.
  destruct (pick_loop (λ c v, v <? c) 0) with
    (s := set_generalAddress USER_HEAP_START s) (n := n) as (r & s1 & Hl & Hpost); try done.
  { intros. apply Z.ltb_irrefl. }
  { intros m Hm. unfold PAGE_SIZE. lia. }
  { intros x y z. lia. }
  rewrite (bind_Ret _ _ _ _ _ Hl). eapply pick_after in Hpost as (go & a & Ha & Hspec); [|done..].
  exists go, a. split; [|done]. rewrite Ha. case_decide as Hc; [|done].
  destruct Hc as [-> _]. done.
Qed.

(** ** Next fit *)
Section NextFit.
Context (s : UState) (Hwf : tracker_wf (UHeap_Tracker s)) (n g : Z) (Hn : 0 < n).
Let T := UHeap_Tracker s.
Context (Hg : 0 ≤ g < UHEAP_PAGES) (Hgb : boundary T g).

(** The current run in one of the two stretches [lo, hi): first [g, UHEAP_PAGES), then [0, g). *)
Record stretch (lo p k : Z) : Prop := {
  st_range : lo ≤ p - k ∧ 0 ≤ k;
  st_boundary : boundary T p;
  st_free q : p - k ≤ q < p → ¬ used T q;
  st_start : lo < p - k → used T (p - k - 1);
  st_nofit a : lo ≤ a → a + n ≤ p → ¬ free_range T a n;
}.
Definition nextfit_inv (x : Z * scan) (s1 : UState) : Prop :=
  s1 = s ∧ ∃ p k c, scan_at p c x.2 ∧ x.1 = k ∧ c < n ∧
    ((g ≤ p < UHEAP_PAGES ∧ k = UHEAP_PAGES - (p - g) ∧ stretch g p c) ∨
     (0 ≤ p ≤ g ∧ k = g - p ∧ stretch 0 p c ∧ ∀ a, g ≤ a → ¬ free_range T a n)).
Definition nextfit_post (r : bool * option Z * Z) (s1 : UState) : Prop :=
  (∃ a, r = (true, Some (page a), PAGE_SIZE * n) ∧ s1 = set_generalAddress (page a) s ∧
     free_range T a n) ∨
  (∃ j c, r = (false, j, PAGE_SIZE * c) ∧ c < n ∧ s1 = s ∧
     ∀ a, free_range T a n → a < g < a + n).

Lemma stretch_free lo p c : stretch lo p c → c < n → T !!! p = 0 → p < UHEAP_PAGES → 0 ≤ lo →
  c + 1 < n → stretch lo (p + 1) (c + 1).
Proof.
  intros [Hr Hb Hf Hs Hno] Hc H0 Hp Hlo Hc1. split.
  - lia.
  - by apply boundary_succ.
  - intros q Hq. destruct (decide (q = p)) as [->|]; [by apply boundary_free|apply Hf; lia].
  - intros. replace (p + 1 - (c + 1) - 1) with (p - c - 1) by lia. apply Hs. lia.
  - intros a Ha Han Hfr. destruct (decide (a + n ≤ p)); [by apply (Hno a)|].
    destruct Hfr as (_ & _ & Hfree).
    apply (Hfree (p - c - 1)); [lia|]. apply Hs. lia.
Qed.
Lemma stretch_used lo p c : stretch lo p c → c < n → T !!! p ≠ 0 → 0 ≤ lo →
  stretch lo (p + T !!! p) 0.
Proof.
  intros [Hr Hb Hf Hs Hno] Hc H0 Hlo. pose proof (wf_range T Hwf p H0).
  pose proof (wf_nonneg T Hwf p). split.
  - lia.
  - by apply boundary_block.
  - lia.
  - intros. exists p. lia.
  - intros a Ha Han Hfr. destruct (decide (a + n ≤ p)); [by apply (Hno a)|].
    destruct Hfr as (_ & _ & Hfree). destruct (decide (a < p)).
    + apply (Hfree p); [lia|]. exists p. lia.
    + apply (Hfree a); [lia|]. exists p. lia.
Qed.

(** The bookkeeping after one step: wrap at the end of the heap, or go on. *)
Definition after_step (p k c : Z) : Prop :=
  c < n ∧ 0 ≤ p ≤ UHEAP_PAGES ∧
  ((k = UHEAP_PAGES - (p - g) ∧ stretch g p c) ∨
   (p ≤ g ∧ k = g - p ∧ stretch 0 p c ∧ ∀ a, g ≤ a → ¬ free_range T a n)).
Lemma after_wraps p k c x j :
  after_step p k c → scan_at p c x →
  nextfit_inv (if USER_HEAP_MAX <=? sc_i x then (k, MkScan USER_HEAP_START j 0 false) else (k, x)) s.
Proof.
  intros (Hc & Hp & Hcase) Hx. destruct x as [i jx cs flag].
  assert (i = page p) as -> by (by destruct Hx as (? & [= -> -> -> ->] & _)). cbn [sc_i].
  rewrite <-page_N.
  assert ((page UHEAP_PAGES <=? page p) = (UHEAP_PAGES <=? p)) as ->.
  { unfold page. uheap_unfold. lia. }
  destruct (Z.leb_spec UHEAP_PAGES p) as [HN|HN].
  - assert (p = UHEAP_PAGES) as -> by lia. destruct Hcase as [[-> Hst]|(? & _)]; [|lia].
    split; [done|]. exists 0, g, 0. cbn. split_and!; [exists j; split; [done|lia]|lia|lia|].
    right. split_and!; [lia|lia|lia| |].
    + split; [lia|by apply boundary_0|lia|lia|]. intros a Ha Han (Ha0 & _). lia.
    + intros a Ha Hfr. pose proof Hfr as (_ & HaN & _). by apply (st_nofit _ _ _ Hst a).
  - split; [done|]. exists p, k, c. cbn. split_and!; try done.
    destruct Hcase as [[-> Hst]|(? & -> & Hst & Hno)]; [left|right]; split_and!; try done; try lia.
    pose proof (st_range _ _ _ Hst). lia.
Qed.

(** A step that goes on: the bookkeeping, with the loop's counter decreased. *)
Lemma after_returns p k k' c i j flag j' :
  after_step p k' c → scan_at p c (MkScan i j (PAGE_SIZE * c) flag) → 0 ≤ k' < k →
  ∃ x' s', (if USER_HEAP_MAX <=? i then mret (inl (k', MkScan USER_HEAP_START j' 0 false))
            else mret (inl (k', MkScan i j (PAGE_SIZE * c) flag))
            : M UState ((Z * scan) + (bool * option Z * Z))) s = Ret (inl x') s' ∧
    nextfit_inv x' s' ∧ (Z.to_nat x'.1 < Z.to_nat k)%nat.
Proof.
  intros Ha Hx Hk. pose proof (after_wraps p k' c _ j' Ha Hx) as Hinv. cbn [sc_i] in Hinv.
  destruct (USER_HEAP_MAX <=? i); do 2 eexists; (split; [done|]); cbn [fst]; (split; [done|lia]).
Qed.

(** The loop's counter bounds the block that starts at the scanned page. *)
Lemma nextfit_counter p k c :
  0 < k →
  (g ≤ p < UHEAP_PAGES ∧ k = UHEAP_PAGES - (p - g) ∧ stretch g p c) ∨
  (0 ≤ p ≤ g ∧ k = g - p ∧ stretch 0 p c ∧ ∀ a, g ≤ a → ¬ free_range T a n) →
  0 ≤ c ∧ c ≤ p ∧ p < UHEAP_PAGES ∧ k ≤ UHEAP_PAGES ∧
  (T !!! p ≠ 0 → T !!! p ≤ k ∧ p + T !!! p ≤ UHEAP_PAGES).
Proof.
  intros Hk [(? & -> & Hst)|(? & -> & Hst & _)]; pose proof (st_range _ _ _ Hst);
    split_and!; try lia; intros HT; pose proof (wf_range T Hwf p HT); [lia|].
  split; [|lia]. pose proof (Hgb p). lia.
Qed.

Lemma nextfit_step x s1 :
  nextfit_inv x s1 →
  (∃ x' s', nextfit_body (PAGE_SIZE * n) x s1 = Ret (inl x') s' ∧ nextfit_inv x' s' ∧
     (Z.to_nat x'.1 < Z.to_nat x.1)%nat) ∨
  (∃ r s', nextfit_body (PAGE_SIZE * n) x s1 = Ret (inr r) s' ∧ nextfit_post r s').
Proof.
  destruct x as [k [i j cs flag]]. intros (-> & p & ? & c & Hx & <- & Hc & Hcase).
  cbn [fst snd] in *. pose proof (scan_at_extend p c (MkScan i j cs flag)) as Hext.
  pose proof Hx as (j' & [= -> -> -> ->] & Hj). unfold nextfit_body.
  destruct (Z.eqb_spec k 0) as [->|Hk].
  { right. do 2 eexists. split; [done|]. right. exists j', c. split_and!; [done..|].
    intros a Hfr. pose proof Hfr as (Ha & HN & _). destruct Hcase as [|(Hp & Hp0 & Hst & Hno)]; [lia|].
    destruct (decide (g ≤ a)); [by destruct (Hno a)|].
    destruct (decide (a + n ≤ g)); [|lia]. destruct (st_nofit _ _ _ Hst a); [lia|lia|done]. }
  assert (0 < k) as Hk0 by (destruct Hcase as [|]; lia).
  destruct (nextfit_counter p k c Hk0 Hcase) as (Hc0 & Hcp & Hp & HkN & Hblock).
  destruct Hext as [_ Hext]; [lia|lia|done|].
  rewrite (bind_Ret _ _ _ _ _ (read_tracker_page p s ltac:(lia))). fold T.
  assert (u32 (PAGE_SIZE * c + PAGE_SIZE) = PAGE_SIZE * (c + 1)) as Hcs.
  { replace (PAGE_SIZE * c + PAGE_SIZE) with (PAGE_SIZE * (c + 1)) by lia. apply u32_pages. lia. }
  rewrite Hcs in *. pose proof (wf_nonneg T Hwf p) as Hnn.
  destruct (Z.eqb_spec (T !!! p) 0) as [H0|H0]; cbn [andb].
  - rewrite (u32_small (k - 1)) by (uheap_unfold; lia).
    destruct (decide (c + 1 < n)) as [Hlt|Hge].
    + left. assert (after_step (p + 1) (k - 1) (c + 1)) as Ha.
      { split_and!; [lia..|]. destruct Hcase as [(? & -> & Hst)|(? & -> & Hst & Hno)]; [left|right].
        - split; [lia|]. apply stretch_free; try done; lia.
        - split_and!; [lia|lia| |done]. apply stretch_free; try done; lia. }
      destruct (0 <? c); cbn [negb]; rewrite pages_leb;
        (destruct (Z.leb_spec n (c + 1)); [lia|]);
        eapply after_returns; (done || lia).
    + right. destruct Hext as (j2 & [= Hi Hj2 Hflag] & Hjj).
      assert (c + 1 = n) as Hcn by lia. rewrite Hcn in *. rewrite <-Hj2 in Hjj.
      assert (free_range T (p - c) n) as Hfr.
      { assert (boundary T p ∧ ∀ q, p - c ≤ q < p → ¬ used T q) as [Hb Hf]
          by (destruct Hcase as [(? & -> & Hst)|(? & -> & Hst & Hno)]; destruct Hst; done).
        split_and!; [lia|lia|]. intros q Hq. destruct (decide (q = p)) as [->|].
        - by apply boundary_free.
        - apply Hf. lia. }
      replace (p + 1 - n) with (p - c) in Hjj by lia. specialize (Hjj ltac:(lia)).
      destruct (0 <? c); cbn [negb]; rewrite pages_leb, Z.leb_refl, Hjj;
        (do 2 eexists; (split; [done|])); left; by exists (p - c).
  - destruct (Hblock H0) as [Htk HtN]. rewrite pages_leb.
    destruct (Z.leb_spec n c); [lia|]. left.
    rewrite (u32_small (k - T !!! p)) by (uheap_unfold; lia).
    destruct (Z.leb_spec (PAGE_SIZE * n) 0) as [Hle|_]; [unfold PAGE_SIZE in *; lia|].
    pose proof (after_returns (p + T !!! p) k (k - T !!! p) 0
      (u32 (page p + u32 (PAGE_SIZE * T !!! p))) j' false j') as Hret.
    rewrite Z.mul_0_r in Hret. apply Hret; [|apply scan_at_reset; lia|lia].
    split_and!; [lia..|]. destruct Hcase as [(? & -> & Hst)|(? & -> & Hst & Hno)]; [left|right].
    + split; [lia|]. eapply stretch_used; done || lia.
    + split_and!; [lia|lia| |done]. eapply stretch_used; done || lia.
Qed.

Lemma nextfit_loop : ∃ r s1,
  mloop scan_fuel (nextfit_body (PAGE_SIZE * n)) (UHEAP_PAGES, MkScan (page g) None 0 false) s
    = Ret r s1 ∧ nextfit_post r s1.
Proof.
  apply (mloop_total nextfit_inv nextfit_post (λ x _, Z.to_nat x.1)).
  - apply nextfit_step.
  - split; [done|]. exists g, UHEAP_PAGES, 0. cbn.
    split_and!; [exists None; split; [done|lia]|done|done|]. left.
    split_and!; [lia|lia|lia|]. split; [lia|done|lia|lia|]. intros a Ha Han (_ & _ & Hfree).
    lia.
  - unfold scan_fuel. cbn. lia.
Qed.
End NextFit.

(** Next fit starts at the last address handed out: it finds [n] free pages unless the only
    free ranges of that size straddle the starting page. *)
Lemma nextfit_search_spec s n g :
  tracker_wf (UHeap_Tracker s) → 0 < n → generalAddress s = page g → 0 ≤ g < UHEAP_PAGES →
  boundary (UHeap_Tracker s) g → ∃ (go : bool) a,
  nextfit_search (PAGE_SIZE * n) s = Ret go (if go then set_generalAddress (page a) s else s) ∧
  if go : bool then free_range (UHeap_Tracker s) a n
  else ∀ b, free_range (UHeap_Tracker s) b n → b < g < b + n.
Proof.
  intros Hwf Hn Hga Hg Hgb. unfold nextfit_search. rewrite bind_gets, Hga.
  destruct (nextfit_loop s Hwf n g Hn Hg Hgb) as (r & s1 & Hl & Hpost).
  rewrite (bind_Ret _ _ _ _ _ Hl). destruct Hpost as [(a & -> & -> & Hfr)|(j & c & -> & Hc & -> & Hno)].
  - by exists true, a.
  - exists false, 0. split; [|done]. unfold after_search. cbn [negb andb]. rewrite pages_leb.
    by destruct (Z.leb_spec n c); [lia|].
Qed.

(** ** The invariant of the heap *)
Definition known_strategy (st : Z) : Prop :=
  st = UHP_PLACE_FIRSTFIT ∨ st = UHP_PLACE_BESTFIT ∨ st = UHP_PLACE_NEXTFIT ∨
  st = UHP_PLACE_WORSTFIT.

Record UInv (s : UState) : Prop := {
  inv_wf : tracker_wf (UHeap_Tracker s);
  inv_sizes p : sizeOfVAs s !!! p =
    if UHeap_Tracker s !!! p =? 0 then MkSizeAddr 0 0
    else MkSizeAddr (PAGE_SIZE * UHeap_Tracker s !!! p) (page p);
  inv_general : ∃ g, generalAddress s = page g ∧ 0 ≤ g < UHEAP_PAGES ∧ boundary (UHeap_Tracker s) g;
}.

Lemma tracker_wf_empty : tracker_wf ∅.
Proof. split; intros *; rewrite !zero_array; lia. Qed.
Lemma UInv_init st : UInv (uheap_init st).
Proof.
  split; cbn.
  - apply tracker_wf_empty.
  - intros p. by rewrite !lookup_total_empty.
  - exists 0. split_and!; try done. apply boundary_0, tracker_wf_empty.
Qed.

Lemma tracker_wf_insert T a n :
  tracker_wf T → 0 < n → free_range T a n → tracker_wf (<[a:=n]> T).
Proof.
  intros Hwf Hn (Ha & HN & Hfree).
  assert (∀ q, a ≤ q < a + n → T !!! q = 0) as Hz.
  { intros q Hq. destruct (decide (T !!! q = 0)) as [|H0]; [done|].
    destruct (Hfree q Hq). exists q. pose proof (wf_nonneg T Hwf q). lia. }
  split.
  - intros p. destruct (decide (p = a)) as [->|]; arr; try lia; by apply wf_nonneg.
  - intros p. destruct (decide (p = a)) as [->|]; arr; by apply wf_range.
  - intros p q. destruct (decide (p = a)) as [->|Hpa]; arr; intros Hpq.
    + rewrite array_get_set_ne by lia. apply Hz. lia.
    + destruct (decide (q = a)) as [->|]; arr.
      * destruct (Hfree a); [lia|]. exists p. lia.
      * by apply (wf_inner T Hwf p).
Qed.
Lemma tracker_le_boundary T T' q :
  (∀ p, T' !!! p ≤ T !!! p) → boundary T q → boundary T' q.
Proof. intros Hle Hb p Hp. apply (Hb p). specialize (Hle p). lia. Qed.
Lemma tracker_free_le T p q : tracker_wf T → <[p:=0]> T !!! q ≤ T !!! q.
Proof.
  intros Hwf. pose proof (wf_nonneg T Hwf q). destruct (decide (q = p)) as [->|]; arr; lia.
Qed.
Lemma tracker_wf_free T p : tracker_wf T → tracker_wf (<[p:=0]> T).
Proof.
  intros Hwf. pose proof (tracker_free_le T p) as Hle. split.
  - intros q. destruct (decide (q = p)) as [->|]; arr; by apply wf_nonneg.
  - intros q. destruct (decide (q = p)) as [->|]; arr; by apply wf_range.
  - intros q r Hr. specialize (Hle q Hwf). pose proof (tracker_free_le T p r Hwf).
    assert (T !!! r = 0) by (apply (wf_inner T Hwf q); lia).
    destruct (decide (r = p)) as [->|]; arr.
Qed.

(** *** [malloc], the part after the search *)
Definition pages_of (size : Z) : Z := (size + PAGE_SIZE - 1) `div` PAGE_SIZE.
Lemma ROUNDUP_pages size : 0 < size ≤ 0xFFFFF000 →
  ROUNDUP size PAGE_SIZE = PAGE_SIZE * pages_of size ∧ 0 < pages_of size.
Proof.
  intros Hs. unfold ROUNDUP, ROUNDDOWN, pages_of, PAGE_SIZE.
  rewrite !(u32_small 4096) by done. rewrite (u32_small size) by (unfold is_u32; lia).
  rewrite !(u32_small (size + 4096 - 1)) by (unfold is_u32; lia).
  pose proof (Z.div_mod (size + 4096 - 1) 4096 ltac:(done)).
  pose proof (Z.mod_pos_bound (size + 4096 - 1) 4096 ltac:(done)).
  rewrite u32_small by (unfold is_u32; lia). lia.
Qed.

(** The state after a successful [malloc] of [n] pages at page [a]. *)
Definition malloc_post (n a : Z) (s : UState) : UState :=
  MkUState (<[a:=MkSizeAddr (PAGE_SIZE * n) (page a)]> (sizeOfVAs s))
    (<[a:=n]> (UHeap_Tracker s))
    (if a + n =? UHEAP_PAGES then USER_HEAP_START else page a)
    (heap_strategy s) (sys_trace s ++ [SysAllocateMem (page a) (PAGE_SIZE * n)]).

Definition malloc_search (size : Z) : M UState bool :=
  nextfit ← sys_isUHeapPlacementStrategyNEXTFIT;
  if nextfit : bool then nextfit_search size else
  firstfit ← sys_isUHeapPlacementStrategyFIRSTFIT;
  if firstfit : bool then firstfit_search size else
  bestfit ← sys_isUHeapPlacementStrategyBESTFIT;
  if bestfit : bool then bestfit_search size else
  worstfit ← sys_isUHeapPlacementStrategyWORSTFIT;
  if worstfit : bool then worstfit_search size else mret true.

Lemma malloc_after_search size n s a s0 :
  0 < size ≤ 0xFFFFF000 → n = pages_of size → free_range (UHeap_Tracker s) a n →
  malloc_search (PAGE_SIZE * n) s0 = Ret true (set_generalAddress (page a) s) →
  malloc size s0 = Ret (page a) (malloc_post n a s).
Proof.
  intros Hs -> (Ha & HN & _) Hsearch. unfold malloc.
  destruct (ROUNDUP_pages size Hs) as [-> Hn]. set (n := pages_of size) in *.
  fold (malloc_search (PAGE_SIZE * n)). rewrite (bind_Ret _ _ _ _ _ Hsearch). cbn [negb].
  rewrite bind_gets. cbn [generalAddress set_generalAddress].
  assert ((PAGE_SIZE * n) `div` PAGE_SIZE = n) as -> by (rewrite Z.mul_comm; by apply Z.div_mul).
  rewrite (bind_Ret _ _ _ _ _ (write_tracker_page a n _ ltac:(lia))). unfold sys_allocateMem.
  rewrite bind_modify. unfold write_sizeOfVAs. rewrite uheap_index_page, in_array_true by lia.
  rewrite bind_modify.
  rewrite u32_page_add by lia. rewrite <-page_N.
  assert ((page UHEAP_PAGES <=? page (a + n)) = (a + n =? UHEAP_PAGES)) as ->.
  { uheap_unfold. lia. }
  unfold malloc_post. by destruct (a + n =? UHEAP_PAGES).
Qed.
Lemma malloc_null size n s0 s1 :
  0 < size ≤ 0xFFFFF000 → n = pages_of size →
  malloc_search (PAGE_SIZE * n) s0 = Ret false s1 → malloc size s0 = Ret 0 s1.
Proof.
  intros Hs -> Hsearch. unfold malloc. destruct (ROUNDUP_pages size Hs) as [-> Hn].
  fold (malloc_search (PAGE_SIZE * pages_of size)). by rewrite (bind_Ret _ _ _ _ _ Hsearch).
Qed.
Lemma malloc_post_inv n a s :
  UInv s → 0 < n → free_range (UHeap_Tracker s) a n → UInv (malloc_post n a s).
Proof.
  intros [Hwf Hsz _] Hn Hfr. split; cbn.
  - by apply tracker_wf_insert.
  - intros p. destruct (decide (p = a)) as [->|]; arr. destruct (Z.eqb_spec n 0); [lia|done].
  - pose proof (tracker_wf_insert _ _ _ Hwf Hn Hfr) as Hwf'. destruct Hfr as (Ha & HN & Hfree).
    destruct (Z.eqb_spec (a + n) UHEAP_PAGES).
    + exists 0. split_and!; try done. by apply boundary_0.
    + exists a. split_and!; [done|lia|lia|]. intros p Hp. destruct (decide (p = a)) as [->|]; arr; [lia|].
      destruct (Hfree a); [lia|]. exists p. lia.
Qed.
