(* ===== verification/UHeapSpec.v ===== *)
(** * The user heap: what [malloc] and [free] promise

    The abstract heap is a finite map from addresses to block sizes; the concrete one of [UHeap.v]
    refines it, and the sequence of system calls it makes builds the same map in the kernel.  Requests of no
    byte or of more than 0xFFFFF000 bytes, and free of NULL, are outside: the last theorems show how
    they fail. *)
From S2P Require Import Prelude Machine UHeap.

(** The chain of [sys_isUHeapPlacementStrategy...] tests under a known strategy. *)
Lemma strategy_bind {B} w (f : bool → M UState B) s :
  (sys_isUHeapPlacementStrategy w ≫= f) s = f (heap_strategy s =? w) s.
Proof. done. Qed.
Ltac strategy :=
  let H := fresh in intros H; unfold malloc_search;
  repeat (etransitivity; [apply strategy_bind|]; cbv beta; rewrite H;
    lazymatch goal with |- (if ?b then _ else _) _ = _ =>
      let v := eval vm_compute in b in change b with v; cbv iota end);
  reflexivity.

(** ** [malloc] under each strategy *)
Section Malloc.
Context (s : UState) (Hinv : UInv s) (size : Z) (Hsize : 0 < size ≤ 0xFFFFF000).
Let n := pages_of size.
Let T := UHeap_Tracker s.

Lemma pages_of_pos : 0 < n.
Proof. by apply ROUNDUP_pages. Qed.

(** The next-fit pointer after [malloc] returned [NULL]. *)
Definition null_post (s' : UState) : Prop := s' = s ∨ s' = set_generalAddress USER_HEAP_START s.

(** A search that found page [a], or found nothing. *)
Definition search_result (go : bool) (a : Z) (s1 : UState) : Prop :=
  if go then s1 = set_generalAddress (page a) s ∧ free_range T a n else null_post s1.

Lemma search_malloc go a s1 :
  malloc_search (PAGE_SIZE * n) s = Ret go s1 → search_result go a s1 →
  malloc size s = if go then Ret (page a) (malloc_post n a s) else Ret 0 s1.
Proof.
  intros Hm Hr. destruct go.
  - destruct Hr as [-> Hfr]. by apply (malloc_after_search size n s a s).
  - by apply (malloc_null size n).
Qed.

Lemma malloc_search_first : heap_strategy s = UHP_PLACE_FIRSTFIT →
  malloc_search (PAGE_SIZE * n) s = firstfit_search (PAGE_SIZE * n) s.
Proof. strategy. Qed.
Lemma malloc_search_best : heap_strategy s = UHP_PLACE_BESTFIT →
  malloc_search (PAGE_SIZE * n) s = bestfit_search (PAGE_SIZE * n) s.
Proof. strategy. Qed.
Lemma malloc_search_next : heap_strategy s = UHP_PLACE_NEXTFIT →
  malloc_search (PAGE_SIZE * n) s = nextfit_search (PAGE_SIZE * n) s.
Proof. strategy. Qed.
Lemma malloc_search_worst : heap_strategy s = UHP_PLACE_WORSTFIT →
  malloc_search (PAGE_SIZE * n) s = worstfit_search (PAGE_SIZE * n) s.
Proof. strategy. Qed.

Lemma pick_free cmp a go : pick_spec cmp T n a go → go = true → free_range T a n.
Proof.
  intros Hp ->. destruct Hp as [(m & Hm & (_ & (Ha & HN & Hf) & _) & _)|(_ & m & Hm & (_ & (Ha & HN & Hf) & _))];
    (split_and!; [lia|lia|]; intros q Hq; apply Hf; lia).
Qed.

Lemma malloc_search_total : known_strategy (heap_strategy s) →
  ∃ go a s1, malloc_search (PAGE_SIZE * n) s = Ret go s1 ∧ search_result go a s1.
Proof.
  pose proof pages_of_pos as Hn. destruct Hinv as [Hwf _ (g & Hg & Hg2 & Hgb)].
  intros [H|[H|[H|H]]].
  - rewrite malloc_search_first by done.
    destruct (firstfit_search_spec s n Hwf Hn) as (go & a & -> & Hr).
    exists go, a. eexists. split; [done|]. destruct go; [by destruct Hr|].
    destruct Hr as [-> _]. by right.
  - rewrite malloc_search_best by done.
    destruct (bestfit_search_spec s n Hwf Hn) as (go & a & -> & Hr).
    exists go, a. eexists. split; [done|]. pose proof (pick_free _ _ _ Hr) as Hfr.
    destruct go; [by split; [|apply Hfr]|]. destruct Hr as [-> _]. by right.
  - rewrite malloc_search_next by done.
    destruct (nextfit_search_spec s n g Hwf Hn Hg Hg2 Hgb) as (go & a & -> & Hr).
    exists go, a. eexists. split; [done|]. destruct go; [by split|by left].
  - rewrite malloc_search_worst by done.
    destruct (worstfit_search_spec s n Hwf Hn) as (go & a & -> & Hr).
    exists go, a. eexists. split; [done|]. pose proof (pick_free _ _ _ Hr) as Hfr.
    destruct go; [by split; [|apply Hfr]|]. destruct Hr as [-> _]. by right.
Qed.

(** Every strategy: a fresh block of free pages, or [NULL] and nothing but the next-fit
    pointer changed. *)
Lemma malloc_total : known_strategy (heap_strategy s) →
  (∃ a, malloc size s = Ret (page a) (malloc_post n a s) ∧ free_range T a n) ∨
  (∃ s', malloc size s = Ret 0 s' ∧ null_post s').
Proof.
  intros Hst. destruct (malloc_search_total Hst) as ([] & a & s1 & Hm & Hr);
    rewrite (search_malloc _ _ _ Hm Hr); [left|right]; [|by eauto].
  destruct Hr. by exists a.
Qed.
End Malloc.

Lemma null_post_inv s s' : UInv s → null_post s s' → UInv s'.
Proof.
  intros Hinv [->| ->]; [done|]. destruct Hinv as [Hwf Hsz _]. split; [done|done|].
  exists 0. split_and!; [done..|]. by apply boundary_0.
Qed.
Lemma free_range_nonzero T a n : free_range T a n → page a ≠ 0.
Proof. intros (Ha & _). uheap_unfold. lia. Qed.

(** ** [free] *)
Section Free.
Context (s : UState) (Hinv : UInv s).
Let T := UHeap_Tracker s.

Lemma free_miss va i : 0 ≤ i < UHEAP_PAGES →
  (if T !!! i =? 0 then 0 else page i) ≠ va → free_body va i s = Ret (inl (i + 1)) s.
Proof.
  intros Hi Hne. unfold free_body. destruct (Z.ltb_spec i UHEAP_PAGES); [|lia]. cbn [negb].
  rewrite bind_gets, (inv_sizes s Hinv). fold T. destruct (T !!! i =? 0); cbn [ua_virtualAddress].
  - by destruct (Z.eqb_spec 0 va).
  - by destruct (Z.eqb_spec (page i) va).
Qed.
Lemma free_skip va p : 0 ≤ p ≤ UHEAP_PAGES →
  (∀ i, 0 ≤ i < p → (if T !!! i =? 0 then 0 else page i) ≠ va) →
  free va s = mloop (Z.to_nat (UHEAP_PAGES + 1 - p)) (free_body va) p s.
Proof.
  intros Hp Hmiss. unfold free, scan_fuel.
  replace (Z.to_nat (UHEAP_PAGES + 1)) with (Z.to_nat p + Z.to_nat (UHEAP_PAGES + 1 - p))%nat by lia.
  change 0 with (Z.of_nat 0) at 1. rewrite (mloop_steps _ Z.of_nat).
  - by rewrite Z2Nat.id by lia.
  - intros j Hj. rewrite free_miss; [do 2 f_equal; lia|lia|apply Hmiss; lia].
Qed.

Definition free_post (p : Z) : UState :=
  MkUState (<[p:=MkSizeAddr 0 0]> (sizeOfVAs s)) (<[p:=0]> T) (generalAddress s) (heap_strategy s)
    (sys_trace s ++ [SysFreeMem (page p) (PAGE_SIZE * T !!! p)]).

Lemma free_block p : T !!! p ≠ 0 → free (page p) s = Ret tt (free_post p).
Proof.
  intros H0. destruct (wf_range T (inv_wf s Hinv) p H0). pose proof (wf_nonneg T (inv_wf s Hinv) p).
  rewrite (free_skip (page p) p) by (lia || (intros i Hi; destruct (T !!! i =? 0); uheap_unfold; lia)).
  replace (Z.to_nat (UHEAP_PAGES + 1 - p)) with (Datatypes.S (Z.to_nat (UHEAP_PAGES - p))) by lia.
  apply mloop_break. unfold free_body. destruct (Z.ltb_spec p UHEAP_PAGES); [|lia]. cbn [negb].
  rewrite bind_gets, (inv_sizes s Hinv). fold T.
  destruct (Z.eqb_spec (T !!! p) 0); [done|]. cbn [ua_virtualAddress ua_size]. rewrite Z.eqb_refl.
  rewrite (bind_Ret _ _ _ _ _ (write_tracker_page p 0 s ltac:(lia))).
  unfold sys_freeMem. rewrite bind_modify.
  unfold write_sizeOfVAs. by rewrite in_array_true by lia.
Qed.

Lemma free_unknown va : va ≠ 0 → (∀ p, va = page p → T !!! p = 0) → free va s = Ret tt s.
Proof.
  intros Hva Hno. rewrite (free_skip va UHEAP_PAGES); [|by rewrite UHEAP_PAGES_val|].
  - replace (Z.to_nat (UHEAP_PAGES + 1 - UHEAP_PAGES)) with 1%nat by lia. done.
  - intros i Hi. destruct (Z.eqb_spec (T !!! i) 0); [done|]. intros <-. by apply n, Hno.
Qed.

Lemma free_post_inv p : UInv (free_post p).
Proof.
  destruct Hinv as [Hwf Hsz (g & Hg & Hg2 & Hgb)]. split; cbn.
  - by apply tracker_wf_free.
  - intros q. destruct (decide (q = p)) as [->|]; arr.
  - exists g. split_and!; [done|lia|lia|]. eapply tracker_le_boundary; [|done].
    intros q. by apply tracker_free_le.
Qed.
End Free.

(** ** The abstract heap *)
Inductive heap_op := OpMalloc (size : Z) | OpFree (va : Z).

Definition heap_exec (o : heap_op) : M UState Z :=
  match o with
  | OpMalloc size => malloc size
  | OpFree va => free va;; mret 0
  end.
(** A client program: its calls in order, with what each returned. *)
Fixpoint heap_run (ops : list heap_op) : M UState (list Z) :=
  match ops with
  | [] => mret []
  | o :: ops => r ← heap_exec o; rs ← heap_run ops; mret (r :: rs)
  end.
Definition legal_op (o : heap_op) : Prop :=
  match o with OpMalloc size => 0 < size ≤ 0xFFFFF000 | OpFree va => va ≠ 0 end.

(** Live blocks: address to size. *)
Notation aheap := (gmap Z Z).
Definition block_size (size : Z) : Z := PAGE_SIZE * pages_of size.
Inductive abs_step (h : aheap) : heap_op → Z → aheap → Prop :=
  | abs_null size : abs_step h (OpMalloc size) 0 h
  | abs_malloc size va :
      va ≠ 0 → va `mod` PAGE_SIZE = 0 →
      USER_HEAP_START ≤ va → va + block_size size ≤ USER_HEAP_MAX →
      (∀ va' sz, h !! va' = Some sz → va' + sz ≤ va ∨ va + block_size size ≤ va') →
      abs_step h (OpMalloc size) va (<[va := block_size size]> h)
  | abs_free va : abs_step h (OpFree va) 0 (delete va h).
Inductive abs_run : aheap → list heap_op → list Z → aheap → Prop :=
  | abs_run_nil h : abs_run h [] [] h
  | abs_run_cons h o r h1 ops rs h2 :
      abs_step h o r h1 → abs_run h1 ops rs h2 → abs_run h (o :: ops) (r :: rs) h2.

(** The kernel's view: what the system calls made so far leave allocated. *)
Definition apply_event (h : aheap) (e : sys_event) : aheap :=
  match e with SysAllocateMem va size => <[va := size]> h | SysFreeMem va _ => delete va h end.
Definition replay (tr : list sys_event) : aheap := foldl apply_event ∅ tr.

(** The abstract heap of a concrete state, which is also the kernel's view of it. *)
Record heap_rel (h : aheap) (s : UState) : Prop := {
  rel_inv : UInv s;
  rel_strategy : known_strategy (heap_strategy s);
  rel_blocks va sz : h !! va = Some sz ↔
    ∃ p, va = page p ∧ UHeap_Tracker s !!! p ≠ 0 ∧ sz = PAGE_SIZE * UHeap_Tracker s !!! p;
  rel_kernel : replay (sys_trace s) = h;
}.

Lemma page_inj p q : page p = page q → p = q.
Proof. unfold page, PAGE_SIZE. lia. Qed.
Lemma replay_snoc tr e : replay (tr ++ [e]) = apply_event (replay tr) e.
Proof. unfold replay. by rewrite foldl_app. Qed.

Lemma heap_rel_init st : known_strategy st → heap_rel ∅ (uheap_init st).
Proof.
  intros Hst. split; [apply UInv_init|done| |done]. intros va sz. rewrite lookup_empty. split; [done|].
  intros (p & -> & H & _). cbn in H. by rewrite zero_array in H.
Qed.
Lemma heap_rel_null h s s' : heap_rel h s → null_post s s' → heap_rel h s'.
Proof.
  intros [Hinv Hst Hb Hk] Hn. pose proof (null_post_inv _ _ Hinv Hn).
  by destruct Hn as [->| ->]; split.
Qed.
Lemma heap_rel_malloc h s n a : heap_rel h s → 0 < n → free_range (UHeap_Tracker s) a n →
  heap_rel (<[page a := PAGE_SIZE * n]> h) (malloc_post n a s).
Proof.
  intros [Hinv Hst Hb Hk] Hn Hfr. split; [by apply malloc_post_inv|done| |].
  - intros va sz. rewrite lookup_insert_Some, Hb. cbn. split.
    + intros [[<- <-]|(Hne & p & -> & H0 & ->)].
      * exists a. arr. split_and!; [done|lia|done].
      * exists p. assert (p ≠ a) by congruence. arr.
    + intros (p & -> & H0 & ->). destruct (decide (p = a)) as [->|]; arr; [by left|right].
      split; [|by exists p]. intros ?%page_inj. congruence.
  - cbn. by rewrite replay_snoc, Hk.
Qed.
Lemma heap_rel_free h s p : heap_rel h s → heap_rel (delete (page p) h) (free_post s p).
Proof.
  intros [Hinv Hst Hb Hk]. split; [by apply free_post_inv|done| |].
  - intros va sz. rewrite lookup_delete_Some, Hb. cbn. split.
    + intros (Hne & q & -> & H0 & ->). exists q. assert (q ≠ p) by congruence. arr.
    + intros (q & -> & H0 & ->). destruct (decide (q = p)) as [->|]; arr.
      split; [|by exists q]. intros ?%page_inj. congruence.
  - cbn. by rewrite replay_snoc, Hk.
Qed.

(** One call of a client: the concrete heap does what the abstract one allows. *)
Lemma heap_exec_refines h s o : heap_rel h s → legal_op o →
  ∃ r s' h', heap_exec o s = Ret r s' ∧ abs_step h o r h' ∧ heap_rel h' s'.
Proof.
  intros Hrel Hl. pose proof Hrel as [Hinv Hst Hb _]. destruct o as [size|va]; cbn in Hl |- *.
  - pose proof (pages_of_pos size Hl) as Hn.
    destruct (malloc_total s Hinv size Hl Hst) as [(a & -> & Hfr)|(s' & -> & Hn')].
    + do 3 eexists. split; [done|]. split; [|by apply heap_rel_malloc].
      pose proof Hfr as (Ha & HN & Hfree). apply abs_malloc.
      * by eapply free_range_nonzero.
      * unfold page, PAGE_SIZE. rewrite Z.mul_comm, Z.mod_add by done. done.
      * unfold page, PAGE_SIZE. lia.
      * unfold block_size. rewrite <-page_N. unfold page, PAGE_SIZE. lia.
      * intros va' sz (p & -> & H0 & ->)%Hb. unfold block_size, page, PAGE_SIZE.
        destruct (decide (p + UHeap_Tracker s !!! p ≤ a)); [lia|].
        destruct (decide (a + pages_of size ≤ p)); [lia|].
        pose proof (wf_nonneg _ (inv_wf s Hinv) p). destruct (Hfree (Z.max p a)); [lia|].
        exists p. lia.
    + do 3 eexists. split; [done|]. split; [constructor|by eapply heap_rel_null].
  - destruct (h !! va) as [sz|] eqn:Hva.
    + apply Hb in Hva as (p & -> & H0 & _). do 3 eexists.
      split; [by rewrite (bind_Ret _ _ _ _ _ (free_block s Hinv p H0))|].
      split; [constructor|by apply heap_rel_free].
    + exists 0, s, (delete va h).
      assert (∀ p, va = page p → UHeap_Tracker s !!! p = 0) as Hno.
      { intros p ->. destruct (decide (UHeap_Tracker s !!! p = 0)); [done|].
        assert (h !! page p = Some (PAGE_SIZE * UHeap_Tracker s !!! p)) by (apply Hb; eauto).
        congruence. }
      rewrite (bind_Ret _ _ _ _ _ (free_unknown s Hinv va Hl Hno)).
      split; [done|]. split; [constructor|]. by rewrite delete_id.
Qed.
Lemma heap_run_refines ops h s : heap_rel h s → Forall legal_op ops →
  ∃ rs s' h', heap_run ops s = Ret rs s' ∧ abs_run h ops rs h' ∧ heap_rel h' s'.
Proof.
  intros Hrel Hl. revert h s Hrel. induction Hl as [|o ops Ho _ IH]; intros h s Hrel.
  - do 3 eexists. split; [done|]. split; [constructor|done].
  - destruct (heap_exec_refines h s o Hrel Ho) as (r & s1 & h1 & He & Ha & Hr1).
    destruct (IH h1 s1 Hr1) as (rs & s2 & h2 & He2 & Ha2 & Hr2).
    exists (r :: rs), s2, h2. cbn. rewrite (bind_Ret _ _ _ _ _ He), (bind_Ret _ _ _ _ _ He2).
    split; [done|]. by split; [econstructor|].
Qed.
Lemma heap_relE ops st : known_strategy st → Forall legal_op ops →
  ∃ rs s' h', heap_run ops (uheap_init st) = Ret rs s' ∧ abs_run ∅ ops rs h' ∧ heap_rel h' s'.
Proof. intros. apply heap_run_refines; [by apply heap_rel_init|done]. Qed.

Lemma first_unused (T : gmap Z Z) p : 0 ≤ p → T !!! p = 0 →
  ∃ q, 0 ≤ q ≤ p ∧ T !!! q = 0 ∧ ∀ i, 0 ≤ i < q → T !!! i ≠ 0.
Proof.
  intros Hp H0. assert (∀ k : nat, (∃ q, 0 ≤ q < Z.of_nat k ∧ T !!! q = 0 ∧ ∀ i, 0 ≤ i < q → T !!! i ≠ 0) ∨
    ∀ i, 0 ≤ i < Z.of_nat k → T !!! i ≠ 0) as Hk.
  { induction k as [|k [(q & ? & ?)|IH]]; [right; lia|left; exists q; split; [lia|done]|].
    destruct (decide (T !!! Z.of_nat k = 0)) as [Hz|Hz]; [left|right].
    - exists (Z.of_nat k). split_and!; [lia|lia|done|done].
    - intros i Hi. destruct (decide (i = Z.of_nat k)) as [->|]; [done|apply IH; lia]. }
  destruct (Hk (Z.to_nat p)) as [(q & ? & ?)|Hno]; [exists q; split; [lia|done]|].
  exists p. split_and!; [lia|lia|done|]. intros i Hi. apply Hno. lia.
Qed.

(** ** Properties *)

(** C1: Under each of the four placement strategies, every sequence of [malloc] calls for 1 to
    0xFFFFF000 bytes and [free] calls of non-null addresses ends (no loop runs out of fuel, no array
    is overrun) and behaves like the abstract heap: a non-null [malloc] returns a page-aligned block
    of the rounded size inside the user heap and disjoint from every live block, [free] removes
    exactly the block at its address, and nothing when there is none; the system calls issued leave
    exactly the live blocks allocated in the kernel; and the tables of the heap stay sound. Outside
    these requests it fails: malloc_size_wraps and free_null_overruns below. *)
Theorem user_heap_refines (st : Z) (ops : list heap_op) :
  known_strategy st → Forall legal_op ops →
  ∃ rs s' h', heap_run ops (uheap_init st) = Ret rs s' ∧ abs_run ∅ ops rs h' ∧
    replay (sys_trace s') = h' ∧ UInv s'.
Proof.
  intros Hst Hl. destruct (heap_relE ops st Hst Hl) as (rs & s' & h' & ? & ? & [? _ _ ?]).
  by exists rs, s', h'.
Qed.
Lemma user_heap_refines_witness :
  let ops := [OpMalloc 5000; OpMalloc 1; OpFree 0x80000000; OpMalloc 4096] in
  ∃ rs s' h', heap_run ops (uheap_init UHP_PLACE_BESTFIT) = Ret rs s' ∧ abs_run ∅ ops rs h' ∧
    replay (sys_trace s') = h' ∧ UInv s'.
Proof.
  intros ops. apply (user_heap_refines UHP_PLACE_BESTFIT ops).
  - right. left. reflexivity.
  - subst ops. repeat (constructor; [cbn; lia|]). constructor.
Defined.

(** C2: First fit: [malloc], for 1 to 0xFFFFF000 bytes, returns the lowest page at which the rounded
    size fits, and [NULL] only when it fits nowhere; the tracker, the block table and the next search
    position are updated for that block and nothing else is. *)
Theorem malloc_firstfit_lowest (s : UState) (size : Z) :
  UInv s → heap_strategy s = UHP_PLACE_FIRSTFIT → 0 < size ≤ 0xFFFFF000 →
  (∃ a, malloc size s = Ret (page a) (malloc_post (pages_of size) a s) ∧
     free_range (UHeap_Tracker s) a (pages_of size) ∧
     ∀ b, b < a → ¬ free_range (UHeap_Tracker s) b (pages_of size)) ∨
  (malloc size s = Ret 0 (set_generalAddress USER_HEAP_START s) ∧
     ∀ b, ¬ free_range (UHeap_Tracker s) b (pages_of size)).
Proof.
  intros Hinv Hst Hs. pose proof (pages_of_pos size Hs) as Hn.
  destruct (firstfit_search_spec s _ (inv_wf s Hinv) Hn) as (go & a & Hf & Hr).
  rewrite <-(malloc_search_first s size Hst) in Hf.
  destruct go; [left|right].
  - exists a. split; [|done]. destruct Hr. by apply (malloc_after_search size _ s a s).
  - destruct Hr as [-> Hno]. split; [|done]. by apply (malloc_null size (pages_of size)).
Qed.
Lemma malloc_firstfit_lowest_witness :
  let s := uheap_init UHP_PLACE_FIRSTFIT in
  (∃ a, malloc 10000 s = Ret (page a) (malloc_post 3 a s) ∧ free_range (UHeap_Tracker s) a 3 ∧
     ∀ b, b < a → ¬ free_range (UHeap_Tracker s) b 3) ∨
  (malloc 10000 s = Ret 0 (set_generalAddress USER_HEAP_START s) ∧
     ∀ b, ¬ free_range (UHeap_Tracker s) b 3).
Proof.
  intros s. apply (malloc_firstfit_lowest s 10000); [apply UInv_init|reflexivity|lia].
Defined.

(** C23: Best fit as the code implements it, for 1 to 0xFFFFF000 bytes: among the free runs that a
    later block closes, [malloc] takes a smallest one that fits; the free run at the end of the heap
    is used only when no closed run fits, even when it would have been the better fit; [NULL] is
    returned only when the rounded size fits nowhere. *)
Theorem malloc_bestfit_closed_runs (s : UState) (size : Z) :
  UInv s → heap_strategy s = UHP_PLACE_BESTFIT → 0 < size ≤ 0xFFFFF000 →
  ∃ (go : bool) a, pick_spec (λ c v, c <? v) (UHeap_Tracker s) (pages_of size) a go ∧
    malloc size s = if go then Ret (page a) (malloc_post (pages_of size) a s)
                    else Ret 0 (set_generalAddress USER_HEAP_START s).
Proof.
  intros Hinv Hst Hs. pose proof (pages_of_pos size Hs) as Hn.
  destruct (bestfit_search_spec s _ (inv_wf s Hinv) Hn) as (go & a & Hf & Hr).
  rewrite <-(malloc_search_best s size Hst) in Hf. exists go, a. split; [done|].
  rewrite (search_malloc s size Hs go a _ Hf); [|pose proof (pick_free s size _ _ _ Hr) as Hfr].
  - destruct go; [done|]. by destruct Hr as [-> _].
  - destruct go; [by split; [|apply Hfr]|]. destruct Hr as [-> _]. by right.
Qed.
Lemma malloc_bestfit_closed_runs_witness :
  let s := uheap_init UHP_PLACE_BESTFIT in
  ∃ (go : bool) a, pick_spec (λ c v, c <? v) (UHeap_Tracker s) 3 a go ∧
    malloc 10000 s = if go then Ret (page a) (malloc_post 3 a s)
                     else Ret 0 (set_generalAddress USER_HEAP_START s).
Proof.
  intros s. apply (malloc_bestfit_closed_runs s 10000); [apply UInv_init|reflexivity|lia].
Defined.

(** Worst fit as the code implements it: the same as best fit with a largest closed run. *)
Theorem malloc_worstfit_closed_runs (s : UState) (size : Z) :
  UInv s → heap_strategy s = UHP_PLACE_WORSTFIT → 0 < size ≤ 0xFFFFF000 →
  ∃ (go : bool) a, pick_spec (λ c v, v <? c) (UHeap_Tracker s) (pages_of size) a go ∧
    malloc size s = if go then Ret (page a) (malloc_post (pages_of size) a s)
                    else Ret 0 (set_generalAddress USER_HEAP_START s).
Proof.
  intros Hinv Hst Hs. pose proof (pages_of_pos size Hs) as Hn.
  destruct (worstfit_search_spec s _ (inv_wf s Hinv) Hn) as (go & a & Hf & Hr).
  rewrite <-(malloc_search_worst s size Hst) in Hf. exists go, a. split; [done|].
  rewrite (search_malloc s size Hs go a _ Hf); [|pose proof (pick_free s size _ _ _ Hr) as Hfr].
  - destruct go; [done|]. by destruct Hr as [-> _].
  - destruct go; [by split; [|apply Hfr]|]. destruct Hr as [-> _]. by right.
Qed.
Lemma malloc_worstfit_closed_runs_witness :
  let s := uheap_init UHP_PLACE_WORSTFIT in
  ∃ (go : bool) a, pick_spec (λ c v, v <? c) (UHeap_Tracker s) 3 a go ∧
    malloc 10000 s = if go then Ret (page a) (malloc_post 3 a s)
                     else Ret 0 (set_generalAddress USER_HEAP_START s).
Proof.
  intros s. apply (malloc_worstfit_closed_runs s 10000); [apply UInv_init|reflexivity|lia].
Defined.

(** Next fit starts at the page of the last allocation and wraps around once: [NULL] means
    that every free range of the rounded size straddles that page. *)
Theorem malloc_nextfit_wraps (s : UState) (size g : Z) :
  UInv s → heap_strategy s = UHP_PLACE_NEXTFIT → 0 < size ≤ 0xFFFFF000 →
  generalAddress s = page g →
  (∃ a, malloc size s = Ret (page a) (malloc_post (pages_of size) a s) ∧
     free_range (UHeap_Tracker s) a (pages_of size)) ∨
  (malloc size s = Ret 0 s ∧
     ∀ b, free_range (UHeap_Tracker s) b (pages_of size) → b < g < b + pages_of size).
Proof.
  intros Hinv Hst Hs Hg. pose proof (pages_of_pos size Hs) as Hn.
  destruct (inv_general s Hinv) as (g' & Hg' & Hg2 & Hgb).
  assert (g' = g) as -> by (apply page_inj; congruence).
  destruct (nextfit_search_spec s _ g (inv_wf s Hinv) Hn Hg Hg2 Hgb) as (go & a & Hf & Hr).
  rewrite <-(malloc_search_next s size Hst) in Hf. destruct go; [left|right].
  - exists a. split; [|done]. by apply (malloc_after_search size _ s a s).
  - split; [|done]. by apply (malloc_null size (pages_of size)).
Qed.
Lemma malloc_nextfit_wraps_witness :
  let s := uheap_init UHP_PLACE_NEXTFIT in
  (∃ a, malloc 10000 s = Ret (page a) (malloc_post 3 a s) ∧ free_range (UHeap_Tracker s) a 3) ∨
  (malloc 10000 s = Ret 0 s ∧ ∀ b, free_range (UHeap_Tracker s) b 3 → b < 0 < b + 3).
Proof.
  intros s. apply (malloc_nextfit_wraps s 10000 0); [apply UInv_init|reflexivity|lia|reflexivity].
Defined.

(** The rounding of [malloc] wraps: a size above 0xFFFFF000 (or 0) rounds to no page at all,
    and when the first page of the heap is in use first fit leaves its loop at once and copies
    the local [j] before anything was assigned to it. *)
Theorem malloc_size_wraps (s : UState) (size : Z) :
  heap_strategy s = UHP_PLACE_FIRSTFIT → UHeap_Tracker s !!! 0 ≠ 0 →
  size = 0 ∨ 0xFFFFF000 < size < 2 ^ 32 →
  malloc size s = Crash (Undefined "j") (set_generalAddress USER_HEAP_START s).
Proof.
  intros Hst H0 Hs. unfold malloc.
  assert (ROUNDUP size PAGE_SIZE = 0) as ->.
  { unfold ROUNDUP, ROUNDDOWN, PAGE_SIZE. rewrite !(u32_small 4096) by done.
    rewrite (u32_small size) by (unfold is_u32; lia). destruct Hs as [->|Hs]; [done|].
    assert (u32 (size + 4096 - 1) = size + 4096 - 1 - 2 ^ 32) as ->.
    { unfold u32. rewrite <-(Z_mod_plus_full _ (-1)). rewrite Z.mod_small; lia. }
    rewrite (u32_small (size + 4096 - 1 - 2 ^ 32)) by (unfold is_u32; lia).
    rewrite (Z.mod_small (_ - _)) by lia. by rewrite Z.sub_diag. }
  fold (malloc_search 0). apply bind_Crash.
  assert (malloc_search 0 s = firstfit_search 0 s) as -> by (revert Hst; strategy).
  unfold firstfit_search. rewrite bind_modify.
  set (s1 := set_generalAddress USER_HEAP_START s).
  assert (firstfit_body 0 (MkScan USER_HEAP_START None 0 false) s1 = Crash (Undefined "j") s1) as Hb.
  { unfold firstfit_body. change USER_HEAP_START with (page 0).
    rewrite page_lt_max. change (0 <? UHEAP_PAGES) with true. cbn [negb].
    rewrite (bind_Ret _ _ _ _ _ (read_tracker_page 0 s1 ltac:(done))).
    change (UHeap_Tracker s1) with (UHeap_Tracker s). by destruct (Z.eqb_spec (UHeap_Tracker s !!! 0) 0). }
  assert (scan_fuel = Datatypes.S (Z.to_nat UHEAP_PAGES)) as ->
    by (unfold scan_fuel; pose proof UHEAP_PAGES_val; lia).
  by apply bind_Crash, mloop_crash.
Qed.
Lemma malloc_size_wraps_witness :
  let s := malloc_post 1 0 (uheap_init UHP_PLACE_FIRSTFIT) in
  malloc 0xFFFFF001 s = Crash (Undefined "j") (set_generalAddress USER_HEAP_START s).
Proof.
  intros s. apply (malloc_size_wraps s 0xFFFFF001); [reflexivity|discriminate|right; lia].
Defined.

(** [free(NULL)] is not a no-op: an unused entry of the block table has address 0, so the
    loop matches it and writes outside [UHeap_Tracker], at index
    (0 - USER_HEAP_START) / PAGE_SIZE = 524288. *)
Theorem free_null_overruns (s : UState) (p : Z) :
  UInv s → 0 ≤ p < UHEAP_PAGES → UHeap_Tracker s !!! p = 0 →
  free 0 s = Crash (Undefined "UHeap_Tracker") s.
Proof.
  intros Hinv Hp H0. destruct (first_unused (UHeap_Tracker s) p) as (q & Hq & Hq0 & Hfirst); [lia|done|].
  rewrite (free_skip s Hinv 0 q) by
    (lia || (intros i Hi; rewrite (proj2 (Z.eqb_neq _ _) (Hfirst i Hi)); unfold page, PAGE_SIZE;
             change USER_HEAP_START with 0x80000000; lia)).
  replace (Z.to_nat (UHEAP_PAGES + 1 - q)) with (Datatypes.S (Z.to_nat (UHEAP_PAGES - q))) by lia.
  assert (free_body 0 q s = Crash (Undefined "UHeap_Tracker") s) as Hb.
  { unfold free_body. destruct (Z.ltb_spec q UHEAP_PAGES); [|lia]. cbn [negb].
    rewrite bind_gets, (inv_sizes s Hinv), Hq0. reflexivity. }
  by apply mloop_crash.
Qed.
Lemma free_null_overruns_witness :
  free 0 (uheap_init UHP_PLACE_FIRSTFIT) =
    Crash (Undefined "UHeap_Tracker") (uheap_init UHP_PLACE_FIRSTFIT).
Proof. apply (free_null_overruns _ 0); [apply UInv_init|done|reflexivity]. Defined.
