(* ===== verification/KUHeap.v ===== *)
(** * The page-by-page user heap: kern/uheap.c

    The older implementation of malloc and free kept in kern/: [UHeap_Tracker] is a bitmap with
    one entry per page, and the searches advance one page at a time.  The state is the one of
    UHeap.v, with 0 or 1 in every tracker entry. *)
From S2P Require Import Prelude Machine UHeap.

(** First fit: the loop of UHeap.firstfit_body with a step of one page. *)
Definition firstfit_body (size : Z) (x : scan) : M UState (scan + (bool * option Z * Z)) :=
  let '(MkScan i j currentSize flag) := x in
  if negb (i <? USER_HEAP_MAX) then mret (inr (false, j, currentSize)) else
  t ← read_tracker (uheap_index i);
  if (t =? 0) && flag then
    mret (inl (MkScan (u32 (i + PAGE_SIZE)) j (u32 (currentSize + PAGE_SIZE)) flag))
  else if (t =? 0) && negb flag then
    mret (inl (MkScan (u32 (i + PAGE_SIZE)) (Some i) (u32 (currentSize + PAGE_SIZE)) true))
  else if size <=? currentSize then
    take_j j;; mret (inr (true, j, currentSize))
  else mret (inl (MkScan (u32 (i + PAGE_SIZE)) j 0 false)).

(** Best fit and worst fit: [better] compares the run with the best one so far. *)
Definition viable_body (better : Z → Z → bool) (size : Z) (x : scan * Z * bool)
    : M UState ((scan * Z * bool) + (bool * option Z * Z)) :=
  let '(MkScan i j currentSize flag, viable, found) := x in
  if negb (i <? USER_HEAP_MAX) then mret (inr (found, j, currentSize)) else
  t ← read_tracker (uheap_index i);
  if (t =? 0) && flag then
    mret (inl (MkScan (u32 (i + PAGE_SIZE)) j (u32 (currentSize + PAGE_SIZE)) flag, viable, found))
  else if (t =? 0) && negb flag then
    mret (inl (MkScan (u32 (i + PAGE_SIZE)) (Some i) (u32 (currentSize + PAGE_SIZE)) true,
               viable, found))
  else
    let b := (size <=? currentSize) && better currentSize viable in
    when b (take_j j);;
    mret (inl (MkScan (u32 (i + PAGE_SIZE)) j 0 false,
               (if b then currentSize else viable), found || b)).

Definition nextfit_body (size : Z) (x : Z * scan)
    : M UState ((Z * scan) + (bool * option Z * Z)) :=
  let '(k, MkScan i j currentSize flag) := x in
  if k =? 0 then mret (inr (false, j, currentSize)) else
  let k := u32 (k - 1) in
  t ← read_tracker (uheap_index i);
  let after (j : option Z) (currentSize : Z) (flag : bool) :=
    if size <=? currentSize then take_j j;; mret (inr (true, j, currentSize)) else
    let i := u32 (i + PAGE_SIZE) in
    if USER_HEAP_MAX <=? i then mret (inl (k, MkScan USER_HEAP_START j 0 false))
    else mret (inl (k, MkScan i j currentSize flag)) in
  if (t =? 0) && flag then after j (u32 (currentSize + PAGE_SIZE)) flag
  else if (t =? 0) && negb flag then after (Some i) (u32 (currentSize + PAGE_SIZE)) true
  else if size <=? currentSize then take_j j;; mret (inr (true, j, currentSize))
  else after j 0 false.

Definition firstfit_search (size : Z) : M UState bool :=
  modify (set_generalAddress USER_HEAP_START);;
  r ← mloop scan_fuel (firstfit_body size) (MkScan USER_HEAP_START None 0 false);
  after_search size r.
Definition viable_search (better : Z → Z → bool) (start size : Z) : M UState bool :=
  modify (set_generalAddress USER_HEAP_START);;
  r ← mloop scan_fuel (viable_body better size)
        (MkScan USER_HEAP_START None 0 false, start, false);
  after_search size r.
Definition nextfit_search (size : Z) : M UState bool :=
  i ← gets generalAddress;
  r ← mloop scan_fuel (nextfit_body size) (UHEAP_PAGES, MkScan i None 0 false);
  after_search size r.

Definition malloc (size : Z) : M UState Z :=
  let size := ROUNDUP size PAGE_SIZE in
  go ← (nextfit ← sys_isUHeapPlacementStrategyNEXTFIT;
        if nextfit : bool then nextfit_search size else
        firstfit ← sys_isUHeapPlacementStrategyFIRSTFIT;
        if firstfit : bool then firstfit_search size else
        bestfit ← sys_isUHeapPlacementStrategyBESTFIT;
        if bestfit : bool then
          viable_search (λ c v, c <? v) (USER_HEAP_MAX - USER_HEAP_START) size else
        worstfit ← sys_isUHeapPlacementStrategyWORSTFIT;
        if worstfit : bool then viable_search (λ c v, v <? c) 0 size else mret true);
  if negb go then mret 0 else
  ret ← gets generalAddress;
  let i := uheap_index ret in
  forM (seqZ 0 (size `div` PAGE_SIZE)) (λ j, write_tracker (i + j) 1);;
  sys_allocateMem ret size;;
  write_sizeOfVAs (uheap_index ret) (MkSizeAddr size ret);;
  when (USER_HEAP_MAX <=? u32 (ret + size)) (modify (set_generalAddress USER_HEAP_START));;
  mret ret.

Definition free_body (virtual_address : Z) (i : Z) : M UState (Z + unit) :=
  if negb (i <? UHEAP_PAGES) then mret (inr tt) else
  e ← gets (λ s, sizeOfVAs s !!! i);
  if ua_virtualAddress e =? virtual_address then
    let tmp := uheap_index (ua_virtualAddress e) in
    forM (seqZ 0 (ua_size e `div` PAGE_SIZE)) (λ j, write_tracker (tmp + j) 0);;
    sys_freeMem virtual_address (ua_size e);;
    write_sizeOfVAs i (MkSizeAddr 0 0);;
    mret (inr tt)
  else mret (inl (i + 1)).
Definition free (virtual_address : Z) : M UState unit :=
  mloop scan_fuel (free_body virtual_address) 0.

Definition realloc (virtual_address new_size : Z) : M UState Z :=
  panic "realloc() is not implemented yet...!!".

(** ** The two implementations search alike

    On a bitmap, a set entry is a block of one page for the code of UHeap.v: both first-fit loops
    do the same steps. *)
Definition bitmap (B : gmap Z Z) : Prop := ∀ p, B !!! p = 0 ∨ (B !!! p = 1 ∧ 0 ≤ p < UHEAP_PAGES).

Lemma bitmap_wf B : bitmap B → tracker_wf B.
Proof.
  intros Hb. split; intros p; destruct (Hb p) as [->|[-> ?]]; try lia.
Qed.
Lemma bitmap_used B q : bitmap B → used B q ↔ B !!! q ≠ 0.
Proof.
  intros Hb. split.
  - intros [p Hp]. destruct (Hb p) as [E|[E ?]]; rewrite E in Hp; [lia|].
    assert (q = p) as -> by lia. lia.
  - intros Hq. exists q. destruct (Hb q) as [E|[E ?]]; lia.
Qed.

Lemma firstfit_body_agrees size x s : bitmap (UHeap_Tracker s) →
  firstfit_body size x s = UHeap.firstfit_body size x s.
Proof.
  intros Hb. destruct x as [i j c flag]. unfold firstfit_body, UHeap.firstfit_body.
  destruct (negb (i <? USER_HEAP_MAX)); [done|].
  unfold read_tracker. destruct (in_array (uheap_index i)); [|done]. rewrite !bind_gets.
  destruct (Hb (uheap_index i)) as [->|[-> _]]; [by destruct flag|].
  cbn [Z.eqb andb]. rewrite Z.mul_1_r. done.
Qed.
Lemma mloop_ext {S A B} (P : S → Prop) (f g : A → M S (A + B)) :
  (∀ a s, P s → f a s = g a s) →
  (∀ a s a' s', P s → g a s = Ret (inl a') s' → P s') →
  ∀ fuel a s, P s → mloop fuel f a s = mloop fuel g a s.
Proof.
  intros Hfg HP fuel. induction fuel as [|n IH]; intros a s Hs; [done|].
  cbn. unfold mbind, M_bind. rewrite (Hfg a s Hs).
  destruct (g a s) as [[a'|b] s'| | | |] eqn:E; try done. apply IH. by eapply HP.
Qed.
Lemma firstfit_body_tracker size x s x' s' :
  UHeap.firstfit_body size x s = Ret (inl x') s' → s' = s.
Proof.
  destruct x as [i j c flag]. unfold UHeap.firstfit_body.
  destruct (negb (i <? USER_HEAP_MAX)); [by intros [=]|].
  intros (t & s1 & Hr & Hk)%bind_Ret_inv. unfold read_tracker in Hr.
  destruct (in_array _); [|done]. injection Hr as <- <-.
  destruct (_ && flag); [by injection Hk|]. destruct (_ && negb flag); [by injection Hk|].
  destruct (size <=? c); [|by injection Hk].
  apply bind_Ret_inv in Hk as (? & ? & _ & Hk). discriminate Hk.
Qed.
Lemma firstfit_search_agrees size s : bitmap (UHeap_Tracker s) →
  firstfit_search size s = UHeap.firstfit_search size s.
Proof.
  intros Hb. unfold firstfit_search, UHeap.firstfit_search. rewrite !bind_modify.
  unfold mbind, M_bind.
  rewrite (mloop_ext (λ s, bitmap (UHeap_Tracker s)) _ (UHeap.firstfit_body size)); [done| | |done].
  - intros. by apply firstfit_body_agrees.
  - intros a s0 a' s' Hs Hg. by apply firstfit_body_tracker in Hg as ->.
Qed.

(** C24: The bitmap heap of kern/uheap.c and the block heap of lib/uheap.c make the same first-fit
    decision: on trackers that mark the same pages as used, both searches succeed on the same
    sizes and choose the same address. *)
Theorem firstfit_implementations_agree (s1 s2 : UState) (n : Z) :
  bitmap (UHeap_Tracker s1) → tracker_wf (UHeap_Tracker s2) → 0 < n →
  (∀ q, used (UHeap_Tracker s1) q ↔ used (UHeap_Tracker s2) q) →
  ∃ go a, firstfit_search (PAGE_SIZE * n) s1 = Ret go (set_generalAddress (page a) s1) ∧
    UHeap.firstfit_search (PAGE_SIZE * n) s2 = Ret go (set_generalAddress (page a) s2).
Proof.
  intros Hb Hwf Hn Hu. rewrite firstfit_search_agrees by done.
  destruct (firstfit_search_spec s1 n (bitmap_wf _ Hb) Hn) as (go1 & a1 & -> & H1).
  destruct (firstfit_search_spec s2 n Hwf Hn) as (go2 & a2 & -> & H2).
  assert (∀ a, free_range (UHeap_Tracker s1) a n ↔ free_range (UHeap_Tracker s2) a n) as Hfr.
  { intros a. unfold free_range. by setoid_rewrite Hu. }
  exists go1, a1. split; [done|]. destruct go1, go2.
  - destruct H1 as [F1 L1], H2 as [F2 L2].
    assert (a1 = a2) as ->; [|done].
    destruct (Z.lt_trichotomy a1 a2) as [Hlt|[|Hlt]]; [|done|].
    + exfalso. apply (L2 a1 Hlt), Hfr, F1.
    + exfalso. apply (L1 a2 Hlt), Hfr, F2.
  - destruct H1 as [F1 _], H2 as [_ N2]. exfalso. apply (N2 a1), Hfr, F1.
  - destruct H1 as [_ N1], H2 as [F2 _]. exfalso. apply (N1 a2), Hfr, F2.
  - by destruct H1 as [-> _], H2 as [-> _].
Qed.
Lemma firstfit_implementations_agree_witness :
  let s1 := set_tracker (<[0:=1]> (<[1:=1]> ∅)) (uheap_init UHP_PLACE_FIRSTFIT) in
  let s2 := set_tracker (<[0:=2]> ∅) (uheap_init UHP_PLACE_FIRSTFIT) in
  ∃ go a, firstfit_search (PAGE_SIZE * 3) s1 = Ret go (set_generalAddress (page a) s1) ∧
    UHeap.firstfit_search (PAGE_SIZE * 3) s2 = Ret go (set_generalAddress (page a) s2).
Proof.
  intros s1 s2.
  assert (bitmap (UHeap_Tracker s1)) as Hb.
  { intros p. cbn. destruct (decide (p = 0)) as [->|]; [right; by vm_compute|].
    destruct (decide (p = 1)) as [->|]; [right; by vm_compute|].
    left. rewrite !array_get_set_ne, zero_array by done. done. }
  assert (∀ p, UHeap_Tracker s2 !!! p = if decide (p = 0) then 2 else 0) as H2.
  { intros p. cbn. case_decide as H; [by subst|]. by rewrite array_get_set_ne, zero_array. }
  apply (firstfit_implementations_agree s1 s2 3); [done| |done|].
  - split; intros *; rewrite ?H2; repeat case_decide; rewrite ?UHEAP_PAGES_val; lia.
  - intros q. rewrite bitmap_used by done. cbn. unfold used. split.
    + intros Hq. exists 0. rewrite H2, decide_True by done.
      destruct (decide (q = 0)); [lia|]. destruct (decide (q = 1)); [lia|].
      by rewrite !array_get_set_ne, zero_array in Hq.
    + intros (p & Hp). rewrite H2 in Hp. case_decide; [|lia]. subst.
      assert (q = 0 ∨ q = 1) as [->| ->] by lia; by vm_compute.
Defined.
