(* ===== verification/State.v ===== *)
(** * The state of the kernel and the machine under it

    [KState] gathers the global variables of [kern/*.c] and the hardware they drive: physical
    memory as words (index [4 * i] is the physical address), the control registers CR2 and CR3,
    the page file's disk.  Every kernel pointer is a virtual address; it is dereferenced through
    the two-level tables that CR3 designates ([load], [store]), and an access the MMU refuses is a
    [PageFault].  The MMU is the one of inc/mmu.h: present and writeable bits at both levels, with
    CR0.WP set by turn_on_paging.  The TLB is not modelled (every access walks the tables), nor
    are the accessed and dirty bits the processor sets.

    The globals are records beside the modelled memory: the words of memory where the linker and
    boot place them are not connected to the records.  A store through a bad pointer, or a change of
    the page tables that takes the kernel's own pages away, therefore changes memory and the
    translation of the model but not the records.  Theorems about runs in which that could happen
    exclude it in their statement (KernelLife.v); the others are about single operations. *)
From S2P Require Import Prelude Machine Queue.

(** [struct Frame_Info] (inc/memlayout.h); environments are designated by their index in [envs]. *)
Record Frame_Info := MkFrame {
  fi_next : option Z;
  fi_prev : option Z;
  references : Z;
  fi_va : Z;
  fi_environment : option Z;
  isBuffered : Z;
}.
Definition set_fi_next (v : option Z) (r : Frame_Info) : Frame_Info :=
  MkFrame v (fi_prev r) (references r) (fi_va r) (fi_environment r) (isBuffered r).
Definition set_fi_prev (v : option Z) (r : Frame_Info) : Frame_Info :=
  MkFrame (fi_next r) v (references r) (fi_va r) (fi_environment r) (isBuffered r).
Definition set_references (v : Z) (r : Frame_Info) : Frame_Info :=
  MkFrame (fi_next r) (fi_prev r) v (fi_va r) (fi_environment r) (isBuffered r).
Definition set_fi_va (v : Z) (r : Frame_Info) : Frame_Info :=
  MkFrame (fi_next r) (fi_prev r) (references r) v (fi_environment r) (isBuffered r).
Definition set_fi_environment (v : option Z) (r : Frame_Info) : Frame_Info :=
  MkFrame (fi_next r) (fi_prev r) (references r) (fi_va r) v (isBuffered r).
Definition set_isBuffered (v : Z) (r : Frame_Info) : Frame_Info :=
  MkFrame (fi_next r) (fi_prev r) (references r) (fi_va r) (fi_environment r) v.
#[export] Instance Frame_Info_inhabited : Inhabited Frame_Info :=
  populate (MkFrame None None 0 0 None 0).
#[export] Instance Frame_Info_node : LinkedNode Frame_Info.
Proof.
  refine {| le_next := fi_next; le_prev := fi_prev;
            set_le_next := set_fi_next; set_le_prev := set_fi_prev |}; by intros [].
Defined.

(** [struct WorkingSetElement] (inc/environment_definitions.h). *)
Record WorkingSetElement := MkWSE {
  ws_virtual_address : Z;
  ws_empty : Z;
  ws_time_stamp : Z;
}.
Definition set_ws_virtual_address (v : Z) (r : WorkingSetElement) : WorkingSetElement :=
  MkWSE v (ws_empty r) (ws_time_stamp r).
Definition set_ws_empty (v : Z) (r : WorkingSetElement) : WorkingSetElement :=
  MkWSE (ws_virtual_address r) v (ws_time_stamp r).
Definition set_ws_time_stamp (v : Z) (r : WorkingSetElement) : WorkingSetElement :=
  MkWSE (ws_virtual_address r) (ws_empty r) v.
#[export] Instance WorkingSetElement_inhabited : Inhabited WorkingSetElement :=
  populate (MkWSE 0 0 0).

(** [struct Trapframe] and its [struct PushRegs] (inc/trap.h), without the padding. *)
Record Trapframe := MkTrapframe {
  tf_edi : Z;
  tf_esi : Z;
  tf_ebp : Z;
  tf_oesp : Z;
  tf_ebx : Z;
  tf_edx : Z;
  tf_ecx : Z;
  tf_eax : Z;
  tf_es : Z;
  tf_ds : Z;
  tf_trapno : Z;
  tf_err : Z;
  tf_eip : Z;
  tf_cs : Z;
  tf_eflags : Z;
  tf_esp : Z;
  tf_ss : Z;
}.
Definition set_tf_edi (v : Z) (r : Trapframe) : Trapframe :=
  MkTrapframe v (tf_esi r) (tf_ebp r) (tf_oesp r) (tf_ebx r) (tf_edx r) (tf_ecx r) (tf_eax r) (tf_es r) (tf_ds r) (tf_trapno r) (tf_err r) (tf_eip r) (tf_cs r) (tf_eflags r) (tf_esp r) (tf_ss r).
Definition set_tf_esi (v : Z) (r : Trapframe) : Trapframe :=
  MkTrapframe (tf_edi r) v (tf_ebp r) (tf_oesp r) (tf_ebx r) (tf_edx r) (tf_ecx r) (tf_eax r) (tf_es r) (tf_ds r) (tf_trapno r) (tf_err r) (tf_eip r) (tf_cs r) (tf_eflags r) (tf_esp r) (tf_ss r).
Definition set_tf_ebp (v : Z) (r : Trapframe) : Trapframe :=
  MkTrapframe (tf_edi r) (tf_esi r) v (tf_oesp r) (tf_ebx r) (tf_edx r) (tf_ecx r) (tf_eax r) (tf_es r) (tf_ds r) (tf_trapno r) (tf_err r) (tf_eip r) (tf_cs r) (tf_eflags r) (tf_esp r) (tf_ss r).
Definition set_tf_oesp (v : Z) (r : Trapframe) : Trapframe :=
  MkTrapframe (tf_edi r) (tf_esi r) (tf_ebp r) v (tf_ebx r) (tf_edx r) (tf_ecx r) (tf_eax r) (tf_es r) (tf_ds r) (tf_trapno r) (tf_err r) (tf_eip r) (tf_cs r) (tf_eflags r) (tf_esp r) (tf_ss r).
Definition set_tf_ebx (v : Z) (r : Trapframe) : Trapframe :=
  MkTrapframe (tf_edi r) (tf_esi r) (tf_ebp r) (tf_oesp r) v (tf_edx r) (tf_ecx r) (tf_eax r) (tf_es r) (tf_ds r) (tf_trapno r) (tf_err r) (tf_eip r) (tf_cs r) (tf_eflags r) (tf_esp r) (tf_ss r).
Definition set_tf_edx (v : Z) (r : Trapframe) : Trapframe :=
  MkTrapframe (tf_edi r) (tf_esi r) (tf_ebp r) (tf_oesp r) (tf_ebx r) v (tf_ecx r) (tf_eax r) (tf_es r) (tf_ds r) (tf_trapno r) (tf_err r) (tf_eip r) (tf_cs r) (tf_eflags r) (tf_esp r) (tf_ss r).
Definition set_tf_ecx (v : Z) (r : Trapframe) : Trapframe :=
  MkTrapframe (tf_edi r) (tf_esi r) (tf_ebp r) (tf_oesp r) (tf_ebx r) (tf_edx r) v (tf_eax r) (tf_es r) (tf_ds r) (tf_trapno r) (tf_err r) (tf_eip r) (tf_cs r) (tf_eflags r) (tf_esp r) (tf_ss r).
Definition set_tf_eax (v : Z) (r : Trapframe) : Trapframe :=
  MkTrapframe (tf_edi r) (tf_esi r) (tf_ebp r) (tf_oesp r) (tf_ebx r) (tf_edx r) (tf_ecx r) v (tf_es r) (tf_ds r) (tf_trapno r) (tf_err r) (tf_eip r) (tf_cs r) (tf_eflags r) (tf_esp r) (tf_ss r).
Definition set_tf_es (v : Z) (r : Trapframe) : Trapframe :=
  MkTrapframe (tf_edi r) (tf_esi r) (tf_ebp r) (tf_oesp r) (tf_ebx r) (tf_edx r) (tf_ecx r) (tf_eax r) v (tf_ds r) (tf_trapno r) (tf_err r) (tf_eip r) (tf_cs r) (tf_eflags r) (tf_esp r) (tf_ss r).
Definition set_tf_ds (v : Z) (r : Trapframe) : Trapframe :=
  MkTrapframe (tf_edi r) (tf_esi r) (tf_ebp r) (tf_oesp r) (tf_ebx r) (tf_edx r) (tf_ecx r) (tf_eax r) (tf_es r) v (tf_trapno r) (tf_err r) (tf_eip r) (tf_cs r) (tf_eflags r) (tf_esp r) (tf_ss r).
Definition set_tf_trapno (v : Z) (r : Trapframe) : Trapframe :=
  MkTrapframe (tf_edi r) (tf_esi r) (tf_ebp r) (tf_oesp r) (tf_ebx r) (tf_edx r) (tf_ecx r) (tf_eax r) (tf_es r) (tf_ds r) v (tf_err r) (tf_eip r) (tf_cs r) (tf_eflags r) (tf_esp r) (tf_ss r).
Definition set_tf_err (v : Z) (r : Trapframe) : Trapframe :=
  MkTrapframe (tf_edi r) (tf_esi r) (tf_ebp r) (tf_oesp r) (tf_ebx r) (tf_edx r) (tf_ecx r) (tf_eax r) (tf_es r) (tf_ds r) (tf_trapno r) v (tf_eip r) (tf_cs r) (tf_eflags r) (tf_esp r) (tf_ss r).
Definition set_tf_eip (v : Z) (r : Trapframe) : Trapframe :=
  MkTrapframe (tf_edi r) (tf_esi r) (tf_ebp r) (tf_oesp r) (tf_ebx r) (tf_edx r) (tf_ecx r) (tf_eax r) (tf_es r) (tf_ds r) (tf_trapno r) (tf_err r) v (tf_cs r) (tf_eflags r) (tf_esp r) (tf_ss r).
Definition set_tf_cs (v : Z) (r : Trapframe) : Trapframe :=
  MkTrapframe (tf_edi r) (tf_esi r) (tf_ebp r) (tf_oesp r) (tf_ebx r) (tf_edx r) (tf_ecx r) (tf_eax r) (tf_es r) (tf_ds r) (tf_trapno r) (tf_err r) (tf_eip r) v (tf_eflags r) (tf_esp r) (tf_ss r).
Definition set_tf_eflags (v : Z) (r : Trapframe) : Trapframe :=
  MkTrapframe (tf_edi r) (tf_esi r) (tf_ebp r) (tf_oesp r) (tf_ebx r) (tf_edx r) (tf_ecx r) (tf_eax r) (tf_es r) (tf_ds r) (tf_trapno r) (tf_err r) (tf_eip r) (tf_cs r) v (tf_esp r) (tf_ss r).
Definition set_tf_esp (v : Z) (r : Trapframe) : Trapframe :=
  MkTrapframe (tf_edi r) (tf_esi r) (tf_ebp r) (tf_oesp r) (tf_ebx r) (tf_edx r) (tf_ecx r) (tf_eax r) (tf_es r) (tf_ds r) (tf_trapno r) (tf_err r) (tf_eip r) (tf_cs r) (tf_eflags r) v (tf_ss r).
Definition set_tf_ss (v : Z) (r : Trapframe) : Trapframe :=
  MkTrapframe (tf_edi r) (tf_esi r) (tf_ebp r) (tf_oesp r) (tf_ebx r) (tf_edx r) (tf_ecx r) (tf_eax r) (tf_es r) (tf_ds r) (tf_trapno r) (tf_err r) (tf_eip r) (tf_cs r) (tf_eflags r) (tf_esp r) v.
#[export] Instance Trapframe_inhabited : Inhabited Trapframe :=
  populate (MkTrapframe 0 0 0 0 0 0 0 0 0 0 0 0 0 0 0 0 0).

(** [struct Env] (inc/environment_definitions.h).  [pageWS] is the array that [ptr_pageWorkingSet]
    points to; [__uptr_pws] is a second, user-visible mapping of the same array. *)
Record Env := MkEnv {
  env_tf : Trapframe;
  env_next : option Z;
  env_prev : option Z;
  env_id : Z;
  env_parent_id : Z;
  env_status : Z;
  env_runs : Z;
  env_page_directory : Z;
  env_cr3 : Z;
  disk_env_pgdir : Z;
  disk_env_pgdir_PA : Z;
  disk_env_tabledir : Z;
  disk_env_tabledir_PA : Z;
  page_WS_max_size : Z;
  ptr_pageWorkingSet : Z;
  pageWS : gmap Z WorkingSetElement;
  tws : gmap Z WorkingSetElement;
  page_last_WS_index : Z;
  table_last_WS_index : Z;
  pageFaultsCounter : Z;
  tableFaultsCounter : Z;
  nModifiedPages : Z;
  nNotModifiedPages : Z;
  prog_name : string;
  shared_free_address : Z;
  uptr_pws : Z;
}.
Definition set_env_tf (v : Trapframe) (r : Env) : Env :=
  MkEnv v (env_next r) (env_prev r) (env_id r) (env_parent_id r) (env_status r) (env_runs r) (env_page_directory r) (env_cr3 r) (disk_env_pgdir r) (disk_env_pgdir_PA r) (disk_env_tabledir r) (disk_env_tabledir_PA r) (page_WS_max_size r) (ptr_pageWorkingSet r) (pageWS r) (tws r) (page_last_WS_index r) (table_last_WS_index r) (pageFaultsCounter r) (tableFaultsCounter r) (nModifiedPages r) (nNotModifiedPages r) (prog_name r) (shared_free_address r) (uptr_pws r).
Definition set_env_next (v : option Z) (r : Env) : Env :=
  MkEnv (env_tf r) v (env_prev r) (env_id r) (env_parent_id r) (env_status r) (env_runs r) (env_page_directory r) (env_cr3 r) (disk_env_pgdir r) (disk_env_pgdir_PA r) (disk_env_tabledir r) (disk_env_tabledir_PA r) (page_WS_max_size r) (ptr_pageWorkingSet r) (pageWS r) (tws r) (page_last_WS_index r) (table_last_WS_index r) (pageFaultsCounter r) (tableFaultsCounter r) (nModifiedPages r) (nNotModifiedPages r) (prog_name r) (shared_free_address r) (uptr_pws r).
Definition set_env_prev (v : option Z) (r : Env) : Env :=
  MkEnv (env_tf r) (env_next r) v (env_id r) (env_parent_id r) (env_status r) (env_runs r) (env_page_directory r) (env_cr3 r) (disk_env_pgdir r) (disk_env_pgdir_PA r) (disk_env_tabledir r) (disk_env_tabledir_PA r) (page_WS_max_size r) (ptr_pageWorkingSet r) (pageWS r) (tws r) (page_last_WS_index r) (table_last_WS_index r) (pageFaultsCounter r) (tableFaultsCounter r) (nModifiedPages r) (nNotModifiedPages r) (prog_name r) (shared_free_address r) (uptr_pws r).
Definition set_env_id (v : Z) (r : Env) : Env :=
  MkEnv (env_tf r) (env_next r) (env_prev r) v (env_parent_id r) (env_status r) (env_runs r) (env_page_directory r) (env_cr3 r) (disk_env_pgdir r) (disk_env_pgdir_PA r) (disk_env_tabledir r) (disk_env_tabledir_PA r) (page_WS_max_size r) (ptr_pageWorkingSet r) (pageWS r) (tws r) (page_last_WS_index r) (table_last_WS_index r) (pageFaultsCounter r) (tableFaultsCounter r) (nModifiedPages r) (nNotModifiedPages r) (prog_name r) (shared_free_address r) (uptr_pws r).
Definition set_env_parent_id (v : Z) (r : Env) : Env :=
  MkEnv (env_tf r) (env_next r) (env_prev r) (env_id r) v (env_status r) (env_runs r) (env_page_directory r) (env_cr3 r) (disk_env_pgdir r) (disk_env_pgdir_PA r) (disk_env_tabledir r) (disk_env_tabledir_PA r) (page_WS_max_size r) (ptr_pageWorkingSet r) (pageWS r) (tws r) (page_last_WS_index r) (table_last_WS_index r) (pageFaultsCounter r) (tableFaultsCounter r) (nModifiedPages r) (nNotModifiedPages r) (prog_name r) (shared_free_address r) (uptr_pws r).
Definition set_env_status (v : Z) (r : Env) : Env :=
  MkEnv (env_tf r) (env_next r) (env_prev r) (env_id r) (env_parent_id r) v (env_runs r) (env_page_directory r) (env_cr3 r) (disk_env_pgdir r) (disk_env_pgdir_PA r) (disk_env_tabledir r) (disk_env_tabledir_PA r) (page_WS_max_size r) (ptr_pageWorkingSet r) (pageWS r) (tws r) (page_last_WS_index r) (table_last_WS_index r) (pageFaultsCounter r) (tableFaultsCounter r) (nModifiedPages r) (nNotModifiedPages r) (prog_name r) (shared_free_address r) (uptr_pws r).
Definition set_env_runs (v : Z) (r : Env) : Env :=
  MkEnv (env_tf r) (env_next r) (env_prev r) (env_id r) (env_parent_id r) (env_status r) v (env_page_directory r) (env_cr3 r) (disk_env_pgdir r) (disk_env_pgdir_PA r) (disk_env_tabledir r) (disk_env_tabledir_PA r) (page_WS_max_size r) (ptr_pageWorkingSet r) (pageWS r) (tws r) (page_last_WS_index r) (table_last_WS_index r) (pageFaultsCounter r) (tableFaultsCounter r) (nModifiedPages r) (nNotModifiedPages r) (prog_name r) (shared_free_address r) (uptr_pws r).
Definition set_env_page_directory (v : Z) (r : Env) : Env :=
  MkEnv (env_tf r) (env_next r) (env_prev r) (env_id r) (env_parent_id r) (env_status r) (env_runs r) v (env_cr3 r) (disk_env_pgdir r) (disk_env_pgdir_PA r) (disk_env_tabledir r) (disk_env_tabledir_PA r) (page_WS_max_size r) (ptr_pageWorkingSet r) (pageWS r) (tws r) (page_last_WS_index r) (table_last_WS_index r) (pageFaultsCounter r) (tableFaultsCounter r) (nModifiedPages r) (nNotModifiedPages r) (prog_name r) (shared_free_address r) (uptr_pws r).
Definition set_env_cr3 (v : Z) (r : Env) : Env :=
  MkEnv (env_tf r) (env_next r) (env_prev r) (env_id r) (env_parent_id r) (env_status r) (env_runs r) (env_page_directory r) v (disk_env_pgdir r) (disk_env_pgdir_PA r) (disk_env_tabledir r) (disk_env_tabledir_PA r) (page_WS_max_size r) (ptr_pageWorkingSet r) (pageWS r) (tws r) (page_last_WS_index r) (table_last_WS_index r) (pageFaultsCounter r) (tableFaultsCounter r) (nModifiedPages r) (nNotModifiedPages r) (prog_name r) (shared_free_address r) (uptr_pws r).
Definition set_disk_env_pgdir (v : Z) (r : Env) : Env :=
  MkEnv (env_tf r) (env_next r) (env_prev r) (env_id r) (env_parent_id r) (env_status r) (env_runs r) (env_page_directory r) (env_cr3 r) v (disk_env_pgdir_PA r) (disk_env_tabledir r) (disk_env_tabledir_PA r) (page_WS_max_size r) (ptr_pageWorkingSet r) (pageWS r) (tws r) (page_last_WS_index r) (table_last_WS_index r) (pageFaultsCounter r) (tableFaultsCounter r) (nModifiedPages r) (nNotModifiedPages r) (prog_name r) (shared_free_address r) (uptr_pws r).
Definition set_disk_env_pgdir_PA (v : Z) (r : Env) : Env :=
  MkEnv (env_tf r) (env_next r) (env_prev r) (env_id r) (env_parent_id r) (env_status r) (env_runs r) (env_page_directory r) (env_cr3 r) (disk_env_pgdir r) v (disk_env_tabledir r) (disk_env_tabledir_PA r) (page_WS_max_size r) (ptr_pageWorkingSet r) (pageWS r) (tws r) (page_last_WS_index r) (table_last_WS_index r) (pageFaultsCounter r) (tableFaultsCounter r) (nModifiedPages r) (nNotModifiedPages r) (prog_name r) (shared_free_address r) (uptr_pws r).
Definition set_disk_env_tabledir (v : Z) (r : Env) : Env :=
  MkEnv (env_tf r) (env_next r) (env_prev r) (env_id r) (env_parent_id r) (env_status r) (env_runs r) (env_page_directory r) (env_cr3 r) (disk_env_pgdir r) (disk_env_pgdir_PA r) v (disk_env_tabledir_PA r) (page_WS_max_size r) (ptr_pageWorkingSet r) (pageWS r) (tws r) (page_last_WS_index r) (table_last_WS_index r) (pageFaultsCounter r) (tableFaultsCounter r) (nModifiedPages r) (nNotModifiedPages r) (prog_name r) (shared_free_address r) (uptr_pws r).
Definition set_disk_env_tabledir_PA (v : Z) (r : Env) : Env :=
  MkEnv (env_tf r) (env_next r) (env_prev r) (env_id r) (env_parent_id r) (env_status r) (env_runs r) (env_page_directory r) (env_cr3 r) (disk_env_pgdir r) (disk_env_pgdir_PA r) (disk_env_tabledir r) v (page_WS_max_size r) (ptr_pageWorkingSet r) (pageWS r) (tws r) (page_last_WS_index r) (table_last_WS_index r) (pageFaultsCounter r) (tableFaultsCounter r) (nModifiedPages r) (nNotModifiedPages r) (prog_name r) (shared_free_address r) (uptr_pws r).
Definition set_page_WS_max_size (v : Z) (r : Env) : Env :=
  MkEnv (env_tf r) (env_next r) (env_prev r) (env_id r) (env_parent_id r) (env_status r) (env_runs r) (env_page_directory r) (env_cr3 r) (disk_env_pgdir r) (disk_env_pgdir_PA r) (disk_env_tabledir r) (disk_env_tabledir_PA r) v (ptr_pageWorkingSet r) (pageWS r) (tws r) (page_last_WS_index r) (table_last_WS_index r) (pageFaultsCounter r) (tableFaultsCounter r) (nModifiedPages r) (nNotModifiedPages r) (prog_name r) (shared_free_address r) (uptr_pws r).
Definition set_ptr_pageWorkingSet (v : Z) (r : Env) : Env :=
  MkEnv (env_tf r) (env_next r) (env_prev r) (env_id r) (env_parent_id r) (env_status r) (env_runs r) (env_page_directory r) (env_cr3 r) (disk_env_pgdir r) (disk_env_pgdir_PA r) (disk_env_tabledir r) (disk_env_tabledir_PA r) (page_WS_max_size r) v (pageWS r) (tws r) (page_last_WS_index r) (table_last_WS_index r) (pageFaultsCounter r) (tableFaultsCounter r) (nModifiedPages r) (nNotModifiedPages r) (prog_name r) (shared_free_address r) (uptr_pws r).
Definition set_pageWS (v : gmap Z WorkingSetElement) (r : Env) : Env :=
  MkEnv (env_tf r) (env_next r) (env_prev r) (env_id r) (env_parent_id r) (env_status r) (env_runs r) (env_page_directory r) (env_cr3 r) (disk_env_pgdir r) (disk_env_pgdir_PA r) (disk_env_tabledir r) (disk_env_tabledir_PA r) (page_WS_max_size r) (ptr_pageWorkingSet r) v (tws r) (page_last_WS_index r) (table_last_WS_index r) (pageFaultsCounter r) (tableFaultsCounter r) (nModifiedPages r) (nNotModifiedPages r) (prog_name r) (shared_free_address r) (uptr_pws r).
Definition set_tws (v : gmap Z WorkingSetElement) (r : Env) : Env :=
  MkEnv (env_tf r) (env_next r) (env_prev r) (env_id r) (env_parent_id r) (env_status r) (env_runs r) (env_page_directory r) (env_cr3 r) (disk_env_pgdir r) (disk_env_pgdir_PA r) (disk_env_tabledir r) (disk_env_tabledir_PA r) (page_WS_max_size r) (ptr_pageWorkingSet r) (pageWS r) v (page_last_WS_index r) (table_last_WS_index r) (pageFaultsCounter r) (tableFaultsCounter r) (nModifiedPages r) (nNotModifiedPages r) (prog_name r) (shared_free_address r) (uptr_pws r).
Definition set_page_last_WS_index (v : Z) (r : Env) : Env :=
  MkEnv (env_tf r) (env_next r) (env_prev r) (env_id r) (env_parent_id r) (env_status r) (env_runs r) (env_page_directory r) (env_cr3 r) (disk_env_pgdir r) (disk_env_pgdir_PA r) (disk_env_tabledir r) (disk_env_tabledir_PA r) (page_WS_max_size r) (ptr_pageWorkingSet r) (pageWS r) (tws r) v (table_last_WS_index r) (pageFaultsCounter r) (tableFaultsCounter r) (nModifiedPages r) (nNotModifiedPages r) (prog_name r) (shared_free_address r) (uptr_pws r).
Definition set_table_last_WS_index (v : Z) (r : Env) : Env :=
  MkEnv (env_tf r) (env_next r) (env_prev r) (env_id r) (env_parent_id r) (env_status r) (env_runs r) (env_page_directory r) (env_cr3 r) (disk_env_pgdir r) (disk_env_pgdir_PA r) (disk_env_tabledir r) (disk_env_tabledir_PA r) (page_WS_max_size r) (ptr_pageWorkingSet r) (pageWS r) (tws r) (page_last_WS_index r) v (pageFaultsCounter r) (tableFaultsCounter r) (nModifiedPages r) (nNotModifiedPages r) (prog_name r) (shared_free_address r) (uptr_pws r).
Definition set_pageFaultsCounter (v : Z) (r : Env) : Env :=
  MkEnv (env_tf r) (env_next r) (env_prev r) (env_id r) (env_parent_id r) (env_status r) (env_runs r) (env_page_directory r) (env_cr3 r) (disk_env_pgdir r) (disk_env_pgdir_PA r) (disk_env_tabledir r) (disk_env_tabledir_PA r) (page_WS_max_size r) (ptr_pageWorkingSet r) (pageWS r) (tws r) (page_last_WS_index r) (table_last_WS_index r) v (tableFaultsCounter r) (nModifiedPages r) (nNotModifiedPages r) (prog_name r) (shared_free_address r) (uptr_pws r).
Definition set_tableFaultsCounter (v : Z) (r : Env) : Env :=
  MkEnv (env_tf r) (env_next r) (env_prev r) (env_id r) (env_parent_id r) (env_status r) (env_runs r) (env_page_directory r) (env_cr3 r) (disk_env_pgdir r) (disk_env_pgdir_PA r) (disk_env_tabledir r) (disk_env_tabledir_PA r) (page_WS_max_size r) (ptr_pageWorkingSet r) (pageWS r) (tws r) (page_last_WS_index r) (table_last_WS_index r) (pageFaultsCounter r) v (nModifiedPages r) (nNotModifiedPages r) (prog_name r) (shared_free_address r) (uptr_pws r).
Definition set_nModifiedPages (v : Z) (r : Env) : Env :=
  MkEnv (env_tf r) (env_next r) (env_prev r) (env_id r) (env_parent_id r) (env_status r) (env_runs r) (env_page_directory r) (env_cr3 r) (disk_env_pgdir r) (disk_env_pgdir_PA r) (disk_env_tabledir r) (disk_env_tabledir_PA r) (page_WS_max_size r) (ptr_pageWorkingSet r) (pageWS r) (tws r) (page_last_WS_index r) (table_last_WS_index r) (pageFaultsCounter r) (tableFaultsCounter r) v (nNotModifiedPages r) (prog_name r) (shared_free_address r) (uptr_pws r).
Definition set_nNotModifiedPages (v : Z) (r : Env) : Env :=
  MkEnv (env_tf r) (env_next r) (env_prev r) (env_id r) (env_parent_id r) (env_status r) (env_runs r) (env_page_directory r) (env_cr3 r) (disk_env_pgdir r) (disk_env_pgdir_PA r) (disk_env_tabledir r) (disk_env_tabledir_PA r) (page_WS_max_size r) (ptr_pageWorkingSet r) (pageWS r) (tws r) (page_last_WS_index r) (table_last_WS_index r) (pageFaultsCounter r) (tableFaultsCounter r) (nModifiedPages r) v (prog_name r) (shared_free_address r) (uptr_pws r).
Definition set_prog_name (v : string) (r : Env) : Env :=
  MkEnv (env_tf r) (env_next r) (env_prev r) (env_id r) (env_parent_id r) (env_status r) (env_runs r) (env_page_directory r) (env_cr3 r) (disk_env_pgdir r) (disk_env_pgdir_PA r) (disk_env_tabledir r) (disk_env_tabledir_PA r) (page_WS_max_size r) (ptr_pageWorkingSet r) (pageWS r) (tws r) (page_last_WS_index r) (table_last_WS_index r) (pageFaultsCounter r) (tableFaultsCounter r) (nModifiedPages r) (nNotModifiedPages r) v (shared_free_address r) (uptr_pws r).
Definition set_shared_free_address (v : Z) (r : Env) : Env :=
  MkEnv (env_tf r) (env_next r) (env_prev r) (env_id r) (env_parent_id r) (env_status r) (env_runs r) (env_page_directory r) (env_cr3 r) (disk_env_pgdir r) (disk_env_pgdir_PA r) (disk_env_tabledir r) (disk_env_tabledir_PA r) (page_WS_max_size r) (ptr_pageWorkingSet r) (pageWS r) (tws r) (page_last_WS_index r) (table_last_WS_index r) (pageFaultsCounter r) (tableFaultsCounter r) (nModifiedPages r) (nNotModifiedPages r) (prog_name r) v (uptr_pws r).
Definition set_uptr_pws (v : Z) (r : Env) : Env :=
  MkEnv (env_tf r) (env_next r) (env_prev r) (env_id r) (env_parent_id r) (env_status r) (env_runs r) (env_page_directory r) (env_cr3 r) (disk_env_pgdir r) (disk_env_pgdir_PA r) (disk_env_tabledir r) (disk_env_tabledir_PA r) (page_WS_max_size r) (ptr_pageWorkingSet r) (pageWS r) (tws r) (page_last_WS_index r) (table_last_WS_index r) (pageFaultsCounter r) (tableFaultsCounter r) (nModifiedPages r) (nNotModifiedPages r) (prog_name r) (shared_free_address r) v.
#[export] Instance Env_inhabited : Inhabited Env :=
  populate (MkEnv inhabitant None None 0 0 0 0 0 0 0 0 0 0 0 0 ∅ ∅ 0 0 0 0 0 0 EmptyString 0 0).
#[export] Instance Env_node : LinkedNode Env.
Proof.
  refine {| le_next := env_next; le_prev := env_prev;
            set_le_next := set_env_next; set_le_prev := set_env_prev |}; by intros [].
Defined.

(** [struct Size_Address_KHeap] (kern/kheap.c). *)
Record Size_Address_KHeap := MkSAK {
  sak_size : Z;
  sak_virtualAddress : Z;
  sak_empty : Z;
}.
Definition set_sak_size (v : Z) (r : Size_Address_KHeap) : Size_Address_KHeap :=
  MkSAK v (sak_virtualAddress r) (sak_empty r).
Definition set_sak_virtualAddress (v : Z) (r : Size_Address_KHeap) : Size_Address_KHeap :=
  MkSAK (sak_size r) v (sak_empty r).
Definition set_sak_empty (v : Z) (r : Size_Address_KHeap) : Size_Address_KHeap :=
  MkSAK (sak_size r) (sak_virtualAddress r) v.
#[export] Instance Size_Address_KHeap_inhabited : Inhabited Size_Address_KHeap :=
  populate (MkSAK 0 0 0).

(** ** Groups of globals *)
(** Physical memory by words, control registers, disk by words, the sectors the drive cannot serve. *)
Record Hardware := MkHw {
  mem : gmap Z Z;
  cr2 : Z;
  cr3 : Z;
  disk : gmap Z Z;
  bad_sectors : gset Z;
}.
Definition set_mem (v : gmap Z Z) (r : Hardware) : Hardware :=
  MkHw v (cr2 r) (cr3 r) (disk r) (bad_sectors r).
Definition set_cr2 (v : Z) (r : Hardware) : Hardware :=
  MkHw (mem r) v (cr3 r) (disk r) (bad_sectors r).
Definition set_cr3 (v : Z) (r : Hardware) : Hardware :=
  MkHw (mem r) (cr2 r) v (disk r) (bad_sectors r).
Definition set_disk (v : gmap Z Z) (r : Hardware) : Hardware :=
  MkHw (mem r) (cr2 r) (cr3 r) v (bad_sectors r).
Definition set_bad_sectors (v : gset Z) (r : Hardware) : Hardware :=
  MkHw (mem r) (cr2 r) (cr3 r) (disk r) v.
#[export] Instance Hardware_inhabited : Inhabited Hardware :=
  populate (MkHw ∅ 0 0 ∅ ∅).

(** kern/memory_manager.c: the physical frames. *)
Record Frames := MkFrames {
  number_of_frames : Z;
  frames_info : gmap Z Frame_Info;
  free_frame_list : ListHead;
  modified_frame_list : ListHead;
}.
Definition set_number_of_frames (v : Z) (r : Frames) : Frames :=
  MkFrames v (frames_info r) (free_frame_list r) (modified_frame_list r).
Definition set_frames_info (v : gmap Z Frame_Info) (r : Frames) : Frames :=
  MkFrames (number_of_frames r) v (free_frame_list r) (modified_frame_list r).
Definition set_free_frame_list (v : ListHead) (r : Frames) : Frames :=
  MkFrames (number_of_frames r) (frames_info r) v (modified_frame_list r).
Definition set_modified_frame_list (v : ListHead) (r : Frames) : Frames :=
  MkFrames (number_of_frames r) (frames_info r) (free_frame_list r) v.
#[export] Instance Frames_inhabited : Inhabited Frames :=
  populate (MkFrames 0 ∅ (MkListHead None None 0) (MkListHead None None 0)).

(** kern/kheap.c. *)
Record KHeap := MkKHeap {
  virtualAddresses : gmap Z Z;
  allocatedHAddresses : gmap Z Size_Address_KHeap;
  idx : Z;
  firstFreeVAInKHeap : Z;
}.
Definition set_virtualAddresses (v : gmap Z Z) (r : KHeap) : KHeap :=
  MkKHeap v (allocatedHAddresses r) (idx r) (firstFreeVAInKHeap r).
Definition set_allocatedHAddresses (v : gmap Z Size_Address_KHeap) (r : KHeap) : KHeap :=
  MkKHeap (virtualAddresses r) v (idx r) (firstFreeVAInKHeap r).
Definition set_idx (v : Z) (r : KHeap) : KHeap :=
  MkKHeap (virtualAddresses r) (allocatedHAddresses r) v (firstFreeVAInKHeap r).
Definition set_firstFreeVAInKHeap (v : Z) (r : KHeap) : KHeap :=
  MkKHeap (virtualAddresses r) (allocatedHAddresses r) (idx r) v.
#[export] Instance KHeap_inhabited : Inhabited KHeap :=
  populate (MkKHeap ∅ ∅ 0 0).

(** kern/file_manager.c. *)
Record PageFile := MkPageFile {
  disk_frames_info : gmap Z Frame_Info;
  disk_free_frame_list : ListHead;
}.
Definition set_disk_frames_info (v : gmap Z Frame_Info) (r : PageFile) : PageFile :=
  MkPageFile v (disk_free_frame_list r).
Definition set_disk_free_frame_list (v : ListHead) (r : PageFile) : PageFile :=
  MkPageFile (disk_frames_info r) v.
#[export] Instance PageFile_inhabited : Inhabited PageFile :=
  populate (MkPageFile ∅ (MkListHead None None 0)).

(** kern/user_environment.c. *)
Record Environments := MkEnvs {
  envs : gmap Z Env;
  curenv : option Z;
  env_free_list : ListHead;
}.
Definition set_envs (v : gmap Z Env) (r : Environments) : Environments :=
  MkEnvs v (curenv r) (env_free_list r).
Definition set_curenv (v : option Z) (r : Environments) : Environments :=
  MkEnvs (envs r) v (env_free_list r).
Definition set_env_free_list (v : ListHead) (r : Environments) : Environments :=
  MkEnvs (envs r) (curenv r) v.
#[export] Instance Environments_inhabited : Inhabited Environments :=
  populate (MkEnvs ∅ None (MkListHead None None 0)).

(** kern/sched.c. *)
Record Sched := MkSched {
  env_ready_queue : ListHead;
  env_new_queue : ListHead;
  env_exit_queue : ListHead;
  sched_next : option Z;
  scheduler_status : Z;
}.
Definition set_env_ready_queue (v : ListHead) (r : Sched) : Sched :=
  MkSched v (env_new_queue r) (env_exit_queue r) (sched_next r) (scheduler_status r).
Definition set_env_new_queue (v : ListHead) (r : Sched) : Sched :=
  MkSched (env_ready_queue r) v (env_exit_queue r) (sched_next r) (scheduler_status r).
Definition set_env_exit_queue (v : ListHead) (r : Sched) : Sched :=
  MkSched (env_ready_queue r) (env_new_queue r) v (sched_next r) (scheduler_status r).
Definition set_sched_next (v : option Z) (r : Sched) : Sched :=
  MkSched (env_ready_queue r) (env_new_queue r) (env_exit_queue r) v (scheduler_status r).
Definition set_scheduler_status (v : Z) (r : Sched) : Sched :=
  MkSched (env_ready_queue r) (env_new_queue r) (env_exit_queue r) (sched_next r) v.
#[export] Instance Sched_inhabited : Inhabited Sched :=
  populate (MkSched (MkListHead None None 0) (MkListHead None None 0) (MkListHead None None 0) None 0).

(** Run-time switches (kern/trap.h, kern/memory_manager.h, kern/syscall.c). *)
Record Config := MkConfig {
  _PageRepAlgoType : Z;
  _EnableModifiedBuffer : Z;
  _EnableBuffering : Z;
  _ModifiedBufferLength : Z;
  _UHeapPlacementStrategy : Z;
  bypassInstrLength : Z;
  tstcnt : Z;
}.
Definition set__PageRepAlgoType (v : Z) (r : Config) : Config :=
  MkConfig v (_EnableModifiedBuffer r) (_EnableBuffering r) (_ModifiedBufferLength r) (_UHeapPlacementStrategy r) (bypassInstrLength r) (tstcnt r).
Definition set__EnableModifiedBuffer (v : Z) (r : Config) : Config :=
  MkConfig (_PageRepAlgoType r) v (_EnableBuffering r) (_ModifiedBufferLength r) (_UHeapPlacementStrategy r) (bypassInstrLength r) (tstcnt r).
Definition set__EnableBuffering (v : Z) (r : Config) : Config :=
  MkConfig (_PageRepAlgoType r) (_EnableModifiedBuffer r) v (_ModifiedBufferLength r) (_UHeapPlacementStrategy r) (bypassInstrLength r) (tstcnt r).
Definition set__ModifiedBufferLength (v : Z) (r : Config) : Config :=
  MkConfig (_PageRepAlgoType r) (_EnableModifiedBuffer r) (_EnableBuffering r) v (_UHeapPlacementStrategy r) (bypassInstrLength r) (tstcnt r).
Definition set__UHeapPlacementStrategy (v : Z) (r : Config) : Config :=
  MkConfig (_PageRepAlgoType r) (_EnableModifiedBuffer r) (_EnableBuffering r) (_ModifiedBufferLength r) v (bypassInstrLength r) (tstcnt r).
Definition set_bypassInstrLength (v : Z) (r : Config) : Config :=
  MkConfig (_PageRepAlgoType r) (_EnableModifiedBuffer r) (_EnableBuffering r) (_ModifiedBufferLength r) (_UHeapPlacementStrategy r) v (tstcnt r).
Definition set_tstcnt (v : Z) (r : Config) : Config :=
  MkConfig (_PageRepAlgoType r) (_EnableModifiedBuffer r) (_EnableBuffering r) (_ModifiedBufferLength r) (_UHeapPlacementStrategy r) (bypassInstrLength r) v.
#[export] Instance Config_inhabited : Inhabited Config :=
  populate (MkConfig 0 0 0 0 0 0 0).

(** Variables set at boot (kern/memory_manager.c); [end_of_kernel] is the linker symbol. *)
Record Boot := MkBoot {
  ptr_free_mem : Z;
  end_of_kernel : Z;
  ptr_page_directory : Z;
  phys_page_directory : Z;
  ptr_zero_page : Z;
  ptr_temp_page : Z;
}.
Definition set_ptr_free_mem (v : Z) (r : Boot) : Boot :=
  MkBoot v (end_of_kernel r) (ptr_page_directory r) (phys_page_directory r) (ptr_zero_page r) (ptr_temp_page r).
Definition set_end_of_kernel (v : Z) (r : Boot) : Boot :=
  MkBoot (ptr_free_mem r) v (ptr_page_directory r) (phys_page_directory r) (ptr_zero_page r) (ptr_temp_page r).
Definition set_ptr_page_directory (v : Z) (r : Boot) : Boot :=
  MkBoot (ptr_free_mem r) (end_of_kernel r) v (phys_page_directory r) (ptr_zero_page r) (ptr_temp_page r).
Definition set_phys_page_directory (v : Z) (r : Boot) : Boot :=
  MkBoot (ptr_free_mem r) (end_of_kernel r) (ptr_page_directory r) v (ptr_zero_page r) (ptr_temp_page r).
Definition set_ptr_zero_page (v : Z) (r : Boot) : Boot :=
  MkBoot (ptr_free_mem r) (end_of_kernel r) (ptr_page_directory r) (phys_page_directory r) v (ptr_temp_page r).
Definition set_ptr_temp_page (v : Z) (r : Boot) : Boot :=
  MkBoot (ptr_free_mem r) (end_of_kernel r) (ptr_page_directory r) (phys_page_directory r) (ptr_zero_page r) v.
#[export] Instance Boot_inhabited : Inhabited Boot :=
  populate (MkBoot 0 0 0 0 0 0).

(** [struct Semaphore] (kern/semaphore_manager.h). *)
Record Semaphore := MkSemaphore {
  env_queue : ListHead;
  sem_value : Z;
  sem_name : string;
}.
Definition set_env_queue (v : ListHead) (r : Semaphore) : Semaphore :=
  MkSemaphore v (sem_value r) (sem_name r).
Definition set_sem_value (v : Z) (r : Semaphore) : Semaphore :=
  MkSemaphore (env_queue r) v (sem_name r).
Definition set_sem_name (v : string) (r : Semaphore) : Semaphore :=
  MkSemaphore (env_queue r) (sem_value r) v.
#[export] Instance Semaphore_inhabited : Inhabited Semaphore :=
  populate (MkSemaphore (MkListHead None None 0) 0 EmptyString).

(** [struct Share] (kern/shared_memory_manager.h), without the frames of the object. *)
Record Share := MkShare {
  share_size : Z;
  share_name : string;
  share_references : Z;
  isWritable : Z;
}.
Definition set_share_size (v : Z) (r : Share) : Share :=
  MkShare v (share_name r) (share_references r) (isWritable r).
Definition set_share_name (v : string) (r : Share) : Share :=
  MkShare (share_size r) v (share_references r) (isWritable r).
Definition set_share_references (v : Z) (r : Share) : Share :=
  MkShare (share_size r) (share_name r) v (isWritable r).
Definition set_isWritable (v : Z) (r : Share) : Share :=
  MkShare (share_size r) (share_name r) (share_references r) v.
#[export] Instance Share_inhabited : Inhabited Share :=
  populate (MkShare 0 EmptyString 0 0).

(** kern/semaphore_manager.h, kern/shared_memory_manager.h. *)
Record Sharing := MkSharing {
  nSemaphores : Z;
  semaphores : gmap Z Semaphore;
  nShares : Z;
  shares : gmap Z Share;
}.
Definition set_nSemaphores (v : Z) (r : Sharing) : Sharing :=
  MkSharing v (semaphores r) (nShares r) (shares r).
Definition set_semaphores (v : gmap Z Semaphore) (r : Sharing) : Sharing :=
  MkSharing (nSemaphores r) v (nShares r) (shares r).
Definition set_nShares (v : Z) (r : Sharing) : Sharing :=
  MkSharing (nSemaphores r) (semaphores r) v (shares r).
Definition set_shares (v : gmap Z Share) (r : Sharing) : Sharing :=
  MkSharing (nSemaphores r) (semaphores r) (nShares r) v.
#[export] Instance Sharing_inhabited : Inhabited Sharing :=
  populate (MkSharing 0 ∅ 0 ∅).

Record KState := MkK {
  hw : Hardware;
  frames : Frames;
  kheap : KHeap;
  pagefile : PageFile;
  environments : Environments;
  sched : Sched;
  config : Config;
  boot : Boot;
  sharing : Sharing;
}.
Definition set_hw (v : Hardware) (r : KState) : KState :=
  MkK v (frames r) (kheap r) (pagefile r) (environments r) (sched r) (config r) (boot r) (sharing r).
Definition set_frames (v : Frames) (r : KState) : KState :=
  MkK (hw r) v (kheap r) (pagefile r) (environments r) (sched r) (config r) (boot r) (sharing r).
Definition set_kheap (v : KHeap) (r : KState) : KState :=
  MkK (hw r) (frames r) v (pagefile r) (environments r) (sched r) (config r) (boot r) (sharing r).
Definition set_pagefile (v : PageFile) (r : KState) : KState :=
  MkK (hw r) (frames r) (kheap r) v (environments r) (sched r) (config r) (boot r) (sharing r).
Definition set_environments (v : Environments) (r : KState) : KState :=
  MkK (hw r) (frames r) (kheap r) (pagefile r) v (sched r) (config r) (boot r) (sharing r).
Definition set_sched (v : Sched) (r : KState) : KState :=
  MkK (hw r) (frames r) (kheap r) (pagefile r) (environments r) v (config r) (boot r) (sharing r).
Definition set_config (v : Config) (r : KState) : KState :=
  MkK (hw r) (frames r) (kheap r) (pagefile r) (environments r) (sched r) v (boot r) (sharing r).
Definition set_boot (v : Boot) (r : KState) : KState :=
  MkK (hw r) (frames r) (kheap r) (pagefile r) (environments r) (sched r) (config r) v (sharing r).
Definition set_sharing (v : Sharing) (r : KState) : KState :=
  MkK (hw r) (frames r) (kheap r) (pagefile r) (environments r) (sched r) (config r) (boot r) v.
#[export] Instance KState_inhabited : Inhabited KState :=
  populate (MkK inhabitant inhabitant inhabitant inhabitant inhabitant inhabitant inhabitant inhabitant inhabitant).
Definition on_hw (g : Hardware → Hardware) (s : KState) : KState := set_hw (g (hw s)) s.
Definition on_frames (g : Frames → Frames) (s : KState) : KState := set_frames (g (frames s)) s.
Definition on_kheap (g : KHeap → KHeap) (s : KState) : KState := set_kheap (g (kheap s)) s.
Definition on_pagefile (g : PageFile → PageFile) (s : KState) : KState := set_pagefile (g (pagefile s)) s.
Definition on_environments (g : Environments → Environments) (s : KState) : KState := set_environments (g (environments s)) s.
Definition on_sched (g : Sched → Sched) (s : KState) : KState := set_sched (g (sched s)) s.
Definition on_config (g : Config → Config) (s : KState) : KState := set_config (g (config s)) s.
Definition on_boot (g : Boot → Boot) (s : KState) : KState := set_boot (g (boot s)) s.
Definition on_sharing (g : Sharing → Sharing) (s : KState) : KState := set_sharing (g (sharing s)) s.

Notation K := (M KState).

(** ** Hardware *)

Definition has_perm (entry perm : Z) : bool := Z.land entry perm =? perm.
(** The frame number an entry (or CR3) designates. *)
Definition frame_of (entry : Z) : Z := u32 entry `div` PAGE_SIZE.
(** Index in [mem] of word [i] of frame [f]. *)
Definition word (f i : Z) : Z := f * 1024 + i.

(** One level of the walk: the entry must be present, and writeable for a write. *)
Definition entry_allows (entry : Z) (w : bool) : bool :=
  has_perm entry PERM_PRESENT && (negb w || has_perm entry PERM_WRITEABLE).
Definition mmu (m : gmap Z Z) (root va : Z) (w : bool) : option Z :=
  let pde := m !!! word (frame_of root) (PDX va) in
  let pte := m !!! word (frame_of pde) (PTX va) in
  if entry_allows pde w && entry_allows pte w then Some (frame_of pte * PAGE_SIZE + PGOFF va)
  else None.

Definition fault {A} (va : Z) : K A := λ s, Crash (PageFault va) s.
(** [*(uint32 * )va] and its assignment. *)
Definition load (va : Z) : K Z :=
  if negb (va `mod` 4 =? 0) then undefined "unaligned" else
  h ← gets hw;
  match mmu (mem h) (cr3 h) va false with
  | Some pa => mret (mem h !!! (pa `div` 4))
  | None => fault va
  end.
Definition store (va v : Z) : K unit :=
  if negb (va `mod` 4 =? 0) then undefined "unaligned" else
  h ← gets hw;
  match mmu (mem h) (cr3 h) va true with
  | Some pa => modify (on_hw (λ h, set_mem (<[pa `div` 4 := u32 v]> (mem h)) h))
  | None => fault va
  end.
(** [a[i]] for a [uint32 *a]. *)
Definition load_at (a i : Z) : K Z := load (u32 (a + 4 * i)).
Definition store_at (a i v : Z) : K unit := store (u32 (a + 4 * i)) v.
(** [*(uint8 * )va]: a byte of the word that holds it. *)
Definition byte_of (w i : Z) : Z := Z.shiftr w (8 * i) `mod` 256.
Definition set_byte (w i b : Z) : Z := w + (b - byte_of w i) * 2 ^ (8 * i).
Definition load8 (va : Z) : K Z :=
  w ← load (va - va `mod` 4); mret (byte_of w (va `mod` 4)).
Definition store8 (va b : Z) : K unit :=
  w ← load (va - va `mod` 4); store (va - va `mod` 4) (set_byte w (va `mod` 4) (u8 b)).
(** [memset(va, 0, 4 * n)] of a word-aligned block. *)
Definition memset0 (va n : Z) : K unit := forM (seqZ 0 n) (λ i, store_at va i 0).

Definition rcr2 : K Z := gets (cr2 ∘ hw).
Definition lcr2 (v : Z) : K unit := modify (on_hw (set_cr2 v)).
Definition rcr3 : K Z := gets (cr3 ∘ hw).
Definition lcr3 (v : Z) : K unit := modify (on_hw (set_cr3 v)).
Definition tlbflush : K unit := mret tt.
Definition tlb_invalidate (pgdir va : Z) : K unit := mret tt.

(** ** Frames and addresses *)

Definition get_frame (f : Z) : K Frame_Info := gets (λ s, frames_info (frames s) !!! f).
Definition put_frame (f : Z) (x : Frame_Info) : K unit :=
  modify (on_frames (λ r, set_frames_info (<[f:=x]> (frames_info r)) r)).
Definition upd_frame (f : Z) (g : Frame_Info → Frame_Info) : K unit :=
  x ← get_frame f; put_frame f (g x).

(** kern/memory_manager.h; a [struct Frame_Info *] is its frame number. *)
Definition to_frame_number (ptr_frame_info : Z) : Z := ptr_frame_info.
Definition to_physical_address (ptr_frame_info : Z) : Z :=
  u32 (Z.shiftl (to_frame_number ptr_frame_info) PGSHIFT).
Definition to_frame_info (physical_address : Z) : K Z :=
  n ← gets (number_of_frames ∘ frames);
  if n <=? PPN physical_address then panic "to_frame_info called with invalid pa"
  else mret (PPN physical_address).

(** kern/helpers.h *)
Definition STATIC_KERNEL_PHYSICAL_ADDRESS (kva : Z) : K Z :=
  if kva <? KERNEL_BASE then panic "K_PHYSICAL_ADDRESS called with invalid kva"
  else mret (kva - KERNEL_BASE).
Definition STATIC_KERNEL_VIRTUAL_ADDRESS (pa : Z) : K Z :=
  n ← gets (number_of_frames ∘ frames);
  if n <=? PPN pa then panic "K_VIRTUAL_ADDRESS called with invalid pa"
  else mret (u32 (pa + KERNEL_BASE)).

(** ** Environments *)

Definition get_env (e : Z) : K Env := gets (λ s, envs (environments s) !!! e).
Definition upd_env (e : Z) (g : Env → Env) : K unit :=
  modify (on_environments (λ r, set_envs (<[e := g (envs r !!! e)]> (envs r)) r)).
(** [curenv->...] *)
Definition curenv_ptr : K Z :=
  c ← gets (curenv ∘ environments); read_local "curenv is NULL" c.

(** Elements of the page and table working sets. *)
Definition ws_get (e i : Z) : K WorkingSetElement := x ← get_env e; mret (pageWS x !!! i).
Definition ws_upd (e i : Z) (g : WorkingSetElement → WorkingSetElement) : K unit :=
  upd_env e (λ x, set_pageWS (<[i := g (pageWS x !!! i)]> (pageWS x)) x).
Definition tws_get (e i : Z) : K WorkingSetElement := x ← get_env e; mret (tws x !!! i).
Definition tws_upd (e i : Z) (g : WorkingSetElement → WorkingSetElement) : K unit :=
  upd_env e (λ x, set_tws (<[i := g (tws x !!! i)]> (tws x)) x).

(** ** Functions called through a cycle of the call graph

    kmalloc maps frames, and map_frame may need kmalloc for a page table; get_page_table calls
    the fault handler, which calls get_page_table; the page-table flag functions read swapped-out
    tables from the page file.  The definitions take the callee as an instance of [Extern]; the
    knot is tied, with fuel, in Link.v. *)
Class Extern := {
  x_kmalloc : Z → K Z;
  x_fault_handler : K unit;
  x_pf_read_env_table : Z → Z → Z → K Z;
  x_pf_write_env_table : Z → Z → Z → K Z;
}.
