(* ===== verification/AddressSpace.v ===== *)
(** * Address spaces: what the MMU makes of memory words

    A translation reads two words of memory, one of the directory and one of a table ([walk]);
    writing any other word keeps it.  [kpage s a f] says that the kernel can write the page at
    virtual address [a], which is frame [f]; loads and stores through [a] then are reads and writes
    of the words of [f]. *)
From S2P Require Import Prelude Machine Queue State.

Section Walk.
Implicit Types (m : gmap Z Z) (root va : Z).

Definition pde_word root va : Z := word (frame_of root) (PDX va).
Definition pde_of m root va : Z := m !!! pde_word root va.
Definition pte_word m root va : Z := word (frame_of (pde_of m root va)) (PTX va).
(** The words a translation reads. *)
Definition walk m root va : list Z := [pde_word root va; pte_word m root va].

Lemma mmu_walk m root va w :
  mmu m root va w =
    if entry_allows (pde_of m root va) w && entry_allows (m !!! pte_word m root va) w
    then Some (frame_of (m !!! pte_word m root va) * PAGE_SIZE + PGOFF va) else None.
Proof. done. Qed.

Lemma walk_insert m root va i v :
  i ∉ walk m root va → walk (<[i:=v]> m) root va = walk m root va.
Proof.
  unfold walk. intros Hi. f_equal. unfold pte_word, pde_of.
  by rewrite array_get_set_ne by set_solver.
Qed.
Lemma mmu_insert m root va w i v :
  i ∉ walk m root va → mmu (<[i:=v]> m) root va w = mmu m root va w.
Proof.
  intros Hi. pose proof (walk_insert m root va i v Hi) as Hw. unfold walk in Hw. injection Hw as Hp.
  rewrite !mmu_walk, Hp. unfold pde_of.
  by rewrite !array_get_set_ne by (unfold walk in Hi; set_solver).
Qed.

(** Addresses of one page share their walk. *)
Lemma walk_same_page m root va va' :
  PPN va = PPN va' → walk m root va = walk m root va'.
Proof.
  intros Hp. assert (PDX va = PDX va' ∧ PTX va = PTX va') as [Hd Ht].
  { rewrite !PDX_PTX_PPN in Hp. unfold NPTENTRIES in Hp.
    pose proof (PTX_range va). pose proof (PTX_range va'). lia. }
  unfold walk, pte_word, pde_of, pde_word. by rewrite Hd, Ht.
Qed.
Lemma mmu_same_page m root va va' w :
  PPN va = PPN va' →
  mmu m root va w = (λ pa, pa - PGOFF va' + PGOFF va) <$> mmu m root va' w.
Proof.
  intros Hp. pose proof (walk_same_page m root va va' Hp) as Hw. unfold walk in Hw.
  injection Hw as Hd Ht. rewrite !mmu_walk. unfold pde_of. rewrite Hd, Ht. case_match; [|done].
  cbn. f_equal. lia.
Qed.
Lemma mmu_write_read m root va pa :
  mmu m root va true = Some pa → mmu m root va false = Some pa.
Proof.
  rewrite !mmu_walk. unfold entry_allows.
  repeat match goal with |- context [has_perm ?a ?b] => destruct (has_perm a b) end; done.
Qed.
End Walk.

(** ** Pages the kernel can write *)
Definition kpage (s : KState) (a f : Z) : Prop :=
  is_u32 a ∧ a `mod` PAGE_SIZE = 0 ∧ 0 ≤ f ∧
  mmu (mem (hw s)) (cr3 (hw s)) a true = Some (f * PAGE_SIZE).
Definition walk_of (s : KState) (va : Z) : list Z := walk (mem (hw s)) (cr3 (hw s)) va.
Definition put_word (i v : Z) (s : KState) : KState :=
  on_hw (λ h, set_mem (<[i := v]> (mem h)) h) s.
Definition get_word (s : KState) (i : Z) : Z := mem (hw s) !!! i.

Lemma get_put_eq i v s : get_word (put_word i v s) i = v.
Proof. unfold get_word, put_word. cbn. apply array_get_set_eq. Qed.
Lemma get_put_ne i j v s : i ≠ j → get_word (put_word i v s) j = get_word s j.
Proof. intros. unfold get_word, put_word. cbn. by apply array_get_set_ne. Qed.

Lemma word_inj f i f' i' :
  0 ≤ i < 1024 → 0 ≤ i' < 1024 → word f i = word f' i' → f = f' ∧ i = i'.
Proof. unfold word. intros. lia. Qed.

Section Page.
Context (s : KState) (a f : Z) (Hp : kpage s a f).

Lemma page_element i :
  0 ≤ i < 1024 → u32 (a + 4 * i) = a + 4 * i ∧ PPN (a + 4 * i) = PPN a ∧ PGOFF (a + 4 * i) = 4 * i
                 ∧ PGOFF a = 0 ∧ (a + 4 * i) `mod` 4 = 0.
Proof.
  destruct Hp as (Ha & Hm & _ & _). unfold PAGE_SIZE, is_u32 in *. intros Hi.
  pose proof (Z.div_mod a 4096 ltac:(lia)). set (q := a / 4096) in *.
  assert (0 ≤ q < 2 ^ 20) by lia.
  assert (u32 (a + 4 * i) = a + 4 * i) as Hu by (apply u32_small; unfold is_u32; lia).
  split_and!; [done|..].
  - rewrite !PPN_eq, Hu, u32_small by (unfold is_u32; lia). unfold PAGE_SIZE.
    replace a with (q * 4096 + 0) at 2 by lia. replace (a + 4 * i) with (q * 4096 + 4 * i) by lia.
    by rewrite !Z_div_mul_small by lia.
  - unfold PGOFF. rewrite Hu, land_0xFFF. replace (a + 4 * i) with (q * 4096 + 4 * i) by lia.
    apply Z_mod_mul_small. lia.
  - unfold PGOFF. by rewrite u32_small, land_0xFFF by done.
  - replace (a + 4 * i) with ((q * 1024 + i) * 4) by lia. by apply Z_mod_mult.
Qed.

Lemma kpage_mmu i :
  0 ≤ i < 1024 → mmu (mem (hw s)) (cr3 (hw s)) (u32 (a + 4 * i)) true = Some (word f i * 4).
Proof.
  intros Hi. destruct (page_element i Hi) as (-> & HP & HO & HO' & _).
  destruct Hp as (_ & _ & _ & Hm). rewrite (mmu_same_page _ _ _ a) by done. rewrite Hm. cbn.
  rewrite HO, HO'. unfold word, PAGE_SIZE. f_equal. lia.
Qed.

Lemma load_kpage i : 0 ≤ i < 1024 → load_at a i s = Ret (get_word s (word f i)) s.
Proof.
  intros Hi. pose proof (page_element i Hi) as (Hu & _ & _ & _ & H4). unfold load_at, load.
  rewrite Hu, H4. cbn [negb Z.eqb]. rewrite bind_gets.
  rewrite <-Hu, (mmu_write_read _ _ _ _ (kpage_mmu i Hi)). cbn.
  unfold get_word. by rewrite Z.div_mul.
Qed.
Lemma store_kpage i v : 0 ≤ i < 1024 → store_at a i v s = Ret tt (put_word (word f i) (u32 v) s).
Proof.
  intros Hi. pose proof (page_element i Hi) as (Hu & _ & _ & _ & H4). unfold store_at, store.
  rewrite Hu, H4. cbn [negb Z.eqb]. rewrite bind_gets.
  rewrite <-Hu, (kpage_mmu i Hi). unfold modify, put_word. by rewrite Z.div_mul.
Qed.
End Page.

(** A write outside the walk of [a] keeps the page. *)
Lemma walk_put s va j v : j ∉ walk_of s va → walk_of (put_word j v s) va = walk_of s va.
Proof. intros. by apply walk_insert. Qed.
Lemma kpage_put s a f j v : kpage s a f → j ∉ walk_of s a → kpage (put_word j v s) a f.
Proof.
  intros (? & ? & ? & Hm) Hj. split_and!; try done. rewrite <-Hm. by apply mmu_insert.
Qed.

(** The frames a walk reads. *)
Definition walk_frames (s : KState) (a : Z) : list Z := (λ w, w / 1024) <$> walk_of s a.

Lemma walk_frames_word s a f i : f ∉ walk_frames s a → 0 ≤ i < 1024 → word f i ∉ walk_of s a.
Proof.
  intros Hf Hi Hin. apply Hf. unfold walk_frames. apply list_elem_of_fmap.
  exists (word f i). split; [|done]. unfold word. by rewrite Z_div_mul_small.
Qed.

(** ** Blocks of words and bytes *)

(** Only memory words differ, and only those of the frames [fs]. *)
Definition writes_only (fs : list Z) (s s' : KState) : Prop :=
  (∃ m, s' = on_hw (set_mem m) s) ∧
  ∀ j, (∀ f i, f ∈ fs → 0 ≤ i < 1024 → j ≠ word f i) → get_word s' j = get_word s j.

#[export] Instance writes_only_preorder fs : PreOrder (writes_only fs).
Proof.
  split.
  - intros s. split; [|done]. exists (mem (hw s)). by destruct s as [[]].
  - intros s1 s2 s3 [[m ->] H1] [[m' ->] H2]. split; [by exists m'|].
    intros j Hj. by rewrite H2, H1.
Qed.
Lemma writes_only_put fs s f i v :
  f ∈ fs → 0 ≤ i < 1024 → writes_only fs s (put_word (word f i) v s).
Proof.
  intros Hf Hi. split; [by eexists|]. intros j Hj. apply get_put_ne. intros <-. by eapply Hj.
Qed.
(** A page whose walk avoids the written frames stays. *)
Definition clear_of (fs : list Z) (s : KState) (a : Z) : Prop :=
  ∀ f i, f ∈ fs → 0 ≤ i < 1024 → word f i ∉ walk_of s a.
Lemma writes_only_walk fs s s' a :
  writes_only fs s s' → clear_of fs s a →
  walk_of s' a = walk_of s a ∧
  ∀ w, mmu (mem (hw s')) (cr3 (hw s')) a w = mmu (mem (hw s)) (cr3 (hw s)) a w.
Proof.
  intros [[m ->] Hm] Hc.
  assert (∀ j, j ∈ walk_of s a → m !!! j = mem (hw s) !!! j) as Hj.
  { intros j Hj. apply (Hm j). intros f i Hf Hi ->. by apply (Hc f i). }
  unfold walk_of, walk in *. cbn.
  assert (pde_of m (cr3 (hw s)) a = pde_of (mem (hw s)) (cr3 (hw s)) a) as Hd
    by (apply Hj; by left).
  assert (pte_word m (cr3 (hw s)) a = pte_word (mem (hw s)) (cr3 (hw s)) a) as Ht
    by (unfold pte_word; by rewrite Hd).
  split; [by rewrite Ht|]. intros w. rewrite !mmu_walk, Ht, Hd.
  by rewrite (Hj (pte_word _ _ _)) by (right; by left).
Qed.
Lemma writes_only_kpage fs s s' a f :
  writes_only fs s s' → clear_of fs s a → kpage s a f → kpage s' a f.
Proof.
  intros Hw Hc (? & ? & ? & Hm). destruct (writes_only_walk fs s s' a Hw Hc) as [_ He].
  split_and!; try done. by rewrite He.
Qed.
Lemma writes_only_clear fs gs s s' a :
  writes_only fs s s' → clear_of fs s a → clear_of gs s a → clear_of gs s' a.
Proof.
  intros Hw Hc Hg. destruct (writes_only_walk fs s s' a Hw Hc) as [He _]. unfold clear_of.
  by rewrite He.
Qed.

Lemma memset0_kpage s a f n :
  kpage s a f → clear_of [f] s a → 0 ≤ n ≤ 1024 →
  ∃ s', memset0 a n s = Ret tt s' ∧ writes_only [f] s s' ∧
        (∀ i, 0 ≤ i < n → get_word s' (word f i) = 0) ∧
        (∀ i, n ≤ i < 1024 → get_word s' (word f i) = get_word s (word f i)).
Proof.
  intros Hp Hc Hn.
  apply (forM_seqZ (λ k s', writes_only [f] s s' ∧
    (∀ i, 0 ≤ i < k → get_word s' (word f i) = 0) ∧
    (∀ i, k ≤ i < 1024 → get_word s' (word f i) = get_word s (word f i)))); [lia| |].
  { split_and!; [done|intros; lia|done]. }
  intros k s1 Hk (Hw & Hz & Ho). rewrite Z.add_0_l.
  exists (put_word (word f k) 0 s1). split_and!.
  - apply (store_kpage s1 a f); [|lia]. by eapply writes_only_kpage.
  - etrans; [done|]. apply writes_only_put; [by left|lia].
  - intros i Hi. destruct (decide (i = k)) as [->|]; [apply get_put_eq|].
    rewrite get_put_ne; [apply Hz; lia|]. unfold word. lia.
  - intros i Hi. rewrite get_put_ne; [apply Ho; lia|]. unfold word. lia.
Qed.

(** Byte [i] of a page. *)
Lemma store8_kpage s a f i b :
  kpage s a f → 0 ≤ i < 4096 →
  store8 (a + i) b s =
    Ret tt (put_word (word f (i / 4))
              (u32 (set_byte (get_word s (word f (i / 4))) (i `mod` 4) (u8 b))) s).
Proof.
  intros Hp Hi. assert (0 ≤ i / 4 < 1024) as Hq by (split; [apply Z.div_pos; lia|apply Z.div_lt_upper_bound; lia]).
  pose proof (page_element s a f Hp (i / 4) Hq) as (Hu & _ & _ & _ & H4).
  assert (a `mod` 4 = 0) as Ha.
  { replace a with (a + 4 * (i / 4) + (- (i / 4)) * 4) by lia. by rewrite Z_mod_plus_full. }
  assert ((a + i) `mod` 4 = i `mod` 4) as Hmod by zdiv.
  assert (a + i - (a + i) `mod` 4 = u32 (a + 4 * (i / 4))) as Heq.
  { rewrite Hu, Hmod. pose proof (Z.div_mod i 4 ltac:(lia)). lia. }
  unfold store8. rewrite Heq, Hmod. fold (load_at a (i / 4)). mstep (load_kpage s a f Hp (i / 4) Hq).
  by apply (store_kpage s a f Hp).
Qed.

(** Zeroing byte [k] of a word whose lower bytes are zero. *)
Lemma set_byte_zero w k :
  is_u32 w → 0 ≤ k < 4 →
  u32 (set_byte (w - w `mod` 2 ^ (8 * k)) k 0) = w - w `mod` 2 ^ (8 * (k + 1)).
Proof.
  intros Hw Hk. unfold set_byte, byte_of, is_u32 in *. rewrite Z.shiftr_div_pow2 by lia.
  rewrite u32_small; [|unfold is_u32];
    (assert (k = 0 ∨ k = 1 ∨ k = 2 ∨ k = 3) as [-> | [-> | [-> | ->]]] by lia); cbn; zdiv.
Qed.

(** ** States that agree outside some frames

    Nothing of what address translation and the environments' tables depend on differs, except the
    words of the frames [fs]; the disk, the frame records and the free lists may differ. *)
Definition touches (fs : list Z) (s s' : KState) : Prop :=
  cr3 (hw s') = cr3 (hw s) ∧ bad_sectors (hw s') = bad_sectors (hw s) ∧
  number_of_frames (frames s') = number_of_frames (frames s) ∧ kheap s' = kheap s ∧ environments s' = environments s ∧ boot s' = boot s ∧
  ∀ j, (∀ f i, f ∈ fs → 0 ≤ i < 1024 → j ≠ word f i) → get_word s' j = get_word s j.
#[export] Instance touches_preorder fs : PreOrder (touches fs).
Proof.
  split; [done|].
  intros s1 s2 s3 (? & ? & ? & ? & ? & ? & Hw1) (? & ? & ? & ? & ? & ? & Hw2). unfold touches.
  split_and!; try congruence. intros j Hj. by rewrite Hw2, Hw1.
Qed.
Lemma touches_mono fs gs s s' : fs ⊆ gs → touches fs s s' → touches gs s s'.
Proof.
  intros Hsub (? & ? & ? & ? & ? & ? & Hw). unfold touches. split_and!; try done.
  intros j Hj. apply Hw. intros f i Hf. by apply Hj, Hsub.
Qed.
Lemma touches_put fs s f i v : f ∈ fs → 0 ≤ i < 1024 → touches fs s (put_word (word f i) v s).
Proof.
  intros Hf Hi. unfold touches. split_and!; try done. intros j Hj. apply get_put_ne. intros <-. by eapply Hj.
Qed.
Lemma touches_writes fs s s' : writes_only fs s s' → touches fs s s'.
Proof. intros [[m ->] Hw]. by unfold touches. Qed.

(** [a] is reached without reading any of the frames [fs]. *)
Definition reached_apart (fs : list Z) (s : KState) (a : Z) : Prop :=
  ∀ f, f ∈ fs → f ∉ walk_frames s a.
Lemma reached_apart_clear fs s a : reached_apart fs s a → clear_of fs s a.
Proof. intros Ha f i Hf Hi. apply walk_frames_word; auto. Qed.
Section Touches.
Context (fs : list Z) (s s' : KState) (Ht : touches fs s s').

Lemma touches_walk a : reached_apart fs s a →
  walk_of s' a = walk_of s a ∧
  ∀ w, mmu (mem (hw s')) (cr3 (hw s')) a w = mmu (mem (hw s)) (cr3 (hw s)) a w.
Proof using Ht.
  intros Ha%reached_apart_clear. destruct Ht as (Hcr & _ & _ & _ & _ & _ & Hw).
  assert (writes_only fs s (on_hw (set_mem (mem (hw s'))) s)) as Hwo by (split; [by eexists|exact Hw]).
  destruct (writes_only_walk fs s _ a Hwo Ha) as [H1 H2]. unfold walk_of in *. rewrite Hcr. by cbn in *.
Qed.
Lemma touches_kpage a g : reached_apart fs s a → kpage s a g → kpage s' a g.
Proof using Ht.
  intros Ha (? & ? & ? & Hm). destruct (touches_walk a Ha) as [_ He]. split_and!; try done. by rewrite He.
Qed.
Lemma touches_reached gs a : reached_apart fs s a → reached_apart gs s a → reached_apart gs s' a.
Proof using Ht.
  intros Ha Hg. destruct (touches_walk a Ha) as [He _]. unfold reached_apart, walk_frames. by rewrite He.
Qed.
Lemma touches_word f i : f ∉ fs → 0 ≤ i < 1024 → get_word s' (word f i) = get_word s (word f i).
Proof using Ht.
  intros Hf Hi. destruct Ht as (_ & _ & _ & _ & _ & _ & Hw). apply Hw.
  intros g k Hg Hk [-> _]%word_inj; done.
Qed.
End Touches.

(** Memory given by a list of words, for examples. *)
Lemma list_words_u32 (l : list (Z * Z)) j :
  Forall (λ p, is_u32 p.2) l → is_u32 ((list_to_map l : gmap Z Z) !!! j).
Proof.
  induction 1 as [|[i v] l Hv _ IH]; [done|]. cbn in *.
  destruct (decide (i = j)) as [<-|]; [by rewrite array_get_set_eq|by rewrite array_get_set_ne].
Qed.
