(* ===== verification/PageFlags.v ===== *)
(** * Page-directory and page-table flags, run-time switches

    kern/memory_manager.c (the [pd_*] and [pt_*] functions, the placement-strategy switches) and
    the switches of kern/trap.c. *)
From S2P Require Import Prelude Machine Queue State.

(** kern/kheap.c: the reverse map of the kernel heap. *)
Definition kheap_virtual_address (physical_address : Z) : K Z :=
  gets (λ s, virtualAddresses (kheap s) !!! (u32 physical_address `div` PAGE_SIZE)).

(** The expression that designates the page table of [virtual_address] in every function below:
    user tables are found through the reverse map, kernel ones at their static address. *)
Definition table_address (virtual_address page_directory_entry : Z) : K Z :=
  if negb (CHECK_IF_KERNEL_ADDRESS virtual_address)
  then kheap_virtual_address (EXTRACT_ADDRESS page_directory_entry)
  else STATIC_KERNEL_VIRTUAL_ADDRESS (EXTRACT_ADDRESS page_directory_entry).

Section Flags.
Context `{Extern}.

Definition pd_is_table_used (ptr_env virtual_address : Z) : K Z :=
  e ← get_env ptr_env;
  pde ← load_at (env_page_directory e) (PDX virtual_address);
  mret (if has_perm pde PERM_USED then 1 else 0).

Definition pd_set_table_unused (ptr_env virtual_address : Z) : K unit :=
  e ← get_env ptr_env;
  pde ← load_at (env_page_directory e) (PDX virtual_address);
  store_at (env_page_directory e) (PDX virtual_address) (Z.land pde (not32 PERM_USED));;
  tlb_invalidate 0 virtual_address.

Definition pd_clear_page_dir_entry (ptr_env virtual_address : Z) : K unit :=
  e ← get_env ptr_env;
  store_at (env_page_directory e) (PDX virtual_address) 0;;
  tlbflush.

(** Read-modify-write of one entry of a table. *)
Definition update_entry (table i : Z) (g : Z → Z) : K unit :=
  v ← load_at table i; store_at table i (g v).

Definition pt_set_page_permissions
    (ptr_env virtual_address permissions_to_set permissions_to_clear : Z) : K unit :=
  e ← get_env ptr_env;
  page_directory_entry ← load_at (env_page_directory e) (PDX virtual_address);
  (if has_perm page_directory_entry PERM_PRESENT then
     ptr_page_table ← table_address virtual_address page_directory_entry;
     update_entry ptr_page_table (PTX virtual_address) (λ v, Z.lor v permissions_to_set);;
     update_entry ptr_page_table (PTX virtual_address) (λ v, Z.land v (not32 permissions_to_clear))
   else if negb (page_directory_entry =? 0) then
     ptr_page_table ← gets (ptr_temp_page ∘ boot);
     success ← x_pf_read_env_table ptr_env virtual_address ptr_page_table;
     (if success =? E_TABLE_NOT_EXIST_IN_PF then
        panic "pt_set_page_permissions: table not found in PF when expected to find one"
      else mret tt);;
     update_entry ptr_page_table (PTX virtual_address) (λ v, Z.lor v permissions_to_set);;
     update_entry ptr_page_table (PTX virtual_address) (λ v, Z.land v (not32 permissions_to_clear));;
     x_pf_write_env_table ptr_env virtual_address ptr_page_table;;
     mret tt
   else panic "function pt_set_page_permissions() called with invalid virtual address");;
  tlb_invalidate 0 virtual_address.

Definition pt_clear_page_table_entry (ptr_env virtual_address : Z) : K unit :=
  e ← get_env ptr_env;
  page_directory_entry ← load_at (env_page_directory e) (PDX virtual_address);
  (if has_perm page_directory_entry PERM_PRESENT then
     ptr_page_table ← table_address virtual_address page_directory_entry;
     store_at ptr_page_table (PTX virtual_address) 0
   else if negb (page_directory_entry =? 0) then
     ptr_page_table ← gets (ptr_temp_page ∘ boot);
     success ← x_pf_read_env_table ptr_env virtual_address ptr_page_table;
     (if success =? E_TABLE_NOT_EXIST_IN_PF then
        panic "pt_clear_page_table_entry: table not found in PF when expected to find one"
      else mret tt);;
     store_at ptr_page_table (PTX virtual_address) 0;;
     x_pf_write_env_table ptr_env virtual_address ptr_page_table;;
     mret tt
   else panic "function pt_clear_page_table_entry() called with invalid virtual address");;
  tlb_invalidate 0 virtual_address.

Definition pt_get_page_permissions (ptr_env virtual_address : Z) : K Z :=
  e ← get_env ptr_env;
  page_directory_entry ← load_at (env_page_directory e) (PDX virtual_address);
  if has_perm page_directory_entry PERM_PRESENT then
    ptr_page_table ← table_address virtual_address page_directory_entry;
    v ← load_at ptr_page_table (PTX virtual_address);
    mret (Z.land v 0xFFF)
  else if negb (page_directory_entry =? 0) then
    ptr_page_table ← gets (ptr_temp_page ∘ boot);
    success ← x_pf_read_env_table ptr_env virtual_address ptr_page_table;
    (if success =? E_TABLE_NOT_EXIST_IN_PF then
       panic "pt_get_page_permissions: table not found in PF when expected to find one"
     else mret tt);;
    v ← load_at ptr_page_table (PTX virtual_address);
    mret (Z.land v 0xFFF)
  else mret 0.
End Flags.

(** ** Switches *)
Definition PG_REP_LRU : Z := 1.
Definition PG_REP_CLOCK : Z := 2.
Definition PG_REP_FIFO : Z := 3.
Definition PG_REP_MODIFIEDCLOCK : Z := 4.

Definition set_strategy (v : Z) : K unit := modify (on_config (set__UHeapPlacementStrategy v)).
Definition is_strategy (v : Z) : K Z :=
  gets (λ s, if _UHeapPlacementStrategy (config s) =? v then 1 else 0).
Definition setUHeapPlacementStrategyFIRSTFIT : K unit := set_strategy UHP_PLACE_FIRSTFIT.
Definition setUHeapPlacementStrategyBESTFIT : K unit := set_strategy UHP_PLACE_BESTFIT.
Definition setUHeapPlacementStrategyNEXTFIT : K unit := set_strategy UHP_PLACE_NEXTFIT.
Definition setUHeapPlacementStrategyWORSTFIT : K unit := set_strategy UHP_PLACE_WORSTFIT.
Definition isUHeapPlacementStrategyFIRSTFIT : K Z := is_strategy UHP_PLACE_FIRSTFIT.
Definition isUHeapPlacementStrategyBESTFIT : K Z := is_strategy UHP_PLACE_BESTFIT.
Definition isUHeapPlacementStrategyNEXTFIT : K Z := is_strategy UHP_PLACE_NEXTFIT.
Definition isUHeapPlacementStrategyWORSTFIT : K Z := is_strategy UHP_PLACE_WORSTFIT.

Definition set_replacement (v : Z) : K unit := modify (on_config (set__PageRepAlgoType v)).
Definition is_replacement (v : Z) : K bool := gets (λ s, _PageRepAlgoType (config s) =? v).
Definition setPageReplacmentAlgorithmLRU : K unit := set_replacement PG_REP_LRU.
Definition setPageReplacmentAlgorithmCLOCK : K unit := set_replacement PG_REP_CLOCK.
Definition setPageReplacmentAlgorithmFIFO : K unit := set_replacement PG_REP_FIFO.
Definition setPageReplacmentAlgorithmModifiedCLOCK : K unit := set_replacement PG_REP_MODIFIEDCLOCK.
Definition isPageReplacmentAlgorithmLRU : K bool := is_replacement PG_REP_LRU.
Definition isPageReplacmentAlgorithmCLOCK : K bool := is_replacement PG_REP_CLOCK.
Definition isPageReplacmentAlgorithmFIFO : K bool := is_replacement PG_REP_FIFO.
Definition isPageReplacmentAlgorithmModifiedCLOCK : K bool := is_replacement PG_REP_MODIFIEDCLOCK.

Definition enableModifiedBuffer (v : Z) : K unit := modify (on_config (set__EnableModifiedBuffer v)).
Definition isModifiedBufferEnabled : K Z := gets (_EnableModifiedBuffer ∘ config).
Definition enableBuffering (v : Z) : K unit := modify (on_config (set__EnableBuffering v)).
Definition isBufferingEnabled : K bool := gets (λ s, negb (_EnableBuffering (config s) =? 0)).
Definition setModifiedBufferLength (v : Z) : K unit := modify (on_config (set__ModifiedBufferLength v)).
Definition getModifiedBufferLength : K Z := gets (_ModifiedBufferLength ∘ config).
