(* ===== verification/FrameAlloc.v ===== *)
(** * The physical frame allocator

    kern/memory_manager.c: initialize_frame_info, allocate_frame, free_frame,
    decrement_references, initialize_paging, calculate_available_frames and the buffer lists.  A
    [struct Frame_Info *] is the index of the element in [frames_info], the free and modified
    lists are linked through the elements (Queue.v). *)
From S2P Require Import Prelude Machine Queue State PageFlags.

(** Operations of queue.h on the two lists threaded through [frames_info]. *)
Definition on_free_list (op : gmap Z Frame_Info → ListHead → gmap Z Frame_Info * ListHead) : K unit :=
  modify (on_frames (λ r,
    let '(h, l) := op (frames_info r) (free_frame_list r) in
    set_frames_info h (set_free_frame_list l r))).
Definition on_modified_list (op : gmap Z Frame_Info → ListHead → gmap Z Frame_Info * ListHead) : K unit :=
  modify (on_frames (λ r,
    let '(h, l) := op (frames_info r) (modified_frame_list r) in
    set_frames_info h (set_modified_frame_list l r))).

(** [memset(ptr, 0, sizeof( *ptr))] of one element of [frames_info]. *)
Definition initialize_frame_info (ptr_frame_info : Z) : K unit := put_frame ptr_frame_info inhabitant.

Section Frames.
Context `{Extern}.

(** The result is [*ptr_frame_info]. *)
Definition allocate_frame : K Z :=
  first ← gets (λ s, lh_first (free_frame_list (frames s)));
  match first with
  | None => panic "ERROR: Kernel run out of memory... allocate_frame cannot find a free frame."
  | Some f =>
      on_free_list (λ h l, LIST_REMOVE h l f);;
      x ← get_frame f;
      when (negb (isBuffered x =? 0))
        (e ← read_local "environment is NULL" (fi_environment x);
         pt_clear_page_table_entry e (fi_va x));;
      initialize_frame_info f;;
      mret f
  end.
End Frames.

Definition free_frame (ptr_frame_info : Z) : K unit :=
  initialize_frame_info ptr_frame_info;;
  on_free_list (λ h l, LIST_INSERT_HEAD h l ptr_frame_info).

(** [references] is a uint16: decrementing 0 gives 65535. *)
Definition decrement_references (ptr_frame_info : Z) : K unit :=
  upd_frame ptr_frame_info (λ x, set_references (u16 (references x - 1)) x);;
  x ← get_frame ptr_frame_info;
  when (references x =? 0) (free_frame ptr_frame_info).
Definition increment_references (ptr_frame_info : Z) : K unit :=
  upd_frame ptr_frame_info (λ x, set_references (u16 (references x + 1)) x).

(** ** Boot: which frames are free *)
Definition mark_used (i : Z) : K unit := upd_frame i (set_references 1).
Definition mark_free (i : Z) : K unit :=
  initialize_frame_info i;; on_free_list (λ h l, LIST_INSERT_HEAD h l i).
(** [for (i = a; i < b; i++)] *)
Definition for_range (a b : Z) (f : Z → K unit) : K unit := forM (seqZ a (b - a)) f.

Definition initialize_paging (initialize_disk_page_file : K unit) : K unit :=
  modify (on_frames (set_free_frame_list (MkListHead None None 0)));;
  modify (on_frames (set_modified_frame_list (MkListHead None None 0)));;
  mark_used 0;; mark_used 1;; mark_used 2;;
  modify (on_boot (set_ptr_zero_page (KERNEL_BASE + PAGE_SIZE)));;
  modify (on_boot (set_ptr_temp_page (KERNEL_BASE + 2 * PAGE_SIZE)));;
  for_range 0 1024 (λ i, store8 (KERNEL_BASE + PAGE_SIZE + i) 0;; store8 (KERNEL_BASE + 2 * PAGE_SIZE + i) 0);;
  let range_end := ROUNDUP PHYS_IO_MEM PAGE_SIZE in
  for_range 3 (range_end `div` PAGE_SIZE) mark_free;;
  for_range (PHYS_IO_MEM `div` PAGE_SIZE) (PHYS_EXTENDED_MEM `div` PAGE_SIZE) mark_used;;
  free_mem ← gets (ptr_free_mem ∘ boot);
  pa ← STATIC_KERNEL_PHYSICAL_ADDRESS free_mem;
  let range_end := ROUNDUP pa PAGE_SIZE in
  for_range (PHYS_EXTENDED_MEM `div` PAGE_SIZE) (range_end `div` PAGE_SIZE) mark_used;;
  n ← gets (number_of_frames ∘ frames);
  for_range (range_end `div` PAGE_SIZE) n mark_free;;
  initialize_disk_page_file.

(** ** Counting *)
Record freeFramesCounters := MkCounters { freeBuffered : Z; freeNotBuffered : Z; modified : Z }.

(** LIST_FOREACH over one of the lists; a cyclic list would run out of fuel. *)
Definition frame_fuel : K nat := gets (λ s, Datatypes.S (Z.to_nat (number_of_frames (frames s)))).
Definition foreach_frame (first : KState → option Z) (f : Z → K unit) : K unit :=
  fuel ← frame_fuel;
  x ← gets first;
  list_foreach (frames_info ∘ frames) fuel x f.

Definition count_frames (first : KState → option Z) (p : Frame_Info → bool) : K (Z * Z) :=
  fuel ← frame_fuel;
  x ← gets first;
  list_loop (frames_info ∘ frames) fuel x (0, 0)
    (λ '(yes, no) f, y ← get_frame f;
      if p y then mret (inl (u32 (yes + 1), no)) else mret (inl (yes, u32 (no + 1))))
    (λ c, c).
Definition calculate_available_frames : K freeFramesCounters :=
  free ← count_frames (λ s, lh_first (free_frame_list (frames s))) (λ x, negb (isBuffered x =? 0));
  modif ← count_frames (λ s, lh_first (modified_frame_list (frames s))) (λ _, true);
  mret (MkCounters free.1 free.2 modif.1).

(** ** Page buffering *)
(** [bufferList] is the modified list in every call of the program. *)
Definition bufferList_add_page (ptr_frame_info : Z) : K unit :=
  on_modified_list (λ h l, LIST_INSERT_TAIL h l ptr_frame_info).
Definition bufferlist_remove_page (ptr_frame_info : Z) : K unit :=
  on_modified_list (λ h l, LIST_REMOVE h l ptr_frame_info).
