(* ===== verification/FrameAllocSpec.v ===== *)
(** * What the frame allocator promises

    The free list and the reference counts as an abstract allocator: a sequence of free frames
    and a count per frame.  Any run of allocate_frame, increment_references and
    decrement_references on the linked list of the kernel is a run of the abstract allocator. *)
From S2P Require Import Prelude Machine Queue State AddressSpace PageFlags FrameAlloc.

Definition frame_at (s : KState) (f : Z) : Frame_Info := frames_info (frames s) !!! f.
(** [s] with another frame array and free list. *)
Definition with_free (h : gmap Z Frame_Info) (l : ListHead) (s : KState) : KState :=
  set_frames (MkFrames (number_of_frames (frames s)) h l (modified_frame_list (frames s))) s.
(** Nothing but the frame array and the free list differs. *)
Definition frames_only (s s' : KState) : Prop := ∃ h l, s' = with_free h l s.

#[export] Instance frames_only_preorder : PreOrder frames_only.
Proof.
  split.
  - intros s. exists (frames_info (frames s)), (free_frame_list (frames s)). by destruct s as [? []].
  - intros s1 s2 s3 (h & l & ->) (h' & l' & ->). by exists h', l'.
Qed.

Lemma with_free_id s : with_free (frames_info (frames s)) (free_frame_list (frames s)) s = s.
Proof. by destruct s as [? []]. Qed.
Lemma on_free_list_eq op h l h' l' s :
  op h l = (h', l') → on_free_list op (with_free h l s) = Ret tt (with_free h' l' s).
Proof. intros Hop. unfold on_free_list, modify, on_frames. cbn. by rewrite Hop. Qed.
Lemma put_frame_eq f x h l s : put_frame f x (with_free h l s) = Ret tt (with_free (<[f:=x]> h) l s).
Proof. done. Qed.
Lemma upd_frame_eq f g h l s :
  upd_frame f g (with_free h l s) = Ret tt (with_free (<[f := g (h !!! f)]> h) l s).
Proof. done. Qed.
Lemma initialize_frame_info_eq f h l s :
  initialize_frame_info f (with_free h l s) = Ret tt (with_free (<[f := inhabitant]> h) l s).
Proof. done. Qed.

(** Writing a node that is not on the list. *)
Lemma dll_insert_other {E} `{LinkedNode E} (h : gmap Z E) l xs f x :
  f ∉ xs → dll h l xs → dll (<[f:=x]> h) l xs.
Proof.
  intros Hf (? & ? & ? & ? & Hs). split_and!; try done.
  eapply dseg_agree; [|done]. intros y Hy. unfold LIST_NEXT, LIST_PREV.
  by rewrite array_get_set_ne by (intros ->; done).
Qed.

Lemma strip_fields x y :
  strip x = strip y →
  references x = references y ∧ isBuffered x = isBuffered y ∧ fi_va x = fi_va y ∧
  fi_environment x = fi_environment y.
Proof. destruct x, y. unfold strip. cbn. intros. by simplify_eq. Qed.

(** ** The abstract allocator *)
Definition astate : Type := list Z * gmap Z Z.
Inductive fop := FAlloc | FRetain (f : Z) | FRelease (f : Z).

(** [None]: the caller breaks the contract (touching the count of a free frame, more than 65535
    references, releasing a frame nobody refers to), or memory is exhausted. *)
Definition fspec (op : fop) (a : astate) : option (option Z * astate) :=
  let '(xs, m) := a in
  match op with
  | FAlloc => match xs with f :: xs => Some (Some f, (xs, m)) | [] => None end
  | FRetain f =>
      if decide (f ∈ xs) then None else
      if m !!! f <? 65535 then Some (None, (xs, <[f := m !!! f + 1]> m)) else None
  | FRelease f =>
      if decide (f ∈ xs) then None else
      if m !!! f =? 1 then Some (None, (f :: xs, <[f := 0]> m))
      else if 1 <? m !!! f then Some (None, (xs, <[f := m !!! f - 1]> m)) else None
  end.
Fixpoint fspecs (ops : list fop) (a : astate) : option (list (option Z) * astate) :=
  match ops with
  | [] => Some ([], a)
  | op :: ops =>
      match fspec op a with
      | None => None
      | Some (r, a') =>
          match fspecs ops a' with None => None | Some (rs, a'') => Some (r :: rs, a'') end
      end
  end.

Section Runs.
Context `{Extern}.
Definition frun (op : fop) : K (option Z) :=
  match op with
  | FAlloc => f ← allocate_frame; mret (Some f)
  | FRetain f => increment_references f;; mret None
  | FRelease f => decrement_references f;; mret None
  end.
Fixpoint fruns (ops : list fop) : K (list (option Z)) :=
  match ops with
  | [] => mret []
  | op :: ops => r ← frun op; rs ← fruns ops; mret (r :: rs)
  end.
End Runs.

(** The kernel's frames represent an abstract allocator. *)
Definition allocator (s : KState) (a : astate) : Prop :=
  dll (frames_info (frames s)) (free_frame_list (frames s)) a.1 ∧
  (∀ f, f ∈ a.1 → isBuffered (frame_at s f) = 0 ∧ a.2 !!! f = 0) ∧
  (∀ f, references (frame_at s f) = a.2 !!! f).

(** ** Each operation *)
Section Operations.
Context `{Extern}.

Lemma allocate_frame_refines s f xs m :
  allocator s (f :: xs, m) →
  ∃ s', allocate_frame s = Ret f s' ∧ allocator s' (xs, m) ∧ frames_only s s' ∧
        frame_at s' f = inhabitant ∧ ∀ g, g ≠ f → strip (frame_at s' g) = strip (frame_at s g).
Proof.
  intros (Hd & Hfree & Href). cbn in Hd.
  pose proof Hd as (Hfirst & _ & _ & [Hf _]%NoDup_cons & _).
  set (h := frames_info (frames s)) in *. set (l := free_frame_list (frames s)) in *.
  pose proof (dll_remove h l [] f xs Hd) as Hr.
  destruct (LIST_REMOVE h l f) as [h1 l1] eqn:Hrem. destruct Hr as (Hd1 & [Hr Ho] & _).
  assert (isBuffered (h1 !!! f) = 0) as Hb.
  { destruct (strip_fields _ _ (Hr f)) as (_ & -> & _). by apply Hfree; left. }
  exists (with_free (<[f := inhabitant]> h1) l1 s). unfold allocator. split_and!.
  - unfold allocate_frame. rewrite bind_gets. fold l. rewrite Hfirst. cbn [hd_or].
    rewrite <-(with_free_id s) at 1. fold h l.
    mstep (on_free_list_eq (λ h l, LIST_REMOVE h l f) h l h1 l1 s Hrem).
    unfold get_frame. rewrite bind_gets. cbn. by rewrite Hb.
  - by apply dll_insert_other.
  - intros g Hg. cbn in Hg. unfold frame_at. cbn. rewrite array_get_set_ne by (intros ->; done).
    destruct (strip_fields _ _ (Hr g)) as (_ & -> & _). by apply Hfree; right.
  - intros g. unfold frame_at. cbn. destruct (decide (f = g)) as [<-|].
    + rewrite array_get_set_eq. cbn. by destruct (Hfree f ltac:(by left)).
    + rewrite array_get_set_ne by done. destruct (strip_fields _ _ (Hr g)) as (-> & _).
      by apply Href.
  - by eexists _, _.
  - unfold frame_at. cbn. by rewrite array_get_set_eq.
  - intros g Hg. unfold frame_at. cbn. rewrite array_get_set_ne by done. apply Hr.
Qed.

Lemma allocate_frame_exhausted s m :
  allocator s ([], m) →
  allocate_frame s =
    Panic "ERROR: Kernel run out of memory... allocate_frame cannot find a free frame." s.
Proof.
  intros ((Hfirst & _) & _). unfold allocate_frame. rewrite bind_gets. cbn in Hfirst.
  by rewrite Hfirst.
Qed.

Lemma upd_references_refines s xs m f v :
  allocator s (xs, m) → f ∉ xs →
  ∃ s', upd_frame f (set_references v) s = Ret tt s' ∧ allocator s' (xs, <[f := v]> m) ∧
        frames_only s s' ∧ frame_at s' f = set_references v (frame_at s f).
Proof.
  intros (Hd & Hfree & Href) Hf.
  set (h := frames_info (frames s)) in *. set (l := free_frame_list (frames s)) in *.
  exists (with_free (<[f := set_references v (h !!! f)]> h) l s). unfold allocator. split_and!.
  - rewrite <-(with_free_id s) at 1. apply upd_frame_eq.
  - cbn in *. by apply dll_insert_other.
  - intros g Hg. cbn in Hg. unfold frame_at. cbn.
    rewrite !array_get_set_ne by (intros ->; done). by apply Hfree.
  - intros g. unfold frame_at. cbn. destruct (decide (f = g)) as [<-|].
    + by rewrite !array_get_set_eq.
    + rewrite !array_get_set_ne by done. apply Href.
  - by eexists _, _.
  - unfold frame_at. cbn. by rewrite array_get_set_eq.
Qed.

Lemma free_frame_refines s xs m f :
  allocator s (xs, m) → f ∉ xs →
  ∃ s', free_frame f s = Ret tt s' ∧ allocator s' (f :: xs, <[f := 0]> m) ∧ frames_only s s'.
Proof.
  intros (Hd & Hfree & Href) Hf.
  set (h := frames_info (frames s)) in *. set (l := free_frame_list (frames s)) in *.
  set (h1 := <[f := inhabitant]> h).
  pose proof (dll_insert_head h1 l xs f (dll_insert_other _ _ _ _ _ Hf Hd) Hf) as Hi.
  destruct (LIST_INSERT_HEAD h1 l f) as [h2 l2] eqn:Hins. destruct Hi as [Hd2 [Hr _]].
  exists (with_free h2 l2 s). unfold allocator. split_and!.
  - unfold free_frame. rewrite <-(with_free_id s) at 1. fold h l.
    mstep (initialize_frame_info_eq f h l s). by apply on_free_list_eq.
  - done.
  - intros g Hg. cbn in Hg. unfold frame_at. cbn. destruct (strip_fields _ _ (Hr g)) as (_ & -> & _).
    unfold h1. destruct (decide (f = g)) as [<-|]; [by rewrite !array_get_set_eq|].
    rewrite !array_get_set_ne by done. apply Hfree. set_solver.
  - intros g. unfold frame_at. cbn. destruct (strip_fields _ _ (Hr g)) as (-> & _).
    unfold h1. destruct (decide (f = g)) as [<-|]; [by rewrite !array_get_set_eq|].
    rewrite !array_get_set_ne by done. apply Href.
  - by eexists _, _.
Qed.

Lemma increment_references_refines s xs m f :
  allocator s (xs, m) → f ∉ xs → 0 ≤ m !!! f < 65535 →
  ∃ s', increment_references f s = Ret tt s' ∧ allocator s' (xs, <[f := m !!! f + 1]> m) ∧
        frames_only s s'.
Proof.
  intros Ha Hf Hm. pose proof Ha as (_ & _ & Href). specialize (Href f). cbn in Href.
  destruct (upd_references_refines s xs m f (m !!! f + 1) Ha Hf) as (s' & Hs' & Ha' & Ho & _).
  exists s'. split_and!; try done. rewrite <-Hs'. unfold increment_references, upd_frame, get_frame.
  rewrite !bind_gets. fold (frame_at s f). rewrite Href. unfold u16.
  by rewrite Z.mod_small by lia.
Qed.

Lemma decrement_references_refines s xs m f :
  allocator s (xs, m) → f ∉ xs → 1 ≤ m !!! f < 65536 →
  ∃ s', decrement_references f s = Ret tt s' ∧
        allocator s' (if m !!! f =? 1 then f :: xs else xs, <[f := m !!! f - 1]> m) ∧
        frames_only s s'.
Proof.
  intros Ha Hf Hm. pose proof Ha as (_ & _ & Href). specialize (Href f). cbn in Href.
  destruct (upd_references_refines s xs m f (m !!! f - 1) Ha Hf) as (s1 & Hs1 & Ha1 & Ho1 & Hf1).
  assert (upd_frame f (λ x, set_references (u16 (references x - 1)) x) s = Ret tt s1) as Hu.
  { rewrite <-Hs1. unfold upd_frame, get_frame. rewrite !bind_gets. fold (frame_at s f).
    rewrite Href. unfold u16. by rewrite Z.mod_small by lia. }
  unfold decrement_references. mstep Hu. unfold get_frame. rewrite bind_gets.
  fold (frame_at s1 f). rewrite Hf1. cbn [references set_references].
  destruct (m !!! f =? 1) eqn:H1.
  - apply Z.eqb_eq in H1. rewrite H1 in *. cbn [Z.sub Z.eqb when].
    destruct (free_frame_refines s1 xs _ f Ha1 Hf) as (s2 & Hs2 & Ha2 & Ho2).
    exists s2. change (1 - 1) with 0 in *. rewrite array_set_set in Ha2. split_and!; [|done|by etrans].
    done.
  - apply Z.eqb_neq in H1. rewrite (proj2 (Z.eqb_neq _ _)) by lia. by exists s1.
Qed.

Lemma frun_refines op s a r a' :
  (∀ f, 0 ≤ a.2 !!! f < 65536) →
  allocator s a → fspec op a = Some (r, a') →
  ∃ s', frun op s = Ret r s' ∧ allocator s' a' ∧ frames_only s s' ∧ (∀ f, 0 ≤ a'.2 !!! f < 65536).
Proof.
  destruct a as [xs m]. cbn. intros Hm Ha.
  assert (∀ f v, 0 ≤ v < 65536 → ∀ g, 0 ≤ (<[f := v]> m : gmap Z Z) !!! g < 65536) as Hm'.
  { intros f v Hv g. destruct (decide (f = g)) as [<-|]; [by rewrite array_get_set_eq|].
    by rewrite array_get_set_ne. }
  destruct op as [|f|f]; cbn.
  - destruct xs as [|f xs]; [done|]. intros [= <- <-].
    destruct (allocate_frame_refines s f xs m Ha) as (s' & Hs' & ? & ? & _).
    exists s'. by mstep Hs'.
  - case_decide; [done|]. destruct (m !!! f <? 65535) eqn:Hb; [|done]. intros [= <- <-]. zify_bool.
    specialize (Hm f).
    destruct (increment_references_refines s xs m f Ha) as (s' & Hs' & ? & ?); [done|lia|].
    exists s'. mstep Hs'. split_and!; try done. apply Hm'. lia.
  - case_decide; [done|].
    destruct (m !!! f =? 1) eqn:H1; [|destruct (1 <? m !!! f) eqn:H2; [|done]]; intros [= <- <-];
      zify_bool; specialize (Hm f);
      (destruct (decrement_references_refines s xs m f Ha) as (s' & Hs' & Ha' & ?); [done|lia|]);
      exists s'; mstep Hs'.
    + rewrite H1 in Ha'. cbn in Ha'. split_and!; try done. apply Hm'. lia.
    + rewrite (proj2 (Z.eqb_neq _ _)) in Ha' by lia. split_and!; try done. apply Hm'. lia.
Qed.
End Operations.

(** ** Boot *)
Section Boot.

Lemma allocator_frames s s' a : frames s' = frames s → allocator s a → allocator s' a.
Proof. intros Hf. unfold allocator, frame_at. by rewrite Hf. Qed.

(** Membership in a range of frames, and in a range that grows. *)
Definition within (a b f : Z) : bool := (a <=? f) && (f <? b).
Lemma within_spec a b f : reflect (a ≤ f < b) (within a b f).
Proof. unfold within. destruct (a <=? f) eqn:?, (f <? b) eqn:?; zify_bool; constructor; lia. Qed.
Lemma within_empty a f : within a (a + 0) f = false.
Proof. destruct (within_spec a (a + 0) f); [lia|done]. Qed.
Lemma within_last a k : 0 ≤ k → within a (a + (k + 1)) (a + k) = true.
Proof. intros. destruct (within_spec a (a + (k + 1)) (a + k)); [done|lia]. Qed.
Lemma within_grow a k f : a + k ≠ f → within a (a + (k + 1)) f = within a (a + k) f.
Proof.
  intros. destruct (within_spec a (a + (k + 1)) f), (within_spec a (a + k) f); done || lia.
Qed.

Lemma mark_free_range s xs m a b :
  allocator s (xs, m) → (∀ f, a ≤ f < b → f ∉ xs) → a ≤ b →
  ∃ s' m', for_range a b mark_free s = Ret tt s' ∧ frames_only s s' ∧
    allocator s' (reverse (seqZ a (b - a)) ++ xs, m') ∧
    ∀ f, m' !!! f = if within a b f then 0 else m !!! f.
Proof.
  intros Ha Hxs Hab.
  destruct (forM_seqZ (λ k s', frames_only s s' ∧ ∃ m',
    allocator s' (reverse (seqZ a k) ++ xs, m') ∧
    ∀ f, m' !!! f = if within a (a + k) f then 0 else m !!! f) mark_free a (b - a) s)
    as (s' & Hs' & Ho & m' & Ha' & Hm'); [lia| | |].
  - split; [done|]. exists m. split; [done|]. intros f.
    by rewrite within_empty.
  - intros k s1 Hk (Ho & m1 & Ha1 & Hm1).
    destruct (free_frame_refines s1 _ _ (a + k) Ha1) as (s2 & Hs2 & Ha2 & Ho2).
    { rewrite elem_of_app, elem_of_reverse, elem_of_seqZ.
      intros [?|Hc]; [lia|]. apply (Hxs (a + k)); [lia|done]. }
    exists s2. split_and!; [done|by etrans|]. eexists. split.
    + rewrite seqZ_app by lia. change (seqZ (a + k) 1) with [a + k].
      rewrite reverse_app. exact Ha2.
    + intros f. destruct (decide (a + k = f)) as [<-|].
      * by rewrite array_get_set_eq, within_last by lia.
      * by rewrite array_get_set_ne, within_grow, Hm1.
  - exists s', m'. split_and!; try done. intros f. rewrite Hm'. by replace (a + (b - a)) with b by lia.
Qed.

Lemma mark_used_range s xs m a b :
  allocator s (xs, m) → (∀ f, a ≤ f < b → f ∉ xs) → a ≤ b →
  ∃ s' m', for_range a b mark_used s = Ret tt s' ∧ frames_only s s' ∧ allocator s' (xs, m') ∧
    ∀ f, m' !!! f = if within a b f then 1 else m !!! f.
Proof.
  intros Ha Hxs Hab.
  destruct (forM_seqZ (λ k s', frames_only s s' ∧ ∃ m', allocator s' (xs, m') ∧
    ∀ f, m' !!! f = if within a (a + k) f then 1 else m !!! f) mark_used a (b - a) s)
    as (s' & Hs' & Ho & m' & Ha' & Hm'); [lia| | |].
  - split; [done|]. exists m. split; [done|]. intros f.
    by rewrite within_empty.
  - intros k s1 Hk (Ho & m1 & Ha1 & Hm1).
    destruct (upd_references_refines s1 xs m1 (a + k) 1 Ha1) as (s2 & Hs2 & Ha2 & Ho2 & _).
    { apply Hxs. lia. }
    exists s2. split_and!; [done|by etrans|]. eexists. split; [exact Ha2|].
    intros f. destruct (decide (a + k = f)) as [<-|].
    + by rewrite array_get_set_eq, within_last by lia.
    + by rewrite array_get_set_ne, within_grow, Hm1.
  - exists s', m'. split_and!; try done. intros f. rewrite Hm'. by replace (a + (b - a)) with b by lia.
Qed.

(** Word [i] of a page whose first [k] bytes have been zeroed, when it was [w]. *)
Definition zeroed (k i w : Z) : Z :=
  if i <? k / 4 then 0 else if i =? k / 4 then w - w `mod` 2 ^ (8 * (k `mod` 4)) else w.
Lemma zeroed_0 i w : 0 ≤ i → zeroed 0 i w = w.
Proof.
  intros. unfold zeroed. change (0 / 4) with 0. rewrite (proj2 (Z.ltb_ge _ _)) by lia.
  case_match; [|done]. change (2 ^ _) with 1. rewrite Z.mod_1_r. lia.
Qed.
Lemma zeroed_other k i w : 0 ≤ k → i ≠ k / 4 → zeroed (k + 1) i w = zeroed k i w.
Proof.
  intros Hk Hi. unfold zeroed. destruct (i <? k / 4) eqn:H1, (i =? k / 4) eqn:H2; zify_bool; try lia.
  - by rewrite (proj2 (Z.ltb_lt _ _)) by zdiv.
  - assert (i ≠ (k + 1) / 4 ∨ (k + 1) `mod` 4 = 0) as [Hn|Hz] by zdiv.
    + by rewrite (proj2 (Z.ltb_ge _ _)), (proj2 (Z.eqb_neq _ _)) by zdiv.
    + rewrite (proj2 (Z.ltb_ge _ _)) by zdiv. case_match; [|done]. rewrite Hz. cbn. rewrite Z.mod_1_r. lia.
Qed.
Lemma zeroed_step k w :
  0 ≤ k → is_u32 w →
  u32 (set_byte (zeroed k (k / 4) w) (k `mod` 4) (u8 0)) = zeroed (k + 1) (k / 4) w.
Proof.
  intros Hk Hw. unfold zeroed. rewrite Z.ltb_irrefl, Z.eqb_refl.
  change (u8 0) with 0. rewrite set_byte_zero by (done || zdiv).
  destruct (decide (k `mod` 4 = 3)) as [H3|H3].
  - rewrite (proj2 (Z.ltb_lt _ _)) by zdiv. rewrite H3. cbn. rewrite Z.mod_small; [lia|done].
  - rewrite (proj2 (Z.ltb_ge _ _)), (proj2 (Z.eqb_eq _ _)) by zdiv.
    by replace ((k + 1) `mod` 4) with (k `mod` 4 + 1) by zdiv.
Qed.

Definition ZERO_PAGE : Z := KERNEL_BASE + PAGE_SIZE.
Definition TEMP_PAGE : Z := KERNEL_BASE + 2 * PAGE_SIZE.
(** The kernel can write its zero page and its temporary page, frames 1 and 2, and no table on
    the way to them is in these frames. *)
Definition boot_pages (s : KState) : Prop :=
  (kpage s ZERO_PAGE 1 ∧ kpage s TEMP_PAGE 2) ∧
  (clear_of [1; 2] s ZERO_PAGE ∧ clear_of [1; 2] s TEMP_PAGE) ∧ ∀ j, is_u32 (get_word s j).
Definition pages_zeroed (k : Z) (s s' : KState) : Prop :=
  writes_only [1; 2] s s' ∧
  ∀ f i, f ∈ [1; 2] → 0 ≤ i < 1024 → get_word s' (word f i) = zeroed k i (get_word s (word f i)).

Lemma zero_byte s s' a f k :
  f ∈ [1; 2] → kpage s' a f → is_u32 (get_word s (word f (k / 4))) → 0 ≤ k < 4096 →
  get_word s' (word f (k / 4)) = zeroed k (k / 4) (get_word s (word f (k / 4))) →
  store8 (a + k) 0 s' =
    Ret tt (put_word (word f (k / 4)) (zeroed (k + 1) (k / 4) (get_word s (word f (k / 4)))) s').
Proof.
  intros Hf Hp Hu Hk Hw. rewrite (store8_kpage s' a f) by done. by rewrite Hw, zeroed_step by (done || lia).
Qed.

Lemma clear_boot_pages s :
  boot_pages s →
  ∃ s', for_range 0 1024 (λ i, store8 (KERNEL_BASE + PAGE_SIZE + i) 0;;
                               store8 (KERNEL_BASE + 2 * PAGE_SIZE + i) 0) s = Ret tt s' ∧
        pages_zeroed 1024 s s'.
Proof.
  intros ([Hp1 Hp2] & [Hc1 Hc2] & Hu). apply (forM_seqZ (λ k, pages_zeroed k s)); [lia| |].
  { split; [done|]. intros f i _ Hi. by rewrite zeroed_0 by lia. }
  intros k s1 Hk [Hw Hz]. rewrite Z.add_0_l.
  assert (0 ≤ k / 4 < 1024) as Hq by zdiv.
  rewrite (bind_Ret _ _ _ _ _ (zero_byte s s1 ZERO_PAGE 1 k ltac:(by left)
    ltac:(by eapply writes_only_kpage) ltac:(done) ltac:(lia) ltac:(apply Hz; [by left|done]))).
  set (s2 := put_word _ _ s1).
  assert (writes_only [1; 2] s s2) as Hw2
    by (etrans; [done|]; apply writes_only_put; [by left|lia]).
  eexists. split.
  { apply (zero_byte s s2 TEMP_PAGE 2 k); [set_solver|by eapply writes_only_kpage|done|lia|].
    unfold s2. rewrite get_put_ne by (unfold word; lia). apply Hz; [set_solver|done]. }
  split.
  { etrans; [done|]. apply writes_only_put; [set_solver|lia]. }
  intros f i Hf Hi. unfold s2.
  destruct (decide (i = k / 4)) as [->|Hne].
  - assert (f = 1 ∨ f = 2) as [-> | ->] by set_solver; [|apply get_put_eq].
    rewrite get_put_ne by (unfold word; lia). apply get_put_eq.
  - rewrite !get_put_ne by (intros [? ?]%word_inj; (done || lia)).
    rewrite zeroed_other by (done || lia). by apply Hz.
Qed.
End Boot.

(** The frame after the kernel's static data, and the reference counts boot leaves. *)
Definition range_end (s : KState) : Z :=
  ROUNDUP (ptr_free_mem (boot s) - KERNEL_BASE) PAGE_SIZE `div` PAGE_SIZE.
Definition boot_references (re f : Z) : Z :=
  if within 0 3 f || within 160 re f then 1 else 0.

Lemma boot_pages_hw s s' : hw s' = hw s → boot_pages s → boot_pages s'.
Proof.
  intros Hh. unfold boot_pages, kpage, clear_of, walk_of, get_word. by rewrite Hh.
Qed.
Lemma mark_used_three {B} (k : K B) s :
  (mark_used 0;; mark_used 1;; mark_used 2;; k) s = (for_range 0 3 mark_used;; k) s.
Proof. done. Qed.

(** What precedes the first [for] of initialize_paging over frames. *)
Definition start_paging : K unit :=
  modify (on_frames (set_free_frame_list (MkListHead None None 0)));;
  modify (on_frames (set_modified_frame_list (MkListHead None None 0)));;
  for_range 0 3 mark_used;;
  modify (on_boot (set_ptr_zero_page (KERNEL_BASE + PAGE_SIZE)));;
  modify (on_boot (set_ptr_temp_page (KERNEL_BASE + 2 * PAGE_SIZE)));;
  for_range 0 1024 (λ i, store8 (KERNEL_BASE + PAGE_SIZE + i) 0;; store8 (KERNEL_BASE + 2 * PAGE_SIZE + i) 0).
Definition mark_ranges (disk : K unit) : K unit :=
  for_range 3 160 mark_free;;
  for_range 160 256 mark_used;;
  free_mem ← gets (ptr_free_mem ∘ boot);
  pa ← STATIC_KERNEL_PHYSICAL_ADDRESS free_mem;
  for_range 256 (ROUNDUP pa PAGE_SIZE `div` PAGE_SIZE) mark_used;;
  n ← gets (number_of_frames ∘ frames);
  for_range (ROUNDUP pa PAGE_SIZE `div` PAGE_SIZE) n mark_free;;
  disk.
Lemma initialize_paging_eq disk s :
  initialize_paging disk s = (start_paging;; mark_ranges disk) s.
Proof.
  unfold start_paging. rewrite bind_assoc, bind_modify, bind_assoc, bind_modify, bind_assoc.
  unfold initialize_paging. rewrite !bind_modify, mark_used_three. apply bind_ext. intros _ s1.
  rewrite bind_assoc, !bind_modify, bind_assoc, !bind_modify.
  change (ROUNDUP PHYS_IO_MEM PAGE_SIZE `div` PAGE_SIZE) with 160.
  change (PHYS_IO_MEM `div` PAGE_SIZE) with 160.
  change (PHYS_EXTENDED_MEM `div` PAGE_SIZE) with 256. unfold mark_ranges. reflexivity.
Qed.

(** What initialize_paging keeps, besides memory outside frames 1 and 2. *)
Definition paging_keeps (s s' : KState) : Prop :=
  (kheap s' = kheap s ∧ environments s' = environments s) ∧ ptr_page_directory (boot s') = ptr_page_directory (boot s) ∧
  hw s' = set_mem (mem (hw s')) (hw s) ∧
  number_of_frames (frames s') = number_of_frames (frames s) ∧
  ∀ j, (∀ f i, f ∈ [1; 2] → 0 ≤ i < 1024 → j ≠ word f i) → get_word s' j = get_word s j.
(** What it sets up: no frame waits to be written out, and the first 1024 bytes of frames 1 and 2 are 0. *)
Definition paging_sets (s s' : KState) : Prop :=
  modified_frame_list (frames s') = MkListHead None None 0 ∧ end_of_kernel (boot s') = end_of_kernel (boot s) ∧
  ∀ f i, f ∈ [1; 2] → 0 ≤ i < 1024 → get_word s' (word f i) = zeroed 1024 i (get_word s (word f i)).
Lemma start_paging_spec s :
  frames_info (frames s) = ∅ → boot_pages s →
  ∃ s' m, start_paging s = Ret tt s' ∧ allocator s' ([], m) ∧
    (∀ f, m !!! f = if within 0 3 f then 1 else 0) ∧
    number_of_frames (frames s') = number_of_frames (frames s) ∧
    (ptr_free_mem (boot s') = ptr_free_mem (boot s) ∧ paging_keeps s s') ∧ paging_sets s s'.
Proof.
  intros Hinit Hpages. unfold start_paging. rewrite !bind_modify.
  set (s0 := on_frames _ (on_frames _ s)).
  assert (allocator s0 ([], ∅)) as Ha0.
  { unfold allocator, frame_at. cbn. rewrite Hinit. split_and!; [|set_solver|].
    - split_and!; try done. constructor.
    - intros f. by rewrite !lookup_total_empty. }
  destruct (mark_used_range s0 [] ∅ 0 3 Ha0) as (s1 & m & Hs1 & (h & l & ->) & Ha1 & Hm);
    [set_solver|lia|].
  mstep Hs1. rewrite !bind_modify. set (s2 := on_boot _ (on_boot _ _)).
  destruct (clear_boot_pages s2) as (s3 & Hs3 & [[m' ->] Hkeep] & Hz); [by eapply boot_pages_hw|].
  exists (on_hw (set_mem m') s2), m. split_and!; [done| | |done|done|split_and!; done|done].
  - by eapply allocator_frames; [|done].
  - intros f. rewrite Hm. case_match; [done|]. apply zero_array.
Qed.

(** The four ranges, from a state whose free list is empty. *)
Lemma mark_ranges_spec disk s m :
  allocator s ([], m) → (∀ f, m !!! f = if within 0 3 f then 1 else 0) →
  PHYS_EXTENDED_MEM ≤ ptr_free_mem (boot s) - KERNEL_BASE →
  is_u32 (ptr_free_mem (boot s)) → range_end s ≤ number_of_frames (frames s) →
  ∃ s' m', mark_ranges disk s = disk s' ∧ frames_only s s' ∧
    allocator s' (reverse (seqZ 3 157 ++ seqZ (range_end s) (number_of_frames (frames s) - range_end s)), m') ∧
    ∀ f, m' !!! f = boot_references (range_end s) f.
Proof.
  intros Ha Hm Hmem Hu Hn.
  assert (256 ≤ range_end s) as Hre.
  { unfold range_end, ROUNDUP, ROUNDDOWN, u32, is_u32, PHYS_EXTENDED_MEM, KERNEL_BASE, PAGE_SIZE in *. zdiv. }
  destruct (mark_free_range s [] m 3 160 Ha) as (s1 & m1 & Hs1 & (h1 & l1 & ->) & Ha1 & Hm1);
    [set_solver|lia|].
  destruct (mark_used_range _ _ m1 160 256 Ha1) as (s2 & m2 & Hs2 & (h2 & l2 & ->) & Ha2 & Hm2);
    [|lia|].
  { intros f Hf. rewrite app_nil_r, elem_of_reverse, elem_of_seqZ. lia. }
  destruct (mark_used_range _ _ m2 256 (range_end s) Ha2) as (s3 & m3 & Hs3 & (h3 & l3 & ->) & Ha3 & Hm3);
    [|lia|].
  { intros f Hf. rewrite app_nil_r, elem_of_reverse, elem_of_seqZ. lia. }
  destruct (mark_free_range _ _ m3 (range_end s) (number_of_frames (frames s)) Ha3)
    as (s4 & m4 & Hs4 & (h4 & l4 & ->) & Ha4 & Hm4); [|lia|].
  { intros f Hf. rewrite app_nil_r, elem_of_reverse, elem_of_seqZ. lia. }
  eexists _, m4. split_and!; [|by eexists _, _| |].
  - unfold mark_ranges. mstep Hs1. mstep Hs2. rewrite bind_gets. cbn [compose].
    unfold STATIC_KERNEL_PHYSICAL_ADDRESS. rewrite (proj2 (Z.ltb_ge _ _)) by (cbn; unfold PHYS_EXTENDED_MEM in *; lia).
    rewrite bind_mret. mstep Hs3. rewrite bind_gets. cbn [compose]. by mstep Hs4.
  - rewrite app_nil_r, <-reverse_app in Ha4. done.
  - intros f. rewrite Hm4, Hm3, Hm2, Hm1, Hm. unfold boot_references. clear -Hre Hn.
    destruct (within_spec 0 3 f), (within_spec 160 (range_end s) f), (within_spec 3 160 f),
      (within_spec 160 256 f), (within_spec 256 (range_end s) f),
      (within_spec (range_end s) (number_of_frames (frames s)) f);
      first [reflexivity | exfalso; lia].
Qed.

(** ** Counting *)
Definition frames_listed (n : Z) (xs : list Z) : Prop := ∀ f, f ∈ xs → 0 ≤ f < n.

(** The pair of counters after a list of frames. *)
Definition tally (p : Z → bool) (c : Z * Z) (f : Z) : Z * Z :=
  if p f then (u32 (c.1 + 1), c.2) else (c.1, u32 (c.2 + 1)).
Lemma tally_counts p xs y n :
  foldl (tally p) (u32 y, u32 n) xs =
    (u32 (y + Z.of_nat (length (filter (λ f, p f = true) xs))),
     u32 (n + Z.of_nat (length (filter (λ f, p f = false) xs)))).
Proof.
  revert y n. induction xs as [|f xs IH]; intros y n; cbn [foldl]; [by rewrite !Z.add_0_r|].
  unfold tally at 2. cbn [fst snd]. rewrite !filter_cons. rewrite !u32_idemp_add.
  destruct (p f); cbn [fst snd]; rewrite IH; cbn [decide]; repeat case_decide; try done;
    cbn [length]; f_equal; f_equal; lia.
Qed.

Lemma count_frames_spec (first : KState → option Z) (p : Frame_Info → bool) s l xs :
  dll (frames_info (frames s)) l xs → first s = lh_first l →
  frames_listed (number_of_frames (frames s)) xs →
  count_frames first p s =
    Ret (u32 (Z.of_nat (length (filter (λ f, p (frame_at s f) = true) xs))),
         u32 (Z.of_nat (length (filter (λ f, p (frame_at s f) = false) xs)))) s.
Proof.
  intros Hd Hf Hl. pose proof Hd as (Hfirst & _ & _ & Hnd & _).
  unfold count_frames, frame_fuel. rewrite !bind_gets, Hf, Hfirst.
  rewrite (list_loop_fold (frames_info ∘ frames) _ _ (tally (λ f, p (frame_at s f))) _ l xs);
    [|done| |].
  - change (0, 0) with (u32 0, u32 0). by rewrite tally_counts.
  - intros [y n] f _. unfold get_frame. rewrite bind_gets. unfold tally. fold (frame_at s f).
    by case_match.
  - pose proof (NoDup_bounded xs _ Hnd Hl). lia.
Qed.

(** ** Properties *)

(** C3: any run of allocate_frame, increment_references and decrement_references within the
    contract behaves as the abstract allocator: each call returns, allocation hands out the head
    of the free sequence, a frame whose count drops to zero goes back to its head, the links, size
    and reference counts of [frames_info] represent the resulting state, and no other part of the
    kernel state changes. *)
Theorem frame_allocator_refines `{Extern} ops s a rs a' :
  allocator s a → (∀ f, 0 ≤ a.2 !!! f < 65536) → fspecs ops a = Some (rs, a') →
  ∃ s', fruns ops s = Ret rs s' ∧ allocator s' a' ∧ frames_only s s'.
Proof.
  revert s a rs. induction ops as [|op ops IH]; intros s a rs Ha Hm; cbn.
  { intros [= <- <-]. by exists s. }
  destruct (fspec op a) as [[r a1]|] eqn:Hop; [|done].
  destruct (fspecs ops a1) as [[rs1 a2]|] eqn:Hops; [|done]. intros [= <- <-].
  destruct (frun_refines op s a r a1 Hm Ha Hop) as (s1 & Hs1 & Ha1 & Ho1 & Hm1).
  destruct (IH s1 a1 rs1 Ha1 Hm1 Hops) as (s2 & Hs2 & Ha2 & Ho2).
  exists s2. mstep Hs1. mstep Hs2. split_and!; [done..|]. by etrans.
Qed.

(** C4: initialize_paging leaves on the free list exactly the frames of base memory from 3 to
    159 and the frames above the kernel's static data, each once; frames 0 to 2, the I/O hole and
    the kernel's image and boot-time data have one reference. *)
Theorem initialize_paging_free_frames disk s :
  frames_info (frames s) = ∅ → boot_pages s →
  PHYS_EXTENDED_MEM ≤ ptr_free_mem (boot s) - KERNEL_BASE →
  is_u32 (ptr_free_mem (boot s)) → range_end s ≤ number_of_frames (frames s) →
  ∃ s' m, initialize_paging disk s = disk s' ∧
    allocator s' (reverse (seqZ 3 157 ++ seqZ (range_end s) (number_of_frames (frames s) - range_end s)), m) ∧
    ∀ f, m !!! f = boot_references (range_end s) f.
Proof.
  intros Hinit Hpages Hmem Hu Hn. rewrite initialize_paging_eq.
  destruct (start_paging_spec s Hinit Hpages) as (s1 & m1 & Hs1 & Ha1 & Hm1 & Hn1 & [Hf1 _] & _).
  assert (range_end s1 = range_end s) as Hre by (unfold range_end; by rewrite Hf1).
  mstep Hs1.
  destruct (mark_ranges_spec disk s1 m1 Ha1 Hm1) as (s2 & m2 & Hs2 & _ & Ha2 & Hm2);
    [by rewrite Hf1|by rewrite Hf1|by rewrite Hre, Hn1|].
  rewrite Hre, Hn1 in *. exists s2, m2. exact (conj Hs2 (conj Ha2 Hm2)).
Qed.

(** The zero page that pf_add_empty_env_page copies to disk is cleared for its first 256 words
    only; the other 768 words keep whatever memory held before boot. *)
Theorem zero_page_partly_cleared disk s :
  frames_info (frames s) = ∅ → boot_pages s →
  PHYS_EXTENDED_MEM ≤ ptr_free_mem (boot s) - KERNEL_BASE →
  is_u32 (ptr_free_mem (boot s)) → range_end s ≤ number_of_frames (frames s) →
  ∃ s', initialize_paging disk s = disk s' ∧
    (∀ i, 0 ≤ i < 256 → get_word s' (word 1 i) = 0) ∧
    (∀ i, 256 ≤ i < 1024 → get_word s' (word 1 i) = get_word s (word 1 i)).
Proof.
  intros Hinit Hpages Hmem Hu Hn. rewrite initialize_paging_eq.
  destruct (start_paging_spec s Hinit Hpages) as (s1 & m1 & Hs1 & Ha1 & Hm1 & Hn1 & [Hf1 _] & _ & _ & Hz).
  assert (range_end s1 = range_end s) as Hre by (unfold range_end; by rewrite Hf1).
  mstep Hs1.
  destruct (mark_ranges_spec disk s1 m1 Ha1 Hm1) as (s2 & m2 & Hs2 & (h & l & ->) & _);
    [by rewrite Hf1|by rewrite Hf1|by rewrite Hre, Hn1|].
  eexists. split; [exact Hs2|].
  change (get_word (with_free h l s1)) with (get_word s1).
  assert (∀ i, 0 ≤ i < 1024 → get_word s1 (word 1 i) = if i <? 256 then 0 else get_word s (word 1 i)) as H1.
  { intros i Hi. rewrite Hz by first [lia | by left]. unfold zeroed. change (1024 / 4) with 256.
    case_match; [done|]. case_match; [|done]. change (2 ^ _) with 1. rewrite Z.mod_1_r. lia. }
  split; intros i Hi; rewrite H1 by lia.
  - by rewrite (proj2 (Z.ltb_lt _ _)) by lia.
  - by rewrite (proj2 (Z.ltb_ge _ _)) by lia.
Qed.

(** Memory still holds words. *)
Lemma zeroed_u32 k i w : 0 ≤ k → is_u32 w → is_u32 (zeroed k i w).
Proof.
  unfold zeroed, is_u32. intros Hk Hw. case_match; [lia|]. case_match; [|done].
  pose proof (Z.mod_pos_bound w (2 ^ (8 * (k `mod` 4)))) as Hm. pose proof (Z.mod_le w (2 ^ (8 * (k `mod` 4)))) as Hl.
  assert (0 < 2 ^ (8 * (k `mod` 4))) by (apply Z.pow_pos_nonneg; [lia|]; pose proof (Z.mod_pos_bound k 4); lia). lia.
Qed.
Lemma paging_words s s' :
  paging_keeps s s' → paging_sets s s' → (∀ j, is_u32 (get_word s j)) → ∀ j, is_u32 (get_word s' j).
Proof.
  intros (_ & _ & _ & _ & Hw) (_ & _ & Hz) Hs j. destruct (decide (j `div` 1024 ∈ [1; 2])) as [Hj|Hj].
  - assert (j = word (j `div` 1024) (j `mod` 1024)) as -> by (unfold word; zdiv).
    rewrite Hz by (done || zdiv). apply zeroed_u32; [lia|done].
  - rewrite Hw; [done|]. intros f i Hf Hi ->. apply Hj. unfold word. by rewrite Z_div_mul_small.
Qed.

(** Calculate_available_frames returns the number of buffered and unbuffered frames of the
    free list and the length of the modified list, and changes nothing. *)
Theorem calculate_available_frames_counts s xs ys :
  dll (frames_info (frames s)) (free_frame_list (frames s)) xs →
  dll (frames_info (frames s)) (modified_frame_list (frames s)) ys →
  frames_listed (number_of_frames (frames s)) xs → frames_listed (number_of_frames (frames s)) ys →
  number_of_frames (frames s) < 2 ^ 32 →
  calculate_available_frames s =
    Ret (MkCounters (Z.of_nat (length (filter (λ f, isBuffered (frame_at s f) ≠ 0) xs)))
                    (Z.of_nat (length (filter (λ f, isBuffered (frame_at s f) = 0) xs)))
                    (Z.of_nat (length ys))) s.
Proof.
  intros Hx Hy Lx Ly Hn. unfold calculate_available_frames.
  mstep (count_frames_spec (λ s, lh_first (free_frame_list (frames s)))
    (λ x, negb (isBuffered x =? 0)) s _ xs Hx eq_refl Lx).
  mstep (count_frames_spec (λ s, lh_first (modified_frame_list (frames s))) (λ _, true) s _ ys Hy eq_refl Ly).
  cbn [fst snd].
  pose proof (NoDup_bounded xs _ ltac:(apply Hx) Lx). pose proof (NoDup_bounded ys _ ltac:(apply Hy) Ly).
  assert (∀ (P : Z → Prop) `{∀ x, Decision (P x)} zs,
    (length zs ≤ Z.to_nat (number_of_frames (frames s)))%nat →
    u32 (Z.of_nat (length (filter P zs))) = Z.of_nat (length (filter P zs))) as Hsmall.
  { intros P ? zs Hz. apply u32_small. pose proof (length_filter P zs). unfold is_u32. lia. }
  rewrite !Hsmall by done. unfold mret, M_ret. do 2 f_equal.
  - f_equal. f_equal. apply list_filter_iff. intros f. rewrite negb_true_iff. apply Z.eqb_neq.
  - f_equal. f_equal. apply list_filter_iff. intros f. rewrite negb_false_iff. apply Z.eqb_eq.
  - f_equal. f_equal. clear. induction ys as [|y ys IH]; [done|]. by rewrite filter_cons_True, IH.
Qed.

(** ** Witnesses *)

(** A kernel none of whose nested calls returns: the examples make none. *)
Definition no_nesting : Extern := {|
  x_kmalloc := λ _ _, OutOfFuel; x_fault_handler := λ _, OutOfFuel;
  x_pf_read_env_table := λ _ _ _ _, OutOfFuel; x_pf_write_env_table := λ _ _ _ _, OutOfFuel |}.

(** Three free frames, 5, 4 and 3. *)
Definition three_free : KState :=
  with_free
    (<[5 := MkFrame (Some 4) None 0 0 None 0]>
     (<[4 := MkFrame (Some 3) (Some 5) 0 0 None 0]>
      (<[3 := MkFrame None (Some 4) 0 0 None 0]> ∅)))
    (MkListHead (Some 5) (Some 3) 3) (on_frames (set_number_of_frames 8) inhabitant).
Lemma three_free_frame f : isBuffered (frame_at three_free f) = 0 ∧ references (frame_at three_free f) = 0.
Proof.
  unfold frame_at, three_free. cbn [frames with_free set_frames frames_info].
  destruct (decide (5 = f)) as [<-|]; [done|]. rewrite array_get_set_ne by done.
  destruct (decide (4 = f)) as [<-|]; [done|]. rewrite array_get_set_ne by done.
  destruct (decide (3 = f)) as [<-|]; [done|]. rewrite array_get_set_ne by done. done.
Qed.
Lemma three_free_dll :
  dll (frames_info (frames three_free)) (free_frame_list (frames three_free)) [5; 4; 3].
Proof. unfold dll. split_and!; [by vm_compute..|by apply (bool_decide_unpack _)|by vm_compute]. Qed.
Lemma three_free_allocator : allocator three_free ([5; 4; 3], ∅).
Proof.
  split; [apply three_free_dll|]. split; intros f.
  - intros _. split; [apply three_free_frame|apply zero_array].
  - rewrite zero_array. apply three_free_frame.
Qed.

Lemma frame_allocator_refines_witness :
  ∃ s', @fruns no_nesting [FAlloc; FRetain 5; FAlloc; FRelease 5; FAlloc] three_free =
          Ret [Some 5; None; Some 4; None; Some 5] s' ∧
        allocator s' ([3], {[5 := 0]}).
Proof.
  destruct (@frame_allocator_refines no_nesting [FAlloc; FRetain 5; FAlloc; FRelease 5; FAlloc] three_free
    ([5; 4; 3], ∅) [Some 5; None; Some 4; None; Some 5] ([3], {[5 := 0]})) as (s' & ? & ? & _).
  - apply three_free_allocator.
  - intros f. cbn. by rewrite zero_array.
  - vm_compute. reflexivity.
  - by exists s'.
Defined.

Lemma calculate_available_frames_counts_witness :
  calculate_available_frames three_free = Ret (MkCounters 0 3 0) three_free.
Proof.
  apply (calculate_available_frames_counts three_free [5; 4; 3] []).
  - apply three_free_dll.
  - unfold dll. split_and!; try done. constructor.
  - intros f Hf. cbn. rewrite !elem_of_cons, elem_of_nil in Hf. lia.
  - intros f Hf. by apply elem_of_nil in Hf.
  - cbn. lia.
Defined.

(** A machine with 1024 frames whose kernel ends at frame 304: the directory is frame 300, its one
    table, frame 301, maps pages 1 and 2 of the kernel; memory was not clear when it started. *)
Definition boot_state : KState :=
  on_boot (set_ptr_free_mem (KERNEL_BASE + 0x130000))
  (on_frames (set_number_of_frames 1024)
  (on_hw (λ h, set_cr3 (300 * PAGE_SIZE)
    (set_mem (<[word 300 960 := 301 * PAGE_SIZE + 3]> (<[word 301 1 := 1 * PAGE_SIZE + 3]>
             (<[word 301 2 := 2 * PAGE_SIZE + 3]> (<[word 1 500 := 77]> ∅)))) h)) inhabitant)).
Lemma boot_state_words j : is_u32 (get_word boot_state j).
Proof.
  unfold get_word, boot_state. cbn [hw mem on_hw set_mem set_hw on_boot set_boot set_frames on_frames set_cr3].
  destruct (decide (word 300 960 = j)) as [<-|]; [done|]. rewrite array_get_set_ne by done.
  destruct (decide (word 301 1 = j)) as [<-|]; [done|]. rewrite array_get_set_ne by done.
  destruct (decide (word 301 2 = j)) as [<-|]; [done|]. rewrite array_get_set_ne by done.
  destruct (decide (word 1 500 = j)) as [<-|]; [done|]. rewrite array_get_set_ne by done. done.
Qed.
Lemma boot_state_pages : boot_pages boot_state.
Proof.
  assert (∀ a, walk_of boot_state a = walk_of boot_state ZERO_PAGE ∨
               walk_of boot_state a = walk_of boot_state TEMP_PAGE →
               clear_of [1; 2] boot_state a) as Hc.
  { intros a Ha f i Hf Hi. rewrite !elem_of_cons, elem_of_nil in Hf.
    assert (walk_of boot_state ZERO_PAGE = [word 300 960; word 301 1]) as H1 by (vm_compute; reflexivity).
    assert (walk_of boot_state TEMP_PAGE = [word 300 960; word 301 2]) as H2 by (vm_compute; reflexivity).
    destruct Ha as [-> | ->]; rewrite ?H1, ?H2; unfold word;
      rewrite !elem_of_cons, elem_of_nil; lia. }
  unfold boot_pages. split_and!; [split_and!; by vm_compute..|apply Hc; by left|apply Hc; by right|
    apply boot_state_words].
Qed.

Lemma initialize_paging_free_frames_witness :
  ∃ s', initialize_paging (mret tt) boot_state = Ret tt s' ∧
    ∃ m, allocator s' (reverse (seqZ 3 157 ++ seqZ 304 720), m) ∧ m !!! 200 = 1 ∧ m !!! 304 = 0.
Proof.
  destruct (initialize_paging_free_frames (mret tt) boot_state) as (s' & m & Hs' & Ha & Hm);
    [done|apply boot_state_pages|by vm_compute..|].
  exists s'. split; [exact Hs'|]. exists m. clear Hs'.
  assert (range_end boot_state = 304) as Hre by (vm_compute; reflexivity). rewrite Hre in Ha, Hm.
  split; [exact Ha|]. rewrite !Hm. split; reflexivity.
Defined.

Lemma zero_page_partly_cleared_witness :
  ∃ s', initialize_paging (mret tt) boot_state = Ret tt s' ∧ get_word s' (word 1 500) = 77.
Proof.
  destruct (zero_page_partly_cleared (mret tt) boot_state) as (s' & Hs' & _ & Ho);
    [done|apply boot_state_pages|by vm_compute..|].
  exists s'. split; [exact Hs'|]. by rewrite Ho by lia.
Defined.
