(* ===== verification/Paging.v ===== *)
(** * Page tables and mappings

    kern/memory_manager.c: get_page_table, create_page_table, map_frame, get_frame_info,
    unmap_frame, loadtime_map_frame, the frames storage, calculate_required_frames; kern/kheap.c:
    kheap_physical_address.  A page directory is designated by its kernel virtual address, NULL
    is 0.  [USE_KHEAP] is 1 in inc/memlayout.h: the branches for 0 are compiled out. *)
From S2P Require Import Prelude Machine Queue State PageFlags FrameAlloc.

Definition TABLE_IN_MEMORY : Z := 0.
Definition TABLE_NOT_EXIST : Z := 1.

Section Paging.
Context `{Extern}.

(** The results are the return value and [*ptr_page_table]. *)
Definition get_page_table (ptr_page_directory virtual_address : Z) : K (Z * Z) :=
  page_directory_entry ← load_at ptr_page_directory (PDX virtual_address);
  ptr_page_table ← table_address virtual_address page_directory_entry;
  if has_perm page_directory_entry PERM_PRESENT then mret (TABLE_IN_MEMORY, ptr_page_table)
  else if negb (page_directory_entry =? 0) then
    lcr2 virtual_address;;
    x_fault_handler;;
    page_directory_entry ← load_at ptr_page_directory (PDX virtual_address);
    ptr_page_table ← table_address virtual_address page_directory_entry;
    mret (TABLE_IN_MEMORY, ptr_page_table)
  else mret (TABLE_NOT_EXIST, 0).

Definition kheap_physical_address (virtual_address : Z) : K Z :=
  pgdir ← gets (ptr_page_directory ∘ boot);
  '(_, pageTable) ← get_page_table pgdir virtual_address;
  e ← load_at pageTable (PTX virtual_address);
  let physical := Z.shiftr e 12 in
  mret (u32 (physical * PAGE_SIZE)).

Definition create_page_table (ptr_page_directory virtual_address : Z) : K Z :=
  page_table_addr ← x_kmalloc PAGE_SIZE;
  if page_table_addr =? 0 then mret 0 else
  pa ← kheap_physical_address page_table_addr;
  forM (seqZ 0 1024) (λ i, store_at page_table_addr i 0);;
  store_at ptr_page_directory (PDX virtual_address)
    (Z.lor (Z.lor (Z.lor (Z.land pa 0xFFFFF000) PERM_USER) PERM_WRITEABLE) PERM_PRESENT);;
  mret page_table_addr.

Definition __static_cpt (ptr_page_directory virtual_address : Z) : K Z :=
  ptr_new_frame_info ← allocate_frame;
  let phys_page_table := to_physical_address ptr_new_frame_info in
  ptr_page_table ← STATIC_KERNEL_VIRTUAL_ADDRESS phys_page_table;
  upd_frame ptr_new_frame_info (set_references 1);;
  store_at ptr_page_directory (PDX virtual_address)
    (CONSTRUCT_ENTRY phys_page_table (Z.lor (Z.lor PERM_PRESENT PERM_USER) PERM_WRITEABLE));;
  memset0 ptr_page_table 1024;;
  tlbflush;;
  mret ptr_page_table.

(** [get_page_table], creating the table when there is none. *)
Definition get_or_create_table (ptr_page_directory virtual_address : Z) : K Z :=
  '(r, ptr_page_table) ← get_page_table ptr_page_directory virtual_address;
  if r =? TABLE_NOT_EXIST then create_page_table ptr_page_directory virtual_address
  else mret ptr_page_table.

(** The result is the frame, if any, and [*ptr_page_table]. *)
Definition get_frame_info (ptr_page_directory virtual_address : Z) : K (option Z * Z) :=
  '(_, ptr_page_table) ← get_page_table ptr_page_directory virtual_address;
  if negb (ptr_page_table =? 0) then
    page_table_entry ← load_at ptr_page_table (PTX virtual_address);
    if negb (page_table_entry =? 0) then
      f ← to_frame_info (EXTRACT_ADDRESS page_table_entry);
      mret (Some f, ptr_page_table)
    else mret (None, ptr_page_table)
  else mret (None, ptr_page_table).

Definition unmap_frame (ptr_page_directory virtual_address : Z) : K unit :=
  '(ptr_frame_info, ptr_page_table) ← get_frame_info ptr_page_directory virtual_address;
  match ptr_frame_info with
  | None => mret tt
  | Some f =>
      decrement_references f;;
      store_at ptr_page_table (PTX virtual_address) 0;;
      tlb_invalidate ptr_page_directory virtual_address
  end.

Definition map_frame (ptr_page_directory ptr_frame_info virtual_address perm : Z) : K Z :=
  let physical_address := to_physical_address ptr_frame_info in
  ptr_page_table ← get_or_create_table ptr_page_directory virtual_address;
  page_table_entry ← load_at ptr_page_table (PTX virtual_address);
  if has_perm page_table_entry PERM_PRESENT &&
     (EXTRACT_ADDRESS page_table_entry =? physical_address)
  then mret 0
  else
    when (has_perm page_table_entry PERM_PRESENT) (unmap_frame ptr_page_directory virtual_address);;
    increment_references ptr_frame_info;;
    store_at ptr_page_table (PTX virtual_address)
      (CONSTRUCT_ENTRY physical_address (Z.lor perm PERM_PRESENT));;
    mret 0.

Definition loadtime_map_frame (ptr_page_directory ptr_frame_info virtual_address perm : Z) : K Z :=
  let physical_address := to_physical_address ptr_frame_info in
  page_directory_entry ← load_at ptr_page_directory (PDX virtual_address);
  ptr_page_table ← table_address virtual_address page_directory_entry;
  ptr_page_table ← (if page_directory_entry =? 0
                    then create_page_table ptr_page_directory virtual_address
                    else mret ptr_page_table);
  increment_references ptr_frame_info;;
  store_at ptr_page_table (PTX virtual_address)
    (CONSTRUCT_ENTRY physical_address (Z.lor perm PERM_PRESENT));;
  mret 0.

(** ** The storage of frames: a directory used as an array of frames *)
Definition add_frame_to_storage (frames_storage ptr_frame_info index : Z) : K unit :=
  let va := u32 (index * PAGE_SIZE) in
  ptr_page_table ← get_or_create_table frames_storage va;
  store_at ptr_page_table (PTX va)
    (CONSTRUCT_ENTRY (to_physical_address ptr_frame_info) (Z.lor 0 PERM_PRESENT)).

Definition get_frame_from_storage (frames_storage index : Z) : K (option Z) :=
  let va := u32 (index * PAGE_SIZE) in
  '(f, _) ← get_frame_info frames_storage va;
  mret f.

(** ** Frames a range still needs *)
(** [for (; current < limit; current += step) if (missing current) count++;] *)
Definition count_loop (fuel : nat) (step limit : Z) (missing : Z → K bool) (start : Z) : K Z :=
  mloop fuel (λ '(current, count),
    if negb (current <? limit) then mret (inr count) else
    m ← missing current;
    mret (inl (u32 (current + step), if m : bool then u32 (count + 1) else count))) (start, 0).

Definition calculate_required_frames (ptr_page_directory start_virtual_address size : Z) : K Z :=
  let limit := u32 (start_virtual_address + size) in
  number_of_tables ← count_loop 1025 PTSIZE limit
    (λ va, '(_, t) ← get_page_table ptr_page_directory va; mret (t =? 0))
    (ROUNDDOWN start_virtual_address PTSIZE);
  number_of_pages ← count_loop (Z.to_nat (2 ^ 20 + 1)) PAGE_SIZE limit
    (λ va, '(f, _) ← get_frame_info ptr_page_directory va;
           mret (match f with None => true | Some _ => false end))
    (ROUNDDOWN start_virtual_address PAGE_SIZE);
  mret (u32 (number_of_tables + number_of_pages)).
End Paging.
