(* ===== verification/PagingSpec.v ===== *)
(** * What mapping and unmapping a page do

    [has_table s dir va t df tf] describes a directory, at kernel address [dir] in frame [df], whose
    entry for [va] designates a table in memory, at kernel address [t] in frame [tf].  On such an
    address get_page_table finds the table, and map_frame and unmap_frame change one word of
    memory, the page-table entry, and the reference counts as the allocator of FrameAllocSpec.v
    prescribes; the translation of every address whose walk does not read that word is kept. *)
From S2P Require Import Prelude Machine Queue State AddressSpace PageFlags FrameAlloc FrameAllocSpec Paging.

(** ** Entries *)
Lemma to_physical_address_eq f : 0 ≤ f < 2 ^ 20 → to_physical_address f = f * PAGE_SIZE.
Proof.
  intros Hf. unfold to_physical_address, to_frame_number, PGSHIFT.
  rewrite Z.shiftl_mul_pow2 by done. apply u32_small. unfold is_u32, PAGE_SIZE. lia.
Qed.
Lemma frame_of_range e : 0 ≤ frame_of e < 2 ^ 20.
Proof. unfold frame_of, PAGE_SIZE. pose proof (u32_range e) as [? ?]. zdiv. Qed.
Lemma EXTRACT_frame_of e : EXTRACT_ADDRESS e = frame_of e * PAGE_SIZE.
Proof. apply EXTRACT_ADDRESS_eq. Qed.
Lemma PPN_EXTRACT e : PPN (EXTRACT_ADDRESS e) = frame_of e.
Proof.
  rewrite EXTRACT_frame_of, PPN_eq. pose proof (frame_of_range e).
  rewrite u32_small by (unfold is_u32, PAGE_SIZE; lia). by apply Z.div_mul.
Qed.

Lemma lor_disjoint a b n : 0 ≤ n → 0 ≤ b < 2 ^ n → Z.lor (a * 2 ^ n) b = a * 2 ^ n + b.
Proof.
  intros Hn Hb. rewrite <-Z.add_lor_land.
  assert (Z.land (a * 2 ^ n) b = 0) as ->; [|lia].
  apply Z.bits_inj'. intros k Hk. rewrite Z.land_spec, Z.bits_0, Z.mul_pow2_bits by done.
  destruct (decide (k < n)).
  - by rewrite (Z.testbit_neg_r _ (k - n)) by lia.
  - rewrite <-(Z.mod_small b (2 ^ n)) by lia. rewrite Z.mod_pow2_bits_high by lia. apply andb_false_r.
Qed.

Lemma log2_bound a n : 0 < n → 0 ≤ a < 2 ^ n → Z.log2 a < n.
Proof.
  intros Hn Ha. destruct (decide (a = 0)) as [->|]; [done|]. apply Z.log2_lt_pow2; lia.
Qed.
Lemma lor_bound a b n : 0 < n → 0 ≤ a < 2 ^ n → 0 ≤ b < 2 ^ n → 0 ≤ Z.lor a b < 2 ^ n.
Proof.
  intros Hn Ha Hb. split; [apply Z.lor_nonneg; lia|].
  destruct (decide (Z.lor a b = 0)) as [->|]; [apply Z.pow_pos_nonneg; lia|].
  assert (0 ≤ Z.lor a b) by (apply Z.lor_nonneg; lia). apply Z.log2_lt_pow2; [lia|].
  rewrite Z.log2_lor by lia. apply Z.max_lub_lt; by apply log2_bound.
Qed.

(** The entry map_frame writes. *)
Definition entry_for (f perm : Z) : Z := CONSTRUCT_ENTRY (to_physical_address f) (Z.lor perm PERM_PRESENT).

Section Entry.
Context (f perm : Z) (Hf : 0 ≤ f < 2 ^ 20) (Hperm : 0 ≤ perm < PAGE_SIZE).

Lemma perm_present_range : 0 ≤ Z.lor perm PERM_PRESENT < PAGE_SIZE.
Proof. apply (lor_bound _ _ 12); [lia|done|done]. Qed.
Lemma entry_for_eq : entry_for f perm = f * PAGE_SIZE + Z.lor perm PERM_PRESENT.
Proof.
  unfold entry_for, CONSTRUCT_ENTRY. rewrite to_physical_address_eq by done.
  apply (lor_disjoint _ _ 12); [lia|]. apply perm_present_range.
Qed.
Lemma entry_for_u32 : is_u32 (entry_for f perm).
Proof.
  rewrite entry_for_eq. pose proof perm_present_range. unfold is_u32, PAGE_SIZE in *. lia.
Qed.
Lemma frame_of_entry_for : frame_of (entry_for f perm) = f.
Proof.
  unfold frame_of. rewrite u32_small by apply entry_for_u32. rewrite entry_for_eq.
  apply Z_div_mul_small, perm_present_range.
Qed.
Lemma has_perm_entry_for p :
  0 ≤ p < PAGE_SIZE → has_perm (entry_for f perm) p = has_perm (Z.lor perm PERM_PRESENT) p.
Proof.
  intros Hp. unfold has_perm. f_equal. unfold entry_for, CONSTRUCT_ENTRY.
  rewrite Z.land_lor_distr_l. rewrite to_physical_address_eq by done.
  assert (Z.land (f * PAGE_SIZE) p = 0) as ->; [|done].
  pose proof (Z.add_lor_land (f * PAGE_SIZE) p) as Hal.
  pose proof (lor_disjoint f p 12 ltac:(lia) Hp). unfold PAGE_SIZE in *. change (2 ^ 12) with 4096 in *. lia.
Qed.
Lemma has_perm_bit a b : 0 < b → (∃ k, b = 2 ^ k ∧ 0 ≤ k) → has_perm (Z.lor a b) b = true.
Proof.
  intros Hb _. unfold has_perm. apply Z.eqb_eq. rewrite Z.land_comm, Z.lor_comm.
  apply Z.bits_inj'. intros k Hk. rewrite Z.land_spec, Z.lor_spec. by destruct (Z.testbit b k).
Qed.
Lemma entry_for_present : has_perm (entry_for f perm) PERM_PRESENT = true.
Proof.
  rewrite has_perm_entry_for by (unfold PERM_PRESENT, PAGE_SIZE; lia).
  apply has_perm_bit; [done|by exists 0].
Qed.
End Entry.

Lemma has_perm_zero p : 0 < p → has_perm 0 p = false.
Proof. intros. unfold has_perm. rewrite Z.land_0_l. apply Z.eqb_neq. lia. Qed.

(** ** A table in memory *)
Record has_table (s : KState) (dir va t df tf : Z) : Prop := {
  ht_dir : kpage s dir df;
  ht_present : has_perm (get_word s (word df (PDX va))) PERM_PRESENT = true;
  ht_addr : table_address va (get_word s (word df (PDX va))) s = Ret t s;
  ht_table : kpage s t tf;
  ht_null : t ≠ 0;
}.
Definition pte (s : KState) (va tf : Z) : Z := get_word s (word tf (PTX va)).
(** The entry's word is on the way to neither the directory nor the table. *)
Definition entry_apart (s : KState) (dir va t df tf : Z) : Prop :=
  word tf (PTX va) ∉ walk_of s dir ∧ word tf (PTX va) ∉ walk_of s t ∧
  word tf (PTX va) ≠ word df (PDX va).

Lemma table_address_frames_only s s' va e t :
  frames_only s s' → table_address va e s = Ret t s → table_address va e s' = Ret t s'.
Proof.
  intros (h & l & ->). unfold table_address, kheap_virtual_address, STATIC_KERNEL_VIRTUAL_ADDRESS.
  destruct (negb _).
  - unfold gets. cbn. by intros [= ->].
  - rewrite !bind_gets. cbn. case_match; [done|]. by intros [= ->].
Qed.
Lemma table_address_put s va e t j v :
  table_address va e s = Ret t s → table_address va e (put_word j v s) = Ret t (put_word j v s).
Proof.
  unfold table_address, kheap_virtual_address, STATIC_KERNEL_VIRTUAL_ADDRESS.
  destruct (negb _).
  - unfold gets. cbn. by intros [= ->].
  - rewrite !bind_gets. cbn. case_match; [done|]. by intros [= ->].
Qed.
(** An empty entry designates some address, which is not used. *)
Lemma table_address_none s va : 0 < number_of_frames (frames s) → ∃ t, table_address va 0 s = Ret t s.
Proof.
  intros Hn. unfold table_address, kheap_virtual_address, STATIC_KERNEL_VIRTUAL_ADDRESS.
  destruct (negb _); [by eexists|]. rewrite bind_gets. cbn [compose].
  change (PPN (EXTRACT_ADDRESS 0)) with 0. rewrite (proj2 (Z.leb_gt _ _)) by done. by eexists.
Qed.
Lemma kpage_frames_only s s' a f : frames_only s s' → kpage s a f → kpage s' a f.
Proof. intros (h & l & ->). done. Qed.
Lemma has_table_frames_only s s' dir va t df tf :
  frames_only s s' → has_table s dir va t df tf → has_table s' dir va t df tf.
Proof.
  intros Ho [H1 H2 H3 H4 H5]. pose proof Ho as (h & l & ->).
  split; [by eapply kpage_frames_only|done| |by eapply kpage_frames_only|done].
  by eapply table_address_frames_only.
Qed.
Lemma has_table_put s dir va t df tf j v :
  has_table s dir va t df tf → j ∉ walk_of s dir → j ∉ walk_of s t → j ≠ word df (PDX va) →
  has_table (put_word j v s) dir va t df tf.
Proof.
  intros [H1 H2 H3 H4 H5] Hd Ht Hj.
  split; rewrite ?get_put_ne by done; try done; [by apply kpage_put| |by apply kpage_put].
  by apply table_address_put.
Qed.

Section Table.
Context `{Extern} (s : KState) (dir va t df tf : Z) (Ht : has_table s dir va t df tf).

Lemma get_page_table_present : get_page_table dir va s = Ret (TABLE_IN_MEMORY, t) s.
Proof using Ht.
  destruct Ht as [H1 H2 H3 H4 H5]. unfold get_page_table.
  mstep (load_kpage s dir df H1 (PDX va) (PDX_range va)). mstep H3. by rewrite H2.
Qed.
Lemma get_or_create_table_present : get_or_create_table dir va s = Ret t s.
Proof using Ht. unfold get_or_create_table. by mstep get_page_table_present. Qed.
Lemma load_entry : load_at t (PTX va) s = Ret (pte s va tf) s.
Proof using Ht. apply (load_kpage s t tf); [apply Ht|apply PTX_range]. Qed.
Lemma store_entry v : store_at t (PTX va) v s = Ret tt (put_word (word tf (PTX va)) (u32 v) s).
Proof using Ht. apply (store_kpage s t tf); [apply Ht|apply PTX_range]. Qed.

Lemma get_frame_info_present :
  (pte s va tf ≠ 0 → frame_of (pte s va tf) < number_of_frames (frames s)) →
  get_frame_info dir va s =
    Ret (if pte s va tf =? 0 then None else Some (frame_of (pte s va tf)), t) s.
Proof using Ht.
  intros Hn. unfold get_frame_info. mstep get_page_table_present.
  rewrite (proj2 (Z.eqb_neq t 0)) by apply Ht. cbn [negb]. mstep load_entry.
  destruct (pte s va tf =? 0) eqn:He; cbn [negb]; [done|]. apply Z.eqb_neq in He.
  unfold to_frame_info. rewrite bind_assoc, bind_gets, PPN_EXTRACT. cbn [compose].
  by rewrite (proj2 (Z.leb_gt _ _)) by auto.
Qed.
End Table.

(** ** Unmapping and mapping *)

(** What changes: frame records, and the entry of [va] becomes [v]. *)
Definition entry_update (s s' : KState) (va tf v : Z) : Prop :=
  ∃ s1, frames_only s s1 ∧ s' = put_word (word tf (PTX va)) v s1.
Definition counts_ok (a : astate) : Prop := ∀ f, 0 ≤ a.2 !!! f < 65536.

Lemma entry_update_pte s s' va tf v : entry_update s s' va tf v → pte s' va tf = v.
Proof. intros (s1 & _ & ->). apply get_put_eq. Qed.
Lemma entry_update_other s s' va tf v j :
  entry_update s s' va tf v → j ≠ word tf (PTX va) → get_word s' j = get_word s j.
Proof. intros (s1 & (h & l & ->) & ->) Hj. by rewrite get_put_ne. Qed.
(** Addresses whose walk does not read the entry are translated as before. *)
Lemma entry_update_mmu s s' va tf v root va' w :
  entry_update s s' va tf v → word tf (PTX va) ∉ walk (mem (hw s)) root va' →
  mmu (mem (hw s')) root va' w = mmu (mem (hw s)) root va' w.
Proof. intros (s1 & (h & l & ->) & ->) Hj. by apply mmu_insert. Qed.

(** The translation of [va] itself, in the directory of frame [df]. *)
Lemma mmu_entry s root df va tf :
  frame_of root = df → frame_of (get_word s (word df (PDX va))) = tf →
  mmu (mem (hw s)) root va false =
    if has_perm (get_word s (word df (PDX va))) PERM_PRESENT && has_perm (pte s va tf) PERM_PRESENT
    then Some (frame_of (pte s va tf) * PAGE_SIZE + PGOFF va) else None.
Proof.
  intros <- <-. unfold mmu, entry_allows, pte, get_word. cbn [negb orb]. by rewrite !andb_true_r.
Qed.

Lemma put_word_same j v s : get_word s j = v → v ≠ 0 → put_word j v s = s.
Proof.
  intros Hv Hnz. destruct s as [[m]]. unfold put_word, on_hw, get_word in *. cbn in *.
  assert (<[j := v]> m = m) as Hm; [|unfold set_mem, set_hw; cbn; by rewrite Hm].
  apply insert_id. rewrite lookup_total_alt in Hv.
  destruct (m !! j); cbn in Hv; [by subst|]. subst. by destruct Hnz.
Qed.
Lemma entry_update_put s s' va tf v v' :
  entry_update s s' va tf v → entry_update s (put_word (word tf (PTX va)) v' s') va tf v'.
Proof.
  intros (s1 & Ho & ->). exists s1. split; [done|]. unfold put_word, on_hw. cbn.
  by rewrite array_set_set.
Qed.
Lemma entry_update_frames_only s s1 s2 va tf v :
  entry_update s s1 va tf v → frames_only s1 s2 → entry_update s s2 va tf v.
Proof.
  intros (s0 & Ho & ->) (h & l & ->). exists (with_free h l s0). split; [|done].
  etrans; [done|]. by exists h, l.
Qed.
Lemma has_table_entry_update s s' dir va t df tf v :
  has_table s dir va t df tf → entry_apart s dir va t df tf → entry_update s s' va tf v →
  has_table s' dir va t df tf.
Proof.
  intros Ht (Hd & Htt & Hne) (s1 & Ho & ->).
  apply has_table_put; [by eapply has_table_frames_only|..]; destruct Ho as (h & l & ->); done.
Qed.

Section Mapping.
Context `{Extern} (dir va t df tf : Z).

Lemma unmap_frame_nothing s :
  has_table s dir va t df tf → pte s va tf = 0 → unmap_frame dir va s = Ret tt s.
Proof.
  intros Ht He. unfold unmap_frame.
  mstep (get_frame_info_present s dir va t df tf Ht ltac:(done)). by rewrite He.
Qed.
Lemma unmap_frame_mapped s a a' :
  has_table s dir va t df tf → pte s va tf ≠ 0 →
  frame_of (pte s va tf) < number_of_frames (frames s) →
  allocator s a → counts_ok a → fspec (FRelease (frame_of (pte s va tf))) a = Some (None, a') →
  ∃ s', unmap_frame dir va s = Ret tt s' ∧ entry_update s s' va tf 0 ∧ allocator s' a'.
Proof.
  intros Ht He Hn Ha Hc Hop.
  destruct (frun_refines (FRelease (frame_of (pte s va tf))) s a None a' Hc Ha Hop) as (s1 & Hs1 & Ha1 & Ho & _).
  apply bind_Ret_inv in Hs1 as ([] & s2 & Hs1 & [= <-]).
  exists (put_word (word tf (PTX va)) 0 s2). split_and!; [|by exists s2|by eapply allocator_frames].
  unfold unmap_frame. mstep (get_frame_info_present s dir va t df tf Ht ltac:(done)).
  rewrite (proj2 (Z.eqb_neq _ _)) by done. mstep Hs1.
  by mstep (store_entry s2 dir va t df tf (has_table_frames_only _ _ _ _ _ _ _ Ho Ht) 0).
Qed.

(** The reference operations of map_frame. *)
Definition map_ops (e f : Z) : list fop :=
  if has_perm e PERM_PRESENT
  then if frame_of e =? f then [] else [FRelease (frame_of e); FRetain f]
  else [FRetain f].
Definition mapped_entry (e f perm : Z) : Z :=
  if has_perm e PERM_PRESENT && (frame_of e =? f) then e else entry_for f perm.

(** The tail of map_frame: count the new reference, write the entry. *)
Lemma map_frame_store s s1 f perm a r a' :
  has_table s1 dir va t df tf → frames_only s s1 ∨ (∃ v, entry_update s s1 va tf v) →
  0 ≤ f < 2 ^ 20 → 0 ≤ perm < PAGE_SIZE →
  allocator s1 a → counts_ok a → fspec (FRetain f) a = Some (r, a') →
  ∃ s', (increment_references f;;
         store_at t (PTX va) (CONSTRUCT_ENTRY (to_physical_address f) (Z.lor perm PERM_PRESENT));;
         mret 0) s1 = Ret 0 s' ∧ allocator s' a' ∧ entry_update s s' va tf (entry_for f perm).
Proof.
  intros Ht Hs Hf Hperm Ha Hc Hop.
  destruct (frun_refines (FRetain f) s1 a r a' Hc Ha Hop) as (s2 & Hs2 & Ha2 & Ho & _).
  apply bind_Ret_inv in Hs2 as ([] & s3 & Hs2 & [= <- <-]).
  exists (put_word (word tf (PTX va)) (entry_for f perm) s3). split_and!.
  - mstep Hs2. mstep (store_entry s3 dir va t df tf (has_table_frames_only _ _ _ _ _ _ _ Ho Ht)
      (entry_for f perm)). by rewrite u32_small by (by apply entry_for_u32).
  - by eapply allocator_frames.
  - destruct Hs as [Hs|[v Hs]].
    + exists s3. split; [by etrans|done].
    + eapply entry_update_put, entry_update_frames_only; done.
Qed.

Lemma map_frame_spec s f perm a rs a' :
  has_table s dir va t df tf → entry_apart s dir va t df tf →
  (has_perm (pte s va tf) PERM_PRESENT = true → frame_of (pte s va tf) < number_of_frames (frames s)) →
  0 ≤ f < 2 ^ 20 → 0 ≤ perm < PAGE_SIZE →
  allocator s a → counts_ok a → fspecs (map_ops (pte s va tf) f) a = Some (rs, a') →
  ∃ s', map_frame dir f va perm s = Ret 0 s' ∧ allocator s' a' ∧
        entry_update s s' va tf (mapped_entry (pte s va tf) f perm).
Proof.
  intros Ht Hap Hn Hf Hperm Ha Hc. unfold map_frame.
  mstep (get_or_create_table_present s dir va t df tf Ht). mstep (load_entry s dir va t df tf Ht).
  set (e := pte s va tf) in *. rewrite EXTRACT_frame_of.
  replace (frame_of e * PAGE_SIZE =? to_physical_address f) with (frame_of e =? f)
    by (rewrite to_physical_address_eq by done; unfold PAGE_SIZE; destruct (Z.eqb_spec (frame_of e) f), (Z.eqb_spec (frame_of e * 4096) (f * 4096)); lia).
  unfold map_ops, mapped_entry. destruct (has_perm e PERM_PRESENT) eqn:Hpres; cbn [andb when].
  - destruct (frame_of e =? f) eqn:Heq.
    + cbn. intros [= <- <-]. exists s. split_and!; [done|done|]. exists s. split; [done|].
      symmetry. apply put_word_same; [done|]. intros He. by rewrite He in Hpres.
    + intros Hops. cbn [fspecs] in Hops.
      destruct (fspec (FRelease (frame_of e)) a) as [[r a1]|] eqn:Hrel; [|done].
      assert (r = None) as -> by (unfold fspec in Hrel; destruct a; repeat case_match; by simplify_eq).
      destruct (unmap_frame_mapped s a a1 Ht) as (s1 & Hs1 & Hu1 & Ha1);
        [by intros He; fold e in He; rewrite He in Hpres|by apply Hn|done..|].
      assert (counts_ok a1) as Hc1 by (by destruct (frun_refines _ s a None a1 Hc Ha Hrel) as (? & _ & _ & _ & ?)).
      destruct (fspec (FRetain f) a1) as [[r a2]|] eqn:Hret; [|done]. injection Hops as _ <-.
      mstep Hs1.
      apply (map_frame_store s s1 f perm a1 r a2); [|by right; eexists|done..].
      by eapply has_table_entry_update.
  - intros Hops. cbn [fspecs] in Hops.
    destruct (fspec (FRetain f) a) as [[r a2]|] eqn:Hret; [|done]. injection Hops as _ <-.
    rewrite bind_mret. apply (map_frame_store s s f perm a r a2); try done. by left.
Qed.
End Mapping.

(** ** Permissions *)
Section Permissions.
Context `{Extern} (e va t df tf : Z).

Definition env_has_table (s : KState) : Prop :=
  has_table s (env_page_directory (envs (environments s) !!! e)) va t df tf ∧
  entry_apart s (env_page_directory (envs (environments s) !!! e)) va t df tf.
Lemma env_has_table_put s v :
  env_has_table s → env_has_table (put_word (word tf (PTX va)) v s).
Proof.
  intros [Ht (Hd & Htt & Hne)]. split; [by apply has_table_put|].
  unfold entry_apart. by rewrite !walk_put.
Qed.
Lemma update_entry_table s g :
  env_has_table s →
  update_entry t (PTX va) g s = Ret tt (put_word (word tf (PTX va)) (u32 (g (pte s va tf))) s).
Proof.
  intros [Ht _]. unfold update_entry. mstep (load_entry s _ va t df tf Ht).
  apply (store_entry s _ va t df tf Ht).
Qed.

Definition permissions_updated (v set clear : Z) : Z :=
  u32 (Z.land (u32 (Z.lor v set)) (not32 clear)).
Lemma pt_set_page_permissions_spec s set clear :
  env_has_table s →
  pt_set_page_permissions e va set clear s =
    Ret tt (put_word (word tf (PTX va)) (permissions_updated (pte s va tf) set clear) s).
Proof.
  intros He. pose proof He as [[H1 H2 H3 H4 H5] _]. unfold pt_set_page_permissions, get_env.
  rewrite bind_gets. mstep (load_kpage s _ df H1 (PDX va) (PDX_range va)).
  rewrite H2, bind_assoc. mstep H3. rewrite bind_assoc.
  mstep (update_entry_table s (λ v, Z.lor v set) He).
  set (s1 := put_word _ _ s). assert (env_has_table s1) as He1 by (by apply env_has_table_put).
  mstep (update_entry_table s1 (λ v, Z.land v (not32 clear)) He1).
  unfold tlb_invalidate, mret, M_ret, pte, s1. rewrite get_put_eq. unfold put_word, on_hw. cbn.
  by rewrite array_set_set.
Qed.
Lemma pt_get_page_permissions_spec s :
  env_has_table s → pt_get_page_permissions e va s = Ret (Z.land (pte s va tf) 0xFFF) s.
Proof.
  intros He. pose proof He as [Ht _]. pose proof Ht as [H1 H2 H3 H4 H5].
  unfold pt_get_page_permissions, get_env. rewrite bind_gets.
  mstep (load_kpage s _ df H1 (PDX va) (PDX_range va)). rewrite H2. mstep H3.
  by mstep (load_entry s _ va t df tf Ht).
Qed.
Lemma pt_clear_page_table_entry_spec s :
  env_has_table s → pt_clear_page_table_entry e va s = Ret tt (put_word (word tf (PTX va)) 0 s).
Proof.
  intros He. pose proof He as [Ht _]. pose proof Ht as [H1 H2 H3 H4 H5].
  unfold pt_clear_page_table_entry, get_env. rewrite bind_gets.
  mstep (load_kpage s _ df H1 (PDX va) (PDX_range va)). rewrite H2, bind_assoc. mstep H3.
  by mstep (store_entry s _ va t df tf Ht 0).
Qed.
End Permissions.

(** Flags and address bits are independent. *)
Lemma u32_testbit x n : 0 ≤ n < 32 → Z.testbit (u32 x) n = Z.testbit x n.
Proof. intros. unfold u32. apply Z.mod_pow2_bits_low. lia. Qed.
Lemma not32_testbit x n : 0 ≤ n < 32 → Z.testbit (not32 x) n = negb (Z.testbit x n).
Proof. intros. unfold not32. rewrite u32_testbit by done. apply Z.lnot_spec. lia. Qed.
Lemma permissions_updated_testbit v set clear n :
  0 ≤ n < 32 →
  Z.testbit (permissions_updated v set clear) n =
    (Z.testbit v n || Z.testbit set n) && negb (Z.testbit clear n).
Proof.
  intros Hn. unfold permissions_updated.
  by rewrite u32_testbit, Z.land_spec, u32_testbit, Z.lor_spec, not32_testbit by done.
Qed.
Lemma testbit_small x n : 0 ≤ x < PAGE_SIZE → 12 ≤ n → Z.testbit x n = false.
Proof.
  intros Hx Hn. rewrite <-(Z.mod_small x (2 ^ 12)) by done. apply Z.mod_pow2_bits_high. lia.
Qed.
Lemma permissions_updated_frame v set clear :
  0 ≤ set < PAGE_SIZE → 0 ≤ clear < PAGE_SIZE →
  frame_of (permissions_updated v set clear) = frame_of v.
Proof.
  intros Hs Hc. unfold frame_of, PAGE_SIZE. change 4096 with (2 ^ 12).
  rewrite <-!Z.shiftr_div_pow2 by done. apply Z.bits_inj'. intros n Hn.
  rewrite !Z.shiftr_spec by done. destruct (decide (n + 12 < 32)).
  - rewrite !u32_testbit, permissions_updated_testbit by lia.
    rewrite (testbit_small set), (testbit_small clear) by (done || lia).
    by rewrite orb_false_r, andb_true_r.
  - unfold u32. by rewrite !Z.mod_pow2_bits_high by lia.
Qed.

(** ** Properties *)

(** C20: map_frame, for an address whose page table is in memory, returns 0, makes the directory
    translate the page of [va] to the given frame and keeps the translation of every address
    whose walk does not read that entry; the frame gains a reference, a different frame mapped
    there before loses one (and becomes free with the last), mapping the frame already there
    changes nothing; no other word of memory changes. *)
Theorem map_frame_maps `{Extern} s root dir va t df tf f perm a rs a' :
  has_table s dir va t df tf → entry_apart s dir va t df tf →
  frame_of root = df → frame_of (get_word s (word df (PDX va))) = tf →
  (has_perm (pte s va tf) PERM_PRESENT = true → frame_of (pte s va tf) < number_of_frames (frames s)) →
  0 ≤ f < 2 ^ 20 → 0 ≤ perm < PAGE_SIZE →
  allocator s a → counts_ok a → fspecs (map_ops (pte s va tf) f) a = Some (rs, a') →
  ∃ s', map_frame dir f va perm s = Ret 0 s' ∧ allocator s' a' ∧
    mmu (mem (hw s')) root va false = Some (f * PAGE_SIZE + PGOFF va) ∧
    (∀ va' w, word tf (PTX va) ∉ walk (mem (hw s)) root va' →
       mmu (mem (hw s')) root va' w = mmu (mem (hw s)) root va' w) ∧
    (∀ j, j ≠ word tf (PTX va) → get_word s' j = get_word s j).
Proof.
  intros Ht Hap Hroot Htf Hn Hf Hperm Ha Hc Hops. pose proof Hap as (_ & _ & Hne).
  destruct (map_frame_spec dir va t df tf s f perm a rs a' Ht Hap Hn Hf Hperm Ha Hc Hops)
    as (s' & Hs' & Ha' & Hu).
  assert (get_word s' (word df (PDX va)) = get_word s (word df (PDX va))) as Hpde
    by (eapply entry_update_other; [done|congruence]).
  exists s'. split_and!; [done|done| |intros; by eapply entry_update_mmu
                         |intros; by eapply entry_update_other].
  rewrite (mmu_entry s' root df va tf), Hpde, (entry_update_pte _ _ _ _ _ Hu) by congruence.
  rewrite (ht_present _ _ _ _ _ _ Ht). unfold mapped_entry.
  destruct (has_perm (pte s va tf) PERM_PRESENT) eqn:Hp; cbn [andb].
  - destruct (Z.eqb_spec (frame_of (pte s va tf)) f) as [<-|]; [by rewrite Hp|].
    by rewrite entry_for_present, frame_of_entry_for.
  - by rewrite entry_for_present, frame_of_entry_for.
Qed.

(** Unmap_frame of a mapped page removes its translation and gives back its reference, so that
    the frame goes to the head of the free list when it was the last one; every other
    translation that does not read the entry, and every other word of memory, is kept. *)
Theorem unmap_frame_unmaps `{Extern} s root dir va t df tf a a' :
  has_table s dir va t df tf → entry_apart s dir va t df tf →
  frame_of root = df → frame_of (get_word s (word df (PDX va))) = tf →
  pte s va tf ≠ 0 → frame_of (pte s va tf) < number_of_frames (frames s) →
  allocator s a → counts_ok a → fspec (FRelease (frame_of (pte s va tf))) a = Some (None, a') →
  ∃ s', unmap_frame dir va s = Ret tt s' ∧ allocator s' a' ∧
    mmu (mem (hw s')) root va false = None ∧
    (∀ va' w, word tf (PTX va) ∉ walk (mem (hw s)) root va' →
       mmu (mem (hw s')) root va' w = mmu (mem (hw s)) root va' w) ∧
    (∀ j, j ≠ word tf (PTX va) → get_word s' j = get_word s j).
Proof.
  intros Ht (_ & _ & Hne) Hroot Htf He Hn Ha Hc Hop.
  destruct (unmap_frame_mapped dir va t df tf s a a' Ht He Hn Ha Hc Hop) as (s' & Hs' & Hu & Ha').
  assert (get_word s' (word df (PDX va)) = get_word s (word df (PDX va))) as Hpde
    by (eapply entry_update_other; [done|congruence]).
  exists s'. split_and!; [done|done| |intros; by eapply entry_update_mmu
                         |intros; by eapply entry_update_other].
  rewrite (mmu_entry s' root df va tf), (entry_update_pte _ _ _ _ _ Hu) by congruence.
  by rewrite has_perm_zero, andb_false_r by done.
Qed.

(** Pt_set_page_permissions followed by pt_get_page_permissions returns the old flags with
    the first set added and the second removed, bit by bit, and the page keeps its frame. *)
Theorem permissions_roundtrip `{Extern} e va t df tf s set clear :
  env_has_table e va t df tf s → 0 ≤ set < PAGE_SIZE → 0 ≤ clear < PAGE_SIZE →
  ∃ s' p, pt_set_page_permissions e va set clear s = Ret tt s' ∧
    pt_get_page_permissions e va s' = Ret p s' ∧
    (∀ n, 0 ≤ n < 12 → Z.testbit p n =
       (Z.testbit (pte s va tf) n || Z.testbit set n) && negb (Z.testbit clear n)) ∧
    frame_of (pte s' va tf) = frame_of (pte s va tf).
Proof.
  intros He Hs Hc. eexists _, _. split_and!.
  - by apply (pt_set_page_permissions_spec e va t df tf).
  - apply (pt_get_page_permissions_spec e va t df tf). by apply env_has_table_put.
  - intros n Hn. unfold pte. rewrite get_put_eq, Z.land_spec. fold (pte s va tf).
    rewrite permissions_updated_testbit by lia. change 0xFFF with (Z.ones 12).
    rewrite Z.ones_spec_low by lia. apply andb_true_r.
  - unfold pte at 1. rewrite get_put_eq. by apply permissions_updated_frame.
Qed.

(** ** Witnesses *)

(** A kernel with its directory in frame 300; tables 301 (kernel pages 300 to 302, where these
    three frames are) and 302 (the first pages of the kernel heap; page 1 is mapped to frame 9).
    Frames 5, 4 and 3 are free, environment 0 uses the same directory. *)
Definition HEAP_PAGE (k : Z) : Z := KERNEL_HEAP_START + k * PAGE_SIZE.
Definition paged_state : KState :=
  on_environments (set_envs {[0 := set_env_page_directory (KERNEL_BASE + 300 * PAGE_SIZE) inhabitant]})
  (on_frames (λ r, set_number_of_frames 1024 (set_frames_info (<[9 := set_references 1 inhabitant]> (frames_info r)) r))
  (on_boot (set_ptr_page_directory (KERNEL_BASE + 300 * PAGE_SIZE))
  (on_hw (λ h, set_cr3 (300 * PAGE_SIZE)
    (set_mem (list_to_map [(word 300 960, 301 * PAGE_SIZE + 3); (word 300 984, 302 * PAGE_SIZE + 3);
       (word 301 300, 300 * PAGE_SIZE + 3); (word 301 301, 301 * PAGE_SIZE + 3);
       (word 301 302, 302 * PAGE_SIZE + 3); (word 302 1, 9 * PAGE_SIZE + 3)]) h)) three_free))).
Definition DIR : Z := KERNEL_BASE + 300 * PAGE_SIZE.
Definition TABLE : Z := KERNEL_BASE + 302 * PAGE_SIZE.

Lemma paged_state_table k :
  k = 0 ∨ k = 1 →
  has_table paged_state DIR (HEAP_PAGE k) TABLE 300 302 ∧
  entry_apart paged_state DIR (HEAP_PAGE k) TABLE 300 302.
Proof.
  intros [-> | ->]; (split; [split; vm_compute; done|]);
    (split_and!; apply (bool_decide_unpack _); vm_compute; exact I).
Qed.
Lemma paged_state_allocator : allocator paged_state ([5; 4; 3], {[9 := 1]}).
Proof.
  split; [unfold dll; split_and!; [by vm_compute..|by apply (bool_decide_unpack _)|by vm_compute]|].
  assert (∀ f, 9 ≠ f → frame_at paged_state f = frame_at three_free f) as Hf
    by (intros f Hf; unfold frame_at; cbn; by rewrite lookup_total_insert_ne).
  split; intros f; cbn [fst snd].
  - intros Hin. assert (9 ≠ f) by (rewrite !elem_of_cons, elem_of_nil in Hin; lia).
    rewrite Hf by done. rewrite lookup_total_singleton_ne by done. split; [apply three_free_frame|done].
  - destruct (decide (9 = f)) as [<-|]; [by vm_compute|].
    rewrite Hf, lookup_total_singleton_ne by done. apply three_free_frame.
Qed.
Lemma paged_state_counts : counts_ok ([5; 4; 3], {[9 := 1]}).
Proof.
  intros f. cbn. destruct (decide (9 = f)) as [<-|]; [by vm_compute|].
  by rewrite lookup_total_singleton_ne.
Qed.

(** Mapping frame 7 where frame 9 was: 9 becomes free. *)
Lemma map_frame_maps_witness :
  ∃ s', @map_frame no_nesting DIR 7 (HEAP_PAGE 1) 2 paged_state = Ret 0 s' ∧
    mmu (mem (hw s')) (300 * PAGE_SIZE) (HEAP_PAGE 1) false = Some (7 * PAGE_SIZE) ∧
    allocator s' ([9; 5; 4; 3], {[9 := 0; 7 := 1]}).
Proof.
  destruct (paged_state_table 1) as [Ht Hap]; [by right|].
  destruct (@map_frame_maps no_nesting paged_state (300 * PAGE_SIZE) DIR (HEAP_PAGE 1) TABLE 300 302 7 2
    ([5; 4; 3], {[9 := 1]}) [None; None] ([9; 5; 4; 3], {[9 := 0; 7 := 1]}))
    as (s' & Hs' & Ha' & Hm & _);
    [exact Ht|exact Hap|vm_compute; reflexivity|vm_compute; reflexivity|by vm_compute|lia
    |unfold PAGE_SIZE; lia|exact paged_state_allocator|exact paged_state_counts|vm_compute; reflexivity|].
  exists s'. split_and!; [exact Hs'|exact Hm|exact Ha'].
Defined.

Lemma unmap_frame_unmaps_witness :
  ∃ s', @unmap_frame no_nesting DIR (HEAP_PAGE 1) paged_state = Ret tt s' ∧
    mmu (mem (hw s')) (300 * PAGE_SIZE) (HEAP_PAGE 1) false = None ∧
    allocator s' ([9; 5; 4; 3], {[9 := 0]}).
Proof.
  destruct (paged_state_table 1) as [Ht Hap]; [by right|].
  destruct (@unmap_frame_unmaps no_nesting paged_state (300 * PAGE_SIZE) DIR (HEAP_PAGE 1) TABLE 300 302
    ([5; 4; 3], {[9 := 1]}) ([9; 5; 4; 3], {[9 := 0]})) as (s' & Hs' & Ha' & Hm & _);
    [exact Ht|exact Hap|vm_compute; reflexivity|vm_compute; reflexivity|by vm_compute|by vm_compute
    |exact paged_state_allocator|exact paged_state_counts|vm_compute; reflexivity|].
  exists s'. split_and!; [exact Hs'|exact Hm|exact Ha'].
Defined.

Lemma permissions_roundtrip_witness :
  ∃ s' p, @pt_set_page_permissions no_nesting 0 (HEAP_PAGE 1) PERM_USED PERM_WRITEABLE paged_state = Ret tt s' ∧
    @pt_get_page_permissions no_nesting 0 (HEAP_PAGE 1) s' = Ret p s' ∧
    Z.testbit p 5 = true ∧ Z.testbit p 1 = false.
Proof.
  destruct (@permissions_roundtrip no_nesting 0 (HEAP_PAGE 1) TABLE 300 302 paged_state PERM_USED PERM_WRITEABLE)
    as (s' & p & Hs' & Hp & Hb & _);
    [apply (paged_state_table 1); by right|by vm_compute|by vm_compute|].
  exists s', p. rewrite !Hb by lia. split_and!; [exact Hs'|exact Hp|by vm_compute|by vm_compute].
Defined.
