(* ===== verification/KHeap.v ===== *)
(** * The kernel heap: kern/kheap.c

    kmalloc hands out increasing kernel virtual addresses, a frame per page, and records the
    allocation; kfree unmaps it; kheap_virtual_address (PageFlags.v) and kheap_physical_address
    (Paging.v) convert addresses.  kmallocFirstFit and kmallocBestFit are the alternatives that
    kmalloc's commented-out calls select. *)
From S2P Require Import Prelude Machine Queue State PageFlags FrameAlloc Paging.

Definition KHEAP_ENTRIES : Z := (KERNEL_HEAP_MAX - KERNEL_HEAP_START + 1) `div` PAGE_SIZE.
(** [(size+PAGE_SIZE-1)/PAGE_SIZE] on a uint32. *)
Definition kpages (size : Z) : Z := u32 (size + PAGE_SIZE - 1) `div` PAGE_SIZE.
(** [(void* )KERNEL_HEAP_MAX-size*PAGE_SIZE] *)
Definition kheap_limit (size : Z) : Z := u32 (KERNEL_HEAP_MAX - u32 (size * PAGE_SIZE)).

Definition get_alloc (i : Z) : K Size_Address_KHeap :=
  gets (λ s, allocatedHAddresses (kheap s) !!! i).
(** An index outside the array is undefined behaviour. *)
Definition upd_alloc (i : Z) (g : Size_Address_KHeap → Size_Address_KHeap) : K unit :=
  if (0 <=? i) && (i <? KHEAP_ENTRIES) then
    modify (on_kheap (λ r,
      set_allocatedHAddresses (<[i := g (allocatedHAddresses r !!! i)]> (allocatedHAddresses r)) r))
  else undefined "allocatedHAddresses".
Definition set_virtualAddress (pa va : Z) : K unit :=
  modify (on_kheap (λ r, set_virtualAddresses (<[pa `div` PAGE_SIZE := va]> (virtualAddresses r)) r)).
Definition get_idx : K Z := gets (idx ∘ kheap).
Definition set_kidx (v : Z) : K unit := modify (on_kheap (set_idx (u32 v))).
Definition get_firstFree : K Z := gets (firstFreeVAInKHeap ∘ kheap).
Definition set_firstFree (v : Z) : K unit := modify (on_kheap (set_firstFreeVAInKHeap v)).

Section KernelHeap.
Context `{Extern}.

(** One page of an allocation: a frame, its mapping at [va], the reverse map. *)
Definition map_heap_page (va : Z) : K unit :=
  ptr ← allocate_frame;
  pgdir ← gets (ptr_page_directory ∘ boot);
  map_frame pgdir ptr va (Z.lor PERM_PRESENT PERM_WRITEABLE);;
  set_virtualAddress (to_physical_address ptr) va.

Definition kmalloc (size : Z) : K Z :=
  let size := kpages size in
  first ← get_firstFree;
  if kheap_limit size <=? first then mret 0 else
  let retVal := first in
  forM (seqZ 0 size) (λ _,
    va ← get_firstFree;
    map_heap_page va;;
    set_firstFree (u32 (va + PAGE_SIZE)));;
  i ← get_idx;
  upd_alloc i (set_sak_virtualAddress retVal);;
  upd_alloc i (set_sak_size size);;
  upd_alloc i (set_sak_empty 0);;
  set_kidx (i + 1);;
  mret retVal.

(** ** Fit strategies over freed allocations *)
(** [while(j<idx&&freeSizeSum<size&&allocatedHAddresses[j].empty==1)] *)
Definition merge_free (size : Z) (x : Z * Z * Z) : K ((Z * Z * Z) + (Z * Z * Z)) :=
  let '(j, freeSizeSum, count) := x in
  n ← get_idx; a ← get_alloc j;
  if (j <? n) && (freeSizeSum <? size) && (sak_empty a =? 1)
  then mret (inl (j + 1, freeSizeSum + sak_size a, count + 1))
  else mret (inr (j, freeSizeSum, count)).
Definition kheap_fuel : K nat := n ← get_idx; mret (Datatypes.S (Z.to_nat n)).

(** The scan of kmallocFirstFit: [freeSizeSum] and [count] are not reset between candidates. *)
Definition firstfit_scan (size : Z) (fuel : nat) (x : Z * Z * Z)
    : K ((Z * Z * Z) + (option (Z * Z) * Z)) :=
  let '(i, freeSizeSum, count) := x in
  n ← get_idx;
  if negb (i <? n) then mret (inr (None, count)) else
  a ← get_alloc i;
  if sak_empty a =? 1 then
    '(_, freeSizeSum, count) ←
      mloop fuel (merge_free size) (i + 1, freeSizeSum + sak_size a, count + 1);
    if size <=? freeSizeSum then mret (inr (Some (i, sak_virtualAddress a), count))
    else mret (inl (i + 1, freeSizeSum, count))
  else mret (inl (i + 1, freeSizeSum, count)).

(** What both strategies do with the place they found: map it, then update the records. *)
Definition take_place (size : Z) (found : option (Z * Z)) (count : Z) : K Z :=
  retVal ← match found with Some (_, va) => mret va | None => get_firstFree end;
  forM (seqZ 0 size) (λ i, map_heap_page (u32 (retVal + i * PAGE_SIZE)));;
  match found with
  | Some (index, _) =>
      upd_alloc index (set_sak_size size);;
      forM (seqZ 0 count) (λ i, upd_alloc (index + i) (set_sak_empty 0))
  | None =>
      set_firstFree (u32 (retVal + size * PAGE_SIZE));;
      i ← get_idx;
      upd_alloc i (set_sak_virtualAddress retVal);;
      upd_alloc i (set_sak_size size);;
      set_kidx (i + 1)
  end;;
  mret retVal.

Definition kmallocFirstFit (size : Z) : K Z :=
  let size := kpages size in
  first ← get_firstFree;
  fuel ← kheap_fuel;
  if kheap_limit size <=? first then
    '(found, count) ← mloop fuel (firstfit_scan size fuel) (0, 0, 0);
    match found with
    | None => mret 0
    | Some _ => take_place size found count
    end
  else take_place size None 0.

Definition bestfit_scan (size : Z) (fuel : nat) (x : Z * Z * Z * Z * option (Z * Z))
    : K ((Z * Z * Z * Z * option (Z * Z)) + (option (Z * Z) * Z)) :=
  let '(i, freeSizeSum, count, difference, found) := x in
  n ← get_idx;
  if negb (i <? n) then mret (inr (found, count)) else
  a ← get_alloc i;
  if sak_empty a =? 1 then
    '(_, freeSizeSum, count) ←
      mloop fuel (merge_free size) (i + 1, freeSizeSum + sak_size a, count + 1);
    if (size <=? freeSizeSum) && (u32 (freeSizeSum - size) <? difference)
    then mret (inl (i + 1, freeSizeSum, count, u32 (freeSizeSum - size),
                    Some (i, sak_virtualAddress a)))
    else mret (inl (i + 1, freeSizeSum, count, difference, found))
  else mret (inl (i + 1, freeSizeSum, count, difference, found)).

Definition kmallocBestFit (size : Z) : K Z :=
  let size := kpages size in
  fuel ← kheap_fuel;
  '(found, count) ← mloop fuel (bestfit_scan size fuel) (0, 0, 0, 1000000000, None);
  first ← get_firstFree;
  if (kheap_limit size <=? first) && match found with None => true | Some _ => false end
  then mret 0
  else take_place size found count.

(** [for(i = 0; ...;i++) if(allocatedHAddresses[i].virtualAddress==virtual_address)] *)
Definition kfree_find (virtual_address i : Z) : K (Z + option Z) :=
  if negb (i <? KHEAP_ENTRIES) then mret (inr None) else
  a ← get_alloc i;
  if sak_virtualAddress a =? virtual_address then mret (inr (Some i)) else mret (inl (i + 1)).

Definition kfree (virtual_address : Z) : K unit :=
  index ← mloop (Z.to_nat (KHEAP_ENTRIES + 1)) (kfree_find virtual_address) 0;
  size ← match index with None => mret 0 | Some i => a ← get_alloc i; mret (sak_size a) end;
  forM (seqZ 0 size) (λ i,
    let va := u32 (virtual_address + i * PAGE_SIZE) in
    pa ← kheap_physical_address va;
    set_virtualAddress pa 0;;
    pgdir ← gets (ptr_page_directory ∘ boot);
    unmap_frame pgdir va);;
  i ← read_local "index" index;
  upd_alloc i (set_sak_empty 1);;
  tlbflush.

(** kern/memory_manager.c: empty the storage of frames. *)
Definition clear_frames_storage (frames_storage : Z) : K unit :=
  forM (seqZ 0 1024) (λ i,
    e ← load_at frames_storage i;
    when (negb (e =? 0))
      (e ← load_at frames_storage i;
       va ← kheap_virtual_address (EXTRACT_ADDRESS e);
       kfree va;;
       store_at frames_storage i 0)).
End KernelHeap.
