(* ===== verification/KHeapSpec.v ===== *)
(** * What the kernel heap promises

    [kernel_space s D T] is the kernel's own address space: its directory in frame [D], a table
    in frame [T d] for every directory entry [d] of the heap area, all of them at their static
    addresses.  Within it, kmalloc maps consecutive fresh pages to free frames, kfree unmaps them
    and gives the frames back, and the two address conversions are inverse on heap pages. *)
From S2P Require Import Prelude Machine Queue State AddressSpace PageFlags FrameAlloc FrameAllocSpec Paging PagingSpec KHeap.

(** ** The kernel's address space *)
Definition heap_entry (d : Z) : Prop := PDX KERNEL_HEAP_START ≤ d < 1024.
Definition static (f : Z) : Z := KERNEL_BASE + f * PAGE_SIZE.
Record kernel_space (s : KState) (D : Z) (T : Z → Z) : Prop := {
  ks_dir : ptr_page_directory (boot s) = static D;
  ks_entry d : heap_entry d →
    frame_of (get_word s (word D d)) = T d ∧ has_perm (get_word s (word D d)) PERM_PRESENT = true;
  ks_inj d d' : heap_entry d → heap_entry d' → T d = T d' → d = d';
  ks_apart d : heap_entry d → T d ≠ D ∧ T d < number_of_frames (frames s) ∧ 0 ≤ T d < 2 ^ 15;
  ks_page_dir : kpage s (static D) D;
  ks_page d : heap_entry d → kpage s (static (T d)) (T d);
  ks_walk_dir d : heap_entry d → T d ∉ walk_frames s (static D);
  ks_walk d d' : heap_entry d → heap_entry d' → T d' ∉ walk_frames s (static (T d));
}.

(** A page of the heap area. *)
Definition heap_page (va : Z) : Prop :=
  KERNEL_HEAP_START ≤ va < KERNEL_HEAP_MAX ∧ va `mod` PAGE_SIZE = 0.
Definition heap_address (va : Z) : Prop := KERNEL_HEAP_START ≤ va < 2 ^ 32.

Lemma heap_page_address va : heap_page va → heap_address va.
Proof. unfold heap_page, heap_address, KERNEL_HEAP_MAX. lia. Qed.
Lemma heap_address_entry va : heap_address va → heap_entry (PDX va).
Proof.
  intros [? ?]. split; [|apply PDX_range]. rewrite !PDX_eq.
  rewrite !u32_small by (unfold is_u32, KERNEL_HEAP_START in *; lia). apply Z.div_le_mono; [done|lia].
Qed.
Lemma heap_address_kernel va : heap_address va → CHECK_IF_KERNEL_ADDRESS va = true.
Proof.
  intros [? ?]. unfold CHECK_IF_KERNEL_ADDRESS.
  rewrite u32_small by (unfold is_u32, KERNEL_HEAP_START in *; lia).
  apply andb_true_iff. split; apply Z.leb_le; [|lia].
  change USER_TOP with 0xEEC00000. unfold KERNEL_HEAP_START in *. lia.
Qed.
Section Space.
Context (s : KState) (D : Z) (T : Z → Z) (Hk : kernel_space s D T).

Lemma heap_table va :
  heap_address va →
  has_table s (static D) va (static (T (PDX va))) D (T (PDX va)) ∧
  entry_apart s (static D) va (static (T (PDX va))) D (T (PDX va)).
Proof using Hk.
  intros Hva. pose proof (heap_address_entry va Hva) as Hd.
  destruct (ks_entry _ _ _ Hk _ Hd) as [Hf Hp]. destruct (ks_apart _ _ _ Hk _ Hd) as (Hne & Hn & Hr).
  split.
  - split; [apply Hk|done| |by apply Hk|].
    + unfold table_address. rewrite heap_address_kernel by done. cbn [negb].
      unfold STATIC_KERNEL_VIRTUAL_ADDRESS. rewrite bind_gets, PPN_EXTRACT, Hf. cbn [compose].
      rewrite (proj2 (Z.leb_gt _ _)) by done. rewrite EXTRACT_frame_of, Hf. unfold mret, M_ret.
      do 2 f_equal. unfold static. rewrite u32_small; [lia|].
      unfold is_u32, KERNEL_BASE, PAGE_SIZE. lia.
    + unfold static, KERNEL_BASE, PAGE_SIZE. lia.
  - split_and!.
    + apply walk_frames_word; [by apply (ks_walk_dir _ _ _ Hk)|apply PTX_range].
    + apply walk_frames_word; [by apply (ks_walk _ _ _ Hk)|apply PTX_range].
    + intros [? _]%word_inj; [done|apply PTX_range|apply PDX_range].
Qed.

(** A change of one entry of a heap table. *)
Lemma kernel_space_put va v :
  heap_address va → kernel_space (put_word (word (T (PDX va)) (PTX va)) v s) D T.
Proof using Hk.
  intros Hva. pose proof (heap_address_entry va Hva) as Hd. pose proof (PTX_range va).
  assert (∀ a, T (PDX va) ∉ walk_frames s a → walk_of (put_word (word (T (PDX va)) (PTX va)) v s) a = walk_of s a) as Hw
    by (intros a Ha; by apply walk_put, walk_frames_word).
  destruct Hk as [K1 K2 K3 K4 K5 K6 K7 K8]. split; try done.
  - intros d He. destruct (K4 _ Hd) as (Hne & _). rewrite get_put_ne; [by apply K2|].
    intros [? _]%word_inj; [done|done|]. unfold heap_entry in He. change (PDX KERNEL_HEAP_START) with 984 in He. lia.
  - apply kpage_put; [done|]. apply walk_frames_word; auto.
  - intros d He. apply kpage_put; [auto|]. apply walk_frames_word; auto.
  - intros d He. unfold walk_frames. rewrite Hw by auto. by apply K7.
  - intros d d' He He'. unfold walk_frames. rewrite Hw by auto. by apply K8.
Qed.
End Space.

(** [kernel_space] reads the hardware, the number of frames and the directory's address. *)
Lemma kernel_space_same s s' D T :
  hw s' = hw s → number_of_frames (frames s') = number_of_frames (frames s) →
  ptr_page_directory (boot s') = ptr_page_directory (boot s) →
  kernel_space s D T → kernel_space s' D T.
Proof.
  intros Hh Hn Hb [K1 K2 K3 K4 K5 K6 K7 K8].
  split; unfold kpage, walk_frames, walk_of, get_word in *; rewrite ?Hh, ?Hn, ?Hb; done.
Qed.
Lemma kernel_space_entry_update s s' D T va v :
  heap_address va → kernel_space s D T → entry_update s s' va (T (PDX va)) v → kernel_space s' D T.
Proof.
  intros Hva Hk (s1 & (h & l & ->) & ->). apply kernel_space_put; [|done].
  by eapply kernel_space_same; [..|done].
Qed.

(** ** One page *)
Definition heap_pte (s : KState) (T : Z → Z) (va : Z) : Z := pte s va (T (PDX va)).
Definition entry_word (T : Z → Z) (va : Z) : Z := word (T (PDX va)) (PTX va).
(** Parts of the state the heap never touches. *)
Definition heap_footprint (s s' : KState) : Prop :=
  hw s' = set_mem (mem (hw s')) (hw s) ∧
  number_of_frames (frames s') = number_of_frames (frames s) ∧
  modified_frame_list (frames s') = modified_frame_list (frames s) ∧
  pagefile s' = pagefile s ∧ environments s' = environments s ∧ sched s' = sched s ∧
  config s' = config s ∧ boot s' = boot s ∧ sharing s' = sharing s.
#[export] Instance heap_footprint_preorder : PreOrder heap_footprint.
Proof.
  split.
  - intros s. unfold heap_footprint. split_and!; try done. by destruct s as [[]].
  - intros s1 s2 s3 (H1 & ? & ? & ? & ? & ? & ? & ? & ?) (H1' & ? & ? & ? & ? & ? & ? & ? & ?).
    unfold heap_footprint. split_and!; try congruence. rewrite H1', H1. done.
Qed.
Lemma entry_update_footprint s s' va tf v : entry_update s s' va tf v → heap_footprint s s'.
Proof. intros (s1 & (h & l & ->) & ->). done. Qed.
Lemma on_kheap_footprint s g : heap_footprint s (on_kheap g s).
Proof. unfold heap_footprint. split_and!; try done. by destruct s as [[]]. Qed.
Lemma entry_update_kheap s s' va tf v : entry_update s s' va tf v → kheap s' = kheap s.
Proof. intros (s1 & (h & l & ->) & ->). done. Qed.

Lemma heap_page_inj va va' :
  heap_page va → heap_page va' → PDX va = PDX va' → PTX va = PTX va' → va = va'.
Proof.
  intros [Hr Hm] [Hr' Hm'] Hd Ht. assert (PPN va = PPN va') as HP by (rewrite !PDX_PTX_PPN; congruence).
  unfold KERNEL_HEAP_START, KERNEL_HEAP_MAX in *. rewrite !PPN_eq in HP. unfold PAGE_SIZE in *.
  rewrite !u32_small in HP by (unfold is_u32; lia). zdiv.
Qed.
Lemma entry_word_inj s D T va va' :
  kernel_space s D T → heap_page va → heap_page va' → entry_word T va = entry_word T va' → va = va'.
Proof.
  intros Hk Hp Hp' [Hd Ht]%word_inj; [|apply PTX_range..].
  apply (ks_inj _ _ _ Hk) in Hd; [|apply heap_address_entry, heap_page_address; done..].
  by apply heap_page_inj.
Qed.

(** Reference counts once the frames [fs] have one reference each. *)
Definition one_each (fs : list Z) (m : gmap Z Z) : gmap Z Z := foldl (λ m f, <[f := 1]> m) m fs.
Lemma one_each_app fs gs m : one_each (fs ++ gs) m = one_each gs (one_each fs m).
Proof. apply foldl_app. Qed.
Lemma one_each_lookup fs m f : one_each fs m !!! f = if decide (f ∈ fs) then 1 else m !!! f.
Proof.
  revert m. induction fs as [|g fs IH]; intros m; [done|].
  change (one_each (g :: fs) m) with (one_each fs (<[g := 1]> m)). rewrite IH.
  destruct (decide (f ∈ fs)), (decide (f ∈ g :: fs)); try done; [set_solver|..].
  - assert (g = f) as -> by set_solver. apply array_get_set_eq.
  - apply array_get_set_ne. set_solver.
Qed.

Definition HEAP_PERM : Z := Z.lor PERM_PRESENT PERM_WRITEABLE.
Definition set_reverse (f va : Z) : KState → KState :=
  on_kheap (λ r, set_virtualAddresses (<[f := va]> (virtualAddresses r)) r).

Section Page.
Context `{Extern} (D : Z) (T : Z → Z).

Lemma map_heap_page_spec s va f xs m :
  kernel_space s D T → heap_page va → has_perm (heap_pte s T va) PERM_PRESENT = false →
  allocator s (f :: xs, m) → 0 ≤ f < 2 ^ 20 → counts_ok (f :: xs, m) →
  ∃ s0, map_heap_page va s = Ret tt (set_reverse f va s0) ∧
        entry_update s s0 va (T (PDX va)) (entry_for f HEAP_PERM) ∧
        allocator s0 (xs, <[f := 1]> m).
Proof.
  intros Hk Hva He Ha Hf Hc.
  destruct (allocate_frame_refines s f xs m Ha) as (s1 & Hs1 & Ha1 & Ho1 & _).
  assert (kernel_space s1 D T) as Hk1 by (destruct Ho1 as (h & l & ->); by eapply kernel_space_same; [..|done]).
  assert (heap_pte s1 T va = heap_pte s T va) as He1 by (by destruct Ho1 as (h & l & ->)).
  destruct (heap_table s1 D T Hk1 va (heap_page_address va Hva)) as [Ht Hap].
  assert (m !!! f = 0) as Hm0 by (destruct Ha as (_ & Hfree & _); by apply (Hfree f); left).
  assert (f ∉ xs) as Hfx by (destruct Ha as ((_ & _ & _ & [? _]%NoDup_cons & _) & _); done).
  destruct (map_frame_spec (static D) va (static (T (PDX va))) D (T (PDX va)) s1 f HEAP_PERM (xs, m)
              [None] (xs, <[f := 1]> m)) as (s2 & Hs2 & Ha2 & Hu2); try done.
  { fold (heap_pte s1 T va). by rewrite He1, He. }
  { fold (heap_pte s1 T va). unfold map_ops. rewrite He1, He. cbn.
    rewrite decide_False, Hm0 by done. done. }
  exists s2. split_and!; [| |done].
  - unfold map_heap_page. mstep Hs1. rewrite bind_gets. cbn [compose].
    rewrite (ks_dir _ _ _ Hk1). mstep Hs2. unfold set_virtualAddress, set_reverse, modify.
    rewrite to_physical_address_eq by done. unfold PAGE_SIZE. by rewrite Z.div_mul.
  - fold (heap_pte s1 T va) in Hu2. unfold mapped_entry in Hu2. rewrite He1, He in Hu2. cbn in Hu2.
    destruct Hu2 as (s3 & Ho3 & ->). exists s3. split; [by etrans|done].
Qed.
End Page.

(** ** The loop of kmalloc *)

(** [k] pages from [first] have been mapped to the frames [fs], in order. *)
Record pages_mapped (T : Z → Z) (first : Z) (fs : list Z) (s s' : KState) : Prop := {
  pm_footprint : heap_footprint s s';
  pm_entry k f : fs !! k = Some f →
    heap_pte s' T (first + Z.of_nat k * PAGE_SIZE) = entry_for f HEAP_PERM ∧
    virtualAddresses (kheap s') !!! f = first + Z.of_nat k * PAGE_SIZE;
  pm_other j : (∀ k, (k < length fs)%nat → j ≠ entry_word T (first + Z.of_nat k * PAGE_SIZE)) →
    get_word s' j = get_word s j;
  pm_reverse f : f ∉ fs → virtualAddresses (kheap s') !!! f = virtualAddresses (kheap s) !!! f;
  pm_kheap : kheap s' = MkKHeap (virtualAddresses (kheap s')) (allocatedHAddresses (kheap s))
                          (idx (kheap s)) (first + Z.of_nat (length fs) * PAGE_SIZE);
}.

(** The addresses of an allocation of [n] pages. *)
Definition heap_range (first n : Z) : Prop :=
  KERNEL_HEAP_START ≤ first ∧ first `mod` PAGE_SIZE = 0 ∧ first + n * PAGE_SIZE ≤ KERNEL_HEAP_MAX ∧ 0 ≤ n.
Lemma heap_range_page first n k : heap_range first n → 0 ≤ k < n → heap_page (first + k * PAGE_SIZE).
Proof.
  intros (? & ? & ? & ?) Hk. unfold heap_page, PAGE_SIZE, KERNEL_HEAP_MAX, KERNEL_HEAP_START in *.
  split; [lia|]. by rewrite Z_mod_plus_full.
Qed.
Lemma heap_range_inj s D T first n k k' :
  kernel_space s D T → heap_range first n → 0 ≤ k < n → 0 ≤ k' < n →
  entry_word T (first + k * PAGE_SIZE) = entry_word T (first + k' * PAGE_SIZE) → k = k'.
Proof.
  intros Hk Hr Hn Hn' He. apply (entry_word_inj s D T) in He; [|done|by eapply heap_range_page..].
  unfold PAGE_SIZE in *. lia.
Qed.

Lemma pages_mapped_nil T s :
  pages_mapped T (firstFreeVAInKHeap (kheap s)) [] s s.
Proof.
  split; [done|done|done|done|]. cbn. rewrite Z.add_0_r. by destruct (kheap s).
Qed.

Lemma pages_mapped_snoc s D T first n fs f s1 s0 :
  kernel_space s1 D T → heap_range first n → Z.of_nat (length fs) < n → f ∉ fs →
  let va := first + Z.of_nat (length fs) * PAGE_SIZE in
  pages_mapped T first fs s s1 →
  entry_update s1 s0 va (T (PDX va)) (entry_for f HEAP_PERM) →
  pages_mapped T first (fs ++ [f]) s
    (on_kheap (set_firstFreeVAInKHeap (u32 (va + PAGE_SIZE))) (set_reverse f va s0)).
Proof.
  intros Hk Hr Hn Hf va [P1 P2 P3 P4 P5] Hu.
  pose proof (entry_update_kheap _ _ _ _ _ Hu) as Hkh.
  assert (∀ k, (k < length fs)%nat → entry_word T (first + Z.of_nat k * PAGE_SIZE) ≠ entry_word T va) as Hne.
  { intros k Hlt He. apply (heap_range_inj s1 D T first n) in He; [lia|done|done|lia|lia]. }
  split.
  - etrans; [exact P1|]. etrans; [by eapply entry_update_footprint|].
    etrans; apply on_kheap_footprint.
  - intros k g Hg. cbn [kheap on_kheap set_kheap virtualAddresses set_reverse set_virtualAddresses set_firstFreeVAInKHeap].
    rewrite Hkh. apply lookup_app_Some in Hg as [Hg|[Hge Hg]].
    + destruct (P2 k g Hg) as [He Hv]. rewrite array_get_set_ne by (intros ->; eauto using list_elem_of_lookup_2).
      split; [|done]. rewrite <-He. apply (entry_update_other _ _ _ _ _ _ Hu).
      apply Hne. by eapply lookup_lt_Some.
    + rewrite list_lookup_singleton in Hg. case_match eqn:Hlen; [|done]. simplify_eq.
      assert (k = length fs) as -> by lia. fold va. rewrite array_get_set_eq. split; [|done].
      apply (entry_update_pte _ _ _ _ _ Hu).
  - intros j Hj. rewrite length_app in Hj. cbn in Hj.
    transitivity (get_word s0 j); [done|]. rewrite (entry_update_other _ _ _ _ _ j Hu).
    + apply P3. intros k Hlt. apply Hj. lia.
    + apply Hj. lia.
  - intros g Hg. cbn. rewrite Hkh, array_get_set_ne by set_solver. apply P4. set_solver.
  - unfold on_kheap, set_reverse, set_kheap, set_firstFreeVAInKHeap, set_virtualAddresses. cbn.
    rewrite Hkh. f_equal; [by rewrite P5|by rewrite P5|]. rewrite length_app. unfold va. cbn.
    destruct Hr as (? & ? & ? & ?).
    rewrite u32_small; unfold is_u32, PAGE_SIZE, KERNEL_HEAP_MAX, KERNEL_HEAP_START in *; lia.
Qed.

(** Everything kmalloc needs: the kernel's address space, free frames, unmapped pages ahead. *)
Record heap_ready (s : KState) (D : Z) (T : Z → Z) (a : astate) : Prop := {
  hr_space : kernel_space s D T;
  hr_alloc : allocator s a;
  hr_counts : counts_ok a;
  hr_frames f : f ∈ a.1 → 0 ≤ f < 2 ^ 20 ∧ f < number_of_frames (frames s);
  hr_first : KERNEL_HEAP_START ≤ firstFreeVAInKHeap (kheap s) ≤ KERNEL_HEAP_MAX ∧
             firstFreeVAInKHeap (kheap s) `mod` PAGE_SIZE = 0;
  hr_unmapped va : heap_page va → firstFreeVAInKHeap (kheap s) ≤ va →
    has_perm (heap_pte s T va) PERM_PRESENT = false;
}.

Section Loop.
Context `{Extern} (D : Z) (T : Z → Z).

Definition kmalloc_page : K unit :=
  va ← get_firstFree; map_heap_page va;; set_firstFree (u32 (va + PAGE_SIZE)).

Lemma kmalloc_page_spec s first fs f xs m s1 n :
  heap_ready s D T (fs ++ f :: xs, m) → first = firstFreeVAInKHeap (kheap s) →
  heap_range first n → Z.of_nat (length fs) < n →
  pages_mapped T first fs s s1 → kernel_space s1 D T → allocator s1 (f :: xs, one_each fs m) →
  ∃ s', kmalloc_page s1 = Ret tt s' ∧ pages_mapped T first (fs ++ [f]) s s' ∧
        kernel_space s' D T ∧ allocator s' (xs, one_each (fs ++ [f]) m).
Proof.
  intros Hr Hfirst Hrange Hn Hpm Hk Ha.
  set (va := first + Z.of_nat (length fs) * PAGE_SIZE).
  assert (heap_page va) as Hva by (eapply heap_range_page; [done|lia]).
  assert (NoDup (fs ++ f :: xs)) as Hnd by (by destruct Hr as [_ [(_ & _ & _ & ? & _) _]]).
  apply NoDup_mid in Hnd as (_ & _ & Hffs & _).
  assert (has_perm (heap_pte s1 T va) PERM_PRESENT = false) as Hpte.
  { unfold heap_pte, pte. rewrite (pm_other _ _ _ _ _ Hpm); [apply (hr_unmapped _ _ _ _ Hr); [done|]|].
    - unfold va, PAGE_SIZE. lia.
    - intros k Hlt He. apply (heap_range_inj s1 D T first n) in He; [lia|done|done|lia|lia]. }
  destruct (map_heap_page_spec D T s1 va f xs (one_each fs m)) as (s0 & Hs0 & Hu & Ha0); try done.
  { apply (hr_frames _ _ _ _ Hr). cbn. set_solver. }
  { intros g. cbn. rewrite one_each_lookup. case_decide; [done|]. apply (hr_counts _ _ _ _ Hr). }
  eexists. split_and!.
  - unfold kmalloc_page, get_firstFree. rewrite bind_gets. cbn [compose].
    assert (firstFreeVAInKHeap (kheap s1) = va) as -> by (by rewrite (pm_kheap _ _ _ _ _ Hpm)).
    by mstep Hs0.
  - by eapply pages_mapped_snoc.
  - eapply kernel_space_same; [..|by eapply (kernel_space_entry_update s1 s0); [apply heap_page_address| |]]; done.
  - rewrite one_each_app. by eapply allocator_frames.
Qed.

Lemma kmalloc_loop s fs xs m n :
  heap_ready s D T (fs ++ xs, m) → heap_range (firstFreeVAInKHeap (kheap s)) n →
  Z.of_nat (length fs) = n →
  ∃ s', forM (seqZ 0 n) (λ _, kmalloc_page) s = Ret tt s' ∧
        pages_mapped T (firstFreeVAInKHeap (kheap s)) fs s s' ∧
        kernel_space s' D T ∧ allocator s' (xs, one_each fs m).
Proof.
  intros Hr Hrange Hlen. set (first := firstFreeVAInKHeap (kheap s)) in *.
  destruct (forM_seqZ (λ k s', pages_mapped T first (take (Z.to_nat k) fs) s s' ∧
    kernel_space s' D T ∧ allocator s' (drop (Z.to_nat k) fs ++ xs, one_each (take (Z.to_nat k) fs) m))
    (λ _, kmalloc_page) 0 n s) as (s' & Hs' & Hpm & Hk & Ha); [lia| | |].
  - rewrite take_0, drop_0. split_and!; [apply pages_mapped_nil|apply Hr|apply Hr].
  - intros k s1 Hk1 (Hpm & Hk & Ha).
    destruct (lookup_lt_is_Some_2 fs (Z.to_nat k)) as [f Hf]; [lia|].
    replace (Z.to_nat (k + 1)) with (Datatypes.S (Z.to_nat k)) by lia.
    rewrite (take_S_r _ _ f) by done. rewrite (drop_S _ f) in Ha by done.
    apply (kmalloc_page_spec s first (take (Z.to_nat k) fs) f _ m s1 n); try done.
    + by rewrite app_comm_cons, <-drop_S, app_assoc, take_drop by done.
    + rewrite length_take. lia.
  - rewrite take_ge, drop_ge in * by lia. by exists s'.
Qed.
End Loop.

(** ** kmalloc *)
Lemma kpages_range sz : 0 ≤ kpages sz < 2 ^ 20.
Proof. unfold kpages, PAGE_SIZE. pose proof (u32_range (sz + 4096 - 1)) as [? ?]. zdiv. Qed.
Lemma kheap_limit_eq n : 0 ≤ n < 2 ^ 20 → kheap_limit n = KERNEL_HEAP_MAX - n * PAGE_SIZE.
Proof.
  intros Hn. unfold kheap_limit, PAGE_SIZE, KERNEL_HEAP_MAX.
  rewrite (u32_small (n * 4096)) by (unfold is_u32; lia). apply u32_small. unfold is_u32. lia.
Qed.
Lemma frame_of_page f : 0 ≤ f < 2 ^ 20 → frame_of (f * PAGE_SIZE) = f.
Proof.
  intros. unfold frame_of, PAGE_SIZE. rewrite u32_small by (unfold is_u32; lia). by apply Z.div_mul.
Qed.
Lemma kernel_space_D s D T : kernel_space s D T → 0 ≤ D < 2 ^ 20.
Proof.
  intros Hk. destruct (ks_page_dir _ _ _ Hk) as ([? ?] & _ & ? & _).
  unfold static, KERNEL_BASE, PAGE_SIZE in *. lia.
Qed.
(** What the kernel's directory makes of a heap address. *)
Lemma heap_translation s D T va :
  kernel_space s D T → heap_address va →
  mmu (mem (hw s)) (D * PAGE_SIZE) va false =
    if has_perm (heap_pte s T va) PERM_PRESENT
    then Some (frame_of (heap_pte s T va) * PAGE_SIZE + PGOFF va) else None.
Proof.
  intros Hk Hva. pose proof (heap_address_entry va Hva) as Hd.
  destruct (ks_entry _ _ _ Hk _ Hd) as [Hf Hp].
  rewrite (mmu_entry s _ D va (T (PDX va))); [|apply frame_of_page; by eapply kernel_space_D|done].
  by rewrite Hp.
Qed.

(** The bookkeeping after the loop. *)
Definition recorded (i first n : Z) : KState → KState :=
  on_kheap (λ r, MkKHeap (virtualAddresses r) (<[i := MkSAK n first 0]> (allocatedHAddresses r))
                   (u32 (i + 1)) (firstFreeVAInKHeap r)).
Lemma upd_alloc_eq i g s :
  0 ≤ i < KHEAP_ENTRIES →
  upd_alloc i g s = Ret tt (on_kheap (λ r,
      set_allocatedHAddresses (<[i := g (allocatedHAddresses r !!! i)]> (allocatedHAddresses r)) r) s).
Proof.
  intros Hi. unfold upd_alloc. by rewrite (proj2 (Z.leb_le _ _)), (proj2 (Z.ltb_lt _ _)) by lia.
Qed.
Lemma kmalloc_record s i first n :
  0 ≤ i < KHEAP_ENTRIES → idx (kheap s) = i →
  (i ← get_idx;
   upd_alloc i (set_sak_virtualAddress first);; upd_alloc i (set_sak_size n);;
   upd_alloc i (set_sak_empty 0);; set_kidx (i + 1);; mret first) s
  = Ret first (recorded i first n s).
Proof.
  intros Hi Hidx. unfold get_idx. rewrite bind_gets. cbn [compose]. rewrite Hidx.
  rewrite !(bind_Ret _ _ _ _ _ (upd_alloc_eq i _ _ Hi)).
  unfold set_kidx. rewrite bind_modify. unfold mret, M_ret. f_equal.
  unfold recorded, on_kheap, set_kheap, set_idx, set_allocatedHAddresses. cbn.
  by rewrite !array_set_set, !array_get_set_eq.
Qed.

Section Kmalloc.
Context `{Extern} (D : Z) (T : Z → Z).

Lemma kmalloc_spec s sz fs xs m :
  heap_ready s D T (fs ++ xs, m) → Z.of_nat (length fs) = kpages sz →
  0 ≤ idx (kheap s) < KHEAP_ENTRIES →
  firstFreeVAInKHeap (kheap s) + kpages sz * PAGE_SIZE < KERNEL_HEAP_MAX →
  ∃ s1, kmalloc sz s = Ret (firstFreeVAInKHeap (kheap s))
                         (recorded (idx (kheap s)) (firstFreeVAInKHeap (kheap s)) (kpages sz) s1) ∧
        pages_mapped T (firstFreeVAInKHeap (kheap s)) fs s s1 ∧
        kernel_space s1 D T ∧ allocator s1 (xs, one_each fs m).
Proof.
  intros Hr Hlen Hi Hroom. set (first := firstFreeVAInKHeap (kheap s)) in *.
  pose proof (kpages_range sz) as Hn. destruct (hr_first _ _ _ _ Hr) as [[Hf1 Hf2] Hf3].
  fold first in Hf1, Hf2, Hf3.
  destruct (kmalloc_loop D T s fs xs m (kpages sz) Hr) as (s1 & Hs1 & Hpm & Hk & Ha); [|done|].
  { unfold heap_range, PAGE_SIZE in *. fold first. split_and!; (done || lia). }
  exists s1. split_and!; try done. unfold kmalloc. cbv zeta.
  mstep (eq_refl : get_firstFree s = Ret (firstFreeVAInKHeap (kheap s)) s).
  fold first. rewrite kheap_limit_eq by done.
  rewrite (proj2 (Z.leb_gt _ _)) by (unfold PAGE_SIZE in *; lia).
  mstep Hs1. apply kmalloc_record; [done|]. by rewrite (pm_kheap _ _ _ _ _ Hpm).
Qed.

(** With fewer free frames than pages the last free frame is mapped and the next request for one
    panics. *)
Lemma kmalloc_exhausted s sz xs m :
  heap_ready s D T (xs, m) → Z.of_nat (length xs) < kpages sz →
  firstFreeVAInKHeap (kheap s) + kpages sz * PAGE_SIZE < KERNEL_HEAP_MAX →
  ∃ msg s', kmalloc sz s = Panic msg s'.
Proof.
  intros Hr Hlen Hroom. set (first := firstFreeVAInKHeap (kheap s)) in *. set (k := Z.of_nat (length xs)) in *.
  pose proof (kpages_range sz) as Hn. destruct (hr_first _ _ _ _ Hr) as [[Hf1 Hf2] Hf3].
  fold first in Hf1, Hf2, Hf3.
  destruct (kmalloc_loop D T s xs [] m k) as (s1 & Hs1 & _ & _ & Ha);
    [by rewrite app_nil_r|unfold heap_range, PAGE_SIZE in *; fold first; split_and!; (done || lia)|done|].
  eexists _, s1. unfold kmalloc. cbv zeta.
  mstep (eq_refl : get_firstFree s = Ret (firstFreeVAInKHeap (kheap s)) s).
  fold first. rewrite kheap_limit_eq by done. rewrite (proj2 (Z.leb_gt _ _)) by (unfold PAGE_SIZE in *; lia).
  change (λ _ : Z, va ← get_firstFree; map_heap_page va;; set_firstFree (u32 (va + PAGE_SIZE)))
    with (λ _ : Z, kmalloc_page).
  assert (seqZ 0 (kpages sz) = seqZ 0 k ++ seqZ k (kpages sz - k)) as ->.
  { replace (kpages sz) with (k + (kpages sz - k)) at 1 by lia. rewrite seqZ_app by lia. by rewrite Z.add_0_l. }
  set (msg := "ERROR: Kernel run out of memory... allocate_frame cannot find a free frame.").
  assert (kmalloc_page s1 = Panic msg s1) as Hp.
  { unfold kmalloc_page, get_firstFree. rewrite bind_gets. unfold map_heap_page, mbind, M_bind.
    by rewrite (allocate_frame_exhausted _ _ Ha). }
  assert (forM (seqZ 0 k ++ seqZ k (kpages sz - k)) (λ _, kmalloc_page) s = Panic msg s1) as Hl.
  { rewrite forM_app. mstep Hs1. rewrite (seqZ_cons k) by lia. cbn [forM]. unfold mbind, M_bind. by rewrite Hp. }
  unfold mbind at 1, M_bind at 1. by rewrite Hl.
Qed.

Lemma heap_ready_after s s1 sz fs xs m :
  heap_ready s D T (fs ++ xs, m) → Z.of_nat (length fs) = kpages sz →
  firstFreeVAInKHeap (kheap s) + kpages sz * PAGE_SIZE < KERNEL_HEAP_MAX →
  pages_mapped T (firstFreeVAInKHeap (kheap s)) fs s s1 →
  kernel_space s1 D T → allocator s1 (xs, one_each fs m) →
  heap_ready (recorded (idx (kheap s)) (firstFreeVAInKHeap (kheap s)) (kpages sz) s1) D T (xs, one_each fs m).
Proof.
  intros Hr Hlen Hroom Hpm Hk Ha. pose proof (kpages_range sz) as Hn.
  destruct (hr_first _ _ _ _ Hr) as [[Hf1 Hf2] Hf3].
  set (first := firstFreeVAInKHeap (kheap s)) in *.
  assert (heap_range first (kpages sz)) as Hrange
    by (unfold heap_range, PAGE_SIZE in *; split_and!; (done || lia)).
  assert (firstFreeVAInKHeap (kheap s1) = first + kpages sz * PAGE_SIZE) as Hff
    by (rewrite (pm_kheap _ _ _ _ _ Hpm); cbn; by rewrite Hlen).
  split.
  - by eapply kernel_space_same; [..|exact Hk].
  - by eapply allocator_frames; [|exact Ha].
  - intros g. cbn. rewrite one_each_lookup. case_decide; [done|]. apply (hr_counts _ _ _ _ Hr).
  - intros g Hg. destruct (pm_footprint _ _ _ _ _ Hpm) as (_ & Hnf & _).
    cbn. rewrite Hnf. apply (hr_frames _ _ _ _ Hr). cbn in *. set_solver.
  - cbn. rewrite Hff. split; [unfold PAGE_SIZE in *; lia|]. by rewrite Z_mod_plus_full.
  - intros va Hva. cbn. rewrite Hff. intros Hge.
    change (heap_pte (recorded _ _ _ s1) T va) with (heap_pte s1 T va).
    unfold heap_pte, pte. rewrite (pm_other _ _ _ _ _ Hpm).
    + apply (hr_unmapped _ _ _ _ Hr); [done|]. fold first. unfold PAGE_SIZE in *. lia.
    + intros k Hlt He. apply (entry_word_inj s1 D T) in He; [|done|done|eapply heap_range_page; [done|lia]].
      unfold PAGE_SIZE in *. lia.
Qed.
End Kmalloc.

(** ** kfree *)
Section Physical.
Context `{Extern} (s : KState) (D : Z) (T : Z → Z) (Hk : kernel_space s D T).

Lemma kheap_physical_address_spec va :
  heap_address va → is_u32 (heap_pte s T va) →
  kheap_physical_address va s = Ret (frame_of (heap_pte s T va) * PAGE_SIZE) s.
Proof using Hk.
  intros Hva Hu. destruct (heap_table s D T Hk va Hva) as [Ht _].
  unfold kheap_physical_address. rewrite bind_gets. cbn [compose]. rewrite (ks_dir _ _ _ Hk).
  mstep (get_page_table_present s _ _ _ _ _ Ht). cbn beta iota. mstep (load_entry s _ _ _ _ _ Ht).
  fold (heap_pte s T va). unfold mret, M_ret. f_equal. rewrite Z.shiftr_div_pow2 by done.
  pose proof (frame_of_range (heap_pte s T va)) as Hr. unfold frame_of in *. rewrite (u32_small _ Hu) in *.
  apply u32_small. unfold is_u32, PAGE_SIZE in *. change (2 ^ 12) with 4096. lia.
Qed.
End Physical.

(** Reference counts once nobody refers to the frames [fs]. *)
Definition none_each (fs : list Z) (m : gmap Z Z) : gmap Z Z := foldl (λ m f, <[f := 0]> m) m fs.
Lemma none_each_lookup fs m f : none_each fs m !!! f = if decide (f ∈ fs) then 0 else m !!! f.
Proof.
  revert m. induction fs as [|g fs IH]; intros m; [done|].
  change (none_each (g :: fs) m) with (none_each fs (<[g := 0]> m)). rewrite IH.
  destruct (decide (f ∈ fs)), (decide (f ∈ g :: fs)); try done; [set_solver|..].
  - assert (g = f) as -> by set_solver. apply array_get_set_eq.
  - apply array_get_set_ne. set_solver.
Qed.

(** An allocation: [n] pages from [first] mapped to the frames [fs], each referenced once. *)
Record allocation (s : KState) (T : Z → Z) (first : Z) (fs : list Z) (a : astate) : Prop := {
  al_range : heap_range first (Z.of_nat (length fs));
  al_entry k f : fs !! k = Some f →
    let e := heap_pte s T (first + Z.of_nat k * PAGE_SIZE) in is_u32 e ∧ e ≠ 0 ∧ frame_of e = f;
  al_frames f : f ∈ fs → f < number_of_frames (frames s) ∧ a.2 !!! f = 1 ∧ f ∉ a.1;
  al_distinct : NoDup fs;
}.
(** Its first pages, mapped to [fs], have been given back. *)
Record pages_unmapped (T : Z → Z) (first : Z) (fs : list Z) (s s' : KState) : Prop := {
  pu_footprint : heap_footprint s s';
  pu_entry k : (k < length fs)%nat → heap_pte s' T (first + Z.of_nat k * PAGE_SIZE) = 0;
  pu_other j : (∀ k, (k < length fs)%nat → j ≠ entry_word T (first + Z.of_nat k * PAGE_SIZE)) →
    get_word s' j = get_word s j;
  pu_kheap : kheap s' = MkKHeap (none_each fs (virtualAddresses (kheap s))) (allocatedHAddresses (kheap s))
                          (idx (kheap s)) (firstFreeVAInKHeap (kheap s));
}.

Section Kfree.
Context `{Extern} (D : Z) (T : Z → Z).

Definition kfree_page (va : Z) : K unit :=
  pa ← kheap_physical_address va;
  set_virtualAddress pa 0;;
  pgdir ← gets (ptr_page_directory ∘ boot);
  unmap_frame pgdir va.

Lemma kernel_space_reverse s f v : kernel_space s D T → kernel_space (set_reverse f v s) D T.
Proof. intros Hk. by eapply kernel_space_same; [..|exact Hk]. Qed.

Lemma kfree_page_spec s va f xs m :
  kernel_space s D T → heap_page va → is_u32 (heap_pte s T va) → heap_pte s T va ≠ 0 →
  frame_of (heap_pte s T va) = f → f < number_of_frames (frames s) →
  allocator s (xs, m) → counts_ok (xs, m) → m !!! f = 1 → f ∉ xs →
  ∃ s', kfree_page va s = Ret tt s' ∧ entry_update (set_reverse f 0 s) s' va (T (PDX va)) 0 ∧
        kernel_space s' D T ∧ allocator s' (f :: xs, <[f := 0]> m).
Proof.
  intros Hk Hva Hu He Hf Hn Ha Hc Hm Hx. pose proof (heap_page_address va Hva) as Hva'.
  set (s1 := set_reverse f 0 s). assert (kernel_space s1 D T) as Hk1 by (by apply kernel_space_reverse).
  destruct (heap_table s1 D T Hk1 va Hva') as [Ht _].
  change (heap_pte s T va) with (pte s1 va (T (PDX va))) in He, Hf.
  destruct (unmap_frame_mapped (static D) va _ _ _ s1 (xs, m) (f :: xs, <[f := 0]> m) Ht He)
    as (s2 & Hs2 & Hu2 & Ha2); [by rewrite Hf|by eapply allocator_frames|done| |].
  { rewrite Hf. cbn. by rewrite decide_False, Hm by done. }
  exists s2. split_and!; [|done|by eapply kernel_space_entry_update|done].
  unfold kfree_page. mstep (kheap_physical_address_spec s D T Hk va Hva' Hu).
  change (heap_pte s T va) with (pte s1 va (T (PDX va))). rewrite Hf.
  unfold set_virtualAddress. rewrite bind_modify. unfold PAGE_SIZE. rewrite Z.div_mul by done.
  fold PAGE_SIZE. change (on_kheap _ s) with s1. rewrite bind_gets. cbn [compose].
  by rewrite (ks_dir _ _ _ Hk1).
Qed.

Lemma pages_unmapped_snoc s first fs f n s1 s' :
  kernel_space s1 D T → heap_range first n → Z.of_nat (length fs) < n →
  pages_unmapped T first fs s s1 →
  entry_update (set_reverse f 0 s1) s' (first + Z.of_nat (length fs) * PAGE_SIZE)
    (T (PDX (first + Z.of_nat (length fs) * PAGE_SIZE))) 0 →
  pages_unmapped T first (fs ++ [f]) s s'.
Proof.
  intros Hk Hr Hn [P1 P2 P3 P4]. set (va := first + Z.of_nat (length fs) * PAGE_SIZE). intros Hu.
  assert (∀ k, (k < length fs)%nat → entry_word T (first + Z.of_nat k * PAGE_SIZE) ≠ entry_word T va) as Hne.
  { intros k Hlt He. apply (heap_range_inj s1 D T first n) in He; [lia|done|done|lia|lia]. }
  split.
  - etrans; [exact P1|]. etrans; [apply (on_kheap_footprint s1)|by eapply entry_update_footprint].
  - intros k Hlt. rewrite length_app in Hlt. cbn in Hlt.
    destruct (decide (k = length fs)) as [->|].
    + apply (entry_update_pte _ _ _ _ _ Hu).
    + rewrite <-(P2 k) by lia. apply (entry_update_other _ _ _ _ _ _ Hu), Hne. lia.
  - intros j Hj. rewrite length_app in Hj. cbn in Hj.
    rewrite (entry_update_other _ _ _ _ _ j Hu) by (apply Hj; lia).
    apply P3. intros k Hlt. apply Hj. lia.
  - rewrite (entry_update_kheap _ _ _ _ _ Hu). unfold set_reverse, on_kheap, set_kheap, set_virtualAddresses. cbn.
    rewrite P4. cbn. f_equal. unfold none_each. by rewrite foldl_app.
Qed.

Lemma kfree_loop s first fs xs m :
  kernel_space s D T → allocator s (xs, m) → counts_ok (xs, m) →
  allocation s T first fs (xs, m) →
  ∃ s', forM (seqZ 0 (Z.of_nat (length fs))) (λ i, kfree_page (u32 (first + i * PAGE_SIZE))) s = Ret tt s' ∧
        pages_unmapped T first fs s s' ∧ kernel_space s' D T ∧
        allocator s' (reverse fs ++ xs, none_each fs m).
Proof.
  intros Hk Ha Hc [Hr He Hf Hnd].
  destruct (forM_seqZ (λ k s', pages_unmapped T first (take (Z.to_nat k) fs) s s' ∧
    kernel_space s' D T ∧ allocator s' (reverse (take (Z.to_nat k) fs) ++ xs, none_each (take (Z.to_nat k) fs) m))
    (λ i, kfree_page (u32 (first + i * PAGE_SIZE))) 0 (Z.of_nat (length fs)) s)
    as (s' & Hs' & Hpu & Hk' & Ha'); [lia| | |rewrite take_ge in * by lia; by exists s'].
  { rewrite take_0. split_and!; [|done|done]. split; try done; [intros k Hlt; by destruct (Nat.nlt_0_r k)|].
    by destruct (kheap s). }
  intros k s1 Hk1 (Hpu & Hks & Ha1).
  destruct (lookup_lt_is_Some_2 fs (Z.to_nat k)) as [f Hfk]; [lia|].
  replace (Z.to_nat (k + 1)) with (Datatypes.S (Z.to_nat k)) by lia. rewrite (take_S_r _ _ f) by done.
  assert (f ∉ take (Z.to_nat k) fs) as Hft.
  { rewrite <-(take_drop_middle fs (Z.to_nat k) f Hfk) in Hnd. by apply NoDup_mid in Hnd as (_ & _ & ? & _). }
  destruct (He _ _ Hfk) as (Hu & Hne & Hfr). rewrite Z2Nat.id in Hu, Hne, Hfr by lia.
  pose proof (heap_range_page first _ k Hr ltac:(lia)) as Hva.
  assert (Z.of_nat (length (take (Z.to_nat k) fs)) = k) as Hlen by (rewrite length_take; lia).
  assert (heap_pte s1 T (first + k * PAGE_SIZE) = heap_pte s T (first + k * PAGE_SIZE)) as Hpte.
  { unfold heap_pte, pte. apply (pu_other _ _ _ _ _ Hpu). intros k' Hlt Hw.
    apply (heap_range_inj s1 D T first (Z.of_nat (length fs))) in Hw; [lia|done|done|lia|lia]. }
  rewrite Z.add_0_l. assert (u32 (first + k * PAGE_SIZE) = first + k * PAGE_SIZE) as ->.
  { apply u32_small. destruct Hva as [[? ?] _]. unfold is_u32, KERNEL_HEAP_START, KERNEL_HEAP_MAX in *. lia. }
  destruct (Hf f ltac:(by eapply list_elem_of_lookup_2)) as (Hfn & Hm1 & Hfx). cbn in Hm1, Hfx.
  destruct (kfree_page_spec s1 (first + k * PAGE_SIZE) f (reverse (take (Z.to_nat k) fs) ++ xs)
    (none_each (take (Z.to_nat k) fs) m)) as (s2 & Hs2 & Hu2 & Hk2 & Ha2); rewrite ?Hpte; try done.
  - pose proof (pu_footprint _ _ _ _ _ Hpu) as (_ & -> & _). done.
  - intros g. cbn. rewrite none_each_lookup. case_decide; [done|]. apply (Hc g).
  - by rewrite none_each_lookup, decide_False.
  - rewrite elem_of_app, elem_of_reverse. tauto.
  - exists s2. split_and!; [done| |done|].
    + eapply (pages_unmapped_snoc s first _ f _ s1); [done|done|lia|done|by rewrite Hlen].
    + rewrite reverse_app. unfold none_each. by rewrite foldl_app.
Qed.

(** The search of kfree finds the first record of the address. *)
Lemma kfree_find_spec s va i :
  0 ≤ i < KHEAP_ENTRIES → sak_virtualAddress (allocatedHAddresses (kheap s) !!! i) = va →
  (∀ j, 0 ≤ j < i → sak_virtualAddress (allocatedHAddresses (kheap s) !!! j) ≠ va) →
  mloop (Z.to_nat (KHEAP_ENTRIES + 1)) (kfree_find va) 0 s = Ret (Some i) s.
Proof.
  intros Hi Hva Hj.
  replace (Z.to_nat (KHEAP_ENTRIES + 1)) with (Z.to_nat i + Datatypes.S (Z.to_nat (KHEAP_ENTRIES - i)))%nat by lia.
  rewrite (mloop_steps (kfree_find va) Z.of_nat s (Z.to_nat i)).
  - apply mloop_break. unfold kfree_find. rewrite Z2Nat.id, (proj2 (Z.ltb_lt _ _)) by lia. cbn [negb].
    unfold get_alloc. rewrite bind_gets. by rewrite Hva, Z.eqb_refl.
  - intros j Hlt. unfold kfree_find. rewrite (proj2 (Z.ltb_lt _ _)) by lia. cbn [negb].
    unfold get_alloc. rewrite bind_gets, (proj2 (Z.eqb_neq _ _)) by (apply Hj; lia).
    unfold mret, M_ret. do 2 f_equal. lia.
Qed.

Definition marked_empty (i : Z) : KState → KState :=
  on_kheap (λ r, set_allocatedHAddresses
    (<[i := set_sak_empty 1 (allocatedHAddresses r !!! i)]> (allocatedHAddresses r)) r).

Lemma kfree_spec s first fs xs m i :
  kernel_space s D T → allocator s (xs, m) → counts_ok (xs, m) → allocation s T first fs (xs, m) →
  0 ≤ i < KHEAP_ENTRIES →
  sak_virtualAddress (allocatedHAddresses (kheap s) !!! i) = first →
  sak_size (allocatedHAddresses (kheap s) !!! i) = Z.of_nat (length fs) →
  (∀ j, 0 ≤ j < i → sak_virtualAddress (allocatedHAddresses (kheap s) !!! j) ≠ first) →
  ∃ s1, kfree first s = Ret tt (marked_empty i s1) ∧ pages_unmapped T first fs s s1 ∧
        kernel_space s1 D T ∧ allocator s1 (reverse fs ++ xs, none_each fs m).
Proof.
  intros Hk Ha Hc Hal Hi Hva Hsz Hj.
  destruct (kfree_loop s first fs xs m Hk Ha Hc Hal) as (s1 & Hs1 & Hpu & Hk1 & Ha1).
  exists s1. split_and!; try done. unfold kfree. mstep (kfree_find_spec s first i Hi Hva Hj).
  rewrite bind_assoc. unfold get_alloc. rewrite bind_gets, bind_mret, Hsz.
  mstep Hs1. cbn [read_local]. rewrite bind_mret. by mstep (upd_alloc_eq i (set_sak_empty 1) s1 Hi).
Qed.
End Kfree.

(** ** Properties *)

(** When the heap has room, kmalloc returns the first free heap address and maps the pages
    that the size needs, from there on, to the first frames of the free list in order, both ways
    (page table and reverse map); it records the allocation, advances the first free address, and
    leaves a heap ready for the next request with those frames referenced once.  No other word of
    memory and nothing outside the heap, the frames and the kernel's tables changes. *)
Theorem kmalloc_maps_fresh_pages `{Extern} s D T sz fs xs m :
  heap_ready s D T (fs ++ xs, m) → Z.of_nat (length fs) = kpages sz →
  0 ≤ idx (kheap s) < KHEAP_ENTRIES →
  firstFreeVAInKHeap (kheap s) + kpages sz * PAGE_SIZE < KERNEL_HEAP_MAX →
  let first := firstFreeVAInKHeap (kheap s) in
  ∃ s', kmalloc sz s = Ret first s' ∧ heap_footprint s s' ∧
    heap_ready s' D T (xs, one_each fs m) ∧
    firstFreeVAInKHeap (kheap s') = first + kpages sz * PAGE_SIZE ∧
    allocatedHAddresses (kheap s') = <[idx (kheap s) := MkSAK (kpages sz) first 0]> (allocatedHAddresses (kheap s)) ∧
    (∀ k f, fs !! k = Some f →
       mmu (mem (hw s')) (D * PAGE_SIZE) (first + Z.of_nat k * PAGE_SIZE) false = Some (f * PAGE_SIZE) ∧
       virtualAddresses (kheap s') !!! f = first + Z.of_nat k * PAGE_SIZE) ∧
    (∀ j, (∀ k, (k < length fs)%nat → j ≠ entry_word T (first + Z.of_nat k * PAGE_SIZE)) →
       get_word s' j = get_word s j).
Proof.
  intros Hr Hlen Hi Hroom first.
  destruct (kmalloc_spec D T s sz fs xs m Hr Hlen Hi Hroom) as (s1 & Hs1 & Hpm & Hk & Ha).
  pose proof (heap_ready_after D T s s1 sz fs xs m Hr Hlen Hroom Hpm Hk Ha) as Hr'.
  eexists. split_and!; [exact Hs1| |exact Hr'| | | |apply Hpm].
  - etrans; [apply Hpm|apply on_kheap_footprint].
  - cbn. rewrite (pm_kheap _ _ _ _ _ Hpm). cbn. by rewrite Hlen.
  - cbn. by rewrite (pm_kheap _ _ _ _ _ Hpm).
  - intros k f Hf. destruct (pm_entry _ _ _ _ _ Hpm k f Hf) as [He Hv]. split; [|exact Hv].
    assert (0 ≤ f < 2 ^ 20) as Hfr by (apply (hr_frames _ _ _ _ Hr); cbn; apply elem_of_app; left; by eapply list_elem_of_lookup_2).
    pose proof (kpages_range sz). pose proof (lookup_lt_Some _ _ _ Hf).
    destruct (hr_first _ _ _ _ Hr) as [[Hf1 Hf2] Hf3]. fold first in Hf1, Hf2, Hf3, Hroom, He, Hv |- *.
    assert (heap_page (first + Z.of_nat k * PAGE_SIZE)) as Hva.
    { eapply (heap_range_page _ (kpages sz)); [|lia]. unfold heap_range, PAGE_SIZE in *. split_and!; (done || lia). }
    rewrite (heap_translation _ D T); [|apply Hr'|by apply heap_page_address].
    change (heap_pte (recorded _ _ _ s1) T) with (heap_pte s1 T). rewrite He.
    rewrite entry_for_present, frame_of_entry_for by done. f_equal.
    destruct Hva as [[? ?] Hm]. unfold PGOFF. rewrite land_0xFFF.
    rewrite u32_small by (unfold is_u32, KERNEL_HEAP_START, KERNEL_HEAP_MAX in *; lia).
    unfold PAGE_SIZE in *. by rewrite Hm, Z.add_0_r.
Qed.

(** Kmalloc returns NULL and changes nothing as soon as the request would reach the last page
    of the heap area, an exact fit included. *)
Theorem kmalloc_refuses `{Extern} s D T a sz :
  heap_ready s D T a →
  KERNEL_HEAP_MAX ≤ firstFreeVAInKHeap (kheap s) + kpages sz * PAGE_SIZE → kmalloc sz s = Ret 0 s.
Proof.
  intros Hr Hroom. unfold kmalloc. cbv zeta.
  mstep (eq_refl : get_firstFree s = Ret (firstFreeVAInKHeap (kheap s)) s).
  rewrite kheap_limit_eq by apply kpages_range. by rewrite (proj2 (Z.leb_le _ _)) by lia.
Qed.

(** Rounding the size up to pages wraps: a request within one page of 4 GB counts as zero
    pages, and kmalloc answers with an address that nothing is mapped at. *)
Theorem kmalloc_size_wraps `{Extern} s D T a sz :
  heap_ready s D T a → 2 ^ 32 - PAGE_SIZE < sz < 2 ^ 32 →
  0 ≤ idx (kheap s) < KHEAP_ENTRIES → firstFreeVAInKHeap (kheap s) < KERNEL_HEAP_MAX →
  ∃ s', kmalloc sz s = Ret (firstFreeVAInKHeap (kheap s)) s' ∧
    mmu (mem (hw s')) (D * PAGE_SIZE) (firstFreeVAInKHeap (kheap s)) false = None.
Proof.
  intros Hr Hsz Hi Hroom. destruct a as [xs m].
  assert (kpages sz = 0) as H0.
  { unfold kpages, u32, PAGE_SIZE in *. zdiv. }
  destruct (kmalloc_spec D T s sz [] xs m Hr) as (s1 & Hs1 & Hpm & Hk & Ha); [done|done|lia|].
  eexists. split; [exact Hs1|]. destruct (hr_first _ _ _ _ Hr) as [[? ?] Hm].
  set (first := firstFreeVAInKHeap (kheap s)) in *.
  assert (heap_page first) as Hp by (split; [lia|done]).
  rewrite (heap_translation _ D T); [|by eapply kernel_space_same; [..|exact Hk]|by apply heap_page_address].
  change (heap_pte (recorded _ _ _ s1) T) with (heap_pte s1 T). unfold heap_pte, pte.
  rewrite (pm_other _ _ _ _ _ Hpm) by (cbn; lia).
  fold (pte s first (T (PDX first))). fold (heap_pte s T first).
  by rewrite (hr_unmapped _ _ _ _ Hr).
Qed.

(** Freeing an address that kmalloc never returned finds no record, and the write to
    [allocatedHAddresses[index]] uses an index that was never assigned. *)
Theorem kfree_unknown_address `{Extern} s va :
  (∀ j, 0 ≤ j < KHEAP_ENTRIES → sak_virtualAddress (allocatedHAddresses (kheap s) !!! j) ≠ va) →
  kfree va s = Crash (Undefined "index") s.
Proof.
  intros Hj. unfold kfree.
  assert (mloop (Z.to_nat (KHEAP_ENTRIES + 1)) (kfree_find va) 0 s = Ret None s) as Hloop.
  { replace (Z.to_nat (KHEAP_ENTRIES + 1)) with (Z.to_nat KHEAP_ENTRIES + 1)%nat
      by (assert (0 ≤ KHEAP_ENTRIES) by (by vm_compute); lia).
    rewrite (mloop_steps (kfree_find va) Z.of_nat s).
    - apply mloop_break. unfold kfree_find. rewrite Z2Nat.id, Z.ltb_irrefl by (by vm_compute). done.
    - intros j Hlt. unfold kfree_find. rewrite (proj2 (Z.ltb_lt _ _)) by lia. cbn [negb].
      unfold get_alloc. rewrite bind_gets, (proj2 (Z.eqb_neq _ _)) by (apply Hj; lia).
      unfold mret, M_ret. do 2 f_equal. lia. }
  by mstep Hloop.
Qed.

Lemma kmalloc_allocation s D T sz fs xs m s1 :
  heap_ready s D T (fs ++ xs, m) → Z.of_nat (length fs) = kpages sz →
  firstFreeVAInKHeap (kheap s) + kpages sz * PAGE_SIZE < KERNEL_HEAP_MAX →
  pages_mapped T (firstFreeVAInKHeap (kheap s)) fs s s1 →
  allocation s1 T (firstFreeVAInKHeap (kheap s)) fs (xs, one_each fs m).
Proof.
  intros Hr Hlen Hroom Hpm. destruct (hr_first _ _ _ _ Hr) as [[? ?] Hm]. pose proof (kpages_range sz).
  assert (NoDup (fs ++ xs)) as Hnd by (by destruct Hr as [_ [(_ & _ & _ & ? & _) _]]).
  apply NoDup_app in Hnd as (Hnd & Hdis & _).
  split; [|..|done].
  - unfold heap_range, PAGE_SIZE in *. split_and!; (done || lia).
  - intros k f Hf. destruct (pm_entry _ _ _ _ _ Hpm k f Hf) as [-> _].
    assert (0 ≤ f < 2 ^ 20) as Hfr
      by (apply (hr_frames _ _ _ _ Hr); cbn; apply elem_of_app; left; by eapply list_elem_of_lookup_2).
    cbn zeta. split_and!; [by apply entry_for_u32| |by apply frame_of_entry_for].
    intros He. pose proof (entry_for_present f HEAP_PERM Hfr) as Hp. by rewrite He in Hp.
  - intros f Hf. destruct (pm_footprint _ _ _ _ _ Hpm) as (_ & -> & _). split_and!.
    + apply (hr_frames _ _ _ _ Hr). cbn. set_solver.
    + cbn. by rewrite one_each_lookup, decide_True.
    + cbn. by apply Hdis.
Qed.

(** Kfree undoes kmalloc: the pages of the allocation are unmapped again, every frame it took
    is free again with no references, and every word of memory outside their page-table entries
    is as it was before kmalloc; only the address range is not used again. *)
Theorem kmalloc_kfree_roundtrip `{Extern} s D T sz fs xs m :
  heap_ready s D T (fs ++ xs, m) → Z.of_nat (length fs) = kpages sz →
  0 ≤ idx (kheap s) < KHEAP_ENTRIES →
  firstFreeVAInKHeap (kheap s) + kpages sz * PAGE_SIZE < KERNEL_HEAP_MAX →
  (∀ j, 0 ≤ j < idx (kheap s) →
     sak_virtualAddress (allocatedHAddresses (kheap s) !!! j) ≠ firstFreeVAInKHeap (kheap s)) →
  let first := firstFreeVAInKHeap (kheap s) in
  ∃ s1 s2 m', kmalloc sz s = Ret first s1 ∧ kfree first s1 = Ret tt s2 ∧
    kernel_space s2 D T ∧ allocator s2 (reverse fs ++ xs, m') ∧ (∀ f, m' !!! f = m !!! f) ∧
    (∀ k, (k < length fs)%nat → heap_pte s2 T (first + Z.of_nat k * PAGE_SIZE) = 0) ∧
    (∀ j, (∀ k, (k < length fs)%nat → j ≠ entry_word T (first + Z.of_nat k * PAGE_SIZE)) →
       get_word s2 j = get_word s j) ∧
    firstFreeVAInKHeap (kheap s2) = first + kpages sz * PAGE_SIZE.
Proof.
  intros Hr Hlen Hi Hroom Hrec first.
  destruct (kmalloc_spec D T s sz fs xs m Hr Hlen Hi Hroom) as (s1 & Hs1 & Hpm & Hk & Ha).
  pose proof (kmalloc_allocation s D T sz fs xs m s1 Hr Hlen Hroom Hpm) as Hal. fold first in Hs1, Hpm, Hal.
  set (s1' := recorded (idx (kheap s)) first (kpages sz) s1) in *.
  assert (allocatedHAddresses (kheap s1') =
    <[idx (kheap s) := MkSAK (kpages sz) first 0]> (allocatedHAddresses (kheap s))) as Hrecs
    by (cbn; by rewrite (pm_kheap _ _ _ _ _ Hpm)).
  destruct (kfree_spec D T s1' first fs xs (one_each fs m) (idx (kheap s))) as (s2 & Hs2 & Hpu & Hk2 & Ha2);
    [by eapply kernel_space_same; [..|exact Hk]|by eapply allocator_frames; [|exact Ha]| | |done|..].
  { intros g. cbn. rewrite one_each_lookup. case_decide; [done|]. apply (hr_counts _ _ _ _ Hr g). }
  { destruct Hal as [A1 A2 A3 A4]. split; done. }
  { by rewrite Hrecs, array_get_set_eq. }
  { by rewrite Hrecs, array_get_set_eq. }
  { intros j Hj. rewrite Hrecs, array_get_set_ne by lia. by apply Hrec. }
  exists s1', (marked_empty (idx (kheap s)) s2), (none_each fs (one_each fs m)).
  split_and!; [exact Hs1|exact Hs2| | | | | |].
  - by eapply kernel_space_same; [..|exact Hk2].
  - by eapply allocator_frames; [|exact Ha2].
  - intros f. rewrite none_each_lookup, one_each_lookup. case_decide; [|done].
    destruct (hr_alloc _ _ _ _ Hr) as (_ & Hfree & _). symmetry. apply Hfree. cbn. set_solver.
  - apply (pu_entry _ _ _ _ _ Hpu).
  - intros j Hj. etrans; [by apply (pu_other _ _ _ _ _ Hpu)|]. by apply (pm_other _ _ _ _ _ Hpm).
  - cbn. rewrite (pu_kheap _ _ _ _ _ Hpu). cbn. rewrite (pm_kheap _ _ _ _ _ Hpm). cbn. by rewrite Hlen.
Qed.

(** After kmalloc, for every byte of an allocated page kheap_physical_address gives the address
    of the page's frame, the offset dropped, and kheap_virtual_address maps that frame back to
    the page: the two conversions are inverse on page addresses. *)
Theorem kheap_address_roundtrip `{Extern} s D T sz fs xs m :
  heap_ready s D T (fs ++ xs, m) → Z.of_nat (length fs) = kpages sz →
  0 ≤ idx (kheap s) < KHEAP_ENTRIES →
  firstFreeVAInKHeap (kheap s) + kpages sz * PAGE_SIZE < KERNEL_HEAP_MAX →
  let first := firstFreeVAInKHeap (kheap s) in
  ∃ s', kmalloc sz s = Ret first s' ∧
    ∀ k f o, fs !! k = Some f → 0 ≤ o < PAGE_SIZE →
      kheap_physical_address (first + Z.of_nat k * PAGE_SIZE + o) s' = Ret (f * PAGE_SIZE) s' ∧
      kheap_virtual_address (f * PAGE_SIZE) s' = Ret (first + Z.of_nat k * PAGE_SIZE) s'.
Proof.
  intros Hr Hlen Hi Hroom first.
  destruct (kmalloc_spec D T s sz fs xs m Hr Hlen Hi Hroom) as (s1 & Hs1 & Hpm & Hk & Ha).
  pose proof (kmalloc_allocation s D T sz fs xs m s1 Hr Hlen Hroom Hpm) as [Hrange He _ _].
  eexists. split; [exact Hs1|]. intros k f o Hf Ho. fold first in Hpm, Hrange, He |- *.
  pose proof (lookup_lt_Some _ _ _ Hf). destruct (He k f Hf) as (Hu & _ & Hfr).
  pose proof (heap_range_page _ _ (Z.of_nat k) Hrange ltac:(lia)) as [[Hlo Hhi] Hm].
  set (va := first + Z.of_nat k * PAGE_SIZE) in *.
  assert (0 ≤ f < 2 ^ 20) as Hfb by (rewrite <-Hfr; apply frame_of_range).
  assert (PPN (va + o) = PPN va) as HP.
  { rewrite !PPN_eq. unfold KERNEL_HEAP_START, KERNEL_HEAP_MAX, PAGE_SIZE in *.
    rewrite !u32_small by (unfold is_u32; zdiv). zdiv. }
  assert (∀ s, heap_pte s T (va + o) = heap_pte s T va) as Hpte.
  { intros s0. rewrite !PDX_PTX_PPN in HP. unfold NPTENTRIES in HP.
    pose proof (PTX_range va). pose proof (PTX_range (va + o)).
    assert (PDX (va + o) = PDX va) as Hd by lia. assert (PTX (va + o) = PTX va) as Hx by lia.
    unfold heap_pte, pte. by rewrite Hd, Hx. }
  split.
  - rewrite (kheap_physical_address_spec _ D T); [|by eapply kernel_space_same; [..|exact Hk]| |];
      [|unfold heap_address, KERNEL_HEAP_START, KERNEL_HEAP_MAX, PAGE_SIZE in *; zdiv|by rewrite Hpte].
    rewrite Hpte. change (heap_pte (recorded _ _ _ s1) T) with (heap_pte s1 T). by rewrite Hfr.
  - unfold kheap_virtual_address, gets. f_equal.
    rewrite u32_small by (unfold is_u32, PAGE_SIZE; lia). rewrite Z.div_mul by done.
    by destruct (pm_entry _ _ _ _ _ Hpm k f Hf).
Qed.

(** ** Witnesses *)

(** A kernel with 1024 frames: directory 300, static table 301, heap tables 302 to 341, an empty
    heap, and the free frames 5, 4 and 3. *)
Definition heap_tables (d : Z) : Z := 302 + (d - 984).
Definition heap_state : KState :=
  on_kheap (set_firstFreeVAInKHeap KERNEL_HEAP_START)
  (on_frames (set_number_of_frames 1024)
  (on_boot (set_ptr_page_directory (static 300))
  (on_hw (λ h, set_cr3 (300 * PAGE_SIZE)
    (set_mem (<[word 300 960 := 301 * PAGE_SIZE + 3]> (list_to_map
       (((λ d, (word 300 d, heap_tables d * PAGE_SIZE + 3)) <$> seqZ 984 40) ++
        ((λ f, (word 301 f, f * PAGE_SIZE + 3)) <$> seqZ 300 42)))) h)) three_free))).

Lemma range_all (P : Z → Prop) `{∀ d, Decision (P d)} a n :
  bool_decide (Forall P (seqZ a n)) = true → ∀ d, a ≤ d < a + n → P d.
Proof.
  intros HP%bool_decide_eq_true d Hd. rewrite Forall_forall in HP. apply HP, elem_of_seqZ. lia.
Qed.
Lemma heap_entry_range d : heap_entry d ↔ 984 ≤ d < 984 + 40.
Proof. unfold heap_entry. change (PDX KERNEL_HEAP_START) with 984. lia. Qed.
Lemma heap_state_kpage f : 300 ≤ f < 300 + 42 → kpage heap_state (static f) f.
Proof.
  intros Hf. unfold kpage. split_and!; [unfold static, is_u32, PAGE_SIZE, KERNEL_BASE; lia..| | |].
  - unfold static, PAGE_SIZE, KERNEL_BASE. zdiv.
  - lia.
  - revert f Hf. apply (range_all (λ f, mmu (mem (hw heap_state)) (cr3 (hw heap_state)) (static f) true =
      Some (f * PAGE_SIZE))). vm_compute. reflexivity.
Qed.
Lemma heap_state_walk f : 300 ≤ f < 300 + 42 → walk_frames heap_state (static f) = [300; 301].
Proof.
  revert f. apply (range_all (λ f, walk_frames heap_state (static f) = [300; 301])).
  vm_compute. reflexivity.
Qed.
Lemma heap_state_space : kernel_space heap_state 300 heap_tables.
Proof.
  split; unfold heap_tables; try setoid_rewrite heap_entry_range.
  - done.
  - apply (range_all (λ d, frame_of (get_word heap_state (word 300 d)) = 302 + (d - 984) ∧
      has_perm (get_word heap_state (word 300 d)) PERM_PRESENT = true)). vm_compute. reflexivity.
  - intros; lia.
  - intros d Hd. cbn. lia.
  - apply heap_state_kpage. lia.
  - intros d Hd. apply heap_state_kpage. lia.
  - intros d Hd. rewrite heap_state_walk by lia. rewrite !elem_of_cons, elem_of_nil. lia.
  - intros d d' Hd Hd'. rewrite heap_state_walk by lia. rewrite !elem_of_cons, elem_of_nil. lia.
Qed.
Lemma heap_state_unmapped va : heap_page va → heap_pte heap_state heap_tables va = 0.
Proof.
  intros Hva%heap_page_address%heap_address_entry. unfold heap_pte, pte, heap_tables.
  pose proof (PTX_range va) as Hp. revert Hp. generalize (PTX va) as i.
  revert Hva. generalize (PDX va) as d. intros d Hd i Hi. apply (proj1 (heap_entry_range d)) in Hd.
  unfold get_word, heap_state. cbn [hw mem on_hw set_mem set_hw on_boot set_boot set_frames on_frames set_cr3 on_kheap set_kheap].
  rewrite array_get_set_ne by (unfold word; lia).
  rewrite lookup_total_alt, not_elem_of_list_to_map_1; [done|].
  rewrite fmap_app, elem_of_app, <-!list_fmap_compose, !list_elem_of_fmap.
  intros [(x & Hx & Hin)|(x & Hx & Hin)]; apply elem_of_seqZ in Hin;
    cbn in Hx; unfold word in Hx; lia.
Qed.
Lemma heap_state_ready : heap_ready heap_state 300 heap_tables ([5; 4] ++ [3], ∅).
Proof.
  split.
  - apply heap_state_space.
  - exact three_free_allocator.
  - intros f. cbn. by rewrite zero_array.
  - intros f Hf. cbn in *. rewrite !elem_of_cons, elem_of_nil in Hf. lia.
  - done.
  - intros va Hva _. by rewrite heap_state_unmapped.
Qed.

(** Two pages: frames 5 and 4. *)
Lemma kmalloc_maps_fresh_pages_witness :
  ∃ s', @kmalloc no_nesting 5000 heap_state = Ret KERNEL_HEAP_START s' ∧
    mmu (mem (hw s')) (300 * PAGE_SIZE) (KERNEL_HEAP_START + PAGE_SIZE) false = Some (4 * PAGE_SIZE) ∧
    heap_ready s' 300 heap_tables ([3], one_each [5; 4] ∅).
Proof.
  destruct (@kmalloc_maps_fresh_pages no_nesting heap_state 300 heap_tables 5000 [5; 4] [3] ∅)
    as (s' & Hs' & _ & Hr & _ & _ & Hm & _);
    [apply heap_state_ready|vm_compute; reflexivity|by vm_compute|by vm_compute|].
  exists s'. split_and!; [exact Hs'| |exact Hr]. destruct (Hm 1%nat 4) as [Ht _]; [reflexivity|exact Ht].
Defined.

(** The whole heap area at once is refused. *)
Lemma kmalloc_refuses_witness :
  @kmalloc no_nesting (KERNEL_HEAP_MAX - KERNEL_HEAP_START) heap_state = Ret 0 heap_state.
Proof.
  apply (@kmalloc_refuses no_nesting heap_state 300 heap_tables _ _ heap_state_ready).
  by vm_compute.
Defined.

Lemma kmalloc_size_wraps_witness :
  ∃ s', @kmalloc no_nesting 0xFFFFFFFF heap_state = Ret KERNEL_HEAP_START s' ∧
    mmu (mem (hw s')) (300 * PAGE_SIZE) KERNEL_HEAP_START false = None.
Proof.
  destruct (@kmalloc_size_wraps no_nesting heap_state 300 heap_tables _ 0xFFFFFFFF heap_state_ready)
    as (s' & Hs' & Hm); [by vm_compute|by vm_compute|by vm_compute|].
  exists s'. split; [exact Hs'|exact Hm].
Defined.

Lemma kfree_unknown_address_witness :
  @kfree no_nesting (KERNEL_HEAP_START + PAGE_SIZE) heap_state = Crash (Undefined "index") heap_state.
Proof.
  apply (@kfree_unknown_address no_nesting). intros j _. cbn. by rewrite lookup_total_empty.
Defined.

Lemma kmalloc_kfree_roundtrip_witness :
  ∃ s1 s2, @kmalloc no_nesting 5000 heap_state = Ret KERNEL_HEAP_START s1 ∧
    @kfree no_nesting KERNEL_HEAP_START s1 = Ret tt s2 ∧ ∃ m, allocator s2 ([4; 5; 3], m).
Proof.
  destruct (@kmalloc_kfree_roundtrip no_nesting heap_state 300 heap_tables 5000 [5; 4] [3] ∅)
    as (s1 & s2 & m & Hs1 & Hs2 & _ & Ha & _);
    [apply heap_state_ready|vm_compute; reflexivity|by vm_compute|by vm_compute| |].
  { intros j Hj. cbn in Hj. lia. }
  exists s1, s2. split_and!; [exact Hs1|exact Hs2|]. exists m. exact Ha.
Defined.

Lemma kheap_address_roundtrip_witness :
  ∃ s', @kmalloc no_nesting 5000 heap_state = Ret KERNEL_HEAP_START s' ∧
    @kheap_physical_address no_nesting (KERNEL_HEAP_START + 1 * PAGE_SIZE + 8) s' = Ret (4 * PAGE_SIZE) s' ∧
    kheap_virtual_address (4 * PAGE_SIZE) s' = Ret (KERNEL_HEAP_START + 1 * PAGE_SIZE) s'.
Proof.
  destruct (@kheap_address_roundtrip no_nesting heap_state 300 heap_tables 5000 [5; 4] [3] ∅)
    as (s' & Hs' & Hr);
    [apply heap_state_ready|vm_compute; reflexivity|by vm_compute|by vm_compute|].
  assert (firstFreeVAInKHeap (kheap heap_state) = KERNEL_HEAP_START) as Hf by reflexivity.
  rewrite Hf in Hs', Hr. exists s'. split; [exact Hs'|].
  assert (0 ≤ 8 < PAGE_SIZE) as Ho by (unfold PAGE_SIZE; lia).
  pose proof (Hr 1%nat 4 8 eq_refl Ho) as Hx. change (Z.of_nat 1) with 1 in Hx. exact Hx.
Defined.
