(* ===== verification/KHeapInv.v ===== *)
(** * The kernel heap over a client's lifetime

    [heap_step] is what a client of kern/kheap.c may do: ask for memory, at least a page, give back
    what it got.
    In every reachable state the live allocations are disjoint, mapped page by page to frames of
    their own, nothing else of the heap area is mapped, and no frame is lost. *)
From S2P Require Import Prelude Machine Queue State AddressSpace PageFlags FrameAlloc FrameAllocSpec Paging PagingSpec KHeap KHeapSpec.

(** ** Frames held by allocations *)
Definition held (L : gmap Z (list Z)) : list Z := mjoin (map_to_list L).*2.
Lemma held_insert L va fs : L !! va = None → held (<[va := fs]> L) ≡ₚ fs ++ held L.
Proof. intros HL. unfold held. by rewrite (map_to_list_insert L va fs HL). Qed.
Lemma held_delete L va fs : L !! va = Some fs → held L ≡ₚ fs ++ held (delete va L).
Proof. intros HL. rewrite <-(insert_delete_id L va fs HL) at 1. apply held_insert, lookup_delete_eq. Qed.
Lemma held_elem L va fs f : L !! va = Some fs → f ∈ fs → f ∈ held L.
Proof. intros HL Hf. rewrite (held_delete L va fs HL). apply elem_of_app. by left. Qed.

Section Invariant.
Context `{Extern} (D : Z) (T : Z → Z) (F : list Z).

Notation first s := (firstFreeVAInKHeap (kheap s)).
Notation len fs := (Z.of_nat (length fs)).
Notation record_at s j := (allocatedHAddresses (kheap s) !!! j).

(** [L] maps the address of each live allocation to its frames; [F] are all the frames. *)
Record heap_inv (s : KState) (L : gmap Z (list Z)) (xs : list Z) (m : gmap Z Z) : Prop := {
  hi_ready : heap_ready s D T (xs, m);
  hi_frames : held L ++ xs ≡ₚ F;
  hi_nodup : NoDup F;
  hi_bounds f : f ∈ F → 0 ≤ f < 2 ^ 20 ∧ f < number_of_frames (frames s);
  hi_live va fs : L !! va = Some fs → fs ≠ [] ∧ heap_range va (len fs) ∧ va + len fs * PAGE_SIZE ≤ first s;
  hi_entry va fs k f : L !! va = Some fs → fs !! k = Some f →
    heap_pte s T (va + Z.of_nat k * PAGE_SIZE) = entry_for f HEAP_PERM;
  hi_refs f : f ∈ held L → m !!! f = 1;
  hi_disjoint va fs va' fs' : L !! va = Some fs → L !! va' = Some fs' → va < va' → va + len fs * PAGE_SIZE ≤ va';
  hi_unmapped va : heap_page va → (∀ v fs, L !! v = Some fs → ¬ (v ≤ va < v + len fs * PAGE_SIZE)) →
    has_perm (heap_pte s T va) PERM_PRESENT = false;
  hi_idx : 0 ≤ idx (kheap s) ∧ KERNEL_HEAP_START + idx (kheap s) * PAGE_SIZE ≤ first s;
  hi_record va fs : L !! va = Some fs →
    ∃ j, 0 ≤ j < idx (kheap s) ∧ sak_virtualAddress (record_at s j) = va ∧ sak_size (record_at s j) = len fs;
  hi_below j : 0 ≤ j < idx (kheap s) → sak_virtualAddress (record_at s j) < first s;
  hi_distinct i j : 0 ≤ i < j → j < idx (kheap s) →
    sak_virtualAddress (record_at s i) ≠ sak_virtualAddress (record_at s j);
}.

Lemma heap_entries_room s : first s + PAGE_SIZE ≤ KERNEL_HEAP_MAX →
  KERNEL_HEAP_START + idx (kheap s) * PAGE_SIZE ≤ first s → idx (kheap s) < KHEAP_ENTRIES.
Proof.
  change KHEAP_ENTRIES with 40959. unfold KERNEL_HEAP_MAX, KERNEL_HEAP_START, PAGE_SIZE. lia.
Qed.

(** The page of an allocation that a heap address lies in. *)
Lemma live_page s L xs m va fs k :
  heap_inv s L xs m → L !! va = Some fs → 0 ≤ k < len fs → heap_page (va + k * PAGE_SIZE).
Proof. intros Hi HL Hk. destruct (hi_live _ _ _ _ Hi va fs HL) as (_ & Hr & _). by eapply heap_range_page. Qed.
Lemma live_pages_differ s L xs m va fs va' fs' k k' :
  heap_inv s L xs m → L !! va = Some fs → L !! va' = Some fs' → va ≠ va' →
  0 ≤ k < len fs → 0 ≤ k' < len fs' → va + k * PAGE_SIZE ≠ va' + k' * PAGE_SIZE.
Proof.
  intros Hi HL HL' Hne Hk Hk' He. unfold PAGE_SIZE in *.
  destruct (decide (va < va')).
  - pose proof (hi_disjoint _ _ _ _ Hi va fs va' fs' HL HL'). unfold PAGE_SIZE in *. lia.
  - pose proof (hi_disjoint _ _ _ _ Hi va' fs' va fs HL' HL). unfold PAGE_SIZE in *. lia.
Qed.
Lemma frames_apart s L xs m va fs :
  heap_inv s L xs m → L !! va = Some fs → NoDup fs ∧ ∀ f, f ∈ fs → f ∉ xs ∧ f ∉ held (delete va L) ∧ f ∈ F.
Proof.
  intros Hi HL. pose proof (hi_nodup _ _ _ _ Hi) as Hnd. pose proof (hi_frames _ _ _ _ Hi) as HF.
  rewrite <-HF, (held_delete L va fs HL), <-app_assoc in Hnd. apply NoDup_app in Hnd as (Hn & Hf & _).
  split; [done|]. intros f Hin. pose proof (Hf f Hin) as Hx. rewrite elem_of_app in Hx.
  split_and!; [tauto|tauto|]. rewrite <-HF, elem_of_app. left. by eapply held_elem.
Qed.
(** An allocation as kfree wants it. *)
Lemma live_allocation s L xs m va fs :
  heap_inv s L xs m → L !! va = Some fs → allocation s T va fs (xs, m).
Proof.
  intros Hi HL. destruct (hi_live _ _ _ _ Hi va fs HL) as (_ & Hr & _).
  destruct (frames_apart s L xs m va fs Hi HL) as (Hnd & Hap). split; [done| | |done].
  - intros k f Hf. rewrite (hi_entry _ _ _ _ Hi va fs k f HL Hf).
    destruct (Hap f) as (_ & _ & HfF); [by eapply list_elem_of_lookup_2|].
    destruct (hi_bounds _ _ _ _ Hi f HfF) as [Hb _]. cbn zeta.
    split_and!; [by apply entry_for_u32| |by apply frame_of_entry_for].
    intros He. pose proof (entry_for_present f HEAP_PERM Hb) as Hp. by rewrite He in Hp.
  - intros f Hf. destruct (Hap f Hf) as (Hx & _ & HfF). destruct (hi_bounds _ _ _ _ Hi f HfF) as [_ Hb].
    split_and!; [done| |done]. apply (hi_refs _ _ _ _ Hi). by eapply held_elem.
Qed.

(** ** The empty heap *)
Lemma heap_inv_start s m :
  heap_ready s D T (F, m) → first s = KERNEL_HEAP_START → idx (kheap s) = 0 → heap_inv s ∅ F m.
Proof.
  intros Hr Hf Hi.
  split; try (intros; match goal with Hl : ∅ !! _ = Some _ |- _ => by rewrite lookup_empty in Hl end).
  - done.
  - done.
  - by destruct Hr as [_ [(_ & _ & _ & ? & _) _]].
  - intros f HF. by apply (hr_frames _ _ _ _ Hr).
  - intros f Hl. by apply not_elem_of_nil in Hl.
  - intros va Hva _. apply (hr_unmapped _ _ _ _ Hr); [done|]. rewrite Hf. by destruct Hva as [[? ?] _].
  - rewrite Hi, Hf. lia.
  - intros j. rewrite Hi. lia.
  - intros i j. rewrite Hi. lia.
Qed.

(** ** kmalloc *)
Lemma one_each_old fs m f : f ∉ fs → one_each fs m !!! f = m !!! f.
Proof. intros Hf. by rewrite one_each_lookup, decide_False. Qed.

Lemma kmalloc_other s s1 L xs m fs va :
  heap_inv s L xs m → kernel_space s1 D T → pages_mapped T (first s) fs s s1 → heap_range (first s) (len fs) →
  heap_page va → (∀ k, 0 ≤ k < len fs → va ≠ first s + k * PAGE_SIZE) →
  heap_pte s1 T va = heap_pte s T va.
Proof.
  intros Hi Hk Hpm Hr Hva Hne. unfold heap_pte, pte. apply (pm_other _ _ _ _ _ Hpm). intros k Hlt He.
  apply (entry_word_inj s1 D T) in He; [|done|done|eapply heap_range_page; [done|lia]].
  by apply (Hne (Z.of_nat k)); [lia|].
Qed.
Lemma heap_inv_kmalloc_pages s L xs m sz :
  heap_inv s L xs m → 0 < kpages sz → kpages sz ≤ Z.of_nat (length xs) →
  first s + kpages sz * PAGE_SIZE < KERNEL_HEAP_MAX →
  ∃ s1 fs ys, xs = fs ++ ys ∧ len fs = kpages sz ∧ L !! first s = None ∧ pages_mapped T (first s) fs s s1 ∧
    let s' := recorded (idx (kheap s)) (first s) (kpages sz) s1 in
    kmalloc sz s = Ret (first s) s' ∧ heap_inv s' (<[first s := fs]> L) ys (one_each fs m).
Proof.
  intros Hi Hpos Hlen Hroom.
  set (fs := take (Z.to_nat (kpages sz)) xs). set (ys := drop (Z.to_nat (kpages sz)) xs).
  assert (xs = fs ++ ys) as Hxs by (by unfold fs, ys; rewrite take_drop).
  assert (len fs = kpages sz) as Hfs by (unfold fs; rewrite length_take; lia). clearbody fs ys. subst xs.
  pose proof (hi_ready _ _ _ _ Hi) as Hr. destruct (hi_idx _ _ _ _ Hi) as [Hi0 Hi1].
  assert (idx (kheap s) < KHEAP_ENTRIES) as Hie by (apply heap_entries_room; [unfold PAGE_SIZE in *; lia|done]).
  assert (L !! first s = None) as HLf.
  { destruct (L !! first s) as [gs|] eqn:HL; [|done]. destruct (hi_live _ _ _ _ Hi _ _ HL) as (Hne & _ & Hle).
    destruct gs; [done|]. cbn in Hle. unfold PAGE_SIZE in Hle. lia. }
  destruct (kmalloc_spec D T s sz fs ys m Hr Hfs ltac:(lia) Hroom) as (s1 & Hs1 & Hpm & Hk & Ha).
  pose proof (heap_ready_after D T s s1 sz fs ys m Hr Hfs Hroom Hpm Hk Ha) as Hr'.
  pose proof (kmalloc_allocation s D T sz fs ys m s1 Hr Hfs Hroom Hpm) as [Hrange _ _ Hnd].
  set (s' := recorded (idx (kheap s)) (first s) (kpages sz) s1) in *.
  assert (allocatedHAddresses (kheap s') =
    <[idx (kheap s) := MkSAK (kpages sz) (first s) 0]> (allocatedHAddresses (kheap s))) as Hrec
    by (cbn; by rewrite (pm_kheap _ _ _ _ _ Hpm)).
  assert (idx (kheap s') = idx (kheap s) + 1) as Hidx.
  { cbn. apply u32_small. change KHEAP_ENTRIES with 40959 in Hie. unfold is_u32. lia. }
  assert (first s' = first s + len fs * PAGE_SIZE) as Hff by (cbn; by rewrite (pm_kheap _ _ _ _ _ Hpm)).
  exists s1, fs, ys. cbv zeta. fold s'. do 4 (split; [done|]). split; [exact Hs1|].
  destruct (pm_footprint _ _ _ _ _ Hpm) as (_ & Hnf & _).
  assert (∀ f, f ∈ fs → 0 ≤ f < 2 ^ 20) as Hfb.
  { intros f Hf. apply (hi_bounds _ _ _ _ Hi). rewrite <-(hi_frames _ _ _ _ Hi), !elem_of_app. auto. }
  split.
  - done.
  - rewrite (held_insert L (first s) fs HLf), <-app_assoc, Permutation_app_swap_app. apply (hi_frames _ _ _ _ Hi).
  - apply Hi.
  - intros f Hf. cbn. rewrite Hnf. by apply (hi_bounds _ _ _ _ Hi).
  - intros va gs. rewrite Hff. intros [[<- <-]|[Hne HL]]%lookup_insert_Some.
    + split_and!; [by intros ->; cbn in Hfs; lia|apply Hrange..|lia].
    + destruct (hi_live _ _ _ _ Hi va gs HL) as (? & ? & ?). split_and!; [done|done|unfold PAGE_SIZE in *; lia].
  - intros va gs k f. intros [[<- <-]|[Hne HL]]%lookup_insert_Some Hf.
    + by destruct (pm_entry _ _ _ _ _ Hpm k f Hf).
    + apply lookup_lt_Some in Hf as Hlt. change (heap_pte s') with (heap_pte s1).
      rewrite (kmalloc_other s s1 L (fs ++ ys) m fs _ Hi Hk Hpm Hrange);
        [by apply (hi_entry _ _ _ _ Hi va gs)|apply (live_page s L (fs ++ ys) m va gs); [done|done|lia]|].
      intros k' Hk'. destruct (hi_live _ _ _ _ Hi va gs HL) as (_ & _ & ?). unfold PAGE_SIZE in *. lia.
  - intros f. rewrite (held_insert L (first s) fs HLf), elem_of_app, one_each_lookup. intros Hf.
    case_decide; [done|]. apply (hi_refs _ _ _ _ Hi). tauto.
  - intros va gs va' gs' [[<- <-]|[Hne HL]]%lookup_insert_Some [[<- <-]|[Hne' HL']]%lookup_insert_Some Hlt; try lia.
    + destruct (hi_live _ _ _ _ Hi va' gs' HL') as (_ & _ & ?). unfold PAGE_SIZE in *. lia.
    + by destruct (hi_live _ _ _ _ Hi va gs HL) as (_ & _ & ?).
    + by apply (hi_disjoint _ _ _ _ Hi va gs va' gs').
  - intros va Hva Hn. change (heap_pte s') with (heap_pte s1).
    assert (¬ (first s ≤ va < first s + len fs * PAGE_SIZE)) as Hnew by (apply Hn, lookup_insert_eq).
    rewrite (kmalloc_other s s1 L (fs ++ ys) m fs _ Hi Hk Hpm Hrange); [|done|unfold PAGE_SIZE in *; lia].
    apply (hi_unmapped _ _ _ _ Hi); [done|]. intros v gs HL. apply Hn. rewrite lookup_insert_ne; [done|congruence].
  - rewrite Hidx, Hff. unfold PAGE_SIZE in *. lia.
  - intros va gs. rewrite Hrec, Hidx. intros [[<- <-]|[Hne HL]]%lookup_insert_Some.
    + exists (idx (kheap s)). rewrite array_get_set_eq. cbn. split_and!; [lia..|done|done].
    + destruct (hi_record _ _ _ _ Hi va gs HL) as (j & Hj & Hv & Hsz). exists j.
      rewrite array_get_set_ne by lia. split_and!; [lia..|done|done].
  - intros j. rewrite Hrec, Hidx, Hff. intros Hj. destruct (decide (j = idx (kheap s))) as [->|].
    + rewrite array_get_set_eq. cbn. unfold PAGE_SIZE. lia.
    + rewrite array_get_set_ne by lia. pose proof (hi_below _ _ _ _ Hi j). unfold PAGE_SIZE. lia.
  - intros i j. rewrite Hrec, Hidx. intros Hij Hj. rewrite (array_get_set_ne _ _ i) by lia.
    destruct (decide (j = idx (kheap s))) as [->|].
    + rewrite array_get_set_eq. cbn. pose proof (hi_below _ _ _ _ Hi i). lia.
    + rewrite array_get_set_ne by lia. apply (hi_distinct _ _ _ _ Hi); lia.
Qed.

Lemma heap_inv_kmalloc s L xs m sz :
  heap_inv s L xs m → 0 < kpages sz → kpages sz ≤ Z.of_nat (length xs) →
  first s + kpages sz * PAGE_SIZE < KERNEL_HEAP_MAX →
  ∃ s' fs ys, xs = fs ++ ys ∧ len fs = kpages sz ∧ L !! first s = None ∧
    kmalloc sz s = Ret (first s) s' ∧ heap_inv s' (<[first s := fs]> L) ys (one_each fs m).
Proof.
  intros Hi Hpos Hlen Hroom.
  destruct (heap_inv_kmalloc_pages s L xs m sz Hi Hpos Hlen Hroom) as (s1 & fs & ys & ? & ? & ? & _ & ? & ?).
  by eexists _, fs, ys.
Qed.

(** ** kfree *)
Lemma heap_inv_kfree_pages s L xs m va fs :
  heap_inv s L xs m → L !! va = Some fs →
  ∃ s1 i, pages_unmapped T va fs s s1 ∧ kfree va s = Ret tt (marked_empty i s1) ∧
    heap_inv (marked_empty i s1) (delete va L) (reverse fs ++ xs) (none_each fs m).
Proof.
  intros Hi HL. pose proof (hi_ready _ _ _ _ Hi) as Hr.
  destruct (hi_record _ _ _ _ Hi va fs HL) as (i & Hi' & Hva & Hsz).
  destruct (hi_live _ _ _ _ Hi va fs HL) as (Hne & Hrange & Hle).
  destruct (frames_apart s L xs m va fs Hi HL) as (Hnd & Hap).
  destruct (hi_idx _ _ _ _ Hi) as [Hi0 Hi1].
  assert (idx (kheap s) ≤ KHEAP_ENTRIES) as Hie.
  { destruct (hr_first _ _ _ _ Hr) as [[? ?] _]. change KHEAP_ENTRIES with 40959.
    unfold KERNEL_HEAP_MAX, KERNEL_HEAP_START, PAGE_SIZE in *. lia. }
  destruct (kfree_spec D T s va fs xs m i) as (s1 & Hs1 & Hpu & Hk & Ha); try done; try apply Hr.
  { by eapply live_allocation. }
  { lia. }
  { intros j Hj. rewrite <-Hva. apply (hi_distinct _ _ _ _ Hi); lia. }
  set (s' := marked_empty i s1) in *. exists s1, i. fold s'. split; [done|]. split; [done|].
  destruct (pu_footprint _ _ _ _ _ Hpu) as (_ & Hnf & _).
  assert (kernel_space s' D T) as Hk' by (by eapply kernel_space_same; [..|exact Hk]).
  assert (∀ p, heap_page p → (∀ k, 0 ≤ k < len fs → p ≠ va + k * PAGE_SIZE) →
            heap_pte s' T p = heap_pte s T p) as Hother.
  { intros p Hp Hn. unfold heap_pte, pte. apply (pu_other _ _ _ _ _ Hpu). intros k Hlt He.
    apply (entry_word_inj s1 D T) in He; [|done|done|eapply heap_range_page; [done|lia]].
    by apply (Hn (Z.of_nat k)); [lia|]. }
  assert (∀ p, heap_page p → (∀ v gs, delete va L !! v = Some gs → ¬ (v ≤ p < v + len gs * PAGE_SIZE)) →
            has_perm (heap_pte s' T p) PERM_PRESENT = false) as Hun.
  { intros p Hp Hn. destruct (decide (va ≤ p < va + len fs * PAGE_SIZE)) as [Hin|Hout].
    - destruct Hp as [_ Hm]. destruct Hrange as (_ & Hm' & _).
      assert (p = va + Z.of_nat (Z.to_nat ((p - va) / PAGE_SIZE)) * PAGE_SIZE) as ->.
      { unfold PAGE_SIZE in *. zdiv. }
      change (heap_pte s') with (heap_pte s1). rewrite (pu_entry _ _ _ _ _ Hpu); [done|]. unfold PAGE_SIZE in *. zdiv.
    - rewrite Hother; [|done|unfold PAGE_SIZE in *; lia]. apply (hi_unmapped _ _ _ _ Hi); [done|].
      intros v gs HLv. destruct (decide (v = va)) as [->|]; [by simplify_eq|].
      apply Hn. by rewrite lookup_delete_ne. }
  assert (first s' = first s ∧ idx (kheap s') = idx (kheap s)) as [Hff Hidx]
    by (cbn; rewrite (pu_kheap _ _ _ _ _ Hpu); done).
  assert (∀ j, sak_virtualAddress (record_at s' j) = sak_virtualAddress (record_at s j) ∧
            sak_size (record_at s' j) = sak_size (record_at s j)) as Hrec.
  { intros j. cbn. rewrite (pu_kheap _ _ _ _ _ Hpu). cbn. destruct (decide (i = j)) as [->|].
    - by rewrite array_get_set_eq.
    - by rewrite array_get_set_ne. }
  assert (∀ v gs, delete va L !! v = Some gs → L !! v = Some gs ∧ v ≠ va) as HLd
    by (intros v gs [? ?]%lookup_delete_Some; done).
  split.
  - split; [done|by eapply allocator_frames; [|exact Ha]| | | |].
    + intros g. cbn. rewrite none_each_lookup. case_decide; [done|]. apply (hr_counts _ _ _ _ Hr g).
    + intros f Hf. cbn. rewrite Hnf. apply (hi_bounds _ _ _ _ Hi). rewrite <-(hi_frames _ _ _ _ Hi).
      cbn in Hf. rewrite elem_of_app, elem_of_reverse in Hf. apply elem_of_app.
      destruct Hf; [left; by eapply held_elem|by right].
    + rewrite Hff. apply (hr_first _ _ _ _ Hr).
    + intros p Hp. rewrite Hff. intros Hge. apply Hun; [done|]. intros v gs [HLv _]%HLd.
      destruct (hi_live _ _ _ _ Hi v gs HLv) as (_ & _ & ?). lia.
  - rewrite <-(hi_frames _ _ _ _ Hi), (held_delete L va fs HL), reverse_Permutation.
    rewrite app_assoc. f_equiv. apply Permutation_app_comm.
  - apply Hi.
  - intros f Hf. cbn. rewrite Hnf. by apply (hi_bounds _ _ _ _ Hi).
  - intros v gs [HLv _]%HLd. rewrite Hff. by apply (hi_live _ _ _ _ Hi).
  - intros v gs k f [HLv Hv]%HLd Hf. apply lookup_lt_Some in Hf as Hlt. rewrite Hother.
    + by apply (hi_entry _ _ _ _ Hi v gs).
    + apply (live_page s L xs m v gs); [done|done|lia].
    + intros k' Hk''. by apply (live_pages_differ s L xs m v gs va fs); [done..|lia|lia].
  - intros f Hf. rewrite none_each_lookup. case_decide as Hin.
    + by destruct (Hap f Hin) as (_ & ? & _).
    + apply (hi_refs _ _ _ _ Hi). rewrite (held_delete L va fs HL). apply elem_of_app. by right.
  - intros v gs v' gs' [HLv _]%HLd [HLv' _]%HLd. by apply (hi_disjoint _ _ _ _ Hi v gs v' gs').
  - done.
  - by rewrite Hff, Hidx.
  - intros v gs [HLv _]%HLd. rewrite Hidx. destruct (hi_record _ _ _ _ Hi v gs HLv) as (j & ? & ? & ?).
    exists j. destruct (Hrec j) as [-> ->]. done.
  - intros j. rewrite Hidx, Hff. destruct (Hrec j) as [-> _]. apply (hi_below _ _ _ _ Hi).
  - intros j j'. rewrite Hidx. destruct (Hrec j) as [-> _], (Hrec j') as [-> _]. apply (hi_distinct _ _ _ _ Hi).
Qed.
Lemma heap_inv_kfree s L xs m va fs :
  heap_inv s L xs m → L !! va = Some fs →
  ∃ s', kfree va s = Ret tt s' ∧ heap_inv s' (delete va L) (reverse fs ++ xs) (none_each fs m).
Proof.
  intros Hi HL. destruct (heap_inv_kfree_pages s L xs m va fs Hi HL) as (s1 & i & _ & ? & ?). by eexists.
Qed.
End Invariant.

(** ** A client of the heap *)
Section Client.
Context `{Extern}.

(** The client knows the addresses it holds and the number of pages of each.  Requests are for at
    least a page; one that panics ends the run. *)
Inductive heap_step : KState * gmap Z Z → KState * gmap Z Z → Prop :=
  | step_kmalloc s live sz r s' :
      0 < kpages sz → kmalloc sz s = Ret r s' →
      heap_step (s, live) (s', if r =? 0 then live else <[r := kpages sz]> live)
  | step_kfree s live va n s' :
      live !! va = Some n → kfree va s = Ret tt s' → heap_step (s, live) (s', delete va live).

Lemma ready_size s D T xs m :
  heap_ready s D T (xs, m) → lh_size (free_frame_list (frames s)) = Z.of_nat (length xs).
Proof.
  intros Hr. destruct (hr_alloc _ _ _ _ Hr) as ((_ & _ & -> & Hnd & _) & _). apply u32_small.
  assert (length xs ≤ Z.to_nat (2 ^ 20))%nat; [|unfold is_u32; lia].
  apply NoDup_bounded; [done|]. intros f Hf. by apply (hr_frames _ _ _ _ Hr).
Qed.

Lemma kmalloc_enough s D T sz xs m r s' :
  heap_ready s D T (xs, m) → firstFreeVAInKHeap (kheap s) + kpages sz * PAGE_SIZE < KERNEL_HEAP_MAX →
  kmalloc sz s = Ret r s' → kpages sz ≤ Z.of_nat (length xs).
Proof.
  intros Hr Hroom Hk. destruct (decide (kpages sz ≤ Z.of_nat (length xs))) as [|Hn]; [done|].
  destruct (kmalloc_exhausted D T s sz xs m Hr) as (msg & s2 & Hp); [lia|done|]. rewrite Hp in Hk. discriminate.
Qed.

(** What the client relies on: a live allocation is backed by the frames [fs] *)
Definition backed (D : Z) (s : KState) (va n : Z) (fs : list Z) : Prop :=
  Z.of_nat (length fs) = n ∧ KERNEL_HEAP_START ≤ va ∧ va + n * PAGE_SIZE ≤ KERNEL_HEAP_MAX ∧
  ∀ k f o, fs !! k = Some f → 0 ≤ o < PAGE_SIZE →
    mmu (mem (hw s)) (D * PAGE_SIZE) (va + Z.of_nat k * PAGE_SIZE + o) false = Some (f * PAGE_SIZE + o) ∧
    references (frame_at s f) = 1.

Lemma heap_step_inv D T F s live s' live' L xs m :
  heap_inv D T F s L xs m → live = (λ fs, Z.of_nat (length fs)) <$> L → heap_step (s, live) (s', live') →
  ∃ L' xs' m', heap_inv D T F s' L' xs' m' ∧ live' = (λ fs, Z.of_nat (length fs)) <$> L'.
Proof.
  intros Hi -> Hstep. inversion Hstep as [s1 l1 sz r s1' Hsz Hrun|s1 l1 va n s1' HL Hrun]; subst.
  - destruct (decide (firstFreeVAInKHeap (kheap s) + kpages sz * PAGE_SIZE < KERNEL_HEAP_MAX)).
    + pose proof (kmalloc_enough s D T sz xs m r s' (hi_ready _ _ _ _ _ _ _ Hi) ltac:(done) Hrun).
      destruct (heap_inv_kmalloc D T F s L xs m sz Hi) as (s2 & fs & ys & _ & Hlen & _ & Hk & Hi2); [lia|lia|done|].
      rewrite Hk in Hrun. simplify_eq. destruct (hr_first _ _ _ _ (hi_ready _ _ _ _ _ _ _ Hi)) as [[? ?] _].
      rewrite (proj2 (Z.eqb_neq _ 0)) by (unfold KERNEL_HEAP_START in *; lia).
      eexists _, _, _. split; [exact Hi2|]. by rewrite fmap_insert, Hlen.
    + rewrite (kmalloc_refuses s D T (xs, m) sz (hi_ready _ _ _ _ _ _ _ Hi)) in Hrun by lia. simplify_eq. by exists L, xs, m.
  - apply lookup_fmap_Some in HL as (fs & <- & HL).
    destruct (heap_inv_kfree D T F s L xs m va fs Hi HL) as (s2 & Hk & Hi2). rewrite Hk in Hrun. simplify_eq.
    eexists _, _, _. split; [exact Hi2|]. by rewrite fmap_delete.
Qed.
Lemma heap_steps_inv D T F c c' :
  rtc heap_step c c' →
  (∃ L xs m, heap_inv D T F c.1 L xs m ∧ c.2 = (λ fs, Z.of_nat (length fs)) <$> L) →
  ∃ L xs m, heap_inv D T F c'.1 L xs m ∧ c'.2 = (λ fs, Z.of_nat (length fs)) <$> L.
Proof.
  induction 1 as [|[s l] [s1 l1] c3 Hstep _ IH]; [done|]. intros (L & xs & m & Hi & Hl). apply IH.
  by eapply heap_step_inv.
Qed.
End Client.

(** Addresses within a heap page. *)
Lemma heap_page_offset s T va o :
  heap_page va → 0 ≤ o < PAGE_SIZE →
  heap_pte s T (va + o) = heap_pte s T va ∧ PGOFF (va + o) = o ∧ heap_address (va + o).
Proof.
  intros [[Hlo Hhi] Hm] Ho. unfold KERNEL_HEAP_START, KERNEL_HEAP_MAX, PAGE_SIZE in *.
  assert (PPN (va + o) = PPN va) as HP.
  { rewrite !PPN_eq. rewrite !u32_small by (unfold is_u32; zdiv). unfold PAGE_SIZE. zdiv. }
  rewrite !PDX_PTX_PPN in HP. unfold NPTENTRIES in HP. pose proof (PTX_range va). pose proof (PTX_range (va + o)).
  assert (PDX (va + o) = PDX va) as Hd by lia. assert (PTX (va + o) = PTX va) as Hx by lia.
  split_and!.
  - unfold heap_pte, pte. by rewrite Hd, Hx.
  - unfold PGOFF. rewrite land_0xFFF, u32_small by (unfold is_u32; lia). unfold PAGE_SIZE. zdiv.
  - unfold heap_address, KERNEL_HEAP_START. zdiv.
Qed.

Section Backing.
Context `{Extern} (D : Z) (T : Z → Z) (F : list Z) (s : KState) (L : gmap Z (list Z)) (xs : list Z) (m : gmap Z Z).
Context (Hi : heap_inv D T F s L xs m).

Lemma live_backed va fs : L !! va = Some fs → backed D s va (Z.of_nat (length fs)) fs.
Proof using Hi.
  intros HL. destruct (hi_live _ _ _ _ _ _ _ Hi va fs HL) as (_ & (? & _ & ? & _) & _).
  split_and!; [done|done|done|]. intros k f o Hf Ho. apply lookup_lt_Some in Hf as Hlt.
  pose proof (live_page D T F s L xs m va fs (Z.of_nat k) Hi HL ltac:(lia)) as Hp.
  destruct (heap_page_offset s T _ o Hp Ho) as (Hpte & Hoff & Had).
  assert (f ∈ fs) as Hin by (by eapply list_elem_of_lookup_2).
  destruct (hi_bounds _ _ _ _ _ _ _ Hi f) as [Hb _]; [by apply (frames_apart D T F s L xs m va fs Hi HL)|].
  split.
  - rewrite (heap_translation s D T); [|apply (hi_ready _ _ _ _ _ _ _ Hi)|done].
    by rewrite Hpte, Hoff, (hi_entry _ _ _ _ _ _ _ Hi va fs k f HL Hf), entry_for_present, frame_of_entry_for.
  - destruct (hr_alloc _ _ _ _ (hi_ready _ _ _ _ _ _ _ Hi)) as (_ & _ & Hrefs). rewrite (Hrefs f).
    apply (hi_refs _ _ _ _ _ _ _ Hi). by eapply held_elem.
Qed.
Lemma dead_unmapped va :
  heap_page va → (∀ v fs, L !! v = Some fs → ¬ (v ≤ va < v + Z.of_nat (length fs) * PAGE_SIZE)) →
  mmu (mem (hw s)) (D * PAGE_SIZE) va false = None.
Proof using Hi.
  intros Hva Hn. rewrite (heap_translation s D T); [|apply (hi_ready _ _ _ _ _ _ _ Hi)|by apply heap_page_address].
  by rewrite (hi_unmapped _ _ _ _ _ _ _ Hi va Hva Hn).
Qed.
Lemma kmalloc_returns sz :
  0 < kpages sz → (∃ r s', kmalloc sz s = Ret r s') ∨
    (lh_size (free_frame_list (frames s)) < kpages sz ∧ ∃ msg s', kmalloc sz s = Panic msg s').
Proof using Hi.
  intros Hsz. rewrite (ready_size _ _ _ _ _ (hi_ready _ _ _ _ _ _ _ Hi)).
  destruct (decide (firstFreeVAInKHeap (kheap s) + kpages sz * PAGE_SIZE < KERNEL_HEAP_MAX)).
  - destruct (decide (kpages sz ≤ Z.of_nat (length xs))).
    + left. destruct (heap_inv_kmalloc D T F s L xs m sz Hi) as (s2 & ? & ? & _ & _ & _ & ? & _); [lia|lia|done|eauto].
    + right. split; [lia|]. apply (kmalloc_exhausted D T s sz xs m (hi_ready _ _ _ _ _ _ _ Hi)); [lia|done].
  - left. exists 0, s. apply (kmalloc_refuses s D T (xs, m) sz (hi_ready _ _ _ _ _ _ _ Hi)). lia.
Qed.
End Backing.

(** ** Properties *)

(** C7: whatever a client does with kmalloc, for requests of at least a page, and kfree of its live
    allocations, from the state the heap starts in: its live allocations do not overlap; each is
    backed, byte for byte, by frames that are referenced once; the frames of the allocations and the
    free frames are together the frames there were at the start, so that no frame serves two pages
    and none is lost; no other page of the heap area is mapped; the next request returns, or panics
    when it is for more pages than there are free frames; and the release of any live allocation
    returns (no crash, no loop out of fuel). A request is for at least a page when its size is not 0
    and does not wrap around 2^32 when it is rounded up; kmalloc does not reject the others. *)
Theorem kernel_heap_safe `{Extern} D T F m s0 s live :
  heap_ready s0 D T (F, m) → firstFreeVAInKHeap (kheap s0) = KERNEL_HEAP_START → idx (kheap s0) = 0 →
  rtc heap_step (s0, ∅) (s, live) →
  (∀ va n va' n', live !! va = Some n → live !! va' = Some n' → va < va' → va + n * PAGE_SIZE ≤ va') ∧
  (∃ L xs mm, live = (λ fs, Z.of_nat (length fs)) <$> L ∧
     (∀ va fs, L !! va = Some fs → backed D s va (Z.of_nat (length fs)) fs) ∧
     allocator s (xs, mm) ∧ held L ++ xs ≡ₚ F) ∧
  (∀ va, heap_page va → (∀ v n, live !! v = Some n → ¬ (v ≤ va < v + n * PAGE_SIZE)) →
     mmu (mem (hw s)) (D * PAGE_SIZE) va false = None) ∧
  (∀ sz, 0 < kpages sz → (∃ r s', kmalloc sz s = Ret r s') ∨
     (lh_size (free_frame_list (frames s)) < kpages sz ∧ ∃ msg s', kmalloc sz s = Panic msg s')) ∧
  (∀ va n, live !! va = Some n → ∃ s', kfree va s = Ret tt s').
Proof.
  intros Hr Hf Hidx Hsteps.
  destruct (heap_steps_inv D T F _ _ Hsteps) as (L & xs & mm & Hi & Hlive).
  { exists ∅, F, m. split; [by apply heap_inv_start|by rewrite fmap_empty]. }
  cbn in Hi, Hlive. subst live. split_and!.
  - intros va n va' n' (fs & <- & HL)%lookup_fmap_Some (fs' & <- & HL')%lookup_fmap_Some.
    by apply (hi_disjoint _ _ _ _ _ _ _ Hi va fs va' fs').
  - exists L, xs, mm. split_and!; [done| | |apply Hi].
    + intros. by eapply live_backed.
    + apply (hi_ready _ _ _ _ _ _ _ Hi).
  - intros va Hva Hn. eapply dead_unmapped; [done|done|]. intros v fs HL. apply Hn.
    by rewrite lookup_fmap, HL.
  - by eapply kmalloc_returns.
  - intros va n (fs & <- & HL)%lookup_fmap_Some. destruct (heap_inv_kfree D T F s L xs mm va fs Hi HL) as (s' & ? & _).
    by exists s'.
Qed.

(** ** Witnesses *)
(** A request for two pages and its release, on a heap with three frames. *)
Definition after_kmalloc : KState :=
  match @kmalloc no_nesting 5000 heap_state with Ret _ s => s | _ => heap_state end.
Lemma kernel_heap_safe_witness :
  ∃ s', @kfree no_nesting KERNEL_HEAP_START after_kmalloc = Ret tt s'.
Proof.
  assert (0 < kpages 5000) as Hsz by (by vm_compute).
  assert (@kmalloc no_nesting 5000 heap_state = Ret KERNEL_HEAP_START after_kmalloc) as Hk.
  { destruct (@heap_inv_kmalloc no_nesting 300 heap_tables [5; 4; 3] heap_state ∅ [5; 4; 3] ∅ 5000)
      as (s1 & fs & ys & _ & _ & _ & Hk & _);
      [apply heap_inv_start; [apply heap_state_ready|reflexivity|reflexivity]|by vm_compute|by vm_compute|by vm_compute|].
    unfold after_kmalloc. rewrite Hk. reflexivity. }
  destruct (@kernel_heap_safe no_nesting 300 heap_tables [5; 4; 3] ∅ heap_state after_kmalloc
      (if KERNEL_HEAP_START =? 0 then ∅ else <[KERNEL_HEAP_START := kpages 5000]> ∅))
    as (_ & _ & _ & _ & Hfree); [apply heap_state_ready|reflexivity|reflexivity| |].
  - apply rtc_once. exact (@step_kmalloc no_nesting _ _ _ _ _ Hsz Hk).
  - apply (Hfree KERNEL_HEAP_START (kpages 5000)). reflexivity.
Defined.
