(* ===== verification/HeapMem.v ===== *)
(** * The kernel heap as memory

    KHeapInv.v says where the frames of the live allocations are; this file says that the kernel
    can use them.  In the kernel's own address space every byte of a live allocation can be read
    and written, a write changes that byte and nothing else of the heap, and neither kmalloc nor
    kfree of another allocation changes what a live allocation holds. *)
From S2P Require Import Prelude Machine Queue State AddressSpace PageFlags FrameAlloc FrameAllocSpec Paging PagingSpec KHeap KHeapSpec KHeapInv.

(** ** Bytes of words *)
Lemma byte_of_range w i : 0 ≤ byte_of w i < 256.
Proof. apply Z.mod_pos_bound. done. Qed.
Lemma byte_of_u32 w i : 0 ≤ i < 4 → byte_of (u32 w) i = byte_of w i.
Proof.
  intros Hi. unfold byte_of, u32. rewrite !Z.shiftr_div_pow2 by lia.
  assert (i = 0 ∨ i = 1 ∨ i = 2 ∨ i = 3) as [-> | [-> | [-> | ->]]] by lia; cbn; zdiv.
Qed.
Lemma byte_of_set_byte w i j b :
  0 ≤ i < 4 → 0 ≤ j < 4 → 0 ≤ b < 256 → byte_of (set_byte w i b) j = if decide (i = j) then b else byte_of w j.
Proof.
  intros Hi Hj Hb. unfold set_byte, byte_of. rewrite !Z.shiftr_div_pow2 by lia.
  assert (i = 0 ∨ i = 1 ∨ i = 2 ∨ i = 3) as [-> | [-> | [-> | ->]]] by lia;
    assert (j = 0 ∨ j = 1 ∨ j = 2 ∨ j = 3) as [-> | [-> | [-> | ->]]] by lia;
    case_decide; try lia; cbn -[Z.div Z.modulo]; zdiv.
Qed.
Lemma word_of_bytes w :
  is_u32 w → w = byte_of w 0 + 2 ^ 8 * byte_of w 1 + 2 ^ 16 * byte_of w 2 + 2 ^ 24 * byte_of w 3.
Proof. unfold is_u32, byte_of. intros. rewrite !Z.shiftr_div_pow2 by lia. cbn -[Z.div Z.modulo]. zdiv. Qed.

Section HeapMemory.
Context `{Extern} (D : Z) (T : Z → Z) (F : list Z).

Notation len fs := (Z.of_nat (length fs)).
Notation first s := (firstFreeVAInKHeap (kheap s)).

(** ** The processor's way to the heap *)

(** CR3 designates the kernel's directory, whose entries for the heap area are writeable; no frame of
    the heap is the directory, a table of the heap area, or on the way to one of these; memory
    holds words of 32 bits. *)
Record heap_reached (s : KState) : Prop := {
  rc_words j : is_u32 (get_word s j);
  rc_cr3 : frame_of (cr3 (hw s)) = D;
  rc_writeable d : heap_entry d → has_perm (get_word s (word D d)) PERM_WRITEABLE = true;
  rc_not_dir : D ∉ F;
  rc_not_table d : heap_entry d → T d ∉ F;
  rc_way_dir : reached_apart F s (static D);
  rc_way_table d : heap_entry d → reached_apart F s (static (T d));
}.

Lemma heap_entry_bounds d : heap_entry d → 0 ≤ d < 1024.
Proof. unfold heap_entry. change (PDX KERNEL_HEAP_START) with 984. lia. Qed.

(** Writes to frames of the heap. *)
Lemma kernel_space_touches s s' :
  touches F s s' → kernel_space s D T → heap_reached s → kernel_space s' D T.
Proof.
  intros Ht Hk [_ R1 R2 R3 R4 R5 R6]. destruct Hk as [K1 K2 K3 K4 K5 K6 K7 K8].
  pose proof Ht as (_ & _ & Hn & _ & _ & Hb & _).
  assert (∀ a, reached_apart F s a → walk_frames s' a = walk_frames s a) as Hw
    by (intros a Ha; unfold walk_frames; by destruct (touches_walk F s s' Ht a Ha) as [-> _]).
  split; try done.
  - by rewrite Hb.
  - intros d Hd. rewrite (touches_word F s s' Ht) by (done || by apply heap_entry_bounds). by apply K2.
  - by rewrite Hn.
  - by apply (touches_kpage F s s' Ht).
  - intros d Hd. apply (touches_kpage F s s' Ht); auto.
  - intros d Hd. rewrite Hw by done. by apply K7.
  - intros d d' Hd Hd'. rewrite Hw by auto. by apply K8.
Qed.
Lemma heap_reached_touches s s' fs :
  touches fs s s' → (∀ j, is_u32 (get_word s' j)) → D ∉ fs → reached_apart fs s (static D) →
  (∀ d, heap_entry d → reached_apart fs s (static (T d))) → heap_reached s → heap_reached s'.
Proof.
  intros Ht Hu HD Hwd Hwt [_ R1 R2 R3 R4 R5 R6]. pose proof Ht as (Hc & _). split; try done.
  - by rewrite Hc.
  - intros d Hd. rewrite (touches_word fs s s' Ht) by (done || by apply heap_entry_bounds). by apply R2.
  - by apply (touches_reached fs s s' Ht).
  - intros d Hd. apply (touches_reached fs s s' Ht); auto.
Qed.
Lemma heap_reached_hw s s' : hw s' = hw s → heap_reached s → heap_reached s'.
Proof.
  intros Hh [R0 R1 R2 R3 R4 R5 R6].
  split; unfold reached_apart, walk_frames, walk_of, get_word in *; rewrite ?Hh; done.
Qed.

(** Changes of page-table entries, which kmalloc and kfree make. *)
Lemma heap_reached_entries s s' va (fs : list Z) :
  heap_footprint s s' → heap_range va (len fs) →
  (∀ j, (∀ k, (k < length fs)%nat → j ≠ entry_word T (va + Z.of_nat k * PAGE_SIZE)) → get_word s' j = get_word s j) →
  (∀ k, (k < length fs)%nat → is_u32 (heap_pte s' T (va + Z.of_nat k * PAGE_SIZE))) →
  kernel_space s D T → heap_reached s →
  heap_reached s' ∧ ∀ f i, f ∈ F → 0 ≤ i < 1024 → get_word s' (word f i) = get_word s (word f i).
Proof.
  intros (Hh & _) Hr Hother Hpte Hk HR.
  set (tables := T <$> seqZ 984 40).
  assert (∀ d, heap_entry d → T d ∈ tables) as Hin.
  { intros d Hd. apply (proj1 (heap_entry_range d)) in Hd. apply list_elem_of_fmap. exists d. split; [done|]. apply elem_of_seqZ. lia. }
  assert (∀ f, f ∈ tables → ∃ d, heap_entry d ∧ f = T d) as Hout.
  { intros f (d & -> & Hd%elem_of_seqZ)%list_elem_of_fmap. exists d. split; [|done]. apply (proj2 (heap_entry_range d)). lia. }
  assert (∀ k, (k < length fs)%nat → heap_entry (PDX (va + Z.of_nat k * PAGE_SIZE))) as He.
  { intros k Hlt. apply heap_address_entry, heap_page_address. eapply heap_range_page; [done|lia]. }
  assert (touches tables s (on_hw (set_mem (mem (hw s'))) s)) as Ht.
  { unfold touches. split_and!; try done. intros j Hj. apply Hother. intros k Hlt.
    unfold entry_word. apply Hj; [by apply Hin, He|apply PTX_range]. }
  split.
  - apply (heap_reached_hw (on_hw (set_mem (mem (hw s'))) s)); [done|].
    eapply (heap_reached_touches s); [done|..|done].
    + intros j. change (is_u32 (get_word s' j)).
      destruct (decide (j ∈ (λ k, entry_word T (va + Z.of_nat k * PAGE_SIZE)) <$> seq 0 (length fs))) as [Hj|Hj].
      * apply list_elem_of_fmap in Hj as (k & -> & Hk'%elem_of_seq). apply Hpte. lia.
      * rewrite Hother; [apply (rc_words _ HR)|]. intros k Hlt ->. apply Hj, list_elem_of_fmap.
        exists k. split; [done|]. apply elem_of_seq. lia.
    + intros (d & Hd & HD)%Hout. by destruct (ks_apart _ _ _ Hk d Hd).
    + intros f (d & Hd & ->)%Hout. by apply (ks_walk_dir _ _ _ Hk).
    + intros d Hd f (d' & Hd' & ->)%Hout. by apply (ks_walk _ _ _ Hk).
  - intros f i Hf Hi. apply Hother. intros k Hlt [-> _]%word_inj; [|done|apply PTX_range].
    by eapply (rc_not_table _ HR); [apply He|].
Qed.

(** ** Where an address of a live allocation is *)

(** Byte [o] of frame [f] backs the address [q]. *)
Definition place (L : gmap Z (list Z)) (q f o : Z) : Prop :=
  ∃ v fs k, L !! v = Some fs ∧ fs !! k = Some f ∧ 0 ≤ o < PAGE_SIZE ∧ q = v + Z.of_nat k * PAGE_SIZE + o.
Definition live (L : gmap Z (list Z)) (q : Z) : Prop := ∃ v fs, L !! v = Some fs ∧ v ≤ q < v + len fs * PAGE_SIZE.
(** What the kernel holds at [q]. *)
Definition heap_word (s : KState) (q : Z) : Z :=
  match mmu (mem (hw s)) (cr3 (hw s)) q false with Some pa => get_word s (pa `div` 4) | None => 0 end.
Definition heap_byte (s : KState) (q : Z) : Z := byte_of (heap_word s (q - q `mod` 4)) (q `mod` 4).

Lemma live_place L q : live L q → ∃ f o, place L q f o.
Proof using Type.
  clear T. intros (v & fs & HL & Hq). unfold PAGE_SIZE in *.
  destruct (lookup_lt_is_Some_2 fs (Z.to_nat ((q - v) / 4096))) as [f Hf]; [zdiv|].
  exists f, ((q - v) `mod` 4096), v, fs, (Z.to_nat ((q - v) / 4096)).
  unfold PAGE_SIZE. split_and!; [done|done|zdiv..].
Qed.
Lemma place_live L q f o : place L q f o → live L q.
Proof.
  intros (v & fs & k & HL & Hf & Ho & ->). apply lookup_lt_Some in Hf. exists v, fs.
  split; [done|]. unfold PAGE_SIZE in *. lia.
Qed.
Lemma held_place L f : f ∈ held L → ∃ q, place L q f 0.
Proof using Type.
  unfold held. intros (fs & Hf & ((v & gs) & -> & HL%elem_of_map_to_list)%list_elem_of_fmap)%list_elem_of_join.
  apply list_elem_of_lookup in Hf as [k Hk]. exists (v + Z.of_nat k * PAGE_SIZE), v, gs, k.
  split_and!; [done|done|done|done|lia].
Qed.
Lemma live_insert L v fs q : live L q → L !! v = None → live (<[v := fs]> L) q.
Proof.
  intros (v' & gs & HL & Hq) Hv. exists v', gs. split; [|done]. rewrite lookup_insert_ne; [done|congruence].
Qed.
Lemma live_delete L v q : live (delete v L) q → live L q.
Proof. intros (v' & gs & [_ HL]%lookup_delete_Some & Hq). by exists v', gs. Qed.

(** The invariant of the heap, and the kernel's way to it. *)
Record heap_at (s : KState) (L : gmap Z (list Z)) (xs : list Z) (m : gmap Z Z) : Prop := {
  ha_inv : heap_inv D T F s L xs m;
  ha_reached : heap_reached s;
}.

Section At.
Context (s : KState) (L : gmap Z (list Z)) (xs : list Z) (m : gmap Z Z) (Hat : heap_at s L xs m).

Lemma place_frame q f o : place L q f o → f ∈ F ∧ 0 ≤ f < 2 ^ 20 ∧ 0 ≤ o < PAGE_SIZE ∧ q `mod` 4 = o `mod` 4.
Proof using Hat.
  destruct Hat as [Hi _]. intros (v & fs & k & HL & Hf & Ho & ->).
  destruct (frames_apart D T F s L xs m v fs Hi HL) as (_ & Hap).
  destruct (Hap f) as (_ & _ & HF); [by eapply list_elem_of_lookup_2|].
  destruct (hi_bounds _ _ _ _ _ _ _ Hi f HF). destruct (hi_live _ _ _ _ _ _ _ Hi v fs HL) as (_ & (_ & ? & _) & _).
  split_and!; try done; try lia. unfold PAGE_SIZE in *. zdiv.
Qed.
Lemma place_inj q q' f o : place L q f o → place L q' f o → q = q'.
Proof using Hat.
  destruct Hat as [Hi _]. intros (v & fs & k & HL & Hf & _ & ->) (v' & fs' & k' & HL' & Hf' & _ & ->).
  destruct (frames_apart D T F s L xs m v fs Hi HL) as (Hnd & Hap).
  destruct (decide (v' = v)) as [->|Hne].
  - simplify_eq. assert (k = k') as -> by (by eapply NoDup_lookup). done.
  - destruct (Hap f) as (_ & Hn & _); [by eapply list_elem_of_lookup_2|]. exfalso. apply Hn.
    eapply (held_elem _ v' fs'); [by rewrite lookup_delete_ne|by eapply list_elem_of_lookup_2].
Qed.
Lemma place_mmu q f o w : place L q f o → mmu (mem (hw s)) (cr3 (hw s)) q w = Some (f * PAGE_SIZE + o).
Proof using Hat.
  intros Hp. pose proof (place_frame q f o Hp) as (_ & Hf20 & _). destruct Hat as [Hi HR].
  destruct Hp as (v & fs & k & HL & Hf & Ho & ->). apply lookup_lt_Some in Hf as Hlt.
  pose proof (live_page D T F s L xs m v fs (Z.of_nat k) Hi HL ltac:(lia)) as Hp.
  destruct (heap_page_offset s T _ o Hp Ho) as (Hpte & Hoff & Had).
  pose proof (heap_address_entry _ Had) as Hd.
  pose proof (hi_ready _ _ _ _ _ _ _ Hi) as Hr.
  destruct (ks_entry _ _ _ (hr_space _ _ _ _ Hr) _ Hd) as [Hft Hpres].
  rewrite (hi_entry _ _ _ _ _ _ _ Hi v fs k f HL Hf) in Hpte.
  unfold heap_pte, pte, get_word in Hpte. unfold get_word in Hft, Hpres.
  unfold mmu. rewrite (rc_cr3 _ HR), Hft, Hpte, Hoff, frame_of_entry_for by done.
  unfold entry_allows. rewrite Hpres, entry_for_present by done.
  rewrite has_perm_entry_for by done. pose proof (rc_writeable _ HR _ Hd) as Hw. unfold get_word in Hw. rewrite Hw.
  by rewrite !orb_true_r.
Qed.
Lemma place_word q f o :
  place L q f o → q `mod` 4 = 0 → heap_word s q = get_word s (word f (o `div` 4)) ∧ 0 ≤ o `div` 4 < 1024 ∧ o = o `div` 4 * 4.
Proof using Hat.
  intros Hp Hq. pose proof (place_frame q f o Hp) as (_ & _ & Ho & Hm). rewrite Hq in Hm.
  unfold heap_word. rewrite (place_mmu q f o false Hp). unfold PAGE_SIZE in *.
  split; [|zdiv]. f_equal. unfold word. zdiv.
Qed.
Lemma live_aligned q : live L q → live L (q - q `mod` 4) ∧ (q - q `mod` 4) `mod` 4 = 0.
Proof using Hat.
  destruct Hat as [Hi _]. intros (v & fs & HL & Hq). split; [|zdiv]. exists v, fs. split; [done|].
  destruct (hi_live _ _ _ _ _ _ _ Hi v fs HL) as (_ & (_ & ? & _) & _). unfold PAGE_SIZE in *. zdiv.
Qed.

(** ** Loads and stores *)
Lemma load_live q : live L q → q `mod` 4 = 0 → load q s = Ret (heap_word s q) s.
Proof using Hat.
  intros (f & o & Hp)%live_place Hq. unfold load, heap_word. rewrite Hq. cbn [negb Z.eqb]. rewrite bind_gets.
  by rewrite (place_mmu q f o false Hp).
Qed.
Lemma load8_live q : live L q → load8 q s = Ret (heap_byte s q) s.
Proof using Hat.
  intros [Hl Hm]%live_aligned. unfold load8. by mstep (load_live _ Hl Hm).
Qed.

(** Changes of memory in the frames of the heap only. *)
Lemma heap_at_touches s' :
  touches F s s' → frames s' = frames s → (∀ j, is_u32 (get_word s' j)) → heap_at s' L xs m.
Proof using Hat.
  intros Ht Hfr Hu. destruct Hat as [HI HR]. pose proof Ht as (_ & _ & _ & Hkh & _).
  assert (heap_reached s') as HR'.
  { eapply (heap_reached_touches s); [exact Ht|done|apply HR|apply HR|apply (rc_way_table _ HR)|done]. }
  assert (∀ va, heap_page va → heap_pte s' T va = heap_pte s T va) as Hpte.
  { intros va Hva. unfold heap_pte, pte. apply (touches_word F s _ Ht); [|apply PTX_range].
    apply (rc_not_table _ HR), heap_address_entry, heap_page_address. done. }
  split; [|done]. destruct HI as [I1 I2 I3 I4 I5 I6 I7 I8 I9 I10 I11 I12 I13]. split; rewrite ?Hkh, ?Hfr; try done.
  - destruct I1 as [R1 R2 R3 R4 R5 R6]. split; rewrite ?Hkh, ?Hfr; try done.
    + by eapply kernel_space_touches.
    + by eapply allocator_frames.
    + intros va Hva Hge. rewrite Hpte by done. by apply R6.
  - intros va fs k g HL Hg. rewrite Hpte; [by eapply I6|]. apply lookup_lt_Some in Hg.
    destruct (I5 va fs HL) as (_ & Hr & _). eapply heap_range_page; [done|lia].
  - intros va Hva Hn. rewrite Hpte by done. by apply I9.
Qed.
Lemma heap_at_put f i v : f ∈ F → 0 ≤ i < 1024 → is_u32 v → heap_at (put_word (word f i) v s) L xs m.
Proof using Hat.
  intros Hf Hi Hv. apply heap_at_touches; [by apply touches_put|done|]. intros j.
  destruct (decide (word f i = j)) as [<-|]; [by rewrite get_put_eq|].
  rewrite get_put_ne by done. apply (rc_words _ (ha_reached _ _ _ _ Hat)).
Qed.
End At.

(** What a store leaves: the same heap, with one word of its memory changed. *)
Record stored (L : gmap Z (list Z)) (xs : list Z) (m : gmap Z Z) (q v : Z) (s s' : KState) : Prop := {
  st_at : heap_at s' L xs m;
  st_mem : writes_only F s s';
  st_word p : live L p → p `mod` 4 = 0 → heap_word s' p = if decide (p = q) then u32 v else heap_word s p;
}.
Lemma place_unique s L xs m q f o f' o' :
  heap_at s L xs m → place L q f o → place L q f' o' → f = f' ∧ o = o'.
Proof.
  intros Hat Hp Hp'. pose proof (place_mmu s L xs m Hat q f o false Hp) as He.
  rewrite (place_mmu s L xs m Hat q f' o' false Hp') in He. injection He as He.
  destruct (place_frame s L xs m Hat q f o Hp) as (_ & _ & ? & _).
  destruct (place_frame s L xs m Hat q f' o' Hp') as (_ & _ & ? & _). unfold PAGE_SIZE in *. lia.
Qed.
Lemma store_live s L xs m q v :
  heap_at s L xs m → live L q → q `mod` 4 = 0 → ∃ s', store q v s = Ret tt s' ∧ stored L xs m q v s s'.
Proof.
  intros Hat (f & o & Hp)%live_place Hq. destruct (place_word s L xs m Hat q f o Hp Hq) as (_ & Hi & Ho).
  destruct (place_frame s L xs m Hat q f o Hp) as (HF & _ & Hop & _).
  pose proof (heap_at_put s L xs m Hat f (o `div` 4) (u32 v) HF Hi (u32_range v)) as Hat'.
  set (s' := put_word (word f (o `div` 4)) (u32 v) s) in *. exists s'. split.
  - unfold store. rewrite Hq. cbn [negb Z.eqb]. rewrite bind_gets, (place_mmu s L xs m Hat q f o true Hp).
    unfold modify, s', put_word.
    replace ((f * PAGE_SIZE + o) `div` 4) with (word f (o `div` 4)) by (unfold word, PAGE_SIZE in *; zdiv). done.
  - split; [done|by apply writes_only_put|]. intros p (g & o' & Hp')%live_place Hpm.
    destruct (place_word s L xs m Hat p g o' Hp' Hpm) as (-> & Hi' & Ho').
    destruct (place_word s' L xs m Hat' p g o' Hp' Hpm) as (-> & _). case_decide as Hd.
    + subst p. destruct (place_unique s L xs m q f o g o' Hat Hp Hp') as [<- <-]. apply get_put_eq.
    + apply get_put_ne. intros [<- Hoo]%word_inj; [|done|done]. apply Hd.
      eapply (place_inj s L xs m Hat); [exact Hp'|]. by rewrite Ho', <-Hoo, <-Ho.
Qed.
Lemma stored_byte L xs m q v s s' p :
  stored L xs m q v s s' → heap_at s L xs m → live L p →
  heap_byte s' p = if decide (p - p `mod` 4 = q) then byte_of v (p `mod` 4) else heap_byte s p.
Proof.
  intros Hst Hat Hp. destruct (live_aligned s L xs m Hat p Hp) as [Hl Hm]. unfold heap_byte.
  rewrite (st_word _ _ _ _ _ _ _ Hst) by done. case_decide; [|done]. apply byte_of_u32. zdiv.
Qed.
Lemma store8_live s L xs m q b :
  heap_at s L xs m → live L q →
  ∃ s', store8 q b s = Ret tt s' ∧ heap_at s' L xs m ∧ writes_only F s s' ∧
    ∀ p, live L p → heap_byte s' p = if decide (p = q) then u8 b else heap_byte s p.
Proof.
  intros Hat Hq. destruct (live_aligned s L xs m Hat q Hq) as [Hl Hm].
  set (w := set_byte (heap_word s (q - q `mod` 4)) (q `mod` 4) (u8 b)).
  destruct (store_live s L xs m (q - q `mod` 4) w Hat Hl Hm) as (s' & Hs' & Hst).
  exists s'. split_and!; [|apply Hst|apply Hst|].
  - unfold store8. by mstep (load_live s L xs m Hat _ Hl Hm).
  - intros p Hp. rewrite (stored_byte _ _ _ _ _ _ _ _ Hst Hat Hp).
    destruct (decide (p - p `mod` 4 = q - q `mod` 4)) as [He|He].
    + unfold w. rewrite byte_of_set_byte by first [zdiv | apply u8_range].
      destruct (decide (q `mod` 4 = p `mod` 4)); [rewrite decide_True by lia; done|].
      rewrite decide_False by (intros ->; done). unfold heap_byte. by rewrite He.
    + rewrite decide_False; [done|]. by intros ->.
Qed.

(** ** kmalloc and kfree keep what live allocations hold *)
Lemma words_kept s s' L L' xs xs' m m' q :
  heap_at s L xs m → heap_at s' L' xs' m' → (∀ f i, f ∈ F → 0 ≤ i < 1024 → get_word s' (word f i) = get_word s (word f i)) →
  (∀ f o, place L q f o → place L' q f o) → live L q → q `mod` 4 = 0 → heap_word s' q = heap_word s q.
Proof.
  intros Hat Hat' Hw Hpl (f & o & Hp)%live_place Hm.
  destruct (place_word s L xs m Hat q f o Hp Hm) as (-> & Hi & _).
  destruct (place_frame s L xs m Hat q f o Hp) as (HF & _).
  destruct (place_word s' L' xs' m' Hat' q f o (Hpl f o Hp) Hm) as (-> & _). by apply Hw.
Qed.
Lemma bytes_kept s L xs m s1 s2 q :
  heap_at s L xs m → (∀ q, live L q → q `mod` 4 = 0 → heap_word s2 q = heap_word s1 q) →
  live L q → heap_byte s2 q = heap_byte s1 q.
Proof. intros Hat Hw Hq. destruct (live_aligned s L xs m Hat q Hq). unfold heap_byte. by rewrite Hw. Qed.

(** Pages outside the allocations have empty entries, and the reverse map is exact. *)
Record tidy (s : KState) (L : gmap Z (list Z)) : Prop := {
  td_clear va : heap_page va → ¬ live L va → heap_pte s T va = 0;
  td_reverse q f : place L q f 0 → virtualAddresses (kheap s) !!! f = q;
  td_free f : f ∉ held L → virtualAddresses (kheap s) !!! f = 0;
}.
Lemma tidy_writes s s' L : writes_only F s s' → heap_reached s → tidy s L → tidy s' L.
Proof.
  intros [[mm ->] Hw] HR [T1 T2 T3]. split; [|done|done]. intros va Hva Hn. rewrite <-(T1 va Hva Hn).
  unfold heap_pte, pte. apply Hw. intros f i Hf Hi [<- _]%word_inj; [|apply PTX_range|done].
  by apply (rc_not_table _ HR (PDX va)); [apply heap_address_entry, heap_page_address|].
Qed.
Lemma tidy_kmalloc s s1 L fs ys m :
  heap_inv D T F s L (fs ++ ys) m → kernel_space s1 D T → heap_range (first s) (len fs) → L !! first s = None →
  pages_mapped T (first s) fs s s1 → tidy s L → tidy s1 (<[first s := fs]> L).
Proof.
  intros Hi Hk Hr HL Hpm [T1 T2 T3].
  assert (∀ va, ¬ live (<[first s := fs]> L) va → ¬ live L va) as Hl by (intros va Hn Hlv; by apply Hn, live_insert).
  split.
  - intros va Hva Hn. rewrite (kmalloc_other D T F s s1 L (fs ++ ys) m fs va Hi Hk Hpm Hr Hva); [by apply T1; auto|].
    intros k Hlt ->. apply Hn. exists (first s), fs. split; [apply lookup_insert_eq|]. unfold PAGE_SIZE. lia.
  - intros q f (v & gs & k & [[<- <-]|[Hne HLv]]%lookup_insert_Some & Hf & _ & ->).
    + destruct (pm_entry _ _ _ _ _ Hpm k f Hf) as [_ ->]. lia.
    + rewrite (pm_reverse _ _ _ _ _ Hpm); [by apply T2; exists v, gs, k|].
      destruct (frames_apart D T F s L (fs ++ ys) m v gs Hi HLv) as (_ & Hap).
      destruct (Hap f) as (Hn & _); [by eapply list_elem_of_lookup_2|]. rewrite elem_of_app in Hn. tauto.
  - intros f. rewrite (held_insert L (first s) fs HL), elem_of_app. intros Hn.
    rewrite (pm_reverse _ _ _ _ _ Hpm) by tauto. apply T3. tauto.
Qed.
Lemma tidy_kfree s s1 L xs m va fs :
  heap_inv D T F s L xs m → L !! va = Some fs → kernel_space s1 D T →
  pages_unmapped T va fs s s1 → tidy s L → tidy s1 (delete va L).
Proof.
  intros Hi HL Hk Hpu [T1 T2 T3]. destruct (hi_live _ _ _ _ _ _ _ Hi va fs HL) as (_ & Hr & _).
  destruct (frames_apart D T F s L xs m va fs Hi HL) as (_ & Hap). split.
  - intros p Hp Hn. destruct (decide (va ≤ p < va + len fs * PAGE_SIZE)) as [Hin|Hout].
    + destruct Hp as [_ Hm]. destruct Hr as (_ & Hm' & _).
      assert (p = va + Z.of_nat (Z.to_nat ((p - va) / PAGE_SIZE)) * PAGE_SIZE) as -> by (unfold PAGE_SIZE in *; zdiv).
      apply (pu_entry _ _ _ _ _ Hpu). unfold PAGE_SIZE in *. zdiv.
    + assert (heap_pte s1 T p = heap_pte s T p) as ->.
      { unfold heap_pte, pte. apply (pu_other _ _ _ _ _ Hpu). intros k Hlt He.
        apply (entry_word_inj s1 D T) in He; [|done|done|eapply heap_range_page; [done|lia]].
        apply Hout. unfold PAGE_SIZE in *. lia. }
      apply T1; [done|]. intros (v & gs & HLv & Hv). apply Hn. exists v, gs. split; [|done].
      rewrite lookup_delete_ne; [done|]. intros <-. by simplify_eq.
  - intros q f (v & gs & k & [Hne HLv]%lookup_delete_Some & Hf & Ho & Hq).
    rewrite (pu_kheap _ _ _ _ _ Hpu). cbn. rewrite none_each_lookup, decide_False; [by apply T2; exists v, gs, k|].
    intros Hin. destruct (Hap f Hin) as (_ & Hnh & _). apply Hnh.
    eapply (held_elem _ v gs); [by rewrite lookup_delete_ne|by eapply list_elem_of_lookup_2].
  - intros f Hf. rewrite (pu_kheap _ _ _ _ _ Hpu). cbn. rewrite none_each_lookup. case_decide; [done|].
    apply T3. rewrite (held_delete L va fs HL), elem_of_app. tauto.
Qed.

(** kmalloc has recorded [n] pages at [va]; kfree leaves the record. *)
Definition on_record (s : KState) (va n : Z) : Prop :=
  ∃ j, 0 ≤ j < idx (kheap s) ∧ sak_virtualAddress (allocatedHAddresses (kheap s) !!! j) = va ∧
    sak_size (allocatedHAddresses (kheap s) !!! j) = n.

Lemma heap_at_kmalloc s L xs m sz :
  heap_at s L xs m → 0 < kpages sz → kpages sz ≤ Z.of_nat (length xs) →
  first s + kpages sz * PAGE_SIZE < KERNEL_HEAP_MAX →
  ∃ s' fs ys, kmalloc sz s = Ret (first s) s' ∧ xs = fs ++ ys ∧ len fs = kpages sz ∧ L !! first s = None ∧
    heap_at s' (<[first s := fs]> L) ys (one_each fs m) ∧ heap_footprint s s' ∧
    first s' = first s + kpages sz * PAGE_SIZE ∧ (tidy s L → tidy s' (<[first s := fs]> L)) ∧
    (∀ va n, on_record s va n → on_record s' va n) ∧
    (∀ q, live L q → q `mod` 4 = 0 → heap_word s' q = heap_word s q).
Proof.
  intros Hat Hpos Hlen Hroom. pose proof Hat as [Hi HR].
  destruct (heap_inv_kmalloc_pages D T F s L xs m sz Hi Hpos Hlen Hroom)
    as (s1 & fs & ys & Hxs & Hfs & HL & Hpm & Hk & Hi').
  set (s' := recorded (idx (kheap s)) (first s) (kpages sz) s1) in *.
  destruct (hr_first _ _ _ _ (hi_ready _ _ _ _ _ _ _ Hi)) as [[? ?] ?].
  destruct (heap_reached_entries s s1 (first s) fs) as [HR1 Hw];
    [apply Hpm|by unfold heap_range; rewrite Hfs; split_and!; lia|apply Hpm| |apply (hi_ready _ _ _ _ _ _ _ Hi)|done|].
  { intros k Hlt. destruct (lookup_lt_is_Some_2 fs k Hlt) as [f Hf].
    destruct (pm_entry _ _ _ _ _ Hpm k f Hf) as [-> _]. apply entry_for_u32; [|done].
    apply (hi_bounds _ _ _ _ _ _ _ Hi). rewrite <-(hi_frames _ _ _ _ _ _ _ Hi), Hxs, !elem_of_app.
    right. left. by eapply list_elem_of_lookup_2. }
  assert (heap_at s' (<[first s := fs]> L) ys (one_each fs m)) as Hat'
    by (split; [done|by eapply heap_reached_hw; [|exact HR1]]).
  exists s', fs, ys. split_and!; try done.
  - etrans; [apply Hpm|]. apply on_kheap_footprint.
  - cbn. rewrite (pm_kheap _ _ _ _ _ Hpm). cbn. by rewrite Hfs.
  - intros Htd. subst xs. assert (tidy s1 (<[first s := fs]> L)) as [T1 T2 T3]; [|by split].
    eapply (tidy_kmalloc s s1 L fs ys m); try done.
    + eapply kernel_space_same; [..|apply (hi_ready _ _ _ _ _ _ _ Hi')]; done.
    + unfold heap_range. rewrite Hfs. split_and!; lia.
  - intros va n (j & Hj & Hr). destruct (hi_idx _ _ _ _ _ _ _ Hi) as [? ?].
    exists j. cbn. rewrite (pm_kheap _ _ _ _ _ Hpm). cbn. rewrite u32_small
      by (unfold is_u32, PAGE_SIZE, KERNEL_HEAP_START, KERNEL_HEAP_MAX in *; lia).
    rewrite array_get_set_ne by lia. split; [lia|done].
  - intros q. apply (words_kept s s' L _ xs ys m _ q Hat Hat' Hw).
    intros f o (v & gs & k & HLv & Hp). exists v, gs, k. rewrite lookup_insert_ne; [done|congruence].
Qed.

Lemma heap_at_kfree s L xs m va fs :
  heap_at s L xs m → L !! va = Some fs →
  ∃ s', kfree va s = Ret tt s' ∧ heap_at s' (delete va L) (reverse fs ++ xs) (none_each fs m) ∧
    heap_footprint s s' ∧ first s' = first s ∧ (tidy s L → tidy s' (delete va L)) ∧
    (∀ va n, on_record s va n → on_record s' va n) ∧
    (∀ q, live (delete va L) q → q `mod` 4 = 0 → heap_word s' q = heap_word s q).
Proof.
  intros Hat HL. pose proof Hat as [Hi HR].
  destruct (heap_inv_kfree_pages D T F s L xs m va fs Hi HL) as (s1 & i & Hpu & Hk & Hi').
  set (s' := marked_empty i s1) in *.
  destruct (hi_live _ _ _ _ _ _ _ Hi va fs HL) as (_ & Hrange & _).
  destruct (heap_reached_entries s s1 va fs) as [HR1 Hw];
    [apply Hpu|done|apply Hpu|intros k Hlt; by rewrite (pu_entry _ _ _ _ _ Hpu)|apply (hi_ready _ _ _ _ _ _ _ Hi)|done|].
  assert (heap_at s' (delete va L) (reverse fs ++ xs) (none_each fs m)) as Hat'
    by (split; [done|by eapply heap_reached_hw; [|exact HR1]]).
  exists s'. split_and!; try done.
  - etrans; [apply Hpu|]. apply on_kheap_footprint.
  - cbn. by rewrite (pu_kheap _ _ _ _ _ Hpu).
  - intros Htd. assert (tidy s1 (delete va L)) as [T1 T2 T3]; [|by split].
    eapply (tidy_kfree s s1 L xs m va fs); try done.
    eapply kernel_space_same; [..|apply (hi_ready _ _ _ _ _ _ _ Hi')]; done.
  - intros v n (j & Hj & Hr). exists j. cbn. rewrite (pu_kheap _ _ _ _ _ Hpu). cbn. split; [done|].
    destruct (decide (i = j)) as [->|]; [by rewrite array_get_set_eq|by rewrite array_get_set_ne].
  - intros q Hq Hm. destruct (live_place _ q Hq) as (f & o & Hp).
    destruct (place_word s' _ _ _ Hat' q f o Hp Hm) as (-> & Hi0 & _).
    destruct (place_frame s' _ _ _ Hat' q f o Hp) as (HF & _).
    destruct Hp as (v & gs & k & [_ HLv]%lookup_delete_Some & Hp).
    destruct (place_word s L xs m Hat q f o) as (-> & _); [by exists v, gs, k|done|]. by apply Hw.
Qed.

(** A page outside the allocations is not mapped. *)
Lemma dead_mmu s L xs m p o w :
  heap_at s L xs m → tidy s L → heap_page p → ¬ live L p → 0 ≤ o < PAGE_SIZE →
  mmu (mem (hw s)) (cr3 (hw s)) (p + o) w = None.
Proof.
  intros [Hi HR] Htd Hp Hn Ho. destruct (heap_page_offset s T p o Hp Ho) as (Hpte & _ & Had).
  rewrite (td_clear _ _ Htd p Hp Hn) in Hpte. pose proof (heap_address_entry _ Had) as Hd.
  destruct (ks_entry _ _ _ (hr_space _ _ _ _ (hi_ready _ _ _ _ _ _ _ Hi)) _ Hd) as [Hft _].
  unfold heap_pte, pte, get_word in *. unfold mmu. rewrite (rc_cr3 _ HR), Hft, Hpte.
  unfold entry_allows. rewrite (has_perm_zero PERM_PRESENT) by done. by rewrite andb_false_r.
Qed.

(** ** A second kfree of an allocation *)

(** Records may change their empty flags, and the reverse map may be written with what it holds. *)
Definition bookkeeping (s s' : KState) : Prop :=
  (∃ g, s' = on_kheap g s) ∧ first s' = first s ∧ idx (kheap s') = idx (kheap s) ∧
  (∀ f, virtualAddresses (kheap s') !!! f = virtualAddresses (kheap s) !!! f) ∧
  ∀ j, sak_virtualAddress (allocatedHAddresses (kheap s') !!! j) = sak_virtualAddress (allocatedHAddresses (kheap s) !!! j) ∧
    sak_size (allocatedHAddresses (kheap s') !!! j) = sak_size (allocatedHAddresses (kheap s) !!! j).
Lemma heap_at_bookkeeping s s' L xs m : bookkeeping s s' → heap_at s L xs m → heap_at s' L xs m.
Proof.
  intros ((g & ->) & Hf & Hidx & _ & Hrec) [Hi HR].
  split; [|by eapply heap_reached_hw; [|exact HR]].
  destruct Hi as [I1 I2 I3 I4 I5 I6 I7 I8 I9 I10 I11 I12 I13].
  split; rewrite ?Hf, ?Hidx; try done.
  - destruct I1 as [R1 R2 R3 R4 R5 R6]. split; rewrite ?Hf; try done. by eapply kernel_space_same; [..|exact R1].
  - intros va fs HL. destruct (I11 va fs HL) as (j & ? & ? & ?). exists j. by destruct (Hrec j) as [-> ->].
  - intros j Hj. destruct (Hrec j) as [-> _]. auto.
  - intros i j Hij Hj. destruct (Hrec i) as [-> _], (Hrec j) as [-> _]. auto.
Qed.
Lemma tidy_bookkeeping s s' L : bookkeeping s s' → tidy s L → tidy s' L.
Proof.
  intros ((g & ->) & _ & _ & Hrev & _) [T1 T2 T3]. split; [done|..]; intros; rewrite Hrev; auto.
Qed.
Lemma on_record_bookkeeping s s' va n : bookkeeping s s' → on_record s va n → on_record s' va n.
Proof.
  intros (_ & _ & Hidx & _ & Hrec) (j & Hj & Hr). exists j. by destruct (Hrec j) as [-> ->]; rewrite Hidx.
Qed.

(** Frame 0 is never on the free list (FrameAllocSpec.v), so that it is not in [F]. *)
Lemma kfree_again s L xs m va n :
  heap_at s L xs m → tidy s L → on_record s va n → heap_range va n →
  (∀ q, va ≤ q < va + n * PAGE_SIZE → ¬ live L q) → 0 ∉ F →
  ∃ s', kfree va s = Ret tt s' ∧ bookkeeping s s'.
Proof.
  intros Hat Htd (i & Hi & Hva & Hn) Hr Hdead H0. pose proof Hat as [Hinv _].
  destruct (hi_idx _ _ _ _ _ _ _ Hinv) as [Hi0 Hi1].
  assert (i < KHEAP_ENTRIES) as Hie.
  { destruct (hr_first _ _ _ _ (hi_ready _ _ _ _ _ _ _ Hinv)) as [[? ?] _]. change KHEAP_ENTRIES with 40959.
    unfold KERNEL_HEAP_MAX, KERNEL_HEAP_START, PAGE_SIZE in *. lia. }
  assert (virtualAddresses (kheap s) !!! 0 = 0) as Hv0.
  { apply (td_free _ _ Htd). intros Hh. apply H0. rewrite <-(hi_frames _ _ _ _ _ _ _ Hinv), elem_of_app. by left. }
  set (I (k : Z) s' := ∃ v, s' = on_kheap (set_virtualAddresses v) s ∧ ∀ f, v !!! f = virtualAddresses (kheap s) !!! f).
  destruct (forM_seqZ I (λ i, kfree_page (u32 (va + i * PAGE_SIZE))) 0 n s) as (s1 & Hs1 & v & Hs1' & Hv).
  - apply Hr.
  - exists (virtualAddresses (kheap s)). split; [|done]. by destruct s as [? ? []].
  - intros k s' Hk (v & -> & Hv). rewrite Z.add_0_l. pose proof (heap_range_page va n k Hr Hk) as Hp.
    assert (u32 (va + k * PAGE_SIZE) = va + k * PAGE_SIZE) as ->.
    { apply u32_small. destruct Hp as [[? ?] _]. unfold is_u32, KERNEL_HEAP_START, KERNEL_HEAP_MAX in *. lia. }
    set (s' := on_kheap (set_virtualAddresses v) s).
    assert (kernel_space s' D T) as Hks by (eapply kernel_space_same; [..|apply (hi_ready _ _ _ _ _ _ _ Hinv)]; done).
    assert (heap_pte s' T (va + k * PAGE_SIZE) = 0) as Hpte.
    { apply (td_clear _ _ Htd); [done|]. apply Hdead. unfold PAGE_SIZE. lia. }
    exists (set_reverse 0 0 s'). split.
    + unfold kfree_page. mstep (kheap_physical_address_spec s' D T Hks _ (heap_page_address _ Hp) ltac:(by rewrite Hpte)).
      rewrite Hpte. change (frame_of 0 * PAGE_SIZE) with 0.
      unfold set_virtualAddress. rewrite bind_modify. change (0 / PAGE_SIZE) with 0. fold (set_reverse 0 0).
      rewrite bind_gets. cbn [compose].
      assert (kernel_space (set_reverse 0 0 s') D T) as Hks' by (by eapply kernel_space_same; [..|exact Hks]).
      destruct (heap_table _ D T Hks' _ (heap_page_address _ Hp)) as [Ht _]. rewrite (ks_dir _ _ _ Hks').
      by apply (unmap_frame_nothing _ _ _ _ _ _ Ht).
    + exists (<[0 := 0]> v). split; [done|]. intros f. destruct (decide (0 = f)) as [<-|].
      * by rewrite array_get_set_eq, Hv0.
      * by rewrite array_get_set_ne.
  - exists (marked_empty i s1). split.
    + unfold kfree. rewrite (bind_Ret _ _ _ _ _ (kfree_find_spec s va i ltac:(lia) Hva
        ltac:(intros j Hj; rewrite <-Hva; apply (hi_distinct _ _ _ _ _ _ _ Hinv); lia))).
      rewrite bind_assoc. unfold get_alloc. rewrite bind_gets, bind_mret, Hn. mstep Hs1.
      cbn [read_local]. rewrite bind_mret. by mstep (upd_alloc_eq i (set_sak_empty 1) s1 ltac:(lia)).
    + subst s1. unfold bookkeeping.
      split_and!; [by exists (λ _, kheap (marked_empty i (on_kheap (set_virtualAddresses v) s)))|done|done|done|]. intros j. cbn.
      destruct (decide (i = j)) as [->|]; [by rewrite array_get_set_eq|by rewrite array_get_set_ne].
Qed.
End HeapMemory.

(** ** A client that uses its allocations *)
Section Client.
Context `{Extern}.

(** The addresses of the client's allocations, given the number of pages of each. *)
Definition within (pages : gmap Z Z) (q : Z) : Prop := map_Exists (λ v n, v ≤ q < v + n * PAGE_SIZE) pages.
#[export] Instance within_dec pages q : Decision (within pages q) := _.

(** [c] is what the client has stored in its allocations: kmalloc and kfree are those of [heap_step];
    kfree forgets what was in the allocation; a store to an allocation is remembered. *)
Inductive memory_step : KState * gmap Z Z * gmap Z Z → KState * gmap Z Z * gmap Z Z → Prop :=
  | step_heap s pages c s' pages' :
      heap_step (s, pages) (s', pages') →
      memory_step (s, pages, c) (s', pages', filter (λ p, within pages' p.1) c)
  | step_store s pages c q b s' :
      within pages q → store8 q b s = Ret tt s' → memory_step (s, pages, c) (s', pages, <[q := u8 b]> c).

Definition holds (s : KState) (L : gmap Z (list Z)) (c : gmap Z Z) : Prop :=
  ∀ q b, c !! q = Some b → live L q ∧ heap_byte s q = b.

Lemma within_live (L : gmap Z (list Z)) q : within ((λ fs, Z.of_nat (length fs)) <$> L) q ↔ live L q.
Proof.
  split.
  - intros (v & n & (fs & <- & HL)%lookup_fmap_Some & Hq). by exists v, fs.
  - intros (v & fs & HL & Hq). exists v, (Z.of_nat (length fs)). by rewrite lookup_fmap, HL.
Qed.

Lemma memory_step_inv D T F s pages c s' pages' c' L xs m :
  heap_at D T F s L xs m → pages = (λ fs, Z.of_nat (length fs)) <$> L → holds s L c →
  memory_step (s, pages, c) (s', pages', c') →
  ∃ L' xs' m', heap_at D T F s' L' xs' m' ∧ pages' = (λ fs, Z.of_nat (length fs)) <$> L' ∧ holds s' L' c'.
Proof.
  intros Hat -> Hc Hstep. inversion Hstep as [? ? ? ? ? Hh|? ? ? q b ? Hq Hs]; subst.
  - assert (∀ L' xs' m', heap_at D T F s' L' xs' m' → pages' = (λ fs, Z.of_nat (length fs)) <$> L' →
      (∀ q, live L q → live L' q → heap_byte s' q = heap_byte s q) →
      ∃ L' xs' m', heap_at D T F s' L' xs' m' ∧ pages' = (λ fs, Z.of_nat (length fs)) <$> L' ∧
        holds s' L' (filter (λ p, within pages' p.1) c)) as Hdone.
    { intros L' xs' m' Hat' -> Hb. exists L', xs', m'. split_and!; [done|done|].
      intros q b [Hqb Hw]%map_lookup_filter_Some. apply (proj1 (within_live L' q)) in Hw. destruct (Hc q b Hqb) as [Hl <-]. auto. }
    inversion Hh as [s1 l1 sz r s1' Hsz Hrun|s1 l1 va n s1' HL Hrun]; subst.
    + pose proof (ha_inv _ _ _ _ _ _ _ Hat) as Hi. pose proof (hi_ready _ _ _ _ _ _ _ Hi) as Hr.
      destruct (decide (firstFreeVAInKHeap (kheap s) + kpages sz * PAGE_SIZE < KERNEL_HEAP_MAX)) as [Hroom|].
      * pose proof (kmalloc_enough s D T sz xs m r s' Hr Hroom Hrun).
        destruct (heap_at_kmalloc D T F s L xs m sz Hat) as (s2 & fs & ys & Hk & _ & Hlen & _ & Hat' & _ & _ & _ & _ & Hw); [lia|lia|done|].
        rewrite Hk in Hrun. simplify_eq. destruct (hr_first _ _ _ _ Hr) as [[? ?] _].
        rewrite (proj2 (Z.eqb_neq _ 0)) in Hdone |- * by (unfold KERNEL_HEAP_START in *; lia).
        eapply Hdone; [exact Hat'|by rewrite fmap_insert, Hlen|]. intros q Hq _. by apply (bytes_kept D T F s L xs m).
      * rewrite (kmalloc_refuses s D T (xs, m) sz Hr) in Hrun by lia. simplify_eq. by eapply Hdone.
    + apply lookup_fmap_Some in HL as (fs & <- & HL).
      destruct (heap_at_kfree D T F s L xs m va fs Hat HL) as (s2 & Hk & Hat' & _ & _ & _ & _ & Hw).
      rewrite Hk in Hrun. simplify_eq. eapply Hdone; [exact Hat'|by rewrite fmap_delete|].
      intros q _ Hq. by apply (bytes_kept D T F s' _ _ _ _ _ _ Hat').
  - apply within_live in Hq.
    destruct (store8_live D T F s L xs m q b Hat Hq) as (s2 & Hs2 & Hat' & _ & Hb). rewrite Hs2 in Hs. simplify_eq.
    exists L, xs, m. split_and!; [done|done|]. intros p x [[<- <-]|[Hne Hp]]%lookup_insert_Some.
    + split; [done|]. by rewrite Hb, decide_True.
    + destruct (Hc p x Hp) as [Hl Hx]. split; [done|]. by rewrite Hb, decide_False by done.
Qed.
End Client.

(** ** Properties *)

(** C8: what a client stores in its allocations stays there.  Whatever sequence of kmalloc (for at
    least a page), kfree and byte stores to its live allocations the client runs from the state
    the heap starts in: every
    byte of a live allocation can be read and written by the kernel, without a fault, and a byte
    stored since the allocation was made still has the value last stored, however many other
    allocations were made, freed and written in between. *)
Theorem heap_memory_keeps_contents `{Extern} D T F m s0 s pages c :
  heap_ready s0 D T (F, m) → firstFreeVAInKHeap (kheap s0) = KERNEL_HEAP_START → idx (kheap s0) = 0 →
  heap_reached D T F s0 → rtc memory_step (s0, ∅, ∅) (s, pages, c) →
  (∀ q b, c !! q = Some b → load8 q s = Ret b s) ∧
  (∀ q, within pages q → (∃ b, load8 q s = Ret b s) ∧
     ∀ b, ∃ s', store8 q b s = Ret tt s' ∧ load8 q s' = Ret (u8 b) s' ∧
       ∀ p, within pages p → p ≠ q → ∃ x, load8 p s = Ret x s ∧ load8 p s' = Ret x s').
Proof.
  intros Hr Hf Hidx HR Hsteps.
  assert (∀ a b, rtc memory_step a b →
    (∃ L xs m, heap_at D T F a.1.1 L xs m ∧ a.1.2 = (λ fs, Z.of_nat (length fs)) <$> L ∧ holds a.1.1 L a.2) →
    ∃ L xs m, heap_at D T F b.1.1 L xs m ∧ b.1.2 = (λ fs, Z.of_nat (length fs)) <$> L ∧ holds b.1.1 L b.2) as Hinv.
  { induction 1 as [|[[s1 p1] c1] [[s2 p2] c2] a3 Hstep _ IH]; [done|]. intros (L & xs & mm & Hat & Hp & Hc).
    apply IH. by eapply memory_step_inv. }
  destruct (Hinv _ _ Hsteps) as (L & xs & mm & Hat & Hp & Hc).
  { exists ∅, F, m. split_and!; [split; [by apply heap_inv_start|done]|by rewrite fmap_empty|].
    intros q b Hq. cbn in Hq. by rewrite lookup_empty in Hq. }
  cbn in Hat, Hp, Hc. subst pages. split.
  - intros q b Hq. destruct (Hc q b Hq) as [Hl <-]. by apply (load8_live D T F s L xs mm).
  - intros q Hq%within_live. split; [eexists; by apply (load8_live D T F s L xs mm)|]. intros b.
    destruct (store8_live D T F s L xs mm q b Hat Hq) as (s' & Hs' & Hat' & _ & Hb). exists s'. split_and!; [done| |].
    + rewrite (load8_live D T F s' L xs mm Hat' q Hq). by rewrite Hb, decide_True.
    + intros p Hpl%within_live Hne. exists (heap_byte s p).
      rewrite (load8_live D T F s L xs mm Hat p Hpl), (load8_live D T F s' L xs mm Hat' p Hpl).
      by rewrite Hb, decide_False.
Qed.

(** ** Witnesses *)
Lemma heap_state_reached_frames F : (∀ f, f ∈ F → ¬ (300 ≤ f < 342)) → heap_reached 300 heap_tables F heap_state.
Proof.
  intros HF.
  assert (∀ f, 300 ≤ f < 300 + 42 → reached_apart F heap_state (static f)) as Hw.
  { intros f Hf g Hg%HF. rewrite heap_state_walk by done. rewrite !elem_of_cons, elem_of_nil. lia. }
  assert (∀ d, heap_entry d → 302 ≤ heap_tables d < 342) as Hd.
  { intros d Hd. apply (proj1 (heap_entry_range d)) in Hd. unfold heap_tables. lia. }
  split.
  - intros j. unfold get_word, heap_state. cbn. destruct (decide (word 300 960 = j)) as [<-|].
    + rewrite array_get_set_eq. done.
    + rewrite array_get_set_ne by done. apply list_words_u32. rewrite <-(bool_decide_spec _). vm_compute. done.
  - reflexivity.
  - intros d He. apply (proj1 (heap_entry_range d)) in He. revert d He.
    apply (range_all (λ d, has_perm (get_word heap_state (word 300 d)) PERM_WRITEABLE = true)). vm_compute. reflexivity.
  - intros Hin%HF. lia.
  - intros d He%Hd Hin%HF. lia.
  - apply Hw. lia.
  - intros d He%Hd. apply Hw. lia.
Qed.
Lemma heap_state_reached : heap_reached 300 heap_tables [5; 4; 3] heap_state.
Proof. apply heap_state_reached_frames. intros f. rewrite !elem_of_cons, elem_of_nil. lia. Qed.
(** A byte in the second page of an allocation, and another allocation after it. *)
Definition pages_held : gmap Z Z := <[KERNEL_HEAP_START := 2]> ∅.
Lemma stored_and_allocated :
  ∃ s pages, rtc (@memory_step no_nesting) (heap_state, ∅, ∅)
    (s, pages, filter (λ p, within pages p.1) (<[KERNEL_HEAP_START + 4100 := 42]> ∅)) ∧
    within pages (KERNEL_HEAP_START + 4100).
Proof.
  destruct (@heap_at_kmalloc no_nesting 300 heap_tables [5; 4; 3] heap_state ∅ [5; 4; 3] ∅ 5000)
    as (s1 & fs & ys & Hk & Hxs & Hlen & _ & Hat & _ & Hf & _); [|by vm_compute..|].
  { split; [|apply heap_state_reached]. apply heap_inv_start; [apply heap_state_ready|reflexivity|reflexivity]. }
  change (kpages 5000) with 2 in *. change (firstFreeVAInKHeap (kheap heap_state)) with KERNEL_HEAP_START in *.
  assert (live (<[KERNEL_HEAP_START := fs]> ∅) (KERNEL_HEAP_START + 4100)) as Hl.
  { exists KERNEL_HEAP_START, fs. split; [apply lookup_insert_eq|]. unfold PAGE_SIZE. lia. }
  assert (within pages_held (KERNEL_HEAP_START + 4100)) as Hw.
  { exists KERNEL_HEAP_START, 2. split; [apply lookup_insert_eq|]. unfold PAGE_SIZE. lia. }
  destruct (store8_live 300 heap_tables [5; 4; 3] s1 _ _ _ _ 42 Hat Hl) as (s2 & Hs2 & Hat2 & Hm & _).
  assert (length ys = 1%nat) as Hys by (apply (f_equal length) in Hxs; rewrite length_app in Hxs; cbn in Hxs; lia).
  destruct (@heap_at_kmalloc no_nesting 300 heap_tables [5; 4; 3] s2 _ ys _ 10 Hat2)
    as (s3 & gs & zs & Hk3 & _); [by vm_compute|rewrite Hys; by vm_compute| |].
  { destruct Hm as [[mm ->] _]. cbn. rewrite Hf. by vm_compute. }
  assert (firstFreeVAInKHeap (kheap s2) = KERNEL_HEAP_START + 2 * PAGE_SIZE) as Hf2
    by (destruct Hm as [[mm ->] _]; cbn; by rewrite Hf).
  rewrite Hf2 in Hk3.
  assert (0 < kpages 5000 ∧ 0 < kpages 10) as [Hsz1 Hsz3] by (split; reflexivity).
  pose proof (@step_heap no_nesting heap_state ∅ ∅ s1 pages_held (@step_kmalloc no_nesting heap_state ∅ _ _ _ Hsz1 Hk)) as H1.
  rewrite map_filter_empty in H1.
  pose proof (@step_store no_nesting s1 pages_held ∅ _ 42 s2 Hw Hs2) as H2.
  pose proof (@step_heap no_nesting s2 pages_held (<[KERNEL_HEAP_START + 4100 := 42]> ∅) s3
    (<[KERNEL_HEAP_START + 2 * PAGE_SIZE := kpages 10]> pages_held) (@step_kmalloc no_nesting s2 pages_held _ _ _ Hsz3 Hk3)) as H3.
  eexists s3, (<[KERNEL_HEAP_START + 2 * PAGE_SIZE := kpages 10]> pages_held). split.
  - eapply rtc_l; [exact H1|]. eapply rtc_l; [exact H2|]. apply rtc_once. exact H3.
  - destruct Hw as (v & n & Hv & Hq). exists v, n. split; [|done]. rewrite lookup_insert_ne; [done|].
    unfold pages_held in Hv. apply lookup_insert_Some in Hv as [[<- _]|[_ Hv]]; [done|]. by rewrite lookup_empty in Hv.
Qed.
Lemma heap_memory_keeps_contents_witness :
  ∃ s, load8 (KERNEL_HEAP_START + 4100) s = Ret 42 s.
Proof.
  destruct stored_and_allocated as (s & pages & Hsteps & Hw).
  destruct (@heap_memory_keeps_contents no_nesting 300 heap_tables [5; 4; 3] ∅ heap_state s pages _
    heap_state_ready eq_refl eq_refl heap_state_reached Hsteps) as [Hc _].
  exists s. apply Hc. apply map_lookup_filter_Some. split; [apply lookup_insert_eq|exact Hw].
Defined.
