(* ===== verification/PageFile.v ===== *)
(** * The page file: kern/file_manager.c over the disk driver of lib/disk.c

    Each environment has a page-file directory whose tables hold disk frame numbers (0 is "not in
    the page file"), and a table of disk frames that hold swapped-out page tables.  Disk frames
    come from a free list threaded through [disk_frames_info]. *)
From S2P Require Import Prelude Machine Queue State PageFlags FrameAlloc Paging KHeap.

Definition SECTOR_SIZE : Z := 512.
Definition PAGE_FILE_START_SECTOR : Z := Z.shiftl 20 20 `div` SECTOR_SIZE.
Definition SECTOR_PER_PAGE : Z := PAGE_SIZE `div` SECTOR_SIZE.
Definition PAGE_FILE_SIZE : Z := Z.shiftl 520 20.
Definition PAGES_PER_FILE : Z := PAGE_FILE_SIZE `div` PAGE_SIZE.

(** ** The drive

    The driver programs the drive with the number of sectors and a 28-bit sector address split
    over four ports, then moves one sector at a time through the data port.  A bad sector makes
    the drive report an error. *)
Definition WORDS_PER_SECTOR : Z := SECTOR_SIZE `div` 4.
Definition ide_lba (secno : Z) : Z :=
  let p3 := Z.land secno 0xFF in
  let p4 := Z.land (Z.shiftr secno 8) 0xFF in
  let p5 := Z.land (Z.shiftr secno 16) 0xFF in
  let p6 := Z.lor 0xE0 (Z.land (Z.shiftr secno 24) 0x0F) in
  p3 + Z.shiftl p4 8 + Z.shiftl p5 16 + Z.shiftl (Z.land p6 0x0F) 24.
Definition ide_wait_ready (sector : Z) : K bool :=
  gets (λ s, bool_decide (sector ∉ bad_sectors (hw s))).
(** [insl(0x1F0, dst, SECTSIZE/4)] and [outsl]. *)
Definition insl (sector dst : Z) : K unit :=
  forM (seqZ 0 WORDS_PER_SECTOR) (λ i,
    v ← gets (λ s, disk (hw s) !!! (sector * WORDS_PER_SECTOR + i)); store_at dst i v).
Definition outsl (sector src : Z) : K unit :=
  forM (seqZ 0 WORDS_PER_SECTOR) (λ i,
    v ← load_at src i;
    modify (on_hw (λ h, set_disk (<[sector * WORDS_PER_SECTOR + i := v]> (disk h)) h))).

(** [for (; nsecs > 0; nsecs--, p += SECTSIZE) {...}] *)
Fixpoint ide_sectors (move : Z → Z → K unit) (lba p : Z) (nsecs : nat) : K Z :=
  match nsecs with
  | O => mret 0
  | Datatypes.S n =>
      ready ← ide_wait_ready lba;
      if (ready : bool) then move lba p;; ide_sectors move (lba + 1) (u32 (p + SECTOR_SIZE)) n
      else mret (-1)
  end.
Definition ide_read (secno dst nsecs : Z) : K Z :=
  assert_ (nsecs <=? 256) "nsecs <= 256";;
  ide_sectors insl (ide_lba secno) dst (Z.to_nat nsecs).
Definition ide_write (secno src nsecs : Z) : K Z :=
  assert_ (nsecs <=? 256) "nsecs <= 256";;
  ide_sectors outsl (ide_lba secno) src (Z.to_nat nsecs).

Definition read_disk_page (dfn va : Z) : K Z :=
  let df_start_sector := u32 (PAGE_FILE_START_SECTOR + dfn * SECTOR_PER_PAGE) in
  ide_read df_start_sector va SECTOR_PER_PAGE.
Definition write_disk_page (dfn va : Z) : K Z :=
  let df_start_sector := u32 (PAGE_FILE_START_SECTOR + dfn * SECTOR_PER_PAGE) in
  success ← ide_write df_start_sector va SECTOR_PER_PAGE;
  if negb (success =? 0) then panic "Error writing on disk" else mret success.

(** ** Disk frames *)
Definition on_disk_free_list (op : gmap Z Frame_Info → ListHead → gmap Z Frame_Info * ListHead) : K unit :=
  modify (on_pagefile (λ r,
    let '(h, l) := op (disk_frames_info r) (disk_free_frame_list r) in
    set_disk_frames_info h (set_disk_free_frame_list l r))).
Definition initialize_disk_frame_info (i : Z) : K unit :=
  modify (on_pagefile (λ r, set_disk_frames_info (<[i := inhabitant]> (disk_frames_info r)) r)).

Definition initialize_disk_page_file : K unit :=
  modify (on_pagefile (set_disk_free_frame_list (MkListHead None None 0)));;
  for_range 1 PAGES_PER_FILE (λ i,
    initialize_disk_frame_info i;; on_disk_free_list (λ h l, LIST_INSERT_HEAD h l i)).

(** The return value, and [*dfn] ([None]: unchanged). *)
Definition allocate_disk_frame : K (Z * option Z) :=
  first ← gets (λ s, lh_first (disk_free_frame_list (pagefile s)));
  match first with
  | None => mret (E_NO_PAGE_FILE_SPACE, None)
  | Some f =>
      on_disk_free_list (λ h l, LIST_REMOVE h l f);;
      initialize_disk_frame_info f;;
      mret (0, Some f)
  end.
Definition free_disk_frame (dfn : Z) : K unit :=
  if dfn =? 0 then mret tt else on_disk_free_list (λ h l, LIST_INSERT_HEAD h l dfn).

Section PageFile.
Context `{Extern}.

Definition get_disk_page_table (ptr_disk_page_directory virtual_address : Z) (create : bool)
    : K (Z * Z) :=
  disk_page_directory_entry ← load_at ptr_disk_page_directory (PDX virtual_address);
  table ← table_address virtual_address disk_page_directory_entry;
  if disk_page_directory_entry =? 0 then
    if create then
      table ← kmalloc PAGE_SIZE;
      if table =? 0 then mret (E_NO_VM, 0) else
      pa ← kheap_physical_address table;
      store_at ptr_disk_page_directory (PDX virtual_address) (CONSTRUCT_ENTRY pa PERM_PRESENT);;
      memset0 table 1024;;
      mret (0, table)
    else mret (0, 0)
  else mret (0, table).

(** Called with [&ptr_env->disk_env_pgdir]: the directory is stored back in the environment. *)
Definition get_disk_page_directory (ptr_env : Z) : K Z :=
  e ← get_env ptr_env;
  if disk_env_pgdir e =? 0 then
    d ← kmalloc PAGE_SIZE;
    upd_env ptr_env (set_disk_env_pgdir d);;
    if d =? 0 then mret E_NO_VM else
    pa ← kheap_physical_address d;
    upd_env ptr_env (set_disk_env_pgdir_PA pa);;
    memset0 d 1024;;
    mret 0
  else mret 0.

(** The disk frame of a page, allocated on demand; the common part of the two [pf_add]. *)
Definition pf_disk_frame (ptr_env virtual_address : Z) : K (Z * option Z) :=
  assert_ (u32 virtual_address <? KERNEL_BASE) "virtual_address < KERNEL_BASE";;
  get_disk_page_directory ptr_env;;
  e ← get_env ptr_env;
  '(_, table) ← get_disk_page_table (disk_env_pgdir e) virtual_address true;
  dfn ← load_at table (PTX virtual_address);
  if dfn =? 0 then
    '(r, dfn) ← allocate_disk_frame;
    if r =? E_NO_PAGE_FILE_SPACE then mret (E_NO_PAGE_FILE_SPACE, None) else
    dfn ← read_local "dfn" dfn;
    store_at table (PTX virtual_address) dfn;;
    mret (0, Some dfn)
  else mret (0, Some dfn).

Definition pf_add_env_page (ptr_env virtual_address dataSrc : Z) : K Z :=
  '(r, dfn) ← pf_disk_frame ptr_env virtual_address;
  match dfn with
  | None => mret r
  | Some dfn => write_disk_page dfn dataSrc
  end.

Definition pf_add_empty_env_page (ptr_env virtual_address initializeByZero : Z) : K Z :=
  if negb (initializeByZero =? 0) then
    zero ← gets (ptr_zero_page ∘ boot);
    pf_add_env_page ptr_env virtual_address zero
  else
    '(r, _) ← pf_disk_frame ptr_env virtual_address; mret r.

Definition pf_update_env_page (ptr_env virtual_address modified_page_frame_info : Z) : K Z :=
  assert_ (u32 virtual_address <? KERNEL_BASE) "virtual_address < KERNEL_BASE";;
  get_disk_page_directory ptr_env;;
  e ← get_env ptr_env;
  '(_, table) ← get_disk_page_table (disk_env_pgdir e) virtual_address false;
  if table =? 0 then mret E_PAGE_NOT_EXIST_IN_PF else
  dfn ← load_at table (PTX virtual_address);
  if dfn =? 0 then mret E_PAGE_NOT_EXIST_IN_PF else
  map_frame (env_page_directory e) modified_page_frame_info USER_LIMIT 0;;
  ret ← write_disk_page dfn (ROUNDDOWN USER_LIMIT PAGE_SIZE);
  increment_references modified_page_frame_info;;
  unmap_frame (env_page_directory e) USER_LIMIT;;
  upd_frame modified_page_frame_info (λ x, set_references (u16 (references x - 1)) x);;
  mret ret.

Definition pf_read_env_page (ptr_env virtual_address : Z) : K Z :=
  let virtual_address := ROUNDDOWN virtual_address PAGE_SIZE in
  e ← get_env ptr_env;
  if disk_env_pgdir e =? 0 then mret E_PAGE_NOT_EXIST_IN_PF else
  '(_, table) ← get_disk_page_table (disk_env_pgdir e) virtual_address false;
  if table =? 0 then mret E_PAGE_NOT_EXIST_IN_PF else
  dfn ← load_at table (PTX virtual_address);
  if dfn =? 0 then mret E_PAGE_NOT_EXIST_IN_PF else
  disk_read_error ← read_disk_page dfn virtual_address;
  c ← curenv_ptr;
  pt_set_page_permissions c virtual_address 0 PERM_MODIFIED;;
  mret disk_read_error.

Definition pf_remove_env_page (ptr_env virtual_address : Z) : K unit :=
  e ← get_env ptr_env;
  if disk_env_pgdir e =? 0 then mret tt else
  '(_, table) ← get_disk_page_table (disk_env_pgdir e) virtual_address false;
  if table =? 0 then mret tt else
  dfn ← load_at table (PTX virtual_address);
  store_at table (PTX virtual_address) 0;;
  free_disk_frame dfn.

Definition pf_calculate_allocated_pages (ptr_env : Z) : K Z :=
  e ← get_env ptr_env;
  mloop 1025 (λ '(pdIndex, counter),
    if negb (pdIndex <? PDX USER_TOP) then mret (inr counter) else
    pde ← load_at (disk_env_pgdir e) pdIndex;
    if negb (has_perm pde PERM_PRESENT) then mret (inl (pdIndex + 1, counter)) else
    pt ← kheap_virtual_address (EXTRACT_ADDRESS pde);
    counter ← mloop 1025 (λ '(ptIndex, counter),
      if negb (ptIndex <? 1024) then mret (inr counter) else
      dfn ← load_at pt ptIndex;
      mret (inl (ptIndex + 1, if negb (dfn =? 0) then u32 (counter + 1) else counter)))
      (0, counter);
    mret (inl (pdIndex + 1, counter))) (0, 0).

Definition pf_calculate_free_frames : K Z :=
  fuel ← mret (Z.to_nat PAGES_PER_FILE);
  x ← gets (λ s, lh_first (disk_free_frame_list (pagefile s)));
  list_loop (disk_frames_info ∘ pagefile) fuel x 0 (λ n _, mret (inl (u32 (n + 1)))) (λ n, n).

(** ** Swapped-out page tables *)
Definition get_disk_table_directory (ptr_env : Z) : K Z :=
  e ← get_env ptr_env;
  if disk_env_tabledir e =? 0 then
    d ← kmalloc PAGE_SIZE;
    upd_env ptr_env (set_disk_env_tabledir d);;
    if d =? 0 then mret E_NO_VM else
    pa ← kheap_physical_address d;
    upd_env ptr_env (set_disk_env_tabledir_PA pa);;
    memset0 d 1024;;
    mret 0
  else mret 0.

Definition __pf_write_env_table (ptr_env virtual_address tableKVirtualAddress : Z) : K Z :=
  assert_ (u32 virtual_address <? KERNEL_BASE) "virtual_address < KERNEL_BASE";;
  get_disk_table_directory ptr_env;;
  e ← get_env ptr_env;
  dfn ← load_at (disk_env_tabledir e) (PDX virtual_address);
  if dfn =? 0 then
    '(r, dfn) ← allocate_disk_frame;
    if r =? E_NO_PAGE_FILE_SPACE then mret E_NO_PAGE_FILE_SPACE else
    dfn ← read_local "dfn" dfn;
    store_at (disk_env_tabledir e) (PDX virtual_address) dfn;;
    write_disk_page dfn tableKVirtualAddress
  else write_disk_page dfn tableKVirtualAddress.

Definition __pf_read_env_table (ptr_env virtual_address tableKVirtualAddress : Z) : K Z :=
  e ← get_env ptr_env;
  if disk_env_tabledir e =? 0 then mret E_TABLE_NOT_EXIST_IN_PF else
  dfn ← load_at (disk_env_tabledir e) (PDX virtual_address);
  if dfn =? 0 then mret E_TABLE_NOT_EXIST_IN_PF else
  read_disk_page dfn tableKVirtualAddress.

Definition __pf_remove_env_all_tables (ptr_env : Z) : K unit :=
  e ← get_env ptr_env;
  if disk_env_tabledir e =? 0 then mret tt else
  forM (seqZ 0 (PDX USER_TOP)) (λ pdeno,
    dfn ← load_at (disk_env_tabledir e) pdeno;
    store_at (disk_env_tabledir e) pdeno 0;;
    free_disk_frame dfn).

Definition __pf_remove_env_table (ptr_env virtual_address : Z) : K unit :=
  e ← get_env ptr_env;
  if disk_env_tabledir e =? 0 then mret tt else
  dfn ← load_at (disk_env_tabledir e) (PDX virtual_address);
  store_at (disk_env_tabledir e) (PDX virtual_address) 0;;
  free_disk_frame dfn.

Definition pf_free_env (ptr_env : Z) : K unit :=
  e ← get_env ptr_env;
  forM (seqZ 0 (PDX USER_TOP)) (λ pdeno,
    pde ← load_at (disk_env_pgdir e) pdeno;
    when (has_perm pde PERM_PRESENT)
      (pt ← kheap_virtual_address (EXTRACT_ADDRESS pde);
       forM (seqZ 0 1024) (λ pteno,
         dfn ← load_at pt pteno;
         store_at pt pteno 0;;
         free_disk_frame dfn);;
       store_at (disk_env_pgdir e) pdeno 0;;
       kfree pt));;
  kfree (disk_env_pgdir e);;
  upd_env ptr_env (set_disk_env_pgdir 0);;
  upd_env ptr_env (set_disk_env_pgdir_PA 0);;
  if disk_env_tabledir e =? 0 then mret tt else
  __pf_remove_env_all_tables ptr_env;;
  kfree (disk_env_tabledir e);;
  upd_env ptr_env (set_disk_env_tabledir 0);;
  upd_env ptr_env (set_disk_env_tabledir_PA 0).
End PageFile.
