(* ===== verification/PageFileSpec.v ===== *)
(** * What the page file promises

    Disk frames are handed out like memory frames; a page written to a disk frame is the page read
    back from it, and no other disk frame changes; a sector the drive cannot serve is reported on
    reading and stops the kernel on writing. *)
From S2P Require Import Prelude Machine Queue State AddressSpace PageFlags FrameAlloc FrameAllocSpec Paging PagingSpec KHeap PageFile.

(** ** Sector addresses *)
Lemma ide_lba_eq secno : 0 ≤ secno < 2 ^ 28 → ide_lba secno = secno.
Proof.
  intros Hs. unfold ide_lba.
  change 0xFF with (Z.ones 8). change 0x0F with (Z.ones 4).
  assert (Z.land (Z.lor 0xE0 (Z.land (Z.shiftr secno 24) (Z.ones 4))) (Z.ones 4)
          = Z.land (Z.shiftr secno 24) (Z.ones 4)) as ->.
  { rewrite Z.land_lor_distr_l, <-Z.land_assoc, Z.land_diag. done. }
  rewrite !Z.land_ones, !Z.shiftr_div_pow2, !Z.shiftl_mul_pow2 by lia.
  change (2 ^ 8) with 256. change (2 ^ 16) with 65536. change (2 ^ 24) with 16777216. change (2 ^ 4) with 16.
  change (2 ^ 28) with 268435456 in Hs. zdiv.
Qed.
(** Disk frame 0 is never handed out: it stands for a page that is not in the page file. *)
Definition disk_page (dfn : Z) : Prop := 0 < dfn < PAGES_PER_FILE.
(** First sector of a disk frame. *)
Definition sector_of (dfn : Z) : Z := PAGE_FILE_START_SECTOR + dfn * SECTOR_PER_PAGE.
Lemma sector_of_lba dfn : disk_page dfn → ide_lba (u32 (sector_of dfn)) = sector_of dfn.
Proof.
  unfold disk_page, sector_of. change PAGES_PER_FILE with 133120.
  change PAGE_FILE_START_SECTOR with 40960. change SECTOR_PER_PAGE with 8. intros.
  rewrite u32_small by (unfold is_u32; lia). apply ide_lba_eq. lia.
Qed.

(** ** Words of the disk *)
Definition disk_word (s : KState) (j : Z) : Z := disk (hw s) !!! j.
(** Word [i] of disk frame [dfn]. *)
Definition dword (dfn i : Z) : Z := sector_of dfn * WORDS_PER_SECTOR + i.
Definition disk_only (s s' : KState) : Prop := ∃ d, s' = on_hw (set_disk d) s.
Definition serviceable (s : KState) (dfn : Z) : Prop :=
  ∀ k, 0 ≤ k < SECTOR_PER_PAGE → sector_of dfn + k ∉ bad_sectors (hw s).

Lemma ide_sectors_ind (I : Z → KState → Prop) move lba p n s :
  is_u32 p → I 0 s →
  (∀ k s, 0 ≤ k < Z.of_nat n → I k s →
     lba + k ∉ bad_sectors (hw s) ∧
     ∃ s', move (lba + k) (u32 (p + SECTOR_SIZE * k)) s = Ret tt s' ∧ I (k + 1) s') →
  ∃ s', ide_sectors move lba p n s = Ret 0 s' ∧ I (Z.of_nat n) s'.
Proof.
  intros Hp H0 Hstep.
  assert (∀ todo k s, Z.of_nat todo = Z.of_nat n - k → 0 ≤ k → I k s →
    ∃ s', ide_sectors move (lba + k) (u32 (p + SECTOR_SIZE * k)) todo s = Ret 0 s' ∧ I (Z.of_nat n) s') as Hgen.
  { induction todo as [|todo IH]; intros k s1 Hk Hk0 HI.
    - exists s1. split; [done|]. by replace (Z.of_nat n) with k by lia.
    - destruct (Hstep k s1 ltac:(lia) HI) as (Hb & s2 & Hs2 & HI2).
      destruct (IH (k + 1) s2) as (s3 & Hs3 & HI3); [lia|lia|done|].
      exists s3. split; [|done]. cbn [ide_sectors]. unfold ide_wait_ready. rewrite bind_gets.
      rewrite bool_decide_eq_true_2 by done. mstep Hs2. rewrite u32_idemp_add.
      replace (p + SECTOR_SIZE * k + SECTOR_SIZE) with (p + SECTOR_SIZE * (k + 1)) by lia.
      by replace (lba + k + 1) with (lba + (k + 1)) by lia. }
  destruct (Hgen n 0 s) as (s' & Hs' & HI'); [lia|lia|done|]. exists s'. split; [|done].
  rewrite <-Hs'. rewrite Z.add_0_r. by rewrite Z.mul_0_r, Z.add_0_r, u32_small.
Qed.

(** ** One sector *)
Lemma outsl_spec s a f sector k :
  kpage s a f → 0 ≤ k < SECTOR_PER_PAGE →
  ∃ d, outsl sector (u32 (a + SECTOR_SIZE * k)) s = Ret tt (on_hw (set_disk d) s) ∧
    ∀ j, d !!! j = if within (sector * WORDS_PER_SECTOR) (sector * WORDS_PER_SECTOR + WORDS_PER_SECTOR) j
                   then get_word s (word f (WORDS_PER_SECTOR * k + (j - sector * WORDS_PER_SECTOR)))
                   else disk_word s j.
Proof.
  intros Hp Hk. change SECTOR_PER_PAGE with 8 in Hk. unfold SECTOR_SIZE.
  destruct (forM_seqZ (λ n s', ∃ d, s' = on_hw (set_disk d) s ∧
    ∀ j, d !!! j = if within (sector * WORDS_PER_SECTOR) (sector * WORDS_PER_SECTOR + n) j
                   then get_word s (word f (WORDS_PER_SECTOR * k + (j - sector * WORDS_PER_SECTOR)))
                   else disk_word s j)
    (λ i, v ← load_at (u32 (a + 512 * k)) i;
          modify (on_hw (λ h, set_disk (<[sector * WORDS_PER_SECTOR + i := v]> (disk h)) h)))
    0 WORDS_PER_SECTOR s) as (s' & Hs' & d & -> & Hd); [by vm_compute| | |by exists d].
  - exists (disk (hw s)). split; [by destruct s as [[]]|]. intros j. by rewrite within_empty.
  - change WORDS_PER_SECTOR with 128. intros i s1 Hi (d & -> & Hd). rewrite Z.add_0_l.
    assert (load_at (u32 (a + 512 * k)) i (on_hw (set_disk d) s) =
      Ret (get_word s (word f (128 * k + i))) (on_hw (set_disk d) s)) as Hl.
    { unfold load_at. rewrite u32_idemp_add. replace (a + 512 * k + 4 * i) with (a + 4 * (128 * k + i)) by lia.
      fold (load_at a (128 * k + i)).
      apply (load_kpage (on_hw (set_disk d) s) a f); [exact Hp|lia]. }
    mstep Hl. eexists. split; [done|]. eexists. split; [done|]. cbn. intros j.
    destruct (decide (sector * 128 + i = j)) as [<-|Hne].
    + rewrite array_get_set_eq, within_last by lia. do 2 f_equal. lia.
    + rewrite array_get_set_ne, Hd, within_grow by done. done.
Qed.

Lemma insl_spec s a f sector k :
  kpage s a f → clear_of [f] s a → 0 ≤ k < SECTOR_PER_PAGE →
  ∃ s', insl sector (u32 (a + SECTOR_SIZE * k)) s = Ret tt s' ∧ writes_only [f] s s' ∧
    (∀ i, 0 ≤ i < 1024 →
       get_word s' (word f i) =
         if within (WORDS_PER_SECTOR * k) (WORDS_PER_SECTOR * k + WORDS_PER_SECTOR) i
         then u32 (disk_word s (sector * WORDS_PER_SECTOR + (i - WORDS_PER_SECTOR * k)))
         else get_word s (word f i)).
Proof.
  intros Hp Hc Hk. change SECTOR_PER_PAGE with 8 in Hk. unfold SECTOR_SIZE, insl.
  apply (forM_seqZ (λ n s', writes_only [f] s s' ∧
    (∀ i, 0 ≤ i < 1024 →
       get_word s' (word f i) =
         if within (WORDS_PER_SECTOR * k) (WORDS_PER_SECTOR * k + n) i
         then u32 (disk_word s (sector * WORDS_PER_SECTOR + (i - WORDS_PER_SECTOR * k)))
         else get_word s (word f i)))); [by vm_compute| |].
  - split; [done|]. intros i _. by rewrite within_empty.
  - change WORDS_PER_SECTOR with 128. intros n s1 Hn [Hw Hd]. rewrite Z.add_0_l, bind_gets.
    assert (disk (hw s1) = disk (hw s)) as Hds by (by destruct Hw as [[m ->] _]). rewrite Hds.
    set (v := disk (hw s) !!! (sector * 128 + n)).
    assert (store_at (u32 (a + 512 * k)) n v s1 = Ret tt (put_word (word f (128 * k + n)) (u32 v) s1)) as Hst.
    { unfold store_at. rewrite u32_idemp_add. replace (a + 512 * k + 4 * n) with (a + 4 * (128 * k + n)) by lia.
      fold (store_at a (128 * k + n) v). apply (store_kpage s1 a f); [by eapply writes_only_kpage|lia]. }
    eexists. split; [exact Hst|]. split; [etrans; [done|]; apply writes_only_put; [by left|lia]|].
    intros i Hi. destruct (decide (128 * k + n = i)) as [<-|Hne].
    + rewrite get_put_eq, within_last by lia. unfold v, disk_word. do 3 f_equal. lia.
    + rewrite get_put_ne by (intros [_ ?]%word_inj; lia). by rewrite within_grow, Hd.
Qed.

(** A sector that cannot be served ends the transfer with -1. *)
Lemma ide_sectors_bad (I : Z → KState → Prop) move lba p n b s :
  is_u32 p → I 0 s → 0 ≤ b < Z.of_nat n →
  (∀ s, I b s → lba + b ∈ bad_sectors (hw s)) →
  (∀ k s, 0 ≤ k < b → I k s →
     lba + k ∉ bad_sectors (hw s) ∧
     ∃ s', move (lba + k) (u32 (p + SECTOR_SIZE * k)) s = Ret tt s' ∧ I (k + 1) s') →
  ∃ s', ide_sectors move lba p n s = Ret (-1) s' ∧ I b s'.
Proof.
  intros Hp H0 Hb Hbad Hstep.
  assert (∀ todo k s, Z.of_nat todo = Z.of_nat n - k → 0 ≤ k ≤ b → I k s →
    ∃ s', ide_sectors move (lba + k) (u32 (p + SECTOR_SIZE * k)) todo s = Ret (-1) s' ∧ I b s') as Hgen.
  { induction todo as [|todo IH]; intros k s1 Hk Hk0 HI; [lia|].
    cbn [ide_sectors]. unfold ide_wait_ready. rewrite bind_gets.
    destruct (decide (k = b)) as [->|Hne].
    - rewrite bool_decide_eq_false_2 by (intros Hn; apply Hn; by apply Hbad). by exists s1.
    - destruct (Hstep k s1 ltac:(lia) HI) as (Hg & s2 & Hs2 & HI2).
      rewrite bool_decide_eq_true_2 by done. mstep Hs2. rewrite u32_idemp_add.
      replace (p + SECTOR_SIZE * k + SECTOR_SIZE) with (p + SECTOR_SIZE * (k + 1)) by lia.
      replace (lba + k + 1) with (lba + (k + 1)) by lia. apply IH; [lia|lia|done]. }
  destruct (Hgen n 0 s) as (s' & Hs' & HI'); [lia|lia|done|]. exists s'. split; [|done].
  rewrite <-Hs'. rewrite Z.add_0_r. by rewrite Z.mul_0_r, Z.add_0_r, u32_small.
Qed.

(** ** Whole pages *)
(** [k] sectors of the frame [f] have been written. *)
Definition sectors_written (s : KState) (f dfn k : Z) (s' : KState) : Prop :=
  ∃ d, s' = on_hw (set_disk d) s ∧
    ∀ j, d !!! j = if within (dword dfn 0) (dword dfn 0 + WORDS_PER_SECTOR * k) j
                   then get_word s (word f (j - dword dfn 0)) else disk_word s j.
Definition sectors_read (s : KState) (f dfn k : Z) (s' : KState) : Prop :=
  writes_only [f] s s' ∧
  ∀ i, 0 ≤ i < 1024 →
    get_word s' (word f i) = if within 0 (WORDS_PER_SECTOR * k) i
                             then u32 (disk_word s (dword dfn i)) else get_word s (word f i).

Lemma sectors_written_step s a f dfn k s1 :
  kpage s a f → 0 ≤ k < SECTOR_PER_PAGE → sectors_written s f dfn k s1 →
  ∃ s2, outsl (sector_of dfn + k) (u32 (a + SECTOR_SIZE * k)) s1 = Ret tt s2 ∧
        sectors_written s f dfn (k + 1) s2.
Proof.
  intros Hp Hk (d & -> & Hd).
  destruct (outsl_spec (on_hw (set_disk d) s) a f (sector_of dfn + k) k Hp Hk) as (d2 & Hs2 & Hd2).
  eexists. split; [exact Hs2|]. exists d2. split; [done|]. intros j. rewrite Hd2.
  change (get_word (on_hw (set_disk d) s)) with (get_word s).
  change (disk_word (on_hw (set_disk d) s) j) with (d !!! j). rewrite Hd.
  change SECTOR_PER_PAGE with 8 in Hk. unfold dword. change WORDS_PER_SECTOR with 128.
  destruct (within_spec ((sector_of dfn + k) * 128) ((sector_of dfn + k) * 128 + 128) j),
    (within_spec (sector_of dfn * 128 + 0) (sector_of dfn * 128 + 0 + 128 * k) j),
    (within_spec (sector_of dfn * 128 + 0) (sector_of dfn * 128 + 0 + 128 * (k + 1)) j);
    try lia; try done. do 2 f_equal. lia.
Qed.
Lemma sectors_read_step s a f dfn k s1 :
  kpage s a f → clear_of [f] s a → 0 ≤ k < SECTOR_PER_PAGE → sectors_read s f dfn k s1 →
  ∃ s2, insl (sector_of dfn + k) (u32 (a + SECTOR_SIZE * k)) s1 = Ret tt s2 ∧
        sectors_read s f dfn (k + 1) s2.
Proof.
  intros Hp Hc Hk [Hw Hd].
  destruct (insl_spec s1 a f (sector_of dfn + k) k) as (s2 & Hs2 & Hw2 & Hd2);
    [by eapply writes_only_kpage|by eapply writes_only_clear|done|].
  exists s2. split; [done|]. split; [by etrans|]. intros i Hi. rewrite Hd2, Hd by done.
  assert (disk_word s1 = disk_word s) as -> by (by destruct Hw as [[m ->] _]).
  change SECTOR_PER_PAGE with 8 in Hk. unfold dword. change WORDS_PER_SECTOR with 128.
  destruct (within_spec (128 * k) (128 * k + 128) i), (within_spec 0 (128 * k) i),
    (within_spec 0 (128 * (k + 1)) i); try lia; try done. do 2 f_equal. lia.
Qed.

Lemma sectors_written_0 s f dfn : sectors_written s f dfn 0 s.
Proof.
  exists (disk (hw s)). split; [by destruct s as [[]]|]. intros j. by rewrite Z.mul_0_r, within_empty.
Qed.
Lemma sectors_read_0 s f dfn : sectors_read s f dfn 0 s.
Proof.
  split; [done|]. intros i _. rewrite Z.mul_0_r. by destruct (within_spec 0 0 i); [lia|].
Qed.

Lemma write_disk_page_spec s a f dfn :
  kpage s a f → disk_page dfn → serviceable s dfn →
  ∃ d, write_disk_page dfn a s = Ret 0 (on_hw (set_disk d) s) ∧
    (∀ i, 0 ≤ i < 1024 → d !!! dword dfn i = get_word s (word f i)) ∧
    (∀ j, ¬ (dword dfn 0 ≤ j < dword dfn 0 + 1024) → d !!! j = disk_word s j).
Proof.
  intros Hp Hdfn Hs.
  destruct (ide_sectors_ind (sectors_written s f dfn) outsl (sector_of dfn) a 8 s) as (s' & Hs' & d & -> & Hd);
    [apply Hp|apply sectors_written_0| |].
  { intros k s1 Hk Hsw. split; [|by eapply sectors_written_step].
    destruct Hsw as (d & -> & _). by apply Hs. }
  exists d. split_and!.
  - unfold write_disk_page. fold (sector_of dfn). unfold ide_write. rewrite sector_of_lba by done.
    cbn [assert_ Z.leb]. change (assert_ (SECTOR_PER_PAGE <=? 256) _) with (@mret (M KState) _ _ tt).
    rewrite bind_assoc, bind_mret. by mstep Hs'.
  - intros i Hi. rewrite Hd. change (WORDS_PER_SECTOR * Z.of_nat 8) with 1024. unfold dword.
    destruct (within_spec (sector_of dfn * WORDS_PER_SECTOR + 0) (sector_of dfn * WORDS_PER_SECTOR + 0 + 1024)
      (sector_of dfn * WORDS_PER_SECTOR + i)); [|lia]. do 2 f_equal. lia.
  - intros j Hj. rewrite Hd. change (WORDS_PER_SECTOR * Z.of_nat 8) with 1024.
    by destruct (within_spec (dword dfn 0) (dword dfn 0 + 1024) j).
Qed.

Lemma read_disk_page_spec s a f dfn :
  kpage s a f → clear_of [f] s a → disk_page dfn → serviceable s dfn →
  ∃ s', read_disk_page dfn a s = Ret 0 s' ∧ writes_only [f] s s' ∧
    ∀ i, 0 ≤ i < 1024 → get_word s' (word f i) = u32 (disk_word s (dword dfn i)).
Proof.
  intros Hp Hc Hdfn Hs.
  destruct (ide_sectors_ind (sectors_read s f dfn) insl (sector_of dfn) a 8 s) as (s' & Hs' & Hw & Hd);
    [apply Hp|apply sectors_read_0| |].
  { intros k s1 Hk Hsw. split; [|by eapply sectors_read_step].
    destruct Hsw as [[[m ->] _] _]. by apply Hs. }
  exists s'. split_and!; [|done|].
  - unfold read_disk_page. fold (sector_of dfn). unfold ide_read. rewrite sector_of_lba by done. exact Hs'.
  - intros i Hi. rewrite Hd by done. change (WORDS_PER_SECTOR * Z.of_nat 8) with 1024.
    by destruct (within_spec 0 1024 i).
Qed.

(** ** Disk frames *)
Definition disk_free (s : KState) (xs : list Z) : Prop :=
  dll (disk_frames_info (pagefile s)) (disk_free_frame_list (pagefile s)) xs.
Definition pagefile_only (s s' : KState) : Prop := ∃ p, s' = set_pagefile p s.

Lemma allocate_disk_frame_some s f xs :
  disk_free s (f :: xs) →
  ∃ s', allocate_disk_frame s = Ret (0, Some f) s' ∧ disk_free s' xs ∧ pagefile_only s s'.
Proof.
  intros Hd. pose proof Hd as (Hfirst & _ & _ & [Hf _]%NoDup_cons & _).
  pose proof (dll_remove _ _ [] f xs Hd) as Hr.
  destruct (LIST_REMOVE (disk_frames_info (pagefile s)) (disk_free_frame_list (pagefile s)) f)
    as [h1 l1] eqn:Hrem. destruct Hr as (Hd1 & _).
  exists (set_pagefile (MkPageFile (<[f := inhabitant]> h1) l1) s). split_and!.
  - unfold allocate_disk_frame. rewrite bind_gets, Hfirst. cbn [hd_or].
    unfold on_disk_free_list. rewrite bind_modify. unfold on_pagefile at 1. rewrite Hrem.
    unfold initialize_disk_frame_info. by rewrite bind_modify.
  - by apply dll_insert_other.
  - by eexists.
Qed.
Lemma allocate_disk_frame_none s : disk_free s [] → allocate_disk_frame s = Ret (E_NO_PAGE_FILE_SPACE, None) s.
Proof. intros (Hfirst & _). unfold allocate_disk_frame. by rewrite bind_gets, Hfirst. Qed.
Lemma free_disk_frame_spec s f xs :
  disk_free s xs → f ∉ xs → f ≠ 0 →
  ∃ s', free_disk_frame f s = Ret tt s' ∧ disk_free s' (f :: xs) ∧ pagefile_only s s'.
Proof.
  intros Hd Hf H0. pose proof (dll_insert_head _ _ xs f Hd Hf) as Hi.
  destruct (LIST_INSERT_HEAD (disk_frames_info (pagefile s)) (disk_free_frame_list (pagefile s)) f)
    as [h1 l1] eqn:Hins. destruct Hi as [Hd1 _].
  exists (set_pagefile (MkPageFile h1 l1) s). split_and!; [|done|by eexists].
  unfold free_disk_frame. rewrite (proj2 (Z.eqb_neq _ _)) by done.
  unfold on_disk_free_list, modify, on_pagefile. by rewrite Hins.
Qed.

(** ** The page-file table of an address *)
Record has_disk_table (s : KState) (e va t df tf : Z) : Prop := {
  dt_dir : kpage s (disk_env_pgdir (envs (environments s) !!! e)) df;
  dt_null : disk_env_pgdir (envs (environments s) !!! e) ≠ 0;
  dt_entry : get_word s (word df (PDX va)) ≠ 0;
  dt_addr : table_address va (get_word s (word df (PDX va))) s = Ret t s;
  dt_table : kpage s t tf;
  dt_table_null : t ≠ 0;
}.
Section DiskTable.
Context `{Extern} (s : KState) (e va t df tf : Z) (Ht : has_disk_table s e va t df tf).

Lemma get_disk_page_table_present create :
  get_disk_page_table (disk_env_pgdir (envs (environments s) !!! e)) va create s = Ret (0, t) s.
Proof using Ht.
  destruct Ht as [H1 H2 H3 H4 H5 H6]. unfold get_disk_page_table.
  mstep (load_kpage s _ df H1 (PDX va) (PDX_range va)). mstep H4.
  by rewrite (proj2 (Z.eqb_neq _ _)) by done.
Qed.
Lemma get_disk_page_directory_present : get_disk_page_directory e s = Ret 0 s.
Proof using Ht.
  unfold get_disk_page_directory, get_env. rewrite bind_gets.
  by rewrite (proj2 (Z.eqb_neq _ _)) by apply (dt_null _ _ _ _ _ _ Ht).
Qed.
Lemma load_dfn : load_at t (PTX va) s = Ret (pte s va tf) s.
Proof using Ht. apply (load_kpage s t tf); [apply Ht|apply PTX_range]. Qed.
End DiskTable.

Lemma table_address_pagefile s s' va e t :
  pagefile_only s s' → table_address va e s = Ret t s → table_address va e s' = Ret t s'.
Proof.
  intros [p ->]. unfold table_address, kheap_virtual_address, STATIC_KERNEL_VIRTUAL_ADDRESS.
  destruct (negb _).
  - unfold gets. cbn. by intros [= ->].
  - rewrite !bind_gets. cbn. case_match; [done|]. by intros [= ->].
Qed.
Lemma has_disk_table_pagefile s s' e va t df tf :
  pagefile_only s s' → has_disk_table s e va t df tf → has_disk_table s' e va t df tf.
Proof.
  intros Hp [H1 H2 H3 H4 H5 H6]. pose proof Hp as [p ->]. split; try done.
  by eapply table_address_pagefile.
Qed.

Section PfDiskFrame.
Context `{Extern} (e va t df tf : Z).

(** The disk frame of the page: the one it has, or the first free one. *)
Lemma pf_disk_frame_spec s f xs :
  has_disk_table s e va t df tf → u32 va < KERNEL_BASE →
  pte s va tf ≠ 0 ∨ pte s va tf = 0 ∧ disk_free s (f :: xs) ∧ disk_page f →
  let dfn := if pte s va tf =? 0 then f else pte s va tf in
  ∃ s1, pf_disk_frame e va s = Ret (0, Some dfn) (put_word (word tf (PTX va)) dfn s1) ∧
        pagefile_only s s1 ∧ (pte s va tf = 0 → disk_free s1 xs).
Proof.
  intros Ht Hva Hcase dfn. subst dfn. unfold pf_disk_frame.
  change (assert_ (u32 va <? KERNEL_BASE)) with (λ msg, @assert_ KState (u32 va <? KERNEL_BASE) msg).
  cbn beta. rewrite (proj2 (Z.ltb_lt _ _)) by done. cbn [assert_]. rewrite bind_mret.
  mstep (get_disk_page_directory_present s e va t df tf Ht). unfold get_env. rewrite bind_gets.
  mstep (get_disk_page_table_present s e va t df tf Ht true). mstep (load_dfn s e va t df tf Ht).
  destruct Hcase as [Hne|(H0 & Hfree & Hf)].
  - rewrite !(proj2 (Z.eqb_neq _ _)) by done. exists s. split_and!; [|by exists (pagefile s); destruct s|done].
    by rewrite put_word_same by done.
  - rewrite H0. cbn [Z.eqb].
    destruct (allocate_disk_frame_some s f xs Hfree) as (s1 & Hs1 & Hd1 & Ho).
    exists s1. split_and!; [|done|done]. mstep Hs1. change (0 =? E_NO_PAGE_FILE_SPACE) with false.
    cbn [read_local]. rewrite bind_mret.
    assert (store_at t (PTX va) f s1 = Ret tt (put_word (word tf (PTX va)) f s1)) as Hst.
    { rewrite (store_kpage s1 t tf); [|by apply (has_disk_table_pagefile _ _ _ _ _ _ _ Ho Ht)|apply PTX_range].
      rewrite u32_small; [done|]. unfold disk_page, is_u32 in *. change PAGES_PER_FILE with 133120 in Hf. lia. }
    by mstep Hst.
Qed.
End PfDiskFrame.

(** ** Tables across a transfer *)
Section Touches.
Context (fs : list Z) (s s' : KState) (Ht : touches fs s s').

Lemma touches_table_address va e t : table_address va e s = Ret t s → table_address va e s' = Ret t s'.
Proof using Ht.
  destruct Ht as (_ & _ & Hf & Hk & _). unfold table_address, kheap_virtual_address, STATIC_KERNEL_VIRTUAL_ADDRESS.
  destruct (negb _).
  - unfold gets. rewrite Hk. by intros [= ->].
  - rewrite !bind_gets. cbn. rewrite Hf. case_match; [done|]. by intros [= ->].
Qed.
Lemma touches_has_disk_table e va t df tf :
  reached_apart fs s (disk_env_pgdir (envs (environments s) !!! e)) → reached_apart fs s t → df ∉ fs →
  has_disk_table s e va t df tf → has_disk_table s' e va t df tf.
Proof using Ht.
  intros Hd Hta Hdf [H1 H2 H3 H4 H5 H6]. pose proof Ht as (_ & _ & _ & _ & He & _).
  assert (get_word s' (word df (PDX va)) = get_word s (word df (PDX va))) as Hw
    by (eapply touches_word; [done|done|apply PDX_range]).
  split; rewrite ?He, ?Hw; try done; [by eapply touches_kpage|by apply touches_table_address|by eapply touches_kpage].
Qed.
Lemma touches_env_has_table e va t df tf :
  reached_apart fs s (env_page_directory (envs (environments s) !!! e)) → reached_apart fs s t → df ∉ fs →
  env_has_table e va t df tf s → env_has_table e va t df tf s'.
Proof using Ht.
  intros Hd Hta Hdf [[H1 H2 H3 H4 H5] Hap]. pose proof Ht as (_ & _ & _ & _ & He & _).
  assert (get_word s' (word df (PDX va)) = get_word s (word df (PDX va))) as Hw
    by (eapply touches_word; [done|done|apply PDX_range]).
  unfold env_has_table. rewrite He. split.
  - split; rewrite ?Hw; try done; [by eapply touches_kpage|by apply touches_table_address|by eapply touches_kpage].
  - unfold entry_apart. destruct (touches_walk fs s s' Ht _ Hd) as [-> _].
    by destruct (touches_walk fs s s' Ht _ Hta) as [-> _].
Qed.
End Touches.

(** A page of environment [e], at [va] in frame [fu], about to be saved from the page [src] (frame
    [fsrc]) and read back: its page-file table is [t], its page table [tm]. *)
Record swap_setting (s : KState) (e va src fsrc fu t df tf tm dm tmf : Z) : Prop := {
  sw_src : kpage s src fsrc;
  sw_page : kpage s va fu;
  sw_disk : has_disk_table s e va t df tf;
  sw_mem : env_has_table e va tm dm tmf s;
  sw_cur : curenv (environments s) = Some e;
  sw_user : va < KERNEL_BASE;
  sw_tf : tf ∉ [df; dm; tmf; fsrc; fu];
  sw_fu : fu ∉ [df; tf; dm; tmf];
  sw_reach a : a ∈ [va; t; tm; disk_env_pgdir (envs (environments s) !!! e);
                    env_page_directory (envs (environments s) !!! e)] → reached_apart [tf; fu] s a;
  sw_reach_src : reached_apart [tf] s src;
}.

Section Swap.
Context `{Extern} (e va src fsrc fu t df tf tm dm tmf : Z).

Lemma swap_touches s s' :
  swap_setting s e va src fsrc fu t df tf tm dm tmf → touches [tf; fu] s s' →
  kpage s' va fu ∧ has_disk_table s' e va t df tf ∧ env_has_table e va tm dm tmf s' ∧
  ∀ a, a ∈ [va; tm; env_page_directory (envs (environments s') !!! e)] → reached_apart [fu] s' a.
Proof.
  intros [W1 W2 W3 W4 W5 W6 W7 W8 W9 W10] Ht.
  assert (df ∉ [tf; fu] ∧ dm ∉ [tf; fu]) as [Hdf Hdm] by set_solver.
  split_and!.
  - eapply touches_kpage; [done| |done]. apply W9. set_solver.
  - eapply touches_has_disk_table; [done|..|done]; [apply W9; set_solver..|done].
  - eapply touches_env_has_table; [done|..|done]; [apply W9; set_solver..|done].
  - pose proof Ht as (_ & _ & _ & _ & -> & _). intros a Ha.
    assert (reached_apart [tf; fu] s a) as Hr by (apply W9; set_solver).
    eapply touches_reached; [done|done|]. intros f Hf. apply Hr. set_solver.
Qed.

(** The disk frame the page has or gets. *)
Definition page_dfn (s : KState) (f : Z) : Z := if pte s va tf =? 0 then f else pte s va tf.

Lemma pf_add_env_page_spec s f xs :
  swap_setting s e va src fsrc fu t df tf tm dm tmf →
  disk_page (page_dfn s f) → (pte s va tf = 0 → disk_free s (f :: xs)) → serviceable s (page_dfn s f) →
  ∃ s', pf_add_env_page e va src s = Ret 0 s' ∧ touches [tf; fu] s s' ∧
    pte s' va tf = page_dfn s f ∧
    ∀ i, 0 ≤ i < 1024 → disk_word s' (dword (page_dfn s f) i) = get_word s (word fsrc i).
Proof.
  intros Hsw Hd Hfree Hs. pose proof Hsw as [W1 W2 W3 W4 W5 W6 W7 W8 W9 W10].
  destruct (pf_disk_frame_spec e va t df tf s f xs W3) as (s1 & Hs1 & [p ->] & _).
  { destruct W2 as (Hu & _). by rewrite u32_small. }
  { unfold page_dfn in Hd. destruct (Z.eqb_spec (pte s va tf) 0); [right|by left]. auto. }
  fold (page_dfn s f) in Hs1. set (s2 := put_word (word tf (PTX va)) (page_dfn s f) (set_pagefile p s)) in *.
  assert (touches [tf] s s2) as Ht1.
  { transitivity (set_pagefile p s); [done|]. apply touches_put; [by left|apply PTX_range]. }
  assert (kpage s2 src fsrc) as Hsrc by (by eapply touches_kpage).
  destruct (write_disk_page_spec s2 src fsrc (page_dfn s f) Hsrc Hd) as (d & Hw & Hd1 & _); [exact Hs|].
  exists (on_hw (set_disk d) s2). split_and!.
  - unfold pf_add_env_page. mstep Hs1. exact Hw.
  - etrans; [eapply touches_mono; [|exact Ht1]; set_solver|]. done.
  - unfold s2, pte. apply get_put_eq.
  - intros i Hi. rewrite <-(touches_word [tf] s s2 Ht1 fsrc i) by (set_solver || done). by apply Hd1.
Qed.

Lemma pf_read_env_page_spec s dfn :
  kpage s va fu → has_disk_table s e va t df tf → env_has_table e va tm dm tmf s →
  curenv (environments s) = Some e → fu ≠ dm → fu ≠ tmf →
  (∀ a, a ∈ [va; tm; env_page_directory (envs (environments s) !!! e)] → reached_apart [fu] s a) →
  pte s va tf = dfn → disk_page dfn → serviceable s dfn →
  ∃ s', pf_read_env_page e va s = Ret 0 s' ∧ touches [fu; tmf] s s' ∧ frames s' = frames s ∧
    (∀ i, 0 ≤ i < 1024 → get_word s' (word fu i) = u32 (disk_word s (dword dfn i))) ∧
    pte s' va tmf = permissions_updated (pte s va tmf) 0 PERM_MODIFIED ∧
    (∀ f i, f ≠ fu → 0 ≤ i < 1024 → word f i ≠ word tmf (PTX va) → get_word s' (word f i) = get_word s (word f i)).
Proof.
  intros Hpg Hdt Hmt Hcur Hdm Htmf Hre Hdfn Hd Hs.
  assert (ROUNDDOWN va PAGE_SIZE = va) as Hround.
  { destruct Hpg as (Hu & Hm & _). unfold ROUNDDOWN. by rewrite !(u32_small va), Hm, Z.sub_0_r, u32_small. }
  assert (clear_of [fu] s va) as Hc by (apply reached_apart_clear, Hre; by left).
  destruct (read_disk_page_spec s va fu dfn Hpg Hc Hd Hs) as (s1 & Hs1 & Hw1 & Hd1).
  pose proof (touches_writes _ _ _ Hw1) as Ht1.
  assert (env_has_table e va tm dm tmf s1) as Hmt1.
  { eapply touches_env_has_table; [done|apply Hre; set_solver..| |done]. set_solver. }
  assert (dfn ≠ 0) as Hnz by (unfold disk_page in Hd; lia).
  eexists. split_and!.
  - unfold pf_read_env_page, get_env. cbv zeta. rewrite Hround, bind_gets.
    rewrite (proj2 (Z.eqb_neq _ _)) by apply (dt_null _ _ _ _ _ _ Hdt).
    mstep (get_disk_page_table_present s e va t df tf Hdt false).
    rewrite (proj2 (Z.eqb_neq _ _)) by apply (dt_table_null _ _ _ _ _ _ Hdt).
    mstep (load_dfn s e va t df tf Hdt). rewrite Hdfn, (proj2 (Z.eqb_neq _ _)) by done. mstep Hs1.
    unfold curenv_ptr. rewrite bind_assoc, bind_gets. cbn [compose].
    destruct Ht1 as (_ & _ & _ & _ & -> & _). rewrite Hcur. cbn [read_local]. rewrite bind_mret.
    by mstep (pt_set_page_permissions_spec e va tm dm tmf s1 0 PERM_MODIFIED Hmt1).
  - etrans; [eapply touches_mono; [|done]; set_solver|].
    apply touches_put; [set_solver|apply PTX_range].
  - by destruct Hw1 as [[m ->] _].
  - intros i Hi. rewrite get_put_ne; [by apply Hd1|].
    intros [? _]%word_inj; [done|apply PTX_range|done].
  - unfold pte. rewrite get_put_eq. f_equal. eapply touches_word; [done|set_solver|apply PTX_range].
  - intros f i Hf Hi Hne. rewrite get_put_ne by done. eapply touches_word; [done|set_solver|done].
Qed.
End Swap.

(** ** Properties *)

(** C14: a page saved in the page file with pf_add_env_page is what pf_read_env_page brings back,
    when the page-file table of the address exists and the page has a disk frame or one is free:
    both calls succeed, every word of the environment's page afterwards is the word of the source
    page, the page's entry in the page-file table names its disk frame, and its modified bit is
    cleared while its frame and other flags stay. *)
Theorem page_file_roundtrip `{Extern} s e va src fsrc fu t df tf tm dm tmf f xs :
  swap_setting s e va src fsrc fu t df tf tm dm tmf →
  disk_page (page_dfn va tf s f) → (pte s va tf = 0 → disk_free s (f :: xs)) →
  serviceable s (page_dfn va tf s f) → (∀ j, is_u32 (get_word s j)) →
  ∃ s1 s2, pf_add_env_page e va src s = Ret 0 s1 ∧ pf_read_env_page e va s1 = Ret 0 s2 ∧
    pte s1 va tf = page_dfn va tf s f ∧
    (∀ i, 0 ≤ i < 1024 → get_word s2 (word fu i) = get_word s (word fsrc i)) ∧
    pte s2 va tmf = permissions_updated (pte s va tmf) 0 PERM_MODIFIED.
Proof.
  intros Hsw Hd Hfree Hs Hu.
  destruct (pf_add_env_page_spec e va src fsrc fu t df tf tm dm tmf s f xs Hsw Hd Hfree Hs)
    as (s1 & Hs1 & Ht1 & Hp1 & Hw1).
  assert (serviceable s1 (page_dfn va tf s f)) as Hs' by (unfold serviceable; by destruct Ht1 as (_ & -> & _)).
  destruct (swap_touches e va src fsrc fu t df tf tm dm tmf s s1 Hsw Ht1) as (Hpg & Hdt & Hmt & Hre).
  pose proof Hsw as [_ _ _ _ Hcur _ Htf Hfu _ _].
  assert (environments s1 = environments s) as He by (by destruct Ht1 as (_ & _ & _ & _ & ? & _)).
  destruct (pf_read_env_page_spec e va fu t df tf tm dm tmf s1 (page_dfn va tf s f))
    as (s2 & Hs2 & _ & _ & Hw2 & Hp2 & _); try done; [by rewrite He|set_solver..|].
  exists s1, s2. split_and!; try done.
  - intros i Hi. rewrite Hw2, Hw1 by done. by apply u32_small.
  - rewrite Hp2. f_equal. unfold pte. eapply touches_word; [done| |apply PTX_range]. set_solver.
Qed.

(** A disk frame whose first unserviceable sector is its [b]-th cannot be used: reading it
    returns -1 and writing it panics. *)
Theorem bad_sector_reported s a f dfn b :
  kpage s a f → clear_of [f] s a → disk_page dfn → 0 ≤ b < SECTOR_PER_PAGE →
  sector_of dfn + b ∈ bad_sectors (hw s) →
  (∀ k, 0 ≤ k < b → sector_of dfn + k ∉ bad_sectors (hw s)) →
  (∃ s', read_disk_page dfn a s = Ret (-1) s' ∧ writes_only [f] s s') ∧
  (∃ s', write_disk_page dfn a s = Panic "Error writing on disk" s').
Proof.
  intros Hp Hc Hd Hb Hbad Hgood. change SECTOR_PER_PAGE with 8 in Hb. split.
  - destruct (ide_sectors_bad (sectors_read s f dfn) insl (sector_of dfn) a 8 b s) as (s' & Hs' & Hw & _);
      [apply Hp|apply sectors_read_0|lia| | |].
    + intros s1 [[[m ->] _] _]. done.
    + intros k s1 Hk Hsr. split; [destruct Hsr as [[[m ->] _] _]; by apply Hgood|].
      eapply sectors_read_step; try done. change SECTOR_PER_PAGE with 8. lia.
    + exists s'. split; [|done]. unfold read_disk_page, ide_read. fold (sector_of dfn).
      rewrite sector_of_lba by done. exact Hs'.
  - destruct (ide_sectors_bad (sectors_written s f dfn) outsl (sector_of dfn) a 8 b s) as (s' & Hs' & _);
      [apply Hp|apply sectors_written_0|lia| | |].
    + intros s1 (d & -> & _). done.
    + intros k s1 Hk Hsr. split; [destruct Hsr as (d & -> & _); by apply Hgood|].
      eapply sectors_written_step; try done. change SECTOR_PER_PAGE with 8. lia.
    + exists s'. unfold write_disk_page, ide_write. fold (sector_of dfn).
      rewrite sector_of_lba, bind_assoc by done.
      change (assert_ (SECTOR_PER_PAGE <=? 256) _) with (@mret (M KState) _ _ tt). rewrite bind_mret.
      by mstep Hs'.
Qed.

(** Initialize_disk_page_file puts every disk frame but frame 0 on the free list; after it
    allocation hands out the highest numbers first. *)
Theorem disk_frames_initialised s :
  ∃ s', initialize_disk_page_file s = Ret tt s' ∧
    disk_free s' (reverse (seqZ 1 (PAGES_PER_FILE - 1))) ∧ pagefile_only s s'.
Proof.
  unfold initialize_disk_page_file. rewrite bind_modify.
  set (s0 := on_pagefile _ s). unfold for_range.
  destruct (forM_seqZ (λ k s', disk_free s' (reverse (seqZ 1 k)) ∧ pagefile_only s s')
    (λ i, initialize_disk_frame_info i;; on_disk_free_list (λ h l, LIST_INSERT_HEAD h l i))
    1 (PAGES_PER_FILE - 1) s0) as (s' & Hs' & Hd & Ho); [discriminate| | |exists s'; exact (conj Hs' (conj Hd Ho))].
  - split; [|by eexists]. unfold disk_free, dll. cbn. split_and!; try done. constructor.
  - intros k s1 Hk [Hd [p ->]]. unfold initialize_disk_frame_info. rewrite bind_modify.
    set (s1 := on_pagefile _ _).
    assert (1 + k ∉ reverse (seqZ 1 k)) as Hn by (rewrite elem_of_reverse, elem_of_seqZ; lia).
    assert (disk_free s1 (reverse (seqZ 1 k))) as Hd1 by (by apply dll_insert_other).
    pose proof (dll_insert_head _ _ _ (1 + k) Hd1 Hn) as Hi.
    unfold on_disk_free_list, modify, on_pagefile at 1.
    destruct (LIST_INSERT_HEAD (disk_frames_info (pagefile s1)) (disk_free_frame_list (pagefile s1)) (1 + k))
      as [h l]. destruct Hi as [Hi _].
    eexists. split; [done|]. split; [|by eexists].
    rewrite seqZ_app by lia. change (seqZ (1 + k) 1) with [1 + k]. rewrite reverse_app. exact Hi.
Qed.

(** ** Witnesses *)

(** Environment 0 runs on directory 300; its page at 8 MB is frame 305, its page table is frame 304,
    its page-file directory frame 303 and table frame 306.  Disk frame 9 is free; kernel page 307
    holds 42 in its sixth word. *)
Definition kernel_page (f : Z) : Z := KERNEL_BASE + f * PAGE_SIZE.
Definition swap_words : list (Z * Z) :=
  [(word 300 960, 301 * PAGE_SIZE + 3); (word 301 300, 300 * PAGE_SIZE + 3);
   (word 301 303, 303 * PAGE_SIZE + 3); (word 301 304, 304 * PAGE_SIZE + 3);
   (word 301 306, 306 * PAGE_SIZE + 3); (word 301 307, 307 * PAGE_SIZE + 3);
   (word 300 2, 304 * PAGE_SIZE + 7); (word 304 0, 305 * PAGE_SIZE + 0x47);
   (word 303 2, 306 * PAGE_SIZE + 1); (word 307 5, 42)].
Definition swap_state : KState :=
  set_pagefile (MkPageFile ∅ (MkListHead (Some 9) (Some 9) 1))
  (on_environments (λ r, set_curenv (Some 0) (set_envs
     {[0 := set_env_page_directory (kernel_page 300) (set_disk_env_pgdir (kernel_page 303) inhabitant)]} r))
  (on_kheap (set_virtualAddresses {[304 := kernel_page 304; 306 := kernel_page 306]})
  (on_hw (λ h, set_cr3 (300 * PAGE_SIZE) (set_mem (list_to_map swap_words) h)) inhabitant))).
Definition PAGE_8M : Z := 0x800000.

Lemma swap_state_setting :
  swap_setting swap_state 0 PAGE_8M (kernel_page 307) 307 305 (kernel_page 306) 303 306 (kernel_page 304) 300 304.
Proof.
  assert (∀ a, bool_decide (Forall (λ f, f ∉ walk_frames swap_state a) [306; 305]) = true →
               reached_apart [306; 305] swap_state a) as Hr.
  { intros a Ha%bool_decide_eq_true. by rewrite Forall_forall in Ha. }
  split.
  - by vm_compute.
  - by vm_compute.
  - split; by vm_compute.
  - split; [split; by vm_compute|]. split_and!; apply (bool_decide_unpack _); vm_compute; exact I.
  - reflexivity.
  - by vm_compute.
  - apply (bool_decide_unpack _). vm_compute. exact I.
  - apply (bool_decide_unpack _). vm_compute. exact I.
  - intros a Ha. rewrite !elem_of_cons, elem_of_nil in Ha.
    destruct Ha as [-> | [-> | [-> | [-> | [-> | []]]]]]; apply Hr; vm_compute; reflexivity.
  - intros f Hf. apply (Hr (kernel_page 307)); [vm_compute; reflexivity|].
    apply list_elem_of_singleton in Hf as ->. by left.
Qed.

Lemma page_file_roundtrip_witness :
  ∃ s1 s2, @pf_add_env_page no_nesting 0 PAGE_8M (kernel_page 307) swap_state = Ret 0 s1 ∧
    @pf_read_env_page no_nesting 0 PAGE_8M s1 = Ret 0 s2 ∧ pte s1 PAGE_8M 306 = 9 ∧
    get_word s2 (word 305 5) = 42.
Proof.
  destruct (@page_file_roundtrip no_nesting swap_state 0 PAGE_8M (kernel_page 307) 307 305
    (kernel_page 306) 303 306 (kernel_page 304) 300 304 9 [] swap_state_setting)
    as (s1 & s2 & Hs1 & Hs2 & Hp & Hw & _).
  - by vm_compute.
  - intros _. unfold disk_free, dll. cbn. split_and!; try done. apply NoDup_singleton.
  - intros k _. apply not_elem_of_empty.
  - intros j. apply list_words_u32. repeat constructor; by vm_compute.
  - exists s1, s2. rewrite (Hw 5) by lia. split_and!; [exact Hs1|exact Hs2|exact Hp|reflexivity].
Defined.

(** The same machine with a bad third sector in disk frame 9. *)
Lemma bad_sector_reported_witness :
  let s := on_hw (set_bad_sectors {[sector_of 9 + 2]}) swap_state in
  (∃ s', read_disk_page 9 PAGE_8M s = Ret (-1) s' ∧ writes_only [305] s s') ∧
  ∃ s', write_disk_page 9 PAGE_8M s = Panic "Error writing on disk" s'.
Proof.
  intros s. apply (bad_sector_reported s PAGE_8M 305 9 2).
  - by vm_compute.
  - apply reached_apart_clear. intros f Hf. apply list_elem_of_singleton in Hf as ->.
    apply (bool_decide_unpack _). vm_compute. exact I.
  - by vm_compute.
  - by vm_compute.
  - cbn. by apply elem_of_singleton.
  - intros k Hk. cbn. rewrite elem_of_singleton. lia.
Defined.
