(* ===== verification/WorkingSet.v ===== *)
(** * The page and table working sets: kern/memory_manager.c and update_WS_time_stamps of kern/sched.c

    The page working set of an environment is the array behind [ptr_pageWorkingSet], of
    [page_WS_max_size] elements; the table working set has a fixed size. *)
From S2P Require Import Prelude Machine Queue State PageFlags.

Definition __TWS_MAX_SIZE : Z := 50.

(** Both working sets are searched by the same loops, over an array of [n] elements. *)
Definition count_nonempty (a : gmap Z WorkingSetElement) (n : Z) : Z :=
  Z.of_nat (length (filter (λ i, ws_empty (a !!! i) = 0) (seqZ 0 n))).
(** The loop itself: [for(;i<n; i++) if(a[i].empty == 0) counter++;] *)
Definition count_loop_ws (a : gmap Z WorkingSetElement) (n : Z) : Z :=
  foldl (λ counter i, if ws_empty (a !!! i) =? 0 then counter + 1 else counter) 0 (seqZ 0 n).

Definition cleared (x : WorkingSetElement) : WorkingSetElement := MkWSE 0 1 0.
Definition entered (va : Z) (x : WorkingSetElement) : WorkingSetElement := MkWSE va 0 0x80000000.

(** ** Pages *)
Definition env_page_ws_get_size (e : Z) : K Z :=
  x ← get_env e; mret (count_loop_ws (pageWS x) (page_WS_max_size x)).

Definition env_page_ws_clear_entry (e entry_index : Z) : K unit :=
  x ← get_env e;
  assert_ ((0 <=? entry_index) && (entry_index <? page_WS_max_size x)) "entry_index in range";;
  ws_upd e entry_index cleared.

Definition env_page_ws_invalidate (e virtual_address : Z) : K unit :=
  x ← get_env e;
  mloop (Z.to_nat (page_WS_max_size x + 1)) (λ i,
    if negb (i <? page_WS_max_size x) then mret (inr tt) else
    w ← ws_get e i;
    if ROUNDDOWN (ws_virtual_address w) PAGE_SIZE =? ROUNDDOWN virtual_address PAGE_SIZE
    then env_page_ws_clear_entry e i;; mret (inr tt)
    else mret (inl (i + 1))) 0.

Definition env_page_ws_set_entry (e entry_index virtual_address : Z) : K unit :=
  x ← get_env e;
  assert_ ((0 <=? entry_index) && (entry_index <? page_WS_max_size x)) "entry_index in range";;
  assert_ ((0 <=? virtual_address) && (virtual_address <? USER_TOP)) "virtual_address in range";;
  ws_upd e entry_index (entered (ROUNDDOWN virtual_address PAGE_SIZE)).

Definition env_page_ws_get_virtual_address (e entry_index : Z) : K Z :=
  x ← get_env e;
  assert_ ((0 <=? entry_index) && (entry_index <? page_WS_max_size x)) "entry_index in range";;
  w ← ws_get e entry_index; mret (ROUNDDOWN (ws_virtual_address w) PAGE_SIZE).

Definition env_page_ws_get_time_stamp (e entry_index : Z) : K Z :=
  x ← get_env e;
  assert_ ((0 <=? entry_index) && (entry_index <? page_WS_max_size x)) "entry_index in range";;
  w ← ws_get e entry_index; mret (ws_time_stamp w).

Definition env_page_ws_is_entry_empty (e entry_index : Z) : K Z :=
  w ← ws_get e entry_index; mret (ws_empty w).

(** ** Tables *)
Definition tws_index_ok (entry_index : Z) : bool := (0 <=? entry_index) && (entry_index <? __TWS_MAX_SIZE).

Definition env_table_ws_get_size (e : Z) : K Z :=
  x ← get_env e; mret (count_loop_ws (tws x) __TWS_MAX_SIZE).

Definition env_table_ws_clear_entry (e entry_index : Z) : K unit :=
  assert_ (tws_index_ok entry_index) "entry_index in range";;
  tws_upd e entry_index cleared.

Definition env_table_ws_invalidate (e virtual_address : Z) : K unit :=
  mloop 51 (λ i,
    if negb (i <? __TWS_MAX_SIZE) then mret (inr tt) else
    w ← tws_get e i;
    if ROUNDDOWN (ws_virtual_address w) PTSIZE =? ROUNDDOWN virtual_address PTSIZE
    then env_table_ws_clear_entry e i;; mret (inr tt)
    else mret (inl (i + 1))) 0.

Definition env_table_ws_set_entry (e entry_index virtual_address : Z) : K unit :=
  assert_ (tws_index_ok entry_index) "entry_index in range";;
  assert_ ((0 <=? virtual_address) && (virtual_address <? USER_TOP)) "virtual_address in range";;
  tws_upd e entry_index (entered (ROUNDDOWN virtual_address PTSIZE)).

Definition env_table_ws_get_virtual_address (e entry_index : Z) : K Z :=
  assert_ (tws_index_ok entry_index) "entry_index in range";;
  w ← tws_get e entry_index; mret (ROUNDDOWN (ws_virtual_address w) PTSIZE).

Definition env_table_ws_get_time_stamp (e entry_index : Z) : K Z :=
  assert_ (tws_index_ok entry_index) "entry_index in range";;
  w ← tws_get e entry_index; mret (ws_time_stamp w).

Definition env_table_ws_is_entry_empty (e entry_index : Z) : K Z :=
  w ← tws_get e entry_index; mret (ws_empty w).

(** The table working set is filled in order; its index wraps. *)
Definition addTableToTableWorkingSet (e tableAddress : Z) : K unit :=
  let tableAddress := ROUNDDOWN tableAddress PTSIZE in
  x ← get_env e;
  (if tws_index_ok (table_last_WS_index x) then mret tt else undefined "__ptr_tws");;
  tws_upd e (table_last_WS_index x) (λ _, MkWSE tableAddress 0 0);;
  upd_env e (λ x, set_table_last_WS_index ((table_last_WS_index x + 1) `mod` __TWS_MAX_SIZE) x).

(** ** Ageing: [time_stamp = (oldTimeStamp>>2) | 0x80000000] for a referenced page *)
Definition aged (used : bool) (oldTimeStamp : Z) : Z :=
  if used then Z.lor (Z.shiftr oldTimeStamp 2) 0x80000000 else Z.shiftr oldTimeStamp 2.

Section Ageing.
Context `{Extern}.

Definition age_page (e i : Z) : K unit :=
  w ← ws_get e i;
  when (negb (ws_empty w =? 1))
    (perm ← pt_get_page_permissions e (ws_virtual_address w);
     if negb (Z.land perm PERM_USED =? 0) then
       ws_upd e i (set_ws_time_stamp (aged true (ws_time_stamp w)));;
       pt_set_page_permissions e (ws_virtual_address w) 0 PERM_USED
     else ws_upd e i (set_ws_time_stamp (aged false (ws_time_stamp w)))).

Definition age_table (e t : Z) : K unit :=
  w ← tws_get e t;
  when (negb (ws_empty w =? 1))
    (used ← pd_is_table_used e (ws_virtual_address w);
     if negb (used =? 0) then
       tws_upd e t (set_ws_time_stamp (aged true (ws_time_stamp w)));;
       pd_set_table_unused e (ws_virtual_address w)
     else tws_upd e t (set_ws_time_stamp (aged false (ws_time_stamp w)))).

Definition update_WS_time_stamps : K unit :=
  c ← gets (curenv ∘ environments);
  match c with
  | None => mret tt
  | Some e =>
      x ← get_env e;
      forM (seqZ 0 (page_WS_max_size x)) (age_page e);;
      forM (seqZ 0 __TWS_MAX_SIZE) (age_table e)
  end.
End Ageing.
