(* ===== verification/Fault.v ===== *)
(** * Page faults and page replacement: kern/trap.c

    table_fault_handler, page_fault_handler with its LRU, FIFO and CLOCK choices, fault_handler.
    The victim is an index of the page working set. *)
From S2P Require Import Prelude Machine Queue State PageFlags FrameAlloc Paging KHeap PageFile WorkingSet.

(** Index arithmetic [(i+1) % n] on unsigned integers; dividing by zero is undefined. *)
Definition next_index (i n : Z) : K Z :=
  if n =? 0 then undefined "division by zero" else mret (u32 (i + 1) `mod` n).

Section FaultHandler.
Context `{Extern}.

Definition table_fault_handler (e fault_va : Z) : K unit :=
  x ← get_env e;
  create_page_table (env_page_directory x) fault_va;;
  mret tt.

(** [minTime] starts at 1e9, [idxToReplace] at [page_last_WS_index]. *)
Definition lru_body (e max : Z) (x : Z * Z * Z) : K ((Z * Z * Z) + Z) :=
  let '(i, minTime, idxToReplace) := x in
  if negb (i <? max) then mret (inr idxToReplace) else
  time ← env_page_ws_get_time_stamp e i;
  if time <? minTime then mret (inl (i + 1, time, i)) else mret (inl (i + 1, minTime, idxToReplace)).
Definition lru_victim (e max start : Z) : K Z :=
  mloop (Z.to_nat (max + 1)) (lru_body e max) (0, 1000000000, start).

(** The clock hand: an entry whose page has its used bit set gets a second chance. *)
Definition clock_body (e max : Z) (idxToReplace : Z) : K (Z + Z) :=
  killVA ← env_page_ws_get_virtual_address e idxToReplace;
  x ← get_env e;
  '(_, pageT) ← get_page_table (env_page_directory x) killVA;
  pageTableEntry ← load_at pageT (PTX killVA);
  if Z.land pageTableEntry PERM_USED =? 0 then mret (inr idxToReplace) else
  update_entry pageT (PTX killVA) (λ v, Z.land v (not32 PERM_USED));;
  i ← next_index idxToReplace max;
  mret (inl i).
Definition clock_victim (e max start : Z) : K Z :=
  mloop (Z.to_nat (max + 1)) (clock_body e max) start.

Definition choose_victim (e max start : Z) : K Z :=
  lru ← isPageReplacmentAlgorithmLRU;
  if (lru : bool) then lru_victim e max start else
  fifo ← isPageReplacmentAlgorithmFIFO;
  if (fifo : bool) then mret start else
  clock ← isPageReplacmentAlgorithmCLOCK;
  if (clock : bool) then clock_victim e max start else mret start.

(** Write the victim back if it was modified, unmap it, clear its entry. *)
Definition evict (e idxToReplace : Z) : K unit :=
  VA ← env_page_ws_get_virtual_address e idxToReplace;
  x ← get_env e;
  get_page_table (env_page_directory x) VA;;
  '(ptr, page_table) ← get_frame_info (env_page_directory x) VA;
  page_permissions ← load_at page_table (PTX VA);
  when (negb (Z.land page_permissions PERM_MODIFIED =? 0))
    (f ← read_local "NULL frame" ptr;
     pf_update_env_page e VA f;; mret tt);;
  unmap_frame (env_page_directory x) VA;;
  env_page_ws_clear_entry e idxToReplace.

(** [while(!curenv->__uptr_pws[idxToReplace].empty) idxToReplace = (idxToReplace+1)%max;] *)
Definition placement_body (e max : Z) (idxToReplace : Z) : K (Z + Z) :=
  w ← ws_get e idxToReplace;
  if negb (ws_empty w =? 0) then mret (inr idxToReplace) else
  i ← next_index idxToReplace max;
  mret (inl i).
Definition find_empty (e max start : Z) : K Z :=
  mloop (Z.to_nat (max + 1)) (placement_body e max) start.

(** A frame for the page of [fault_va], its contents from the page file, entry [idxToReplace] of
    the working set. *)
Definition bring_page_in (e fault_va idxToReplace : Z) : K unit :=
  x ← get_env e;
  ptr ← allocate_frame;
  map_frame (env_page_directory x) ptr fault_va
    (Z.lor (Z.lor (Z.lor PERM_USER PERM_WRITEABLE) PERM_PRESENT) PERM_USED);;
  r1 ← pf_read_env_page e fault_va;
  (if r1 =? 0 then env_page_ws_set_entry e idxToReplace fault_va
   else if r1 =? E_PAGE_NOT_EXIST_IN_PF then
     if (fault_va <? USTACKTOP) && (USTACKBOTTOM <=? fault_va) then
       pf_add_empty_env_page e fault_va 0;;
       env_page_ws_set_entry e idxToReplace fault_va
     else
       unmap_frame (env_page_directory x) fault_va;;
       panic "NOT STACK"
   else mret tt);;
  i ← next_index idxToReplace (page_WS_max_size x);
  upd_env e (set_page_last_WS_index i).

Definition page_fault_handler (e fault_va : Z) : K unit :=
  x ← get_env e;
  let max := page_WS_max_size x in
  let idxToReplace := page_last_WS_index x in
  size ← env_page_ws_get_size e;
  idxToReplace ← (if max <=? size then
                    i ← choose_victim e max idxToReplace;
                    evict e i;;
                    mret i
                  else mret idxToReplace);
  idxToReplace ← find_empty e max idxToReplace;
  bring_page_in e fault_va idxToReplace.

Definition __page_fault_handler_with_buffering (e fault_va : Z) : K unit := mret tt.

(** The faulting address is in CR2. *)
Definition fault_handler : K unit :=
  fault_va ← rcr2;
  faulted_env ← curenv_ptr;
  x ← get_env faulted_env;
  pde ← load_at (env_page_directory x) (PDX fault_va);
  (if negb (has_perm pde PERM_PRESENT) then
     upd_env faulted_env (λ x, set_tableFaultsCounter (u32 (tableFaultsCounter x + 1)) x);;
     table_fault_handler faulted_env fault_va
   else
     upd_env faulted_env (λ x, set_pageFaultsCounter (u32 (pageFaultsCounter x + 1)) x);;
     buffering ← isBufferingEnabled;
     if (buffering : bool) then __page_fault_handler_with_buffering faulted_env fault_va
     else page_fault_handler faulted_env fault_va);;
  tlbflush.
End FaultHandler.

(** Floyd's two pointers over the modified list; both messages are only printed.  The list being
    cyclic is what this looks for, so the number of steps has no bound known to the caller. *)
Definition detect_modified_loop (fuel : nat) : K unit :=
  first ← gets (λ s, lh_first (modified_frame_list (frames s)));
  mloop fuel (λ '(slowPtr, fastPtr),
    h ← gets (frames_info ∘ frames);
    match slowPtr, fastPtr with
    | Some s, Some f =>
        let fastPtr := LIST_NEXT h f in
        if decide (fastPtr = slowPtr) then mret (inr tt) else
        match fastPtr with
        | None => mret (inr tt)
        | Some f =>
            let fastPtr := LIST_NEXT h f in
            if decide (fastPtr = slowPtr) then mret (inr tt)
            else mret (inl (LIST_NEXT h s, fastPtr))
        end
    | _, _ => mret (inr tt)
    end) (first, first).
