(* ===== verification/FaultSpec.v ===== *)
(** * What page replacement promises

    The victim of LRU, the empty entry that placement finds, and the second chance of CLOCK, for
    the loops of Fault.v; the page fault handler as a whole when the working set has room. *)
From S2P Require Import Prelude Machine Queue State AddressSpace PageFlags FrameAlloc FrameAllocSpec Paging PagingSpec KHeap PageFile PageFileSpec WorkingSet Fault.

Definition env_of (s : KState) (e : Z) : Env := envs (environments s) !!! e.
Definition ws_entry (s : KState) (e i : Z) : WorkingSetElement := pageWS (env_of s e) !!! i.
Definition stamp (s : KState) (e i : Z) : Z := ws_time_stamp (ws_entry s e i).

(** ** The size of the working set *)
Lemma count_loop_ws_eq a n : count_loop_ws a n = count_nonempty a n.
Proof.
  unfold count_loop_ws, count_nonempty.
  assert (∀ xs c, foldl (λ counter i, if ws_empty (a !!! i) =? 0 then counter + 1 else counter) c xs =
    c + Z.of_nat (length (filter (λ i, ws_empty (a !!! i) = 0) xs))) as Hgen; [|by rewrite Hgen].
  induction xs as [|x xs IH]; intros c; cbn [foldl]; [cbn; lia|].
  rewrite IH, filter_cons. destruct (Z.eqb_spec (ws_empty (a !!! x)) 0); case_decide; (done || cbn; lia).
Qed.
Lemma filter_all {A} (P : A → Prop) `{∀ x, Decision (P x)} (xs : list A) : (∀ x, x ∈ xs → P x) → filter P xs = xs.
Proof.
  induction xs as [|x xs IH]; intros HP; [done|]. rewrite filter_cons_True by (apply HP; by left).
  rewrite IH; [done|]. intros y Hy. apply HP. by right.
Qed.
(** A working set that is not full has an empty entry. *)
Lemma count_nonempty_room a n :
  0 ≤ n → count_nonempty a n < n → ∃ i, 0 ≤ i < n ∧ ws_empty (a !!! i) ≠ 0.
Proof.
  intros Hn Hlt. unfold count_nonempty in Hlt.
  destruct (decide (Exists (λ i, ws_empty (a !!! i) ≠ 0) (seqZ 0 n))) as [He|Hne].
  - apply Exists_exists in He as (i & Hi & He). apply elem_of_seqZ in Hi. exists i. split; [lia|done].
  - exfalso. assert (filter (λ i, ws_empty (a !!! i) = 0) (seqZ 0 n) = seqZ 0 n) as Hf.
    { apply filter_all. intros x Hx. destruct (decide (ws_empty (a !!! x) = 0)); [done|].
      exfalso. apply Hne, Exists_exists. by exists x. }
    rewrite Hf, length_seqZ in Hlt. lia.
Qed.

Section Victims.
Context `{Extern} (e max : Z).

(** ** LRU *)
Lemma env_page_ws_get_time_stamp_spec s i :
  0 ≤ i < page_WS_max_size (env_of s e) → env_page_ws_get_time_stamp e i s = Ret (stamp s e i) s.
Proof.
  intros Hi. unfold env_page_ws_get_time_stamp, get_env. rewrite bind_gets. fold (env_of s e).
  rewrite (proj2 (Z.leb_le _ _)), (proj2 (Z.ltb_lt _ _)) by lia. cbn [andb assert_]. by rewrite bind_mret.
Qed.

(** The first of the least stamps below one billion, among the first [k] entries. *)
Definition least_stamp (s : KState) (k minTime i : Z) : Prop :=
  0 ≤ i < k ∧ stamp s e i = minTime ∧ minTime < 1000000000 ∧
  ∀ j, 0 ≤ j < k → minTime ≤ stamp s e j ∧ (j < i → minTime < stamp s e j).
Definition all_recent (s : KState) (k : Z) : Prop := ∀ j, 0 ≤ j < k → 1000000000 ≤ stamp s e j.

Definition lru_state (s : KState) (start : Z) (x : Z * Z * Z) : Prop :=
  let '(k, minTime, i) := x in
  0 ≤ k ≤ max ∧ (least_stamp s k minTime i ∨ minTime = 1000000000 ∧ i = start ∧ all_recent s k).

Lemma lru_step s start k minTime i :
  max = page_WS_max_size (env_of s e) → k < max → lru_state s start (k, minTime, i) →
  ∃ x', lru_body e max (k, minTime, i) s = Ret (inl x') s ∧ lru_state s start x' ∧ x'.1.1 = k + 1.
Proof.
  intros Hmax Hk [Hr Hst]. unfold lru_body. rewrite (proj2 (Z.ltb_lt _ _)) by done. cbn [negb].
  mstep (env_page_ws_get_time_stamp_spec s k ltac:(lia)).
  destruct (stamp s e k <? minTime) eqn:Hlt; zify_bool; eexists; (split; [done|]); (split; [|done]);
    (split; [lia|]).
  - left. unfold least_stamp. destruct Hst as [(Hi & He & Hm & Hj)|(-> & -> & Ha)].
    + split_and!; [lia..|]. intros j Hj'. destruct (decide (j = k)) as [->|]; [lia|].
      destruct (Hj j); lia.
    + split_and!; [lia..|]. intros j Hj'. destruct (decide (j = k)) as [->|]; [lia|].
      specialize (Ha j). lia.
  - destruct Hst as [(Hi & He & Hm & Hj)|(-> & -> & Ha)].
    + left. split_and!; [lia..|]. intros j Hj'. destruct (decide (j = k)) as [->|]; [lia|].
      destruct (Hj j); lia.
    + right. split_and!; [done..|]. intros j Hj'. destruct (decide (j = k)) as [->|]; [lia|].
      apply Ha. lia.
Qed.

Lemma lru_victim_spec s start :
  max = page_WS_max_size (env_of s e) → 0 ≤ max →
  ∃ i, lru_victim e max start s = Ret i s ∧
    ((∃ m, least_stamp s max m i) ∨ i = start ∧ all_recent s max).
Proof.
  intros Hmax H0.
  destruct (mloop_total (λ x s', s' = s ∧ lru_state s start x)
    (λ i s', s' = s ∧ ((∃ m, least_stamp s max m i) ∨ i = start ∧ all_recent s max))
    (λ x _, Z.to_nat (max - x.1.1)) (lru_body e max) (Z.to_nat (max + 1)) (0, 1000000000, start) s)
    as (i & s' & Hs' & -> & Hi); [| |cbn; lia|by exists i].
  - intros [[k minTime] i] s1 [-> Hst]. destruct (decide (k < max)) as [Hk|Hk].
    + left. destruct (lru_step s start k minTime i Hmax Hk Hst) as (x' & Hx & Hst' & Hk').
      exists x', s. split_and!; try done. rewrite Hk'. cbn. lia.
    + right. destruct Hst as [Hr Hst]. assert (k = max) as -> by lia. exists i, s. split_and!; [|done|].
      * unfold lru_body. by rewrite Z.ltb_irrefl.
      * destruct Hst as [?|(_ & ? & ?)]; [left; by exists minTime|by right].
  - split; [done|]. split; [lia|]. right. split_and!; [done..|]. intros j Hj. lia.
Qed.

(** ** Placement *)
(** Entry [k] steps ahead of [start]. *)
Definition ahead (start k : Z) : Z := (start + k) `mod` max.

Lemma next_index_ahead start k s :
  0 ≤ start < max → max < 2 ^ 32 → next_index (ahead start k) max s = Ret (ahead start (k + 1)) s.
Proof.
  intros Hs Hm. unfold next_index, ahead. rewrite (proj2 (Z.eqb_neq _ _)) by lia.
  pose proof (Z.mod_pos_bound (start + k) max ltac:(lia)).
  rewrite u32_small by (unfold is_u32; lia). unfold mret, M_ret. f_equal.
  rewrite Z.add_mod_idemp_l by lia. f_equal. lia.
Qed.

Lemma find_empty_spec s start k :
  0 ≤ start < max → max < 2 ^ 32 → 0 ≤ k < max →
  ws_empty (ws_entry s e (ahead start k)) ≠ 0 →
  (∀ j, 0 ≤ j < k → ws_empty (ws_entry s e (ahead start j)) = 0) →
  find_empty e max start s = Ret (ahead start k) s.
Proof.
  intros Hs Hm Hk He Hj. unfold find_empty.
  replace (Z.to_nat (max + 1)) with (Z.to_nat k + Datatypes.S (Z.to_nat (max - k)))%nat by lia.
  assert (start = ahead start (Z.of_nat 0)) as H0 by (unfold ahead; rewrite Z.mod_small; cbn; lia).
  rewrite H0 at 1. rewrite (mloop_steps (placement_body e max) (λ n, ahead start (Z.of_nat n)) s (Z.to_nat k)).
  - apply mloop_break. unfold placement_body, ws_get, get_env. rewrite bind_assoc, bind_gets, bind_mret.
    fold (env_of s e). rewrite Z2Nat.id by lia. fold (ws_entry s e (ahead start k)).
    by rewrite (proj2 (Z.eqb_neq _ _)) by done.
  - intros n Hn. unfold placement_body, ws_get, get_env. rewrite bind_assoc, bind_gets, bind_mret.
    fold (env_of s e). fold (ws_entry s e (ahead start (Z.of_nat n))). rewrite Hj by lia. cbn [Z.eqb negb].
    mstep (next_index_ahead start (Z.of_nat n) s Hs Hm). by replace (Z.of_nat n + 1) with (Z.of_nat (Datatypes.S n)) by lia.
Qed.

(** Some number of steps ahead reaches every entry. *)
Lemma ahead_reaches start i : 0 ≤ start < max → 0 ≤ i < max → ∃ k, 0 ≤ k < max ∧ ahead start k = i.
Proof.
  intros Hs Hi. destruct (decide (start ≤ i)).
  - exists (i - start). split; [lia|]. unfold ahead. rewrite Z.mod_small; lia.
  - exists (i - start + max). split; [lia|]. unfold ahead.
    replace (start + (i - start + max)) with (i + 1 * max) by lia. rewrite Z_mod_plus_full. apply Z.mod_small. lia.
Qed.
(** The least number with a decidable property, below a number that has it. *)
Lemma least_below (P : Z → Prop) `{∀ k, Decision (P k)} n :
  0 ≤ n → P n → ∃ k, 0 ≤ k ≤ n ∧ P k ∧ ∀ j, 0 ≤ j < k → ¬ P j.
Proof.
  intros Hn. pattern n. apply Zlt_0_ind; [|done]. clear n Hn. intros n IH Hn HP.
  destruct (decide (Exists P (seqZ 0 n))) as [He|Hne].
  - apply Exists_exists in He as (m & Hm%elem_of_seqZ & HPm). destruct (IH m) as (k & ? & ? & ?); [lia|done|].
    exists k. split_and!; [lia|lia|done|done].
  - exists n. split_and!; [lia|lia|done|]. intros j Hj HPj. apply Hne, Exists_exists. exists j.
    split; [|done]. apply elem_of_seqZ. lia.
Qed.

Lemma find_empty_total s start :
  0 ≤ start < max → max < 2 ^ 32 → count_nonempty (pageWS (env_of s e)) max < max →
  ∃ k, 0 ≤ k < max ∧ find_empty e max start s = Ret (ahead start k) s ∧
    ws_empty (ws_entry s e (ahead start k)) ≠ 0 ∧
    (∀ j, 0 ≤ j < k → ws_empty (ws_entry s e (ahead start j)) = 0).
Proof.
  intros Hs Hm Hroom. destruct (count_nonempty_room _ max ltac:(lia) Hroom) as (i & Hi & He).
  destruct (ahead_reaches start i Hs Hi) as (n & Hn & <-).
  destruct (least_below (λ k, ws_empty (ws_entry s e (ahead start k)) ≠ 0) n ltac:(lia) He)
    as (k & Hk & Hek & Hj).
  assert (∀ j, 0 ≤ j < k → ws_empty (ws_entry s e (ahead start j)) = 0) as Hj'
    by (intros j Hjk; destruct (decide (ws_empty (ws_entry s e (ahead start j)) = 0)); [done|by destruct (Hj j Hjk)]).
  exists k. split_and!; [lia..| |done|done]. apply find_empty_spec; (done || lia).
Qed.
End Victims.

(** ** CLOCK *)
Section Clock.
Context `{Extern} (e max df : Z) (tb tf : Z → Z).

(** The page of entry [i], and the word of its page-table entry. *)
Definition ws_page (s : KState) (i : Z) : Z := ROUNDDOWN (ws_virtual_address (ws_entry s e i)) PAGE_SIZE.
Definition entry_at (s : KState) (i : Z) : Z := word (tf i) (PTX (ws_page s i)).
Definition used (s : KState) (i : Z) : Prop := Z.land (get_word s (entry_at s i)) PERM_USED ≠ 0.

Record clock_setting (s : KState) : Prop := {
  cs_max : max = page_WS_max_size (env_of s e);
  cs_table i : 0 ≤ i < max → has_table s (env_page_directory (env_of s e)) (ws_page s i) (tb i) df (tf i);
  cs_walk_dir j : 0 ≤ j < max → entry_at s j ∉ walk_of s (env_page_directory (env_of s e));
  cs_walk i j : 0 ≤ i < max → 0 ≤ j < max → entry_at s j ∉ walk_of s (tb i);
  cs_dir i j : 0 ≤ i < max → 0 ≤ j < max → entry_at s j ≠ word df (PDX (ws_page s i));
  cs_inj i j : 0 ≤ i < max → 0 ≤ j < max → entry_at s i = entry_at s j → i = j;
}.
Lemma clock_setting_put s j v :
  clock_setting s → 0 ≤ j < max → clock_setting (put_word (entry_at s j) v s).
Proof.
  intros [C1 C2 C3 C4 C5 C6] Hj. split; try done.
  - intros i Hi. apply has_table_put; [by apply C2|by apply C3|by apply C4|by apply C5].
  - intros i Hi. change (entry_at (put_word _ v s) i) with (entry_at s i).
    change (env_of (put_word _ v s) e) with (env_of s e). rewrite walk_put by (by apply C3). by apply C3.
  - intros i i' Hi Hi'. change (entry_at (put_word _ v s) i') with (entry_at s i').
    rewrite walk_put by (by apply C4). by apply C4.
Qed.

Lemma clock_body_spec s i :
  clock_setting s → 0 ≤ i < max → max < 2 ^ 32 →
  let w := get_word s (entry_at s i) in
  clock_body e max i s =
    if Z.land w PERM_USED =? 0 then Ret (inr i) s
    else Ret (inl (u32 (i + 1) `mod` max)) (put_word (entry_at s i) (u32 (Z.land w (not32 PERM_USED))) s).
Proof.
  intros Hc Hi Hm w. pose proof (cs_table s Hc i Hi) as Ht. unfold clock_body, env_page_ws_get_virtual_address, get_env.
  rewrite bind_assoc, bind_gets. fold (env_of s e). rewrite <-(cs_max s Hc).
  rewrite (proj2 (Z.leb_le _ _)), (proj2 (Z.ltb_lt _ _)) by lia. cbn [andb assert_]. rewrite bind_assoc, bind_mret.
  unfold ws_get, get_env. rewrite bind_assoc, bind_assoc, bind_gets, bind_mret, bind_mret.
  fold (env_of s e). fold (ws_entry s e i). fold (ws_page s i). rewrite bind_gets.
  mstep (get_page_table_present s _ _ _ _ _ Ht). mstep (load_entry s _ _ _ _ _ Ht).
  change (pte s (ws_page s i) (tf i)) with w. destruct (Z.land w PERM_USED =? 0); [done|].
  unfold update_entry. rewrite bind_assoc. mstep (load_entry s _ _ _ _ _ Ht).
  mstep (store_entry s _ _ _ _ _ Ht (Z.land (pte s (ws_page s i) (tf i)) (not32 PERM_USED))).
  unfold next_index. by rewrite (proj2 (Z.eqb_neq _ _)) by lia.
Qed.

(** [n] entries from [start] on have had their used bits cleared. *)
Record chances (s : KState) (start n : Z) (s' : KState) : Prop := {
  ch_setting : clock_setting s';
  ch_same : ∃ m, s' = on_hw (set_mem m) s;
  ch_used j : 0 ≤ j < n → used s (ahead max start j);
  ch_cleared j : 0 ≤ j < n →
    get_word s' (entry_at s (ahead max start j)) =
      u32 (Z.land (get_word s (entry_at s (ahead max start j))) (not32 PERM_USED));
  ch_other w : (∀ j, 0 ≤ j < n → w ≠ entry_at s (ahead max start j)) → get_word s' w = get_word s w;
}.

Lemma ahead_range start n : 0 < max → 0 ≤ ahead max start n < max.
Proof. intros. unfold ahead. apply Z.mod_pos_bound. lia. Qed.
Lemma ahead_inj start n n' :
  0 ≤ start < max → 0 ≤ n < max → 0 ≤ n' < max → ahead max start n = ahead max start n' → n = n'.
Proof.
  unfold ahead. intros Hs Hn Hn' He.
  assert (∀ k, 0 ≤ k < max → (start + k) `mod` max = if start + k <? max then start + k else start + k - max) as Hk.
  { intros k Hk. destruct (Z.ltb_spec (start + k) max); [apply Z.mod_small; lia|].
    symmetry. apply (Z.mod_unique _ _ 1); lia. }
  rewrite !Hk in He by done. destruct (Z.ltb_spec (start + n) max), (Z.ltb_spec (start + n') max); lia.
Qed.
Lemma ahead_wraps start : 0 ≤ start < max → ahead max start max = start.
Proof.
  intros. unfold ahead. replace (start + max) with (start + 1 * max) by lia. rewrite Z_mod_plus_full.
  apply Z.mod_small. lia.
Qed.

Lemma chances_step s start n s1 :
  0 ≤ start < max → 0 ≤ n < max → chances s start n s1 → used s (ahead max start n) →
  let w := get_word s1 (entry_at s1 (ahead max start n)) in
  w = get_word s (entry_at s (ahead max start n)) ∧
  chances s start (n + 1) (put_word (entry_at s1 (ahead max start n)) (u32 (Z.land w (not32 PERM_USED))) s1).
Proof.
  intros Hs Hn [H1 [m ->] H3 H4 H5] Hu.
  change (entry_at (on_hw (set_mem m) s)) with (entry_at s) in *.
  assert (∀ k, 0 ≤ k < n → entry_at s (ahead max start k) ≠ entry_at s (ahead max start n)) as Hne.
  { intros k Hk He. apply (cs_inj _ H1) in He; [|apply ahead_range; lia..].
    apply ahead_inj in He; lia. }
  assert (get_word (on_hw (set_mem m) s) (entry_at s (ahead max start n)) = get_word s (entry_at s (ahead max start n))) as Hw.
  { apply H5. intros j Hj He. by apply (Hne j). }
  split; [done|]. split.
  - refine (clock_setting_put (on_hw (set_mem m) s) _ _ H1 _). apply ahead_range. lia.
  - by eexists.
  - intros j Hj. destruct (decide (j = n)) as [->|]; [done|]. apply H3. lia.
  - intros j Hj. destruct (decide (j = n)) as [->|].
    + change (entry_at (on_hw (set_mem m) s)) with (entry_at s). rewrite get_put_eq. by rewrite Hw.
    + change (entry_at (on_hw (set_mem m) s)) with (entry_at s).
      rewrite get_put_ne by (intros He; apply (Hne j); [lia|done]). apply H4. lia.
  - intros w Hj. change (entry_at (on_hw (set_mem m) s)) with (entry_at s).
    rewrite get_put_ne by (intros <-; apply (Hj n); [lia|done]). apply H5. intros j Hj'. apply Hj. lia.
Qed.

(** The entry [n] steps ahead has not been changed yet. *)
Lemma chances_word s start n s1 :
  0 ≤ start < max → 0 ≤ n < max → chances s start n s1 →
  entry_at s1 (ahead max start n) = entry_at s (ahead max start n) ∧
  get_word s1 (entry_at s (ahead max start n)) = get_word s (entry_at s (ahead max start n)).
Proof.
  intros Hs Hn [H1 [m ->] H3 H4 H5]. split; [done|]. apply H5. intros j Hj He.
  apply (cs_inj _ H1) in He; [|apply ahead_range; lia..]. apply ahead_inj in He; lia.
Qed.
Lemma cleared_not_used w : Z.land (u32 (Z.land w (not32 PERM_USED))) PERM_USED = 0.
Proof.
  apply Z.bits_inj'. intros b Hb. rewrite Z.land_spec, Z.bits_0. destruct (decide (b < 32)).
  - rewrite u32_testbit, Z.land_spec, not32_testbit by lia.
    destruct (Z.testbit PERM_USED b); by rewrite ?andb_false_r.
  - unfold u32. by rewrite Z.mod_pow2_bits_high by lia.
Qed.
(** After a whole round every page has had its chance: the first one is not used any more. *)
Lemma clock_round s start s1 :
  0 ≤ start < max → max < 2 ^ 32 → chances s start max s1 →
  clock_body e max (ahead max start max) s1 = Ret (inr (ahead max start max)) s1.
Proof.
  intros Hs Hm Hch. rewrite ahead_wraps by done. rewrite clock_body_spec by (apply Hch || done).
  assert (Z.land (get_word s1 (entry_at s1 start)) PERM_USED = 0) as ->; [|done].
  pose proof (ch_cleared _ _ _ _ Hch 0 ltac:(lia)) as Hz.
  assert (ahead max start 0 = start) as H0 by (unfold ahead; rewrite Z.add_0_r; by apply Z.mod_small).
  rewrite H0 in Hz. destruct Hch as [_ [m ->] _ _ _].
  change (entry_at (on_hw (set_mem m) s)) with (entry_at s). rewrite Hz. apply cleared_not_used.
Qed.
(** One step of the hand, from a state with [n] chances given. *)
Lemma clock_step s start n s1 :
  0 ≤ start < max → max < 2 ^ 32 → 0 ≤ n < max → chances s start n s1 →
  (used s (ahead max start n) ∧ ∃ s2,
     clock_body e max (ahead max start n) s1 = Ret (inl (ahead max start (n + 1))) s2 ∧
     chances s start (n + 1) s2) ∨
  (¬ used s (ahead max start n) ∧
     clock_body e max (ahead max start n) s1 = Ret (inr (ahead max start n)) s1).
Proof.
  intros Hs Hm Hn Hch. destruct (chances_word s start n s1 Hs Hn Hch) as [He Hw].
  rewrite clock_body_spec by (apply Hch || done || apply ahead_range; lia). rewrite He, Hw.
  destruct (decide (used s (ahead max start n))) as [Hu|Hu]; [left|right]; (split; [done|]).
  - destruct (chances_step s start n s1 Hs Hn Hch Hu) as [_ Hch']. rewrite He, Hw in Hch'.
    eexists. split; [|exact Hch']. rewrite (proj2 (Z.eqb_neq _ _)) by done. do 2 f_equal.
    pose proof (next_index_ahead max start n s1 Hs Hm) as Hnx. unfold next_index in Hnx.
    rewrite (proj2 (Z.eqb_neq _ _)) in Hnx by lia. by injection Hnx.
  - unfold used in Hu.
    destruct (Z.eqb_spec (Z.land (get_word s (entry_at s (ahead max start n))) PERM_USED) 0); done.
Qed.

Lemma clock_victim_spec s start :
  clock_setting s → 0 ≤ start < max → max < 2 ^ 32 →
  ∃ k s', 0 ≤ k ≤ max ∧ clock_victim e max start s = Ret (ahead max start k) s' ∧
    chances s start k s' ∧ (k < max → ¬ used s (ahead max start k)).
Proof.
  intros Hc Hs Hm.
  assert (∀ r n s1, Z.of_nat r = max - n → 0 ≤ n ≤ max → chances s start n s1 →
    ∃ k s', 0 ≤ k ≤ max ∧ mloop (Datatypes.S r) (clock_body e max) (ahead max start n) s1 = Ret (ahead max start k) s' ∧
      chances s start k s' ∧ (k < max → ¬ used s (ahead max start k))) as Hgen.
  { induction r as [|r IH]; intros n s1 Hr Hn Hch.
    - assert (n = max) as -> by lia. exists max, s1. split_and!; [lia..| |done|lia].
      apply mloop_break. by eapply clock_round.
    - destruct (clock_step s start n s1 Hs Hm ltac:(lia) Hch) as [(Hu & s2 & Hb & Hch')|[Hu Hb]].
      + destruct (IH (n + 1) s2 ltac:(lia) ltac:(lia) Hch') as (k & s' & Hk & Hs' & ?).
        exists k, s'. split; [lia|]. split; [|done]. rewrite <-Hs'. by apply mloop_next.
      + exists n, s1. split_and!; [lia..| |done|done]. by apply mloop_break. }
  destruct (Hgen (Z.to_nat max) 0 s) as (k & s' & Hk & Hs' & ?); [lia|lia| |].
  { split; try done; try (intros; lia). exists (mem (hw s)). by destruct s as [[]]. }
  exists k, s'. split; [lia|]. split; [|done]. rewrite <-Hs'. unfold clock_victim.
  replace (Z.to_nat (max + 1)) with (Datatypes.S (Z.to_nat max)) by lia.
  unfold ahead. by rewrite Z.add_0_r, Z.mod_small by done.
Qed.
End Clock.

(** ** The page fault handler, with room in the working set *)

Lemma frames_only_touches s s' : frames_only s s' → touches [] s s'.
Proof. intros (h & l & ->). done. Qed.
Lemma entry_update_touches s s' va tf v : entry_update s s' va tf v → touches [tf] s s'.
Proof.
  intros (s1 & Ho & ->). etrans; [eapply touches_mono; [|by apply frames_only_touches]; set_solver|].
  apply touches_put; [by left|apply PTX_range].
Qed.
Lemma reached_apart_sub fs gs s a : fs ⊆ gs → reached_apart gs s a → reached_apart fs s a.
Proof. intros Hsub Hg f Hf. by apply Hg, Hsub. Qed.

(** The kernel finds the same table for two addresses of one user page. *)
Lemma has_table_same_page s dir va va' t df tf :
  PPN va = PPN va' → CHECK_IF_KERNEL_ADDRESS va = CHECK_IF_KERNEL_ADDRESS va' →
  has_table s dir va t df tf → has_table s dir va' t df tf.
Proof.
  intros Hp Hc [H1 H2 H3 H4 H5]. rewrite !PDX_PTX_PPN in Hp. unfold NPTENTRIES in Hp.
  pose proof (PTX_range va). pose proof (PTX_range va').
  assert (PDX va' = PDX va) as Hd by lia. split; rewrite ?Hd; try done.
  unfold table_address in *. by rewrite <-Hc.
Qed.
Lemma same_page_indices va va' : PPN va = PPN va' → PDX va = PDX va' ∧ PTX va = PTX va'.
Proof.
  intros Hp. rewrite !PDX_PTX_PPN in Hp. unfold NPTENTRIES in Hp.
  pose proof (PTX_range va). pose proof (PTX_range va'). lia.
Qed.

(** The page of a user address. *)
Definition page_of (va : Z) : Z := ROUNDDOWN va PAGE_SIZE.
Lemma page_of_user va :
  0 ≤ va < USER_TOP →
  let p := page_of va in
  PPN p = PPN va ∧ 0 ≤ p < USER_TOP ∧ p `mod` PAGE_SIZE = 0 ∧ PGOFF p = 0 ∧
  CHECK_IF_KERNEL_ADDRESS va = false ∧ CHECK_IF_KERNEL_ADDRESS p = false ∧ page_of p = p.
Proof.
  change USER_TOP with 0xEEC00000. intros Hva p. unfold p, page_of, ROUNDDOWN.
  rewrite !(u32_small va) by (unfold is_u32; lia).
  assert (0 ≤ va - va `mod` PAGE_SIZE < 0xEEC00000 ∧ (va - va `mod` PAGE_SIZE) `mod` PAGE_SIZE = 0 ∧
          (va - va `mod` PAGE_SIZE) / PAGE_SIZE = va / PAGE_SIZE) as (Hr & Hm & Hq)
    by (unfold PAGE_SIZE; zdiv).
  rewrite !(u32_small (va - va `mod` PAGE_SIZE)) by (unfold is_u32; lia). split_and!; try done; try lia.
  - rewrite !PPN_eq, !u32_small by (unfold is_u32; lia). done.
  - unfold PGOFF. rewrite u32_small, land_0xFFF by (unfold is_u32; lia). done.
  - unfold CHECK_IF_KERNEL_ADDRESS. rewrite u32_small by (unfold is_u32; lia).
    apply andb_false_iff. left. apply Z.leb_gt. change USER_TOP with 0xEEC00000. lia.
  - unfold CHECK_IF_KERNEL_ADDRESS. rewrite u32_small by (unfold is_u32; lia).
    apply andb_false_iff. left. apply Z.leb_gt. change USER_TOP with 0xEEC00000. lia.
  - rewrite Hm, Z.sub_0_r. apply u32_small. unfold is_u32. lia.
Qed.

(** Flags that are not cleared stay. *)
Lemma has_perm_spec v p : has_perm v p = true ↔ ∀ n, 0 ≤ n → Z.testbit p n = true → Z.testbit v n = true.
Proof.
  unfold has_perm. rewrite Z.eqb_eq. split.
  - intros Heq n Hn Hp. rewrite <-Heq, Z.land_spec in Hp. by apply andb_true_iff in Hp as [? _].
  - intros Hb. apply Z.bits_inj'. intros n Hn. rewrite Z.land_spec.
    destruct (Z.testbit p n) eqn:Hp; [by rewrite (Hb n Hn Hp)|by rewrite andb_false_r].
Qed.
Lemma permissions_updated_keeps v clear p :
  0 ≤ p < PAGE_SIZE → Z.land p clear = 0 → has_perm v p = true →
  has_perm (permissions_updated v 0 clear) p = true.
Proof.
  intros Hp Hd Hv. rewrite has_perm_spec in *. intros n Hn Hpn.
  assert (n < 12) by (destruct (decide (n < 12)); [done|]; rewrite testbit_small in Hpn; [done|done|lia]).
  rewrite permissions_updated_testbit, Z.bits_0, orb_false_r by lia. rewrite Hv by done. cbn.
  assert (Z.testbit (Z.land p clear) n = false) as Hc by (by rewrite Hd, Z.bits_0).
  rewrite Z.land_spec, Hpn in Hc. cbn in Hc. by rewrite Hc.
Qed.

(** A fault at [va] of the running environment [e]: its page table is in memory without the page,
    its page-file table names the disk frame of the page, the frame [f] will be used. *)
Record fault_setting (s : KState) (e va f t df tf tm dm tmf : Z) : Prop := {
  fa_cur : curenv (environments s) = Some e;
  fa_cr3 : frame_of (cr3 (hw s)) = dm;
  fa_pde : entry_allows (get_word s (word dm (PDX va))) true = true ∧
           frame_of (get_word s (word dm (PDX va))) = tmf;
  fa_mem : has_table s (env_page_directory (env_of s e)) va tm dm tmf;
  fa_disk : has_disk_table s e (page_of va) t df tf;
  fa_absent : has_perm (pte s va tmf) PERM_PRESENT = false;
  fa_user : 0 ≤ va < USER_TOP;
  fa_reach a : a ∈ [t; tm; disk_env_pgdir (env_of s e); env_page_directory (env_of s e)] →
               reached_apart [f; tmf] s a;
  fa_frames : (f ≠ df ∧ f ≠ tf ∧ f ≠ dm ∧ f ≠ tmf) ∧ tmf ≠ df ∧ tmf ≠ tf ∧ tmf ≠ dm;
}.

Definition FAULT_PERM : Z := Z.lor (Z.lor (Z.lor PERM_USER PERM_WRITEABLE) PERM_PRESENT) PERM_USED.

(** Frames known to be different. *)
Ltac apart := rewrite ?not_elem_of_cons; repeat split; first [done | apply not_elem_of_nil | congruence].

Section Fault.
Context `{Extern} (e va f t df tf tm dm tmf : Z).

(** Allocating and mapping the frame. *)
Lemma fault_map s xs m :
  fault_setting s e va f t df tf tm dm tmf → allocator s (f :: xs, m) → counts_ok (f :: xs, m) →
  0 ≤ f < 2 ^ 20 →
  ∃ s', (ptr ← allocate_frame; map_frame (env_page_directory (env_of s e)) ptr va FAULT_PERM) s = Ret 0 s' ∧
    allocator s' (xs, <[f := 1]> m) ∧ touches [tmf] s s' ∧ disk (hw s') = disk (hw s) ∧
    pte s' va tmf = entry_for f FAULT_PERM ∧
    ∀ w, w ≠ word tmf (PTX va) → get_word s' w = get_word s w.
Proof.
  intros [F1 F2 [F3 F3'] F4 F5 F6 F7 F8 ((F9 & F10 & F11 & F12) & F13 & F14 & F15)] Ha Hc Hf.
  destruct (allocate_frame_refines s f xs m Ha) as (s1 & Hs1 & Ha1 & Ho & _).
  pose proof (has_table_frames_only _ _ _ _ _ _ _ Ho F4) as Ht1.
  assert (∀ a, reached_apart [f; tmf] s a → word tmf (PTX va) ∉ walk_of s a) as Hw.
  { intros a Hr. apply walk_frames_word; [apply Hr; in_list|apply PTX_range]. }
  assert (entry_apart s1 (env_page_directory (env_of s e)) va tm dm tmf) as Hap.
  { destruct Ho as (h & l & ->). split_and!; [apply Hw, F8; in_list..|].
    intros [? _]%word_inj; [apart|apply PTX_range|apply PDX_range]. }
  assert (m !!! f = 0) as Hm0 by (destruct Ha as (_ & Hfree & _); by apply (Hfree f); left).
  assert (f ∉ xs) as Hfx by (destruct Ha as ((_ & _ & _ & [? _]%NoDup_cons & _) & _); done).
  assert (pte s1 va tmf = pte s va tmf) as Hp by (by destruct Ho as (h & l & ->)).
  destruct (map_frame_spec _ va tm dm tmf s1 f FAULT_PERM (xs, m) [None] (xs, <[f := 1]> m) Ht1 Hap)
    as (s2 & Hs2 & Ha2 & Hu2); try done.
  { by rewrite Hp, F6. }
  { unfold map_ops. rewrite Hp, F6. cbn. by rewrite decide_False, Hm0 by done. }
  exists s2. split_and!; [by mstep Hs1|done| | | |].
  - etrans; [eapply touches_mono; [|by apply frames_only_touches]; set_solver|]. by eapply entry_update_touches.
  - destruct Ho as (h & l & ->). by destruct Hu2 as (s3 & (h' & l' & ->) & ->).
  - rewrite (entry_update_pte _ _ _ _ _ Hu2). unfold mapped_entry. by rewrite Hp, F6.
  - intros w Hne. rewrite (entry_update_other _ _ _ _ _ _ Hu2 Hne). by destruct Ho as (h & l & ->).
Qed.

Lemma fault_entry_allows : 0 ≤ f < 2 ^ 20 → entry_allows (entry_for f FAULT_PERM) true = true.
Proof. intros. unfold entry_allows. rewrite !has_perm_entry_for by done. by vm_compute. Qed.

(** The new page is accessible at its address. *)
Lemma fault_page_accessible s s' :
  fault_setting s e va f t df tf tm dm tmf → touches [f; tmf] s s' → 0 ≤ f →
  entry_allows (pte s' va tmf) true = true → frame_of (pte s' va tmf) = f →
  kpage s' (page_of va) f ∧ reached_apart [f] s' (page_of va).
Proof.
  intros [F1 F2 [F3 F3'] F4 F5 F6 F7 F8 ((F9 & F10 & F11 & F12) & F13 & F14 & F15)] Ht Hf Hal Hfr.
  destruct (page_of_user va F7) as (HP & Hr & Hm & HO & _).
  destruct (same_page_indices _ _ HP) as [Hd Hx].
  assert (dm ∉ [f; tmf]) as Hdm by apart.
  pose proof Ht as (Hcr & _). pose proof (touches_word _ _ _ Ht dm (PDX va) Hdm (PDX_range va)) as Hpde.
  assert (pde_word (cr3 (hw s')) (page_of va) = word dm (PDX va)) as H1 by (unfold pde_word; by rewrite Hcr, F2, Hd).
  assert (pte_word (mem (hw s')) (cr3 (hw s')) (page_of va) = word tmf (PTX va)) as H2.
  { unfold pte_word, pde_of. rewrite H1, Hx. fold (get_word s' (word dm (PDX va))). by rewrite Hpde, F3'. }
  split.
  - unfold kpage. change USER_TOP with 0xEEC00000 in Hr. split_and!; [unfold is_u32; lia..|done|lia|].
    rewrite mmu_walk, H2. unfold pde_of. rewrite H1.
    fold (get_word s' (word dm (PDX va))) (get_word s' (word tmf (PTX va))) (pte s' va tmf).
    by rewrite Hpde, F3, Hal, Hfr, HO, Z.add_0_r.
  - intros g Hg. apply list_elem_of_singleton in Hg as ->. unfold walk_frames, walk_of, walk.
    rewrite H1, H2. cbn. unfold word. pose proof (PTX_range va). pose proof (PDX_range va).
    rewrite !Z_div_mul_small by lia. apart.
Qed.

(** The tables are still there once the page has been mapped. *)
Lemma fault_tables s s2 :
  fault_setting s e va f t df tf tm dm tmf → touches [tmf] s s2 →
  has_disk_table s2 e (page_of va) t df tf ∧ env_has_table e (page_of va) tm dm tmf s2 ∧
  reached_apart [f] s2 tm ∧ reached_apart [f] s2 (env_page_directory (envs (environments s2) !!! e)).
Proof.
  intros [F1 F2 [F3 F3'] F4 F5 F6 F7 F8 ((F9 & F10 & F11 & F12) & F13 & F14 & F15)] Ht.
  destruct (page_of_user va F7) as (HP & _ & _ & _ & HK & HK' & _).
  assert (∀ a, a ∈ [t; tm; disk_env_pgdir (env_of s e); env_page_directory (env_of s e)] →
    reached_apart [tmf] s a ∧ reached_apart [f] s2 a) as Ha.
  { intros a Ha. assert (reached_apart [tmf] s a) as Hr
      by (eapply reached_apart_sub; [|by apply F8]; intros ?; by right).
    split; [done|]. apply (touches_reached [tmf] s s2 Ht); [done|].
    eapply reached_apart_sub; [|by apply F8]. intros x ->%list_elem_of_singleton. in_list. }
  pose proof Ht as (_ & _ & _ & _ & He & _).
  assert (env_has_table e (page_of va) tm dm tmf s) as Hmt.
  { split; [by eapply (has_table_same_page _ _ va); [|rewrite HK, HK'|]|].
    split_and!; try (apply walk_frames_word; [apply F8; in_list|apply PTX_range]).
    intros [? _]%word_inj; [apart|apply PTX_range|apply PDX_range]. }
  split_and!.
  - eapply touches_has_disk_table; [done|apply Ha; in_list|apply Ha; in_list|apart|done].
  - eapply touches_env_has_table; [done|apply Ha; in_list|apply Ha; in_list|apart|done].
  - apply Ha. in_list.
  - rewrite He. apply Ha. in_list.
Qed.

(** Reading the page into it. *)
Lemma fault_read s s2 dfn :
  fault_setting s e va f t df tf tm dm tmf → touches [tmf] s s2 → 0 ≤ f < 2 ^ 20 →
  disk (hw s2) = disk (hw s) → pte s2 va tmf = entry_for f FAULT_PERM →
  pte s (page_of va) tf = dfn → disk_page dfn → serviceable s dfn →
  ∃ s3, pf_read_env_page e va s2 = Ret 0 s3 ∧ touches [f; tmf] s s3 ∧ frames s3 = frames s2 ∧
    kpage s3 (page_of va) f ∧
    (∀ i, 0 ≤ i < 1024 → get_word s3 (word f i) = u32 (disk_word s (dword dfn i))) ∧
    ∀ g i, g ≠ f → 0 ≤ i < 1024 → word g i ≠ word tmf (PTX va) → get_word s3 (word g i) = get_word s2 (word g i).
Proof.
  intros Hs Ht Hf Hdisk Hpte Hdfn Hd Hsv.
  assert (touches [f; tmf] s s2) as Ht' by (eapply touches_mono; [|exact Ht]; intros ?; by right).
  destruct (fault_page_accessible s s2 Hs Ht') as [Hpg Hre];
    [lia|rewrite Hpte; apply fault_entry_allows; lia|rewrite Hpte; by apply frame_of_entry_for|].
  destruct (fault_tables s s2 Hs Ht) as (Hdt & Hmt & Hr1 & Hr2).
  pose proof Hs as [F1 _ _ _ _ _ F7 _ ((F9 & F10 & F11 & F12) & F13 & F14 & F15)].
  destruct (page_of_user va F7) as (HP & _ & _ & _ & _ & _ & Hidem).
  destruct (same_page_indices _ _ HP) as [_ Htx]. pose proof Ht as (_ & Hbad & _ & _ & He & _).
  destruct (pf_read_env_page_spec e (page_of va) f t df tf tm dm tmf s2 dfn) as
    (s3 & Hs3 & Ht3 & Hfr & Hw3 & Hp3 & Hrest); try done.
  - by rewrite He.
  - intros a Ha. rewrite !elem_of_cons, elem_of_nil in Ha. destruct Ha as [->|[->|[->|[]]]]; done.
  - rewrite <-Hdfn. unfold pte. eapply touches_word; [done|apart|apply PTX_range].
  - intros k Hk. rewrite Hbad. by apply Hsv.
  - exists s3. split_and!.
    + unfold pf_read_env_page in *. cbv zeta in *. fold (page_of va).
      fold (page_of (page_of va)) in Hs3. by rewrite Hidem in Hs3.
    + by etrans.
    + done.
    + assert (pte s3 va tmf = permissions_updated (entry_for f FAULT_PERM) 0 PERM_MODIFIED) as Hp3'
        by (unfold pte in *; rewrite <-Htx, Hp3, Htx; by rewrite Hpte).
      apply (fault_page_accessible s s3 Hs); [by etrans|lia|..]; rewrite Hp3'.
      * pose proof (fault_entry_allows Hf) as Hal. unfold entry_allows in *. cbn [negb orb] in *.
        apply andb_true_iff in Hal as [? ?]. apply andb_true_iff.
        split; by apply permissions_updated_keeps.
      * rewrite permissions_updated_frame by done. by apply frame_of_entry_for.
    + intros i Hi. rewrite Hw3 by done. unfold disk_word. by rewrite Hdisk.
    + intros g i Hg Hi Hne. apply Hrest; [done..|]. by rewrite Htx.
Qed.
End Fault.

(** Entering a page in the working set. *)
Lemma env_page_ws_set_entry_spec (e i va : Z) s :
  0 ≤ i < page_WS_max_size (env_of s e) → 0 ≤ va < USER_TOP →
  env_page_ws_set_entry e i va s =
    Ret tt (on_environments (λ r, set_envs (<[e := set_pageWS
      (<[i := MkWSE (page_of va) 0 0x80000000]> (pageWS (env_of s e))) (env_of s e)]> (envs r)) r) s).
Proof.
  intros Hi Hva. unfold env_page_ws_set_entry, get_env. rewrite bind_gets. fold (env_of s e).
  rewrite (proj2 (Z.leb_le 0 i)), (proj2 (Z.ltb_lt i _)) by lia. cbn [andb assert_]. rewrite bind_mret.
  rewrite (proj2 (Z.leb_le 0 va)), (proj2 (Z.ltb_lt va _)) by lia. cbn [andb assert_]. by rewrite bind_mret.
Qed.

(** The handler's result: the page entered at [i], the hand after it. *)
Definition ws_after (x : Env) (i va : Z) : Env :=
  set_page_last_WS_index ((i + 1) `mod` page_WS_max_size x)
    (set_pageWS (<[i := MkWSE (page_of va) 0 0x80000000]> (pageWS x)) x).

Section Handler.
Context `{Extern}.

Lemma fault_finish (e i va : Z) s :
  0 ≤ i < page_WS_max_size (env_of s e) → page_WS_max_size (env_of s e) < 2 ^ 32 → 0 ≤ va < USER_TOP →
  ∃ s', (env_page_ws_set_entry e i va;; i ← next_index i (page_WS_max_size (env_of s e));
         upd_env e (set_page_last_WS_index i)) s = Ret tt s' ∧
    env_of s' e = ws_after (env_of s e) i va ∧ hw s' = hw s ∧ frames s' = frames s.
Proof.
  intros Hi Hmax Hva. eexists. mstep (env_page_ws_set_entry_spec e i va s Hi Hva).
  unfold next_index. rewrite (proj2 (Z.eqb_neq _ _)), u32_small by (unfold is_u32; lia). rewrite bind_mret.
  split; [done|]. split_and!; try done. unfold env_of. cbn. rewrite !array_get_set_eq. done.
Qed.

Lemma bring_page_in_spec s e va f xs m t df tf tm dm tmf dfn i :
  fault_setting s e va f t df tf tm dm tmf →
  allocator s (f :: xs, m) → counts_ok (f :: xs, m) → 0 ≤ f < 2 ^ 20 →
  pte s (page_of va) tf = dfn → disk_page dfn → serviceable s dfn →
  0 ≤ i < page_WS_max_size (env_of s e) → page_WS_max_size (env_of s e) < 2 ^ 32 →
  ∃ s', bring_page_in e va i s = Ret tt s' ∧ env_of s' e = ws_after (env_of s e) i va ∧
    allocator s' (xs, <[f := 1]> m) ∧ kpage s' (page_of va) f ∧
    (∀ j, 0 ≤ j < 1024 → get_word s' (word f j) = u32 (disk_word s (dword dfn j))) ∧
    ∀ g j, g ≠ f → 0 ≤ j < 1024 → word g j ≠ word tmf (PTX va) → get_word s' (word g j) = get_word s (word g j).
Proof.
  intros Hs Ha Hc Hf Hdfn Hd Hsv Hi Hmax. pose proof (fa_user _ _ _ _ _ _ _ _ _ _ Hs) as Hva.
  destruct (fault_map e va f t df tf tm dm tmf s xs m Hs Ha Hc Hf) as (s2 & Hs2 & Ha2 & Ht2 & Hd2 & Hp2 & Hw2).
  destruct (fault_read e va f t df tf tm dm tmf s s2 dfn Hs Ht2 Hf Hd2 Hp2 Hdfn Hd Hsv)
    as (s3 & Hs3 & Ht3 & Hfr3 & Hpg3 & Hw3 & Hr3).
  assert (env_of s3 e = env_of s e) as He3 by (unfold env_of; by destruct Ht3 as (_ & _ & _ & _ & -> & _)).
  destruct (fault_finish e i va s3) as (s4 & Hs4 & He4 & Hh4 & Hf4);
    [by rewrite He3|by rewrite He3|done|]. rewrite He3 in Hs4, He4.
  exists s4. split_and!; try done.
  - unfold bring_page_in, get_env at 1. rewrite bind_gets. fold (env_of s e).
    rewrite <-bind_assoc. mstep Hs2. mstep Hs3. exact Hs4.
  - eapply allocator_frames; [exact Hf4|]. eapply allocator_frames; [exact Hfr3|exact Ha2].
  - unfold kpage. by rewrite Hh4.
  - intros j Hj. unfold get_word. rewrite Hh4. by apply Hw3.
  - intros g j Hg Hj Hne. unfold get_word. rewrite Hh4. fold (get_word s3 (word g j)).
    rewrite Hr3 by done. by apply Hw2.
Qed.
End Handler.

(** ** Properties *)

(** C12: a page fault of a page that is in the page file, with room in the working set: the handler
    takes the first free frame, maps the page of the faulting address to it (writeable, in the
    running address space), fills it with the words of the page's disk frame, enters the page in the
    first empty entry of the working set from the last index on, and moves the index past it. *)
Theorem page_fault_brings_page_in `{Extern} s e va f xs m t df tf tm dm tmf dfn :
  fault_setting s e va f t df tf tm dm tmf →
  allocator s (f :: xs, m) → counts_ok (f :: xs, m) → 0 ≤ f < 2 ^ 20 →
  pte s (page_of va) tf = dfn → disk_page dfn → serviceable s dfn →
  let max := page_WS_max_size (env_of s e) in
  let start := page_last_WS_index (env_of s e) in
  0 ≤ start < max → max < 2 ^ 32 → count_nonempty (pageWS (env_of s e)) max < max →
  ∃ s' k, page_fault_handler e va s = Ret tt s' ∧ 0 ≤ k < max ∧
    ws_empty (ws_entry s e (ahead max start k)) ≠ 0 ∧
    (∀ j, 0 ≤ j < k → ws_empty (ws_entry s e (ahead max start j)) = 0) ∧
    env_of s' e = ws_after (env_of s e) (ahead max start k) va ∧
    allocator s' (xs, <[f := 1]> m) ∧ kpage s' (page_of va) f ∧
    ∀ i, 0 ≤ i < 1024 → get_word s' (word f i) = u32 (disk_word s (dword dfn i)).
Proof.
  intros Hs Ha Hc Hf Hdfn Hd Hsv max start Hst Hmax Hroom.
  destruct (find_empty_total e max s start Hst Hmax Hroom) as (k & Hk & Hfind & Hek & Hj).
  destruct (bring_page_in_spec s e va f xs m t df tf tm dm tmf dfn (ahead max start k))
    as (s' & Hs' & He & Ha' & Hp & Hw & _); [done..|apply ahead_range; lia|done|].
  exists s', k. split_and!; try done; try lia.
  unfold page_fault_handler, get_env at 1. rewrite bind_gets. fold (env_of s e).
  unfold env_page_ws_get_size, get_env at 1. rewrite bind_assoc, bind_gets, bind_mret. fold (env_of s e).
  rewrite count_loop_ws_eq. fold max start. rewrite (proj2 (Z.leb_gt max _) Hroom), bind_mret. mstep Hfind.
  exact Hs'.
Qed.

(** The LRU victim is the first entry with the least time stamp among the stamps below one
    billion; when every stamp is above (a page referenced at the last clock tick has bit 31 set),
    the victim is the last index, whatever the stamps say.  The scan always ends. *)
Theorem lru_picks_least_stamp e s start :
  let max := page_WS_max_size (env_of s e) in
  0 ≤ max →
  ∃ i, lru_victim e max start s = Ret i s ∧
    ((0 ≤ i < max ∧ stamp s e i < 1000000000 ∧
      ∀ j, 0 ≤ j < max → stamp s e i ≤ stamp s e j ∧ (j < i → stamp s e i < stamp s e j)) ∨
     (i = start ∧ ∀ j, 0 ≤ j < max → 1000000000 ≤ stamp s e j)).
Proof.
  intros max Hmax. destruct (lru_victim_spec e max s start eq_refl Hmax) as (i & Hi & Hor).
  exists i. split; [done|]. destruct Hor as [(m & Hr & <- & Hm & Hj)|[-> Ha]]; [left|right]; done.
Qed.

(** C15: the CLOCK hand stops within one round: the victim is the first entry from the last index
    on whose page has not been used, or the last index itself when all have been; exactly the
    pages it passed lose their used bit, and no other word of memory changes. *)
Theorem clock_gives_second_chance `{Extern} e max df tb tf s start :
  clock_setting e max df tb tf s → 0 ≤ start < max → max < 2 ^ 32 →
  ∃ k s', 0 ≤ k ≤ max ∧ clock_victim e max start s = Ret (ahead max start k) s' ∧
    (∀ j, 0 ≤ j < k → used e tf s (ahead max start j)) ∧
    (k < max → ¬ used e tf s (ahead max start k)) ∧
    (∀ j, 0 ≤ j < k → get_word s' (entry_at e tf s (ahead max start j)) =
       u32 (Z.land (get_word s (entry_at e tf s (ahead max start j))) (not32 PERM_USED))) ∧
    (∀ w, (∀ j, 0 ≤ j < k → w ≠ entry_at e tf s (ahead max start j)) → get_word s' w = get_word s w).
Proof.
  intros Hc Hs Hm. destruct (clock_victim_spec e max df tb tf s start Hc Hs Hm) as (k & s' & Hk & Hs' & Hch & Hn).
  exists k, s'. split_and!; [lia|lia|done|apply Hch|done|apply Hch|apply Hch].
Qed.

(** ** Witnesses *)

(** Three pages with stamps 7, 3 and 3: the second one is the victim. *)
Definition stamps_state : KState :=
  on_environments (set_envs {[0 := set_page_WS_max_size 3 (set_pageWS
    (<[0 := MkWSE 0 0 7]> (<[1 := MkWSE 0 0 3]> (<[2 := MkWSE 0 0 3]> ∅))) inhabitant)]}) inhabitant.
Lemma lru_picks_least_stamp_witness :
  lru_victim 0 3 2 stamps_state = Ret 1 stamps_state.
Proof.
  destruct (lru_picks_least_stamp 0 stamps_state 2) as (i & Hi & Hor); [by vm_compute|].
  change (page_WS_max_size (env_of stamps_state 0)) with 3 in *. rewrite Hi. f_equal.
  destruct Hor as [(Hr & _ & Hj)|[_ Ha]].
  - destruct (Hj 1) as [H1 _]; [lia|]. destruct (decide (i = 0)) as [->|]; [by vm_compute in H1|].
    destruct (decide (i = 2)) as [->|]; [|lia]. destruct (Hj 1) as [_ H2]; [lia|].
    specialize (H2 ltac:(lia)). by vm_compute in H2.
  - specialize (Ha 0 ltac:(lia)). by vm_compute in Ha.
Defined.

(** Two pages of PagingSpec.v's example; the first has been used. *)
Definition clock_state : KState :=
  put_word (word 302 1) (9 * PAGE_SIZE + 0x23)
  (on_environments (set_envs {[0 := set_page_WS_max_size 2 (set_env_page_directory DIR (set_pageWS
    (<[0 := MkWSE (HEAP_PAGE 1) 0 0]> (<[1 := MkWSE (HEAP_PAGE 0) 0 0]> ∅)) inhabitant))]}) paged_state).
Lemma clock_state_setting : clock_setting 0 2 300 (λ _, TABLE) (λ _, 302) clock_state.
Proof.
  assert (∀ (P : Z → Prop), P 0 → P 1 → ∀ i, 0 ≤ i < 2 → P i) as Htwo.
  { intros P P0 P1 i Hi. destruct (decide (i = 0)) as [->|]; [done|]. by replace i with 1 by lia. }
  assert (∀ (P : Z → Z → Prop), P 0 0 → P 0 1 → P 1 0 → P 1 1 → ∀ i j, 0 ≤ i < 2 → 0 ≤ j < 2 → P i j) as Htwo2.
  { intros P P00 P01 P10 P11 i j Hi Hj. pattern i. apply Htwo; [|by apply (Htwo (P 1))|done]. by apply (Htwo (P 0)). }
  split.
  - reflexivity.
  - apply Htwo; split; by vm_compute.
  - apply Htwo; apply (bool_decide_unpack _); vm_compute; exact I.
  - apply (Htwo2 (λ _ j, entry_at 0 (λ _, 302) clock_state j ∉ walk_of clock_state TABLE));
      apply (bool_decide_unpack _); vm_compute; exact I.
  - apply (Htwo2 (λ i j, entry_at 0 (λ _, 302) clock_state j ≠ word 300 (PDX (ws_page 0 clock_state i))));
      by vm_compute.
  - apply (Htwo2 (λ i j, entry_at 0 (λ _, 302) clock_state i = entry_at 0 (λ _, 302) clock_state j → i = j));
      by vm_compute.
Qed.
Lemma clock_gives_second_chance_witness :
  ∃ s', clock_victim (H := no_nesting) 0 2 0 clock_state = Ret 1 s' ∧
    get_word s' (word 302 1) = 9 * PAGE_SIZE + 3.
Proof.
  destruct (@clock_gives_second_chance no_nesting 0 2 300 (λ _, TABLE) (λ _, 302) clock_state 0
    clock_state_setting) as (k & s' & Hk & Hs' & Hu & Hn & Hc & _); [lia|lia|].
  destruct (decide (k = 0)) as [->|]; [exfalso; apply (Hn ltac:(lia)); by vm_compute|].
  destruct (decide (k = 2)) as [->|]; [exfalso; apply (Hu 1 ltac:(lia)); by vm_compute|].
  assert (k = 1) as -> by lia. exists s'. split; [exact Hs'|].
  specialize (Hc 0 ltac:(lia)). exact Hc.
Defined.

(** The machine of PageFileSpec.v with a fault at an address of the page at 8 MB, which is in disk
    frame 9. *)
Definition fault_state : KState :=
  on_hw (set_disk {[dword 9 5 := 42]})
  (on_environments (λ r, set_envs (<[0 := set_page_WS_max_size 2 (set_pageWS
      (<[1 := MkWSE 0 1 0]> ∅) (envs r !!! 0))]> (envs r)) r)
  (put_word (word 306 0) 9 (put_word (word 304 0) 0 (set_frames (frames three_free) swap_state)))).
Lemma fault_state_setting :
  fault_setting fault_state 0 (PAGE_8M + 0x123) 5 (kernel_page 306) 303 306 (kernel_page 304) 300 304.
Proof.
  split.
  - reflexivity.
  - by vm_compute.
  - by vm_compute.
  - split; by vm_compute.
  - split; by vm_compute.
  - by vm_compute.
  - by vm_compute.
  - assert (∀ a, bool_decide (Forall (λ f, f ∉ walk_frames fault_state a) [5; 304]) = true →
               reached_apart [5; 304] fault_state a) as Hr.
    { intros a Ha%bool_decide_eq_true. by rewrite Forall_forall in Ha. }
    intros a Ha. rewrite !elem_of_cons, elem_of_nil in Ha.
    destruct Ha as [-> | [-> | [-> | [-> | []]]]]; apply Hr; vm_compute; reflexivity.
  - by vm_compute.
Qed.
Lemma page_fault_brings_page_in_witness :
  ∃ s', page_fault_handler (H := no_nesting) 0 (PAGE_8M + 0x123) fault_state = Ret tt s' ∧
    kpage s' PAGE_8M 5 ∧ get_word s' (word 5 5) = 42 ∧
    env_of s' 0 = ws_after (env_of fault_state 0) 1 (PAGE_8M + 0x123).
Proof.
  destruct (@page_fault_brings_page_in no_nesting fault_state 0 (PAGE_8M + 0x123) 5 [4; 3] ∅
    (kernel_page 306) 303 306 (kernel_page 304) 300 304 9 fault_state_setting)
    as (s' & k & Hs' & Hk & He & Hj & Henv & _ & Hp & Hw).
  - exact three_free_allocator.
  - intros f. cbn. by rewrite zero_array.
  - lia.
  - by vm_compute.
  - by vm_compute.
  - intros k _. apply not_elem_of_empty.
  - by vm_compute.
  - by vm_compute.
  - by vm_compute.
  - assert (ahead 2 0 k = 1) as Hk1.
    { change (page_WS_max_size (env_of fault_state 0)) with 2 in *. destruct (decide (k = 0)) as [->|].
      - exfalso. apply He. vm_compute. reflexivity.
      - replace k with 1 by lia. reflexivity. }
    change (page_WS_max_size (env_of fault_state 0)) with 2 in Henv.
    change (page_last_WS_index (env_of fault_state 0)) with 0 in Henv. rewrite Hk1 in Henv.
    exists s'. split_and!; [exact Hs'|exact Hp| |exact Henv]. rewrite (Hw 5) by lia.
    vm_compute. reflexivity.
Defined.
