(* ===== verification/EvictSpec.v ===== *)
(** * What replacing a page does

    The page fault handler when the working set is full and the victim has not been modified: the
    victim's frame is released and is the one the new page gets. *)
From S2P Require Import Prelude Machine Queue State AddressSpace PageFlags FrameAlloc FrameAllocSpec Paging PagingSpec KHeap PageFile PageFileSpec WorkingSet Fault FaultSpec.

(** The page of entry [i] is [vv]; its page table, at [tv] in frame [tvf], maps it to frame [g] and
    does not say that it was modified. *)
Record victim_setting (s : KState) (e i vv tv tvf dm g : Z) : Prop := {
  vi_page : ws_page e s i = vv;
  vi_table : has_table s (env_page_directory (env_of s e)) vv tv dm tvf;
  vi_mapped : pte s vv tvf ≠ 0 ∧ frame_of (pte s vv tvf) = g;
  vi_clean : Z.land (pte s vv tvf) PERM_MODIFIED = 0;
  vi_frame : g < number_of_frames (frames s);
}.

(** Entry [i] of the working set of [e] is empty. *)
Definition clear_ws (e i : Z) (s : KState) : KState :=
  on_environments (λ r, set_envs
    (<[e := set_pageWS (<[i := MkWSE 0 1 0]> (pageWS (envs r !!! e))) (envs r !!! e)]> (envs r)) r) s.

Lemma env_of_clear_ws e i s :
  env_of (clear_ws e i s) e = set_pageWS (<[i := MkWSE 0 1 0]> (pageWS (env_of s e))) (env_of s e).
Proof. unfold env_of, clear_ws. cbn. by rewrite array_get_set_eq. Qed.

Lemma env_page_ws_clear_entry_spec e i s :
  0 ≤ i < page_WS_max_size (env_of s e) → env_page_ws_clear_entry e i s = Ret tt (clear_ws e i s).
Proof.
  intros Hi. unfold env_page_ws_clear_entry, get_env. rewrite bind_gets. fold (env_of s e).
  rewrite (proj2 (Z.leb_le 0 i)), (proj2 (Z.ltb_lt i _)) by lia. cbn [andb assert_]. by rewrite bind_mret.
Qed.
Lemma env_page_ws_get_virtual_address_spec e i s :
  0 ≤ i < page_WS_max_size (env_of s e) →
  env_page_ws_get_virtual_address e i s = Ret (ws_page e s i) s.
Proof.
  intros Hi. unfold env_page_ws_get_virtual_address, get_env. rewrite bind_gets. fold (env_of s e).
  rewrite (proj2 (Z.leb_le 0 i)), (proj2 (Z.ltb_lt i _)) by lia. cbn [andb assert_]. by rewrite bind_mret.
Qed.

(** ** Eviction *)
Section Evict.
Context `{Extern} (e i vv tv tvf dm g : Z).

Lemma evict_spec s a a' :
  victim_setting s e i vv tv tvf dm g → 0 ≤ i < page_WS_max_size (env_of s e) →
  allocator s a → counts_ok a → fspec (FRelease g) a = Some (None, a') →
  ∃ s1, evict e i s = Ret tt (clear_ws e i s1) ∧ entry_update s s1 vv tvf 0 ∧ allocator s1 a'.
Proof.
  intros [H1 H2 [H3 H3'] H4 H5] Hi Ha Hc Hop.
  destruct (unmap_frame_mapped (env_page_directory (env_of s e)) vv tv dm tvf s a a' H2 H3)
    as (s1 & Hs1 & Hu & Ha'); [by rewrite H3'|done|done|by rewrite H3'|].
  assert (env_of s1 e = env_of s e) as He by (by destruct Hu as (s0 & (h & l & ->) & ->)).
  exists s1. split_and!; [|done|done]. unfold evict.
  mstep (env_page_ws_get_virtual_address_spec e i s Hi). rewrite H1.
  unfold get_env. rewrite bind_gets. fold (env_of s e).
  mstep (get_page_table_present s _ vv tv dm tvf H2).
  mstep (get_frame_info_present s _ vv tv dm tvf H2 ltac:(by rewrite H3')).
  mstep (load_entry s _ vv tv dm tvf H2). rewrite H4. cbn [Z.eqb negb when]. rewrite bind_mret.
  mstep Hs1. apply env_page_ws_clear_entry_spec. by rewrite He.
Qed.

(** What the fault handler needs of the faulting page is still there. *)
Lemma fault_setting_touches s s1 va f t df tf tm tmf :
  fault_setting s e va f t df tf tm dm tmf → touches [tvf] s s1 →
  (∀ a, a ∈ [t; tm; disk_env_pgdir (env_of s e); env_page_directory (env_of s e)] → reached_apart [tvf] s a) →
  tvf ≠ df → tvf ≠ dm → has_perm (pte s1 va tmf) PERM_PRESENT = false →
  fault_setting s1 e va f t df tf tm dm tmf.
Proof.
  intros [F1 F2 [F3 F3'] F4 F5 F6 F7 F8 F9] Ht Hre Hdf Hdm Habs.
  pose proof Ht as (Hcr & _ & _ & _ & He & _). assert (env_of s1 e = env_of s e) as He' by (unfold env_of; by rewrite He).
  assert (get_word s1 (word dm (PDX va)) = get_word s (word dm (PDX va))) as Hpde
    by (eapply touches_word; [done|apart|apply PDX_range]).
  split; try done.
  - by rewrite He.
  - by rewrite Hcr.
  - by rewrite Hpde.
  - rewrite He'. destruct F4 as [T1 T2 T3 T4 T5]. split; rewrite ?Hpde; try done.
    + eapply touches_kpage; [done|apply Hre; in_list|done].
    + by eapply touches_table_address.
    + eapply touches_kpage; [done|apply Hre; in_list|done].
  - eapply touches_has_disk_table; [done|apply Hre; in_list|apply Hre; in_list|apart|done].
  - rewrite He'. intros a Hin. eapply touches_reached; [done|by apply Hre|by apply F8].
Qed.
Lemma table_address_clear_ws s va v t :
  table_address va v s = Ret t s → table_address va v (clear_ws e i s) = Ret t (clear_ws e i s).
Proof.
  unfold table_address, kheap_virtual_address, STATIC_KERNEL_VIRTUAL_ADDRESS. destruct (negb _).
  - unfold gets. cbn. by intros [= ->].
  - rewrite !bind_gets. cbn. case_match; [done|]. by intros [= ->].
Qed.
Lemma fault_setting_clear_ws s va f t df tf tm tmf :
  fault_setting s e va f t df tf tm dm tmf → fault_setting (clear_ws e i s) e va f t df tf tm dm tmf.
Proof.
  intros [F1 F2 F3 [T1 T2 T3 T4 T5] [D1 D2 D3 D4 D5 D6] F6 F7 F8 F9].
  pose proof (env_of_clear_ws e i s) as He. unfold env_of in He.
  split; rewrite ?env_of_clear_ws; try done.
  - split; try done. by apply table_address_clear_ws.
  - split; rewrite ?He; try done. by apply table_address_clear_ws.
Qed.

(** The state the page is brought into: the frame of the victim is the first free one. *)
Lemma evicted_state s va t df tf tm tmf xs m :
  fault_setting s e va g t df tf tm dm tmf →
  (∀ a, a ∈ [t; tm; disk_env_pgdir (env_of s e); env_page_directory (env_of s e)] → reached_apart [tvf] s a) →
  tvf ≠ df → tvf ≠ tf → tvf ≠ dm → word tvf (PTX vv) ≠ word tmf (PTX va) →
  victim_setting s e i vv tv tvf dm g → 0 ≤ i < page_WS_max_size (env_of s e) →
  allocator s (xs, m) → counts_ok (xs, m) → m !!! g = 1 →
  ∃ s1, evict e i s = Ret tt (clear_ws e i s1) ∧
    fault_setting (clear_ws e i s1) e va g t df tf tm dm tmf ∧
    allocator (clear_ws e i s1) (g :: xs, <[g := 0]> m) ∧ counts_ok (g :: xs, <[g := 0]> m) ∧
    env_of s1 e = env_of s e ∧ pte s1 vv tvf = 0 ∧ touches [tvf] s s1 ∧ disk (hw s1) = disk (hw s).
Proof.
  intros Hs Hre Hdf Htf Hdm Hne Hv Hi Ha Hc Hg.
  assert (g ∉ xs) as Hgx by (intros Hin; destruct Ha as (_ & Hfree & _); destruct (Hfree g Hin) as [_ Hz]; cbn in Hz; lia).
  assert (fspec (FRelease g) (xs, m) = Some (None, (g :: xs, <[g := 0]> m))) as Hop
    by (cbn; by rewrite decide_False, Hg by done).
  destruct (evict_spec s (xs, m) _ Hv Hi Ha Hc Hop) as (s1 & Hs1 & Hu & Ha1).
  pose proof (entry_update_touches _ _ _ _ _ Hu) as Ht.
  exists s1. split_and!; [done| |done| | |by eapply entry_update_pte|done|].
  - apply fault_setting_clear_ws. eapply fault_setting_touches; try done.
    unfold pte. rewrite (entry_update_other _ _ _ _ _ _ Hu) by done. apply (fa_absent _ _ _ _ _ _ _ _ _ _ Hs).
  - intros f. cbn. specialize (Hc f). cbn in Hc. destruct (decide (g = f)) as [->|].
    + rewrite array_get_set_eq. lia.
    + by rewrite array_get_set_ne.
  - unfold env_of. by destruct Ht as (_ & _ & _ & _ & -> & _).
  - by destruct Hu as (s0 & (h & l & ->) & ->).
Qed.
End Evict.

(** ** Properties *)

(** C13: a page fault when the working set is full, for a replacement policy whose choice, entry
    [i], changes nothing and whose page has not been modified and has a frame of its own: the
    victim's page is unmapped, its frame is the one that gets the words of the faulting page's disk
    frame and is mapped at the faulting page, entry [i] holds the new page and the last index moves
    past it; the free list and every reference count are as before the fault. *)
Theorem page_fault_replaces_page `{Extern} s e i va vv g t df tf tm dm tmf tv tvf xs m dfn :
  let x := env_of s e in
  let max := page_WS_max_size x in
  fault_setting s e va g t df tf tm dm tmf → victim_setting s e i vv tv tvf dm g →
  (∀ a, a ∈ [t; tm; disk_env_pgdir x; env_page_directory x] → reached_apart [tvf] s a) →
  tvf ≠ df ∧ tvf ≠ tf ∧ tvf ≠ dm ∧ tvf ≠ g → word tvf (PTX vv) ≠ word tmf (PTX va) →
  allocator s (xs, m) → counts_ok (xs, m) → 0 ≤ g < 2 ^ 20 → m !!! g = 1 →
  pte s (page_of va) tf = dfn → disk_page dfn → serviceable s dfn →
  choose_victim e max (page_last_WS_index x) s = Ret i s →
  0 ≤ i < max → max < 2 ^ 32 → max ≤ count_nonempty (pageWS x) max →
  ∃ s', page_fault_handler e va s = Ret tt s' ∧ env_of s' e = ws_after x i va ∧
    allocator s' (xs, m) ∧ kpage s' (page_of va) g ∧ pte s' vv tvf = 0 ∧
    ∀ j, 0 ≤ j < 1024 → get_word s' (word g j) = u32 (disk_word s (dword dfn j)).
Proof.
  intros x max Hs Hv Hre (Hdf & Htf & Hdm & Hvg) Hne Ha Hc Hg Hmg Hdfn Hd Hsv Hch Hi Hmax Hfull.
  destruct (evicted_state e i vv tv tvf dm g s va t df tf tm tmf xs m)
    as (s1 & Hs1 & Hset & Ha1 & Hc1 & He1 & Hp1 & Ht1 & Hd1); try done.
  pose proof (env_of_clear_ws e i s1) as Hx. rewrite He1 in Hx. fold x in Hx.
  assert (pte (clear_ws e i s1) (page_of va) tf = dfn) as Hdfn'.
  { rewrite <-Hdfn. eapply (touches_word [tvf] s s1); [done|apart|apply PTX_range]. }
  destruct (bring_page_in_spec (clear_ws e i s1) e va g xs (<[g := 0]> m) t df tf tm dm tmf dfn i)
    as (s2 & Hs2 & He2 & Ha2 & Hp2 & Hw2 & Hr2); try done.
  { intros k Hk. destruct Ht1 as (_ & Hb & _). change (bad_sectors (hw (clear_ws e i s1))) with (bad_sectors (hw s1)).
    rewrite Hb. by apply Hsv. }
  { by rewrite Hx. } { by rewrite Hx. }
  assert (find_empty e max i (clear_ws e i s1) = Ret i (clear_ws e i s1)) as Hfe.
  { unfold find_empty. replace (Z.to_nat (max + 1)) with (Datatypes.S (Z.to_nat max)) by lia.
    apply mloop_break. unfold placement_body, ws_get, get_env. rewrite bind_assoc, bind_gets, bind_mret.
    fold (env_of (clear_ws e i s1) e). rewrite Hx. cbn. by rewrite array_get_set_eq. }
  exists s2. split_and!; try done.
  - unfold page_fault_handler, get_env at 1. rewrite bind_gets. fold (env_of s e). fold x max.
    unfold env_page_ws_get_size, get_env at 1. rewrite bind_assoc, bind_gets, bind_mret. fold (env_of s e). fold x.
    rewrite count_loop_ws_eq. fold max. rewrite (proj2 (Z.leb_le max _) Hfull).
    rewrite bind_assoc. mstep Hch. rewrite bind_assoc. mstep Hs1. rewrite bind_mret. mstep Hfe. exact Hs2.
  - rewrite He2, Hx. unfold ws_after. cbn. by rewrite array_set_set.
  - rewrite array_set_set, insert_id in Ha2; [done|].
    rewrite lookup_total_alt in Hmg. by destruct (m !! g); cbn in Hmg; [subst|].
  - unfold pte. rewrite Hr2; [exact Hp1|done|apply PTX_range|done].
  - intros j Hj. rewrite Hw2 by done. unfold disk_word.
    change (disk (hw (clear_ws e i s1))) with (disk (hw s1)). by rewrite Hd1.
Qed.

(** ** Witness *)
(** The machine of FaultSpec.v's example with FIFO replacement and a working set of one page: the
    page after 8 MB, in frame 5; frames 4 and 3 are free. *)
Definition one_used : Frames :=
  MkFrames 8 (<[5 := set_references 1 inhabitant]>
    (<[4 := MkFrame (Some 3) None 0 0 None 0]> (<[3 := MkFrame None (Some 4) 0 0 None 0]> ∅)))
    (MkListHead (Some 4) (Some 3) 2) (MkListHead None None 0).
Definition full_state : KState :=
  on_hw (set_disk {[dword 9 5 := 42]})
  (on_config (set__PageRepAlgoType PG_REP_FIFO)
  (on_environments (λ r, set_envs (<[0 := set_page_WS_max_size 1 (set_pageWS
      (<[0 := MkWSE (PAGE_8M + PAGE_SIZE) 0 0]> ∅) (envs r !!! 0))]> (envs r)) r)
  (put_word (word 306 0) 9 (put_word (word 304 1) (5 * PAGE_SIZE + 7) (put_word (word 304 0) 0
    (set_frames one_used swap_state)))))).
Definition one_used_counts : gmap Z Z := {[5 := 1]}.
Lemma full_state_allocator : allocator full_state ([4; 3], one_used_counts).
Proof.
  assert (∀ f, isBuffered (frame_at full_state f) = 0 ∧
               references (frame_at full_state f) = if decide (5 = f) then 1 else 0) as Hf.
  { intros f. unfold frame_at. change (frames_info (frames full_state)) with (frames_info one_used).
    unfold one_used. cbn [frames_info].
    destruct (decide (5 = f)) as [<-|]; [done|]. rewrite array_get_set_ne by done.
    destruct (decide (4 = f)) as [<-|]; [done|]. rewrite array_get_set_ne by done.
    destruct (decide (3 = f)) as [<-|]; [done|]. rewrite array_get_set_ne by done. done. }
  assert (∀ f, one_used_counts !!! f = if decide (5 = f) then 1 else 0) as Hc.
  { intros f. unfold one_used_counts. case_decide as Hd; [by subst|]. rewrite <-insert_empty.
    rewrite array_get_set_ne by done. apply zero_array. }
  split; [|split].
  - unfold dll. split_and!; [by vm_compute..|by apply (bool_decide_unpack _)|by vm_compute].
  - intros f Hin. split; [apply Hf|]. cbn [snd]. rewrite Hc. case_decide as Hd; [|done]. subst.
    exfalso. revert Hin. apply (bool_decide_unpack _). by vm_compute.
  - intros f. cbn [snd]. rewrite Hc. apply Hf.
Qed.
Lemma full_state_reached a fs :
  bool_decide (Forall (λ f, f ∉ walk_frames full_state a) fs) = true → reached_apart fs full_state a.
Proof. intros Ha%bool_decide_eq_true. by rewrite Forall_forall in Ha. Qed.
Lemma full_state_addresses (P : Z → Prop) :
  P (kernel_page 306) → P (kernel_page 304) → P (kernel_page 303) → P (kernel_page 300) →
  ∀ a, a ∈ [kernel_page 306; kernel_page 304; disk_env_pgdir (env_of full_state 0);
            env_page_directory (env_of full_state 0)] → P a.
Proof.
  intros ???? a Ha. rewrite !elem_of_cons, elem_of_nil in Ha.
  destruct Ha as [-> | [-> | [-> | [-> | []]]]]; done.
Qed.
Lemma full_state_setting :
  fault_setting full_state 0 (PAGE_8M + 0x123) 5 (kernel_page 306) 303 306 (kernel_page 304) 300 304.
Proof.
  split.
  - reflexivity.
  - by vm_compute.
  - by vm_compute.
  - split; by vm_compute.
  - split; by vm_compute.
  - by vm_compute.
  - by vm_compute.
  - apply full_state_addresses; apply full_state_reached; vm_compute; reflexivity.
  - by vm_compute.
Qed.
Lemma full_state_victim :
  victim_setting full_state 0 0 (PAGE_8M + PAGE_SIZE) (kernel_page 304) 304 300 5.
Proof. split; [reflexivity|split; by vm_compute|by vm_compute..]. Qed.
Lemma page_fault_replaces_page_witness :
  ∃ s', page_fault_handler (H := no_nesting) 0 (PAGE_8M + 0x123) full_state = Ret tt s' ∧
    kpage s' PAGE_8M 5 ∧ pte s' (PAGE_8M + PAGE_SIZE) 304 = 0 ∧ get_word s' (word 5 5) = 42.
Proof.
  destruct (@page_fault_replaces_page no_nesting full_state 0 0 (PAGE_8M + 0x123) (PAGE_8M + PAGE_SIZE) 5
    (kernel_page 306) 303 306 (kernel_page 304) 300 304 (kernel_page 304) 304 [4; 3] one_used_counts 9
    full_state_setting full_state_victim) as (s' & Hs' & _ & _ & Hp & Hv & Hw).
  - apply full_state_addresses; apply full_state_reached; vm_compute; reflexivity.
  - lia.
  - by vm_compute.
  - exact full_state_allocator.
  - intros f. cbn [snd]. unfold one_used_counts. destruct (decide (5 = f)) as [<-|]; [by vm_compute|].
    rewrite <-insert_empty, array_get_set_ne, zero_array by done. lia.
  - lia.
  - by vm_compute.
  - by vm_compute.
  - by vm_compute.
  - intros k _. apply not_elem_of_empty.
  - by vm_compute.
  - by vm_compute.
  - by vm_compute.
  - by vm_compute.
  - exists s'. split; [exact Hs'|]. split; [exact Hp|]. split; [exact Hv|].
    rewrite (Hw 5) by lia. vm_compute. reflexivity.
Defined.
