(* ===== verification/ProtectSpec.v ===== *)
(** * Accesses to pages an environment does not have

    The page fault handler does not ask why the access faulted.  It maps a frame at the address
    first, in place of whatever is mapped there, looks for the page in the page file, and if it is
    neither there nor on the stack removes the mapping again and panics: a program that touches a
    page of the kernel takes the page away from the kernel, in every address space. *)
From S2P Require Import Prelude Machine Queue State AddressSpace PageFlags FrameAlloc FrameAllocSpec Paging PagingSpec KHeap PageFile PageFileSpec WorkingSet Fault FaultSpec.

(** Two updates of one entry. *)
Lemma entry_update_trans s s1 s2 va tf v v' :
  entry_update s s1 va tf v → entry_update s1 s2 va tf v' → entry_update s s2 va tf v'.
Proof.
  intros Hu (s3 & Ho & ->). by eapply entry_update_put, entry_update_frames_only.
Qed.
Lemma entry_update_frames_first s s1 s2 va tf v :
  frames_only s s1 → entry_update s1 s2 va tf v → entry_update s s2 va tf v.
Proof. intros Ho (s3 & Ho' & ->). exists s3. split; [by etrans|done]. Qed.

(** The page of any address. *)
Lemma page_of_indices va : is_u32 va → PDX (page_of va) = PDX va ∧ PTX (page_of va) = PTX va.
Proof.
  intros Hva. unfold is_u32 in *. apply same_page_indices. unfold page_of, ROUNDDOWN.
  rewrite !(u32_small va) by (unfold is_u32; lia).
  assert (0 ≤ va - va `mod` PAGE_SIZE < 2 ^ 32 ∧
          (va - va `mod` PAGE_SIZE) / PAGE_SIZE = va / PAGE_SIZE) as [Hr Hq] by (unfold PAGE_SIZE; zdiv).
  rewrite (u32_small (va - _)) by (unfold is_u32; lia).
  rewrite !PPN_eq, !u32_small by (unfold is_u32; lia). done.
Qed.

(** The running environment [e] has a table for [va], at [tm] in frame [tmf], but no page-file
    table, and [va] is not on the stack. *)
Record no_page (s : KState) (e va tm dm tmf df : Z) : Prop := {
  np_va : is_u32 va;
  np_table : has_table s (env_page_directory (env_of s e)) va tm dm tmf;
  np_apart : entry_apart s (env_page_directory (env_of s e)) va tm dm tmf;
  np_disk : disk_env_pgdir (env_of s e) ≠ 0 ∧ kpage s (disk_env_pgdir (env_of s e)) df ∧
            get_word s (word df (PDX va)) = 0;
  np_disk_apart : word tmf (PTX va) ∉ walk_of s (disk_env_pgdir (env_of s e)) ∧
                  word tmf (PTX va) ≠ word df (PDX va);
  np_memory : 0 < number_of_frames (frames s);
  np_not_stack : va < USTACKBOTTOM ∨ USTACKTOP ≤ va;
}.

(** The frames after the mapping [v], if it is one, has lost its reference. *)
Definition released (v : Z) (a : astate) : option astate :=
  if has_perm v PERM_PRESENT
  then match fspec (FRelease (frame_of v)) a with Some (_, a') => Some a' | None => None end
  else Some a.

Lemma entry_update_env s s' e va tf v : entry_update s s' va tf v → env_of s' e = env_of s e.
Proof. intros (s1 & (h & l & ->) & ->). done. Qed.
Lemma entry_update_number s s' va tf v :
  entry_update s s' va tf v → number_of_frames (frames s') = number_of_frames (frames s).
Proof. intros (s1 & (h & l & ->) & ->). done. Qed.

Section NoPage.
Context `{Extern} (e va tm dm tmf df : Z).

Lemma no_page_entry_update s s' v :
  no_page s e va tm dm tmf df → entry_update s s' va tmf v → no_page s' e va tm dm tmf df.
Proof.
  intros [N1 N2 N3 (N4 & N5 & N6) (N7 & N8) N9 N10] Hu.
  pose proof (entry_update_env s s' e va tmf v Hu) as He.
  pose proof (has_table_entry_update _ _ _ _ _ _ _ _ N2 N3 Hu) as Ht.
  pose proof Hu as (s1 & (h & l & ->) & ->).
  split; rewrite ?He; try done.
  - destruct N3 as (A1 & A2 & A3). unfold entry_apart. by rewrite !walk_put.
  - split_and!; [done| |by rewrite get_put_ne]. by apply kpage_put.
  - by rewrite walk_put.
Qed.

(** It is not in the page file. *)
Lemma pf_read_no_page s :
  no_page s e va tm dm tmf df → pf_read_env_page e va s = Ret E_PAGE_NOT_EXIST_IN_PF s.
Proof.
  intros [N1 _ _ (N4 & N5 & N6) _ N9 _]. unfold pf_read_env_page. fold (page_of va).
  destruct (page_of_indices va N1) as [HD HT].
  unfold get_env at 1. rewrite bind_gets. fold (env_of s e). rewrite (proj2 (Z.eqb_neq _ _)) by done.
  destruct (table_address_none s (page_of va) N9) as [t0 Ht0].
  rewrite (bind_Ret _ _ _ (0, 0) s); [done|]. unfold get_disk_page_table. rewrite HD.
  mstep (load_kpage s _ df N5 (PDX va) (PDX_range va)). rewrite N6. by mstep Ht0.
Qed.

(** Mapping the frame the handler takes, whatever was mapped there. *)
Lemma no_page_map s f xs m a' :
  no_page s e va tm dm tmf df → allocator s (f :: xs, m) → counts_ok (f :: xs, m) →
  0 ≤ f < 2 ^ 20 → (has_perm (pte s va tmf) PERM_PRESENT = true →
                     frame_of (pte s va tmf) < number_of_frames (frames s)) →
  released (pte s va tmf) (xs, m) = Some a' → f ∉ a'.1 → a'.2 !!! f = 0 →
  ∃ s', (ptr ← allocate_frame; map_frame (env_page_directory (env_of s e)) ptr va FAULT_PERM) s = Ret 0 s' ∧
    allocator s' (a'.1, <[f := 1]> a'.2) ∧ entry_update s s' va tmf (entry_for f FAULT_PERM).
Proof.
  intros [N1 N2 N3 _ _ _ _] Ha Hc Hf Hn Hrel Hfa Hf0.
  destruct (allocate_frame_refines s f xs m Ha) as (s1 & Hs1 & Ha1 & Ho & _).
  assert (m !!! f = 0) as Hm0 by (destruct Ha as (_ & Hfree & _); by apply (Hfree f); left).
  assert (f ∉ xs) as Hfx by (destruct Ha as ((_ & _ & _ & [? _]%NoDup_cons & _) & _); done).
  assert (pte s1 va tmf = pte s va tmf) as Hp by (by destruct Ho as (h & l & ->)).
  assert (number_of_frames (frames s1) = number_of_frames (frames s)) as Hnf by (by destruct Ho as (h & l & ->)).
  assert (entry_apart s1 (env_page_directory (env_of s e)) va tm dm tmf) as Hap by (by destruct Ho as (h & l & ->)).
  assert (fspec (FRetain f) a' = Some (None, (a'.1, <[f := 1]> a'.2))) as Hret.
  { destruct a' as [ys m']; cbn in *. by rewrite decide_False, Hf0. }
  destruct (has_perm (pte s va tmf) PERM_PRESENT) eqn:Hpres.
  - unfold released in Hrel. rewrite Hpres in Hrel.
    destruct (fspec (FRelease (frame_of (pte s va tmf))) (xs, m)) as [[r a1]|] eqn:Hop; [|done].
    injection Hrel as ->.
    assert (frame_of (pte s va tmf) ≠ f) as Hne.
    { intros Heq. rewrite Heq in Hop. cbn in Hop. by rewrite decide_False, Hm0 in Hop. }
    destruct (map_frame_spec _ va tm dm tmf s1 f FAULT_PERM (xs, m) [r; None] (a'.1, <[f := 1]> a'.2)
      (has_table_frames_only _ _ _ _ _ _ _ Ho N2) Hap) as (s2 & Hs2 & Ha2 & Hu2); try done.
    { rewrite Hp, Hnf. intros _. by apply Hn. }
    { unfold map_ops. rewrite Hp, Hpres, (proj2 (Z.eqb_neq _ _)) by done. cbn [fspecs]. by rewrite Hop, Hret. }
    exists s2. split_and!; [by mstep Hs1|done|].
    unfold mapped_entry in Hu2. rewrite Hp, (proj2 (Z.eqb_neq _ _)), andb_false_r in Hu2 by done.
    by eapply entry_update_frames_first.
  - unfold released in Hrel. rewrite Hpres in Hrel. injection Hrel as <-.
    destruct (map_frame_spec _ va tm dm tmf s1 f FAULT_PERM (xs, m) [None] (xs, <[f := 1]> m)
      (has_table_frames_only _ _ _ _ _ _ _ Ho N2) Hap) as (s2 & Hs2 & Ha2 & Hu2); try done.
    { by rewrite Hp, Hpres. }
    { unfold map_ops. rewrite Hp, Hpres. cbn [fspecs]. by rewrite Hret. }
    exists s2. split_and!; [by mstep Hs1|done|].
    unfold mapped_entry in Hu2. rewrite Hp, Hpres in Hu2. by eapply entry_update_frames_first.
Qed.
End NoPage.

(** The frame the handler takes stays free when the old mapping is released. *)
Lemma released_keeps v f xs m a' :
  counts_ok (f :: xs, m) → f ∉ xs → m !!! f = 0 → released v (xs, m) = Some a' →
  f ∉ a'.1 ∧ a'.2 !!! f = 0 ∧ counts_ok a'.
Proof.
  unfold released, counts_ok. cbn [snd]. intros Hc Hf Hm. destruct (has_perm v PERM_PRESENT);
    [|by intros [= <-]].
  cbn. destruct (decide (frame_of v ∈ xs)); [done|].
  assert (frame_of v ≠ f → ∀ w (ys : list Z), f ∉ ys → 0 ≤ w < 65536 →
          f ∉ ys ∧ (<[frame_of v := w]> m : gmap Z Z) !!! f = 0 ∧
          ∀ g, 0 ≤ (<[frame_of v := w]> m : gmap Z Z) !!! g < 65536) as Hupd.
  { intros Hne w ys Hys Hw. split_and!; [done|by rewrite array_get_set_ne|]. intros g.
    destruct (decide (frame_of v = g)) as [<-|]; [by rewrite array_get_set_eq|by rewrite array_get_set_ne]. }
  destruct (Z.eqb_spec (m !!! frame_of v) 1) as [H1|H1].
  - intros [= <-]. apply (Hupd ltac:(congruence) 0 (frame_of v :: xs)); [|lia].
    rewrite not_elem_of_cons. split; [congruence|done].
  - destruct (Z.ltb_spec 1 (m !!! frame_of v)); [|done]. intros [= <-].
    
    pose proof (Hc (frame_of v)). apply (Hupd ltac:(intros <-; lia) (m !!! frame_of v - 1) xs); [done|lia].
Qed.

Section Panics.
Context `{Extern} (e va tm dm tmf df : Z).

Lemma bring_page_in_no_page s f xs m a' i :
  no_page s e va tm dm tmf df → allocator s (f :: xs, m) → counts_ok (f :: xs, m) →
  0 ≤ f < 2 ^ 20 → f < number_of_frames (frames s) →
  (has_perm (pte s va tmf) PERM_PRESENT = true → frame_of (pte s va tmf) < number_of_frames (frames s)) →
  released (pte s va tmf) (xs, m) = Some a' →
  ∃ s', bring_page_in e va i s = Panic "NOT STACK" s' ∧
    allocator s' (f :: a'.1, <[f := 0]> a'.2) ∧ entry_update s s' va tmf 0.
Proof.
  intros Hn Ha Hc Hf Hfn Hp Hrel.
  assert (m !!! f = 0 ∧ f ∉ xs) as [Hm0 Hfx].
  { destruct Ha as ((_ & _ & _ & [? _]%NoDup_cons & _) & Hfree & _). split; [|done].
    by apply (Hfree f); left. }
  destruct (released_keeps _ f xs m a' Hc Hfx Hm0 Hrel) as (Hfa & Hf0 & Hca).
  destruct (no_page_map e va tm dm tmf df s f xs m a' Hn Ha Hc Hf Hp Hrel Hfa Hf0) as (s1 & Hs1 & Ha1 & Hu1).
  pose proof (no_page_entry_update e va tm dm tmf df s s1 _ Hn Hu1) as Hn1.
  pose proof (entry_update_pte _ _ _ _ _ Hu1) as Hp1.
  assert (counts_ok (a'.1, <[f := 1]> a'.2)) as Hc1.
  { intros g. cbn. destruct (decide (f = g)) as [<-|]; [by rewrite array_get_set_eq|].
    by rewrite array_get_set_ne. }
  destruct (unmap_frame_mapped (env_page_directory (env_of s1 e)) va tm dm tmf s1
    (a'.1, <[f := 1]> a'.2) (f :: a'.1, <[f := 0]> a'.2)) as (s2 & Hs2 & Hu2 & Ha2); [apply Hn1|..].
  { rewrite Hp1. intros He. pose proof (entry_for_present f FAULT_PERM Hf) as Hpr.
    by rewrite He in Hpr. }
  { rewrite Hp1, frame_of_entry_for by done. by rewrite (entry_update_number _ _ _ _ _ Hu1). }
  { exact Ha1. } { exact Hc1. }
  { rewrite Hp1, frame_of_entry_for by done. cbn.
    by rewrite decide_False, array_get_set_eq, array_set_set by done. }
  exists s2. split_and!; [|done|by eapply entry_update_trans].
  unfold bring_page_in, get_env at 1. rewrite bind_gets. fold (env_of s e).
  rewrite <-bind_assoc. mstep Hs1. mstep (pf_read_no_page e va tm dm tmf df s1 Hn1).
  change (E_PAGE_NOT_EXIST_IN_PF =? 0) with false. change (E_PAGE_NOT_EXIST_IN_PF =? _) with true. cbn [negb].
  rewrite (proj2 (andb_false_iff _ _)).
  2:{ destruct (np_not_stack _ _ _ _ _ _ _ Hn); [right; apply Z.leb_gt; lia|left; apply Z.ltb_ge; lia]. }
  rewrite (entry_update_env _ _ _ _ _ _ Hu1) in Hs2. rewrite bind_assoc. by mstep Hs2.
Qed.
End Panics.

(** The count of page faults. *)
Definition fault_counted (e : Z) (s : KState) : KState :=
  on_environments (λ r, set_envs
    (<[e := set_pageFaultsCounter (u32 (pageFaultsCounter (envs r !!! e) + 1)) (envs r !!! e)]> (envs r)) r) s.
Lemma env_of_fault_counted e s :
  env_of (fault_counted e s) e = set_pageFaultsCounter (u32 (pageFaultsCounter (env_of s e) + 1)) (env_of s e).
Proof. unfold env_of, fault_counted. cbn. by rewrite array_get_set_eq. Qed.
Lemma table_address_counted e s va v t :
  table_address va v s = Ret t s → table_address va v (fault_counted e s) = Ret t (fault_counted e s).
Proof.
  unfold table_address, kheap_virtual_address, STATIC_KERNEL_VIRTUAL_ADDRESS. destruct (negb _).
  - unfold gets. cbn. by intros [= ->].
  - rewrite !bind_gets. cbn. case_match; [done|]. by intros [= ->].
Qed.
Lemma no_page_counted s e va tm dm tmf df :
  no_page s e va tm dm tmf df → no_page (fault_counted e s) e va tm dm tmf df.
Proof.
  intros [N1 [T1 T2 T3 T4 T5] N3 N4 N5 N6 N7].
  split; rewrite ?env_of_fault_counted; try done. split; try done.
  exact (table_address_counted e s va _ tm T3).
Qed.

(** C39: what the page fault handler does with an access it cannot serve, for any user or kernel
    address that has a page table in memory and none in the page file and is not on the user stack,
    with buffering off, a free frame, room in the working set of the running program, and the tables
    themselves not reached through the page at that address: it panics, and takes the page that was
    mapped at the address, whatever its privilege, out of every address space that shares the page
    table: the handler releases the frame that was mapped (it becomes free when that was its only
    mapping), gives back the frame it took, and leaves the entry empty.  No other word of memory
    changes.  (With a full working set a victim would be evicted first, with buffering on or no page
    table in memory the handler takes other paths; those are not part of this claim.) *)
Theorem unserved_access_unmaps `{Extern} s e va tm dm tmf df f xs m a' :
  no_page s e va tm dm tmf df →
  curenv (environments s) = Some e → cr2 (hw s) = va → _EnableBuffering (config s) = 0 →
  allocator s (f :: xs, m) → counts_ok (f :: xs, m) → 0 ≤ f < 2 ^ 20 → f < number_of_frames (frames s) →
  (has_perm (pte s va tmf) PERM_PRESENT = true → frame_of (pte s va tmf) < number_of_frames (frames s)) →
  released (pte s va tmf) (xs, m) = Some a' →
  let max := page_WS_max_size (env_of s e) in
  0 ≤ page_last_WS_index (env_of s e) < max → max < 2 ^ 32 → count_nonempty (pageWS (env_of s e)) max < max →
  ∃ s', fault_handler s = Panic "NOT STACK" s' ∧ allocator s' (f :: a'.1, <[f := 0]> a'.2) ∧
    (∀ root, frame_of (get_word s (word (frame_of root) (PDX va))) = tmf →
             word (frame_of root) (PDX va) ≠ word tmf (PTX va) →
             mmu (mem (hw s')) root va false = None) ∧
    ∀ j, j ≠ word tmf (PTX va) → get_word s' j = get_word s j.
Proof.
  intros Hn Hcur Hva Hbuf Ha Hc Hf Hfn Hp Hrel max Hst Hmax Hroom.
  pose proof (no_page_counted _ _ _ _ _ _ _ Hn) as Hn0. set (s0 := fault_counted e s) in *.
  assert (env_of s0 e = set_pageFaultsCounter (u32 (pageFaultsCounter (env_of s e) + 1)) (env_of s e)) as He0
    by apply env_of_fault_counted.
  destruct (find_empty_total e max s0 (page_last_WS_index (env_of s e))) as (k & Hk & Hfind & _);
    [done|done|by rewrite He0|].
  destruct (bring_page_in_no_page e va tm dm tmf df s0 f xs m a' (ahead max (page_last_WS_index (env_of s e)) k))
    as (s' & Hs' & Ha' & Hu); try done.
  exists s'. split_and!; [|done| |intros j Hj; exact (entry_update_other _ _ _ _ _ _ Hu Hj)].
  - unfold fault_handler, rcr2, curenv_ptr. rewrite bind_gets. cbn [compose]. rewrite Hva.
    rewrite bind_assoc, bind_gets. cbn [compose]. rewrite Hcur. cbn [read_local]. rewrite bind_mret.
    unfold get_env at 1. rewrite bind_gets. fold (env_of s e).
    pose proof (np_table _ _ _ _ _ _ _ Hn) as [T1 T2 _ _ _].
    mstep (load_kpage s _ dm T1 (PDX va) (PDX_range va)). rewrite T2. cbn [negb].
    unfold upd_env at 1. rewrite bind_assoc, bind_modify. fold (fault_counted e s). fold s0.
    unfold isBufferingEnabled. rewrite bind_assoc, bind_gets.
    change (config s0) with (config s). rewrite Hbuf. cbn [Z.eqb negb].
    unfold page_fault_handler, get_env at 1. rewrite bind_assoc, bind_gets. fold (env_of s0 e).
    unfold env_page_ws_get_size, get_env at 1. rewrite !bind_assoc, bind_gets, bind_mret. fold (env_of s0 e).
    rewrite count_loop_ws_eq, He0. cbn [page_WS_max_size pageWS page_last_WS_index set_pageFaultsCounter].
    fold max. rewrite (proj2 (Z.leb_gt max _)) by done. rewrite bind_assoc, bind_mret, bind_assoc. mstep Hfind.
    unfold mbind, M_bind. by rewrite Hs'.
  - intros root Hroot Hne. rewrite (mmu_entry s' root (frame_of root) va tmf); [|done|].
    + rewrite (entry_update_pte _ _ _ _ _ Hu), has_perm_zero, andb_false_r by done. done.
    + rewrite (entry_update_other _ _ _ _ _ _ Hu); done.
Qed.

(** ** Witness *)
(** The kernel of PagingSpec.v with an environment that touched page 1 of the kernel heap, which
    is mapped to frame 9 for the kernel alone; its page-file directory, in frame 303, is empty. *)
Definition touched : Z := HEAP_PAGE 1 + 0x10.
Definition touching_state : KState :=
  on_hw (set_cr2 touched)
  (on_environments (λ r, set_curenv (Some 0) (set_envs {[0 := set_disk_env_pgdir (KERNEL_BASE + 303 * PAGE_SIZE)
    (set_page_WS_max_size 2 (set_pageWS (<[1 := MkWSE 0 1 0]> ∅) (set_env_page_directory DIR inhabitant)))]} r))
  (put_word (word 301 303) (303 * PAGE_SIZE + 3) paged_state)).
Lemma touching_state_no_page : no_page touching_state 0 touched TABLE 300 302 303.
Proof.
  split.
  - by vm_compute.
  - split; by vm_compute.
  - split_and!; apply (bool_decide_unpack _); vm_compute; exact I.
  - split_and!; [by vm_compute|split_and!; by vm_compute|by vm_compute].
  - split; apply (bool_decide_unpack _); vm_compute; exact I.
  - by vm_compute.
  - right. by vm_compute.
Qed.
Lemma unserved_access_unmaps_witness :
  mmu (mem (hw touching_state)) (300 * PAGE_SIZE) touched false = Some (9 * PAGE_SIZE + 0x10) ∧
  ∃ s', fault_handler (H := no_nesting) touching_state = Panic "NOT STACK" s' ∧
    mmu (mem (hw s')) (300 * PAGE_SIZE) touched false = None ∧
    allocator s' ([5; 9; 4; 3], <[5 := 0]> {[9 := 0]}).
Proof.
  split; [vm_compute; reflexivity|].
  destruct (@unserved_access_unmaps no_nesting touching_state 0 touched TABLE 300 302 303 5 [4; 3]
    {[9 := 1]} ([9; 4; 3], {[9 := 0]}) touching_state_no_page) as (s' & Hs' & Ha' & Hm & _).
  - reflexivity.
  - reflexivity.
  - reflexivity.
  - exact (allocator_frames paged_state touching_state _ eq_refl paged_state_allocator).
  - exact paged_state_counts.
  - lia.
  - vm_compute; reflexivity.
  - intros _. vm_compute; reflexivity.
  - vm_compute. reflexivity.
  - split; vm_compute; congruence.
  - vm_compute; reflexivity.
  - vm_compute; reflexivity.
  - exists s'. split_and!; [exact Hs'| |exact Ha'].
    apply (Hm (300 * PAGE_SIZE)); vm_compute; congruence.
Defined.
