(* ===== verification/UserEnv.v ===== *)
(** * Environments: kern/user_environment.c and envid2env of kern/helpers.c

    Allocation, creation from an ELF image, running and freeing of environments.  A
    [struct Env *] is the index of the element in [envs]. *)
From S2P Require Import Prelude Machine Queue State PageFlags FrameAlloc Paging KHeap PageFile WorkingSet Fault.

Definition ENV_FREE : Z := 0.
Definition ENV_READY : Z := 1.
Definition ENV_BLOCKED : Z := 2.
Definition ENV_NEW : Z := 3.
Definition ENV_EXIT : Z := 4.
Definition ENV_UNKNOWN : Z := 5.

(** [sizeof(struct Env)]: a trapframe of 0x44 bytes, two links, 11 words, a pointer, the table
    working set of 50 elements of 12 bytes, and 9 more words. *)
Definition SIZEOF_Env : Z := 0x44 + 8 + 11 * 4 + 4 + __TWS_MAX_SIZE * SIZEOF_WorkingSetElement + 9 * 4.
Definition NENV : Z := (PTSIZE `div` 4) `div` SIZEOF_Env.
Definition ENVX (envid : Z) : Z := Z.land (u32 envid) (NENV - 1).
Definition ENVGENSHIFT : Z := 12.
Definition GD_UT : Z := 0x18.
Definition GD_UD : Z := 0x20.
Definition FL_IF : Z := 0x200.

Definition on_env_free_list (op : gmap Z Env → ListHead → gmap Z Env * ListHead) : K unit :=
  modify (on_environments (λ r,
    let '(h, l) := op (envs r) (env_free_list r) in set_envs h (set_env_free_list l r))).

(** ** Programs *)
Record UserProgramInfo := MkProgram { upi_name : string; upi_desc : string; upi_ptr_start : Z }.
(** Addresses of the embedded binaries are linker symbols. *)
Definition userPrograms (start_of : string → Z) : list UserProgramInfo :=
  [
    MkProgram "fos_helloWorld" "Created by FOS team, fos@nowhere.com" (start_of "fos_helloWorld");
    MkProgram "fos_add" "Created by FOS team, fos@nowhere.com" (start_of "fos_add");
    MkProgram "fos_alloc" "Created by FOS team, fos@nowhere.com" (start_of "fos_alloc");
    MkProgram "fos_input" "Created by FOS team, fos@nowhere.com" (start_of "fos_input");
    MkProgram "fos_game" "Created by FOS team, fos@nowhere.com" (start_of "game");
    MkProgram "fos_static_data_section" "Created by FOS team, fos@nowhere.com" (start_of "fos_static_data_section");
    MkProgram "fos_data_on_stack" "Created by FOS team, fos@nowhere.com" (start_of "fos_data_on_stack");
    MkProgram "tqs" "Quicksort without freeHeap" (start_of "quicksort_heap");
    MkProgram "tpp" "Tests the Page placement" (start_of "tst_placement");
    MkProgram "tia" "tests handling of invalid memory access" (start_of "tst_invalid_access");
    MkProgram "tpr1" "Tests page replacement (allocation of Memory and PageFile)" (start_of "tst_page_replacement_alloc");
    MkProgram "tpr2" "Tests page replacement (clock algorithm)" (start_of "tst_page_replacement_clock");
    MkProgram "tpr3" "Tests page replacement (LRU algorithm)" (start_of "tst_page_replacement_lru");
    MkProgram "tpr4" "tests page replacement (handling new stack and modified pages)" (start_of "tst_page_replacement_stack");
    MkProgram "tm1" "tests malloc (1): start address & allocated frames" (start_of "tst_malloc_1");
    MkProgram "tm2" "tests malloc (2): writing & reading values in allocated spaces" (start_of "tst_malloc_2");
    MkProgram "tm3" "tests malloc (3): check memory allocation and WS after accessing" (start_of "tst_malloc_3");
    MkProgram "tf1" "tests free (1): freeing tables, WS and page file [placement case]" (start_of "tst_free_1");
    MkProgram "tf2" "tests free (2): try accessing values in freed spaces" (start_of "tst_free_2");
    MkProgram "tnf" "tests next fit: all cases" (start_of "tst_nextfit");
    MkProgram "tbf1" "tests best fit (1): always find suitable space" (start_of "tst_best_fit_1");
    MkProgram "tbf2" "tests best fit (2): no suitable space" (start_of "tst_best_fit_2");
    MkProgram "hp" "heap program (allocate and free from heap)" (start_of "heap_program");
    MkProgram "tqsfh" "Quicksort with freeHeap" (start_of "tst_quicksort_freeHeap");
    MkProgram "qs1" "Quicksort v.1" (start_of "quicksort1");
    MkProgram "qs2" "Quicksort v.2" (start_of "quicksort2");
    MkProgram "qs3" "Quicksort v.3" (start_of "quicksort3");
    MkProgram "qs4" "Quicksort v.4" (start_of "quicksort4");
    MkProgram "qs5" "Quicksort v.5" (start_of "quicksort5");
    MkProgram "fact" "Factorial Recursive" (start_of "fos_factorial");
    MkProgram "fib" "Fibonacci Recursive" (start_of "fos_fibonacci");
    MkProgram "qs" "Quicksort with NO memory leakage" (start_of "quicksort_noleakage");
    MkProgram "ms1" "Mergesort with NO memory leakage" (start_of "mergesort_noleakage");
    MkProgram "ms2" "Mergesort that cause memory leakage" (start_of "mergesort_leakage");
    MkProgram "tff1" "tests first fit (1): always find suitable space" (start_of "tst_first_fit_1");
    MkProgram "tff2" "tests first fit (2): no suitable space" (start_of "tst_first_fit_2");
    MkProgram "twf" "tests worst fit: all cases" (start_of "tst_worstfit");
    MkProgram "tr1" "tests realloc (1): normal cases" (start_of "tst_realloc_1");
    MkProgram "tr2" "tests realloc (2): special cases" (start_of "tst_realloc_2");
    MkProgram "tfr1" "tests freeRAM (1): run in specific scenario" (start_of "tst_freeRAM_1");
    MkProgram "tfr2" "tests freeRAM (2): run directly" (start_of "tst_freeRAM_2");
    MkProgram "tfifo1" "Tests page replacement (FIFO algorithm 1)" (start_of "tst_page_replacement_FIFO_1");
    MkProgram "tfifo2" "Tests page replacement (FIFO algorithm 2)" (start_of "tst_page_replacement_FIFO_2");
    MkProgram "tmodclk" "Tests page replacement (modified clock algorithm)" (start_of "tst_page_replacement_mod_clock")
  ]%string.
Definition get_user_program_info (start_of : string → Z) (user_program_name : string)
    : option UserProgramInfo :=
  List.find (λ p, String.eqb user_program_name (upi_name p)) (userPrograms start_of).
Definition get_user_program_info_by_env (start_of : string → Z) (e : Z)
    : K (option UserProgramInfo) :=
  x ← get_env e; mret (get_user_program_info start_of (prog_name x)).

(** ** The environment table *)
Definition allocate_environment : K (Z * option Z) :=
  first ← gets (λ s, lh_first (env_free_list (environments s)));
  match first with
  | None => mret (E_NO_FREE_ENV, None)
  | Some e => upd_env e (set_env_status ENV_UNKNOWN);; mret (0, Some e)
  end.

Definition free_environment (e : Z) : K unit :=
  upd_env e (λ _, inhabitant);;
  upd_env e (set_env_status ENV_FREE);;
  on_env_free_list (λ h l, LIST_INSERT_HEAD h l e).

(** [for(iEnv = NENV-1; iEnv >= 0; iEnv--)] *)
Definition env_init : K unit :=
  forM (reverse (seqZ 0 NENV)) (λ iEnv,
    upd_env iEnv (set_env_status ENV_FREE);;
    upd_env iEnv (set_env_id 0);;
    on_env_free_list (λ h l, LIST_INSERT_HEAD h l iEnv)).

(** kern/helpers.c; the return value and [*env_store]. *)
Definition envid2env (envid : Z) (checkperm : bool) : K (Z * option Z) :=
  if envid =? 0 then c ← gets (curenv ∘ environments); mret (0, c) else
  let e := ENVX envid in
  x ← get_env e;
  if (env_status x =? ENV_FREE) || negb (env_id x =? envid) then mret (E_BAD_ENV, None) else
  c ← gets (curenv ∘ environments);
  if checkperm && negb (bool_decide (c = Some e)) then
    cur ← curenv_ptr;
    y ← get_env cur;
    if negb (env_parent_id x =? env_id y) then mret (E_BAD_ENV, None) else mret (0, Some e)
  else mret (0, Some e).

Section Environment.
Context `{Extern}.

Definition create_user_page_WS (numOfElements : Z) : K Z :=
  kmalloc (u32 (numOfElements * SIZEOF_WorkingSetElement)).

Definition create_user_directory : K Z :=
  allocated ← kmalloc PAGE_SIZE;
  forM (seqZ 0 1024) (λ i, store_at allocated i 0);;
  mret allocated.

(** A fresh environment identifier for slot [e] whose last one is [old]. *)
Definition next_env_id (old e : Z) : Z :=
  let generation := s32 (Z.land (u32 (old + Z.shiftl 1 ENVGENSHIFT)) (not32 (NENV - 1))) in
  let generation := if generation <=? 0 then Z.shiftl 1 ENVGENSHIFT else generation in
  Z.lor generation e.

Definition complete_environment_initialization (e : Z) : K unit :=
  x ← get_env e;
  store_at (env_page_directory x) (PDX VPT)
    (Z.lor (Z.lor (env_cr3 x) PERM_PRESENT) PERM_WRITEABLE);;
  store_at (env_page_directory x) (PDX UVPT)
    (Z.lor (Z.lor (env_cr3 x) PERM_PRESENT) PERM_USER);;
  upd_env e (set_disk_env_pgdir 0);;
  upd_env e (set_disk_env_pgdir_PA 0);;
  upd_env e (set_disk_env_tabledir 0);;
  upd_env e (set_disk_env_tabledir_PA 0);;
  upd_env e (λ x, set_env_id (next_env_id (env_id x) e) x);;
  upd_env e (set_env_parent_id 0);;
  upd_env e (set_env_status ENV_NEW);;
  upd_env e (set_env_runs 0);;
  upd_env e (set_env_tf
    (set_tf_ds (Z.lor GD_UD 3) (set_tf_es (Z.lor GD_UD 3) (set_tf_ss (Z.lor GD_UD 3)
    (set_tf_esp USTACKTOP (set_tf_cs (Z.lor GD_UT 3) (set_tf_eflags FL_IF inhabitant)))))));;
  on_env_free_list (λ h l, LIST_REMOVE h l e).

(** [for(sva = start; sva < start + nBytes; sva+=step)] *)
Definition for_bytes (start nBytes step : Z) (f : Z → K unit) : K unit :=
  mloop (Z.to_nat (nBytes `div` step + 2)) (λ i,
    let sva := u32 (start + i * step) in
    if negb (sva <? u32 (start + nBytes)) then mret (inr tt) else f sva;; mret (inl (i + 1))) 0.

Definition empty_entry : WorkingSetElement := MkWSE 0 1 0.

Definition initialize_environment
    (e ptr_user_page_directory phys_user_page_directory : Z) : K unit :=
  upd_env e (set_env_page_directory ptr_user_page_directory);;
  upd_env e (set_env_cr3 phys_user_page_directory);;
  forM (seqZ 0 (PDX USER_TOP)) (λ i, store_at ptr_user_page_directory i 0);;
  pgdir ← gets (ptr_page_directory ∘ boot);
  for_range (PDX USER_TOP) 1024 (λ i,
    v ← load_at pgdir i; store_at ptr_user_page_directory i v);;
  upd_env e (set_uptr_pws USER_PAGES_WS_START);;
  x ← get_env e;
  ws ← create_user_page_WS (page_WS_max_size x);
  upd_env e (set_ptr_pageWorkingSet ws);;
  for_bytes ws (u32 (SIZEOF_WorkingSetElement * page_WS_max_size x)) PAGE_SIZE (λ sva,
    pa ← kheap_physical_address sva;
    f ← to_frame_info pa;
    map_frame ptr_user_page_directory f (u32 (USER_PAGES_WS_START + (sva - ws))) PERM_USER;;
    mret tt);;
  forM (seqZ 0 (page_WS_max_size x)) (λ i, ws_upd e i (λ _, empty_entry));;
  upd_env e (set_page_last_WS_index 0);;
  forM (seqZ 0 __TWS_MAX_SIZE) (λ i, tws_upd e i (λ _, empty_entry));;
  upd_env e (set_table_last_WS_index 0);;
  upd_env e (set_pageFaultsCounter 0);;
  upd_env e (set_tableFaultsCounter 0);;
  upd_env e (set_nModifiedPages 0);;
  upd_env e (set_nNotModifiedPages 0);;
  upd_env e (set_shared_free_address USER_SHARED_MEM_START);;
  complete_environment_initialization e.

(** ** ELF images (inc/elf.h) *)
Definition ELF_MAGIC : Z := 0x464C457F.
Definition ELF_PROG_LOAD : Z := 1.
Definition elf_field (elf offset : Z) : K Z := load (u32 (elf + offset)).
Definition e_entry (elf : Z) : K Z := elf_field elf 24.
Definition e_phoff (elf : Z) : K Z := elf_field elf 28.
Definition e_phnum (elf : Z) : K Z := w ← elf_field elf 44; mret (u16 w).
Definition check_magic (elf : Z) : K unit :=
  m ← elf_field elf 0;
  if negb (m =? ELF_MAGIC) then panic "Matafa2nash 3ala Keda" else mret tt.
(** Word [k] of program header [i]. *)
Definition ph_field (ph i k : Z) : K Z := load (u32 (ph + 32 * i + 4 * k)).

Record ProgramSegment := MkSegment {
  seg_ptr_start : Z; size_in_file : Z; size_in_memory : Z; seg_virtual_address : Z;
  segment_id : Z;
}.

(** From header [id] on, the first loadable one; [None] at the end of the table. *)
Definition program_segment_from (ptr_program_start id : Z) : K (option ProgramSegment) :=
  check_magic ptr_program_start;;
  phoff ← e_phoff ptr_program_start;
  let ph := u32 (ptr_program_start + phoff) in
  n ← e_phnum ptr_program_start;
  index ← mloop (Z.to_nat (n + 2)) (λ id,
    ty ← ph_field ph id 0;
    if negb (ty =? ELF_PROG_LOAD) && (id <? n) then mret (inl (id + 1)) else mret (inr id)) id;
  if index <? n then
    off ← ph_field ph index 1;
    memsz ← ph_field ph index 5;
    filesz ← ph_field ph index 4;
    va ← ph_field ph index 2;
    mret (Some (MkSegment (u32 (ptr_program_start + off)) filesz memsz va index))
  else mret None.
Definition PROGRAM_SEGMENT_FIRST (ptr_program_start : Z) : K (option ProgramSegment) :=
  program_segment_from ptr_program_start 0.
Definition PROGRAM_SEGMENT_NEXT (seg : ProgramSegment) (ptr_program_start : Z)
    : K (option ProgramSegment) :=
  program_segment_from ptr_program_start (segment_id seg + 1).

Definition set_environment_entry_point (e ptr_program_start : Z) : K unit :=
  check_magic ptr_program_start;;
  entry ← e_entry ptr_program_start;
  upd_env e (λ x, set_env_tf (set_tf_eip entry (env_tf x)) x).

(** [page_last_WS_index ++; page_last_WS_index %= page_WS_max_size] *)
Definition advance_page_index (e : Z) : K unit :=
  x ← get_env e;
  i ← next_index (page_last_WS_index x) (page_WS_max_size x);
  upd_env e (set_page_last_WS_index i).

(** The results are [*allocated_pages] and [*lastTableNumber]. *)
Definition program_segment_alloc_map_copy_workingset
    (e : Z) (seg : ProgramSegment) (remaining_ws_pages lastTableNumber : Z) : K (Z * Z) :=
  let vaddr := seg_virtual_address seg in
  let end_vaddr := ROUNDUP (u32 (vaddr + size_in_memory seg)) PAGE_SIZE in
  let iVA := ROUNDDOWN vaddr PAGE_SIZE in
  x ← get_env e;
  let remaining_ws_pages :=
    if (iVA =? 0x200000) && negb (String.eqb (prog_name x) "tpp")
    then (if remaining_ws_pages <? 6 then remaining_ws_pages else 6) else remaining_ws_pages in
  '(allocated_pages, lastTableNumber) ←
    mloop (Z.to_nat (remaining_ws_pages + 1)) (λ '(i, iVA, lastTableNumber),
      if negb ((iVA <? end_vaddr) && (i <? remaining_ws_pages))
      then mret (inr (i, lastTableNumber)) else
      p ← allocate_frame;
      loadtime_map_frame (env_page_directory x) p iVA (Z.lor PERM_USER PERM_WRITEABLE);;
      y ← get_env e;
      ws_upd e (page_last_WS_index y) (λ _, MkWSE iVA 0 0);;
      advance_page_index e;;
      when (negb (PDX iVA =? lastTableNumber))
        (addTableToTableWorkingSet e (ROUNDDOWN iVA PTSIZE);;
         z ← get_env e;
         if table_last_WS_index z =? 0 then
           panic "env_create: Table working set become FULL during the application loading"
         else mret tt);;
      mret (inl (i + 1, u32 (iVA + PAGE_SIZE), PDX iVA))) (0, iVA, lastTableNumber);
  let limit := u32 (ROUNDDOWN vaddr PAGE_SIZE + allocated_pages * PAGE_SIZE) in
  (** copy the file's bytes, then zeros, up to the end of the mapped pages *)
  forM (seqZ vaddr (Z.min limit (u32 (vaddr + size_in_file seg)) - vaddr)) (λ dst_ptr,
    b ← load8 (u32 (seg_ptr_start seg + (dst_ptr - vaddr))); store8 dst_ptr b);;
  let filled := Z.max vaddr (Z.min limit (u32 (vaddr + size_in_file seg))) in
  forM (seqZ filled (limit - filled)) (λ dst_ptr, store8 dst_ptr 0);;
  mret (allocated_pages, lastTableNumber).

Definition pf_add_or_panic (e va src : Z) : K unit :=
  r ← pf_add_env_page e va src;
  if r =? E_NO_PAGE_FILE_SPACE
  then panic "ERROR: Page File OUT OF SPACE. can't load the program in Page file!!" else mret tt.

(** [env_create], for one segment: the page file gets the first page, the whole pages after it,
    the last page of the file's part and the zero pages that follow. *)
Definition write_segment_to_page_file (e : Z) (seg : ProgramSegment) : K unit :=
  temp ← gets (ptr_temp_page ∘ boot);
  let dataSrc_va := seg_ptr_start seg in
  let seg_va := seg_virtual_address seg in
  let start_first_page := ROUNDDOWN seg_va PAGE_SIZE in
  let end_first_page := ROUNDUP seg_va PAGE_SIZE in
  let offset_first_page := u32 (seg_va - start_first_page) in
  memset0 temp 1024;;
  forM (seqZ 0 (end_first_page - seg_va)) (λ k,
    b ← load8 (u32 (dataSrc_va + k)); store8 (u32 (temp + offset_first_page + k)) b);;
  pf_add_or_panic e start_first_page temp;;
  let src_ptr := u32 (dataSrc_va + Z.max 0 (end_first_page - seg_va)) in
  let start_last_page := ROUNDDOWN (u32 (seg_va + size_in_file seg)) PAGE_SIZE in
  let end_last_page := u32 (seg_va + size_in_file seg) in
  let whole := Z.max 0 (start_last_page - end_first_page) `div` PAGE_SIZE in
  forM (seqZ 0 whole) (λ k,
    pf_add_or_panic e (u32 (end_first_page + k * PAGE_SIZE)) (u32 (src_ptr + k * PAGE_SIZE)));;
  let src_ptr := u32 (src_ptr + whole * PAGE_SIZE) in
  memset0 temp 1024;;
  forM (seqZ 0 (end_last_page - start_last_page)) (λ k,
    b ← load8 (u32 (src_ptr + k)); store8 (u32 (temp + k)) b);;
  pf_add_or_panic e start_last_page temp;;
  let start_remaining_area := ROUNDUP (u32 (seg_va + size_in_file seg)) PAGE_SIZE in
  let remainingLength := u32 (u32 (seg_va + size_in_memory seg) - start_remaining_area) in
  forM (seqZ 0 (ROUNDUP remainingLength PAGE_SIZE `div` PAGE_SIZE)) (λ k,
    r ← pf_add_empty_env_page e (u32 (start_remaining_area + k * PAGE_SIZE)) 1;
    if r =? E_NO_PAGE_FILE_SPACE
    then panic "ERROR: Page File OUT OF SPACE. can't load the program in Page file!!"
    else mret tt).

Definition load_segments (e ptr_program_start : Z) : K unit :=
  x ← get_env e;
  n ← e_phnum ptr_program_start;
  first ← PROGRAM_SEGMENT_FIRST ptr_program_start;
  mloop (Z.to_nat (n + 2)) (λ '(seg, remaining_ws_pages, lastTableNumber),
    match seg with
    | None => mret (inr tt)
    | Some seg =>
        '(allocated_pages, lastTableNumber) ←
          program_segment_alloc_map_copy_workingset e seg remaining_ws_pages lastTableNumber;
        write_segment_to_page_file e seg;;
        next ← PROGRAM_SEGMENT_NEXT seg ptr_program_start;
        mret (inl (next, u32 (remaining_ws_pages - allocated_pages), lastTableNumber))
    end) (first, u32 (page_WS_max_size x - 1), 0xffffffff).

Definition clear_modified_bits (e : Z) : K unit :=
  x ← get_env e;
  forM (seqZ 0 (page_WS_max_size x)) (λ i,
    w ← ws_get e i;
    when (ws_empty w =? 0)
      ('(_, t) ← get_page_table (env_page_directory x) (ws_virtual_address w);
       update_entry t (PTX (ws_virtual_address w)) (λ v, Z.land v (not32 PERM_MODIFIED)))).

(** The one stack page, [USTACKTOP - PAGE_SIZE]. *)
Definition allocate_stack (e : Z) : K unit :=
  x ← get_env e;
  let stackVa := USTACKTOP - PAGE_SIZE in
  pp ← allocate_frame;
  loadtime_map_frame (env_page_directory x) pp stackVa (Z.lor PERM_USER PERM_WRITEABLE);;
  memset0 stackVa 1024;;
  y ← get_env e;
  env_page_ws_set_entry e (page_last_WS_index y) stackVa;;
  advance_page_index e;;
  pf_add_empty_env_page e stackVa 1;;
  mret tt.

(** The result is the new environment, [None] for NULL. *)
Definition env_create (start_of : string → Z) (user_program_name : string) (page_WS_size : Z)
    : K (option Z) :=
  match get_user_program_info start_of user_program_name with
  | None => mret None
  | Some info =>
      '(r, e) ← allocate_environment;
      if r <? 0 then mret None else
      e ← read_local "e" e;
      upd_env e (set_prog_name (upi_name info));;
      dir ← create_user_directory;
      phys ← kheap_physical_address dir;
      upd_env e (set_page_WS_max_size page_WS_size);;
      initialize_environment e dir phys;;
      kern_phys_pgdir ← rcr3;
      x ← get_env e;
      lcr3 (env_cr3 x);;
      load_segments e (upi_ptr_start info);;
      clear_modified_bits e;;
      set_environment_entry_point e (upi_ptr_start info);;
      allocate_stack e;;
      lcr3 kern_phys_pgdir;;
      mret (Some e)
  end.

(** ** Running and freeing *)
(** [env_pop_tf] restores the registers of the environment and leaves the kernel.  env_run first calls
    kclock_resume, which programs the timer through its ports ([kclock_resume] of Devices.v) and
    touches no variable of the kernel: [KState] has no ports, and the call is left out here. *)
Definition env_pop_tf {A} (e : Z) : K A := λ s, Leave (Some e) s.
Definition env_run {A} (e : Z) : K A :=
  c ← gets (curenv ∘ environments);
  when (negb (bool_decide (c = Some e)))
    (modify (on_environments (set_curenv (Some e)));;
     upd_env e (λ x, set_env_runs (u32 (env_runs x + 1)) x);;
     x ← get_env e;
     lcr3 (env_cr3 x));;
  env_pop_tf e.

Definition __remove_pws_user_pages (e : Z) : K unit :=
  x ← get_env e;
  let nBytes := u32 (SIZEOF_WorkingSetElement * page_WS_max_size x) in
  for_bytes (uptr_pws x) nBytes PAGE_SIZE (λ sva, unmap_frame (env_page_directory x) sva);;
  for_bytes (uptr_pws x) nBytes PTSIZE (λ tsva,
    '(_, uws_table) ← get_page_table (env_page_directory x) tsva;
    kfree uws_table;;
    store_at (env_page_directory x) (PDX tsva) 0);;
  tlbflush.

Definition env_free (e : Z) : K unit :=
  __remove_pws_user_pages e;;
  x ← get_env e;
  forM (seqZ 0 (page_WS_max_size x)) (λ i,
    va ← env_page_ws_get_virtual_address e i;
    w ← ws_get e i;
    when (ws_empty w =? 0) (unmap_frame (env_page_directory x) va));;
  kfree (ptr_pageWorkingSet x);;
  forM (seqZ 0 (PDX USER_TOP)) (λ i,
    pa ← load_at (env_page_directory x) i;
    when (negb (pa =? 0)) (va ← kheap_virtual_address pa; kfree va));;
  kfree (env_page_directory x);;
  pf_free_env e;;
  free_environment e.

Definition __env_free_with_buffering (e : Z) : K unit := mret tt.
Definition start_env_free (e : Z) : K unit :=
  buffering ← isBufferingEnabled;
  if (buffering : bool) then __env_free_with_buffering e else env_free e.

(** Frames of [e] on the modified list go back to the free list. *)
Definition cleanup_buffers (e : Z) : K unit :=
  foreach_frame (λ s, lh_first (modified_frame_list (frames s))) (λ f,
    x ← get_frame f;
    when (bool_decide (fi_environment x = Some e))
      (pt_clear_page_table_entry e (fi_va x);;
       bufferlist_remove_page f;;
       free_frame f)).
End Environment.

Definition env_destroy (e : Z) : K unit := panic "env_destroy() is obsoleted since 2015!".
Definition env_run_cmd_prmpt : K unit :=
  panic "env_run_cmd_prmpt() is obsoleted since 2015! use env_exit() instead".
