(* ===== verification/UserEnvSpec.v ===== *)
(** * What the environment table promises

    env_init links the slots in order; identifiers are looked up by masking with NENV - 1, and
    NENV, 1379, is not a power of two: most identifiers cannot be found again, and a slot that is
    freed hands out the identifier it had before. *)
From S2P Require Import Prelude Machine Queue State PageFlags FrameAlloc FrameAllocSpec Paging KHeap PageFile WorkingSet Fault UserEnv.

Lemma NENV_eq : NENV = 1379.
Proof. reflexivity. Qed.

Definition env_at (s : KState) (e : Z) : Env := envs (environments s) !!! e.
Definition env_free_slots (s : KState) (xs : list Z) : Prop :=
  dll (envs (environments s)) (env_free_list (environments s)) xs.

Lemma env_strip_fields (x y : Env) :
  strip x = strip y → env_id x = env_id y ∧ env_status x = env_status y.
Proof.
  intros Hs. pose proof (f_equal env_id Hs) as H1. pose proof (f_equal env_status Hs) as H2.
  by destruct x, y.
Qed.

(** ** Identifiers *)
(** The identifier of a slot that never had one. *)
Lemma next_env_id_first e : next_env_id 0 e = Z.lor (Z.shiftl 1 ENVGENSHIFT) e.
Proof. reflexivity. Qed.
Lemma next_env_id_first_sum e : 0 ≤ e < NENV → next_env_id 0 e = 4096 + e.
Proof.
  rewrite NENV_eq. intros He. rewrite next_env_id_first. change (Z.shiftl 1 ENVGENSHIFT) with 4096.
  rewrite <-Z.add_lor_land.
  assert (Z.land 4096 e = 0) as ->; [|lia].
  apply Z.bits_inj'. intros n Hn. rewrite Z.land_spec, Z.bits_0. change 4096 with (2 ^ 12).
  destruct (decide (n = 12)) as [->|].
  - rewrite andb_comm. rewrite (Z.bits_above_log2 e); [done|lia|].
    destruct (decide (e = 0)) as [->|]; [done|]. apply Z.log2_lt_pow2; lia.
  - by rewrite Z.pow2_bits_false by lia.
Qed.
(** The slot envid2env looks at. *)
Lemma ENVX_first e : 0 ≤ e < NENV → ENVX (next_env_id 0 e) = Z.land e (NENV - 1).
Proof.
  intros He. rewrite next_env_id_first_sum by done. rewrite NENV_eq in *. unfold ENVX. rewrite NENV_eq.
  rewrite u32_small by (unfold is_u32; lia). apply Z.bits_inj'. intros n Hn. rewrite !Z.land_spec.
  destruct (decide (n < 12)).
  - f_equal. rewrite <-(Z.mod_pow2_bits_low (4096 + e) 12 n), <-(Z.mod_pow2_bits_low e 12 n) by done.
    f_equal. change (2 ^ 12) with 4096. clear -He. zdiv.
  - rewrite (Z.bits_above_log2 (1379 - 1) n); [by rewrite !andb_false_r|lia|].
    change (Z.log2 (1379 - 1)) with 10. lia.
Qed.

(** ** Properties *)

(** C27: looking up an identifier of the first generation succeeds only for the slots whose number
    has no bit outside NENV - 1: for every other slot envid2env answers E_BAD_ENV as long as the
    slot that the mask designates is free or has an identifier of its own; 32 of the 1379 slots can
    be looked up. *)
Theorem envid2env_finds_few s e check :
  0 ≤ e < NENV →
  (∀ i, 0 ≤ i < NENV → env_status (env_at s i) = ENV_FREE ∨ env_id (env_at s i) = next_env_id 0 i) →
  Z.land e (NENV - 1) ≠ e →
  envid2env (next_env_id 0 e) check s = Ret (E_BAD_ENV, None) s ∧
  length (filter (λ i, Z.land i (NENV - 1) = i) (seqZ 0 NENV)) = 32%nat.
Proof.
  intros He Hids Hmask. split; [|vm_compute; reflexivity].
  unfold envid2env. rewrite (proj2 (Z.eqb_neq _ _)) by (rewrite next_env_id_first_sum by done; lia).
  unfold get_env. rewrite bind_gets, ENVX_first by done. fold (env_at s (Z.land e (NENV - 1))).
  assert (0 ≤ Z.land e (NENV - 1) < NENV) as Hr.
  { rewrite NENV_eq in *. split; [apply Z.land_nonneg; lia|].
    assert (0 ≤ Z.ldiff e (1379 - 1)) by (apply Z.ldiff_nonneg; lia).
    pose proof (Z.add_lor_land (Z.ldiff e (1379 - 1)) (Z.land e (1379 - 1))) as Hl.
    rewrite Z.lor_ldiff_and in Hl.
    assert (Z.land (Z.ldiff e (1379 - 1)) (Z.land e (1379 - 1)) = 0) as Hz.
    { apply Z.bits_inj'. intros n Hn. rewrite !Z.land_spec, Z.ldiff_spec, Z.bits_0.
      by destruct (Z.testbit e n), (Z.testbit (1379 - 1) n). }
    lia. }
  destruct (Hids _ Hr) as [-> | Hid]; [done|]. rewrite Hid.
  rewrite (proj2 (Z.eqb_neq (next_env_id 0 _) (next_env_id 0 e))).
  { by rewrite orb_true_r. }
  rewrite !next_env_id_first_sum by done. lia.
Qed.

(** Freeing an environment clears its slot, identifier included, and puts the slot at the head
    of the free list: the next environment is created in the same slot and, the generation count
    being lost, gets the identifier every first occupant of the slot has. *)
Theorem freed_identifier_reused s e xs :
  env_free_slots s xs → e ∉ xs →
  ∃ s1 s2, free_environment e s = Ret tt s1 ∧ env_free_slots s1 (e :: xs) ∧
    allocate_environment s1 = Ret (0, Some e) s2 ∧
    next_env_id (env_id (env_at s2 e)) e = next_env_id 0 e ∧
    (∀ i, i ≠ e → i ∉ xs → env_at s2 i = env_at s i).
Proof.
  intros Hd He. unfold free_environment, upd_env. rewrite !bind_modify.
  set (s0 := on_environments _ (on_environments _ s)).
  assert (env_free_slots s0 xs) as Hd0 by (by apply dll_insert_other, dll_insert_other).
  pose proof (dll_insert_head (envs (environments s0)) (env_free_list (environments s0)) xs e Hd0 He) as Hi.
  unfold on_env_free_list, modify, on_environments at 1.
  destruct (LIST_INSERT_HEAD (envs (environments s0)) (env_free_list (environments s0)) e) as [h l] eqn:Hins.
  destruct Hi as [Hd1 [Hr Ho]].
  eexists _, _. split_and!; [done|exact Hd1| | |].
  - unfold allocate_environment. rewrite bind_gets. cbn [environments set_environments env_free_list set_env_free_list set_envs].
    destruct Hd1 as (-> & _). cbn [hd_or]. unfold upd_env. by rewrite bind_modify.
  - unfold env_at. cbn. rewrite array_get_set_eq.
    assert (env_id (h !!! e) = 0) as Hz.
    { specialize (Hr e). unfold s0 in Hr. cbn in Hr. rewrite array_get_set_eq in Hr.
      rewrite array_get_set_eq in Hr.
      by destruct (env_strip_fields _ _ Hr) as [-> _]. }
    by cbn; rewrite Hz.
  - intros i Hi Hx. unfold env_at. cbn. rewrite array_get_set_ne by done.
    rewrite Ho by (rewrite elem_of_cons; tauto). unfold s0. cbn. by rewrite !array_get_set_ne by done.
Qed.

(** Env_init links the 1379 slots in order, all free and without an identifier, so that
    allocation hands out slot 0 first. *)
Theorem env_init_links_all_slots s :
  env_free_slots s [] →
  ∃ s', env_init s = Ret tt s' ∧ env_free_slots s' (seqZ 0 NENV) ∧
    ∀ i, 0 ≤ i < NENV → env_status (env_at s' i) = ENV_FREE ∧ env_id (env_at s' i) = 0.
Proof.
  intros H0. unfold env_init.
  destruct (forM_ind (λ done s', env_free_slots s' (reverse done) ∧
    ∀ i, i ∈ done → env_status (env_at s' i) = ENV_FREE ∧ env_id (env_at s' i) = 0)
    (λ iEnv, upd_env iEnv (set_env_status ENV_FREE);; upd_env iEnv (set_env_id 0);;
             on_env_free_list (λ h l, LIST_INSERT_HEAD h l iEnv)) (reverse (seqZ 0 NENV)) s)
    as (s' & Hs' & Hd & Hi).
  - split; [done|]. intros i Hi. by apply not_elem_of_nil in Hi.
  - intros dn x todo s1 Heq [Hd Hi]. unfold upd_env. rewrite !bind_modify.
    set (s2 := on_environments _ (on_environments _ s1)).
    assert (x ∉ dn) as Hx.
    { assert (NoDup (dn ++ x :: todo)) as Hnd by (rewrite <-Heq; rewrite reverse_Permutation; apply NoDup_seqZ).
      by apply NoDup_mid in Hnd as (_ & _ & ? & _). }
    clear Heq todo.
    assert (x ∉ reverse dn) as Hxr by (by rewrite elem_of_reverse).
    assert (env_free_slots s2 (reverse dn)) as Hd2 by (by apply dll_insert_other, dll_insert_other).
    pose proof (dll_insert_head (envs (environments s2)) (env_free_list (environments s2)) (reverse dn) x Hd2 Hxr) as Hin.
    unfold on_env_free_list, modify, on_environments at 1.
    destruct (LIST_INSERT_HEAD (envs (environments s2)) (env_free_list (environments s2)) x) as [h l].
    destruct Hin as [Hd3 [Hr _]]. eexists. split; [done|]. split; [by rewrite reverse_app|].
    intros i Hin. specialize (Hr i).
    destruct (env_strip_fields _ _ Hr) as [H1 H2]. unfold env_at. cbn. rewrite H1, H2. unfold s2. cbn.
    destruct (decide (x = i)) as [<-|]; [by rewrite !array_get_set_eq|rewrite !array_get_set_ne by done].
    apply elem_of_app in Hin as [Hin|Hin%list_elem_of_singleton]; [by apply Hi|by subst].
  - exists s'. rewrite reverse_involutive in Hd. split_and!; [exact Hs'|exact Hd|].
    intros i Hr. apply Hi. rewrite elem_of_reverse, elem_of_seqZ. lia.
Qed.

(** ** Witnesses *)
(** Slot 1 was taken first, the others are free. *)
Definition one_env : KState :=
  on_environments (set_envs {[1 := set_env_id (next_env_id 0 1) (set_env_status ENV_NEW inhabitant)]}) inhabitant.
Lemma envid2env_finds_few_witness :
  envid2env (next_env_id 0 1) false one_env = Ret (E_BAD_ENV, None) one_env.
Proof.
  apply (envid2env_finds_few one_env 1 false); [by vm_compute| |by vm_compute].
  intros i _. destruct (decide (1 = i)) as [<-|]; [right; reflexivity|left].
  unfold env_at. cbn. by rewrite lookup_total_singleton_ne.
Defined.
Lemma freed_identifier_reused_witness :
  ∃ s1 s2, free_environment 1 one_env = Ret tt s1 ∧ allocate_environment s1 = Ret (0, Some 1) s2 ∧
    next_env_id (env_id (env_at s2 1)) 1 = env_id (env_at one_env 1).
Proof.
  destruct (freed_identifier_reused one_env 1 []) as (s1 & s2 & H1 & _ & H2 & Hid & _);
    [unfold env_free_slots, dll; split_and!; try done; constructor|apply not_elem_of_nil|].
  exists s1, s2. split_and!; [exact H1|exact H2|exact Hid].
Defined.
Lemma env_init_links_all_slots_witness :
  ∃ s', env_init inhabitant = Ret tt s' ∧ env_free_slots s' (seqZ 0 NENV).
Proof.
  destruct (env_init_links_all_slots inhabitant) as (s' & H1 & H2 & _);
    [unfold env_free_slots, dll; split_and!; try done; constructor|].
  exists s'. split; [exact H1|exact H2].
Defined.
