(* ===== verification/Sched.v ===== *)
(** * The scheduler: kern/sched.c and env_exit of kern/user_environment.c

    Three queues of environments threaded through [envs]; [sched_next] is the environment the
    round robin runs next, a member of the ready queue or NULL when that queue is empty. *)
From S2P Require Import Prelude Machine Queue State PageFlags FrameAlloc Paging KHeap PageFile WorkingSet Fault UserEnv.

Definition SCH_STOPPED : Z := 0.
Definition SCH_STARTED : Z := 1.

Inductive queue_name := ReadyQueue | NewQueue | ExitQueue.
Definition queue_of (q : queue_name) (r : Sched) : ListHead :=
  match q with
  | ReadyQueue => env_ready_queue r | NewQueue => env_new_queue r | ExitQueue => env_exit_queue r
  end.
Definition set_queue (q : queue_name) (l : ListHead) (r : Sched) : Sched :=
  match q with
  | ReadyQueue => set_env_ready_queue l r
  | NewQueue => set_env_new_queue l r
  | ExitQueue => set_env_exit_queue l r
  end.
(** A macro of queue.h on one of the queues. *)
Definition on_queue (q : queue_name)
    (op : gmap Z Env → ListHead → gmap Z Env * ListHead) : K unit :=
  modify (λ s,
    let '(h, l) := op (envs (environments s)) (queue_of q (sched s)) in
    on_sched (set_queue q l) (on_environments (set_envs h) s)).
Definition get_sched_next : K (option Z) := gets (sched_next ∘ sched).
Definition put_sched_next (e : option Z) : K unit := modify (on_sched (set_sched_next e)).

Definition sched_init : K unit :=
  modify (on_sched (set_env_ready_queue (MkListHead None None 0)));;
  modify (on_sched (set_env_new_queue (MkListHead None None 0)));;
  modify (on_sched (set_env_exit_queue (MkListHead None None 0)));;
  put_sched_next None;;
  modify (on_sched (set_scheduler_status SCH_STOPPED)).

Definition sched_next_circular (env : option Z) : K (option Z) :=
  match env with
  | None => mret None
  | Some e =>
      h ← gets (envs ∘ environments);
      match LIST_NEXT h e with
      | Some n => mret (Some n)
      | None => gets (λ s, lh_first (env_ready_queue (sched s)))
      end
  end.

(** [while (1) run_command_prompt(NULL)] *)
Definition back_to_prompt {A} : K A := λ s, Leave None s.

(** Back to the command prompt when nothing is ready; neither branch returns. *)
Definition fos_scheduler {A} : K A :=
  modify (on_sched (set_scheduler_status SCH_STARTED));;
  current_env ← get_sched_next;
  next ← sched_next_circular current_env;
  put_sched_next next;;
  match current_env return K A with
  | Some e => env_run e
  | None =>
      modify (on_environments (set_curenv None));;
      p ← gets (phys_page_directory ∘ boot);
      lcr3 p;;
      modify (on_sched (set_scheduler_status SCH_STOPPED));;
      back_to_prompt
  end.

Definition sched_insert_ready (env : Z) : K unit :=
  upd_env env (set_env_status ENV_READY);;
  next ← get_sched_next;
  match next with
  | Some n => on_queue ReadyQueue (λ h l, LIST_INSERT_BEFORE h l n env)
  | None =>
      on_queue ReadyQueue (λ h l, LIST_INSERT_TAIL h l env);;
      put_sched_next (Some env)
  end.

Definition sched_remove_ready (env : Z) : K unit :=
  next ← get_sched_next;
  when (bool_decide (next = Some env))
    (n ← sched_next_circular (Some env);
     put_sched_next n;;
     when (bool_decide (n = Some env)) (put_sched_next None));;
  on_queue ReadyQueue (λ h l, LIST_REMOVE h l env);;
  upd_env env (set_env_status ENV_UNKNOWN).

Definition sched_insert_new (env : Z) : K unit :=
  upd_env env (set_env_status ENV_NEW);;
  on_queue NewQueue (λ h l, LIST_INSERT_TAIL h l env).
Definition sched_remove_new (env : Z) : K unit :=
  on_queue NewQueue (λ h l, LIST_REMOVE h l env);;
  upd_env env (set_env_status ENV_UNKNOWN).
Definition sched_insert_exit (env : Z) : K unit :=
  upd_env env (set_env_status ENV_EXIT);;
  on_queue ExitQueue (λ h l, LIST_INSERT_TAIL h l env).
Definition sched_remove_exit (env : Z) : K unit :=
  on_queue ExitQueue (λ h l, LIST_REMOVE h l env);;
  upd_env env (set_env_status ENV_UNKNOWN).

Definition sched_new_env (e : option Z) : K unit :=
  match e with Some e => sched_insert_new e | None => mret tt end.

(** LIST_FOREACH over a queue. *)
Definition queue_fuel : nat := Z.to_nat (NENV + 1).
Definition foreach_env (q : queue_name) (f : Z → K unit) : K unit :=
  x ← gets (λ s, lh_first (queue_of q (sched s)));
  list_foreach (envs ∘ environments) queue_fuel x f.
(** The first environment of the queue with identifier [envId]: [f] runs on it and the loop is
    left ([true]); [false] when there is none. *)
Definition on_env_with_id (q : queue_name) (envId : Z) (f : Z → K unit) : K bool :=
  x ← gets (λ s, lh_first (queue_of q (sched s)));
  list_loop (envs ∘ environments) queue_fuel x tt
    (λ _ e, y ← get_env e;
      if u32 (env_id y) =? u32 envId then f e;; mret (inr true) else mret (inl tt))
    (λ _, false).

Definition if_stopped_run_scheduler : K unit :=
  st ← gets (scheduler_status ∘ sched);
  when (st =? SCH_STOPPED) fos_scheduler.

Definition sched_run_all : K unit :=
  foreach_env NewQueue (λ e, sched_remove_new e;; sched_insert_ready e);;
  if_stopped_run_scheduler.

Definition sched_run_env (envId : Z) : K unit :=
  on_env_with_id NewQueue envId (λ e,
    sched_remove_new e;; sched_insert_ready e;; if_stopped_run_scheduler);;
  mret tt.

Section Scheduler.
Context `{Extern}.

Definition sched_kill_all {A} : K A :=
  foreach_env NewQueue (λ e, sched_remove_new e;; start_env_free e);;
  foreach_env ReadyQueue (λ e, sched_remove_ready e;; start_env_free e);;
  foreach_env ExitQueue (λ e, sched_remove_exit e;; start_env_free e);;
  fos_scheduler.

Definition exit_cleanup (e : Z) : K unit :=
  buffering ← isBufferingEnabled; when buffering (cleanup_buffers e).
(** [curenv->env_id == envId] *)
Definition curenv_has_id (envId : Z) : K bool :=
  c ← curenv_ptr; y ← get_env c; mret (u32 (env_id y) =? u32 envId).

Definition sched_exit_env (envId : Z) : K unit :=
  done ← on_env_with_id NewQueue envId (λ e,
    sched_remove_new e;; sched_insert_exit e;; exit_cleanup e);
  if done : bool then mret tt else
  on_env_with_id ReadyQueue envId (λ e,
    sched_remove_ready e;; sched_insert_exit e;; exit_cleanup e;;
    cur ← curenv_has_id envId;
    when cur fos_scheduler);;
  mret tt.

Definition sched_kill_env (envId : Z) : K unit :=
  done ← on_env_with_id NewQueue envId (λ e, sched_remove_new e;; start_env_free e);
  if done : bool then mret tt else
  done ← on_env_with_id ReadyQueue envId (λ e,
    sched_remove_ready e;; start_env_free e;;
    cur ← curenv_has_id envId;
    when cur
      (p ← gets (phys_page_directory ∘ boot);
       lcr3 p;;
       modify (on_environments (set_curenv None));;
       fos_scheduler));
  if done : bool then mret tt else
  on_env_with_id ExitQueue envId (λ e, sched_remove_exit e;; start_env_free e);;
  mret tt.

Definition clock_interrupt_handler {A} : K A :=
  lru ← isPageReplacmentAlgorithmLRU;
  when lru update_WS_time_stamps;;
  fos_scheduler.

(** kern/user_environment.c *)
Definition env_exit {A} : K A :=
  c ← curenv_ptr;
  x ← get_env c;
  sched_exit_env (env_id x);;
  fos_scheduler.
End Scheduler.
