(* ===== verification/SchedSpec.v ===== *)
(** * What the scheduler promises

    The ready queue and [sched_next] represent one sequence, the order in which the ready
    environments get the processor ([turns]): a new environment goes to its end, a removed one
    leaves it, and a scheduling decision runs its head and moves it to the end. *)
From S2P Require Import Prelude Machine Queue State PageFlags FrameAlloc FrameAllocSpec Paging KHeap PageFile WorkingSet Fault UserEnv Sched.

(** The ready queue is [xs ++ ys], the next environment to run is the head of [ys]. *)
Definition turns (s : KState) (ts : list Z) : Prop :=
  ∃ xs ys, ts = ys ++ xs ∧
    dll (envs (environments s)) (env_ready_queue (sched s)) (xs ++ ys) ∧
    sched_next (sched s) = hd_or None ys ∧ (ys = [] → xs = []).

Lemma turns_NoDup s ts : turns s ts → NoDup ts.
Proof.
  intros (xs & ys & -> & (_ & _ & _ & Hnd & _) & _). apply NoDup_app in Hnd as (H1 & Hd & H2).
  apply NoDup_app. split_and!; [done| |done]. intros x Hy Hx. by apply (Hd x).
Qed.

(** Changing fields of nodes but not their links. *)
Lemma dll_agree {E} `{LinkedNode E} (h h' : gmap Z E) l xs :
  (∀ x, x ∈ xs → LIST_NEXT h' x = LIST_NEXT h x ∧ LIST_PREV h' x = LIST_PREV h x) →
  dll h l xs → dll h' l xs.
Proof. intros Ha (? & ? & ? & ? & Hs). split_and!; try done. by eapply dseg_agree. Qed.

(** ** Where the round goes on *)
Lemma dll_next {E} `{LinkedNode E} (h : gmap Z E) l xs x ys :
  dll h l (xs ++ x :: ys) → LIST_NEXT h x = hd_or None ys.
Proof. intros (_ & _ & _ & _ & Hs). apply dseg_app in Hs as [_ (_ & Hn & _)]. done. Qed.

Lemma sched_next_circular_spec s xs e ys :
  dll (envs (environments s)) (env_ready_queue (sched s)) (xs ++ e :: ys) →
  sched_next_circular (Some e) s =
    Ret (match ys with [] => hd_or None (xs ++ [e]) | y :: _ => Some y end) s.
Proof.
  intros Hd. unfold sched_next_circular. rewrite bind_gets. cbn [compose].
  rewrite (dll_next _ _ _ _ _ Hd). destruct ys as [|y ys]; [|done]. cbn.
  destruct Hd as (Hf & _). unfold gets. by rewrite Hf.
Qed.

(** ** The operations *)
Lemma insert_ready_turns s ts e :
  turns s ts → e ∉ ts → ∃ s', sched_insert_ready e s = Ret tt s' ∧ turns s' (ts ++ [e]).
Proof.
  intros (xs & ys & -> & Hd & Hn & Hys) He. rewrite elem_of_app in He.
  unfold sched_insert_ready, upd_env. rewrite bind_modify. set (s1 := on_environments _ s).
  assert (dll (envs (environments s1)) (env_ready_queue (sched s1)) (xs ++ ys)) as Hd1.
  { apply dll_insert_other; [rewrite elem_of_app; tauto|done]. }
  unfold get_sched_next. rewrite bind_gets. cbn [compose]. change (sched s1) with (sched s). rewrite Hn.
  destruct ys as [|n ys]; cbn [hd_or].
  - rewrite (Hys eq_refl) in *.
    pose proof (dll_insert_tail (envs (environments s1)) (env_ready_queue (sched s1)) [] e Hd1 ltac:(apply not_elem_of_nil)) as Hi.
    unfold on_queue. rewrite bind_modify. cbn [queue_of].
    destruct (LIST_INSERT_TAIL (envs (environments s1)) (env_ready_queue (sched s1)) e) as [h l].
    destruct Hi as [Hi _]. eexists. split; [done|]. by exists [], [e].
  - pose proof (dll_insert_before (envs (environments s1)) (env_ready_queue (sched s1)) xs n ys e Hd1) as Hi.
    unfold on_queue, modify. cbn [queue_of].
    destruct (LIST_INSERT_BEFORE (envs (environments s1)) (env_ready_queue (sched s1)) n e) as [h l].
    destruct Hi as [Hi _]; [rewrite elem_of_app; tauto|].
    eexists. split; [done|]. exists (xs ++ [e]), (n :: ys). split_and!; [by rewrite app_assoc| |done|done].
    by rewrite <-app_assoc.
Qed.

(** Removing [e], whose successor in the round is already [sched_next] if it was next. *)
Lemma remove_ready_tail s xs e ys :
  dll (envs (environments s)) (env_ready_queue (sched s)) (xs ++ e :: ys) →
  ∃ s', (on_queue ReadyQueue (λ h l, LIST_REMOVE h l e);; upd_env e (set_env_status ENV_UNKNOWN)) s = Ret tt s' ∧
    dll (envs (environments s')) (env_ready_queue (sched s')) (xs ++ ys) ∧
    sched_next (sched s') = sched_next (sched s).
Proof.
  intros Hd. pose proof Hd as (_ & _ & _ & (_ & _ & Hxs & Hys & _)%NoDup_mid & _).
  pose proof (dll_remove _ _ xs e ys Hd) as Hr. unfold on_queue. rewrite bind_modify. cbn [queue_of].
  destruct (LIST_REMOVE (envs (environments s)) (env_ready_queue (sched s)) e) as [h l].
  destruct Hr as [Hr _]. eexists. split; [done|]. split; [|done].
  apply dll_insert_other; [rewrite elem_of_app; tauto|done].
Qed.

(** The first part of sched_remove_ready: [sched_next] moves on if it was [e]. *)
Definition move_next (e : Z) : K unit :=
  next ← get_sched_next;
  when (bool_decide (next = Some e))
    (n ← sched_next_circular (Some e);
     put_sched_next n;;
     when (bool_decide (n = Some e)) (put_sched_next None)).
Lemma move_next_other s e n :
  sched_next (sched s) = Some n → n ≠ e → move_next e s = Ret tt s.
Proof.
  intros Hn Hne. unfold move_next, get_sched_next. rewrite bind_gets. cbn [compose]. rewrite Hn.
  by rewrite bool_decide_eq_false_2 by congruence.
Qed.
Lemma move_next_self s xs e ys :
  dll (envs (environments s)) (env_ready_queue (sched s)) (xs ++ e :: ys) →
  sched_next (sched s) = Some e →
  move_next e s = Ret tt (on_sched (set_sched_next (hd_or None (ys ++ xs))) s).
Proof.
  intros Hd Hn. unfold move_next, get_sched_next. rewrite bind_gets. cbn [compose]. rewrite Hn.
  rewrite bool_decide_eq_true_2 by done. cbn [when]. mstep (sched_next_circular_spec s xs e ys Hd).
  unfold put_sched_next. rewrite bind_modify.
  pose proof Hd as (_ & _ & _ & (_ & _ & Hxs & Hys & _)%NoDup_mid & _).
  destruct ys as [|y ys].
  - destruct xs as [|x xs]; cbn; [by rewrite bool_decide_eq_true_2|].
    rewrite bool_decide_eq_false_2; [done|]. intros [= ->]. apply Hxs. by left.
  - rewrite bool_decide_eq_false_2; [done|]. intros [= ->]. apply Hys. by left.
Qed.
Lemma sched_remove_ready_eq e s :
  sched_remove_ready e s =
    (move_next e;; on_queue ReadyQueue (λ h l, LIST_REMOVE h l e);; upd_env e (set_env_status ENV_UNKNOWN)) s.
Proof. unfold sched_remove_ready, move_next. by rewrite bind_assoc. Qed.

Definition without (e : Z) (ts : list Z) : list Z := filter (λ x : Z, x ≠ e) ts.
Lemma without_notin e xs : e ∉ xs → without e xs = xs.
Proof.
  unfold without. induction xs as [|x xs IH]; intros He; [done|]. rewrite not_elem_of_cons in He.
  rewrite filter_cons_True by naive_solver. by rewrite IH by tauto.
Qed.
Lemma without_app e xs ys : without e (xs ++ ys) = without e xs ++ without e ys.
Proof. apply filter_app. Qed.
Lemma without_cons e xs : without e (e :: xs) = without e xs.
Proof. unfold without. by rewrite filter_cons_False by tauto. Qed.

Lemma remove_ready_turns s ts e :
  turns s ts → e ∈ ts → ∃ s', sched_remove_ready e s = Ret tt s' ∧ turns s' (without e ts).
Proof.
  intros (xs & ys & -> & Hd & Hn & Hys) He. rewrite sched_remove_ready_eq.
  destruct ys as [|n ys]; [rewrite (Hys eq_refl) in He; by apply not_elem_of_nil in He|].
  destruct (decide (n = e)) as [->|Hne].
  - mstep (move_next_self s xs e ys Hd Hn).
    destruct (remove_ready_tail (on_sched (set_sched_next (hd_or None (ys ++ xs))) s) xs e ys Hd)
      as (s' & Hs' & Hd' & Hn').
    exists s'. split; [done|]. pose proof Hd as (_ & _ & _ & (_ & _ & Hxs & Hyx & _)%NoDup_mid & _).
    cbn [app]. rewrite without_cons, without_app, !without_notin by done.
    destruct ys as [|y ys]; [|by exists xs, (y :: ys)].
    exists [], xs. cbn in *. rewrite app_nil_r in *. done.
  - mstep (move_next_other s e n Hn Hne). pose proof Hd as (_ & _ & _ & Hnd & _).
    assert (e ∈ xs ++ n :: ys) as Hin by (rewrite elem_of_app in *; tauto).
    rewrite elem_of_app, elem_of_cons in Hin. destruct Hin as [Hx|[->|Hy]]; [|done|].
    + destruct (list_elem_of_split xs e Hx) as (x1 & x2 & ->). rewrite <-app_assoc, <-app_comm_cons in Hd, Hnd.
      destruct (remove_ready_tail s x1 e (x2 ++ n :: ys) Hd) as (s' & Hs' & Hd' & Hn').
      exists s'. split; [done|]. apply NoDup_mid in Hnd as (_ & _ & H1 & H2 & _).
      rewrite elem_of_app in H2. exists (x1 ++ x2), (n :: ys).
      rewrite !without_app, without_cons, !without_notin by tauto. rewrite <-!app_assoc.
      split_and!; [done|done|by rewrite Hn'|done].
    + destruct (list_elem_of_split ys e Hy) as (y1 & y2 & ->).
      change (xs ++ n :: y1 ++ e :: y2) with (xs ++ (n :: y1) ++ e :: y2) in Hd, Hnd. rewrite app_assoc in Hd, Hnd.
      destruct (remove_ready_tail s (xs ++ n :: y1) e y2 Hd) as (s' & Hs' & Hd' & Hn').
      exists s'. split; [done|]. apply NoDup_mid in Hnd as (_ & _ & H1 & H2 & _).
      rewrite elem_of_app, elem_of_cons in H1. exists xs, (n :: y1 ++ y2).
      change (n :: y1 ++ e :: y2) with ((n :: y1) ++ e :: y2).
      rewrite !without_app, without_cons, !without_notin by (rewrite ?elem_of_cons; tauto).
      rewrite <-app_assoc in Hd'. split_and!; [done|done|by rewrite Hn'|done].
Qed.

(** fos_scheduler never returns: it leaves with the environment it runs. *)
Lemma scheduler_turns s n ts :
  turns s (n :: ts) →
  ∃ s', @fos_scheduler unit s = Leave (Some n) s' ∧ turns s' (ts ++ [n]) ∧
        curenv (environments s') = Some n.
Proof.
  intros (xs & ys & Hts & Hd & Hn & Hys).
  destruct ys as [|y ys]; [rewrite (Hys eq_refl) in Hts; done|]. injection Hts as <- ->.
  unfold fos_scheduler. rewrite bind_modify. set (s1 := on_sched _ s).
  unfold get_sched_next. rewrite bind_gets. cbn [compose]. change (sched_next (sched s1)) with (sched_next (sched s)).
  rewrite Hn. cbn [hd_or]. mstep (sched_next_circular_spec s1 xs n ys Hd).
  unfold put_sched_next. rewrite bind_modify. set (s2 := on_sched _ s1).
  assert (turns s2 ((ys ++ xs) ++ [n])) as Ht2.
  { destruct ys as [|y ys].
    - exists [], (xs ++ [n]). split_and!; [by rewrite app_nil_r|done|done|]. intros Hc. by destruct xs.
    - exists (xs ++ [n]), (y :: ys). split_and!; [by rewrite !app_assoc| |done|done]. cbn. by rewrite <-app_assoc. }
  unfold env_run. rewrite bind_gets. cbn [compose].
  destruct (decide (curenv (environments s2) = Some n)) as [Hc|Hc].
  - rewrite bool_decide_eq_true_2 by done. cbn [negb when]. rewrite bind_mret. by exists s2.
  - rewrite bool_decide_eq_false_2 by done. cbn [negb when]. eexists. split; [done|]. split; [|done].
    destruct Ht2 as (xs' & ys' & He & Hd2 & Hn2 & Hys2). exists xs', ys'. split_and!; try done.
    eapply dll_agree; [|exact Hd2]. intros x _. unfold LIST_NEXT, LIST_PREV. cbn.
    destruct (decide (n = x)) as [<-|]; [by rewrite array_get_set_eq|by rewrite array_get_set_ne].
Qed.

(** With nothing ready the command prompt gets the processor. *)
Lemma scheduler_idle s :
  turns s [] →
  ∃ s', @fos_scheduler unit s = Leave None s' ∧ turns s' [] ∧ curenv (environments s') = None ∧
        scheduler_status (sched s') = SCH_STOPPED.
Proof.
  intros (xs & ys & Hts & Hd & Hn & Hys). symmetry in Hts. apply app_eq_nil in Hts as [-> ->].
  unfold fos_scheduler. rewrite bind_modify. unfold get_sched_next. rewrite bind_gets. cbn [compose].
  change (sched_next (sched (on_sched _ s))) with (sched_next (sched s)). rewrite Hn. cbn [hd_or].
  eexists. split; [done|]. split; [|done]. exists [], []. split_and!; try done.
Qed.

(** ** Runs *)
Inductive sop := SInsert (e : Z) | SRemove (e : Z) | STick.
(** The environment a tick runs, and the state afterwards; [None] if the operation did not do what
    it should. *)
Definition srun (op : sop) (s : KState) : option (option Z * KState) :=
  match op with
  | SInsert e => match sched_insert_ready e s with Ret _ s' => Some (None, s') | _ => None end
  | SRemove e => match sched_remove_ready e s with Ret _ s' => Some (None, s') | _ => None end
  | STick => match @fos_scheduler unit s with Leave d s' => Some (d, s') | _ => None end
  end.
Definition sspec (op : sop) (ts : list Z) : option (option Z * list Z) :=
  match op with
  | SInsert e => if decide (e ∈ ts) then None else Some (None, ts ++ [e])
  | SRemove e => if decide (e ∈ ts) then Some (None, without e ts) else None
  | STick => match ts with n :: ts => Some (Some n, ts ++ [n]) | [] => Some (None, []) end
  end.
(** A run of operations: what each of them gave the processor to. *)
Fixpoint run_all {S} (step : sop → S → option (option Z * S)) (ops : list sop) (s : S)
    : option (list (option Z) * S) :=
  match ops with
  | [] => Some ([], s)
  | op :: ops =>
      match step op s with
      | None => None
      | Some (r, s') =>
          match run_all step ops s' with None => None | Some (rs, s'') => Some (r :: rs, s'') end
      end
  end.

Lemma srun_refines op s ts r ts' :
  turns s ts → sspec op ts = Some (r, ts') → ∃ s', srun op s = Some (r, s') ∧ turns s' ts'.
Proof.
  intros Ht. destruct op as [e|e|]; cbn; [case_decide; [done|]|case_decide; [|done]|destruct ts as [|n ts]];
    intros [= <- <-].
  - destruct (insert_ready_turns s ts e Ht) as (s' & -> & ?); [done|]. by exists s'.
  - destruct (remove_ready_turns s ts e Ht) as (s' & -> & ?); [done|]. by exists s'.
  - destruct (scheduler_idle s Ht) as (s' & -> & ? & _). by exists s'.
  - destruct (scheduler_turns s n ts Ht) as (s' & -> & ? & _). by exists s'.
Qed.
Lemma run_all_refines ops s ts rs ts' :
  turns s ts → run_all sspec ops ts = Some (rs, ts') →
  ∃ s', run_all srun ops s = Some (rs, s') ∧ turns s' ts'.
Proof.
  revert s ts rs. induction ops as [|op ops IH]; intros s ts rs Ht; cbn.
  { intros [= <- <-]. by exists s. }
  destruct (sspec op ts) as [[r ts1]|] eqn:Hop; [|done].
  destruct (run_all sspec ops ts1) as [[rs1 ts2]|] eqn:Hops; [|done]. intros [= <- <-].
  destruct (srun_refines op s ts r ts1 Ht Hop) as (s1 & -> & Ht1).
  destruct (IH s1 ts1 rs1 Ht1 Hops) as (s2 & -> & Ht2). by exists s2.
Qed.

(** As many ticks as there are environments run each of them once, in order. *)
Lemma ticks_rotate ts us :
  run_all sspec (replicate (length ts) STick) (ts ++ us) = Some (Some <$> ts, us ++ ts).
Proof.
  revert us. induction ts as [|t ts IH]; intros us; cbn; [by rewrite app_nil_r|].
  rewrite <-app_assoc, IH. cbn. by rewrite <-app_assoc.
Qed.

(** ** Properties *)

(** C16: the ready queue with [sched_next] is a queue of turns: any run of sched_insert_ready,
    sched_remove_ready and fos_scheduler, from the state sched_init leaves or any other that
    represents a sequence of environments, gives the processor to the head of the sequence at each
    scheduling decision (to the command prompt when it is empty) and moves it to the end; a
    new environment waits behind all others and a removal keeps the order of the rest. *)
Theorem scheduler_refines_turns ops s ts rs ts' :
  turns s ts → run_all sspec ops ts = Some (rs, ts') →
  ∃ s', run_all srun ops s = Some (rs, s') ∧ turns s' ts'.
Proof. apply run_all_refines. Qed.

(** C25: round robin: with the ready environments [ts] in turn order, as many scheduling decisions
    as there are environments run each of them exactly once, in that order, and restore the order. *)
Theorem round_robin_is_fair s ts :
  turns s ts →
  ∃ s', run_all srun (replicate (length ts) STick) s = Some (Some <$> ts, s') ∧ turns s' ts.
Proof.
  intros Ht. apply (run_all_refines _ s ts _ ts Ht).
  pose proof (ticks_rotate ts []) as Hr. by rewrite app_nil_r in Hr.
Qed.

(** ** Witnesses *)
Lemma sched_init_turns s : ∃ s', sched_init s = Ret tt s' ∧ turns s' [].
Proof.
  eexists. split; [done|]. exists [], []. split_and!; try done.
  unfold dll. split_and!; try done. constructor.
Qed.
Lemma scheduler_refines_turns_witness :
  ∃ s', run_all srun [STick; SInsert 4; SInsert 7; SInsert 2; STick; STick; SRemove 4; STick; STick] inhabitant
          = Some ([None; None; None; None; Some 4; Some 7; None; Some 2; Some 7], s') ∧ turns s' [2; 7].
Proof.
  apply (scheduler_refines_turns _ inhabitant []); [|vm_compute; reflexivity].
  exists [], []. split_and!; try done. unfold dll. split_and!; try done. constructor.
Defined.
Lemma round_robin_is_fair_witness :
  ∃ s s', turns s [4; 7] ∧ run_all srun [STick; STick] s = Some ([Some 4; Some 7], s') ∧ turns s' [4; 7].
Proof.
  destruct (run_all_refines [SInsert 4; SInsert 7] inhabitant [] [None; None] [4; 7]) as (s & _ & Ht);
    [|vm_compute; reflexivity|].
  { exists [], []. split_and!; try done. unfold dll. split_and!; try done. constructor. }
  destruct (round_robin_is_fair s [4; 7] Ht) as (s' & Hs' & Ht'). exists s, s'. split_and!; [exact Ht|exact Hs'|exact Ht'].
Defined.
