(* ===== verification/Syscall.v ===== *)
(** * User memory requests, system calls and traps

    allocateMem, freeMem and moveMem of kern/memory_manager.c; kern/syscall.c;
    kern/semaphore_manager.c and kern/shared_memory_manager.c, whose operations panic; the trap
    dispatcher of kern/trap.c.  What the console and the time-stamp counter deliver are inputs
    ([Devices]); printing has no effect on the modelled state. *)
From Stdlib Require Import Ascii.
From S2P Require Import Prelude Machine Queue State PageFlags FrameAlloc Paging KHeap PageFile WorkingSet Fault UserEnv Sched.

(** Inputs from devices: the keyboard buffer and the processor's time-stamp counter. *)
Class Devices := { cons_getc2 : K Z; get_virtual_time : K (Z * Z) }.

(** A NUL-terminated string of the current address space, of at most [fuel] characters. *)
Fixpoint read_string (fuel : nat) (va : Z) : K string :=
  match fuel with
  | O => λ _, OutOfFuel
  | Datatypes.S n =>
      c ← load8 va;
      if c =? 0 then mret EmptyString else
      rest ← read_string n (u32 (va + 1));
      mret (String (ascii_of_nat (Z.to_nat c)) rest)
  end.
Definition NAME_FUEL : nat := 257.

Section UserMemory.
Context `{Extern}.

(** The result of pf_add_empty_env_page is ignored. *)
Definition allocateMem (e virtual_address size : Z) : K unit :=
  let size := u32 (size + PAGE_SIZE - 1) `div` PAGE_SIZE in
  forM (seqZ 0 size) (λ i,
    pf_add_empty_env_page e (u32 (virtual_address + i * PAGE_SIZE)) 0;; mret tt).

(** The inner loop: the first working-set entry at [va] is cleared and its page unmapped. *)
Definition free_resident_page (e va : Z) : K unit :=
  x ← get_env e;
  mloop (Z.to_nat (page_WS_max_size x + 1)) (λ i,
    if negb (i <? page_WS_max_size x) then mret (inr tt) else
    w ← ws_get e i;
    if ws_virtual_address w =? va
    then env_page_ws_clear_entry e i;; unmap_frame (env_page_directory x) va;; mret (inr tt)
    else mret (inl (i + 1))) 0.

(** Is every entry of the table 0? *)
Definition table_is_empty (table : Z) : K bool :=
  mloop 1025 (λ j,
    if negb (j <? 1024) then mret (inr true) else
    tableEntry ← load_at table j;
    if negb (tableEntry =? 0) then mret (inr false) else mret (inl (j + 1))) 0.

Definition free_table_if_empty (e i : Z) : K unit :=
  x ← get_env e;
  '(_, ptr_page_table) ← get_page_table (env_page_directory x) i;
  if ptr_page_table =? 0 then mret tt else
  empty ← table_is_empty ptr_page_table;
  when empty
    (kfree ptr_page_table;;
     store_at (env_page_directory x) (PDX i) 0;;
     tlbflush).

Definition freeMem (e virtual_address size : Z) : K unit :=
  let virtual_address := ROUNDDOWN virtual_address PAGE_SIZE in
  let size := ROUNDUP size PAGE_SIZE in
  let pages := seqZ 0 (size `div` PAGE_SIZE) in
  forM pages (λ k, pf_remove_env_page e (u32 (virtual_address + k * PAGE_SIZE)));;
  forM pages (λ k, free_resident_page e (u32 (virtual_address + k * PAGE_SIZE)));;
  mloop 1025 (λ i,
    if negb (i <=? u32 (virtual_address + size)) then mret (inr tt) else
    free_table_if_empty e i;;
    mret (inl (u32 (i + PTSIZE)))) (ROUNDDOWN virtual_address PTSIZE);;
  tlbflush.

Definition __freeMem_with_buffering (e virtual_address size : Z) : K unit := mret tt.

Definition moveMem (e src_virtual_address dst_virtual_address size : Z) : K unit :=
  panic "moveMem() is not implemented yet...!!".
End UserMemory.

(** ** Semaphores and shared objects *)
(** The first of [n] elements whose name is [name], -1 if there is none. *)
Definition find_name (names : Z → string) (n : Z) (name : string) : Z :=
  match List.find (λ i, String.eqb name (names i)) (seqZ 0 n) with Some i => i | None => -1 end.
Definition getSemaphoreNumber (name : string) : K Z :=
  gets (λ s, find_name (λ i, sem_name (semaphores (sharing s) !!! i)) (nSemaphores (sharing s)) name).
Definition getShareNumber (name : string) : K Z :=
  gets (λ s, find_name (λ i, share_name (shares (sharing s) !!! i)) (nShares (sharing s)) name).
Definition createSemaphore (name : string) (initialValue : Z) : K Z :=
  panic "This function is not required".
Definition waitSemaphore (name : string) : K unit := panic "This function is not required".
Definition signalSemaphore (name : string) : K unit := panic "This function is not required".
Definition createSharedObject (name : string) (size isWritable ret : Z) : K Z :=
  panic "This function is not required".
Definition getSharedObject (name : string) (ret : Z) : K Z := panic "This function is not required".
Definition freeSharedObject (name : string) : K Z := panic "This function is not required".
(** The wait queue of a semaphore: in at the head, out at the tail. *)
Definition enqueue (h : gmap Z Env) (queue : ListHead) (env : Z) : gmap Z Env * ListHead :=
  LIST_INSERT_HEAD h queue env.
Definition dequeue (h : gmap Z Env) (queue : ListHead) : option (Z * (gmap Z Env * ListHead)) :=
  match lh_last queue with
  | Some envItem => Some (envItem, LIST_REMOVE h queue envItem)
  | None => None
  end.

Definition MAX_SHARES : Z := 100.

Section Syscalls.
Context `{Extern} `{Devices} (start_of : string → Z).

(** cprintf's [%.*s]: the characters up to [precision] or to the terminator are read, the one that
    ends the loop included; with a negative [precision], which [len] becomes from 2^31 on, only a
    terminator ends it.  The fuel is the number of characters or of addresses. *)
Definition cputs_fuel (len : Z) : nat := if s32 len <? 0 then Z.to_nat (2 ^ 32 + 1) else Z.to_nat (len + 2).
Definition cputs_body (x : Z * Z) : K (Z * Z + unit) :=
  let '(p, precision) := x in
  ch ← load8 p;
  if negb (ch =? 0) && ((precision <? 0) || (0 <=? precision - 1))
  then mret (inl (u32 (p + 1), if precision <? 0 then precision else precision - 1))
  else mret (inr tt).
Definition sys_cputs (s len : Z) : K unit :=
  curenv_ptr;;
  if s =? 0 then mret tt (* "(null)" *) else mloop (cputs_fuel len) cputs_body (s, s32 len).

Definition sys_cgetc : K Z := cons_getc2.
Definition sys_getenvid : K Z := curenv_ptr.
Definition sys_env_destroy (envid : Z) : K Z :=
  '(r, e) ← envid2env envid false;
  if r <? 0 then mret r else
  e ← read_local "NULL environment" e;
  x ← get_env e;
  sched_kill_env (env_id x);;
  mret 0.
Definition sys_env_exit : K unit := env_exit.

Definition __sys_allocate_page (va perm : Z) : K Z :=
  e ← curenv_ptr;
  ptr_frame_info ← allocate_frame;
  if (USER_TOP <=? va) || negb (va `mod` PAGE_SIZE =? 0) then mret E_INVAL else
  if negb (Z.land perm (Z.land (not32 PERM_AVAILABLE) (not32 PERM_WRITEABLE)) =? PERM_USER)
  then mret E_INVAL else
  x ← get_env e;
  map_frame (env_page_directory x) ptr_frame_info USER_LIMIT PERM_WRITEABLE;;
  memset0 USER_LIMIT 1024;;
  increment_references ptr_frame_info;;
  unmap_frame (env_page_directory x) USER_LIMIT;;
  upd_frame ptr_frame_info (λ f, set_references (u16 (references f - 1)) f);;
  r ← map_frame (env_page_directory x) ptr_frame_info va perm;
  if r =? E_NO_MEM then decrement_references ptr_frame_info;; mret r else mret 0.

Definition __sys_map_frame (srcenvid srcva dstenvid dstva perm : Z) : K Z :=
  panic "sys_map_frame not implemented".
Definition __sys_unmap_frame (envid va : Z) : K Z := panic "sys_page_unmap not implemented".

Definition sys_calculate_required_frames (start_virtual_address size : Z) : K Z :=
  c ← curenv_ptr; x ← get_env c;
  calculate_required_frames (env_page_directory x) start_virtual_address size.
Definition sys_calculate_free_frames : K Z :=
  c ← calculate_available_frames; mret (freeBuffered c + freeNotBuffered c).
Definition sys_calculate_modified_frames : K Z :=
  c ← calculate_available_frames; mret (modified c).
Definition sys_calculate_notmod_frames : K Z :=
  c ← calculate_available_frames; mret (freeBuffered c).
Definition sys_pf_calculate_allocated_pages : K Z :=
  c ← curenv_ptr; pf_calculate_allocated_pages c.
Definition sys_freeMem (virtual_address size : Z) : K unit :=
  buffering ← isBufferingEnabled;
  c ← curenv_ptr;
  if (buffering : bool) then __freeMem_with_buffering c virtual_address size
  else freeMem c virtual_address size.
Definition sys_allocateMem (virtual_address size : Z) : K unit :=
  c ← curenv_ptr; allocateMem c virtual_address size.
Definition upd_eflags (g : Z → Z) : K unit :=
  c ← curenv_ptr;
  upd_env c (λ x, set_env_tf (set_tf_eflags (g (tf_eflags (env_tf x))) (env_tf x)) x).
Definition sys_disable_interrupt : K unit := upd_eflags (λ f, Z.land f (not32 FL_IF)).
Definition sys_enable_interrupt : K unit := upd_eflags (λ f, Z.lor f FL_IF).
(** One allocation per element the free list has on entry. *)
Definition sys_clearFFL : K unit :=
  size ← gets (λ s, lh_size (free_frame_list (frames s)));
  forM (seqZ 0 (s32 size)) (λ _, allocate_frame;; mret tt).
Definition sys_createSemaphore (name initialValue : Z) : K Z :=
  n ← read_string NAME_FUEL name; createSemaphore n initialValue.
Definition sys_waitSemaphore (name : Z) : K unit :=
  n ← read_string NAME_FUEL name; waitSemaphore n.
Definition sys_signalSemaphore (name : Z) : K unit :=
  n ← read_string NAME_FUEL name; signalSemaphore n.
Definition sys_getSemaphoreValue (name : Z) : K Z :=
  n ← read_string NAME_FUEL name;
  semNo ← getSemaphoreNumber n;
  count ← gets (nSemaphores ∘ sharing);
  assert_ ((0 <=? semNo) && (semNo <? count)) "semNo>=0 && semNo < nSemaphores";;
  gets (λ s, sem_value (semaphores (sharing s) !!! semNo)).
Definition sys_createSharedObject (name size isWritable ret : Z) : K Z :=
  n ← read_string NAME_FUEL name; createSharedObject n size isWritable ret.
Definition sys_getSharedObject (name ret : Z) : K Z :=
  n ← read_string NAME_FUEL name; getSharedObject n ret.
Definition sys_freeSharedObject (name : Z) : K Z :=
  n ← read_string NAME_FUEL name; freeSharedObject n.
Definition sys_getCurrentSharedAddress : K Z :=
  c ← curenv_ptr; x ← get_env c; mret (shared_free_address x).
Definition sys_getMaxShares : K Z := mret MAX_SHARES.

Definition sys_create_env (programName page_WS_size : Z) : K Z :=
  name ← read_string NAME_FUEL programName;
  env ← env_create start_of name page_WS_size;
  match env with
  | None => mret E_ENV_CREATION_ERROR
  | Some e => sched_new_env (Some e);; x ← get_env e; mret (env_id x)
  end.
Definition sys_run_env (envId : Z) : K unit := sched_run_env envId.
Definition sys_free_env (envId : Z) : K unit := sched_kill_env envId.
Definition sys_get_virtual_time : K (Z * Z) := get_virtual_time.
Definition sys_moveMem (src dst size : Z) : K unit := c ← curenv_ptr; moveMem c src dst size.
Definition sys_rcr2 : K Z := rcr2.
Definition sys_bypassPageFault (instrLength : Z) : K unit :=
  modify (on_config (set_bypassInstrLength (u8 instrLength))).

Definition rsttst : K unit := modify (on_config (set_tstcnt 0)).
(** The check passes: [inv] accepts any failed comparison, except for 'b'. *)
Definition tst_check (n v1 v2 : Z) (c : Ascii.ascii) (inv : Z) : bool :=
  if Ascii.eqb c "l"%char then (n <? v1) || negb (inv =? 0)
  else if Ascii.eqb c "g"%char then (v1 <? n) || negb (inv =? 0)
  else if Ascii.eqb c "e"%char then (n =? v1) || negb (inv =? 0)
  else if Ascii.eqb c "b"%char then (v1 <=? n) && (n <=? v1)
  else false.
Definition tst (n v1 v2 : Z) (c : Ascii.ascii) (inv : Z) : K unit :=
  if negb (tst_check n v1 v2 c inv) then panic "Error!! test fails" else
  modify (on_config (λ r, set_tstcnt (s32 (tstcnt r + 1)) r)).
Definition chktst (n : Z) : K unit :=
  t ← gets (tstcnt ∘ config);
  if u32 t =? n then mret tt else panic "Error!! test fails at final".

Definition sys_get_heap_strategy : K Z := gets (_UHeapPlacementStrategy ∘ config).
Definition sys_set_uheap_strategy (heapStrategy : Z) : K unit :=
  modify (on_config (set__UHeapPlacementStrategy heapStrategy)).

(** Numbers of inc/syscall.h, in order; the result is a uint32. *)
Definition syscall (syscallno a1 a2 a3 a4 a5 : Z) : K Z :=
  let void (m : K unit) : K Z := m;; mret 0 in
  let ret (m : K Z) : K Z := r ← m; mret (u32 r) in
  match syscallno with
  | 0 (* SYS_cputs *) => void (sys_cputs a1 a2)
  | 1 (* SYS_cgetc *) => ret sys_cgetc
  | 2 (* SYS_getenvid *) => ret sys_getenvid
  | 3 (* SYS_env_destroy *) => ret (sys_env_destroy (s32 a1))
  | 4 (* SYS_env_exit *) => void sys_env_exit
  | 5 (* SYS_allocate_page *) => __sys_allocate_page a1 a2;; mret 0
  | 6 (* SYS_map_frame *) => __sys_map_frame a1 a2 a3 a4 a5;; mret 0
  | 7 (* SYS_unmap_frame *) => __sys_unmap_frame a1 a2;; mret 0
  | 8 (* SYS_calc_req_frames *) => ret (sys_calculate_required_frames a1 a2)
  | 9 (* SYS_calc_free_frames *) => ret sys_calculate_free_frames
  | 10 (* SYS_calc_modified_frames *) => ret sys_calculate_modified_frames
  | 11 (* SYS_calc_notmod_frames *) => ret sys_calculate_notmod_frames
  | 12 (* SYS_pf_calc_allocated_pages *) => ret sys_pf_calculate_allocated_pages
  | 13 (* SYS_freeMem *) => void (sys_freeMem a1 a2)
  | 14 (* SYS_allocateMem *) => void (sys_allocateMem a1 a2)
  | 15 (* SYS_moveMem *) => void (sys_moveMem a1 a2 a3)
  | 16 (* SYS_disableINTR *) => void sys_disable_interrupt
  | 17 (* SYS_enableINTR *) => void sys_enable_interrupt
  | 18 (* SYS_cputc *) => mret 0
  | 19 (* SYS_clearFFL *) => void sys_clearFFL
  | 20 (* SYS_create_semaphore *) => ret (sys_createSemaphore a1 a2)
  | 21 (* SYS_wait_semaphore *) => void (sys_waitSemaphore a1)
  | 22 (* SYS_signal_semaphore *) => void (sys_signalSemaphore a1)
  | 23 (* SYS_get_semaphore_value *) => ret (sys_getSemaphoreValue a1)
  | 24 (* SYS_create_shared_object *) => ret (sys_createSharedObject a1 a2 a3 a4)
  | 25 (* SYS_get_shared_object *) => ret (sys_getSharedObject a1 a2)
  | 26 (* SYS_free_shared_object *) => ret (sys_freeSharedObject a1)
  | 27 (* SYS_get_current_shared_address *) => ret sys_getCurrentSharedAddress
  | 28 (* SYS_get_max_shares *) => ret sys_getMaxShares
  | 29 (* SYS_create_env *) => ret (sys_create_env a1 a2)
  | 30 (* SYS_run_env *) => void (sys_run_env (s32 a1))
  | 31 (* SYS_free_env *) => void (sys_free_env (s32 a1))
  | 32 (* SYS_get_virtual_time *) =>
      '(low, hi) ← sys_get_virtual_time; store a1 low;; store a2 hi;; mret 0
  | 33 (* SYS_rcr2 *) => ret sys_rcr2
  | 34 (* SYS_bypassPageFault *) => void (sys_bypassPageFault a1)
  | 35 (* SYS_testNum *) => void (tst a1 a2 a3 (ascii_of_nat (Z.to_nat (u8 a4))) (s32 a5))
  | 36 (* SYS_rsttst *) => void rsttst
  | 37 (* SYS_chktst *) => void (chktst a1)
  | 38 (* SYS_get_heap_strategy *) => ret sys_get_heap_strategy
  | 39 (* SYS_set_heap_strategy *) => void (sys_set_uheap_strategy a1)
  | _ => mret (u32 (- E_INVAL))
  end.

(** ** Traps: kern/trap.c *)
Definition T_DBLFLT : Z := 8.
Definition T_PGFLT : Z := 14.
Definition IRQ0_Clock : Z := 32.
Definition T_SYSCALL : Z := 48.
Definition GD_KT : Z := 0x08.

(** The frame is [curenv->env_tf] for a trap from user mode, else the one on the kernel stack;
    the result is the frame with the value the handler stored in EAX. *)
Definition trap_dispatch (tf : Trapframe) : K Trapframe :=
  if tf_trapno tf =? T_PGFLT then
    lru ← isPageReplacmentAlgorithmLRU;
    when lru update_WS_time_stamps;;
    fault_handler;;
    mret tf
  else if tf_trapno tf =? T_SYSCALL then
    ret ← syscall (tf_eax tf) (tf_edx tf) (tf_ecx tf) (tf_ebx tf) (tf_edi tf) (tf_esi tf);
    mret (set_tf_eax ret tf)
  else if tf_trapno tf =? T_DBLFLT then panic "double fault!!"
  else if tf_trapno tf =? IRQ0_Clock then clock_interrupt_handler
  else if tf_cs tf =? GD_KT then panic "unhandled trap in kernel"
  else mret tf.

Definition put_tf (e : Z) (tf : Trapframe) : K unit := upd_env e (set_env_tf tf).

(** What a trap ends with: the interrupted environment runs again, if it still may. *)
Definition return_to_curenv {A} : K A :=
  c ← gets (curenv ∘ environments);
  match c with
  | None => panic "assertion failed: curenv && curenv->env_status == ENV_READY"
  | Some e =>
      x ← get_env e;
      assert_ (env_status x =? ENV_READY) "curenv && curenv->env_status == ENV_READY";;
      env_run e
  end.

(** A trap from user mode ([tf_cs & 3 = 3]): the dispatcher works on [curenv->env_tf]; a
    system call's return value goes to the frame that was [curenv]'s on entry. *)
Definition trap_from_user {A} (tf : Trapframe) : K A :=
  c ← gets (curenv ∘ environments);
  match c with
  | None => panic "assertion failed: curenv"
  | Some e =>
      put_tf e tf;;
      len ← gets (bypassInstrLength ∘ config);
      when ((tf_trapno tf =? T_PGFLT) && negb (len =? 0))
        (upd_env e (λ x, set_env_tf (set_tf_eip (u32 (tf_eip (env_tf x) + len)) (env_tf x)) x);;
         env_run e);;
      tf' ← trap_dispatch tf;
      when (tf_trapno tf =? T_SYSCALL)
        (upd_env e (λ x, set_env_tf (set_tf_eax (tf_eax tf') (env_tf x)) x));;
      return_to_curenv
  end.
End Syscalls.
