(* ===== verification/UserMemSpec.v ===== *)
(** * Reserving user memory

    allocateMem reserves a range of user pages in the page file only, one disk frame for each page;
    freeMem gives the frames back.  The pages of the range share a page-file table. *)
From S2P Require Import Prelude Machine Queue State AddressSpace PageFlags FrameAlloc FrameAllocSpec Paging PagingSpec KHeap PageFile PageFileSpec WorkingSet Fault FaultSpec UserEnv Sched Syscall.

(** Page [k] of a range. *)
Definition user_page (va k : Z) : Z := va + k * PAGE_SIZE.

(** The pages [va .. va + n*PAGE_SIZE) of environment [e]: user addresses of one page-file table,
    at [t] in frame [tf]. *)
Record user_range (s : KState) (e va n t df tf : Z) : Prop := {
  ur_align : va `mod` PAGE_SIZE = 0;
  ur_user : 0 ≤ va ∧ 0 < n ∧ va + n * PAGE_SIZE ≤ USER_TOP;
  ur_table : (va + n * PAGE_SIZE - 1) / PTSIZE = va / PTSIZE;
  ur_disk : has_disk_table s e va t df tf;
  ur_reach : reached_apart [tf] s t ∧ reached_apart [tf] s (disk_env_pgdir (env_of s e));
  ur_frames : tf ≠ df;
}.

Section Range.
Context (s : KState) (e va n t df tf : Z) (Hu : user_range s e va n t df tf).

Lemma user_page_facts k :
  0 ≤ k < n → let p := user_page va k in
  0 ≤ p < USER_TOP ∧ u32 p = p ∧ PDX p = PDX va ∧ PTX p = PTX va + k ∧ CHECK_IF_KERNEL_ADDRESS p = false.
Proof using Hu.
  intros Hk p. destruct Hu as [Ha [Hva [Hn Htop]] Ht _ _ _]. change USER_TOP with 0xEEC00000 in *.
  unfold PTSIZE, NPTENTRIES, PAGE_SIZE in *. unfold p, user_page, PAGE_SIZE.
  assert (0 ≤ va + k * 4096 < 0xEEC00000) as Hp by lia.
  assert (u32 (va + k * 4096) = va + k * 4096) as Hs by (apply u32_small; unfold is_u32; lia).
  split_and!; [lia|lia|done|..].
  - rewrite !PDX_eq, Hs, (u32_small va) by (unfold is_u32; lia). unfold PTSIZE, NPTENTRIES, PAGE_SIZE. zdiv.
  - rewrite !PTX_eq, Hs, (u32_small va) by (unfold is_u32; lia). unfold NPTENTRIES, PAGE_SIZE. zdiv.
  - unfold CHECK_IF_KERNEL_ADDRESS. rewrite Hs. apply andb_false_iff. left. apply Z.leb_gt.
    change USER_TOP with 0xEEC00000. lia.
Qed.
Lemma user_page_0 : user_page va 0 = va.
Proof. unfold user_page. lia. Qed.

Lemma user_page_table k : 0 ≤ k < n → has_disk_table s e (user_page va k) t df tf.
Proof using Hu.
  intros Hk. destruct (user_page_facts k Hk) as (_ & _ & HD & _ & HK).
  destruct (user_page_facts 0 ltac:(destruct Hu as [_ [_ [? _]]]; lia)) as (_ & _ & _ & _ & HK0).
  rewrite user_page_0 in HK0. destruct (ur_disk _ _ _ _ _ _ _ Hu) as [D1 D2 D3 D4 D5 D6].
  split; rewrite ?HD; try done. unfold table_address in *. by rewrite HK, <-HK0.
Qed.
(** The entries of different pages are different words. *)
Lemma user_page_words j k :
  0 ≤ j < n → 0 ≤ k < n → word tf (PTX (user_page va j)) = word tf (PTX (user_page va k)) → j = k.
Proof using Hu.
  intros Hj Hk [_ Heq]%word_inj; [|apply PTX_range..].
  destruct (user_page_facts j Hj) as (_ & _ & _ & HTj & _), (user_page_facts k Hk) as (_ & _ & _ & HTk & _). lia.
Qed.
End Range.

Lemma user_range_touches s s' e va n t df tf :
  user_range s e va n t df tf → touches [tf] s s' → user_range s' e va n t df tf.
Proof.
  intros [U1 U2 U3 U4 [U5 U6] U7] Ht. pose proof Ht as (_ & _ & _ & _ & He & _).
  assert (env_of s' e = env_of s e) as He' by (unfold env_of; by rewrite He).
  split; rewrite ?He'; try done.
  - eapply touches_has_disk_table; [done|done|done|apart|done].
  - split; by eapply touches_reached.
Qed.

(** ** allocateMem *)
Section Allocate.
Context `{Extern} (s : KState) (e va n t df tf : Z) (Hu : user_range s e va n t df tf).

(** After [k] pages: the first [k] of the disk frames [fs] are taken. *)
Record reserved (fs rest : list Z) (k : Z) (s' : KState) : Prop := {
  re_touches : touches [tf] s s';
  re_frames : frames s' = frames s;
  re_free : disk_free s' (drop (Z.to_nat k) fs ++ rest);
  re_entries j : 0 ≤ j < n →
    pte s' (user_page va j) tf = if j <? k then fs !!! Z.to_nat j else pte s (user_page va j) tf;
  re_others i : (∀ j, 0 ≤ j < n → i ≠ word tf (PTX (user_page va j))) → get_word s' i = get_word s i;
}.

Lemma reserve_page fs rest k s' :
  reserved fs rest k s' → 0 ≤ k < n → length fs = Z.to_nat n → Forall disk_page fs →
  pte s (user_page va k) tf = 0 →
  ∃ s'', (pf_add_empty_env_page e (user_page va k) 0;; mret tt) s' = Ret tt s'' ∧ reserved fs rest (k + 1) s''.
Proof using Hu.
  intros [R1 R2 R3 R4 R5] Hk Hlen Hfs H0.
  destruct (lookup_lt_is_Some_2 fs (Z.to_nat k)) as [f Hf]; [lia|].
  pose proof (list_lookup_total_correct _ _ _ Hf) as Hft.
  pose proof (Forall_lookup_1 _ _ _ _ Hfs Hf) as Hd.
  rewrite (drop_S _ _ _ Hf) in R3. cbn [app] in R3.
  pose proof (user_range_touches _ _ _ _ _ _ _ _ Hu R1) as Hu'.
  destruct (user_page_facts s e va n t df tf Hu k Hk) as (Hp & Hp32 & HD & HT & _).
  assert (pte s' (user_page va k) tf = 0) as H0'.
  { rewrite R4 by done. by rewrite (proj2 (Z.ltb_ge k k)) by lia. }
  destruct (pf_disk_frame_spec e (user_page va k) t df tf s' f (drop (Datatypes.S (Z.to_nat k)) fs ++ rest)
    (user_page_table s' e va n t df tf Hu' k Hk)) as (s1 & Hs1 & Ho & Hfree).
  { rewrite Hp32. change USER_TOP with 0xEEC00000 in Hp. change KERNEL_BASE with 0xF0000000. lia. }
  { right. by split_and!. }
  specialize (Hfree H0'). rewrite H0' in Hs1. cbn [Z.eqb] in Hs1. destruct Ho as [p ->].
  eexists. split; [unfold pf_add_empty_env_page; change (negb (0 =? 0)) with false; cbv iota; rewrite bind_assoc; by mstep Hs1|].
  split.
  - etrans; [exact R1|]. transitivity (set_pagefile p s'); [done|]. apply touches_put; [by left|apply PTX_range].
  - done.
  - replace (Z.to_nat (k + 1)) with (Datatypes.S (Z.to_nat k)) by lia. exact Hfree.
  - intros j Hj. destruct (decide (j = k)) as [->|Hjk].
    + unfold pte at 1. rewrite get_put_eq, (proj2 (Z.ltb_lt k (k + 1))) by lia. by rewrite Hft.
    + unfold pte at 1. rewrite get_put_ne.
      * change (get_word (set_pagefile p s')) with (get_word s'). fold (pte s' (user_page va j) tf).
        rewrite R4 by done. by replace (j <? k + 1) with (j <? k) by (destruct (Z.ltb_spec j k), (Z.ltb_spec j (k + 1)); lia).
      * intros Heq. apply Hjk. symmetry. by apply (user_page_words s e va n t df tf Hu).
  - intros i Hi. rewrite get_put_ne by (by apply not_eq_sym, Hi).
    change (get_word (set_pagefile p s')) with (get_word s'). by apply R5.
Qed.

Lemma allocateMem_spec fs rest size :
  0 ≤ size → n = (size + PAGE_SIZE - 1) / PAGE_SIZE → length fs = Z.to_nat n → Forall disk_page fs →
  disk_free s (fs ++ rest) → (∀ k, 0 ≤ k < n → pte s (user_page va k) tf = 0) →
  ∃ s', allocateMem e va size s = Ret tt s' ∧ reserved fs rest n s'.
Proof using Hu.
  intros Hsize Hn Hlen Hfs Hfree H0. pose proof (ur_user _ _ _ _ _ _ _ Hu) as (Hva & Hpos & Htop).
  change USER_TOP with 0xEEC00000 in Htop. unfold allocateMem.
  rewrite (u32_small (size + _ - 1)), <-Hn by (unfold is_u32, PAGE_SIZE in *; zdiv).
  apply (forM_seqZ (reserved fs rest)); [lia| |].
  - split; try done. intros j Hj. by rewrite (proj2 (Z.ltb_ge j 0)) by lia.
  - intros k s' Hk Hr. rewrite Z.add_0_l. fold (user_page va k).
    destruct (user_page_facts s e va n t df tf Hu k Hk) as (_ & -> & _).
    apply reserve_page; auto.
Qed.
End Allocate.

(** ** freeMem *)
Section NotThere.
Context `{Extern} (e dm : Z).

(** A page that is not in the working set. *)
Lemma not_resident s' p :
  (∀ i, 0 ≤ i < page_WS_max_size (env_of s' e) → ws_virtual_address (ws_entry s' e i) ≠ p) →
  0 ≤ page_WS_max_size (env_of s' e) →
  free_resident_page e p s' = Ret tt s'.
Proof.
  intros Hws Hmax. unfold free_resident_page, get_env. rewrite bind_gets. fold (env_of s' e).
  set (max := page_WS_max_size (env_of s' e)) in *.
  replace (Z.to_nat (max + 1)) with (Z.to_nat max + 1)%nat by lia.
  rewrite (mloop_steps _ Z.of_nat s' (Z.to_nat max) 1).
  - apply mloop_break. by rewrite Z2Nat.id, (proj2 (Z.ltb_ge _ _)) by lia.
  - intros j Hj. rewrite (proj2 (Z.ltb_lt _ _)) by lia. cbn [negb].
    unfold ws_get, get_env. rewrite bind_assoc, bind_gets, bind_mret. fold (ws_entry s' e (Z.of_nat j)).
    fold (env_of s' e). fold (ws_entry s' e (Z.of_nat j)).
    rewrite (proj2 (Z.eqb_neq _ _)) by (apply Hws; lia). do 2 f_equal. lia.
Qed.

(** A table that is not there. *)
Lemma no_table s' i :
  kpage s' (env_page_directory (env_of s' e)) dm → get_word s' (word dm (PDX i)) = 0 →
  0 < number_of_frames (frames s') → free_table_if_empty e i s' = Ret tt s'.
Proof.
  intros Hd H0 Hn. unfold free_table_if_empty, get_env. rewrite bind_gets. fold (env_of s' e).
  destruct (table_address_none s' i Hn) as [t0 Ht0].
  rewrite (bind_Ret _ _ _ (TABLE_NOT_EXIST, 0) s'); [done|]. unfold get_page_table.
  mstep (load_kpage s' _ dm Hd (PDX i) (PDX_range i)). rewrite H0. mstep Ht0. done.
Qed.
End NotThere.

Section Free.
Context `{Extern} (s : KState) (e va n t df tf : Z) (Hu : user_range s e va n t df tf).
Context (fs rest : list Z) (Hlen : length fs = Z.to_nat n) (Hfs : Forall disk_page fs).
Context (Hdup : NoDup (fs ++ rest)).

(** After [k] pages of the range have been given back. *)
Record returned (k : Z) (s' : KState) : Prop := {
  rt_touches : touches [tf] s s';
  rt_frames : frames s' = frames s;
  rt_free : disk_free s' (reverse (take (Z.to_nat k) fs) ++ rest);
  rt_entries j : 0 ≤ j < n → pte s' (user_page va j) tf = if j <? k then 0 else fs !!! Z.to_nat j;
  rt_others i : (∀ j, 0 ≤ j < n → i ≠ word tf (PTX (user_page va j))) → get_word s' i = get_word s i;
}.

Lemma return_page k s' :
  returned k s' → 0 ≤ k < n →
  ∃ s'', pf_remove_env_page e (user_page va k) s' = Ret tt s'' ∧ returned (k + 1) s''.
Proof using Hu Hlen Hfs Hdup.
  intros [R1 R2 R3 R4 R5] Hk.
  destruct (lookup_lt_is_Some_2 fs (Z.to_nat k)) as [f Hf]; [lia|].
  pose proof (list_lookup_total_correct _ _ _ Hf) as Hft.
  assert (f ≠ 0) as Hf0 by (pose proof (Forall_lookup_1 _ _ _ _ Hfs Hf) as Hd; unfold disk_page in Hd; lia).
  assert (f ∉ reverse (take (Z.to_nat k) fs) ++ rest) as Hnew.
  { rewrite <-(take_drop_middle _ _ _ Hf), <-app_assoc in Hdup.
    apply NoDup_app in Hdup as (_ & H1 & [H2 _]%NoDup_cons).
    rewrite elem_of_app, elem_of_reverse. intros [Hin|Hin]; [by apply (H1 f Hin); left|].
    apply H2. apply elem_of_app. by right. }
  pose proof (user_range_touches _ _ _ _ _ _ _ _ Hu R1) as Hu'.
  pose proof (user_page_table s' e va n t df tf Hu' k Hk) as Hdt.
  set (s1 := put_word (word tf (PTX (user_page va k))) 0 s').
  destruct (free_disk_frame_spec s1 f _ R3 Hnew Hf0) as (s2 & Hs2 & Hfree & [p ->]).
  exists (set_pagefile p s1). split.
  - unfold pf_remove_env_page, get_env. rewrite bind_gets, (proj2 (Z.eqb_neq _ _)) by apply (dt_null _ _ _ _ _ _ Hdt).
    mstep (get_disk_page_table_present s' e _ t df tf Hdt false).
    rewrite (proj2 (Z.eqb_neq _ _)) by apply (dt_table_null _ _ _ _ _ _ Hdt).
    mstep (load_dfn s' e _ t df tf Hdt). rewrite R4, (proj2 (Z.ltb_ge k k)), Hft by lia.
    mstep (store_kpage s' t tf (dt_table _ _ _ _ _ _ Hdt) (PTX (user_page va k)) 0 (PTX_range _)).
    exact Hs2.
  - split; try done.
    + etrans; [exact R1|]. transitivity s1; [|done]. apply touches_put; [by left|apply PTX_range].
    + replace (Z.to_nat (k + 1)) with (Datatypes.S (Z.to_nat k)) by lia.
      by rewrite (take_S_r _ _ _ Hf), reverse_app.
    + intros j Hj. change (pte (set_pagefile p s1)) with (pte s1).
      destruct (decide (j = k)) as [->|Hjk].
      * unfold pte, s1. by rewrite get_put_eq, (proj2 (Z.ltb_lt k (k + 1))) by lia.
      * unfold pte, s1. rewrite get_put_ne.
        -- fold (pte s' (user_page va j) tf). rewrite R4 by done.
           by replace (j <? k + 1) with (j <? k) by (destruct (Z.ltb_spec j k), (Z.ltb_spec j (k + 1)); lia).
        -- intros Heq. apply Hjk. symmetry. by apply (user_page_words s e va n t df tf Hu).
    + intros i Hi. change (get_word (set_pagefile p s1)) with (get_word s1). unfold s1.
      rewrite get_put_ne by (by apply not_eq_sym, Hi). by apply R5.
Qed.


Lemma return_pages s1 :
  reserved s va n tf fs rest n s1 →
  ∃ s2, forM (seqZ 0 n) (λ k, pf_remove_env_page e (u32 (va + k * PAGE_SIZE))) s1 = Ret tt s2 ∧ returned n s2.
Proof using Hu Hlen Hfs Hdup.
  intros [R1 R2 R3 R4 R5]. pose proof (ur_user _ _ _ _ _ _ _ Hu) as (_ & Hpos & _).
  apply (forM_seqZ returned); [lia| |].
  - split; try done.
    + rewrite drop_ge in R3 by lia. exact R3.
    + intros j Hj. rewrite R4, (proj2 (Z.ltb_lt j n)), (proj2 (Z.ltb_ge j 0)) by lia. done.
  - intros k s' Hk Hr. rewrite Z.add_0_l. fold (user_page va k).
    destruct (user_page_facts s e va n t df tf Hu k Hk) as (_ & -> & _). by apply return_page.
Qed.
End Free.

(** Nothing of the range is in memory: its page-table entries in the directory, which is frame
    [dm], are empty and the working set has no page of it. *)
Record not_in_memory (s : KState) (e va n dm tf : Z) : Prop := {
  nm_dir : kpage s (env_page_directory (env_of s e)) dm;
  nm_reach : reached_apart [tf] s (env_page_directory (env_of s e)) ∧ tf ≠ dm;
  nm_entries i : va - va `mod` PTSIZE ≤ i ≤ va + n * PAGE_SIZE → get_word s (word dm (PDX i)) = 0;
  nm_memory : 0 < number_of_frames (frames s);
  nm_ws_size : 0 ≤ page_WS_max_size (env_of s e);
  nm_ws i k : 0 ≤ i < page_WS_max_size (env_of s e) → 0 ≤ k < n →
    ws_virtual_address (ws_entry s e i) ≠ user_page va k;
}.
Lemma not_in_memory_touches s s' e va n dm tf :
  not_in_memory s e va n dm tf → touches [tf] s s' → not_in_memory s' e va n dm tf.
Proof.
  intros [M1 [M2 M3] M4 M5 M6 M7] Ht. pose proof Ht as (_ & _ & Hn & _ & He & _).
  assert (env_of s' e = env_of s e) as He' by (unfold env_of; by rewrite He).
  split; unfold ws_entry; rewrite ?He', ?Hn; try done.
  - by eapply touches_kpage.
  - split; [by eapply touches_reached|done].
  - intros i Hi. rewrite (touches_word _ _ _ Ht) by (apart || apply PDX_range). by apply M4.
Qed.

(** The loops of freeMem that look for pages and tables in memory find none. *)
Lemma freeMem_memory_side `{Extern} s e va n dm tf :
  not_in_memory s e va n dm tf → va `mod` PAGE_SIZE = 0 → 0 ≤ va → 0 < n → va + n * PAGE_SIZE ≤ USER_TOP →
  (va + n * PAGE_SIZE - 1) / PTSIZE = va / PTSIZE →
  (forM (seqZ 0 n) (λ k, free_resident_page e (u32 (va + k * PAGE_SIZE)));;
   mloop 1025 (λ i,
     if negb (i <=? u32 (va + n * PAGE_SIZE)) then mret (inr tt) else
     free_table_if_empty e i;; mret (inl (u32 (i + PTSIZE)))) (ROUNDDOWN va PTSIZE);;
   tlbflush) s = Ret tt s.
Proof.
  intros [M1 _ M4 M5 M6 M7] Ha Hva Hn Htop Htb. change USER_TOP with 0xEEC00000 in Htop.
  assert (is_u32 va ∧ is_u32 (va + n * PAGE_SIZE)) as [Hu1 Hu2] by (unfold is_u32, PAGE_SIZE in *; lia).
  destruct (forM_seqZ (λ _ s', s' = s) (λ k, free_resident_page e (u32 (va + k * PAGE_SIZE))) 0 n s)
    as (s1 & Hs1 & ->); [lia|done| |].
  { intros k s' Hk ->. exists s. split; [|done]. rewrite Z.add_0_l, u32_small by (unfold is_u32, PAGE_SIZE in *; lia).
    apply not_resident; [|done]. intros i Hi. by apply M7. }
  mstep Hs1. set (base := va - va `mod` PTSIZE) in *.
  assert (ROUNDDOWN va PTSIZE = base) as ->.
  { unfold ROUNDDOWN. rewrite (u32_small va) by done. apply u32_small. unfold is_u32, PTSIZE, NPTENTRIES, PAGE_SIZE in *. zdiv. }
  assert (0 ≤ base ≤ va ∧ va + n * PAGE_SIZE ≤ base + PTSIZE) as Hb.
  { unfold base, PTSIZE, NPTENTRIES, PAGE_SIZE in *. zdiv. }
  rewrite (u32_small (va + _)) by done.
  destruct (mloop_total (λ i s', s' = s ∧ base ≤ i ∧ i ≤ base + 2 * PTSIZE) (λ _ s', s' = s)
    (λ i _, Z.to_nat ((base + 2 * PTSIZE - i) / PTSIZE))
    (λ i, if negb (i <=? va + n * PAGE_SIZE) then mret (inr tt) else
          free_table_if_empty e i;; mret (inl (u32 (i + PTSIZE)))) 1025 base s)
    as ([] & s2 & Hs2 & ->).
  - intros i s' (-> & Hi1 & Hi2). destruct (Z.leb_spec i (va + n * PAGE_SIZE)) as [Hle|Hgt]; cbn [negb].
    2:{ right. by eexists _, _. }
    left. mstep (no_table e dm s i M1 ltac:(apply M4; lia) M5). exists (i + PTSIZE), s.
    unfold PTSIZE, NPTENTRIES, PAGE_SIZE in *.
    split; [by rewrite u32_small by (unfold is_u32; lia)|]. split; [split; [done|lia]|zdiv].
  - split; [done|]. unfold PTSIZE, NPTENTRIES, PAGE_SIZE. lia.
  - replace (base + 2 * PTSIZE - base) with (2 * PTSIZE) by lia. rewrite Z.div_mul; [lia|done].
  - by mstep Hs2.
Qed.

(** ** Properties *)

(** C40: on a range of user pages that lies in one page-file table, which exists and has no entry for
    the range, with enough free disk frames, and with no page table in memory for the range or for
    the address just behind it (so none of its pages is in a working set), allocateMem reserves the
    range in the page file and nowhere else: every page gets a disk frame of its own, the first ones
    of the free list, in its page-file entry; frames and all other words of memory stay.  freeMem of
    the same range then gives the disk frames back to the free list and leaves memory as it was.
    (The first reservation in a 4 MB region creates the page-file table and takes a frame for it;
    with a page table in memory freeMem also looks at the table behind the range, and frees it when
    it is empty.) *)
Theorem user_memory_roundtrip `{Extern} s e va n size t df tf dm fs rest :
  user_range s e va n t df tf → not_in_memory s e va n dm tf →
  0 ≤ size → n = (size + PAGE_SIZE - 1) / PAGE_SIZE →
  length fs = Z.to_nat n → Forall disk_page fs → disk_free s (fs ++ rest) →
  (∀ k, 0 ≤ k < n → pte s (user_page va k) tf = 0) →
  ∃ s1 s2, allocateMem e va size s = Ret tt s1 ∧ disk_free s1 rest ∧ frames s1 = frames s ∧
    (∀ k, 0 ≤ k < n → pte s1 (user_page va k) tf = fs !!! Z.to_nat k) ∧
    (∀ i, (∀ k, 0 ≤ k < n → i ≠ word tf (PTX (user_page va k))) → get_word s1 i = get_word s i) ∧
    freeMem e va size s1 = Ret tt s2 ∧ disk_free s2 (reverse fs ++ rest) ∧ frames s2 = frames s ∧
    environments s2 = environments s ∧ ∀ i, get_word s2 i = get_word s i.
Proof.
  intros Hu Hm Hsize Hn Hlen Hfs Hfree H0.
  destruct (allocateMem_spec s e va n t df tf Hu fs rest size Hsize Hn Hlen Hfs Hfree H0) as (s1 & Hs1 & Hr).
  pose proof (proj1 (proj2 (proj2 (proj2 Hfree)))) as Hdup.
  destruct (return_pages s e va n t df tf Hu fs rest Hlen Hfs Hdup s1 Hr) as (s2 & Hs2 & [T1 T2 T3 T4 T5]).
  pose proof Hr as [R1 R2 R3 R4 R5]. pose proof Hu as [U1 (U2 & U2' & U2'') U3 _ _ _].
  exists s1, s2. split_and!; try done.
  - rewrite drop_ge in R3 by lia. exact R3.
  - intros k Hk. by rewrite R4, (proj2 (Z.ltb_lt k n)) by lia.
  - assert (is_u32 va ∧ is_u32 size ∧ is_u32 (size + PAGE_SIZE - 1)) as (Hva & Hsz & Hsz').
    { change USER_TOP with 0xEEC00000 in U2''. unfold is_u32, PAGE_SIZE in *. subst n. zdiv. }
    assert (ROUNDDOWN va PAGE_SIZE = va) as Hrd.
    { unfold ROUNDDOWN. by rewrite (u32_small va), U1, Z.sub_0_r, u32_small by done. }
    assert (ROUNDUP size PAGE_SIZE = n * PAGE_SIZE) as Hru.
    { unfold ROUNDUP, ROUNDDOWN. rewrite (u32_small size) by done. change (u32 PAGE_SIZE) with PAGE_SIZE.
      rewrite !(u32_small (size + _ - 1)) by done. rewrite u32_small; subst n; unfold is_u32, PAGE_SIZE in *; zdiv. }
    unfold freeMem. rewrite Hrd, Hru, Z.div_mul by done. mstep Hs2.
    apply (freeMem_memory_side s2 e va n dm tf); [by eapply not_in_memory_touches|done..].
  - rewrite take_ge in T3 by lia. exact T3.
  - by destruct T1 as (_ & _ & _ & _ & ? & _).
  - intros i. destruct (decide (Exists (λ k, i = word tf (PTX (user_page va k))) (seqZ 0 n))) as [Hex|Hne].
    + apply Exists_exists in Hex as (k & Hk%elem_of_seqZ & ->). fold (pte s2 (user_page va k) tf).
      rewrite T4, (proj2 (Z.ltb_lt k n)) by lia. symmetry. apply H0. lia.
    + apply T5. intros k Hk ->. apply Hne, Exists_exists. exists k. split; [|done]. apply elem_of_seqZ. lia.
Qed.

(** ** Witness *)
(** The machine of PageFileSpec.v with disk frames 9 and 8 free, no page at 12 MB and a working
    set of one empty entry; a request of 5000 bytes is two pages. *)
Definition PAGE_12M : Z := 0xC00000.
Definition reserving_state : KState :=
  put_word (word 303 3) (306 * PAGE_SIZE + 1)
  (set_pagefile (MkPageFile
     (<[9 := MkFrame (Some 8) None 0 0 None 0]> (<[8 := MkFrame None (Some 9) 0 0 None 0]> ∅))
     (MkListHead (Some 9) (Some 8) 2))
  (on_frames (set_number_of_frames 1024)
  (on_environments (λ r, set_envs (<[0 := set_page_WS_max_size 1 (set_pageWS
     (<[0 := MkWSE 0 1 0]> ∅) (envs r !!! 0))]> (envs r)) r) swap_state))).
Lemma reserving_state_range : user_range reserving_state 0 PAGE_12M 2 (kernel_page 306) 303 306.
Proof.
  assert (∀ a, bool_decide (306 ∉ walk_frames reserving_state a) = true → reached_apart [306] reserving_state a) as Hr.
  { intros a Ha%bool_decide_eq_true f ->%list_elem_of_singleton. exact Ha. }
  split.
  - reflexivity.
  - split_and!; vm_compute; congruence.
  - reflexivity.
  - split; by vm_compute.
  - split; apply Hr; vm_compute; reflexivity.
  - done.
Qed.
Lemma reserving_state_absent : not_in_memory reserving_state 0 PAGE_12M 2 300 306.
Proof.
  split.
  - split_and!; by vm_compute.
  - split; [|done]. intros f ->%list_elem_of_singleton. apply (bool_decide_unpack _). vm_compute. exact I.
  - intros i Hi. assert (PDX i = 3) as ->.
    { change (PAGE_12M - PAGE_12M `mod` PTSIZE) with 0xC00000 in Hi. change (PAGE_12M + 2 * PAGE_SIZE) with 0xC02000 in Hi.
      rewrite PDX_eq, u32_small by (unfold is_u32; lia). unfold PTSIZE, NPTENTRIES, PAGE_SIZE. zdiv. }
    vm_compute. reflexivity.
  - by vm_compute.
  - by vm_compute.
  - change (page_WS_max_size (env_of reserving_state 0)) with 1. intros i k Hi Hk. replace i with 0 by lia.
    change (ws_virtual_address (ws_entry reserving_state 0 0)) with 0.
    unfold user_page, PAGE_12M, PAGE_SIZE. lia.
Qed.
Lemma user_memory_roundtrip_witness :
  ∃ s1 s2, allocateMem (H := no_nesting) 0 PAGE_12M 5000 reserving_state = Ret tt s1 ∧
    pte s1 PAGE_12M 306 = 9 ∧ pte s1 (PAGE_12M + PAGE_SIZE) 306 = 8 ∧
    freeMem (H := no_nesting) 0 PAGE_12M 5000 s1 = Ret tt s2 ∧ disk_free s2 [8; 9].
Proof.
  destruct (@user_memory_roundtrip no_nesting reserving_state 0 PAGE_12M 2 5000 (kernel_page 306) 303 306 300
    [9; 8] [] reserving_state_range reserving_state_absent) as (s1 & s2 & Hs1 & _ & _ & Hp & _ & Hs2 & Hf & _).
  - lia.
  - reflexivity.
  - reflexivity.
  - repeat constructor; vm_compute; congruence.
  - unfold disk_free, dll. split_and!; [by vm_compute..|by apply (bool_decide_unpack _)|by vm_compute].
  - intros k Hk. assert (k = 0 ∨ k = 1) as [-> | ->] by lia; vm_compute; reflexivity.
  - exists s1, s2. split_and!; [exact Hs1|apply (Hp 0); lia|apply (Hp 1); lia|exact Hs2|exact Hf].
Defined.
