(* ===== verification/TestKHeap.v ===== *)
(** * The kernel's tests of its heap: kern/test_kheap.c

    The functions behind the commands tstkmalloc, tstkfree, tstkphysaddr and tstkvirtaddr.  The blocks that the
    file repeats (allocate or free, then compare the counts of free frames) are [kmalloc_checked]
    and [kfree_checked].  What the tests print is not modelled.  The local arrays are lists; [on_stack]
    is the limit the kernel's stack sets to the large ones. *)
From S2P Require Import Prelude Machine Queue State PageFlags FrameAlloc Paging KHeap PageFile WorkingSet Fault UserEnv Sched Syscall.

Definition Mega : Z := 1024 * 1024.
Definition kilo : Z := 1024.

(** A local array of [words] words, where its block is entered: the kernel's stack holds
    KERNEL_STACK_SIZE bytes and the pages below it are not mapped, so a larger array does not fit.
    The stack that callers and small variables take is not counted; a compiler may reserve the
    array at the entry of the function already, and then the function fails there. *)
Definition on_stack (words : Z) : K unit :=
  if KERNEL_STACK_SIZE <? 4 * words then undefined "kernel stack" else mret tt.

(** [short] values in memory. *)
Definition s16 (x : Z) : Z := (x + 2 ^ 15) `mod` 2 ^ 16 - 2 ^ 15.
Definition load16 (va : Z) : K Z := lo ← load8 va; hi ← load8 (u32 (va + 1)); mret (lo + 256 * hi).
Definition store16 (va v : Z) : K unit := store8 va (u8 v);; store8 (u32 (va + 1)) (u16 v `div` 256).

(** [sizeof(struct MyStruct)]: [a] at offset 0, [b] at 2, [c] at 4. *)
Definition SIZEOF_MyStruct : Z := 8.
Definition MyStruct_b : Z := 2.
Definition MyStruct_c : Z := 4.

(** The values written: [1<<7] and so on, in the types of the source. *)
Definition minByte : Z := -128.
Definition maxByte : Z := 127.
Definition minShort : Z := -32768.
Definition maxShort : Z := 32767.
Definition minInt : Z := - 2 ^ 31.
Definition maxInt : Z := 2 ^ 31 - 1.

(** A store whose page fault is bypassed: the processor puts the address in CR2 and trap goes on
    behind the instruction, whose length is [bypassInstrLength]. *)
Definition store8_bypassing (va b : Z) : K unit := λ s,
  match store8 va b s with
  | Crash (PageFault _) s' =>
      if bypassInstrLength (config s') =? 0 then Crash (PageFault va) s'
      else Ret tt (on_hw (set_cr2 va) s')
  | o => o
  end.

Section Tests.
Context `{Extern}.

Definition page_file_unchanged (freeDiskFrames : Z) : K unit :=
  now ← pf_calculate_free_frames;
  assert_ (now - freeDiskFrames =? 0) "Page file is changed while it's not expected to. (pages are wrongly allocated/de-allocated in PageFile)".

(** [if ((freeFrames - sys_calculate_free_frames()) != n) panic(msg)], in 32 bits. *)
Definition frames_taken (freeFrames n : Z) : K unit :=
  now ← sys_calculate_free_frames;
  assert_ (u32 (freeFrames - now) =? n) "Wrong allocation: pages are not loaded successfully into memory".
Definition frames_freed (freeFrames n : Z) (msg : string) : K unit :=
  now ← sys_calculate_free_frames;
  assert_ (u32 (now - freeFrames) =? n) msg.

(** An allocation that should fail. *)
Definition kmalloc_refused (size : Z) : K unit :=
  freeFrames ← sys_calculate_free_frames;
  freeDiskFrames ← pf_calculate_free_frames;
  p ← kmalloc size;
  assert_ (p =? 0) "Allocating insufficient space: should return NULL";;
  page_file_unchanged freeDiskFrames;;
  frames_taken freeFrames 0.

(** An allocation that should be at [offset] in the heap and take [n] frames. *)
Definition kmalloc_checked (size offset n : Z) : K Z :=
  freeFrames ← sys_calculate_free_frames;
  freeDiskFrames ← pf_calculate_free_frames;
  p ← kmalloc size;
  assert_ (p =? KERNEL_HEAP_START + offset) "Wrong start address for the allocated space... check return address of kmalloc & updating of heap ptr";;
  page_file_unchanged freeDiskFrames;;
  frames_taken freeFrames n;;
  mret p.

Definition kfree_checked (p n : Z) (msg : string) : K unit :=
  freeFrames ← sys_calculate_free_frames;
  freeDiskFrames ← pf_calculate_free_frames;
  kfree p;;
  page_file_unchanged freeDiskFrames;;
  frames_freed freeFrames n msg.
Definition NOT_FREED : string := "Wrong kfree: pages in memory are not freed correctly".

(** The sizes and places of the eight allocations that every test starts with. *)
Definition test_allocations : list (Z * Z * Z) :=
  [(2 * Mega - kilo, 0, 512);
   (2 * Mega - kilo, 2 * Mega, 512);
   (2 * kilo, 4 * Mega, 1);
   (2 * kilo, 4 * Mega + 4 * kilo, 1);
   (7 * kilo, 4 * Mega + 8 * kilo, 2);
   (3 * Mega - kilo, 4 * Mega + 16 * kilo, 768);
   (6 * Mega - kilo, 7 * Mega + 16 * kilo, 1536);
   (14 * kilo, 13 * Mega + 16 * kilo, 4)].
Definition allocate_all : K (list Z) :=
  mapM (λ '(size, offset, n), kmalloc_checked size offset n) test_allocations.

(** ** test_kmalloc *)

Definition expect (b : bool) : K unit := assert_ b "Wrong allocation: stored values are wrongly changed!".
Definition expect8 (va v : Z) : K unit := x ← load8 va; expect (s8 x =? v).
Definition expect16 (va v : Z) : K unit := x ← load16 va; expect (s16 x =? v).
Definition expect32 (va v : Z) : K unit := x ← load va; expect (s32 x =? v).

Definition lastIndexOfByte : Z := 2 * Mega - kilo - 1.
Definition lastIndexOfShort : Z := (2 * Mega - kilo) `div` 2 - 1.
Definition lastIndexOfInt : Z := (2 * kilo) `div` 4 - 1.
Definition lastIndexOfStruct : Z := (7 * kilo) `div` SIZEOF_MyStruct - 1.
Definition lastIndexOfByte2 : Z := 6 * Mega - kilo - 1.
Definition lastIndexOfShort2 : Z := (14 * kilo) `div` 2 - 1.

Definition write_struct (p a b c : Z) : K unit :=
  store8 p (u8 a);; store16 (p + MyStruct_b) b;; store (p + MyStruct_c) (u32 c).
(** The elements written: first and last ones, and one in the middle. *)
Definition write_values (byteArr shortArr intArr structArr byteArr2 shortArr2 : Z) : K unit :=
  store8 byteArr (u8 minByte);; store8 (byteArr + lastIndexOfByte) (u8 maxByte);;
  store16 shortArr minShort;; store16 (shortArr + 2 * lastIndexOfShort) maxShort;;
  store intArr (u32 minInt);; store (intArr + 4 * lastIndexOfInt) (u32 maxInt);;
  write_struct structArr minByte minShort minInt;;
  write_struct (structArr + SIZEOF_MyStruct * lastIndexOfStruct) maxByte maxShort maxInt;;
  store8 byteArr2 (u8 minByte);;
  store8 (byteArr2 + lastIndexOfByte2 `div` 2) (u8 (maxByte `div` 2));;
  store8 (byteArr2 + lastIndexOfByte2) (u8 maxByte);;
  store16 shortArr2 minShort;; store16 (shortArr2 + 2 * lastIndexOfShort2) maxShort.
Definition read_values (byteArr shortArr intArr structArr byteArr2 shortArr2 : Z) : K unit :=
  let lastStruct := structArr + SIZEOF_MyStruct * lastIndexOfStruct in
  expect8 byteArr minByte;; expect8 (byteArr + lastIndexOfByte) maxByte;;
  expect16 shortArr minShort;; expect16 (shortArr + 2 * lastIndexOfShort) maxShort;;
  expect32 intArr minInt;; expect32 (intArr + 4 * lastIndexOfInt) maxInt;;
  expect8 structArr minByte;; expect8 lastStruct maxByte;;
  expect16 (structArr + MyStruct_b) minShort;; expect16 (lastStruct + MyStruct_b) maxShort;;
  expect32 (structArr + MyStruct_c) minInt;; expect32 (lastStruct + MyStruct_c) maxInt;;
  expect8 byteArr2 minByte;; expect8 (byteArr2 + lastIndexOfByte2 `div` 2) (maxByte `div` 2);;
  expect8 (byteArr2 + lastIndexOfByte2) maxByte;;
  expect16 shortArr2 minShort;; expect16 (shortArr2 + 2 * lastIndexOfShort2) maxShort.

(** No page of the heap up to [limit] is open to user programs. *)
Definition supervisor_only (limit : Z) : K unit :=
  forM (seqZ 0 ((limit - KERNEL_HEAP_START + PAGE_SIZE - 1) `div` PAGE_SIZE)) (λ k,
    let va := KERNEL_HEAP_START + k * PAGE_SIZE in
    pgdir ← gets (ptr_page_directory ∘ boot);
    '(_, table) ← get_page_table pgdir va;
    e ← load_at table (PTX va);
    let perm := Z.land e 0xFFF in
    assert_ (negb (has_perm perm PERM_USER)) "Wrong permissions: pages should be mapped with Supervisor permission only").

Definition test_kmalloc : K Z :=
  sys_calculate_free_frames;;
  kmalloc_refused (KERNEL_HEAP_MAX - KERNEL_HEAP_START + 1);;
  ptr_allocations ← allocate_all;
  let p i := ptr_allocations !!! i : Z in
  freeFrames ← sys_calculate_free_frames;
  freeDiskFrames ← pf_calculate_free_frames;
  write_values (p 0%nat) (p 1%nat) (p 2%nat) (p 4%nat) (p 6%nat) (p 7%nat);;
  read_values (p 0%nat) (p 1%nat) (p 2%nat) (p 4%nat) (p 6%nat) (p 7%nat);;
  frames_taken freeFrames 0;;
  page_file_unchanged freeDiskFrames;;
  kmalloc_refused (KERNEL_HEAP_MAX - KERNEL_HEAP_START + 2 * PAGE_SIZE -
    (2 * Mega + 2 * Mega + 4 * kilo + 4 * kilo + 8 * kilo + 3 * Mega + 6 * Mega + 16 * kilo));;
  supervisor_only (p 7%nat + 16 * kilo);;
  mret 1.

(** ** test_kfree *)

(** [for (i = 0; i < n; ++i) ptr[i] = v], and [sum += ptr[i]] over the same bytes. *)
Definition fill (ptr n v : Z) : K unit := forM (seqZ 0 n) (λ i, store8 (ptr + i) (u8 v)).
Definition sum_bytes (ptr n : Z) : K Z :=
  mloop (Z.to_nat n + 1) (λ '(i, sum),
    if negb (i <? n) then mret (inr sum) else
    x ← load8 (ptr + i);
    mret (inl (i + 1, s32 (sum + s8 x)))) (0, 0).

(** [lastIndices[k]]: the size in bytes less one. *)
Definition last_index (size : Z) : Z := size - 1.
(** An allocation whose bytes, but for the last, are set to [v]. *)
Definition kmalloc_filled (size offset n v : Z) : K Z :=
  p ← kmalloc_checked size offset n;
  fill p (last_index size) v;;
  mret p.
Definition sum_checked (p size v : Z) : K unit :=
  sum ← sum_bytes p (last_index size);
  assert_ (sum =? v * last_index size) "kfree: invalid read after freeing some allocations".

Definition allocate_filled : K (list Z) :=
  p0 ← kmalloc_checked (2 * Mega - kilo) 0 512;
  p1 ← kmalloc_checked (2 * Mega - kilo) (2 * Mega) 512;
  p2 ← kmalloc_filled (2 * kilo) (4 * Mega) 1 2;
  p3 ← kmalloc_filled (2 * kilo) (4 * Mega + 4 * kilo) 1 3;
  p4 ← kmalloc_filled (7 * kilo) (4 * Mega + 8 * kilo) 2 4;
  p5 ← kmalloc_filled (3 * Mega - kilo) (4 * Mega + 16 * kilo) 768 5;
  p6 ← kmalloc_checked (6 * Mega - kilo) (7 * Mega + 16 * kilo) 1536;
  p7 ← kmalloc_filled (14 * kilo) (13 * Mega + 16 * kilo) 4 7;
  mret [p0; p1; p2; p3; p4; p5; p6; p7].

(** The first two and the seventh allocation go, in every test. *)
Definition free_some (p0 p1 p6 : Z) : K unit :=
  kfree_checked p0 512 NOT_FREED;;
  kfree_checked p1 512 NOT_FREED;;
  kfree_checked p6 ((6 * Mega) `div` 4096) NOT_FREED.

Definition free_rest (start_freeFrames p2 p3 p4 p5 p7 p8 p9 : Z) : K unit :=
  kfree_checked p4 2 NOT_FREED;;
  kfree_checked p5 ((3 * Mega) `div` 4096) NOT_FREED;;
  kfree_checked p2 1 NOT_FREED;;
  kfree_checked p3 1 NOT_FREED;;
  kfree_checked p7 4 NOT_FREED;;
  kfree_checked p8 5 NOT_FREED;;
  kfree_checked p9 256 NOT_FREED;;
  now ← sys_calculate_free_frames;
  assert_ (start_freeFrames =? now) "Wrong kfree: not all pages removed correctly at end".

(** Writing to what has been freed: every store must fault, which CR2 shows. *)
Definition expect_fault (va : Z) : K unit :=
  store8_bypassing va 10;;
  cr2 ← sys_rcr2;
  assert_ (cr2 =? va) "kfree: successful access to freed space!! it should not be succeeded".
Definition touch_freed (freed : list (Z * Z)) : K unit :=
  sys_bypassPageFault 3;;
  forM freed (λ '(p, last), expect_fault p;; expect_fault (p + last));;
  sys_bypassPageFault 0.

Definition NOT_EXISTING : string := "Wrong kfree: attempt to kfree a non-existing ptr. It should do nothing".
(** [for (va = KERNEL_HEAP_START; va < (long long)KERNEL_HEAP_MAX; va+=PTSIZE)]: every table of the
    heap is still there. *)
Definition tables_present : K unit :=
  forM (seqZ 0 ((KERNEL_HEAP_MAX - KERNEL_HEAP_START + PTSIZE - 1) `div` PTSIZE)) (λ k,
    pgdir ← gets (ptr_page_directory ∘ boot);
    '(_, ptr_table) ← get_page_table pgdir (KERNEL_HEAP_START + k * PTSIZE);
    assert_ (negb (ptr_table =? 0)) "Wrong kfree: one of the kernel tables is wrongly removed! Tables should not be removed here in kfree").

Definition test_kfree : K Z :=
  start_freeFrames ← sys_calculate_free_frames;
  ptr_allocations ← allocate_filled;
  let p i := ptr_allocations !!! i : Z in
  free_some (p 0%nat) (p 1%nat) (p 6%nat);;
  sum_checked (p 2%nat) (2 * kilo) 2;;
  sum_checked (p 3%nat) (2 * kilo) 3;;
  sum_checked (p 4%nat) (7 * kilo) 4;;
  sum_checked (p 5%nat) (3 * Mega - kilo) 5;;
  sum_checked (p 7%nat) (14 * kilo) 7;;
  p8 ← kmalloc_filled (20 * kilo) (13 * Mega + 32 * kilo) 5 8;
  p9 ← kmalloc_filled (1 * Mega) (13 * Mega + 52 * kilo) 256 9;
  free_rest start_freeFrames (p 2%nat) (p 3%nat) (p 4%nat) (p 5%nat) (p 7%nat) p8 p9;;
  touch_freed
    [(p 0%nat, last_index (2 * Mega - kilo)); (p 1%nat, last_index (2 * Mega - kilo));
     (p 2%nat, last_index (2 * kilo)); (p 3%nat, last_index (2 * kilo));
     (p 4%nat, last_index (7 * kilo)); (p 5%nat, last_index (3 * Mega - kilo));
     (p 6%nat, last_index (6 * Mega - kilo)); (p 7%nat, last_index (14 * kilo));
     (p8, last_index (20 * kilo)); (p9, last_index (1 * Mega))];;
  kfree_checked (p 0%nat) 0 NOT_EXISTING;;
  kfree_checked (p 2%nat) 0 NOT_EXISTING;;
  kfree_checked p8 0 NOT_EXISTING;;
  kfree_checked p9 0 NOT_EXISTING;;
  tables_present;;
  mret 1.

(** ** test_kheap_phys_addr *)

Definition table_of (va : Z) : K Z :=
  pgdir ← gets (ptr_page_directory ∘ boot);
  '(_, ptr_table) ← get_page_table pgdir va;
  assert_ (negb (ptr_table =? 0)) "one of the kernel tables is wrongly removed! Tables of Kernel Heap should not be removed";;
  mret ptr_table.
(** [for (j = 0; i < ii && j < 1024; ++j, ++i)] over the table of [va]; the next [i]. *)
Definition table_entries (body : Z → Z → Z → K unit) (ii va i : Z) : K Z :=
  ptr_table ← table_of va;
  mloop 1025 (λ '(j, i),
    if negb ((i <? ii) && (j <? 1024)) then mret (inr i) else
    body ptr_table j i;; mret (inl (j + 1, i + 1))) (0, i).
(** The tables from [va] up to [endVA]. *)
Definition each_table (body : Z → Z → Z → Z → K unit) (ii startVA endVA : Z) : K unit :=
  mloop 1025 (λ '(va, i),
    if negb (va <? endVA) then mret (inr tt) else
    i ← table_entries (body va) ii va i;
    mret (inl (va + PTSIZE, i))) (startVA, 0).

(** kheap_physical_address of every page against the page tables. *)
Definition physical_checked (startVA endVA : Z) : K unit :=
  on_stack ((endVA - startVA) `div` PAGE_SIZE);;
  allPAs ← mapM (λ k, kheap_physical_address (startVA + k * PAGE_SIZE))
             (seqZ 0 ((endVA - startVA + PAGE_SIZE - 1) `div` PAGE_SIZE));
  each_table (λ _ ptr_table j i,
    e ← load_at ptr_table j;
    assert_ (Z.land e 0xFFFFF000 =? allPAs !!! Z.to_nat i) "Wrong kheap_physical_address")
    (Z.of_nat (length allPAs)) startVA endVA.

Definition test_kheap_phys_addr : K Z :=
  sys_calculate_free_frames;;
  ptr_allocations ← allocate_all;
  let p i := ptr_allocations !!! i : Z in
  let endVA := KERNEL_HEAP_START + 13 * Mega + 32 * kilo in
  physical_checked KERNEL_HEAP_START endVA;;
  free_some (p 0%nat) (p 1%nat) (p 6%nat);;
  physical_checked KERNEL_HEAP_START endVA;;
  physical_checked (KERNEL_HEAP_START + 16 * Mega) KERNEL_HEAP_MAX;;
  mret 1.

(** ** test_kheap_virt_addr *)
Definition numOfFrames : Z := (13 * Mega + 32 * kilo) `div` PAGE_SIZE.
Definition WRONG_VIRTUAL : string := "Wrong kheap_virtual_address".
(** Each entry of the page tables, which is kept in [allPAs], converts back to its page. *)
Definition virtual_checked : K (list Z) :=
  mloop 1025 (λ '(va, i, allPAs),
    if negb (va <? KERNEL_HEAP_START + 13 * Mega + 32 * kilo) then mret (inr allPAs) else
    ptr_table ← table_of va;
    '(i, allPAs) ← mloop 1025 (λ '(j, i, allPAs),
      if negb ((i <? numOfFrames) && (j <? 1024)) then mret (inr (i, allPAs)) else
      e ← load_at ptr_table j;
      let pa := Z.land e 0xFFFFF000 in
      retrievedVA ← kheap_virtual_address pa;
      assert_ (retrievedVA =? va + j * PAGE_SIZE) WRONG_VIRTUAL;;
      mret (inl (j + 1, i + 1, allPAs ++ [pa]))) (0, i, allPAs);
    mret (inl (va + PTSIZE, i, allPAs))) (KERNEL_HEAP_START, 0, []).
(** [for (i = first; i < last; ++i)]: the frame of page [i] converts to [va i]. *)
Definition virtual_now (allPAs : list Z) (first last : Z) (va : Z → Z) : K unit :=
  forM (seqZ first (last - first)) (λ i,
    retrievedVA ← kheap_virtual_address (allPAs !!! Z.to_nat i);
    assert_ (retrievedVA =? va i) WRONG_VIRTUAL).
(** The frames of the kernel's code are not frames of the heap. *)
Definition kernel_code_not_in_heap : K unit :=
  end_ ← gets (end_of_kernel ∘ boot);
  let n := u32 (end_ - KERNEL_BASE) in
  forM (seqZ 0 ((n - 1 * Mega + PAGE_SIZE - 1) `div` PAGE_SIZE)) (λ k,
    retrievedVA ← kheap_virtual_address (1 * Mega + k * PAGE_SIZE);
    assert_ (retrievedVA =? 0) WRONG_VIRTUAL).

Definition test_kheap_virt_addr : K Z :=
  sys_calculate_free_frames;;
  ptr_allocations ← allocate_all;
  let p i := ptr_allocations !!! i : Z in
  on_stack numOfFrames;;
  allPAs ← virtual_checked;
  free_some (p 0%nat) (p 1%nat) (p 6%nat);;
  let heap_va i := KERNEL_HEAP_START + i * PAGE_SIZE in
  virtual_now allPAs 0 ((4 * Mega) `div` PAGE_SIZE) (λ _, 0);;
  virtual_now allPAs ((4 * Mega) `div` PAGE_SIZE) ((7 * Mega + 16 * kilo) `div` PAGE_SIZE) heap_va;;
  virtual_now allPAs ((7 * Mega + 16 * kilo) `div` PAGE_SIZE) ((13 * Mega + 16 * kilo) `div` PAGE_SIZE) (λ _, 0);;
  virtual_now allPAs ((13 * Mega + 16 * kilo) `div` PAGE_SIZE) ((13 * Mega + 32 * kilo) `div` PAGE_SIZE) heap_va;;
  kernel_code_not_in_heap;;
  mret 1.
End Tests.
