(* ===== verification/TestKHeapSpec.v ===== *)
(** * The kernel heap under its tests

    [testing s pages n top ds] is the heap as the tests of TestKHeap.v see it: the allocations, with
    the number of pages of each, the number of free frames, the first free address, and the free
    pages of the page file.  Each step of the tests has a lemma on [testing]; from a fresh heap with
    enough free frames three of the tests return 1 and test_kheap_phys_addr ends where its largest
    local array exceeds the kernel's stack (TestKHeapPass.v). *)
From S2P Require Import Prelude Machine Queue State AddressSpace PageFlags FrameAlloc FrameAllocSpec Paging PagingSpec KHeap KHeapSpec KHeapInv HeapMem PageFile PageFileSpec WorkingSet Fault UserEnv Sched Syscall TestKHeap.

Section Testing.
Context `{Extern} (D : Z) (T : Z → Z) (F : list Z) (H0 : 0 ∉ F).

Notation len fs := (Z.of_nat (length fs)).
Notation first s := (firstFreeVAInKHeap (kheap s)).

(** What the tests read besides the heap. *)
Record outside (s : KState) (ds : list Z) : Prop := {
  ot_modified : dll (frames_info (frames s)) (modified_frame_list (frames s)) [];
  ot_disk : disk_free s ds;
  ot_pages : Forall disk_page ds;
  ot_frames : number_of_frames (frames s) < 2 ^ 32;
}.
Definition testing (s : KState) (pages : gmap Z Z) (n top : Z) (ds : list Z) : Prop :=
  ∃ L xs m, heap_at D T F s L xs m ∧ tidy T s L ∧ pages = (λ fs, len fs) <$> L ∧ n = len xs ∧ first s = top ∧ outside s ds.

(** What no step of a test changes: variables of boot and the records of allocations. *)
Definition evolves (s s' : KState) : Prop :=
  boot s' = boot s ∧ ∀ va n, on_record s va n → on_record s' va n.
#[export] Instance evolves_preorder : PreOrder evolves.
Proof. split; [done|]. intros s1 s2 s3 [? ?] [? ?]. split; [congruence|auto]. Qed.
(** The bytes at [pages] are as they were. *)
Definition kept (pages : gmap Z Z) (s s' : KState) : Prop := ∀ q, within pages q → heap_byte s' q = heap_byte s q.
#[export] Instance kept_preorder pages : PreOrder (kept pages).
Proof. split; [done|]. intros s1 s2 s3 K1 K2 q Hq. by rewrite K2, K1. Qed.

Lemma outside_footprint s s' ds : heap_footprint s s' → outside s ds → outside s' ds.
Proof.
  intros (_ & Hn & Hm & Hp & _) [(O1 & O2 & O3 & O4 & _) O5 O6 O7].
  split; [rewrite Hm; split_and!; (done || by constructor)|by unfold disk_free; rewrite Hp|done|by rewrite Hn].
Qed.

(** ** The counts *)
Section Counts.
Context (s : KState) (pages : gmap Z Z) (n top : Z) (ds : list Z) (Ht : testing s pages n top ds).

Lemma testing_count : 0 ≤ n < 2 ^ 32.
Proof using Ht.
  destruct Ht as (L & xs & m & [Hi _] & _ & _ & -> & _ & Ho).
  destruct (hr_alloc _ _ _ _ (hi_ready _ _ _ _ _ _ _ Hi)) as ((_ & _ & _ & Hnd & _) & _).
  pose proof (ot_frames _ _ Ho).
  assert (length xs ≤ Z.to_nat (number_of_frames (frames s)))%nat; [|lia].
  apply NoDup_bounded; [done|]. intros f Hf. destruct (hr_frames _ _ _ _ (hi_ready _ _ _ _ _ _ _ Hi) f Hf). lia.
Qed.
Lemma free_frames_count : sys_calculate_free_frames s = Ret n s.
Proof using Ht.
  pose proof testing_count as Hn. destruct Ht as (L & xs & m & [Hi _] & _ & _ & -> & _ & Ho).
  pose proof (hi_ready _ _ _ _ _ _ _ Hi) as Hr. pose proof (hr_alloc _ _ _ _ Hr) as (Hd & Hx & _).
  unfold sys_calculate_free_frames.
  mstep (calculate_available_frames_counts s xs [] Hd (ot_modified _ _ Ho)
    ltac:(intros f Hf; destruct (hr_frames _ _ _ _ Hr f Hf); lia)
    ltac:(intros f Hf; by apply elem_of_nil in Hf) (ot_frames _ _ Ho)).
  cbn [freeBuffered freeNotBuffered]. unfold mret, M_ret. f_equal.
  assert (∀ ys, (∀ f, f ∈ ys → isBuffered (frame_at s f) = 0) →
    len (filter (λ f, isBuffered (frame_at s f) ≠ 0) ys) + len (filter (λ f, isBuffered (frame_at s f) = 0) ys) = len ys) as Hf.
  { intros ys. induction ys as [|y ys IH]; intros Hys; [done|].
    rewrite filter_cons_False, filter_cons_True by first [apply Hys; by left | intros Hne; apply Hne, Hys; by left].
    assert (∀ f, f ∈ ys → isBuffered (frame_at s f) = 0) as Hys' by (intros f Hf; apply Hys; by right).
    specialize (IH Hys'). cbn [length]. lia. }
  apply Hf. intros f Hin. by apply (Hx f).
Qed.
Lemma disk_frames_count : pf_calculate_free_frames s = Ret (len ds) s.
Proof using Ht.
  destruct Ht as (_ & _ & _ & _ & _ & _ & _ & _ & [_ Hd Hp _]). pose proof Hd as (Hfirst & _ & _ & Hnd & _).
  unfold pf_calculate_free_frames. rewrite bind_mret, bind_gets, Hfirst.
  assert (length (0%Z :: ds) ≤ Z.to_nat PAGES_PER_FILE)%nat as Hlen.
  { rewrite Forall_forall in Hp. apply NoDup_bounded.
    - apply NoDup_cons. split; [|done]. intros Hz. apply Hp in Hz. unfold disk_page in Hz. lia.
    - intros d [->|Hd']%elem_of_cons; [by vm_compute|]. apply Hp in Hd'. unfold disk_page in Hd'. lia. }
  cbn [length] in Hlen.
  rewrite (list_loop_fold (disk_frames_info ∘ pagefile) _ _ (λ n _, u32 (n + 1)) _ (disk_free_frame_list (pagefile s)) ds);
    [|done|done|lia].
  f_equal. assert (∀ k, 0 ≤ k → k + len ds < 2 ^ 32 → foldl (λ n _, u32 (n + 1)) k ds = k + len ds) as Hf.
  { clear. induction ds as [|d ds' IH]; intros k Hk Hl; cbn in *; [lia|].
    rewrite u32_small by (unfold is_u32; lia). rewrite IH by lia. lia. }
  rewrite Hf; [lia|lia|]. change PAGES_PER_FILE with 133120 in Hlen. lia.
Qed.
Lemma page_file_unchanged_spec : page_file_unchanged (len ds) s = Ret tt s.
Proof using Ht. unfold page_file_unchanged. mstep disk_frames_count. by rewrite Z.sub_diag. Qed.
Lemma frames_taken_spec before k : before = n + k → 0 ≤ k < 2 ^ 32 → frames_taken before k s = Ret tt s.
Proof using Ht.
  intros -> Hk. unfold frames_taken. mstep free_frames_count.
  replace (n + k - n) with k by lia. by rewrite u32_small, Z.eqb_refl.
Qed.
Lemma frames_freed_spec before k msg : n = before + k → 0 ≤ k < 2 ^ 32 → frames_freed before k msg s = Ret tt s.
Proof using Ht.
  intros Hb Hk. unfold frames_freed. mstep free_frames_count.
  replace (n - before) with k by lia. by rewrite u32_small, Z.eqb_refl.
Qed.

(** A request that does not fit changes nothing. *)
Lemma kmalloc_refused_spec size :
  KERNEL_HEAP_MAX ≤ top + kpages size * PAGE_SIZE → kmalloc_refused size s = Ret tt s.
Proof using Ht.
  intros Hsz. unfold kmalloc_refused. mstep free_frames_count. mstep disk_frames_count.
  pose proof frames_taken_spec as Htaken. pose proof page_file_unchanged_spec as Hpf.
  destruct Ht as (L & xs & m & [Hi _] & _ & _ & _ & Hf & _).
  mstep (kmalloc_refuses s D T _ size (hi_ready _ _ _ _ _ _ _ Hi) ltac:(by rewrite Hf)).
  rewrite Z.eqb_refl. cbn [assert_]. rewrite bind_mret. mstep Hpf. apply Htaken; lia.
Qed.
End Counts.

(** ** Allocating and freeing *)
Lemma kmalloc_checked_spec s pages n top ds size offset k :
  testing s pages n top ds → top = KERNEL_HEAP_START + offset → kpages size = k → 0 < k ≤ n →
  top + k * PAGE_SIZE < KERNEL_HEAP_MAX →
  ∃ s', kmalloc_checked size offset k s = Ret top s' ∧ testing s' (<[top := k]> pages) (n - k) (top + k * PAGE_SIZE) ds ∧
    kept pages s s' ∧ evolves s s' ∧ on_record s' top k ∧ pages !! top = None.
Proof.
  intros Ht Htop Hk Hn Hroom. pose proof (testing_count _ _ _ _ _ Ht) as Hn32.
  pose proof Ht as (L & xs & m & Hat & Htd & Hp & Hx & Hf & Ho).
  destruct (heap_at_kmalloc D T F s L xs m size Hat)
    as (s' & fs & ys & Hs' & Hxs & Hfs & HL & Hat' & Hfp & Hf' & Htd' & Hrec & Hw); [lia|lia|by rewrite Hf, Hk|].
  rewrite Hf, Hk in *.
  assert (testing s' (<[top := k]> pages) (n - k) (top + k * PAGE_SIZE) ds) as Ht'.
  { exists (<[top := fs]> L), ys, (one_each fs m). split_and!; [done|by apply Htd'| | |done|by eapply outside_footprint].
    - by rewrite Hp, fmap_insert, Hfs.
    - subst xs. rewrite length_app in Hx. lia. }
  exists s'. split_and!; [|done| | | |by rewrite Hp, lookup_fmap, HL].
  - unfold kmalloc_checked. mstep (free_frames_count _ _ _ _ _ Ht). mstep (disk_frames_count _ _ _ _ _ Ht). mstep Hs'.
    rewrite (proj2 (Z.eqb_eq _ _)) by done. cbn [assert_]. rewrite bind_mret.
    mstep (page_file_unchanged_spec _ _ _ _ _ Ht').
    by mstep (frames_taken_spec _ _ _ _ _ Ht' n k ltac:(lia) ltac:(lia)).
  - intros q Hq. rewrite Hp in Hq. apply (proj1 (within_live L q)) in Hq. by apply (bytes_kept D T F s L xs m).
  - destruct Hfp as (_ & _ & _ & _ & _ & _ & _ & Hb & _). by split.
  - rewrite <-Hfs. apply (hi_record _ _ _ _ _ _ _ (ha_inv _ _ _ _ _ _ _ Hat')), lookup_insert_eq.
Qed.

(** The same with the frames of the allocations in view. *)
Definition testing_at (s : KState) (L : gmap Z (list Z)) (n top : Z) (ds : list Z) : Prop :=
  ∃ xs m, heap_at D T F s L xs m ∧ tidy T s L ∧ n = len xs ∧ first s = top ∧ outside s ds.
Lemma testing_at_pages s L n top ds : testing_at s L n top ds → testing s ((λ fs, len fs) <$> L) n top ds.
Proof. intros (xs & m & ? & ? & ? & ? & ?). by exists L, xs, m. Qed.
Lemma testing_frames s pages n top ds :
  testing s pages n top ds → ∃ L, testing_at s L n top ds ∧ pages = (λ fs, len fs) <$> L.
Proof. intros (L & xs & m & ? & ? & -> & ? & ? & ?). exists L. split; [by exists xs, m|done]. Qed.

Lemma kfree_checked_at s L n top ds va fs msg :
  testing_at s L n top ds → L !! va = Some fs →
  ∃ s', kfree_checked va (len fs) msg s = Ret tt s' ∧ testing_at s' (delete va L) (n + len fs) top ds ∧
    kept ((λ fs, len fs) <$> delete va L) s s' ∧ evolves s s'.
Proof.
  intros Ht HL. pose proof (testing_at_pages _ _ _ _ _ Ht) as Htp.
  destruct Ht as (xs & m & Hat & Htd & Hx & Hf & Ho).
  destruct (heap_at_kfree D T F s L xs m va fs Hat HL) as (s' & Hs' & Hat' & Hfp & Hf' & Htd' & Hrec & Hw).
  assert (testing_at s' (delete va L) (n + len fs) top ds) as Ht'.
  { exists (reverse fs ++ xs), (none_each fs m).
    split_and!; [done|by apply Htd'| |congruence|by eapply outside_footprint].
    rewrite length_app, length_reverse. lia. }
  pose proof (testing_at_pages _ _ _ _ _ Ht') as Htp'.
  pose proof (testing_count _ _ _ _ _ Htp') as Hn32. pose proof (testing_count _ _ _ _ _ Htp).
  exists s'. split_and!; [|done| |].
  - unfold kfree_checked. mstep (free_frames_count _ _ _ _ _ Htp). mstep (disk_frames_count _ _ _ _ _ Htp). mstep Hs'.
    mstep (page_file_unchanged_spec _ _ _ _ _ Htp'). apply (frames_freed_spec _ _ _ _ _ Htp'); lia.
  - intros q Hq. apply (proj1 (within_live (delete va L) q)) in Hq.
    by apply (bytes_kept D T F s' _ _ _ _ _ _ Hat').
  - destruct Hfp as (_ & _ & _ & _ & _ & _ & _ & Hb & _). by split.
Qed.
Lemma kfree_checked_spec s pages n top ds va k msg :
  testing s pages n top ds → pages !! va = Some k →
  ∃ s', kfree_checked va k msg s = Ret tt s' ∧ testing s' (delete va pages) (n + k) top ds ∧
    kept (delete va pages) s s' ∧ evolves s s'.
Proof.
  intros (L & Ht & ->)%testing_frames (fs & <- & HL)%lookup_fmap_Some.
  destruct (kfree_checked_at s L n top ds va fs msg Ht HL) as (s' & Hs' & Ht' & Hk & Hev).
  exists s'. rewrite <-fmap_delete. split_and!; [done|by apply testing_at_pages|done|done].
Qed.

Lemma within_insert pages v k q : pages !! v = None → within pages q → within (<[v := k]> pages) q.
Proof. intros Hv (w & j & Hw & Hq). exists w, j. split; [|done]. rewrite lookup_insert_ne; [done|congruence]. Qed.
Lemma within_range pages v k q : pages !! v = Some k → v ≤ q < v + k * PAGE_SIZE → within pages q.
Proof. intros Hv Hq. by exists v, k. Qed.

(** Allocations one after the other, each at the first free address. *)
Fixpoint consecutive (off : Z) (l : list (Z * Z * Z)) : Prop :=
  match l with
  | [] => True
  | (size, offset, k) :: l => offset = off ∧ kpages size = k ∧ 0 < k ∧ consecutive (off + k * PAGE_SIZE) l
  end.
Definition total (l : list (Z * Z * Z)) : Z := foldr (λ x t, x.2 + t) 0 l.
Definition allocated (l : list (Z * Z * Z)) (pages : gmap Z Z) : gmap Z Z :=
  foldl (λ p x, <[KERNEL_HEAP_START + x.1.2 := x.2]> p) pages l.
Lemma total_nonneg off l : consecutive off l → 0 ≤ total l.
Proof.
  revert off. induction l as [|[[size offset] k] l IH]; intros off; cbn; [lia|].
  intros (_ & _ & ? & Hl). specialize (IH _ Hl). unfold total in IH. lia.
Qed.
Lemma allocate_list_spec l s pages n off ds :
  testing s pages n (KERNEL_HEAP_START + off) ds → consecutive off l → total l ≤ n →
  KERNEL_HEAP_START + off + total l * PAGE_SIZE < KERNEL_HEAP_MAX →
  ∃ s', mapM (λ '(size, offset, n), kmalloc_checked size offset n) l s = Ret ((λ x, KERNEL_HEAP_START + x.1.2) <$> l) s' ∧
    testing s' (allocated l pages) (n - total l) (KERNEL_HEAP_START + off + total l * PAGE_SIZE) ds ∧
    kept pages s s' ∧ evolves s s' ∧ ∀ size offset k, (size, offset, k) ∈ l → on_record s' (KERNEL_HEAP_START + offset) k.
Proof.
  revert s pages n off. induction l as [|[[size offset] k] l IH]; intros s pages n off Ht Hc Hn Hroom; cbn in *.
  { exists s. split_and!; [done| |done|done|intros ? ? ? Hin; by apply elem_of_nil in Hin].
    replace (n - 0) with n by lia. by replace (KERNEL_HEAP_START + off + 0 * PAGE_SIZE) with (KERNEL_HEAP_START + off) by lia. }
  destruct Hc as (-> & Hk & Hpos & Hc). pose proof (total_nonneg _ _ Hc). fold (total l) in *.
  destruct (kmalloc_checked_spec s pages n _ ds size off k Ht eq_refl Hk)
    as (s1 & Hs1 & Ht1 & Hkept1 & Hev1 & Hr1 & Hnone); [lia|unfold PAGE_SIZE in *; lia|].
  replace (KERNEL_HEAP_START + off + k * PAGE_SIZE) with (KERNEL_HEAP_START + (off + k * PAGE_SIZE)) in * by lia.
  destruct (IH s1 _ _ _ Ht1 Hc) as (s2 & Hs2 & Ht2 & Hkept2 & Hev2 & Hr2); [lia|unfold PAGE_SIZE in *; lia|].
  exists s2. split_and!.
  - mstep Hs1. by mstep Hs2.
  - replace (n - (k + total l)) with (n - k - total l) by lia.
    by replace (KERNEL_HEAP_START + off + (k + total l) * PAGE_SIZE)
      with (KERNEL_HEAP_START + (off + k * PAGE_SIZE) + total l * PAGE_SIZE) by lia.
  - intros q Hq. rewrite Hkept2 by (by apply within_insert). by apply Hkept1.
  - by etrans.
  - intros sz o j [[= -> -> ->]|Hin]%elem_of_cons; [by apply Hev2|by apply (Hr2 sz)].
Qed.

(** The allocations that the tests start with. *)
Definition test_pages : gmap Z Z := allocated test_allocations ∅.
Definition test_places : list Z := (λ x, KERNEL_HEAP_START + x.1.2) <$> test_allocations.
Definition place_of (i : nat) : Z := test_places !!! i.
Definition test_top : Z := KERNEL_HEAP_START + 13 * Mega + 32 * kilo.
Lemma allocate_all_spec s n ds :
  testing s ∅ n KERNEL_HEAP_START ds → 3336 ≤ n →
  ∃ s', allocate_all s = Ret test_places s' ∧
    testing s' test_pages (n - 3336) test_top ds ∧ evolves s s' ∧
    ∀ size offset k, (size, offset, k) ∈ test_allocations → on_record s' (KERNEL_HEAP_START + offset) k.
Proof.
  intros Ht Hn.
  destruct (allocate_list_spec test_allocations s ∅ n 0 ds) as (s' & Hs' & Ht' & _ & Hev & Hr); [done| |done| |].
  - vm_compute. repeat split.
  - done.
  - exists s'. split; [exact Hs'|]. split; [exact Ht'|]. by split.
Qed.

(** ** Values in the allocations *)
Lemma testing_touches s s' pages n top ds :
  testing s pages n top ds → touches F s s' →
  frames s' = frames s → pagefile s' = pagefile s → (∀ j, is_u32 (get_word s' j)) →
  testing s' pages n top ds ∧ evolves s s'.
Proof.
  intros (L & xs & m & Hat & Htd & Hp & Hx & Hf & Ho) Ht Hfr Hpf Hu. pose proof Ht as (_ & _ & _ & Hkh & _ & Hb & Hwd).
  assert (writes_only F s (on_hw (set_mem (mem (hw s'))) s)) as Hw by (split; [by eexists|exact Hwd]).
  split.
  - exists L, xs, m. split_and!; [by eapply heap_at_touches| |done|done|by rewrite Hkh|].
    + destruct (tidy_writes D T F s _ L Hw (ha_reached _ _ _ _ _ _ _ Hat) Htd) as [T1 T2 T3].
      split; rewrite ?Hkh; done.
    + destruct Ho as [O1 O2 O3 O4]. split; unfold disk_free in *; rewrite ?Hfr, ?Hpf; done.
  - split; [done|]. intros va k. unfold on_record. by rewrite Hkh.
Qed.
Lemma store8_spec s pages n top ds q b :
  testing s pages n top ds → within pages q →
  ∃ s', store8 q b s = Ret tt s' ∧ testing s' pages n top ds ∧ evolves s s' ∧
    ∀ p, within pages p → heap_byte s' p = if decide (p = q) then u8 b else heap_byte s p.
Proof.
  intros Ht Hq. pose proof Ht as (L & xs & m & Hat & _ & Hp & _). subst pages. apply (proj1 (within_live L q)) in Hq.
  destruct (store8_live D T F s L xs m q b Hat Hq) as (s' & Hs' & Hat' & Hw & Hb).
  destruct (testing_touches s s' _ n top ds Ht) as [Ht' Hev];
    [by apply touches_writes|by destruct Hw as [[mm ->] Hw]|by destruct Hw as [[mm ->] Hw]|apply (rc_words _ _ _ _ (ha_reached _ _ _ _ _ _ _ Hat'))|].
  exists s'. split_and!; [done..|]. intros p Hpl. apply Hb. by apply within_live.
Qed.

(** [c]: bytes known to be in the allocations. *)
Definition contents (s : KState) (pages c : gmap Z Z) : Prop :=
  ∀ q b, c !! q = Some b → within pages q ∧ heap_byte s q = b.
Definition bytes_at (c : gmap Z Z) (q : Z) (bs : list Z) : gmap Z Z :=
  <[q := bs !!! 0%nat]> (<[q + 1 := bs !!! 1%nat]> (<[q + 2 := bs !!! 2%nat]> (<[q + 3 := bs !!! 3%nat]> c))).
Record working (s : KState) (pages : gmap Z Z) (n top : Z) (ds : list Z) (c : gmap Z Z) : Prop := {
  wk_testing : testing s pages n top ds;
  wk_contents : contents s pages c;
}.

Section Access.
Context (s : KState) (pages : gmap Z Z) (n top : Z) (ds : list Z) (c : gmap Z Z) (Hwk : working s pages n top ds c).

Lemma write8 q b : within pages q →
  ∃ s', store8 q b s = Ret tt s' ∧ working s' pages n top ds (<[q := u8 b]> c) ∧ evolves s s'.
Proof using Hwk.
  intros Hq. destruct Hwk as [Ht Hc]. destruct (store8_spec s pages n top ds q b Ht Hq) as (s' & Hs' & Ht' & Hev & Hb).
  exists s'. split_and!; [done| |done]. split; [done|]. intros p x [[<- <-]|[Hne Hx]]%lookup_insert_Some.
  - split; [done|]. by rewrite Hb, decide_True.
  - destruct (Hc p x Hx) as [Hin <-]. split; [done|]. by rewrite Hb, decide_False.
Qed.
Lemma write32 q v : within pages q → q `mod` 4 = 0 → within pages (q + 3) →
  ∃ s', store q v s = Ret tt s' ∧ working s' pages n top ds (bytes_at c q (byte_of v <$> [0; 1; 2; 3])) ∧ evolves s s'.
Proof using Hwk.
  intros Hq Hm Hq3. destruct Hwk as [Ht Hc]. pose proof Ht as (L & xs & m & Hat & _ & Hp & _).
  pose proof Hq as Hql. rewrite Hp in Hql. apply (proj1 (within_live L q)) in Hql.
  destruct (store_live D T F s L xs m q v Hat Hql Hm) as (s' & Hs' & Hst).
  pose proof (st_mem _ _ _ _ _ _ _ _ _ _ Hst) as Hw.
  destruct (testing_touches s s' pages n top ds Ht) as [Ht' Hev];
    [by apply touches_writes|by destruct Hw as [[mm ->] Hw]|by destruct Hw as [[mm ->] Hw]|apply (rc_words _ _ _ _ (ha_reached _ _ _ _ _ _ _ (st_at _ _ _ _ _ _ _ _ _ _ Hst)))|].
  exists s'. split_and!; [done| |done]. split; [done|].
  assert (∀ p, p - p `mod` 4 = q → within pages p) as Hword.
  { intros p Hpq. destruct Hql as (w & fs & HL & Hqr). exists w, (len fs). rewrite Hp, lookup_fmap, HL. split; [done|].
    destruct (hi_live _ _ _ _ _ _ _ (ha_inv _ _ _ _ _ _ _ Hat) w fs HL) as (_ & (_ & ? & _) & _).
    unfold PAGE_SIZE in *. zdiv. }
  assert (∀ i, 0 ≤ i < 4 → within pages (q + i) ∧ heap_byte s' (q + i) = byte_of v i) as Hnew.
  { intros i Hi. assert (within pages (q + i)) as Hin by (apply Hword; zdiv). split; [done|].
    rewrite (stored_byte D T F _ _ _ _ _ _ _ (q + i) Hst Hat); [|apply within_live; by rewrite <-Hp].
    rewrite decide_True by zdiv. f_equal. zdiv. }
  intros p x. unfold bytes_at. cbn.
  intros [[<- <-]|[Hp0 [[<- <-]|[Hp1 [[<- <-]|[Hp2 [[<- <-]|[Hp3 Hx]]%lookup_insert_Some]]%lookup_insert_Some]]%lookup_insert_Some]]%lookup_insert_Some;
    [rewrite <-(Z.add_0_r q); apply Hnew; lia|apply Hnew; lia..|].
  destruct (Hc p x Hx) as [Hin <-]. split; [done|].
  rewrite (stored_byte D T F _ _ _ _ _ _ _ p Hst Hat); [|apply within_live; by rewrite <-Hp].
  rewrite decide_False; [done|]. zdiv.
Qed.

Lemma read8 q b : c !! q = Some b → load8 q s = Ret b s.
Proof using Hwk.
  intros Hq. destruct Hwk as [(L & xs & m & Hat & _ & Hp & _) Hc]. destruct (Hc q b Hq) as [Hin <-].
  apply (load8_live D T F s L xs m Hat). apply within_live. by rewrite <-Hp.
Qed.
Lemma read32 q v :
  is_u32 v → q `mod` 4 = 0 → (∀ i, 0 ≤ i < 4 → c !! (q + i) = Some (byte_of v i)) → load q s = Ret v s.
Proof using Hwk.
  intros Hv Hm Hq. destruct Hwk as [(L & xs & m & Hat & _ & Hp & _) Hc].
  assert (∀ i, 0 ≤ i < 4 → live L (q + i) ∧ byte_of (heap_word s q) i = byte_of v i) as Hb.
  { intros i Hi. destruct (Hc _ _ (Hq i Hi)) as [Hin Hby]. split; [apply within_live; by rewrite <-Hp|].
    rewrite <-Hby. unfold heap_byte. f_equal; [|zdiv]. f_equal. zdiv. }
  destruct (Hb 0) as [Hl _]; [lia|]. rewrite Z.add_0_r in Hl.
  rewrite (load_live D T F s L xs m Hat q Hl Hm). f_equal.
  destruct (live_place L q Hl) as (f & o & Hpl).
  destruct (place_word D T F s L xs m Hat q f o Hpl Hm) as (Hw & _).
  pose proof (rc_words _ _ _ _ (ha_reached _ _ _ _ _ _ _ Hat) (word f (o `div` 4))) as Hu. rewrite <-Hw in Hu.
  rewrite (word_of_bytes _ Hu), (word_of_bytes _ Hv).
  assert (∀ i, 0 ≤ i < 4 → byte_of (heap_word s q) i = byte_of v i) as Hb' by (intros i Hi; by apply Hb).
  by rewrite !Hb' by lia.
Qed.
End Access.

Lemma write16 s pages n top ds c q v :
  working s pages n top ds c → within pages q → within pages (q + 1) → is_u32 (q + 1) →
  ∃ s', store16 q v s = Ret tt s' ∧
    working s' pages n top ds (<[q + 1 := u8 (u16 v `div` 256)]> (<[q := u8 (u8 v)]> c)) ∧ evolves s s'.
Proof.
  intros Hwk Hq Hq1 Hu. destruct (write8 s _ _ _ _ _ Hwk q (u8 v) Hq) as (s1 & Hs1 & Hwk1 & Hev1).
  destruct (write8 s1 _ _ _ _ _ Hwk1 (q + 1) (u16 v `div` 256) Hq1) as (s2 & Hs2 & Hwk2 & Hev2).
  exists s2. split_and!; [|done|by etrans]. unfold store16. mstep Hs1. by rewrite u32_small.
Qed.
(** The comparisons of the tests, on the known bytes. *)
Definition read_short (c : gmap Z Z) (q : Z) : option Z :=
  lo ← c !! q; hi ← c !! (u32 (q + 1)); Some (s16 (lo + 256 * hi)).
Definition word_known (c : gmap Z Z) (q v : Z) : bool :=
  (q `mod` 4 =? 0) && forallb (λ i, bool_decide (c !! (q + i) = Some (byte_of v i))) [0; 1; 2; 3].
Section Expect.
Context (s : KState) (pages : gmap Z Z) (n top : Z) (ds : list Z) (c : gmap Z Z) (Hwk : working s pages n top ds c).
Lemma expect8_spec q v : s8 <$> c !! q = Some v → expect8 q v s = Ret tt s.
Proof using Hwk.
  intros (b & Hq & ->)%fmap_Some. unfold expect8. mstep (read8 s _ _ _ _ _ Hwk q b Hq).
  unfold expect. by rewrite Z.eqb_refl.
Qed.
Lemma expect16_spec q v : read_short c q = Some v → expect16 q v s = Ret tt s.
Proof using Hwk.
  unfold read_short. destruct (c !! q) as [lo|] eqn:Hlo; [|done]. cbn.
  destruct (c !! u32 (q + 1)) as [hi|] eqn:Hhi; [|done]. cbn. intros [= <-].
  unfold expect16, load16. rewrite bind_assoc. mstep (read8 s _ _ _ _ _ Hwk q lo Hlo).
  rewrite bind_assoc. mstep (read8 s _ _ _ _ _ Hwk _ hi Hhi). rewrite bind_mret. unfold expect. by rewrite Z.eqb_refl.
Qed.
Lemma expect32_spec q v : is_s32 v → word_known c q (u32 v) = true → expect32 q v s = Ret tt s.
Proof using Hwk.
  intros Hv [Hm Hb]%andb_true_iff. cbn in Hb. rewrite !andb_true_iff, !bool_decide_eq_true in Hb.
  unfold expect32. mstep (read32 s _ _ _ _ _ Hwk q (u32 v) (u32_range v) ltac:(by apply Z.eqb_eq)
    ltac:(intros i Hi; assert (i = 0 ∨ i = 1 ∨ i = 2 ∨ i = 3) as [-> | [-> | [-> | ->]]] by lia; tauto)).
  rewrite s32_u32, s32_small by done. unfold expect. by rewrite Z.eqb_refl.
Qed.
End Expect.


(** Code that returns, in a state that [Q] holds of. *)
Definition ends {A} (Q : A → KState → Prop) (o : outcome KState A) : Prop := ∃ a s', o = Ret a s' ∧ Q a s'.

(** Stores in sequence. *)
Section Steps.
Context {A : Type} (f : () → K A) (Q : A → KState → Prop).
Context (s : KState) (pages : gmap Z Z) (n top : Z) (ds : list Z) (c : gmap Z Z) (Hwk : working s pages n top ds c).
Lemma step8 q b :
  within pages q → (∀ s', working s' pages n top ds (<[q := u8 b]> c) → evolves s s' → ends Q (f tt s')) →
  ends Q ((store8 q b ≫= f) s).
Proof using Hwk. intros Hq Hf. destruct (write8 s _ _ _ _ _ Hwk q b Hq) as (s' & Hs' & ? & ?). mstep Hs'. auto. Qed.
Lemma step16 q v :
  within pages q → within pages (q + 1) → is_u32 (q + 1) →
  (∀ s', working s' pages n top ds (<[q + 1 := u8 (u16 v `div` 256)]> (<[q := u8 (u8 v)]> c)) → evolves s s' → ends Q (f tt s')) →
  ends Q ((store16 q v ≫= f) s).
Proof using Hwk.
  intros Hq Hq1 Hu Hf. destruct (write16 s _ _ _ _ _ q v Hwk Hq Hq1 Hu) as (s' & Hs' & ? & ?). mstep Hs'. auto.
Qed.
Lemma step32 q v :
  within pages q → q `mod` 4 = 0 → within pages (q + 3) →
  (∀ s', working s' pages n top ds (bytes_at c q (byte_of v <$> [0; 1; 2; 3])) → evolves s s' → ends Q (f tt s')) →
  ends Q ((store q v ≫= f) s).
Proof using Hwk.
  intros Hq Hm Hq3 Hf. destruct (write32 s _ _ _ _ _ Hwk q v Hq Hm Hq3) as (s' & Hs' & ? & ?). mstep Hs'. auto.
Qed.
End Steps.

Ltac in_pages := apply (bool_decide_unpack _); vm_compute; exact I.
Ltac write_step :=
  rewrite ?bind_assoc;
  match goal with
  | Hw : working ?s _ _ _ _ _ |- ends _ ((store8 _ _ ≫= _) ?s) => eapply (step8 _ _ _ _ _ _ _ _ Hw); [in_pages|]
  | Hw : working ?s _ _ _ _ _ |- ends _ ((store16 _ _ ≫= _) ?s) =>
      eapply (step16 _ _ _ _ _ _ _ _ Hw); [in_pages|in_pages|by apply (bool_decide_unpack _)|]
  | Hw : working ?s _ _ _ _ _ |- ends _ ((store _ _ ≫= _) ?s) =>
      eapply (step32 _ _ _ _ _ _ _ _ Hw); [in_pages|reflexivity|in_pages|]
  end;
  let Hw' := fresh "Hwk" in let Hev' := fresh "Hev" in
  intros ? Hw' Hev';
  match goal with Hev : evolves ?s0 ?s1, Hnew : evolves ?s1 ?s2 |- _ =>
    assert (evolves s0 s2) by (by etrans); clear Hev Hnew end;
  match goal with Hold : working ?s1 _ _ _ _ _ |- _ =>
    lazymatch type of Hw' with context [s1] => fail | _ => clear Hold end end.
Ltac expect_step :=
  rewrite ?bind_assoc;
  match goal with
  | Hw : working ?s _ _ _ _ _ |- context [expect8 ?q ?v] => 
      rewrite (bind_Ret _ _ _ _ _ (expect8_spec s _ _ _ _ _ Hw q v ltac:(vm_compute; reflexivity)))
  | Hw : working ?s _ _ _ _ _ |- context [expect16 ?q ?v] => 
      rewrite (bind_Ret _ _ _ _ _ (expect16_spec s _ _ _ _ _ Hw q v ltac:(vm_compute; reflexivity)))
  | Hw : working ?s _ _ _ _ _ |- context [expect32 ?q ?v] => 
      rewrite (bind_Ret _ _ _ _ _ (expect32_spec s _ _ _ _ _ Hw q v ltac:(done) ltac:(vm_compute; reflexivity)))
  end.
Lemma values_read_back {A} s n ds (f : () → K A) (Q : A → KState → Prop) :
  working s test_pages n test_top ds ∅ →
  (∀ s', testing s' test_pages n test_top ds → evolves s s' → ends Q (f tt s')) →
  let p := place_of in
  ends Q ((write_values (p 0) (p 1) (p 2) (p 4) (p 6) (p 7);; read_values (p 0) (p 1) (p 2) (p 4) (p 6) (p 7);; f tt) s)%nat.
Proof.
  intros Hwk Hf p. assert (evolves s s) as Hev by done. subst p. unfold write_values, write_struct.
  do 17 write_step. unfold read_values. cbv zeta. do 17 expect_step.
  eapply Hf; [by eapply wk_testing|done].
Qed.

(** ** The page tables of the heap *)
Section Tables.
Context (s : KState) (pages : gmap Z Z) (n top : Z) (ds : list Z) (Ht : testing s pages n top ds).

Lemma testing_space : kernel_space s D T.
Proof using Ht. destruct Ht as (L & xs & m & [Hi _] & _). apply (hi_ready _ _ _ _ _ _ _ Hi). Qed.
Lemma heap_table_found {A} va (f : Z * Z → K A) :
  heap_address va →
  (pgdir ← gets (ptr_page_directory ∘ boot); r ← get_page_table pgdir va; f r) s = f (TABLE_IN_MEMORY, static (T (PDX va))) s.
Proof using Ht.
  intros Hva. destruct (heap_table s D T testing_space va Hva) as [Htab _].
  rewrite bind_gets. cbn [compose]. rewrite (ks_dir _ _ _ testing_space).
  by mstep (get_page_table_present s _ _ _ _ _ Htab).
Qed.
Lemma heap_table_entry va : heap_address va → load_at (static (T (PDX va))) (PTX va) s = Ret (heap_pte s T va) s.
Proof using Ht.
  intros Hva. destruct (heap_table s D T testing_space va Hva) as [Htab _]. apply (load_entry s _ _ _ _ _ Htab).
Qed.
(** The entry of a page of an allocation. *)
Lemma within_entry va : within pages va → va `mod` PAGE_SIZE = 0 →
  heap_page va ∧ ∃ f, f ∈ F ∧ 0 ≤ f < 2 ^ 20 ∧ heap_pte s T va = entry_for f HEAP_PERM ∧
    virtualAddresses (kheap s) !!! f = va.
Proof using Ht.
  destruct Ht as (L & xs & m & Hat & Htd & -> & _). intros Hw Hm. apply (proj1 (within_live L va)) in Hw.
  destruct (live_place L va Hw) as (f & o & Hp).
  destruct (place_frame D T F s L xs m Hat va f o Hp) as (HF & Hf & Ho & _).
  pose proof Hp as (v & fs & k & HL & Hk & _ & Hva). apply lookup_lt_Some in Hk as Hlt.
  destruct (hi_live _ _ _ _ _ _ _ (ha_inv _ _ _ _ _ _ _ Hat) v fs HL) as (_ & Hr & _).
  assert (o = 0) as ->. { destruct Hr as (_ & Hv & _). unfold PAGE_SIZE in *. zdiv. }
  rewrite Z.add_0_r in Hva. subst va. split; [eapply heap_range_page; [done|lia]|].
  exists f. split_and!; [done|lia|lia| |by apply (td_reverse _ _ _ Htd)].
  by apply (hi_entry _ _ _ _ _ _ _ (ha_inv _ _ _ _ _ _ _ Hat) v fs).
Qed.

Lemma supervisor_only_spec limit :
  (∀ k, 0 ≤ k < (limit - KERNEL_HEAP_START + PAGE_SIZE - 1) `div` PAGE_SIZE → within pages (KERNEL_HEAP_START + k * PAGE_SIZE)) →
  KERNEL_HEAP_START ≤ limit → supervisor_only limit s = Ret tt s.
Proof using Ht.
  intros Hw Hl. unfold supervisor_only.
  match goal with |- forM (seqZ 0 ?c) ?g s = _ =>
    destruct (forM_seqZ (λ _ s', s' = s) g 0 c s) as (s' & Hs' & ->) end;
    [unfold PAGE_SIZE; apply Z.div_pos; lia|done| |done].
  intros k s1 Hk ->. exists s. split; [|done]. rewrite Z.add_0_l. cbv zeta.
  assert (KERNEL_HEAP_START `mod` PAGE_SIZE = 0) as HS by done.
  destruct (within_entry _ (Hw k Hk)) as (Hp & f & _ & Hf & He & _); [by rewrite Z_mod_plus_full|].
  rewrite heap_table_found by (by apply heap_page_address).
  mstep (heap_table_entry _ (heap_page_address _ Hp)). rewrite He.
  assert (has_perm (Z.land (entry_for f HEAP_PERM) 4095) PERM_USER = false) as ->; [|done].
  unfold has_perm. rewrite <-Z.land_assoc. change (Z.land 4095 PERM_USER) with PERM_USER.
  change (has_perm (entry_for f HEAP_PERM) PERM_USER = false). by rewrite has_perm_entry_for.
Qed.
End Tables.

(** ** test_kmalloc *)
Lemma every_page_within k : 0 ≤ k < 0 + 3336 → within test_pages (KERNEL_HEAP_START + k * PAGE_SIZE).
Proof. revert k. apply (range_all (λ k, within test_pages (KERNEL_HEAP_START + k * PAGE_SIZE))). by vm_compute. Qed.

Lemma test_kmalloc_returns s n ds :
  testing s ∅ n KERNEL_HEAP_START ds → 3336 ≤ n →
  ends (λ r s', r = 1 ∧ testing s' test_pages (n - 3336) test_top ds) (test_kmalloc s).
Proof.
  intros Ht Hn. unfold test_kmalloc. mstep (free_frames_count _ _ _ _ _ Ht).
  mstep (kmalloc_refused_spec _ _ _ _ _ Ht (KERNEL_HEAP_MAX - KERNEL_HEAP_START + 1) ltac:(by vm_compute)).
  destruct (allocate_all_spec s n ds Ht Hn) as (s1 & Hs1 & Ht1 & _). mstep Hs1. cbv zeta.
  repeat change (test_places !!! ?i) with (place_of i).
  mstep (free_frames_count _ _ _ _ _ Ht1). mstep (disk_frames_count _ _ _ _ _ Ht1).
  match goal with |- ends ?Q ((_ ≫= λ _, _ ≫= ?g) _) => apply (values_read_back s1 (n - 3336) ds g Q) end;
    [split; [done|intros q b Hq; by rewrite lookup_empty in Hq]|].
  intros s2 Ht2 _. mstep (frames_taken_spec _ _ _ _ _ Ht2 (n - 3336) 0 ltac:(lia) ltac:(lia)).
  mstep (page_file_unchanged_spec _ _ _ _ _ Ht2).
  match goal with |- context [kmalloc_refused ?sz] =>
    mstep (kmalloc_refused_spec _ _ _ _ _ Ht2 sz ltac:(vm_compute; discriminate)) end.
  assert (place_of 7 + 16 * kilo = test_top) as -> by reflexivity.
  mstep (supervisor_only_spec _ _ _ _ _ Ht2 test_top every_page_within ltac:(vm_compute; discriminate)).
  by exists 1, s2.
Qed.

(** What was an allocation is freed again. *)
Lemma kfree_again_spec s pages n top ds va k msg :
  testing s pages n top ds → on_record s va k → heap_range va k →
  (∀ q, va ≤ q < va + k * PAGE_SIZE → ¬ within pages q) →
  ∃ s', kfree_checked va 0 msg s = Ret tt s' ∧ testing s' pages n top ds ∧ evolves s s'.
Proof using H0.
  intros Ht Hrec Hr Hdead. pose proof Ht as (L & xs & m & Hat & Htd & Hp & Hx & Hf & Ho).
  destruct (kfree_again D T F s L xs m va k Hat Htd Hrec Hr) as (s' & Hs' & Hb); [|done|].
  { intros q Hq Hl. apply (Hdead q Hq). rewrite Hp. by apply within_live. }
  assert (testing s' pages n top ds) as Ht'.
  { exists L, xs, m. split_and!; [by eapply heap_at_bookkeeping|by eapply tidy_bookkeeping|done|done| |].
    - destruct Hb as (_ & -> & _). done.
    - destruct Hb as ((g & ->) & _). eapply outside_footprint; [apply on_kheap_footprint|done]. }
  exists s'. split_and!; [|done|].
  - unfold kfree_checked. mstep (free_frames_count _ _ _ _ _ Ht). mstep (disk_frames_count _ _ _ _ _ Ht). mstep Hs'.
    mstep (page_file_unchanged_spec _ _ _ _ _ Ht'). by apply (frames_freed_spec _ _ _ _ _ Ht'); lia.
  - split; [by destruct Hb as ((g & ->) & _)|]. intros. by eapply on_record_bookkeeping.
Qed.
End Testing.
