(* ===== verification/TestKHeapPass.v ===== *)
(** * The tests of kfree and of the address conversions *)
From S2P Require Import Prelude Machine Queue State AddressSpace PageFlags FrameAlloc FrameAllocSpec Paging PagingSpec KHeap KHeapSpec KHeapInv HeapMem PageFile PageFileSpec WorkingSet Fault UserEnv Sched Syscall TestKHeap TestKHeapSpec.

Lemma mapM_same {S A B} (f : A → M S B) (g : A → B) l s :
  (∀ x, x ∈ l → f x s = Ret (g x) s) → mapM f l s = Ret (g <$> l) s.
Proof.
  induction l as [|x l IH]; intros Hf; [done|]. cbn. mstep (Hf x ltac:(by left)).
  mstep (IH ltac:(intros y Hy; apply Hf; by right)). done.
Qed.
(** Pages of one table. *)
Lemma table_page va j :
  KERNEL_HEAP_START ≤ va → va `mod` PTSIZE = 0 → 0 ≤ j < 1024 → va + j * PAGE_SIZE < 2 ^ 32 →
  PDX (va + j * PAGE_SIZE) = PDX va ∧ PTX (va + j * PAGE_SIZE) = j.
Proof.
  unfold KERNEL_HEAP_START. intros Hs Hm Hj Hb. rewrite PTX_eq, !PDX_eq.
  unfold PTSIZE, PAGE_SIZE, NPTENTRIES in *. rewrite !u32_small by (unfold is_u32; lia). split; zdiv.
Qed.

Section Tests.
Context `{Extern} (D : Z) (T : Z → Z) (F : list Z) (H0 : 0 ∉ F).
Notation testing := (testing D T F).
Notation testing_at := (testing_at D T F).
Notation len fs := (Z.of_nat (length fs)).

Section Tables.
Context (s : KState) (pages : gmap Z Z) (n top : Z) (ds : list Z) (Ht : testing s pages n top ds).

Lemma table_of_heap va : heap_address va → table_of va s = Ret (static (T (PDX va))) s.
Proof using Ht.
  intros Hva. unfold table_of. rewrite (heap_table_found D T F s pages n top ds Ht va _ Hva).
  rewrite (proj2 (Z.eqb_neq _ 0)); [done|].
  destruct (heap_table s D T (testing_space D T F s pages n top ds Ht) va Hva) as [Htab _]. apply (ht_null _ _ _ _ _ _ Htab).
Qed.
Lemma entry_of_page va j :
  KERNEL_HEAP_START ≤ va → va `mod` PTSIZE = 0 → 0 ≤ j < 1024 → va + j * PAGE_SIZE < 2 ^ 32 →
  load_at (static (T (PDX va))) j s = Ret (heap_pte s T (va + j * PAGE_SIZE)) s.
Proof using Ht.
  intros Hs Hm Hj Hb. destruct (table_page va j Hs Hm Hj Hb) as [<- Hx].
  rewrite <-(heap_table_entry D T F s pages n top ds Ht) by (unfold heap_address, PAGE_SIZE in *; lia). by rewrite Hx.
Qed.

(** The walk over the tables visits the pages in order. *)
Context (start endVA : Z) (Hstart : KERNEL_HEAP_START ≤ start) (Halign : start `mod` PTSIZE = 0)
  (Hend : start ≤ endVA) (Hmax : endVA ≤ KERNEL_HEAP_MAX).
Notation N := ((endVA - start + PAGE_SIZE - 1) `div` PAGE_SIZE).

Lemma each_table_spec body :
  (∀ t j, 0 ≤ t → 0 ≤ j < 1024 → t * 1024 + j < N →
     body (start + t * PTSIZE) (static (T (PDX (start + t * PTSIZE)))) j (t * 1024 + j) s = Ret tt s) →
  each_table body N start endVA s = Ret tt s.
Proof using Ht Hstart Halign Hend Hmax.
  intros Hbody.
  assert (0 ≤ N < 40 * 1024) as HN by (unfold KERNEL_HEAP_START, KERNEL_HEAP_MAX, PAGE_SIZE in *; zdiv).
  set (m := (N + 1023) `div` 1024). assert (0 ≤ m ≤ 40) as Hm by (unfold m; zdiv).
  unfold each_table. replace 1025%nat with (Z.to_nat m + Datatypes.S (1024 - Z.to_nat m))%nat by lia.
  set (f (t : nat) := (start + Z.of_nat t * PTSIZE, Z.min (Z.of_nat t * 1024) N)).
  replace (start, 0) with (f 0%nat) by (unfold f; f_equal; lia).
  rewrite (mloop_steps _ f).
  - apply mloop_break. unfold f. rewrite Z2Nat.id by lia. rewrite (proj2 (Z.ltb_ge _ _)); [done|].
    unfold m, PTSIZE, NPTENTRIES, PAGE_SIZE in *. zdiv.
  - intros t Hlt. unfold f. set (va := start + Z.of_nat t * PTSIZE). set (i := Z.of_nat t * 1024).
    assert (i < N) as Hi by (unfold i, m in *; zdiv). rewrite (Z.min_l i) by lia.
    assert (va < endVA) as Hva by (unfold va, i, PTSIZE, NPTENTRIES, PAGE_SIZE in *; zdiv).
    rewrite (proj2 (Z.ltb_lt _ _)) by done. cbn [negb].
    assert (table_entries (body va) N va i s = Ret (Z.min (i + 1024) N) s) as Hte.
    { unfold table_entries.
      mstep (table_of_heap va ltac:(unfold heap_address, va, KERNEL_HEAP_MAX, PTSIZE, NPTENTRIES, PAGE_SIZE in *; lia)).
      set (r := Z.min 1024 (N - i)). replace 1025%nat with (Z.to_nat r + Datatypes.S (1024 - Z.to_nat r))%nat by lia.
      set (g (j : nat) := (Z.of_nat j, i + Z.of_nat j)).
      replace (0, i) with (g 0%nat) by (unfold g; f_equal; lia). rewrite (mloop_steps _ g).
      - apply mloop_break. unfold g. rewrite Z2Nat.id by lia.
        replace ((i + r <? N) && (r <? 1024)) with false
          by (symmetry; apply andb_false_iff; rewrite !Z.ltb_ge; lia).
        unfold mret, M_ret. do 2 f_equal. lia.
      - intros j Hj. unfold g. rewrite !(proj2 (Z.ltb_lt _ _)) by lia. cbn [andb negb].
        mstep (Hbody (Z.of_nat t) (Z.of_nat j) ltac:(lia) ltac:(lia) ltac:(unfold i in *; lia)).
        unfold mret, M_ret. do 3 f_equal; lia. }
    mstep Hte. unfold mret, M_ret. do 3 f_equal; unfold va, i in *; lia.
Qed.

Lemma heap_pte_u32 va : is_u32 (heap_pte s T va).
Proof using Ht. destruct Ht as (L & xs & m & [_ HR] & _). apply (rc_words _ _ _ _ HR). Qed.
Lemma land_page e : is_u32 e → Z.land e 0xFFFFF000 = frame_of e * PAGE_SIZE.
Proof. intros He. rewrite <-EXTRACT_frame_of. unfold EXTRACT_ADDRESS. by rewrite (u32_small e He). Qed.

Definition address_in (s : KState) (va : Z) : Z := frame_of (heap_pte s T va) * PAGE_SIZE.
Lemma physical_checked_spec :
  4 * ((endVA - start) `div` PAGE_SIZE) ≤ KERNEL_STACK_SIZE → physical_checked start endVA s = Ret tt s.
Proof using Ht Hstart Halign Hend Hmax.
  intros Hfits.
  assert (0 ≤ N) as HN by (unfold PAGE_SIZE; apply Z.div_pos; lia).
  assert (∀ k, 0 ≤ k < N → heap_address (start + k * PAGE_SIZE)) as Hk
    by (unfold heap_address, KERNEL_HEAP_MAX, PAGE_SIZE in *; intros k Hk; zdiv).
  unfold physical_checked, on_stack. rewrite (proj2 (Z.ltb_ge _ _) Hfits), bind_mret.
  assert (mapM (λ k, kheap_physical_address (start + k * PAGE_SIZE)) (seqZ 0 N) s =
    Ret ((λ k, address_in s (start + k * PAGE_SIZE)) <$> seqZ 0 N) s) as HPAs.
  { apply mapM_same. intros k Hin. apply elem_of_seqZ in Hin.
    apply (kheap_physical_address_spec s D T (testing_space D T F s pages n top ds Ht)); [apply Hk; lia|apply heap_pte_u32]. }
  mstep HPAs.
  rewrite length_fmap, length_seqZ, Z2Nat.id by done. apply each_table_spec.
  intros t j Htb Hj Hlt. assert (start + t * PTSIZE + j * PAGE_SIZE = start + (t * 1024 + j) * PAGE_SIZE) as Hva
    by (unfold PTSIZE, NPTENTRIES, PAGE_SIZE; lia).
  destruct (Hk (t * 1024 + j) ltac:(lia)) as [_ Hb].
  rewrite (bind_Ret _ _ _ _ _ (entry_of_page (start + t * PTSIZE) j ltac:(unfold PTSIZE, NPTENTRIES, PAGE_SIZE in *; lia)
    ltac:(by rewrite Z_mod_plus_full) Hj ltac:(by rewrite Hva))).
  rewrite Hva, land_page by apply heap_pte_u32. fold (address_in s (start + (t * 1024 + j) * PAGE_SIZE)).
  rewrite (list_lookup_total_fmap _ _ _), (list_lookup_total_correct _ _ (t * 1024 + j)).
  - by rewrite Z.eqb_refl.
  - apply lookup_seqZ. lia.
  - rewrite length_seqZ. lia.
Qed.
End Tables.

(** ** Freeing the first, the second and the seventh allocation *)
Lemma within_delete pages v q : within (delete v pages) q → within pages q.
Proof. intros (w & k & [_ Hw]%lookup_delete_Some & Hq). by exists w, k. Qed.
Definition pages_left : gmap Z Z := delete (place_of 6) (delete (place_of 1) (delete (place_of 0) test_pages)).
Definition frames_left (L : gmap Z (list Z)) : gmap Z (list Z) :=
  delete (place_of 6) (delete (place_of 1) (delete (place_of 0) L)).
Lemma frames_left_pages L : (λ fs, len fs) <$> L = test_pages → (λ fs, len fs) <$> frames_left L = pages_left.
Proof. intros HL. unfold frames_left, pages_left. by rewrite !fmap_delete, HL. Qed.
Lemma free_some_spec s L n ds :
  testing_at s L n test_top ds → (λ fs, len fs) <$> L = test_pages →
  ∃ s', free_some (place_of 0) (place_of 1) (place_of 6) s = Ret tt s' ∧
    testing_at s' (frames_left L) (n + 2560) test_top ds ∧ kept pages_left s s' ∧ evolves s s'.
Proof.
  intros Ht HLp.
  assert (∀ v k, test_pages !! v = Some k → ∃ fs, L !! v = Some fs ∧ len fs = k) as Hall
    by (intros v k; rewrite <-HLp; intros (fs & <- & HL)%lookup_fmap_Some; by exists fs).
  destruct (Hall (place_of 0) 512) as (fs0 & HL0 & Hl0); [reflexivity|].
  destruct (Hall (place_of 1) 512) as (fs1 & HL1 & Hl1); [reflexivity|].
  destruct (Hall (place_of 6) 1536) as (fs6 & HL6 & Hl6); [reflexivity|].
  unfold free_some.
  destruct (kfree_checked_at D T F s _ _ _ _ (place_of 0) fs0 NOT_FREED Ht HL0) as (s1 & Hs1 & Ht1 & Hk1 & He1).
  destruct (kfree_checked_at D T F s1 _ _ _ _ (place_of 1) fs1 NOT_FREED Ht1) as (s2 & Hs2 & Ht2 & Hk2 & He2);
    [by rewrite lookup_delete_ne|].
  destruct (kfree_checked_at D T F s2 _ _ _ _ (place_of 6) fs6 NOT_FREED Ht2) as (s3 & Hs3 & Ht3 & Hk3 & He3);
    [by rewrite !lookup_delete_ne|].
  rewrite Hl0 in *. rewrite Hl1 in *. rewrite Hl6 in *. rewrite fmap_delete, HLp in Hk1. rewrite !fmap_delete, HLp in Hk2. rewrite !fmap_delete, HLp in Hk3.
  exists s3. split_and!.
  - mstep Hs1. mstep Hs2. exact Hs3.
  - replace (n + 2560) with (n + 512 + 512 + 1536) by lia. exact Ht3.
  - intros q Hq. pose proof (within_delete _ _ _ Hq) as Hq2. pose proof (within_delete _ _ _ Hq2) as Hq1.
    rewrite Hk3 by done. rewrite Hk2 by done. by apply Hk1.
  - etrans; [exact He1|]. by etrans.
Qed.

(** ** test_kheap_phys_addr *)
(** The array of the last part, 36863 words, is larger than the kernel's stack. *)
Lemma test_kheap_phys_addr_overflows s n ds :
  testing s ∅ n KERNEL_HEAP_START ds → 3336 ≤ n →
  ∃ s', test_kheap_phys_addr s = Crash (Undefined "kernel stack") s' ∧ testing s' pages_left (n - 776) test_top ds.
Proof.
  intros Ht Hn. unfold test_kheap_phys_addr. mstep (free_frames_count _ _ _ _ _ _ _ _ Ht).
  destruct (allocate_all_spec D T F s n ds Ht Hn) as (s1 & Hs1 & Ht1 & _). mstep Hs1. cbv zeta.
  repeat change (test_places !!! ?i) with (place_of i).
  mstep (physical_checked_spec s1 _ _ _ _ Ht1 KERNEL_HEAP_START test_top
    ltac:(done) ltac:(done) ltac:(vm_compute; discriminate) ltac:(vm_compute; discriminate) ltac:(vm_compute; discriminate)).
  destruct (testing_frames D T F _ _ _ _ _ Ht1) as (L & HtL & HLp).
  destruct (free_some_spec s1 L _ ds HtL (eq_sym HLp)) as (s2 & Hs2 & HtL2 & _). mstep Hs2.
  pose proof (testing_at_pages D T F _ _ _ _ _ HtL2) as Ht2. rewrite (frames_left_pages L (eq_sym HLp)) in Ht2.
  mstep (physical_checked_spec s2 _ _ _ _ Ht2 KERNEL_HEAP_START test_top
    ltac:(done) ltac:(done) ltac:(vm_compute; discriminate) ltac:(vm_compute; discriminate) ltac:(vm_compute; discriminate)).
  exists s2. split; [reflexivity|]. by replace (n - 776) with (n - 3336 + 2560) by lia.
Qed.

(** ** test_kheap_virt_addr *)
Definition heap_page_at (k : Z) : Z := KERNEL_HEAP_START + k * PAGE_SIZE.
Section Virtual.
Context (s1 : KState) (L : gmap Z (list Z)) (n : Z) (ds : list Z).
Context (Ht1 : testing_at s1 L n test_top ds) (HLp : (λ fs, len fs) <$> L = test_pages).
Definition pa_of (k : Z) : Z := address_in s1 (heap_page_at k).

(** Page [k] is backed by a frame of an allocation. *)
Lemma page_frame k : 0 ≤ k < 3336 →
  ∃ f, place L (heap_page_at k) f 0 ∧ f ∈ F ∧ 0 ≤ f < 2 ^ 20 ∧ pa_of k = f * PAGE_SIZE.
Proof using Ht1 HLp.
  intros Hk. pose proof (every_page_within k ltac:(lia)) as Hw. rewrite <-HLp in Hw.
  apply (proj1 (within_live L _)) in Hw as (v & fs & HL & Hq).
  pose proof Ht1 as (xs & m & Hat & _). pose proof (ha_inv _ _ _ _ _ _ _ Hat) as Hi.
  destruct (hi_live _ _ _ _ _ _ _ Hi v fs HL) as (_ & (_ & Hm & _) & _).
  fold (heap_page_at k) in Hq. set (i := Z.to_nat ((heap_page_at k - v) / PAGE_SIZE)).
  assert (heap_page_at k = v + Z.of_nat i * PAGE_SIZE) as Hva
    by (unfold i, heap_page_at, KERNEL_HEAP_START, PAGE_SIZE in *; zdiv).
  destruct (lookup_lt_is_Some_2 fs i) as [f Hf]; [unfold PAGE_SIZE in *; lia|].
  assert (place L (heap_page_at k) f 0) as Hp by (exists v, fs, i; rewrite Hva; split_and!; try done; lia).
  destruct (place_frame D T F s1 L xs m Hat _ f 0 Hp) as (HF & Hf20 & _).
  exists f. split_and!; [done|done|lia|lia|]. unfold pa_of, address_in.
  rewrite Hva, (hi_entry _ _ _ _ _ _ _ Hi v fs i f HL Hf). by rewrite frame_of_entry_for.
Qed.

Lemma virtual_address_at s f : 0 ≤ f < 2 ^ 20 →
  kheap_virtual_address (f * PAGE_SIZE) s = Ret (virtualAddresses (kheap s) !!! f) s.
Proof.
  intros Hf. unfold kheap_virtual_address, gets. rewrite u32_small by (unfold is_u32, PAGE_SIZE; lia).
  unfold PAGE_SIZE. by rewrite Z.div_mul.
Qed.

(** The conversions of these pages in a later state, some of the allocations gone. *)
Lemma virtual_now_spec s2 L2 n2 first last va :
  testing_at s2 L2 n2 test_top ds → L2 ⊆ L → 0 ≤ first ≤ last → last ≤ 3336 →
  (∀ i, first ≤ i < last → (live L2 (heap_page_at i) ∧ va i = heap_page_at i) ∨ (¬ live L2 (heap_page_at i) ∧ va i = 0)) →
  virtual_now (pa_of <$> seqZ 0 3336) first last va s2 = Ret tt s2.
Proof using Ht1 HLp.
  intros (xs2 & m2 & Hat2 & Htd2 & _) Hsub Hfl Hl Hva. unfold virtual_now.
  match goal with |- forM (seqZ ?a ?c) ?g _ = _ =>
    destruct (forM_seqZ (λ _ s', s' = s2) g a c s2) as (s' & Hs' & ->) end; [lia|done| |done].
  intros i s Hi ->. exists s2. split; [|done].
  destruct (page_frame (first + i) ltac:(lia)) as (f & Hp & _ & Hf & Hpa).
  rewrite (list_lookup_total_fmap _ _ _) by (rewrite length_seqZ; lia).
  rewrite (list_lookup_total_correct _ _ (first + i)) by (apply lookup_seqZ; lia).
  rewrite Hpa. mstep (virtual_address_at s2 f Hf).
  assert (virtualAddresses (kheap s2) !!! f = va (first + i)) as ->; [|by rewrite Z.eqb_refl].
  assert (∀ q g, place L2 q g 0 → place L q g 0) as Hpl.
  { intros q g (v & fs & k & HL & Hk). exists v, fs, k. split; [by eapply lookup_weaken|done]. }
  destruct (Hva (first + i) ltac:(lia)) as [[Hlv ->]|[Hnl ->]].
  - apply (td_reverse _ _ _ Htd2). destruct Hlv as (v & fs & HL & Hq).
    destruct Hp as (v' & fs' & k & HL' & Hk & _ & Hq').
    pose proof Ht1 as (xs & m & Hat & _). pose proof (ha_inv _ _ _ _ _ _ _ Hat) as Hinv.
    assert (L !! v = Some fs) as HLv by (by eapply lookup_weaken). apply lookup_lt_Some in Hk as Hlt.
    destruct (decide (v = v')) as [<-|Hne]; [simplify_eq; by eexists v, _, k|].
    exfalso. apply (live_pages_differ D T F s1 L xs m v fs v' fs' ((heap_page_at (first + i) - v) / PAGE_SIZE) (Z.of_nat k) Hinv HLv HL' Hne);
      [unfold PAGE_SIZE in *; zdiv|lia|].
    destruct (hi_live _ _ _ _ _ _ _ Hinv v fs HLv) as (_ & (_ & Hm & _) & _).
    destruct (hi_live _ _ _ _ _ _ _ Hinv v' fs' HL') as (_ & (_ & Hm' & _) & _). unfold PAGE_SIZE in *. zdiv.
  - apply (td_free _ _ _ Htd2). intros (q & Hq)%held_place. pose proof Ht1 as (xs & m & Hat & _).
    pose proof (place_inj D T F s1 L xs m Hat q (heap_page_at (first + i)) f 0 (Hpl _ _ Hq) Hp) as ->.
    by apply Hnl, (place_live L2 _ f 0).
Qed.

Lemma virtual_checked_spec : virtual_checked s1 = Ret (pa_of <$> seqZ 0 3336) s1.
Proof using Ht1 HLp.
  pose proof (testing_at_pages D T F _ _ _ _ _ Ht1) as Ht. pose proof Ht1 as (xs & m & Hat & Htd & _).
  set (seen (i : nat) := pa_of <$> seqZ 0 (Z.of_nat i)).
  unfold virtual_checked. replace 1025%nat with (4 + 1021)%nat by lia.
  set (f (t : nat) := (KERNEL_HEAP_START + Z.of_nat t * PTSIZE, Z.of_nat (Nat.min (t * 1024) 3336), seen (Nat.min (t * 1024) 3336))).
  change (KERNEL_HEAP_START, 0, []) with (f 0%nat). rewrite (mloop_steps _ f).
  { by apply mloop_break. }
  intros t Hlt. unfold f. set (va := KERNEL_HEAP_START + Z.of_nat t * PTSIZE).
  assert (KERNEL_HEAP_START ≤ va ∧ va `mod` PTSIZE = 0 ∧ va < test_top) as (Hva & Hmod & Htop).
  { unfold va. change test_top with (KERNEL_HEAP_START + 13664256). unfold PTSIZE, NPTENTRIES, PAGE_SIZE, KERNEL_HEAP_START. zdiv. }
  change (KERNEL_HEAP_START + 13 * Mega + 32 * kilo) with test_top.
  rewrite (proj2 (Z.ltb_lt _ _)) by done. cbn [negb].
  assert (test_top < 2 ^ 32) as Htop32 by done.
  mstep (table_of_heap s1 _ _ _ _ Ht va ltac:(unfold heap_address; lia)).
  set (i0 := (t * 1024)%nat). replace (Nat.min i0 3336) with i0 by lia.
  set (r := Nat.min 1024 (3336 - i0)). change numOfFrames with 3336.
  match goal with |- context [mloop (4 + 1021) ?body _] => set (b := body) end.
  assert (mloop (4 + 1021) b (0, Z.of_nat i0, seen i0) s1 = Ret (Z.of_nat (i0 + r), seen (i0 + r)%nat) s1) as Hin.
  { replace (4 + 1021)%nat with (r + Datatypes.S (1024 - r))%nat by lia.
    set (g (j : nat) := (Z.of_nat j, Z.of_nat (i0 + j), seen (i0 + j)%nat)).
    replace (0, Z.of_nat i0, seen i0) with (g 0%nat) by (unfold g; by rewrite Nat.add_0_r).
    rewrite (mloop_steps _ g).
    - apply mloop_break. unfold g, b.
      replace ((Z.of_nat (i0 + r) <? 3336) && (Z.of_nat r <? 1024)) with false
        by (symmetry; apply andb_false_iff; rewrite !Z.ltb_ge; lia). done.
    - intros j Hj. unfold g, b. rewrite !(proj2 (Z.ltb_lt _ _)) by lia. cbn [andb negb].
      assert (va + Z.of_nat j * PAGE_SIZE = heap_page_at (Z.of_nat (i0 + j))) as Hpage
        by (unfold va, heap_page_at, i0, PTSIZE, NPTENTRIES, PAGE_SIZE; lia).
      assert (heap_page_at (Z.of_nat (i0 + j)) < 2 ^ 32) as Hlt32
        by (unfold heap_page_at, KERNEL_HEAP_START, PAGE_SIZE; lia).
      mstep (entry_of_page s1 _ _ _ _ Ht va (Z.of_nat j) Hva Hmod ltac:(lia) ltac:(by rewrite Hpage)). cbv zeta.
      rewrite land_page by (by apply (heap_pte_u32 s1 _ _ _ _ Ht)). rewrite Hpage.
      fold (address_in s1 (heap_page_at (Z.of_nat (i0 + j)))). fold (pa_of (Z.of_nat (i0 + j))).
      destruct (page_frame (Z.of_nat (i0 + j)) ltac:(lia)) as (fr & Hp & _ & Hfr & Hpa). rewrite Hpa.
      mstep (virtual_address_at s1 fr Hfr). rewrite (td_reverse _ _ _ Htd _ _ Hp), Z.eqb_refl. cbn [assert_].
      rewrite bind_mret, <-Hpa. unfold mret, M_ret.
      rewrite Nat.add_succ_r. unfold seen. rewrite seqZ_S, fmap_app, !Nat2Z.inj_succ. done. }
  mstep Hin. replace (Nat.min (Datatypes.S t * 1024) 3336)%nat with (i0 + r)%nat by lia.
  replace (KERNEL_HEAP_START + Z.of_nat (Datatypes.S t) * PTSIZE) with (va + PTSIZE) by (unfold va; lia). done.
Qed.
End Virtual.

(** The frames of the kernel's image are not frames of the heap. *)
Lemma kernel_code_spec s L n top ds :
  testing_at s L n top ds →
  (∀ f, f ∈ F → 256 ≤ f → u32 (end_of_kernel (boot s) - KERNEL_BASE) ≤ f * PAGE_SIZE) →
  kernel_code_not_in_heap s = Ret tt s.
Proof.
  intros Ht Hcode. unfold kernel_code_not_in_heap. rewrite bind_gets. cbn [compose]. cbv zeta.
  set (e := u32 (end_of_kernel (boot s) - KERNEL_BASE)) in *. assert (is_u32 e) as He by apply u32_range.
  match goal with |- forM (seqZ 0 ?c) ?g _ = _ => set (count := c); destruct (decide (0 ≤ count)) as [Hc|Hc] end;
    [|rewrite seqZ_nil by lia; done].
  match goal with |- forM (seqZ 0 ?c) ?g _ = _ => destruct (forM_seqZ (λ _ s', s' = s) g 0 c s) as (s' & Hs' & ->) end;
    [done|done| |done].
  intros k s' Hk ->. exists s. split; [|done]. rewrite Z.add_0_l.
  assert ((256 + k) * PAGE_SIZE < e) as Hke by (unfold count, Mega, PAGE_SIZE in *; zdiv).
  replace (1 * Mega + k * PAGE_SIZE) with ((256 + k) * PAGE_SIZE) by (unfold Mega, PAGE_SIZE; lia).
  mstep (virtual_address_at s (256 + k) ltac:(unfold is_u32, PAGE_SIZE in *; lia)).
  destruct Ht as (xs & m & Hat & Htd & _). rewrite (td_free _ _ _ Htd); [done|].
  intros (q & Hq)%held_place. destruct (place_frame D T F s L xs m Hat q _ 0 Hq) as (HF & _).
  pose proof (Hcode _ HF ltac:(lia)). lia.
Qed.

Lemma offset_left i :
  0 ≤ i < 0 + 3336 → bool_decide (within pages_left (heap_page_at i)) = negb ((i <? 1024) || ((1796 <=? i) && (i <? 3332))).
Proof.
  revert i. apply (range_all (λ i, bool_decide (within pages_left (heap_page_at i)) =
    negb ((i <? 1024) || ((1796 <=? i) && (i <? 3332))))). vm_compute. reflexivity.
Qed.
Lemma test_kheap_virt_addr_returns s n ds :
  testing s ∅ n KERNEL_HEAP_START ds → 3336 ≤ n →
  (∀ f, f ∈ F → 256 ≤ f → u32 (end_of_kernel (boot s) - KERNEL_BASE) ≤ f * PAGE_SIZE) →
  ends (λ r s', r = 1 ∧ testing s' pages_left (n - 776) test_top ds) (test_kheap_virt_addr s).
Proof.
  intros Ht Hn Hcode. unfold test_kheap_virt_addr. mstep (free_frames_count _ _ _ _ _ _ _ _ Ht).
  destruct (allocate_all_spec D T F s n ds Ht Hn) as (s1 & Hs1 & Ht1 & [Hb1 _] & _). mstep Hs1. cbv zeta.
  repeat change (test_places !!! ?i) with (place_of i).
  destruct (testing_frames D T F _ _ _ _ _ Ht1) as (L & HtL & HLp%eq_sym).
  change (on_stack numOfFrames) with (mret tt : K unit). rewrite bind_mret.
  mstep (virtual_checked_spec s1 L _ _ HtL HLp).
  destruct (free_some_spec s1 L _ ds HtL HLp) as (s2 & Hs2 & HtL2 & _ & [Hb2 _]). mstep Hs2.
  assert (frames_left L ⊆ L) as Hsub by (unfold frames_left; by repeat (etrans; [apply delete_subseteq|])).
  assert (∀ q, live (frames_left L) q ↔ within pages_left q) as Hlive
    by (intros q; rewrite <-(frames_left_pages L HLp); symmetry; apply within_live).
  assert (∀ first last va, 0 ≤ first ≤ last → last ≤ 3336 →
    (∀ i, first ≤ i < last → va i = if negb ((i <? 1024) || ((1796 <=? i) && (i <? 3332))) then heap_page_at i else 0) →
    virtual_now (pa_of s1 <$> seqZ 0 3336) first last va s2 = Ret tt s2) as Hnow.
  { intros first last va Hfl Hl Hva. apply (virtual_now_spec s1 L _ ds HtL HLp s2 _ _ _ _ va HtL2 Hsub Hfl Hl).
    intros i Hi. rewrite (Hva i Hi), <-offset_left by lia. case_bool_decide; [left|right]; by rewrite Hlive. }
  change ((4 * Mega) / PAGE_SIZE) with 1024. change ((7 * Mega + 16 * kilo) / PAGE_SIZE) with 1796.
  change ((13 * Mega + 16 * kilo) / PAGE_SIZE) with 3332. change ((13 * Mega + 32 * kilo) / PAGE_SIZE) with 3336.
  set (PAs := pa_of s1 <$> seqZ 0 3336) in *. clearbody PAs.
  do 4 match goal with |- ends _ ((virtual_now _ ?a ?b ?va ≫= ?f) _) =>
    rewrite (bind_Ret _ f _ _ _ (Hnow a b va ltac:(lia) ltac:(lia)
      ltac:(intros i Hi; destruct (Z.ltb_spec i 1024), (Z.leb_spec 1796 i), (Z.ltb_spec i 3332); cbn; (reflexivity || lia)))) end.
  mstep (kernel_code_spec s2 _ _ _ _ HtL2 ltac:(intros f Hf; rewrite Hb2, Hb1; by apply Hcode)).
  pose proof (testing_at_pages D T F _ _ _ _ _ HtL2) as Ht2. rewrite (frames_left_pages L HLp) in Ht2.
  exists 1, s2. split_and!; [done|done|]. by replace (n - 776) with (n - 3336 + 2560) by lia.
Qed.

(** ** test_kfree *)

(** Blocks of equal bytes. *)
Definition filled (s : KState) (p n v : Z) : Prop := ∀ i, 0 ≤ i < n → heap_byte s (p + i) = v.
Definition block (pages : gmap Z Z) (p n : Z) : Prop := ∀ i, 0 ≤ i < n → within pages (p + i).
Lemma filled_kept pages s s' p n v : kept pages s s' → block pages p n → filled s p n v → filled s' p n v.
Proof. intros Hk Hb Hf i Hi. rewrite Hk by auto. auto. Qed.
Lemma block_range pages v k p n : pages !! v = Some k → v ≤ p → p + n ≤ v + k * PAGE_SIZE → block pages p n.
Proof. intros Hv Hp Hn i Hi. apply (within_range pages v k); [done|lia]. Qed.

Lemma within_below s pages n top ds q : testing s pages n top ds → within pages q → q < top.
Proof.
  intros (L & xs & m & Hat & _ & -> & _ & <- & _) (v & fs & HL & Hq)%within_live.
  destruct (hi_live _ _ _ _ _ _ _ (ha_inv _ _ _ _ _ _ _ Hat) v fs HL) as (_ & _ & ?). lia.
Qed.

Lemma fill_spec s pages n top ds p size v :
  testing s pages n top ds → block pages p size → 0 ≤ size →
  ∃ s', fill p size v s = Ret tt s' ∧ testing s' pages n top ds ∧ evolves s s' ∧ filled s' p size (u8 v) ∧
    ∀ q, within pages q → ¬ (p ≤ q < p + size) → heap_byte s' q = heap_byte s q.
Proof.
  intros Ht Hb Hsz. unfold fill.
  destruct (forM_seqZ (λ k s', testing s' pages n top ds ∧ evolves s s' ∧
      ∀ q, within pages q → heap_byte s' q = if decide (p ≤ q < p + k) then u8 v else heap_byte s q)
    (λ i, store8 (p + i) (u8 v)) 0 size s Hsz) as (s' & Hs' & Ht' & Hev & Hq).
  - split_and!; [done|done|]. intros q _. by rewrite decide_False by lia.
  - intros i s1 Hi (Ht1 & Hev1 & Hq1). rewrite Z.add_0_l.
    destruct (store8_spec D T F s1 pages n top ds (p + i) (u8 v) Ht1 (Hb i Hi)) as (s2 & Hs2 & Ht2 & Hev2 & Hq2).
    exists s2. split_and!; [done|done|by etrans|]. intros q Hin. rewrite Hq2 by done.
    destruct (decide (q = p + i)) as [->|Hne].
    + rewrite decide_True by lia. unfold u8. by rewrite Z.mod_mod.
    + rewrite Hq1 by done. destruct (decide (p ≤ q < p + i)); [by rewrite decide_True by lia|by rewrite decide_False by lia].
  - exists s'. split_and!; [done|done|done| |].
    + intros i Hi. rewrite Hq by auto. by rewrite decide_True by lia.
    + intros q Hin Hn. rewrite Hq by done. by rewrite decide_False.
Qed.
Lemma sum_checked_spec s pages n top ds p size v :
  testing s pages n top ds → block pages p (size - 1) → filled s p (size - 1) v →
  1 ≤ size → 0 ≤ v < 128 → v * size < 2 ^ 31 → sum_checked p size v s = Ret tt s.
Proof.
  intros Ht Hb Hf Hsz Hv Hmax. unfold sum_checked, last_index.
  assert (sum_bytes p (size - 1) s = Ret (v * (size - 1)) s) as Hsum; [|mstep Hsum; by rewrite Z.eqb_refl].
  unfold sum_bytes. replace (Z.to_nat (size - 1) + 1)%nat with (Z.to_nat (size - 1) + Datatypes.S 0)%nat by lia.
  set (f (i : nat) := (Z.of_nat i, v * Z.of_nat i)). replace (0, 0) with (f 0%nat) by (unfold f; f_equal; lia).
  rewrite (mloop_steps _ f).
  - apply mloop_break. unfold f. rewrite Z2Nat.id by lia. by rewrite Z.ltb_irrefl.
  - intros i Hi. unfold f. rewrite (proj2 (Z.ltb_lt _ _)) by lia. cbn [negb].
    pose proof Ht as (L & xs & m & Hat & _ & -> & _).
    mstep (load8_live D T F s L xs m Hat (p + Z.of_nat i) ltac:(apply within_live; apply Hb; lia)).
    rewrite (Hf (Z.of_nat i)) by lia. unfold mret, M_ret.
    assert (s8 v = v) as -> by (unfold s8; zdiv). rewrite s32_small by (unfold is_s32; nia).
    do 3 f_equal; lia.
Qed.
Lemma kmalloc_filled_spec s pages n top ds size offset k v :
  testing s pages n top ds → top = KERNEL_HEAP_START + offset → kpages size = k → 0 < k ≤ n →
  top + k * PAGE_SIZE < KERNEL_HEAP_MAX → 1 ≤ size ≤ k * PAGE_SIZE →
  ∃ s', kmalloc_filled size offset k v s = Ret top s' ∧ testing s' (<[top := k]> pages) (n - k) (top + k * PAGE_SIZE) ds ∧
    kept pages s s' ∧ evolves s s' ∧ on_record s' top k ∧ filled s' top (size - 1) (u8 v).
Proof.
  intros Ht Htop Hk Hn Hroom Hsz.
  destruct (kmalloc_checked_spec D T F s pages n top ds size offset k Ht Htop Hk Hn Hroom)
    as (s1 & Hs1 & Ht1 & Hk1 & Hev1 & Hr1 & Hnone).
  destruct (fill_spec s1 _ _ _ ds top (size - 1) v Ht1) as (s2 & Hs2 & Ht2 & Hev2 & Hf2 & Hq2); [|lia|].
  { apply (block_range _ top k); [apply lookup_insert_eq|lia|lia]. }
  exists s2. split_and!; [|done| |by etrans|by apply Hev2|done].
  - unfold kmalloc_filled, last_index. mstep Hs1. by mstep Hs2.
  - intros q Hq. rewrite Hq2; [by apply Hk1|by apply within_insert|].
    pose proof (within_below s pages n top ds q Ht Hq). lia.
Qed.

(** The heap with the blocks [h] that have been filled (address, bytes, value) and the records [r]. *)
Definition blocks_hold (s : KState) (pages : gmap Z Z) (h : list (Z * Z * Z)) : Prop :=
  Forall (λ b, block pages b.1.1 b.1.2 ∧ filled s b.1.1 b.1.2 b.2) h.
Record tested (s : KState) (pages : gmap Z Z) (n top : Z) (ds : list Z) (h : list (Z * Z * Z)) (r : list (Z * Z)) : Prop := {
  ts_testing : testing s pages n top ds;
  ts_blocks : blocks_hold s pages h;
  ts_records : Forall (λ x, on_record s x.1 x.2) r;
}.
Section Moves.
Context (s : KState) (pages : gmap Z Z) (n : Z) (ds : list Z) (h : list (Z * Z * Z)) (r : list (Z * Z)).

Lemma records_evolve s' : evolves s s' → Forall (λ x, on_record s x.1 x.2) r → Forall (λ x, on_record s' x.1 x.2) r.
Proof. intros [_ Hev] Hr. eapply Forall_impl; [exact Hr|]. auto. Qed.
Lemma blocks_insert s' v k :
  kept pages s s' → pages !! v = None → blocks_hold s pages h → blocks_hold s' (<[v := k]> pages) h.
Proof.
  intros Hk Hv Hh. eapply Forall_impl; [exact Hh|]. intros b [Hb Hf]. split; [intros i Hi; apply within_insert; auto|].
  by eapply filled_kept.
Qed.

Lemma move_filled size off off' k v :
  tested s pages n (KERNEL_HEAP_START + off) ds h r → kpages size = k → 0 < k ≤ n →
  KERNEL_HEAP_START + off + k * PAGE_SIZE < KERNEL_HEAP_MAX → 1 ≤ size ≤ k * PAGE_SIZE → off' = off + k * PAGE_SIZE →
  ∃ s', kmalloc_filled size off k v s = Ret (KERNEL_HEAP_START + off) s' ∧
    tested s' (<[KERNEL_HEAP_START + off := k]> pages) (n - k) (KERNEL_HEAP_START + off') ds
      ((KERNEL_HEAP_START + off, size - 1, u8 v) :: h) ((KERNEL_HEAP_START + off, k) :: r).
Proof.
  intros [Ht Hb Hr] Hk Hn Hroom Hsz ->. set (top := KERNEL_HEAP_START + off) in *.
  destruct (kmalloc_filled_spec s pages n top ds size off k v Ht eq_refl Hk Hn Hroom Hsz)
    as (s' & Hs' & Ht' & Hkept & Hev & Hrec & Hf).
  destruct (kmalloc_checked_spec D T F s pages n top ds size off k Ht eq_refl Hk Hn Hroom) as (_ & _ & _ & _ & _ & _ & Hnone).
  exists s'. split; [done|]. replace (KERNEL_HEAP_START + (off + k * PAGE_SIZE)) with (top + k * PAGE_SIZE) by (unfold top; lia).
  split; [done| |].
  - apply Forall_cons. split; [|by apply blocks_insert]. split; [|done].
    apply (block_range _ top k); [apply lookup_insert_eq|cbn; lia|cbn; lia].
  - apply Forall_cons. split; [done|]. by eapply records_evolve.
Qed.
Lemma move_checked size off off' k :
  tested s pages n (KERNEL_HEAP_START + off) ds h r → kpages size = k → 0 < k ≤ n →
  KERNEL_HEAP_START + off + k * PAGE_SIZE < KERNEL_HEAP_MAX → off' = off + k * PAGE_SIZE →
  ∃ s', kmalloc_checked size off k s = Ret (KERNEL_HEAP_START + off) s' ∧
    tested s' (<[KERNEL_HEAP_START + off := k]> pages) (n - k) (KERNEL_HEAP_START + off') ds h ((KERNEL_HEAP_START + off, k) :: r).
Proof.
  intros [Ht Hb Hr] Hk Hn Hroom ->. set (top := KERNEL_HEAP_START + off) in *.
  destruct (kmalloc_checked_spec D T F s pages n top ds size off k Ht eq_refl Hk Hn Hroom)
    as (s' & Hs' & Ht' & Hkept & Hev & Hrec & Hnone).
  exists s'. split; [done|]. replace (KERNEL_HEAP_START + (off + k * PAGE_SIZE)) with (top + k * PAGE_SIZE) by (unfold top; lia).
  split; [done|by apply blocks_insert|]. apply Forall_cons. split; [done|]. by eapply records_evolve.
Qed.
Lemma move_free top va k msg h' :
  tested s pages n top ds h r → pages !! va = Some k → h' ⊆ h →
  Forall (λ b, block (delete va pages) b.1.1 b.1.2) h' →
  ∃ s', kfree_checked va k msg s = Ret tt s' ∧ tested s' (delete va pages) (n + k) top ds h' r.
Proof.
  intros [Ht Hb Hr] Hva Hsub Hh.
  destruct (kfree_checked_spec D T F s pages n top ds va k msg Ht Hva) as (s' & Hs' & Ht' & Hk & Hev).
  exists s'. split; [done|]. split; [done| |by eapply records_evolve].
  unfold blocks_hold in *. rewrite Forall_forall in Hb, Hh |- *. intros b Hin. split; [by apply Hh|].
  eapply filled_kept; [done|by apply Hh|]. by apply Hb, Hsub.
Qed.
Lemma move_sum top p size v :
  tested s pages n top ds h r → (p, size - 1, v) ∈ h → 1 ≤ size → 0 ≤ v < 128 → v * size < 2 ^ 31 →
  sum_checked p size v s = Ret tt s.
Proof.
  intros [Ht Hb _] Hin. unfold blocks_hold in Hb. rewrite Forall_forall in Hb. destruct (Hb _ Hin) as [Hbl Hf].
  by apply (sum_checked_spec s pages n top ds).
Qed.
End Moves.

Ltac side := first [reflexivity | lia | vm_compute; split; discriminate].
Ltac freed := first [reflexivity | by apply list_subseteq_nil | by constructor].
Ltac known := first [vm_compute; discriminate | vm_compute; split; [discriminate|reflexivity] | vm_compute; reflexivity].
Ltac in_heap := apply (bool_decide_unpack _); vm_compute; exact I.
Ltac in_history := repeat first [by left | right].
Lemma allocate_filled_spec s n ds :
  testing s ∅ n KERNEL_HEAP_START ds → 3336 ≤ n →
  ∃ s' h r, allocate_filled s = Ret test_places s' ∧ tested s' test_pages (n - 3336) test_top ds h r ∧
    h = [(place_of 7, 14 * kilo - 1, 7); (place_of 5, 3 * Mega - kilo - 1, 5); (place_of 4, 7 * kilo - 1, 4);
         (place_of 3, 2 * kilo - 1, 3); (place_of 2, 2 * kilo - 1, 2)] ∧
    (place_of 0, 512) ∈ r ∧ (place_of 2, 1) ∈ r.
Proof.
  intros Ht Hn.
  assert (tested s ∅ n (KERNEL_HEAP_START + 0) ds [] []) as Ht0 by (split; [exact Ht|constructor|constructor]).
  unfold allocate_filled.
  destruct (move_checked _ _ _ _ _ _ (2 * Mega - kilo) 0 (2 * Mega) 512 Ht0) as (s1 & Hs1 & Ht1); [side..|]. mstep Hs1.
  destruct (move_checked _ _ _ _ _ _ (2 * Mega - kilo) (2 * Mega) (4 * Mega) 512 Ht1) as (s2 & Hs2 & Ht2); [side..|]. mstep Hs2.
  destruct (move_filled _ _ _ _ _ _ (2 * kilo) (4 * Mega) (4 * Mega + 4 * kilo) 1 2 Ht2) as (s3 & Hs3 & Ht3); [side..|]. mstep Hs3.
  destruct (move_filled _ _ _ _ _ _ (2 * kilo) (4 * Mega + 4 * kilo) (4 * Mega + 8 * kilo) 1 3 Ht3) as (s4 & Hs4 & Ht4); [side..|]. mstep Hs4.
  destruct (move_filled _ _ _ _ _ _ (7 * kilo) (4 * Mega + 8 * kilo) (4 * Mega + 16 * kilo) 2 4 Ht4) as (s5 & Hs5 & Ht5); [side..|]. mstep Hs5.
  destruct (move_filled _ _ _ _ _ _ (3 * Mega - kilo) (4 * Mega + 16 * kilo) (7 * Mega + 16 * kilo) 768 5 Ht5) as (s6 & Hs6 & Ht6); [side..|]. mstep Hs6.
  destruct (move_checked _ _ _ _ _ _ (6 * Mega - kilo) (7 * Mega + 16 * kilo) (13 * Mega + 16 * kilo) 1536 Ht6) as (s7 & Hs7 & Ht7); [side..|]. mstep Hs7.
  destruct (move_filled _ _ _ _ _ _ (14 * kilo) (13 * Mega + 16 * kilo) (13 * Mega + 32 * kilo) 4 7 Ht7) as (s8 & Hs8 & Ht8); [side..|]. mstep Hs8.
  replace (n - 512 - 512 - 1 - 1 - 2 - 768 - 1536 - 4) with (n - 3336) in Ht8 by lia.
  eexists s8, _, _. split; [reflexivity|]. split; [exact Ht8|]. split; [reflexivity|]. split; in_history.
Qed.

(** *** After everything is freed *)
Lemma testing_empty_quiet s s' n top ds :
  testing s ∅ n top ds → touches F s s' → hw s' = set_cr2 (cr2 (hw s')) (hw s) → frames s' = frames s → pagefile s' = pagefile s →
  testing s' ∅ n top ds ∧ evolves s s'.
Proof.
  intros Ht Hto Hh Hfr Hpf. pose proof Ht as (L & xs & m & [_ HR] & _).
  apply (testing_touches D T F s s' ∅ n top ds Ht Hto Hfr Hpf). intros j.
  unfold get_word. rewrite Hh. apply (rc_words _ _ _ _ HR).
Qed.
Lemma expect_fault_spec s n top ds va :
  testing s ∅ n top ds → KERNEL_HEAP_START ≤ va < KERNEL_HEAP_MAX → bypassInstrLength (config s) ≠ 0 →
  expect_fault va s = Ret tt (on_hw (set_cr2 va) s).
Proof.
  intros Ht Hva Hby. pose proof Ht as (L & xs & m & Hat & Htd & HL & _).
  assert (store8 va 10 s = Crash (PageFault (va - va `mod` 4)) s) as Hst.
  { unfold store8. apply bind_Crash. unfold load.
    assert ((va - va `mod` 4) `mod` 4 = 0) as -> by zdiv. cbn [negb Z.eqb]. rewrite bind_gets.
    set (pg := va - va `mod` PAGE_SIZE). set (o := va `mod` PAGE_SIZE - va `mod` 4).
    replace (va - va `mod` 4) with (pg + o) by (unfold pg, o; lia).
    rewrite (dead_mmu D T F s L xs m pg o false Hat Htd); [done| | |unfold o, PAGE_SIZE; zdiv].
    - unfold heap_page, pg, KERNEL_HEAP_START, KERNEL_HEAP_MAX, PAGE_SIZE in *. zdiv.
    - intros (v & gs & HLv & _). assert ((λ fs, len fs) <$> L !! v = Some (len gs)) as He by (by rewrite HLv).
      rewrite <-lookup_fmap, <-HL, lookup_empty in He. done. }
  unfold expect_fault, store8_bypassing, sys_rcr2, rcr2. unfold mbind, M_bind at 1. rewrite Hst.
  rewrite (proj2 (Z.eqb_neq _ _)) by done. cbn. by rewrite Z.eqb_refl.
Qed.
Lemma touch_freed_spec s n top ds freed :
  testing s ∅ n top ds →
  Forall (λ x, KERNEL_HEAP_START ≤ x.1 < KERNEL_HEAP_MAX ∧ KERNEL_HEAP_START ≤ x.1 + x.2 < KERNEL_HEAP_MAX) freed →
  ∃ s', touch_freed freed s = Ret tt s' ∧ testing s' ∅ n top ds ∧ evolves s s'.
Proof.
  intros Ht Hfreed. unfold touch_freed, sys_bypassPageFault. rewrite bind_modify.
  destruct (testing_empty_quiet s (on_config (set_bypassInstrLength (u8 3)) s) n top ds Ht) as [Ht1 Hev1];
    [by split_and!|by destruct s as [[]]|done|done|].
  set (s1 := on_config (set_bypassInstrLength (u8 3)) s) in *.
  destruct (forM_ind (λ _ s', testing s' ∅ n top ds ∧ evolves s s' ∧ bypassInstrLength (config s') ≠ 0)
    (λ '(p, last), expect_fault p;; expect_fault (p + last)) freed s1) as (s2 & Hs2 & Ht2 & Hev2 & _).
  - by split_and!.
  - intros done [p last] todo s2 Hl (Ht2 & Hev2 & Hby).
    assert ((p, last) ∈ freed) as Hin by (rewrite Hl; apply elem_of_app; right; by left).
    rewrite Forall_forall in Hfreed. destruct (Hfreed _ Hin) as [Hp Hpl]. cbn in Hp, Hpl.
    mstep (expect_fault_spec s2 n top ds p Ht2 Hp Hby).
    destruct (testing_empty_quiet s2 (on_hw (set_cr2 p) s2) n top ds Ht2) as [Ht3 Hev3]; [by split_and!|done..|].
    rewrite (expect_fault_spec _ n top ds (p + last) Ht3 Hpl Hby).
    destruct (testing_empty_quiet _ (on_hw (set_cr2 (p + last)) (on_hw (set_cr2 p) s2)) n top ds Ht3) as [Ht4 Hev4]; [by split_and!|done..|].
    eexists. split; [reflexivity|]. split_and!; [done|by repeat (etrans; [done|])|done].
  - mstep Hs2. destruct (testing_empty_quiet s2 (on_config (set_bypassInstrLength (u8 0)) s2) n top ds Ht2) as [Ht3 Hev3];
      [by split_and!|by destruct s2 as [[]]|done|done|].
    eexists. split; [reflexivity|]. split; [done|by etrans].
Qed.
Lemma tables_present_spec s pages n top ds : testing s pages n top ds → tables_present s = Ret tt s.
Proof.
  intros Ht. unfold tables_present.
  match goal with |- forM (seqZ 0 ?c) ?g _ = _ => destruct (forM_seqZ (λ _ s', s' = s) g 0 c s) as (s' & Hs' & ->) end;
    [vm_compute; discriminate|done| |done].
  change ((KERNEL_HEAP_MAX - KERNEL_HEAP_START + PTSIZE - 1) / PTSIZE) with 40.
  intros k s' Hk ->. exists s. split; [|done]. rewrite Z.add_0_l.
  assert (heap_address (KERNEL_HEAP_START + k * PTSIZE)) as Hva
    by (unfold heap_address, KERNEL_HEAP_START, PTSIZE, NPTENTRIES, PAGE_SIZE; lia).
  rewrite (heap_table_found D T F s pages n top ds Ht _ _ Hva).
  destruct (heap_table s D T (testing_space D T F s pages n top ds Ht) _ Hva) as [Htab _].
  rewrite (proj2 (Z.eqb_neq _ 0)); [done|]. apply (ht_null _ _ _ _ _ _ Htab).
Qed.

(** *** The test *)
Definition p8 : Z := KERNEL_HEAP_START + (13 * Mega + 32 * kilo).
Definition p9 : Z := KERNEL_HEAP_START + (13 * Mega + 52 * kilo).
Lemma free_rest_spec s n ds h r :
  tested s (<[p9 := 256]> (<[p8 := 5]> pages_left)) n (p9 + 1 * Mega) ds h r →
  ∃ s', free_rest (n + 1037) (place_of 2) (place_of 3) (place_of 4) (place_of 5) (place_of 7) p8 p9 s = Ret tt s' ∧
    tested s' ∅ (n + 1037) (p9 + 1 * Mega) ds [] r.
Proof.
  intros Ht. unfold free_rest.
  destruct (move_free _ _ _ _ _ _ _ (place_of 4) 2 NOT_FREED [] Ht) as (s1 & Hs1 & Ht1); [freed..|]. mstep Hs1.
  destruct (move_free _ _ _ _ _ _ _ (place_of 5) 768 NOT_FREED [] Ht1) as (s2 & Hs2 & Ht2); [freed..|].
  change ((3 * Mega) / 4096) with 768. mstep Hs2.
  destruct (move_free _ _ _ _ _ _ _ (place_of 2) 1 NOT_FREED [] Ht2) as (s3 & Hs3 & Ht3); [freed..|]. mstep Hs3.
  destruct (move_free _ _ _ _ _ _ _ (place_of 3) 1 NOT_FREED [] Ht3) as (s4 & Hs4 & Ht4); [freed..|]. mstep Hs4.
  destruct (move_free _ _ _ _ _ _ _ (place_of 7) 4 NOT_FREED [] Ht4) as (s5 & Hs5 & Ht5); [freed..|]. mstep Hs5.
  destruct (move_free _ _ _ _ _ _ _ p8 5 NOT_FREED [] Ht5) as (s6 & Hs6 & Ht6); [freed..|]. mstep Hs6.
  destruct (move_free _ _ _ _ _ _ _ p9 256 NOT_FREED [] Ht6) as (s7 & Hs7 & Ht7); [freed..|]. mstep Hs7.
  replace (n + 2 + 768 + 1 + 1 + 4 + 5 + 256) with (n + 1037) in Ht7 by lia.
  match type of Ht7 with tested _ ?p _ _ _ _ _ => assert (p = ∅) as Hempty by (apply (bool_decide_unpack _); vm_compute; exact I) end.
  rewrite Hempty in Ht7. mstep (free_frames_count D T F _ _ _ _ _ (ts_testing _ _ _ _ _ _ _ Ht7)).
  rewrite Z.eqb_refl. by exists s7.
Qed.
Lemma free_some_moves s n ds h r :
  tested s test_pages n test_top ds h r → Forall (λ b, block pages_left b.1.1 b.1.2) h →
  ∃ s', free_some (place_of 0) (place_of 1) (place_of 6) s = Ret tt s' ∧ tested s' pages_left (n + 2560) test_top ds h r.
Proof.
  intros Ht Hh. unfold free_some.
  assert (∀ pages v, pages_left ⊆ pages → pages_left !! v = None → Forall (λ b, block (delete v pages) b.1.1 b.1.2) h) as Hleft.
  { intros pages v Hsub Hv. eapply Forall_impl; [exact Hh|]. intros b Hb i Hi. destruct (Hb i Hi) as (w & k & Hw & Hq).
    exists w, k. split; [|done]. rewrite lookup_delete_ne; [by eapply lookup_weaken|congruence]. }
  destruct (move_free _ _ _ _ _ _ _ (place_of 0) 512 NOT_FREED h Ht) as (s1 & Hs1 & Ht1); [reflexivity|done| |].
  { apply Hleft; [|reflexivity]. apply (bool_decide_unpack _). vm_compute. exact I. }
  destruct (move_free _ _ _ _ _ _ _ (place_of 1) 512 NOT_FREED h Ht1) as (s2 & Hs2 & Ht2); [reflexivity|done| |].
  { apply Hleft; [|reflexivity]. apply (bool_decide_unpack _). vm_compute. exact I. }
  destruct (move_free _ _ _ _ _ _ _ (place_of 6) 1536 NOT_FREED h Ht2) as (s3 & Hs3 & Ht3); [reflexivity|done|exact Hh|].
  exists s3. mstep Hs1. mstep Hs2. split; [exact Hs3|]. replace (n + 2560) with (n + 512 + 512 + 1536) by lia. exact Ht3.
Qed.

Lemma test_kfree_returns s n ds :
  testing s ∅ n KERNEL_HEAP_START ds → 3336 ≤ n →
  ends (λ r s', r = 1 ∧ testing s' ∅ n (p9 + 1 * Mega) ds) (test_kfree s).
Proof using H0.
  intros Ht Hn. unfold test_kfree. mstep (free_frames_count _ _ _ _ _ _ _ _ Ht).
  destruct (allocate_filled_spec s n ds Ht Hn) as (s1 & h & r & Hs1 & Ht1 & Hh & Hr0 & Hr2). mstep Hs1. cbv zeta.
  repeat change (test_places !!! ?i) with (place_of i).
  destruct (free_some_moves s1 _ ds h r Ht1) as (s2 & Hs2 & Ht2).
  { subst h. repeat (apply Forall_cons; split); [..|constructor].
    - by apply (block_range _ (place_of 7) 4); [reflexivity|vm_compute; discriminate..].
    - by apply (block_range _ (place_of 5) 768); [reflexivity|vm_compute; discriminate..].
    - by apply (block_range _ (place_of 4) 2); [reflexivity|vm_compute; discriminate..].
    - by apply (block_range _ (place_of 3) 1); [reflexivity|vm_compute; discriminate..].
    - by apply (block_range _ (place_of 2) 1); [reflexivity|vm_compute; discriminate..]. }
  mstep Hs2.
  assert (∀ p size v, (p, size - 1, v) ∈ h → 1 ≤ size → 0 ≤ v < 128 → v * size < 2 ^ 31 → sum_checked p size v s2 = Ret tt s2) as Hsum
    by (intros; by eapply move_sum).
  mstep (Hsum (place_of 2) (2 * kilo) 2 ltac:(subst h; in_history) ltac:(known) ltac:(known) ltac:(known)).
  mstep (Hsum (place_of 3) (2 * kilo) 3 ltac:(subst h; in_history) ltac:(known) ltac:(known) ltac:(known)).
  mstep (Hsum (place_of 4) (7 * kilo) 4 ltac:(subst h; in_history) ltac:(known) ltac:(known) ltac:(known)).
  mstep (Hsum (place_of 5) (3 * Mega - kilo) 5 ltac:(subst h; in_history) ltac:(known) ltac:(known) ltac:(known)).
  mstep (Hsum (place_of 7) (14 * kilo) 7 ltac:(subst h; in_history) ltac:(known) ltac:(known) ltac:(known)).
  destruct (move_filled s2 pages_left _ ds h r (20 * kilo) (13 * Mega + 32 * kilo) (13 * Mega + 52 * kilo) 5 8 Ht2)
    as (s3 & Hs3 & Ht3); [side..|]. mstep Hs3.
  destruct (move_filled s3 _ _ ds _ _ (1 * Mega) (13 * Mega + 52 * kilo) (13 * Mega + 52 * kilo + 1 * Mega) 256 9 Ht3)
    as (s4 & Hs4 & Ht4); [side..|]. mstep Hs4. fold p8 p9 in *.
  replace (n - 3336 + 2560 - 5 - 256) with (n - 1037) in Ht4 by lia.
  destruct (free_rest_spec s4 (n - 1037) ds _ _ Ht4) as (s5 & Hs5 & Ht5).
  replace (n - 1037 + 1037) with n in Hs5, Ht5 by lia. mstep Hs5.
  destruct (touch_freed_spec s5 n _ ds
    [(place_of 0, last_index (2 * Mega - kilo)); (place_of 1, last_index (2 * Mega - kilo));
     (place_of 2, last_index (2 * kilo)); (place_of 3, last_index (2 * kilo));
     (place_of 4, last_index (7 * kilo)); (place_of 5, last_index (3 * Mega - kilo));
     (place_of 6, last_index (6 * Mega - kilo)); (place_of 7, last_index (14 * kilo));
     (p8, last_index (20 * kilo)); (p9, last_index (1 * Mega))] (ts_testing _ _ _ _ _ _ _ Ht5))
    as (s6 & Hs6 & Ht6 & Hev6).
  { apply (bool_decide_unpack _). vm_compute. exact I. }
  mstep Hs6.
  pose proof (records_evolve _ _ _ Hev6 (ts_records _ _ _ _ _ _ _ Ht5)) as Hrec. rewrite Forall_forall in Hrec.
  assert (∀ s va k, testing s ∅ n (p9 + 1 * Mega) ds → on_record s va k → heap_range va k →
    ∃ s', kfree_checked va 0 NOT_EXISTING s = Ret tt s' ∧ testing s' ∅ n (p9 + 1 * Mega) ds ∧ evolves s s') as Hagain.
  { intros s' va k Hts Hon Hrg. apply (kfree_again_spec D T F H0 s' ∅ n _ ds va k NOT_EXISTING Hts Hon Hrg).
    intros q _ (v & j & Hv & _). by rewrite lookup_empty in Hv. }
  destruct (Hagain s6 (place_of 0) 512 Ht6) as (s7 & Hs7 & Ht7 & Hev7);
    [apply (Hrec (place_of 0, 512)); right; right; exact Hr0|in_heap|]. mstep Hs7.
  destruct (Hagain s7 (place_of 2) 1 Ht7) as (s8 & Hs8 & Ht8 & Hev8);
    [apply Hev7, (Hrec (place_of 2, 1)); right; right; exact Hr2|in_heap|]. mstep Hs8.
  destruct (Hagain s8 p8 5 Ht8) as (s9 & Hs9 & Ht9 & Hev9);
    [apply Hev8, Hev7, (Hrec (p8, 5)); right; by left|in_heap|]. mstep Hs9.
  destruct (Hagain s9 p9 256 Ht9) as (s10 & Hs10 & Ht10 & _);
    [apply Hev9, Hev8, Hev7, (Hrec (p9, 256)); by left|in_heap|]. mstep Hs10.
  mstep (tables_present_spec s10 _ _ _ _ Ht10). by exists 1, s10.
Qed.
End Tests.

(** ** Properties *)

(** The heap as boot leaves it, seen by the tests: nothing is allocated, its page tables and the reverse
    map are empty, no page waits to be written to disk, and the frames of the kernel's image are
    not free. *)
Record fresh_heap (D : Z) (T : Z → Z) (F : list Z) (m : gmap Z Z) (ds : list Z) (s : KState) : Prop := {
  fh_ready : heap_ready s D T (F, m);
  fh_first : firstFreeVAInKHeap (kheap s) = KERNEL_HEAP_START;
  fh_idx : idx (kheap s) = 0;
  fh_reached : heap_reached D T F s;
  fh_clear va : heap_page va → heap_pte s T va = 0;
  fh_reverse f : virtualAddresses (kheap s) !!! f = 0;
  fh_outside : outside s ds;
  fh_not_first : 0 ∉ F;
  fh_image f : f ∈ F → 256 ≤ f → u32 (end_of_kernel (boot s) - KERNEL_BASE) ≤ f * PAGE_SIZE;
}.
Lemma fresh_testing D T F m ds s :
  fresh_heap D T F m ds s → testing D T F s ∅ (Z.of_nat (length F)) KERNEL_HEAP_START ds.
Proof.
  intros [H1 H2 H3 H4 H5 H6 H7 _ _]. exists ∅, F, m. split_and!; [split; [by apply heap_inv_start|done]| |by rewrite fmap_empty|done|done|done].
  split; [by intros; apply H5| |done]. intros q f (v & fs & k & HL & _). by rewrite lookup_empty in HL.
Qed.

Lemma heap_tests_pass `{Extern} D T F m ds s :
  fresh_heap D T F m ds s → 3336 ≤ Z.of_nat (length F) →
  (∃ s', test_kmalloc s = Ret 1 s' ∧ sys_calculate_free_frames s' = Ret (Z.of_nat (length F) - 3336) s') ∧
  (∃ s', test_kfree s = Ret 1 s' ∧ sys_calculate_free_frames s' = Ret (Z.of_nat (length F)) s') ∧
  (∃ s', test_kheap_virt_addr s = Ret 1 s' ∧ sys_calculate_free_frames s' = Ret (Z.of_nat (length F) - 776) s') ∧
  (∃ s', test_kheap_phys_addr s = Crash (Undefined "kernel stack") s' ∧
         sys_calculate_free_frames s' = Ret (Z.of_nat (length F) - 776) s').
Proof.
  intros Hs Hn. pose proof (fresh_testing _ _ _ _ _ _ Hs) as Ht. split_and!.
  - destruct (test_kmalloc_returns D T F s _ ds Ht Hn) as (r & s' & Hr & -> & Ht'). exists s'.
    split; [done|]. apply (free_frames_count D T F s' _ _ _ _ Ht').
  - destruct (test_kfree_returns D T F (fh_not_first _ _ _ _ _ _ Hs) s _ ds Ht Hn) as (r & s' & Hr & -> & Ht'). exists s'.
    split; [done|]. apply (free_frames_count D T F s' _ _ _ _ Ht').
  - destruct (test_kheap_virt_addr_returns D T F s _ ds Ht Hn (fh_image _ _ _ _ _ _ Hs)) as (r & s' & Hr & -> & Ht'). exists s'.
    split; [done|]. apply (free_frames_count D T F s' _ _ _ _ Ht').
  - destruct (test_kheap_phys_addr_overflows D T F s _ ds Ht Hn) as (s' & Hr & Ht'). exists s'.
    split; [done|]. apply (free_frames_count D T F s' _ _ _ _ Ht').
Qed.

(** C9: on a fresh heap (nothing allocated, its page tables and its reverse map zero, no page waiting
    to be written to disk) with 3336 free frames (the eight allocations take 13 MB and 32 KB) three
    of the kernel's four tests of its heap, test_kmalloc, test_kfree and test_kheap_virt_addr, run to
    the end and return 1, so that none of their checks panics, no access to an allocation faults, and
    every access to freed memory does; test_kfree leaves as many free frames as there were. The
    fourth, test_kheap_phys_addr, cannot pass: the checks of its first two parts hold, and in its last
    part it needs a local array of 36863 words, which does not fit on the 32 KB stack of the kernel,
    so it never returns. Of the stack only this bound on a single array is modelled, not how deep
    the calls go. *)
Theorem kernel_heap_passes_tests `{Extern} D T F m ds s :
  fresh_heap D T F m ds s → 3336 ≤ Z.of_nat (length F) →
  (∃ s', test_kmalloc s = Ret 1 s' ∧ sys_calculate_free_frames s' = Ret (Z.of_nat (length F) - 3336) s') ∧
  (∃ s', test_kfree s = Ret 1 s' ∧ sys_calculate_free_frames s' = Ret (Z.of_nat (length F)) s') ∧
  (∃ s', test_kheap_virt_addr s = Ret 1 s' ∧ sys_calculate_free_frames s' = Ret (Z.of_nat (length F) - 776) s') ∧
  (∃ s', test_kheap_phys_addr s = Crash (Undefined "kernel stack") s' ∧
         sys_calculate_free_frames s' = Ret (Z.of_nat (length F) - 776) s').
Proof. apply heap_tests_pass. Qed.

(** ** Witnesses *)

(** A free list of given frames. *)
Definition free_chain (xs : list Z) : gmap Z Frame_Info * ListHead :=
  foldr (λ x hl, LIST_INSERT_HEAD hl.1 hl.2 x) (∅, MkListHead None None 0) xs.
Lemma free_chain_dll xs :
  NoDup xs → dll (free_chain xs).1 (free_chain xs).2 xs ∧ relinked ∅ (free_chain xs).1.
Proof.
  induction 1 as [|x xs Hx Hnd [Hd Hr]]; [split; [split_and!; (done || constructor)|done]|].
  change (free_chain (x :: xs)) with (LIST_INSERT_HEAD (free_chain xs).1 (free_chain xs).2 x).
  pose proof (dll_insert_head _ _ xs x Hd Hx) as Hi.
  destruct (LIST_INSERT_HEAD (free_chain xs).1 (free_chain xs).2 x) as [h l]. destruct Hi as [Hd' [Hr' _]].
  split; [exact Hd'|]. by etrans.
Qed.
(** A machine of 8192 frames, of which those from 4096 on are free. *)
Definition machine_with (h : gmap Z Frame_Info) (l : ListHead) : KState :=
  with_free h l (on_frames (set_number_of_frames 8192) (on_boot (set_end_of_kernel (KERNEL_BASE + 0x160000)) heap_state)).
Definition many_frames : list Z := seqZ 4096 3400.
Definition tests_state : KState := machine_with (free_chain many_frames).1 (free_chain many_frames).2.
Lemma machine_with_fresh h l F :
  dll h l F → relinked ∅ h → (∀ f, f ∈ F → 4096 ≤ f < 7496) → fresh_heap 300 heap_tables F ∅ [] (machine_with h l).
Proof.
  intros Hd Hr HF.
  assert (∀ f, isBuffered (frame_at (machine_with h l) f) = 0 ∧ references (frame_at (machine_with h l) f) = 0) as Hfields.
  { intros f. destruct (strip_fields _ _ (Hr f)) as (H1 & H2 & _). rewrite lookup_total_empty in H1, H2. by split. }
  split.
  - split.
    + destruct heap_state_space as [K1 K2 K3 K4 K5 K6 K7 K8]. split; try done.
      intros d Hd'. destruct (K4 d Hd') as (? & Hlt & ?). split_and!; try done; try lia. cbn in Hlt |- *. lia.
    + split; [exact Hd|]. split; [intros f _|intros f]; rewrite ?zero_array; [split; [|done]|]; apply Hfields.
    + intros f. cbn. by rewrite zero_array.
    + intros f Hf%HF. cbn. lia.
    + done.
    + intros va Hva _. change (heap_pte (machine_with h l) heap_tables va) with (heap_pte heap_state heap_tables va).
      by rewrite heap_state_unmapped.
  - done.
  - done.
  - apply (heap_reached_hw _ _ _ heap_state); [done|]. apply heap_state_reached_frames. intros f Hf%HF. lia.
  - apply heap_state_unmapped.
  - intros f. cbn. apply zero_array.
  - split; [split_and!; (done || constructor)|split_and!; (done || constructor)|constructor|done].
  - intros Hf%HF. lia.
  - intros f Hf%HF _. change (u32 (end_of_kernel (boot (machine_with h l)) - KERNEL_BASE)) with 0x160000.
    unfold PAGE_SIZE. lia.
Qed.
Lemma tests_state_fresh : fresh_heap 300 heap_tables many_frames ∅ [] tests_state.
Proof.
  destruct (free_chain_dll many_frames (NoDup_seqZ 4096 3400)) as [Hd Hr]. apply machine_with_fresh; [exact Hd|exact Hr|].
  intros f Hf. apply elem_of_seqZ in Hf. lia.
Qed.
Lemma kernel_heap_passes_tests_witness :
  ∃ s', @test_kfree no_nesting tests_state = Ret 1 s' ∧ sys_calculate_free_frames s' = Ret 3400 s'.
Proof.
  assert (3336 ≤ Z.of_nat (length many_frames)) as Hn by (unfold many_frames; rewrite length_seqZ; lia).
  destruct (@kernel_heap_passes_tests no_nesting 300 heap_tables many_frames ∅ [] tests_state tests_state_fresh Hn)
    as (_ & (s' & Hs' & Hc) & _).
  exists s'. split; [exact Hs'|exact Hc].
Defined.
