(* ===== verification/UserLib.v ===== *)
(** * User programs' side of the system calls: lib/

    The stubs of lib/syscall.c put a number and up to five words in registers and trap; the wrappers
    of lib/console.c, lib/exit.c, lib/libmain.c and lib/concurrency.c are built on them.  The trap
    itself ([int], inline assembly) and memory are parameters; UserLibSpec.v supplies the kernel. *)
From S2P Require Import Prelude Machine UHeap.

Definition SYS_cputs : Z := 0.
Definition SYS_cgetc : Z := 1.
Definition SYS_getenvid : Z := 2.
Definition SYS_env_destroy : Z := 3.
Definition SYS_env_exit : Z := 4.
Definition SYS_allocate_page : Z := 5.
Definition SYS_map_frame : Z := 6.
Definition SYS_unmap_frame : Z := 7.
Definition SYS_calc_req_frames : Z := 8.
Definition SYS_calc_free_frames : Z := 9.
Definition SYS_calc_modified_frames : Z := 10.
Definition SYS_calc_notmod_frames : Z := 11.
Definition SYS_pf_calc_allocated_pages : Z := 12.
Definition SYS_freeMem : Z := 13.
Definition SYS_allocateMem : Z := 14.
Definition SYS_moveMem : Z := 15.
Definition SYS_disableINTR : Z := 16.
Definition SYS_enableINTR : Z := 17.
Definition SYS_cputc : Z := 18.
Definition SYS_clearFFL : Z := 19.
Definition SYS_create_semaphore : Z := 20.
Definition SYS_wait_semaphore : Z := 21.
Definition SYS_signal_semaphore : Z := 22.
Definition SYS_get_semaphore_value : Z := 23.
Definition SYS_create_shared_object : Z := 24.
Definition SYS_get_shared_object : Z := 25.
Definition SYS_free_shared_object : Z := 26.
Definition SYS_get_current_shared_address : Z := 27.
Definition SYS_get_max_shares : Z := 28.
Definition SYS_create_env : Z := 29.
Definition SYS_run_env : Z := 30.
Definition SYS_free_env : Z := 31.
Definition SYS_get_virtual_time : Z := 32.
Definition SYS_rcr2 : Z := 33.
Definition SYS_bypassPageFault : Z := 34.
Definition SYS_testNum : Z := 35.
Definition SYS_rsttst : Z := 36.
Definition SYS_chktst : Z := 37.
Definition SYS_get_heap_strategy : Z := 38.
Definition SYS_set_heap_strategy : Z := 39.

(** The registers of a call: the number in EAX, the arguments in EDX, ECX, EBX, EDI, ESI. *)
Record call := MkCall { c_num : Z; c_a1 : Z; c_a2 : Z; c_a3 : Z; c_a4 : Z; c_a5 : Z }.

Section Stubs.
Context {S : Type} (int : call → M S Z) (uload : Z → M S Z).

Definition syscall (num a1 a2 a3 a4 a5 : Z) : M S Z :=
  int (MkCall num (u32 a1) (u32 a2) (u32 a3) (u32 a4) (u32 a5)).

Definition sys_cputs (s len : Z) : M S unit := syscall SYS_cputs s len 0 0 0;; mret tt.
Definition sys_cgetc : M S Z := r ← syscall SYS_cgetc 0 0 0 0 0; mret (s32 r).
Definition sys_env_destroy (envid : Z) : M S Z := r ← syscall SYS_env_destroy envid 0 0 0 0; mret (s32 r).
Definition sys_getenvid : M S Z := r ← syscall SYS_getenvid 0 0 0 0 0; mret (s32 r).
Definition sys_env_exit : M S unit := syscall SYS_env_exit 0 0 0 0 0;; mret tt.
Definition __sys_allocate_page (va perm : Z) : M S Z := r ← syscall SYS_allocate_page va perm 0 0 0; mret (s32 r).
Definition __sys_map_frame (srcenv srcva dstenv dstva perm : Z) : M S Z :=
  r ← syscall SYS_map_frame srcenv srcva dstenv dstva perm; mret (s32 r).
Definition __sys_unmap_frame (envid va : Z) : M S Z := r ← syscall SYS_unmap_frame envid va 0 0 0; mret (s32 r).
Definition sys_calculate_required_frames (start_virtual_address size : Z) : M S Z :=
  syscall SYS_calc_req_frames start_virtual_address size 0 0 0.
Definition sys_calculate_free_frames : M S Z := syscall SYS_calc_free_frames 0 0 0 0 0.
Definition sys_calculate_modified_frames : M S Z := syscall SYS_calc_modified_frames 0 0 0 0 0.
Definition sys_calculate_notmod_frames : M S Z := syscall SYS_calc_notmod_frames 0 0 0 0 0.
Definition sys_freeMem (virtual_address size : Z) : M S unit :=
  syscall SYS_freeMem virtual_address size 0 0 0;; mret tt.
Definition sys_allocateMem (virtual_address size : Z) : M S unit :=
  syscall SYS_allocateMem virtual_address size 0 0 0;; mret tt.
Definition sys_pf_calculate_allocated_pages : M S Z :=
  r ← syscall SYS_pf_calc_allocated_pages 0 0 0 0 0; mret (s32 r).
Definition sys_disable_interrupt : M S unit := syscall SYS_disableINTR 0 0 0 0 0;; mret tt.
Definition sys_enable_interrupt : M S unit := syscall SYS_enableINTR 0 0 0 0 0;; mret tt.
(** [c] is a signed char. *)
Definition sys_cputc (c : Z) : M S unit := syscall SYS_cputc c 0 0 0 0;; mret tt.
Definition sys_clear_ffl : M S unit := syscall SYS_clearFFL 0 0 0 0 0;; mret tt.
Definition sys_createSemaphore (semaphoreName initialValue : Z) : M S Z :=
  r ← syscall SYS_create_semaphore semaphoreName initialValue 0 0 0; mret (s32 r).
Definition sys_getSemaphoreValue (semaphoreName : Z) : M S Z :=
  r ← syscall SYS_get_semaphore_value semaphoreName 0 0 0 0; mret (s32 r).
Definition sys_waitSemaphore (semaphoreName : Z) : M S unit :=
  syscall SYS_wait_semaphore semaphoreName 0 0 0 0;; mret tt.
Definition sys_signalSemaphore (semaphoreName : Z) : M S unit :=
  syscall SYS_signal_semaphore semaphoreName 0 0 0 0;; mret tt.
Definition sys_createSharedObject (shareName size isWritable returned_shared_address : Z) : M S Z :=
  r ← syscall SYS_create_shared_object shareName size isWritable returned_shared_address 0; mret (s32 r).
Definition sys_getSharedObject (shareName returned_shared_address : Z) : M S Z :=
  r ← syscall SYS_get_shared_object shareName returned_shared_address 0 0 0; mret (s32 r).
Definition sys_freeSharedObject (shareName : Z) : M S Z :=
  r ← syscall SYS_free_shared_object shareName 0 0 0 0; mret (s32 r).
Definition sys_getCurrentSharedAddress : M S Z := syscall SYS_get_current_shared_address 0 0 0 0 0.
Definition sys_getMaxShares : M S Z := syscall SYS_get_max_shares 0 0 0 0 0.
Definition sys_create_env (programName page_WS_size : Z) : M S Z :=
  r ← syscall SYS_create_env programName page_WS_size 0 0 0; mret (s32 r).
Definition sys_run_env (envId : Z) : M S unit := syscall SYS_run_env envId 0 0 0 0;; mret tt.
Definition sys_free_env (envId : Z) : M S unit := syscall SYS_free_env envId 0 0 0 0;; mret tt.
(** [result] is the address of the local structure: the low word, then the high one. *)
Definition sys_get_virtual_time (result : Z) : M S (Z * Z) :=
  syscall SYS_get_virtual_time result (result + 4) 0 0 0;;
  low ← uload result; hi ← uload (result + 4); mret (low, hi).
Definition sys_moveMem (src dst size : Z) : M S unit := syscall SYS_moveMem src dst size 0 0;; mret tt.
Definition sys_rcr2 : M S Z := syscall SYS_rcr2 0 0 0 0 0.
Definition sys_bypassPageFault (instrLength : Z) : M S unit :=
  syscall SYS_bypassPageFault instrLength 0 0 0 0;; mret tt.
Definition rsttst : M S unit := syscall SYS_rsttst 0 0 0 0 0;; mret tt.
Definition tst (n v1 v2 c inv : Z) : M S unit := syscall SYS_testNum n v1 v2 c inv;; mret tt.
Definition chktst (n : Z) : M S unit := syscall SYS_chktst n 0 0 0 0;; mret tt.
Definition is_strategy (strategy : Z) : M S Z :=
  ret ← syscall SYS_get_heap_strategy 0 0 0 0 0; mret (if ret =? strategy then 1 else 0).
Definition sys_isUHeapPlacementStrategyFIRSTFIT : M S Z := is_strategy UHP_PLACE_FIRSTFIT.
Definition sys_isUHeapPlacementStrategyBESTFIT : M S Z := is_strategy UHP_PLACE_BESTFIT.
Definition sys_isUHeapPlacementStrategyNEXTFIT : M S Z := is_strategy UHP_PLACE_NEXTFIT.
Definition sys_isUHeapPlacementStrategyWORSTFIT : M S Z := is_strategy UHP_PLACE_WORSTFIT.
Definition sys_set_uheap_strategy (heapStrategy : Z) : M S unit :=
  syscall SYS_set_heap_strategy heapStrategy 0 0 0 0;; mret tt.

(** ** lib/console.c, lib/exit.c *)
Definition cputchar (ch : Z) : M S unit := sys_cputc (s8 ch).
Definition atomic_cputchar (ch : Z) : M S unit :=
  sys_disable_interrupt;; sys_cputc (s8 ch);; sys_enable_interrupt.
(** [while (c == 0) c = sys_cgetc();], with the number of polls it may take. *)
Definition getchar (fuel : nat) : M S Z :=
  mloop fuel (λ c, if c =? 0 then c ← sys_cgetc; mret (inl c) else mret (inr c)) 0.
Definition atomic_getchar (fuel : nat) : M S Z :=
  sys_disable_interrupt;; c ← getchar fuel; sys_enable_interrupt;; mret c.
Definition iscons (fdnum : Z) : Z := 1.
Definition destroy : M S unit := sys_env_destroy 0;; mret tt.
Definition exit : M S unit := sys_env_exit.

(** ** lib/libmain.c, lib/concurrency.c *)
(** The slot of [envs] whose page faults libmain prints is the identifier itself. *)
Definition libmain (main : M S unit) (print_faults : Z → M S unit) : M S unit :=
  main;;
  envID ← sys_getenvid;
  sys_disable_interrupt;;
  print_faults envID;;
  sys_enable_interrupt;;
  exit.

(** [approxMilliSeconds * CYCLES_PER_MILLISEC] and the differences wrap; only the low word of the
    difference is compared. *)
Definition env_sleep (fuel : nat) (cycles_per_millisec result approxMilliSeconds : Z) : M S unit :=
  let time_in_cycles := u32 (approxMilliSeconds * cycles_per_millisec) in
  '(base_low, base_hi) ← sys_get_virtual_time result;
  mloop fuel (λ cycles_counter,
    if negb (cycles_counter <? time_in_cycles) then mret (inr tt) else
    '(low, hi) ← sys_get_virtual_time result;
    mret (inl (u32 (low - base_low)))) 0.
End Stubs.
