(* ===== verification/UserLibSpec.v ===== *)
(** * What a system call promises

    A call of a stub of lib/syscall.c traps into kern/trap.c, whose dispatcher runs the handler the
    stub is named after with the arguments of the call; the environment continues after the trap
    with the handler's result.  [int_0x30] is the trap instruction as the environment sees it. *)
From Stdlib Require Import Ascii.
From S2P Require Import Prelude Machine Queue State PageFlags FrameAlloc Paging KHeap PageFile WorkingSet Fault FrameAllocSpec UserEnv Sched UserLib Syscall.

(** ** Calls *)
(** The calls of the user library, with the arguments at their C types. *)
Inductive user_call :=
  | UCputs (s len : Z) | UCgetc | UGetenvid | UEnvDestroy (envid : Z) | UEnvExit | UCputc (c : Z)
  | UAllocatePage (va perm : Z) | UMapFrame (srcenv srcva dstenv dstva perm : Z) | UUnmapFrame (envid va : Z)
  | URequiredFrames (va size : Z) | UFreeFrames | UModifiedFrames | UNotmodFrames
  | UAllocatedPages | UFreeMem (va size : Z) | UAllocateMem (va size : Z) | UMoveMem (src dst size : Z)
  | UDisableInterrupt | UEnableInterrupt | UClearFFL
  | UCreateSemaphore (name initial : Z) | UWaitSemaphore (name : Z) | USignalSemaphore (name : Z)
  | USemaphoreValue (name : Z) | UCreateShared (name size isWritable ret : Z) | UGetShared (name ret : Z)
  | UFreeShared (name : Z) | USharedAddress | UMaxShares
  | UCreateEnv (name page_WS_size : Z) | URunEnv (envId : Z) | UFreeEnv (envId : Z)
  | URcr2 | UBypass (len : Z) | UTest (n v1 v2 c inv : Z) | UResetTest | UCheckTest (n : Z)
  | USetStrategy (strategy : Z).

Definition is_u8 (x : Z) : Prop := 0 ≤ x < 2 ^ 8.
Definition args_ok (u : user_call) : Prop :=
  match u with
  | UCputs a b | URequiredFrames a b | UFreeMem a b | UAllocateMem a b | UCreateSemaphore a b
  | UGetShared a b | UCreateEnv a b => is_u32 a ∧ is_u32 b
  | UEnvDestroy a | URunEnv a | UFreeEnv a => is_s32 a
  | UAllocatePage a b => is_u32 a ∧ is_s32 b
  | UMapFrame a b c d e => is_s32 a ∧ is_u32 b ∧ is_s32 c ∧ is_u32 d ∧ is_s32 e
  | UUnmapFrame a b => is_s32 a ∧ is_u32 b
  | UMoveMem a b c => is_u32 a ∧ is_u32 b ∧ is_u32 c
  | UWaitSemaphore a | USignalSemaphore a | USemaphoreValue a | UFreeShared a | UCheckTest a
  | USetStrategy a => is_u32 a
  | UCreateShared a b c d => is_u32 a ∧ is_u32 b ∧ is_u8 c ∧ is_u32 d
  | UBypass a => is_u8 a
  | UCputc a => - 2 ^ 7 ≤ a < 2 ^ 7
  | UTest a b c d e => is_u32 a ∧ is_u32 b ∧ is_u32 c ∧ - 2 ^ 7 ≤ d < 2 ^ 7 ∧ is_s32 e
  | _ => True
  end.

(** The stub, its result (0 for void) as a number. *)
Section Stub.
Context {S : Type} (int : call → M S Z).
Definition void (m : M S unit) : M S Z := m;; mret 0.
Definition stub (u : user_call) : M S Z :=
  match u with
  | UCputs s len => void (UserLib.sys_cputs int s len)
  | UCgetc => UserLib.sys_cgetc int
  | UGetenvid => UserLib.sys_getenvid int
  | UEnvDestroy envid => UserLib.sys_env_destroy int envid
  | UEnvExit => void (UserLib.sys_env_exit int)
  | UCputc c => void (sys_cputc int c)
  | UAllocatePage va perm => UserLib.__sys_allocate_page int va perm
  | UMapFrame a b c d e => UserLib.__sys_map_frame int a b c d e
  | UUnmapFrame a b => UserLib.__sys_unmap_frame int a b
  | URequiredFrames va size => UserLib.sys_calculate_required_frames int va size
  | UFreeFrames => UserLib.sys_calculate_free_frames int
  | UModifiedFrames => UserLib.sys_calculate_modified_frames int
  | UNotmodFrames => UserLib.sys_calculate_notmod_frames int
  | UAllocatedPages => UserLib.sys_pf_calculate_allocated_pages int
  | UFreeMem va size => void (UserLib.sys_freeMem int va size)
  | UAllocateMem va size => void (UserLib.sys_allocateMem int va size)
  | UMoveMem src dst size => void (UserLib.sys_moveMem int src dst size)
  | UDisableInterrupt => void (UserLib.sys_disable_interrupt int)
  | UEnableInterrupt => void (UserLib.sys_enable_interrupt int)
  | UClearFFL => void (sys_clear_ffl int)
  | UCreateSemaphore n i => UserLib.sys_createSemaphore int n i
  | UWaitSemaphore n => void (UserLib.sys_waitSemaphore int n)
  | USignalSemaphore n => void (UserLib.sys_signalSemaphore int n)
  | USemaphoreValue n => UserLib.sys_getSemaphoreValue int n
  | UCreateShared n sz w r => UserLib.sys_createSharedObject int n sz w r
  | UGetShared n r => UserLib.sys_getSharedObject int n r
  | UFreeShared n => UserLib.sys_freeSharedObject int n
  | USharedAddress => UserLib.sys_getCurrentSharedAddress int
  | UMaxShares => UserLib.sys_getMaxShares int
  | UCreateEnv n ws => UserLib.sys_create_env int n ws
  | URunEnv e => void (UserLib.sys_run_env int e)
  | UFreeEnv e => void (UserLib.sys_free_env int e)
  | URcr2 => UserLib.sys_rcr2 int
  | UBypass len => void (UserLib.sys_bypassPageFault int len)
  | UTest n v1 v2 c inv => void (UserLib.tst int n v1 v2 c inv)
  | UResetTest => void (UserLib.rsttst int)
  | UCheckTest n => void (UserLib.chktst int n)
  | USetStrategy x => void (UserLib.sys_set_uheap_strategy int x)
  end.
End Stub.

(** ** Handlers *)
Section Calls.
Context `{Extern} `{Devices} (start_of : string → Z).

Definition int_result (m : K Z) : K Z := r ← m; mret (s32 r).
Definition word_result (m : K Z) : K Z := r ← m; mret (u32 r).
Definition void_result (m : K unit) : K Z := m;; mret 0.
(** The kernel's function for a call; the dispatcher drops the results of the first three kinds of
    page calls; of printing the reads of the string are modelled. *)
Definition handler (u : user_call) : K Z :=
  match u with
  | UCputs s len => void_result (Syscall.sys_cputs s len)
  | UCgetc => int_result sys_cgetc
  | UGetenvid => int_result sys_getenvid
  | UEnvDestroy envid => int_result (sys_env_destroy envid)
  | UEnvExit => void_result sys_env_exit
  | UCputc _ => mret 0
  | UAllocatePage va perm => __sys_allocate_page va (u32 perm);; mret 0
  | UMapFrame a b c d e => __sys_map_frame (u32 a) b (u32 c) d (u32 e);; mret 0
  | UUnmapFrame a b => __sys_unmap_frame (u32 a) b;; mret 0
  | URequiredFrames va size => word_result (sys_calculate_required_frames va size)
  | UFreeFrames => word_result sys_calculate_free_frames
  | UModifiedFrames => word_result sys_calculate_modified_frames
  | UNotmodFrames => word_result sys_calculate_notmod_frames
  | UAllocatedPages => int_result sys_pf_calculate_allocated_pages
  | UFreeMem va size => void_result (sys_freeMem va size)
  | UAllocateMem va size => void_result (sys_allocateMem va size)
  | UMoveMem src dst size => void_result (sys_moveMem src dst size)
  | UDisableInterrupt => void_result sys_disable_interrupt
  | UEnableInterrupt => void_result sys_enable_interrupt
  | UClearFFL => void_result sys_clearFFL
  | UCreateSemaphore n i => int_result (sys_createSemaphore n i)
  | UWaitSemaphore n => void_result (sys_waitSemaphore n)
  | USignalSemaphore n => void_result (sys_signalSemaphore n)
  | USemaphoreValue n => int_result (sys_getSemaphoreValue n)
  | UCreateShared n sz w r => int_result (sys_createSharedObject n sz w r)
  | UGetShared n r => int_result (sys_getSharedObject n r)
  | UFreeShared n => int_result (sys_freeSharedObject n)
  | USharedAddress => word_result sys_getCurrentSharedAddress
  | UMaxShares => word_result sys_getMaxShares
  | UCreateEnv n ws => int_result (sys_create_env start_of n ws)
  | URunEnv e => void_result (sys_run_env e)
  | UFreeEnv e => void_result (sys_free_env e)
  | URcr2 => word_result sys_rcr2
  | UBypass len => void_result (sys_bypassPageFault len)
  | UTest n v1 v2 c inv => void_result (tst n v1 v2 (ascii_of_nat (Z.to_nat (u8 c))) inv)
  | UResetTest => void_result rsttst
  | UCheckTest n => void_result (chktst n)
  | USetStrategy x => void_result (sys_set_uheap_strategy x)
  end.

(** The registers a call leaves in the trap frame [tf] of the environment. *)
Definition trapped (tf : Trapframe) (c : call) : Trapframe :=
  set_tf_trapno T_SYSCALL (set_tf_eax (c_num c) (set_tf_edx (c_a1 c) (set_tf_ecx (c_a2 c)
    (set_tf_ebx (c_a3 c) (set_tf_edi (c_a4 c) (set_tf_esi (c_a5 c) tf)))))).
(** [int $0x30]: the environment goes on when the kernel returns to it, with EAX as result. *)
Definition int_0x30 (tf : Trapframe) (c : call) : K Z := λ s,
  match trap_from_user start_of (trapped tf c) s with
  | Leave (Some e) s' =>
      if decide (curenv (environments s) = Some e)
      then Ret (tf_eax (env_tf (envs (environments s') !!! e))) s' else Leave (Some e) s'
  | o => o
  end.

(** The call a stub makes and how it reads the result. *)
Definition call_of (u : user_call) : call :=
  match u with
  | UCputs a b => MkCall SYS_cputs a b 0 0 0
  | UCgetc => MkCall SYS_cgetc 0 0 0 0 0
  | UGetenvid => MkCall SYS_getenvid 0 0 0 0 0
  | UEnvDestroy a => MkCall SYS_env_destroy (u32 a) 0 0 0 0
  | UEnvExit => MkCall SYS_env_exit 0 0 0 0 0
  | UCputc a => MkCall SYS_cputc (u32 a) 0 0 0 0
  | UAllocatePage a b => MkCall SYS_allocate_page a (u32 b) 0 0 0
  | UMapFrame a b c d e => MkCall SYS_map_frame (u32 a) b (u32 c) d (u32 e)
  | UUnmapFrame a b => MkCall SYS_unmap_frame (u32 a) b 0 0 0
  | URequiredFrames a b => MkCall SYS_calc_req_frames a b 0 0 0
  | UFreeFrames => MkCall SYS_calc_free_frames 0 0 0 0 0
  | UModifiedFrames => MkCall SYS_calc_modified_frames 0 0 0 0 0
  | UNotmodFrames => MkCall SYS_calc_notmod_frames 0 0 0 0 0
  | UAllocatedPages => MkCall SYS_pf_calc_allocated_pages 0 0 0 0 0
  | UFreeMem a b => MkCall SYS_freeMem a b 0 0 0
  | UAllocateMem a b => MkCall SYS_allocateMem a b 0 0 0
  | UMoveMem a b c => MkCall SYS_moveMem a b c 0 0
  | UDisableInterrupt => MkCall SYS_disableINTR 0 0 0 0 0
  | UEnableInterrupt => MkCall SYS_enableINTR 0 0 0 0 0
  | UClearFFL => MkCall SYS_clearFFL 0 0 0 0 0
  | UCreateSemaphore a b => MkCall SYS_create_semaphore a b 0 0 0
  | UWaitSemaphore a => MkCall SYS_wait_semaphore a 0 0 0 0
  | USignalSemaphore a => MkCall SYS_signal_semaphore a 0 0 0 0
  | USemaphoreValue a => MkCall SYS_get_semaphore_value a 0 0 0 0
  | UCreateShared a b c d => MkCall SYS_create_shared_object a b c d 0
  | UGetShared a b => MkCall SYS_get_shared_object a b 0 0 0
  | UFreeShared a => MkCall SYS_free_shared_object a 0 0 0 0
  | USharedAddress => MkCall SYS_get_current_shared_address 0 0 0 0 0
  | UMaxShares => MkCall SYS_get_max_shares 0 0 0 0 0
  | UCreateEnv a b => MkCall SYS_create_env a b 0 0 0
  | URunEnv a => MkCall SYS_run_env (u32 a) 0 0 0 0
  | UFreeEnv a => MkCall SYS_free_env (u32 a) 0 0 0 0
  | URcr2 => MkCall SYS_rcr2 0 0 0 0 0
  | UBypass a => MkCall SYS_bypassPageFault a 0 0 0 0
  | UTest a b c d e => MkCall SYS_testNum a b c (u32 d) (u32 e)
  | UResetTest => MkCall SYS_rsttst 0 0 0 0 0
  | UCheckTest a => MkCall SYS_chktst a 0 0 0 0
  | USetStrategy a => MkCall SYS_set_heap_strategy a 0 0 0 0
  end.
Definition result_of (u : user_call) (r : Z) : Z :=
  match u with
  | UCgetc | UGetenvid | UEnvDestroy _ | UAllocatePage _ _ | UMapFrame _ _ _ _ _ | UUnmapFrame _ _
  | UAllocatedPages | UCreateSemaphore _ _ | USemaphoreValue _ | UCreateShared _ _ _ _ | UGetShared _ _
  | UFreeShared _ | UCreateEnv _ _ => s32 r
  | URequiredFrames _ _ | UFreeFrames | UModifiedFrames | UNotmodFrames | USharedAddress | UMaxShares | URcr2 => r
  | _ => 0
  end.

Lemma is_u8_u32 x : is_u8 x → u32 x = x.
Proof. unfold is_u8. intros. apply u32_small. unfold is_u32. lia. Qed.
Lemma stub_call {S} (int : call → M S Z) u s :
  args_ok u → stub int u s = (r ← int (call_of u); mret (result_of u r)) s.
Proof.
  intros Hu. destruct u; cbn in Hu; destruct_and?; cbn [stub call_of];
    unfold void, UserLib.sys_cputs, UserLib.sys_cgetc, UserLib.sys_getenvid, UserLib.sys_env_destroy,
      UserLib.sys_env_exit, UserLib.sys_cputc, UserLib.__sys_allocate_page, UserLib.__sys_map_frame,
      UserLib.__sys_unmap_frame, UserLib.sys_calculate_required_frames, UserLib.sys_calculate_free_frames,
      UserLib.sys_calculate_modified_frames, UserLib.sys_calculate_notmod_frames,
      UserLib.sys_pf_calculate_allocated_pages, UserLib.sys_freeMem, UserLib.sys_allocateMem, UserLib.sys_moveMem,
      UserLib.sys_disable_interrupt, UserLib.sys_enable_interrupt, UserLib.sys_clear_ffl,
      UserLib.sys_createSemaphore, UserLib.sys_waitSemaphore, UserLib.sys_signalSemaphore,
      UserLib.sys_getSemaphoreValue, UserLib.sys_createSharedObject, UserLib.sys_getSharedObject,
      UserLib.sys_freeSharedObject, UserLib.sys_getCurrentSharedAddress, UserLib.sys_getMaxShares,
      UserLib.sys_create_env, UserLib.sys_run_env, UserLib.sys_free_env, UserLib.sys_rcr2,
      UserLib.sys_bypassPageFault, UserLib.tst, UserLib.rsttst, UserLib.chktst, UserLib.sys_set_uheap_strategy,
      UserLib.syscall;
    change (u32 0) with 0;
    repeat match goal with
    | Hx : is_u32 ?x |- context [u32 ?x] => rewrite (u32_small x Hx)
    | Hx : is_u8 ?x |- context [u32 ?x] => rewrite (is_u8_u32 x Hx)
    end.
  all: unfold mbind, M_bind; match goal with |- context [?f (MkCall ?a ?b ?c ?d ?e ?g) ?s] => destruct (f (MkCall a b c d e g) s) as [| | | |]; reflexivity end.
Qed.

(** The dispatcher on the registers of a call runs its handler. *)
Lemma dispatch_handler u s :
  args_ok u →
  Syscall.syscall start_of (c_num (call_of u)) (c_a1 (call_of u)) (c_a2 (call_of u)) (c_a3 (call_of u))
    (c_a4 (call_of u)) (c_a5 (call_of u)) s = (r ← handler u; mret (u32 r)) s.
Proof.
  intros Hu. destruct u; cbn in Hu; destruct_and?;
    cbv beta iota zeta delta [call_of c_num c_a1 c_a2 c_a3 c_a4 c_a5 handler Syscall.syscall
      int_result word_result void_result
      SYS_cputs SYS_cgetc SYS_getenvid SYS_env_destroy SYS_env_exit SYS_allocate_page SYS_map_frame
      SYS_unmap_frame SYS_calc_req_frames SYS_calc_free_frames SYS_calc_modified_frames
      SYS_calc_notmod_frames SYS_pf_calc_allocated_pages SYS_freeMem SYS_allocateMem SYS_moveMem
      SYS_disableINTR SYS_enableINTR SYS_cputc SYS_clearFFL SYS_create_semaphore SYS_wait_semaphore
      SYS_signal_semaphore SYS_get_semaphore_value SYS_create_shared_object SYS_get_shared_object
      SYS_free_shared_object SYS_get_current_shared_address SYS_get_max_shares SYS_create_env
      SYS_run_env SYS_free_env SYS_get_virtual_time SYS_rcr2 SYS_bypassPageFault SYS_testNum
      SYS_rsttst SYS_chktst SYS_get_heap_strategy SYS_set_heap_strategy];
    rewrite ?s32_u32, ?u8_u32;
    repeat match goal with Hx : is_s32 ?x |- context [s32 ?x] => rewrite (s32_small x Hx) end.
  all: try (rewrite bind_assoc; apply bind_ext; intros; rewrite ?bind_mret, ?u32_s32, ?u32_idemp; reflexivity).
  done.
Qed.
Lemma handler_result u s r s' : handler u s = Ret r s' → result_of u (u32 r) = r.
Proof.
  destruct u; cbn [handler result_of]; unfold int_result, word_result, void_result.
  all: try (intros (v & s1 & _ & Hr)%bind_Ret_inv; injection Hr as <- <-; rewrite ?s32_u32, ?s32_idemp, ?u32_idemp; reflexivity).
  intros Hr. by injection Hr as <- <-.
Qed.

(** ** The trap *)
(** The environment's frame replaced on entry, and the result put in its EAX. *)
Definition saved (e : Z) (tf : Trapframe) : KState → KState :=
  on_environments (λ r, set_envs (<[e := set_env_tf tf (envs r !!! e)]> (envs r)) r).
Definition with_eax (e v : Z) : KState → KState :=
  on_environments (λ r, set_envs (<[e := set_env_tf (set_tf_eax v (env_tf (envs r !!! e))) (envs r !!! e)]> (envs r)) r).

Lemma trapped_call tf c :
  tf_trapno (trapped tf c) = T_SYSCALL ∧ tf_eax (trapped tf c) = c_num c ∧ tf_edx (trapped tf c) = c_a1 c ∧
  tf_ecx (trapped tf c) = c_a2 c ∧ tf_ebx (trapped tf c) = c_a3 c ∧ tf_edi (trapped tf c) = c_a4 c ∧
  tf_esi (trapped tf c) = c_a5 c.
Proof. by destruct tf. Qed.

Lemma return_same_env {A} e s :
  curenv (environments s) = Some e → env_status (envs (environments s) !!! e) = ENV_READY →
  return_to_curenv (A := A) s = Leave (Some e) s.
Proof.
  intros Hc Hs. unfold return_to_curenv. rewrite bind_gets. cbn [compose]. rewrite Hc.
  unfold get_env. rewrite bind_gets, Hs, Z.eqb_refl. cbn [assert_]. rewrite bind_mret.
  unfold env_run. rewrite bind_gets. cbn [compose]. rewrite Hc, bool_decide_true by done.
  cbn [negb when]. by rewrite bind_mret.
Qed.

Lemma int_returns u s e tf r s' :
  args_ok u → curenv (environments s) = Some e →
  handler u (saved e (trapped tf (call_of u)) s) = Ret r s' →
  curenv (environments s') = Some e → env_status (envs (environments s') !!! e) = ENV_READY →
  int_0x30 tf (call_of u) s = Ret (u32 r) (with_eax e (u32 r) s').
Proof.
  intros Hu Hc Hrun Hc' Hst. unfold int_0x30, trap_from_user. rewrite bind_gets. cbn [compose]. rewrite Hc.
  destruct (trapped_call tf (call_of u)) as (H1 & H2 & H3 & H4 & H5 & H6 & H7).
  rewrite (bind_Ret _ _ _ tt (saved e (trapped tf (call_of u)) s)) by done.
  rewrite bind_gets. cbn [compose]. rewrite H1. change (T_SYSCALL =? T_PGFLT) with false. cbn [andb when].
  rewrite bind_mret. unfold trap_dispatch. rewrite H1. change (T_SYSCALL =? T_PGFLT) with false.
  change (T_SYSCALL =? T_SYSCALL) with true. cbn iota. rewrite bind_assoc, H2, H3, H4, H5, H6, H7.
  rewrite (bind_Ret _ _ _ (u32 r) s').
  2: { rewrite dispatch_handler by done. by rewrite (bind_Ret _ _ _ _ _ Hrun). }
  rewrite bind_mret. cbn [when]. rewrite (bind_Ret _ _ _ tt (with_eax e (u32 r) s')) by done.
  rewrite (return_same_env e); [|done|].
  - rewrite decide_True by done. cbn. by rewrite array_get_set_eq.
  - cbn. by rewrite array_get_set_eq.
Qed.
End Calls.

(** ** Properties *)

(** C36: a system call of the user library is a call of the kernel function it is named after.
    When the handler, run in the state the trap leaves (the caller's registers saved in its
    environment), returns with the caller still running and ready, the stub returns the
    handler's result and the kernel is in the handler's final state, EAX of the environment set
    to the result; the numbers and argument orders of the 38 stubs agree with the dispatcher's.
    The dispatcher answers 0 for the page calls whatever their handlers return. *)
Theorem system_call_roundtrip `{Extern} `{Devices} start_of u s e tf r s' :
  args_ok u → curenv (environments s) = Some e →
  handler start_of u (saved e (trapped tf (call_of u)) s) = Ret r s' →
  curenv (environments s') = Some e → env_status (envs (environments s') !!! e) = ENV_READY →
  stub (int_0x30 start_of tf) u s = Ret r (with_eax e (u32 r) s').
Proof.
  intros Hu Hc Hrun Hc' Hst. rewrite stub_call by done.
  rewrite (bind_Ret _ _ _ _ _ (int_returns start_of u s e tf r s' Hu Hc Hrun Hc' Hst)).
  by rewrite (handler_result start_of u _ _ _ Hrun).
Qed.

(** ** Witnesses *)
(** Environment 5 is running; it selects best fit for its heap. *)
Definition running_five : KState :=
  on_environments (λ r, set_curenv (Some 5) (set_envs {[5 := set_env_status ENV_READY inhabitant]} r)) inhabitant.
Definition no_devices : Devices := {| cons_getc2 := mret 0; get_virtual_time := mret (0, 0) |}.
Lemma system_call_roundtrip_witness :
  ∃ s', @stub KState (@int_0x30 no_nesting no_devices (λ _, 0) inhabitant) (USetStrategy UHP_PLACE_BESTFIT) running_five
        = Ret 0 s' ∧ _UHeapPlacementStrategy (config s') = UHP_PLACE_BESTFIT.
Proof.
  eexists. split.
  - refine (@system_call_roundtrip no_nesting no_devices (λ _, 0) (USetStrategy UHP_PLACE_BESTFIT) running_five 5
      inhabitant 0 _ _ _ _ _ _); [|reflexivity|reflexivity|reflexivity|reflexivity].
    unfold args_ok, is_u32, UHP_PLACE_BESTFIT. lia.
  - reflexivity.
Defined.
