(* ===== verification/Traps.v ===== *)
(** * Traps: descriptors, entry points and the trap frame

    The gate and segment descriptors of inc/mmu.h with the layout of their bit fields, the trap
    numbers of inc/trap.h, [gdt] of kern/helpers.c, [trapname], [idt_init] and [trap] of
    kern/trap.c, and the entry stubs of kern/trapentry.S, which complete the frame the processor
    pushed.  The addresses the linker gives the stubs and the task state are parameters. *)
From S2P Require Import Prelude Machine Queue State Fault UserEnv Sched Syscall.

(** [n] bits of [v], as an assignment to a bit field of width [n] keeps them. *)
Definition bits (n v : Z) : Z := v `mod` 2 ^ n.

(** ** Segment descriptors *)
Record Segdesc := MkSegdesc {
  sd_lim_15_0 : Z; sd_base_15_0 : Z; sd_base_23_16 : Z; sd_type : Z; sd_s : Z; sd_dpl : Z; sd_p : Z;
  sd_lim_19_16 : Z; sd_avl : Z; sd_rsv1 : Z; sd_db : Z; sd_g : Z; sd_base_31_24 : Z;
}.
Definition SEG_NULL : Segdesc := MkSegdesc 0 0 0 0 0 0 0 0 0 0 0 0 0.
#[export] Instance Segdesc_inhabited : Inhabited Segdesc := populate SEG_NULL.
Definition SEG (type base lim dpl : Z) : Segdesc :=
  MkSegdesc (Z.land (Z.shiftr (u32 lim) 12) 0xffff) (Z.land base 0xffff) (Z.land (Z.shiftr base 16) 0xff)
    (bits 4 type) 1 (bits 2 dpl) 1 (bits 4 (Z.shiftr (u32 lim) 28)) 0 0 1 1 (bits 8 (Z.shiftr (u32 base) 24)).
Definition SEG16 (type base lim dpl : Z) : Segdesc :=
  MkSegdesc (Z.land lim 0xffff) (Z.land base 0xffff) (Z.land (Z.shiftr base 16) 0xff)
    (bits 4 type) 1 (bits 2 dpl) 1 (bits 4 (Z.shiftr (u32 lim) 16)) 0 0 1 0 (bits 8 (Z.shiftr (u32 base) 24)).
Definition set_sd_s (v : Z) (r : Segdesc) : Segdesc :=
  MkSegdesc (sd_lim_15_0 r) (sd_base_15_0 r) (sd_base_23_16 r) (sd_type r) v (sd_dpl r) (sd_p r)
    (sd_lim_19_16 r) (sd_avl r) (sd_rsv1 r) (sd_db r) (sd_g r) (sd_base_31_24 r).
(** The two words of a descriptor, least significant field first. *)
Definition segdesc_words (r : Segdesc) : Z * Z :=
  (sd_lim_15_0 r + sd_base_15_0 r * 2 ^ 16,
   sd_base_23_16 r + sd_type r * 2 ^ 8 + sd_s r * 2 ^ 12 + sd_dpl r * 2 ^ 13 + sd_p r * 2 ^ 15 +
   sd_lim_19_16 r * 2 ^ 16 + sd_avl r * 2 ^ 20 + sd_rsv1 r * 2 ^ 21 + sd_db r * 2 ^ 22 + sd_g r * 2 ^ 23 +
   sd_base_31_24 r * 2 ^ 24).

Definition STA_X : Z := 0x8.
Definition STA_W : Z := 0x2.
Definition STA_R : Z := 0x2.
Definition STS_T32A : Z := 0x9.
Definition STS_IG32 : Z := 0xE.
Definition STS_TG32 : Z := 0xF.
Definition GD_KD : Z := 0x10.
Definition GD_TSS : Z := 0x28.

(** The table of kern/helpers.c, by [selector >> 3]. *)
Definition initial_gdt : gmap Z Segdesc :=
  <[Z.shiftr GD_KT 3 := SEG (Z.lor STA_X STA_R) 0 0xffffffff 0]>
  (<[Z.shiftr GD_KD 3 := SEG STA_W 0 0xffffffff 0]>
  (<[Z.shiftr GD_UT 3 := SEG (Z.lor STA_X STA_R) 0 0xffffffff 3]>
  (<[Z.shiftr GD_UD 3 := SEG STA_W 0 0xffffffff 3]>
  (<[Z.shiftr GD_TSS 3 := SEG_NULL]> ∅)))).

(** ** Gates *)
Record Gatedesc := MkGatedesc {
  gd_off_15_0 : Z; gd_ss : Z; gd_args : Z; gd_rsv1 : Z; gd_type : Z; gd_s : Z; gd_dpl : Z; gd_p : Z;
  gd_off_31_16 : Z;
}.
#[export] Instance Gatedesc_inhabited : Inhabited Gatedesc := populate (MkGatedesc 0 0 0 0 0 0 0 0 0).
Definition SETGATE (istrap sel off dpl : Z) : Gatedesc :=
  MkGatedesc (Z.land (u32 off) 0xffff) (bits 16 sel) 0 0 (if negb (istrap =? 0) then STS_TG32 else STS_IG32) 0
    (bits 2 dpl) 1 (Z.shiftr (u32 off) 16).
Definition gate_words (r : Gatedesc) : Z * Z :=
  (gd_off_15_0 r + gd_ss r * 2 ^ 16,
   gd_args r + gd_rsv1 r * 2 ^ 5 + gd_type r * 2 ^ 8 + gd_s r * 2 ^ 12 + gd_dpl r * 2 ^ 13 + gd_p r * 2 ^ 15 +
   gd_off_31_16 r * 2 ^ 16).

(** ** Trap numbers *)
Definition T_DIVIDE : Z := 0.
Definition T_DEBUG : Z := 1.
Definition T_NMI : Z := 2.
Definition T_BRKPT : Z := 3.
Definition T_OFLOW : Z := 4.
Definition T_BOUND : Z := 5.
Definition T_ILLOP : Z := 6.
Definition T_DEVICE : Z := 7.
Definition T_TSS : Z := 10.
Definition T_SEGNP : Z := 11.
Definition T_STACK : Z := 12.
Definition T_GPFLT : Z := 13.
Definition T_FPERR : Z := 16.
Definition T_ALIGN : Z := 17.
Definition T_MCHK : Z := 18.
Definition T_SIMDERR : Z := 19.

Definition excnames : list string :=
  ["Divide error"; "Debug"; "Non-Maskable Interrupt"; "Breakpoint"; "Overflow"; "BOUND Range Exceeded";
   "Invalid Opcode"; "Device Not Available"; "Double Fault"; "Coprocessor Segment Overrun"; "Invalid TSS";
   "Segment Not Present"; "Stack Fault"; "General Protection"; "Page Fault"; "(unknown trap)";
   "x87 FPU Floating-Point Error"; "Alignment Check"; "Machine-Check"; "SIMD Floating-Point Exception"]%string.
(** The comparison with sizeof is unsigned, so a negative number is past the end. *)
Definition trapname (trapno : Z) : string :=
  match excnames !! Z.to_nat (u32 trapno) with
  | Some name => name
  | None => if trapno =? T_SYSCALL then "System call" else "(unknown trap)"
  end.

(** ** Entry points *)
Inductive Entry := PAGE_FAULT | SYSCALL_HANDLER | DBL_FAULT | ALL_FAULTS (n : Z).
#[export] Instance Entry_eq_dec : EqDecision Entry.
Proof. solve_decision. Defined.
(** The stubs of trapentry.S: does the stub push a 0 in place of the error code (TRAPHANDLER_NOEC),
    and the number it pushes. *)
Definition entry_stub (e : Entry) : bool * Z :=
  match e with
  | PAGE_FAULT => (false, T_PGFLT)
  | SYSCALL_HANDLER => (true, T_SYSCALL)
  | DBL_FAULT => (false, T_DBLFLT)
  | ALL_FAULTS n => (negb (bool_decide (n ∈ [10; 11; 12; 13; 17])), n)
  end.
(** The 36 entry points that exist. *)
Definition entries : list Entry :=
  PAGE_FAULT :: SYSCALL_HANDLER :: DBL_FAULT ::
  (ALL_FAULTS <$> (seqZ 0 8 ++ seqZ 10 4 ++ seqZ 16 4 ++ seqZ 32 16)).

(** The words on the kernel stack, top first: TRAPHANDLER and _alltraps push onto what the
    processor pushed.  [esp]: the stack pointer that pushal saves. *)
Definition push_frame (e : Entry) (r : Trapframe) (esp : Z) (stack : list Z) : list Z :=
  let '(noec, num) := entry_stub e in
  [tf_edi r; tf_esi r; tf_ebp r; esp; tf_ebx r; tf_edx r; tf_ecx r; tf_eax r; tf_es r; tf_ds r; num] ++
  (if noec then [0] else []) ++ stack.
(** The 17 words from the stack pointer on as a [struct Trapframe]; selectors are 16 bits. *)
Definition read_trapframe (stack : list Z) : Trapframe :=
  let w i := nth i stack 0 in
  MkTrapframe (w 0%nat) (w 1%nat) (w 2%nat) (w 3%nat) (w 4%nat) (w 5%nat) (w 6%nat) (w 7%nat)
    (bits 16 (w 8%nat)) (bits 16 (w 9%nat)) (w 10%nat) (w 11%nat) (w 12%nat) (bits 16 (w 13%nat))
    (w 14%nat) (w 15%nat) (bits 16 (w 16%nat)).

(** ** idt_init *)
(** The fields of [struct Taskstate] idt_init sets; the others stay 0. *)
Record Taskstate := MkTaskstate { ts_esp0 : Z; ts_ss0 : Z }.
Definition SIZEOF_Taskstate : Z := 104.
(** The descriptor tables and the processor's task register and interrupt table register. *)
Record Descriptors := MkDescriptors {
  idt : gmap Z Gatedesc; gdt : gmap Z Segdesc; ts : Taskstate; task_register : Z; idt_loaded : bool;
}.

Section IdtInit.
Context (address : Entry → Z) (address_of_ts : Z).

(** The arguments of the SETGATE lines, in their order. *)
Definition idt_gates : list (Z * Z * Entry * Z) :=
  [(T_PGFLT, 0, PAGE_FAULT, 0); (T_SYSCALL, 0, SYSCALL_HANDLER, 3); (T_DBLFLT, 0, DBL_FAULT, 0);
   (T_DIVIDE, 0, ALL_FAULTS 0, 3); (T_DEBUG, 1, ALL_FAULTS 1, 3); (T_NMI, 0, ALL_FAULTS 2, 3);
   (T_BRKPT, 1, ALL_FAULTS 3, 3); (T_OFLOW, 1, ALL_FAULTS 4, 3); (T_BOUND, 0, ALL_FAULTS 5, 3);
   (T_ILLOP, 0, ALL_FAULTS 6, 3); (T_DEVICE, 0, ALL_FAULTS 7, 3);
   (T_TSS, 0, ALL_FAULTS 10, 3); (T_SEGNP, 0, ALL_FAULTS 11, 3); (T_STACK, 0, ALL_FAULTS 12, 3);
   (T_GPFLT, 0, ALL_FAULTS 13, 3); (T_FPERR, 0, ALL_FAULTS 16, 3); (T_ALIGN, 0, ALL_FAULTS 17, 3);
   (T_MCHK, 0, ALL_FAULTS 18, 3); (T_SIMDERR, 0, ALL_FAULTS 19, 3);
   (IRQ0_Clock, 0, ALL_FAULTS 32, 3); (33, 0, ALL_FAULTS 33, 3); (34, 0, ALL_FAULTS 34, 3);
   (35, 0, ALL_FAULTS 35, 3); (36, 0, ALL_FAULTS 36, 3); (37, 0, ALL_FAULTS 37, 3);
   (38, 0, ALL_FAULTS 38, 3); (39, 0, ALL_FAULTS 39, 3); (40, 0, ALL_FAULTS 40, 3);
   (41, 0, ALL_FAULTS 41, 3); (42, 0, ALL_FAULTS 42, 3); (43, 0, ALL_FAULTS 43, 3);
   (44, 0, ALL_FAULTS 44, 3); (45, 0, ALL_FAULTS 45, 3); (46, 0, ALL_FAULTS 46, 3);
   (47, 0, ALL_FAULTS 47, 3)].

Definition idt_init (d : Descriptors) : Descriptors :=
  let set_gate t '(v, istrap, e, dpl) := <[v := SETGATE istrap GD_KT (address e) dpl]> t in
  let tss := set_sd_s 0 (SEG16 STS_T32A (u32 address_of_ts) SIZEOF_Taskstate 0) in
  MkDescriptors (foldl set_gate (idt d) idt_gates) (<[Z.shiftr GD_TSS 3 := tss]> (gdt d))
    (MkTaskstate KERNEL_STACK_TOP GD_KD) GD_TSS true.
End IdtInit.

(** ** The trap function *)
Section Trap.
Context `{Extern} `{Devices} (start_of : string → Z).

(** From user mode as modelled in Syscall.v; in kernel mode the interrupted code is abandoned for
    the current environment, unless the faulting instruction is to be skipped, and then the kernel
    goes on behind it: [resume_kernel] is the rest of the interrupted code, which the trap frame
    designates.  The timer calls (kclock_stop, kclock_resume) are left out as in env_run. *)
Definition trap {A} (resume_kernel : Trapframe → K A) (tf : Trapframe) : K A :=
  if Z.land (tf_cs tf) 3 =? 3 then trap_from_user start_of tf
  else
    len ← gets (bypassInstrLength ∘ config);
    if (tf_trapno tf =? T_PGFLT) && negb (len =? 0) then resume_kernel (set_tf_eip (u32 (tf_eip tf + len)) tf)
    else trap_dispatch start_of tf;; return_to_curenv.
End Trap.
