(* ===== verification/TrapsSpec.v ===== *)
(** * Traps: what the processor makes of the tables, and what trap gets

    The processor's side is specified here: decoding a gate and a segment descriptor, and what an
    interrupt pushes.  idt_init makes every vector that has an entry point reach the stub that
    pushes its number; for an event raised by the hardware the stubs complete the processor's words
    to the [struct Trapframe] that trap reads.  [int] with a vector whose exceptions carry an error
    code gives trap a shifted frame. *)
From S2P Require Import Prelude Machine Queue State PageFlags FrameAlloc FrameAllocSpec Fault UserEnv Sched Syscall Traps.

(** ** The processor *)
(** What a gate designates: code segment, offset, the least privilege that may use it in an [int]
    instruction, and whether interrupts are disabled on the way in. *)
Record Handler := MkHandler { h_selector : Z; h_offset : Z; h_dpl : Z; h_interrupts_off : bool }.
Definition decode_gate (w : Z * Z) : option Handler :=
  let '(lo, hi) := w in
  let type := bits 4 (hi `div` 2 ^ 8) in
  if (bits 1 (hi `div` 2 ^ 15) =? 1) && (bits 1 (hi `div` 2 ^ 12) =? 0) && ((type =? 14) || (type =? 15))
  then Some (MkHandler (lo `div` 2 ^ 16) (bits 16 lo + hi `div` 2 ^ 16 * 2 ^ 16) (bits 2 (hi `div` 2 ^ 13)) (type =? 14))
  else None.
Definition handler_of (t : gmap Z Gatedesc) (v : Z) : option Handler := decode_gate (gate_words (t !!! v)).
(** [int v] at privilege [cpl]; [None]: a general protection fault instead. *)
Definition int_instruction (t : gmap Z Gatedesc) (cpl v : Z) : option Handler :=
  h ← handler_of t v; if cpl <=? h_dpl h then Some h else None.

(** Exceptions for which the processor pushes an error code. *)
Definition has_error_code (v : Z) : bool := bool_decide (v ∈ [8; 10; 11; 12; 13; 14; 17]).
(** The words pushed when user mode is interrupted, top first. *)
Definition user_words (r : Trapframe) : list Z := [tf_eip r; tf_cs r; tf_eflags r; tf_esp r; tf_ss r].
(** ... by an exception or a device. *)
Definition event_words (v code : Z) (r : Trapframe) : list Z :=
  (if has_error_code v then [code] else []) ++ user_words r.

#[export] Instance Handler_eq_dec : EqDecision Handler.
Proof. solve_decision. Defined.

(** A segment descriptor: base, limit in bytes, type, application segment, privilege, present. *)
Record Segment := MkSegment { g_base : Z; g_limit : Z; g_type : Z; g_app : bool; g_dpl : Z; g_present : bool }.
Definition decode_segdesc (w : Z * Z) : Segment :=
  let '(lo, hi) := w in
  let limit := bits 16 lo + bits 4 (hi `div` 2 ^ 16) * 2 ^ 16 in
  MkSegment (lo `div` 2 ^ 16 + bits 8 hi * 2 ^ 16 + hi `div` 2 ^ 24 * 2 ^ 24)
    (if bits 1 (hi `div` 2 ^ 23) =? 1 then limit * 2 ^ 12 + 0xFFF else limit)
    (bits 4 (hi `div` 2 ^ 8)) (bits 1 (hi `div` 2 ^ 12) =? 1) (bits 2 (hi `div` 2 ^ 13)) (bits 1 (hi `div` 2 ^ 15) =? 1).

(** ** Gates *)
Lemma setgate_decodes istrap sel off dpl :
  0 ≤ sel < 2 ^ 16 → is_u32 off → 0 ≤ dpl < 4 →
  decode_gate (gate_words (SETGATE istrap sel off dpl)) = Some (MkHandler sel off dpl (istrap =? 0)).
Proof.
  intros Hs Ho Hd. unfold decode_gate, gate_words, SETGATE. cbn [gd_off_15_0 gd_ss gd_args gd_rsv1 gd_type gd_s gd_dpl gd_p gd_off_31_16].
  rewrite Z.shiftr_div_pow2 by done. change 0xffff with (Z.ones 16). rewrite Z.land_ones by done.
  rewrite u32_small by done. unfold bits, is_u32 in *. rewrite (Z.mod_small sel), (Z.mod_small dpl) by lia.
  set (ty := if negb (istrap =? 0) then STS_TG32 else STS_IG32).
  assert (ty = (if istrap =? 0 then 14 else 15)) as Hty by (unfold ty; by destruct (istrap =? 0)).
  set (hi := _ + off / 2 ^ 16 * 2 ^ 16).
  assert (hi `div` 2 ^ 8 `mod` 2 ^ 4 = ty ∧ hi `div` 2 ^ 15 `mod` 2 ^ 1 = 1 ∧ hi `div` 2 ^ 12 `mod` 2 ^ 1 = 0 ∧
    hi `div` 2 ^ 13 `mod` 2 ^ 2 = dpl ∧ hi `div` 2 ^ 16 = off / 2 ^ 16) as (-> & -> & -> & -> & ->).
  { unfold hi. clearbody ty. clear hi. assert (14 ≤ ty ≤ 15) by (subst; case_match; lia). clear Hty. split_and!; zdiv. }
  replace ((off mod 2 ^ 16 + sel * 2 ^ 16) `div` 2 ^ 16) with sel by zdiv.
  replace ((off mod 2 ^ 16 + sel * 2 ^ 16) `mod` 2 ^ 16) with (off mod 2 ^ 16) by zdiv.
  replace (off mod 2 ^ 16 + off / 2 ^ 16 * 2 ^ 16) with off by zdiv.
  rewrite Hty. by destruct (istrap =? 0).
Qed.

Lemma seg_decodes type base lim dpl :
  is_u32 base → is_u32 lim → 0 ≤ type < 16 → 0 ≤ dpl < 4 →
  decode_segdesc (segdesc_words (SEG type base lim dpl)) =
    MkSegment base (lim / 2 ^ 12 * 2 ^ 12 + 0xFFF) type true dpl true.
Proof.
  intros Hb Hl Ht Hd. unfold decode_segdesc, segdesc_words, SEG, bits.
  cbn [sd_lim_15_0 sd_base_15_0 sd_base_23_16 sd_type sd_s sd_dpl sd_p sd_lim_19_16 sd_avl sd_rsv1 sd_db sd_g sd_base_31_24].
  rewrite !Z.shiftr_div_pow2 by done. change 0xffff with (Z.ones 16). change 0xff with (Z.ones 8).
  rewrite !Z.land_ones by done. rewrite !u32_small by done. unfold is_u32 in *.
  rewrite (Z.mod_small type), (Z.mod_small dpl) by lia.
    set (lo := lim / 2 ^ 12 mod 2 ^ 16 + base mod 2 ^ 16 * 2 ^ 16). set (hi := _ + _ mod 2 ^ 8 * 2 ^ 24).
  assert (lo `div` 2 ^ 16 = base mod 2 ^ 16 ∧ lo `mod` 2 ^ 16 = lim / 2 ^ 12 mod 2 ^ 16) as [-> ->] by (unfold lo; split; zdiv).
  assert (hi `mod` 2 ^ 8 = base / 2 ^ 16 mod 2 ^ 8 ∧ hi `div` 2 ^ 24 = base / 2 ^ 24 ∧ hi `div` 2 ^ 16 `mod` 2 ^ 4 = lim / 2 ^ 28 ∧
    hi `div` 2 ^ 23 `mod` 2 ^ 1 = 1 ∧ hi `div` 2 ^ 8 `mod` 2 ^ 4 = type ∧ hi `div` 2 ^ 12 `mod` 2 ^ 1 = 1 ∧
    hi `div` 2 ^ 13 `mod` 2 ^ 2 = dpl ∧ hi `div` 2 ^ 15 `mod` 2 ^ 1 = 1) as (-> & -> & -> & -> & -> & -> & -> & ->).
  { unfold hi. clear lo hi. split_and!; zdiv. }
  cbn [Z.eqb Pos.eqb]. f_equal; zdiv.
Qed.
Lemma tss_decodes a :
  is_u32 a → decode_segdesc (segdesc_words (set_sd_s 0 (SEG16 STS_T32A a SIZEOF_Taskstate 0))) =
    MkSegment a SIZEOF_Taskstate STS_T32A false 0 true.
Proof.
  intros Ha. unfold decode_segdesc, segdesc_words, SEG16, set_sd_s, bits.
  cbn [sd_lim_15_0 sd_base_15_0 sd_base_23_16 sd_type sd_s sd_dpl sd_p sd_lim_19_16 sd_avl sd_rsv1 sd_db sd_g sd_base_31_24].
  rewrite !Z.shiftr_div_pow2 by done. change 0xffff with (Z.ones 16). change 0xff with (Z.ones 8).
  rewrite !Z.land_ones by done. rewrite !u32_small by done. unfold is_u32, SIZEOF_Taskstate, STS_T32A in *.
  set (lo := 104 mod 2 ^ 16 + a mod 2 ^ 16 * 2 ^ 16). set (hi := _ + _ mod 2 ^ 8 * 2 ^ 24).
  assert (lo `div` 2 ^ 16 = a mod 2 ^ 16 ∧ lo `mod` 2 ^ 16 = 104) as [-> ->] by (unfold lo; split; zdiv).
  assert (hi `mod` 2 ^ 8 = a / 2 ^ 16 mod 2 ^ 8 ∧ hi `div` 2 ^ 24 = a / 2 ^ 24 ∧ hi `div` 2 ^ 16 `mod` 2 ^ 4 = 0 ∧
    hi `div` 2 ^ 23 `mod` 2 ^ 1 = 0 ∧ hi `div` 2 ^ 8 `mod` 2 ^ 4 = 9 ∧ hi `div` 2 ^ 12 `mod` 2 ^ 1 = 0 ∧
    hi `div` 2 ^ 13 `mod` 2 ^ 2 = 0 ∧ hi `div` 2 ^ 15 `mod` 2 ^ 1 = 1) as (-> & -> & -> & -> & -> & -> & -> & ->).
  { unfold hi. clear lo hi. change (9 mod 2 ^ 4) with 9. change (0 mod 2 ^ 2) with 0. change (104 / 2 ^ 16 mod 2 ^ 4) with 0. split_and!; zdiv. }
  cbn [Z.eqb Pos.eqb]. f_equal; zdiv.
Qed.

(** ** The table idt_init builds *)
(** The entry point whose stub pushes [v]. *)
Definition entry_for (v : Z) : option Entry := head (filter (λ e, (entry_stub e).2 = v) entries).
Definition vectors : list Z := (λ g : Z * Z * Entry * Z, g.1.1.1) <$> idt_gates.

Section Table.
Context (address : Entry → Z).
Let set_gate (t : gmap Z Gatedesc) (g : Z * Z * Entry * Z) : gmap Z Gatedesc :=
  let '(v, istrap, e, dpl) := g in <[v := SETGATE istrap GD_KT (address e) dpl]> t.

Lemma gates_other gates t v :
  v ∉ ((λ g : Z * Z * Entry * Z, g.1.1.1) <$> gates) → foldl set_gate t gates !!! v = t !!! v.
Proof using.
  revert t. induction gates as [|[[[v' i] e] d] gates IH]; intros t; [done|]. cbn.
  intros [Hne Hv]%not_elem_of_cons. rewrite IH by done. by rewrite array_get_set_ne.
Qed.
Lemma gates_lookup gates t v istrap e dpl :
  NoDup ((λ g : Z * Z * Entry * Z, g.1.1.1) <$> gates) → (v, istrap, e, dpl) ∈ gates →
  foldl set_gate t gates !!! v = SETGATE istrap GD_KT (address e) dpl.
Proof using.
  revert t. induction gates as [|[[[v' i] e'] d] gates IH]; intros t; cbn; [by intros _ ?%not_elem_of_nil|].
  intros [Hv Hnd]%NoDup_cons [[= -> -> -> ->]|Hin]%elem_of_cons; [|by apply IH].
  rewrite gates_other by done. apply array_get_set_eq.
Qed.
End Table.

Lemma vectors_NoDup : NoDup vectors.
Proof. apply (bool_decide_unpack _). vm_compute. exact I. Qed.
(** Each line of idt_init names the stub that pushes its vector. *)
Lemma gates_match v istrap e dpl :
  (v, istrap, e, dpl) ∈ idt_gates →
  entry_for v = Some e ∧ istrap = (if bool_decide (v ∈ [1; 3; 4]) then 1 else 0) ∧
  dpl = (if bool_decide (v ∈ [8; 14]) then 0 else 3).
Proof.
  intros Hin. assert (Forall (λ '(v, istrap, e, dpl), entry_for v = Some e ∧
    istrap = (if bool_decide (v ∈ [1; 3; 4]) then 1 else 0) ∧
    dpl = (if bool_decide (v ∈ [8; 14]) then 0 else 3)) idt_gates) as Hall.
  { unfold idt_gates. repeat constructor. }
  rewrite Forall_forall in Hall. by apply (Hall (v, istrap, e, dpl)).
Qed.
Lemma no_entry v : v ∉ vectors → entry_for v = None.
Proof.
  intros Hv. unfold entry_for. destruct (filter _ _) as [|e es] eqn:Hf; [done|].
  assert (e ∈ filter (λ e, (entry_stub e).2 = v) entries) as [Hs Hin]%list_elem_of_filter by (rewrite Hf; by left).
  exfalso. apply Hv. rewrite <-Hs.
  assert (Forall (λ e, (entry_stub e).2 ∈ vectors) entries) as Hall.
  { apply (bool_decide_unpack _). vm_compute. exact I. }
  rewrite Forall_forall in Hall. by apply Hall.
Qed.

(** ** The frame *)
Lemma user_frame_read e r esp err rest :
  0 ≤ tf_es r < 2 ^ 16 → 0 ≤ tf_ds r < 2 ^ 16 → 0 ≤ tf_cs r < 2 ^ 16 → 0 ≤ tf_ss r < 2 ^ 16 →
  (if (entry_stub e).1 then err = [] else ∃ code, err = [code]) →
  read_trapframe (push_frame e r esp (err ++ user_words r ++ rest)) =
    MkTrapframe (tf_edi r) (tf_esi r) (tf_ebp r) esp (tf_ebx r) (tf_edx r) (tf_ecx r) (tf_eax r) (tf_es r) (tf_ds r)
      (entry_stub e).2 (if (entry_stub e).1 then 0 else hd 0 err) (tf_eip r) (tf_cs r) (tf_eflags r) (tf_esp r) (tf_ss r).
Proof.
  intros H1 H2 H3 H4 Herr. unfold push_frame. destruct (entry_stub e) as [noec num]. cbn [fst snd] in *.
  assert (∀ x, 0 ≤ x < 2 ^ 16 → bits 16 x = x) as Hb by (intros; by apply Z.mod_small).
  destruct noec; [rewrite Herr|destruct Herr as [code ->]];
    unfold read_trapframe, user_words; cbn [app nth hd]; by rewrite !Hb.
Qed.

(** ** Properties *)
(** The vectors idt_init serves. *)
Definition served (v : Z) : Prop := 0 ≤ v ≤ 8 ∨ 10 ≤ v ≤ 14 ∨ 16 ≤ v ≤ 19 ∨ 32 ≤ v ≤ 48.
Lemma entry_for_served v : entry_for v ≠ None ↔ served v.
Proof.
  split.
  - intros Hv. destruct (decide (v ∈ vectors)) as [Hin|Hn]; [|by rewrite no_entry in Hv].
    assert (Forall (λ v, (0 <=? v) && (v <=? 8) || (10 <=? v) && (v <=? 14) || (16 <=? v) && (v <=? 19) || (32 <=? v) && (v <=? 48) = true) vectors) as Hall.
    { apply (bool_decide_unpack _). vm_compute. exact I. }
    rewrite Forall_forall in Hall. specialize (Hall v Hin). cbv beta in Hall. unfold served.
    rewrite !orb_true_iff, !andb_true_iff, !Z.leb_le in Hall. lia.
  - intros Hs. assert (v ∈ seqZ 0 9 ++ seqZ 10 5 ++ seqZ 16 4 ++ seqZ 32 17) as Hin.
    { rewrite !elem_of_app, !elem_of_seqZ. unfold served in Hs. lia. }
    assert (Forall (λ v, is_Some (entry_for v)) (seqZ 0 9 ++ seqZ 10 5 ++ seqZ 16 4 ++ seqZ 32 17)) as Hall.
    { apply (bool_decide_unpack _). vm_compute. exact I. }
    rewrite Forall_forall in Hall. destruct (Hall v Hin) as [e ->]. done.
Qed.
Lemma entry_for_stub v e : entry_for v = Some e → (entry_stub e).2 = v ∧ e ∈ entries.
Proof.
  intros He. assert (e ∈ filter (λ e, (entry_stub e).2 = v) entries) as [? ?]%list_elem_of_filter.
  { unfold entry_for in He. destruct (filter _ _); [done|]. injection He as ->. by left. }
  done.
Qed.
Lemma idt_init_handler address a d v :
  idt d = ∅ → (∀ e, e ∈ entries → is_u32 (address e)) →
  handler_of (idt (idt_init address a d)) v =
    (λ e, MkHandler GD_KT (address e) (if bool_decide (v ∈ [8; 14]) then 0 else 3)
            (negb (bool_decide (v ∈ [1; 3; 4])))) <$> entry_for v.
Proof.
  intros Hd Ha. unfold handler_of, idt_init. cbn [idt]. rewrite Hd.
  destruct (decide (v ∈ vectors)) as [Hin|Hn].
  - apply list_elem_of_fmap in Hin as ([[[v' istrap] e] dpl] & Hv & Hin). cbn in Hv. subst v'.
    pose proof (gates_lookup address _ ∅ v istrap e dpl vectors_NoDup Hin) as Hl.
    destruct (gates_match v istrap e dpl Hin) as (He & Hi & Hp).
    etrans; [apply (f_equal (λ g, decode_gate (gate_words g))), Hl|].
    rewrite setgate_decodes; [|done|by apply Ha, (entry_for_stub v)|rewrite Hp; by case_match]. rewrite He. cbn. f_equal. subst.
    by repeat case_bool_decide.
  - pose proof (gates_other address idt_gates ∅ v Hn) as Hl.
    etrans; [apply (f_equal (λ g, decode_gate (gate_words g))), Hl|]. rewrite no_entry by done.
    by rewrite lookup_total_empty.
Qed.

(** C18: after idt_init the processor finds, for exactly the vectors of the exceptions, the sixteen
    device interrupts and system calls, a handler in the kernel's code segment: the stub that pushes
    that vector's number, entered with interrupts off except for debug, breakpoint and overflow
    traps; a user program reaches each of them with [int] except the double fault and the page
    fault; and the task state it uses to leave user mode is [ts], with the kernel's stack. *)
Theorem idt_init_dispatches address a d v :
  idt d = ∅ → (∀ e, e ∈ entries → is_u32 (address e)) → is_u32 a →
  let d' := idt_init address a d in
  (handler_of (idt d') v =
    (λ e, MkHandler GD_KT (address e) (if bool_decide (v ∈ [8; 14]) then 0 else 3)
            (negb (bool_decide (v ∈ [1; 3; 4])))) <$> entry_for v) ∧
  (entry_for v ≠ None ↔ served v) ∧
  (int_instruction (idt d') 3 v ≠ None ↔ served v ∧ v ≠ T_DBLFLT ∧ v ≠ T_PGFLT) ∧
  decode_segdesc (segdesc_words (gdt d' !!! Z.shiftr (task_register d') 3)) =
    MkSegment a SIZEOF_Taskstate STS_T32A false 0 true ∧
  ts_esp0 (ts d') = KERNEL_STACK_TOP ∧ ts_ss0 (ts d') = GD_KD.
Proof.
  intros Hd Ha Hts d'. pose proof (idt_init_handler address a d v Hd Ha) as Hh. split; [exact Hh|].
  split; [apply entry_for_served|]. split; [|split; [|done]].
  - rewrite <-entry_for_served. unfold int_instruction. fold d' in Hh. rewrite Hh.
    clear Hh d'. destruct (entry_for v) as [e|]; [|by split; [|intros [? _]]].
    cbn [fmap option_fmap option_map mbind option_bind h_dpl]. unfold T_DBLFLT, T_PGFLT.
    case_bool_decide as Hv; rewrite !elem_of_cons, elem_of_nil in Hv; cbn.
    + split; [done|]. intros (_ & ? & ?). lia.
    + split; [|done]. intros _. split_and!; [done|lia|lia].
  - unfold d', idt_init. cbn [gdt task_register]. rewrite array_get_set_eq, u32_small by done. by apply tss_decodes.
Qed.

(** The stubs that push a 0 are those whose vector comes without an error code. *)
Lemma stub_error_code v e : entry_for v = Some e → (entry_stub e).1 = negb (has_error_code v).
Proof.
  intros [<- Hin]%entry_for_stub.
  assert (Forall (λ e, (entry_stub e).1 = negb (has_error_code (entry_stub e).2)) entries) as Hall.
  { apply (bool_decide_unpack _). vm_compute. exact I. }
  rewrite Forall_forall in Hall. by apply Hall.
Qed.

(** C19: when an exception or a device interrupts user mode, whatever the vector, the words the
    processor, the entry stub and _alltraps push are, read as the [struct Trapframe] trap gets,
    the interrupted registers, with the vector as the trap number and the error code, or 0 where
    there is none. *)
Theorem trap_frame_holds_registers v e r code esp rest :
  entry_for v = Some e →
  0 ≤ tf_es r < 2 ^ 16 → 0 ≤ tf_ds r < 2 ^ 16 → 0 ≤ tf_cs r < 2 ^ 16 → 0 ≤ tf_ss r < 2 ^ 16 →
  read_trapframe (push_frame e r esp (event_words v code r ++ rest)) =
    set_tf_oesp esp (set_tf_trapno v (set_tf_err (if has_error_code v then code else 0) r)).
Proof.
  intros He H1 H2 H3 H4. pose proof (stub_error_code v e He) as Hs. pose proof (proj1 (entry_for_stub v e He)) as Hn.
  unfold event_words. rewrite <-app_assoc, user_frame_read; [|done..|].
  - rewrite Hs, Hn. by destruct (has_error_code v).
  - rewrite Hs. destruct (has_error_code v); cbn; [by eexists|done].
Qed.

(** C26: for an exception that carries an error code the stub expects one, but [int] pushes none:
    a user program that uses such a vector, which idt_init lets it, gives trap a frame shifted by
    a word, with eflags where the code segment belongs.  With the carry flag clear trap takes it for
    a trap from the kernel: the registers are not saved, and the program goes on at the
    registers saved when it last entered the kernel. *)
Theorem int_shifts_frame `{Extern} `{Devices} start_of resume address a d v e r esp above rest s :
  idt d = ∅ → (∀ e, e ∈ entries → is_u32 (address e)) → v ∈ [10; 11; 12; 13; 17] → entry_for v = Some e →
  Z.land (tf_eflags r) 3 = 2 →
  let frame := read_trapframe (push_frame e r esp (user_words r ++ above :: rest)) in
  (int_instruction (idt (idt_init address a d)) 3 v ≠ None ∧
   tf_trapno frame = v ∧ tf_err frame = tf_eip r ∧ tf_eip frame = tf_cs r ∧ tf_cs frame = bits 16 (tf_eflags r) ∧
   tf_eflags frame = tf_esp r ∧ tf_esp frame = tf_ss r ∧ tf_ss frame = bits 16 above) ∧
  @trap _ _ start_of unit resume frame s = return_to_curenv s.
Proof.
  intros Hd Ha Hv He Hfl frame. pose proof (proj1 (entry_for_stub v e He)) as Hn.
  assert ((entry_stub e).1 = false) as Hs.
  { rewrite (stub_error_code v e He). unfold has_error_code. rewrite bool_decide_true; [done|].
    rewrite !elem_of_cons, elem_of_nil in *. tauto. }
  assert (frame = MkTrapframe (tf_edi r) (tf_esi r) (tf_ebp r) esp (tf_ebx r) (tf_edx r) (tf_ecx r) (tf_eax r)
    (bits 16 (tf_es r)) (bits 16 (tf_ds r)) v (tf_eip r) (tf_cs r) (bits 16 (tf_eflags r)) (tf_esp r) (tf_ss r) (bits 16 above)) as Hf.
  { unfold frame, push_frame. destruct (entry_stub e) as [noec num]. cbn [fst snd] in *. by subst. }
  rewrite Hf. clear frame Hf. split.
  - split; [|done]. unfold int_instruction. rewrite idt_init_handler by done. rewrite He. cbn.
    rewrite bool_decide_false; [done|]. rewrite !elem_of_cons, elem_of_nil in *. lia.
  - assert (Z.land (bits 16 (tf_eflags r)) 3 = 2) as Hcs.
    { rewrite <-Hfl. unfold bits. change 3 with (Z.ones 2). rewrite !Z.land_ones by done. zdiv. }
    assert (bits 16 (tf_eflags r) ≠ GD_KT) as Hk.
    { intros He'. rewrite He' in Hcs. by vm_compute in Hcs. }
    unfold trap. cbn [tf_cs tf_trapno]. rewrite Hcs. change (2 =? 3) with false. cbv iota. rewrite bind_gets. cbn [compose].
    rewrite !elem_of_cons, elem_of_nil in Hv.
    unfold trap_dispatch. cbn [tf_cs tf_trapno].
    rewrite !(proj2 (Z.eqb_neq v _)) by (unfold T_PGFLT, T_SYSCALL, T_DBLFLT, IRQ0_Clock; lia).
    rewrite (proj2 (Z.eqb_neq _ _) Hk). cbn [andb]. by rewrite bind_mret.
Qed.

(** ** Witnesses *)
Definition stub_address (e : Entry) : Z := KERNEL_BASE + 0x100000 + (entry_stub e).2 * 16.
Definition no_descriptors : Descriptors := MkDescriptors ∅ initial_gdt (MkTaskstate 0 0) 0 false.
Lemma stub_address_ok e : e ∈ entries → is_u32 (stub_address e).
Proof.
  assert (Forall (λ e, 0 ≤ stub_address e ∧ stub_address e < 2 ^ 32) entries) as Hall.
  { apply (bool_decide_unpack _). vm_compute. exact I. }
  rewrite Forall_forall in Hall. apply Hall.
Qed.
Lemma idt_init_dispatches_witness :
  let d := idt_init stub_address 0xF0120000 no_descriptors in
  handler_of (idt d) 13 = Some (MkHandler GD_KT (stub_address (ALL_FAULTS 13)) 3 true) ∧
  int_instruction (idt d) 3 14 = None ∧ ts_esp0 (ts d) = KERNEL_STACK_TOP.
Proof.
  destruct (idt_init_dispatches stub_address 0xF0120000 no_descriptors 13) as (H1 & _);
    [done|apply stub_address_ok|done|].
  destruct (idt_init_dispatches stub_address 0xF0120000 no_descriptors 14) as (_ & _ & H2 & _ & H3 & _);
    [done|apply stub_address_ok|done|].
  split; [rewrite H1; reflexivity|]. split; [|exact H3].
  apply dec_stable. intros Hi. destruct (proj1 H2 Hi) as (_ & _ & H). by destruct H.
Defined.
(** No input, no clock. *)
Definition no_devices : Devices := {| cons_getc2 := mret 0; get_virtual_time := mret (0, 0) |}.
(** Registers of a user program. *)
Definition user_registers : Trapframe :=
  MkTrapframe 1 2 3 4 5 6 7 8 0x23 0x23 0 0 0x800020 0x1b 0x202 0xEEBFD000 0x23.
Lemma trap_frame_holds_registers_witness :
  read_trapframe (push_frame PAGE_FAULT user_registers 0xEFBFFFC8 (event_words T_PGFLT 6 user_registers ++ [99])) =
    set_tf_oesp 0xEFBFFFC8 (set_tf_trapno T_PGFLT (set_tf_err 6 user_registers)).
Proof. apply (trap_frame_holds_registers T_PGFLT PAGE_FAULT); [reflexivity|done..]. Defined.
Lemma int_shifts_frame_witness :
  let frame := read_trapframe (push_frame (ALL_FAULTS 13) user_registers 0xEFBFFFCC (user_words user_registers ++ [99])) in
  tf_eip frame = 0x1b ∧ tf_cs frame = 0x202 ∧
  @trap no_nesting no_devices (λ _, 0) unit (λ _, mret tt) frame inhabitant = return_to_curenv inhabitant.
Proof.
  destruct (@int_shifts_frame no_nesting no_devices (λ _, 0) (λ _, mret tt) stub_address 0xF0120000 no_descriptors 13
    (ALL_FAULTS 13) user_registers 0xEFBFFFCC 99 [] inhabitant) as [(_ & _ & _ & H1 & H2 & _) H3];
    [done|apply stub_address_ok|by (right; right; right; left)|reflexivity|reflexivity|].
  split; [exact H1|]. split; [exact H2|exact H3].
Defined.
