(* ===== verification/Boot.v ===== *)
(** * Boot: the kernel's address space

    kern/memory_manager.c (initialize_kernel_VM, boot_allocate_space, boot_map_range,
    boot_get_page_table) and kern/helpers.c (check_boot_pgdir, check_va2pa, turn_on_paging,
    setup_listing_to_all_page_tables_entries).  Before paging is on, segments map
    kernel address KERNEL_BASE + pa to physical address pa: [bload] and [bstore].  The arrays
    [frames_info], [disk_frames_info] and [envs] are fields of the state, not bytes of memory;
    only the space they take is allocated here. *)
From S2P Require Import Prelude Machine Queue State PageFlags FrameAlloc Paging KHeap PageFile WorkingSet Fault UserEnv.

Definition bload (a i : Z) : K Z := gets (λ s, mem (hw s) !!! (u32 (a + 4 * i - KERNEL_BASE) `div` 4)).
Definition bstore (a i v : Z) : K unit :=
  modify (on_hw (λ h, set_mem (<[u32 (a + 4 * i - KERNEL_BASE) `div` 4 := u32 v]> (mem h)) h)).

(** 24 bytes: two links, a uint16, a word, a pointer and a byte, with padding. *)
Definition SIZEOF_Frame_Info : Z := 24.
Definition NPDENTRIES : Z := 1024.

Definition get_free_mem : K Z := gets (ptr_free_mem ∘ boot).
Definition set_free_mem (v : Z) : K unit := modify (on_boot (set_ptr_free_mem v)).

(** [align] is not used; the returned memory is not cleared. *)
Definition boot_allocate_space (size align : Z) : K Z :=
  p ← get_free_mem;
  when (p =? 0) (e ← gets (end_of_kernel ∘ boot); set_free_mem e);;
  p ← get_free_mem;
  set_free_mem (ROUNDUP p PAGE_SIZE);;
  ptr_allocated_mem ← get_free_mem;
  set_free_mem (u32 (ptr_allocated_mem + size));;
  mret ptr_allocated_mem.

Definition boot_get_page_table (ptr_page_directory virtual_address : Z) (create : bool) : K Z :=
  let index_page_directory := PDX virtual_address in
  page_directory_entry ← bload ptr_page_directory index_page_directory;
  let phys_page_table := EXTRACT_ADDRESS page_directory_entry in
  ptr_page_table ← STATIC_KERNEL_VIRTUAL_ADDRESS phys_page_table;
  if phys_page_table =? 0 then
    if create then
      ptr_page_table ← boot_allocate_space PAGE_SIZE PAGE_SIZE;
      phys_page_table ← STATIC_KERNEL_PHYSICAL_ADDRESS ptr_page_table;
      bstore ptr_page_directory index_page_directory
        (CONSTRUCT_ENTRY phys_page_table (Z.lor PERM_PRESENT PERM_WRITEABLE));;
      mret ptr_page_table
    else mret 0
  else mret ptr_page_table.

(** [for (i = 0 ; i < size ; i += PAGE_SIZE)] *)
Definition boot_map_range
    (ptr_page_directory virtual_address size physical_address perm : Z) : K unit :=
  forM (seqZ 0 ((size + PAGE_SIZE - 1) `div` PAGE_SIZE)) (λ k,
    let va := u32 (virtual_address + k * PAGE_SIZE) in
    let pa := u32 (physical_address + k * PAGE_SIZE) in
    ptr_page_table ← boot_get_page_table ptr_page_directory va true;
    bstore ptr_page_table (PTX va) (CONSTRUCT_ENTRY pa (Z.lor perm PERM_PRESENT))).

(** VPT and UVPT: the directory as a page table of itself. *)
Definition setup_listing_to_all_page_tables_entries : K unit :=
  pgdir ← gets (ptr_page_directory ∘ boot);
  phys_frame_address ← STATIC_KERNEL_PHYSICAL_ADDRESS pgdir;
  bstore pgdir (PDX VPT) (CONSTRUCT_ENTRY phys_frame_address (Z.lor PERM_PRESENT PERM_WRITEABLE));;
  bstore pgdir (PDX UVPT) (Z.lor (Z.lor phys_frame_address PERM_USER) PERM_PRESENT).

(** ** Self-check *)
(** [~0] for an address without a mapping. *)
Definition check_va2pa (ptr_page_directory va : Z) : K Z :=
  dirEntry ← bload ptr_page_directory (PDX va);
  if negb (has_perm dirEntry PERM_PRESENT) then mret 0xFFFFFFFF else
  p ← STATIC_KERNEL_VIRTUAL_ADDRESS (EXTRACT_ADDRESS dirEntry);
  e ← bload p (PTX va);
  if negb (has_perm e PERM_PRESENT) then mret 0xFFFFFFFF else
  e ← bload p (PTX va);
  mret (EXTRACT_ADDRESS e).

Definition pde_expected (i : Z) : bool :=
  (i =? PDX VPT) || (i =? PDX UVPT) || (i =? PDX (KERNEL_STACK_TOP - 1)) || (i =? PDX UENVS) ||
  (PDX KERNEL_BASE <=? i).

Definition check_boot_pgdir (ptr_stack_bottom : Z) : K unit :=
  pgdir ← gets (ptr_page_directory ∘ boot);
  limit ← get_free_mem;
  forM (seqZ 0 ((limit - KERNEL_BASE + PAGE_SIZE - 1) `div` PAGE_SIZE)) (λ k,
    let i := k * PAGE_SIZE in
    pa ← check_va2pa pgdir (u32 (KERNEL_BASE + i));
    assert_ (pa =? i) "check_va2pa(ptr_page_directory, KERNEL_BASE + i) == i");;
  forM (seqZ 0 (KERNEL_STACK_SIZE `div` PAGE_SIZE)) (λ k,
    let i := k * PAGE_SIZE in
    pa ← check_va2pa pgdir (KERNEL_STACK_TOP - KERNEL_STACK_SIZE + i);
    bottom ← STATIC_KERNEL_PHYSICAL_ADDRESS ptr_stack_bottom;
    assert_ (pa =? bottom + i) "check_va2pa of the kernel stack");;
  forM (seqZ 0 NPDENTRIES) (λ i,
    e ← bload pgdir i;
    if pde_expected i then assert_ (negb (e =? 0)) "ptr_page_directory[i]"
    else assert_ (e =? 0) "ptr_page_directory[i] == 0").

(** The low entries that map VA 0 while segments are reloaded are set, then cleared again. *)
Definition turn_on_paging : K unit :=
  pgdir ← gets (ptr_page_directory ∘ boot);
  phys ← gets (phys_page_directory ∘ boot);
  limit ← get_free_mem;
  let tables := seqZ 0 (PDX limit - PDX KERNEL_BASE) in
  forM tables (λ j, e ← bload pgdir (PDX KERNEL_BASE + j); bstore pgdir j e);;
  lcr3 phys;;
  forM tables (λ j, bstore pgdir j 0);;
  lcr3 phys.

Definition bmemset0 (a n : Z) : K unit := forM (seqZ 0 n) (λ i, bstore a i 0).

Definition initialize_kernel_VM (ptr_stack_bottom : Z) : K unit :=
  pgdir ← boot_allocate_space PAGE_SIZE PAGE_SIZE;
  modify (on_boot (set_ptr_page_directory pgdir));;
  bmemset0 pgdir 1024;;
  phys ← STATIC_KERNEL_PHYSICAL_ADDRESS pgdir;
  modify (on_boot (set_phys_page_directory phys));;
  stack ← STATIC_KERNEL_PHYSICAL_ADDRESS ptr_stack_bottom;
  boot_map_range pgdir (KERNEL_STACK_TOP - KERNEL_STACK_SIZE) KERNEL_STACK_SIZE stack PERM_WRITEABLE;;
  forM (seqZ 0 ((2 ^ 32 - KERNEL_BASE) `div` PTSIZE)) (λ k,
    boot_get_page_table pgdir (KERNEL_BASE + k * PTSIZE) true;; mret tt);;
  n ← gets (number_of_frames ∘ frames);
  boot_allocate_space (u32 (n * SIZEOF_Frame_Info)) PAGE_SIZE;;
  modify (on_frames (set_frames_info ∅));;
  boot_allocate_space (PAGES_PER_FILE * SIZEOF_Frame_Info) PAGE_SIZE;;
  modify (on_pagefile (set_disk_frames_info ∅));;
  setup_listing_to_all_page_tables_entries;;
  let envs_size := NENV * SIZEOF_Env in
  envs_va ← boot_allocate_space envs_size PAGE_SIZE;
  modify (on_environments (set_envs ∅));;
  envs_pa ← STATIC_KERNEL_PHYSICAL_ADDRESS envs_va;
  boot_map_range pgdir UENVS envs_size envs_pa PERM_USER;;
  e ← bload pgdir (PDX UENVS);
  bstore pgdir (PDX UENVS) (Z.lor e (Z.lor PERM_USER (Z.land PERM_PRESENT (not32 PERM_WRITEABLE))));;
  limit ← get_free_mem;
  boot_map_range pgdir KERNEL_BASE (u32 (limit - KERNEL_BASE)) 0 PERM_WRITEABLE;;
  check_boot_pgdir ptr_stack_bottom;;
  turn_on_paging.
