(* ===== verification/BootSpec.v ===== *)
(** * What boot promises

    initialize_kernel_VM carves the page directory, the page tables and the kernel's arrays out of
    the memory behind the kernel image, and ends with paging on.  [boot_space s D T V lim room]:
    the directory is frame [D], entry [d] of it designates the table in frame [T d], or [D] itself
    for [d] in [V], and is 0 otherwise; memory from [lim] on is free, and there is room for [room]
    bytes and all the tables boot can ask for below [top].  One specification per step: finding or
    making a table, mapping a range, an allocation, the self-check of check_boot_pgdir, turning
    paging on; BootVM.v composes them. *)
From S2P Require Import Prelude Machine Queue State AddressSpace PageFlags FrameAlloc FrameAllocSpec Paging PagingSpec KHeap KHeapSpec PageFile WorkingSet Fault UserEnv UserEnvSpec Boot.

(** ** Words through the boot segments *)
Lemma construct_eq f perm :
  0 ≤ f → 0 ≤ perm < PAGE_SIZE → CONSTRUCT_ENTRY (f * PAGE_SIZE) perm = f * PAGE_SIZE + perm.
Proof.
  intros Hf Hp. unfold CONSTRUCT_ENTRY, PAGE_SIZE in *. rewrite <-Z.add_lor_land.
  assert (Z.land (f * 4096) perm = 0) as ->; [|lia].
  apply Z.bits_inj'. intros n Hn. rewrite Z.land_spec, Z.bits_0.
  change 4096 with (2 ^ 12). rewrite Z.mul_pow2_bits by done.
  destruct (decide (n < 12)).
  - by rewrite (Z.testbit_neg_r _ (n - 12)) by lia.
  - rewrite <-(Z.mod_small perm (2 ^ 12)) by (cbn; lia).
    rewrite Z.mod_pow2_bits_high by lia. apply andb_false_r.
Qed.
Lemma frame_of_plus f p : 0 ≤ f < 2 ^ 20 → 0 ≤ p < PAGE_SIZE → frame_of (f * PAGE_SIZE + p) = f.
Proof.
  intros. unfold frame_of, PAGE_SIZE in *. rewrite u32_small by (unfold is_u32; lia).
  by apply Z_div_mul_small.
Qed.

(** The low twelve bits of an entry are its flags. *)
Lemma has_perm_plus f p q : 0 ≤ p < PAGE_SIZE → 0 ≤ q < PAGE_SIZE → 0 ≤ f → has_perm (f * PAGE_SIZE + p) q = has_perm p q.
Proof.
  intros Hp Hq Hf. unfold has_perm. f_equal. rewrite <-construct_eq by done. unfold CONSTRUCT_ENTRY.
  rewrite Z.land_lor_distr_l. assert (Z.land (f * PAGE_SIZE) q = 0) as ->; [|done].
  apply Z.bits_inj'. intros n Hn. rewrite Z.land_spec, Z.bits_0. unfold PAGE_SIZE in *.
  change 4096 with (2 ^ 12) in *. rewrite Z.mul_pow2_bits by done. destruct (decide (n < 12)).
  - by rewrite (Z.testbit_neg_r _ (n - 12)) by lia.
  - rewrite <-(Z.mod_small q (2 ^ 12)) by lia. rewrite Z.mod_pow2_bits_high by lia. apply andb_false_r.
Qed.
Lemma entry_flags f p :
  0 ≤ f → 0 ≤ p < PAGE_SIZE → has_perm p PERM_PRESENT = true → has_perm p PERM_WRITEABLE = true →
  entry_allows (f * PAGE_SIZE + p) true = true.
Proof. intros. unfold entry_allows. rewrite !has_perm_plus by done. by apply andb_true_iff. Qed.

Definition low_frame (f : Z) : Prop := 0 ≤ f < 2 ^ 16.
Lemma boot_index f i : low_frame f → 0 ≤ i < 1024 → u32 (static f + 4 * i - KERNEL_BASE) `div` 4 = word f i.
Proof.
  unfold low_frame, static, word, PAGE_SIZE. intros. rewrite u32_small by (unfold is_u32; lia).
  replace (KERNEL_BASE + f * 4096 + 4 * i - KERNEL_BASE) with ((f * 1024 + i) * 4) by lia. by apply Z.div_mul.
Qed.
Lemma bload_word f i s : low_frame f → 0 ≤ i < 1024 → bload (static f) i s = Ret (get_word s (word f i)) s.
Proof. intros. unfold bload, gets. by rewrite boot_index. Qed.
Lemma bstore_word f i v s :
  low_frame f → 0 ≤ i < 1024 → bstore (static f) i v s = Ret tt (put_word (word f i) (u32 v) s).
Proof. intros. unfold bstore, modify, put_word. by rewrite boot_index. Qed.

(** Memory holds words. *)
Definition words_ok (s : KState) : Prop := ∀ j, is_u32 (get_word s j).
(** What boot leaves alone. *)
Definition untouched (s : KState) := (kheap s, env_free_list (environments s)).
Definition same_base (s s' : KState) : Prop :=
  number_of_frames (frames s') = number_of_frames (frames s) ∧
  end_of_kernel (boot s') = end_of_kernel (boot s) ∧ untouched s' = untouched s ∧ (words_ok s → words_ok s') ∧
  (frames_info (frames s) = ∅ → frames_info (frames s') = ∅).

Lemma static_pa f s : low_frame f → STATIC_KERNEL_PHYSICAL_ADDRESS (static f) s = Ret (f * PAGE_SIZE) s.
Proof.
  unfold low_frame, static, STATIC_KERNEL_PHYSICAL_ADDRESS, PAGE_SIZE. intros.
  rewrite (proj2 (Z.ltb_ge _ _)) by lia. unfold mret, M_ret. f_equal. lia.
Qed.
Lemma static_va pa s :
  0 ≤ pa < number_of_frames (frames s) * PAGE_SIZE → pa < 2 ^ 28 →
  STATIC_KERNEL_VIRTUAL_ADDRESS pa s = Ret (KERNEL_BASE + pa) s.
Proof.
  intros Hpa Hb. unfold STATIC_KERNEL_VIRTUAL_ADDRESS. rewrite bind_gets. cbn [compose].
  rewrite PPN_eq, u32_small by (unfold is_u32; lia). unfold PAGE_SIZE in *.
  rewrite (proj2 (Z.leb_gt _ _)) by (apply Z.div_lt_upper_bound; lia).
  rewrite u32_small; [|unfold is_u32, KERNEL_BASE; lia]. unfold mret, M_ret. f_equal. lia.
Qed.

(** ** Allocation *)
Definition page_up (lim : Z) : Z := (lim + 4095) / 4096.
Lemma page_up_bounds lim : lim ≤ page_up lim * PAGE_SIZE < lim + PAGE_SIZE.
Proof. unfold page_up, PAGE_SIZE. zdiv. Qed.
Lemma ROUNDUP_base lim :
  0 ≤ lim < 2 ^ 27 → ROUNDUP (KERNEL_BASE + lim) PAGE_SIZE = static (page_up lim).
Proof.
  intros Hl. unfold ROUNDUP, ROUNDDOWN, static, page_up, KERNEL_BASE, PAGE_SIZE, u32. zdiv.
Qed.
Definition set_free (lim : Z) (s : KState) : KState := on_boot (set_ptr_free_mem (KERNEL_BASE + lim)) s.
(** Where memory is free, at the first allocation or later. *)
Definition free_from (s : KState) (lim : Z) : Prop :=
  ptr_free_mem (boot s) = KERNEL_BASE + lim ∨
  ptr_free_mem (boot s) = 0 ∧ end_of_kernel (boot s) = KERNEL_BASE + lim.

Lemma boot_allocate_space_spec s lim size align :
  free_from s lim → 0 ≤ lim → 0 ≤ size → lim + size + PAGE_SIZE < 2 ^ 27 →
  boot_allocate_space size align s =
    Ret (static (page_up lim)) (set_free (page_up lim * PAGE_SIZE + size) s).
Proof.
  intros Hf Hl Hs Hb. pose proof (page_up_bounds lim) as Hp. unfold PAGE_SIZE in Hp, Hb.
  unfold boot_allocate_space, get_free_mem. rewrite bind_gets. cbn [compose].
  assert (∀ s0, ptr_free_mem (boot s0) = KERNEL_BASE + lim →
    (p ← gets (ptr_free_mem ∘ boot); set_free_mem (ROUNDUP p PAGE_SIZE);;
     ptr_allocated_mem ← gets (ptr_free_mem ∘ boot);
     set_free_mem (u32 (ptr_allocated_mem + size));; mret ptr_allocated_mem) s0 =
    Ret (static (page_up lim)) (set_free (page_up lim * PAGE_SIZE + size) s0)) as Hrest.
  { intros s0 H0. rewrite bind_gets. cbn [compose]. rewrite H0, ROUNDUP_base by lia.
    unfold set_free_mem. rewrite bind_modify, bind_gets. cbn [compose boot on_boot set_boot ptr_free_mem set_ptr_free_mem].
    rewrite bind_modify. unfold mret, M_ret, set_free, on_boot.
    assert (u32 (static (page_up lim) + size) = KERNEL_BASE + (page_up lim * PAGE_SIZE + size)) as ->; [|done].
    rewrite u32_small; unfold is_u32, static, KERNEL_BASE, PAGE_SIZE; lia. }
  destruct Hf as [Hf|[Hf He]]; rewrite Hf.
  - rewrite (proj2 (Z.eqb_neq _ _)) by (unfold KERNEL_BASE; lia). cbn [when]. rewrite bind_mret. by apply Hrest.
  - cbn [Z.eqb when]. rewrite bind_assoc, bind_gets. cbn [compose]. rewrite He.
    rewrite (bind_Ret _ _ _ tt (set_free lim s)) by done. rewrite Hrest by done. unfold set_free, on_boot. cbn. by destruct s as [? ? ? ? ? ? ? []].
Qed.

(** ** The address space under construction *)
(** The directory entries boot may need a table for: UENVS, the kernel stack, the kernel's 256 MB. *)
Definition boot_entries : gset Z := list_to_set (PDX UENVS :: PDX (KERNEL_STACK_TOP - 1) :: seqZ 960 64).
Lemma boot_entries_spec d : d ∈ boot_entries ↔ d = 955 ∨ d = 958 ∨ 960 ≤ d < 1024.
Proof.
  unfold boot_entries. rewrite elem_of_list_to_set, !elem_of_cons, elem_of_seqZ.
  change (PDX UENVS) with 955. change (PDX (KERNEL_STACK_TOP - 1)) with 958. lia.
Qed.
Lemma boot_entries_size : size boot_entries = 66%nat.
Proof. vm_compute. reflexivity. Qed.

Section Space.
Context (top : Z) (Htop : top ≤ KERNEL_HEAP_START - KERNEL_BASE).

Record boot_space (s : KState) (D : Z) (T : gmap Z Z) (V : gset Z) (lim room : Z) : Prop := {
  bs_free : ptr_free_mem (boot s) = KERNEL_BASE + lim;
  bs_low : 0 < D ∧ (D + 1) * PAGE_SIZE ≤ lim;
  bs_room : 0 ≤ room ∧ lim + room + 2 * PAGE_SIZE * (66 - Z.of_nat (size T)) ≤ top;
  bs_top : top ≤ number_of_frames (frames s) * PAGE_SIZE;
  bs_dom : dom T ⊆ boot_entries;
  bs_V d : d ∈ V → d ∉ boot_entries ∧ 0 ≤ d < 1024;
  bs_table d f : T !! d = Some f → D < f ∧ (f + 1) * PAGE_SIZE ≤ lim;
  bs_inj d d' f : T !! d = Some f → T !! d' = Some f → d = d';
  bs_entry d f : T !! d = Some f →
    get_word s (word D d) = f * PAGE_SIZE + 3 ∨ get_word s (word D d) = f * PAGE_SIZE + 7;
  bs_self d : d ∈ V →
    get_word s (word D d) = D * PAGE_SIZE + 3 ∨ get_word s (word D d) = D * PAGE_SIZE + 5;
  bs_empty d : 0 ≤ d < 1024 → T !! d = None → d ∉ V → get_word s (word D d) = 0;
}.

Lemma boot_entry_range d : d ∈ boot_entries → 0 ≤ d < 1024.
Proof. rewrite boot_entries_spec. lia. Qed.
Lemma bs_dom_lookup s D T V lim room d f : boot_space s D T V lim room → T !! d = Some f → d ∈ boot_entries.
Proof. intros Hb Hd. apply (bs_dom _ _ _ _ _ _ Hb), elem_of_dom. by eexists. Qed.
Lemma bs_size s D T V lim room : boot_space s D T V lim room → (size T ≤ 66)%nat.
Proof.
  intros Hb. pose proof (subseteq_size _ _ (bs_dom _ _ _ _ _ _ Hb)) as Hs.
  by rewrite boot_entries_size, size_dom in Hs.
Qed.
Lemma bs_lim s D T V lim room : boot_space s D T V lim room → 0 < lim ≤ top.
Proof.
  intros Hb. pose proof (bs_room _ _ _ _ _ _ Hb). pose proof (bs_size _ _ _ _ _ _ Hb).
  pose proof (bs_low _ _ _ _ _ _ Hb). unfold PAGE_SIZE in *. lia.
Qed.
Lemma bs_D_low s D T V lim room : boot_space s D T V lim room → low_frame D.
Proof using Htop.
  intros Hb. pose proof (bs_lim _ _ _ _ _ _ Hb). pose proof (bs_low _ _ _ _ _ _ Hb).
  unfold low_frame, PAGE_SIZE, KERNEL_HEAP_START, KERNEL_BASE in *. lia.
Qed.
Lemma bs_table_low s D T V lim room d f : boot_space s D T V lim room → T !! d = Some f → low_frame f.
Proof using Htop.
  intros Hb Hd. pose proof (bs_lim _ _ _ _ _ _ Hb). pose proof (bs_low _ _ _ _ _ _ Hb).
  pose proof (bs_table _ _ _ _ _ _ Hb d f Hd).
  unfold low_frame, PAGE_SIZE, KERNEL_HEAP_START, KERNEL_BASE in *. lia.
Qed.

Lemma bs_entry_allows s D T V lim room d f :
  boot_space s D T V lim room → T !! d = Some f →
  frame_of (get_word s (word D d)) = f ∧ entry_allows (get_word s (word D d)) true = true.
Proof using Htop.
  intros Hb Hd. pose proof (bs_table_low _ _ _ _ _ _ _ _ Hb Hd). unfold low_frame in *.
  destruct (bs_entry _ _ _ _ _ _ Hb d f Hd) as [-> | ->];
    (split; [apply frame_of_plus; [lia|done]|by apply entry_flags; [lia|..]]).
Qed.

(** Writing an entry of a table. *)
Lemma boot_space_put s D T V lim room d f i v :
  boot_space s D T V lim room → T !! d = Some f → 0 ≤ i < 1024 →
  boot_space (put_word (word f i) v s) D T V lim room.
Proof.
  intros Hb Hd Hi. pose proof (bs_table _ _ _ _ _ _ Hb d f Hd) as [HD _].
  assert (∀ d', 0 ≤ d' < 1024 → get_word (put_word (word f i) v s) (word D d') = get_word s (word D d')) as Hw.
  { intros d' Hd'. apply get_put_ne. intros [? _]%word_inj; [lia|done|done]. }
  destruct Hb as [H1 H2 H3 H4 H5 H6 H7 H8 H9 H10 H11]. split; try done.
  - intros d' f' Hf'. rewrite Hw; [by apply H9|]. apply boot_entry_range, H5, elem_of_dom. by eexists.
  - intros d' Hd'. rewrite Hw; [by apply H10|by apply H6].
  - intros d' Hr Hn Hv. rewrite Hw by done. by apply H11.
Qed.

(** ** Finding or making a page table *)
(** What a step of boot keeps: the number of frames and every word but those in [W]. *)
Definition keeps_but (W : Z → Prop) (s s' : KState) : Prop :=
  same_base s s' ∧ cr3 (hw s') = cr3 (hw s) ∧ ptr_page_directory (boot s') = ptr_page_directory (boot s) ∧
  phys_page_directory (boot s') = phys_page_directory (boot s) ∧
  ∀ j, ¬ W j → get_word s' j = get_word s j.
Lemma keeps_but_refl W s : keeps_but W s s.
Proof. by split_and!. Qed.
Lemma keeps_but_trans (W1 W2 W : Z → Prop) s1 s2 s3 :
  (∀ j, W1 j → W j) → (∀ j, W2 j → W j) → keeps_but W1 s1 s2 → keeps_but W2 s2 s3 → keeps_but W s1 s3.
Proof.
  intros HW1 HW2 ((? & ? & ? & Ho1 & Hi1) & ? & ? & ? & Hk1) ((? & ? & ? & Ho2 & Hi2) & ? & ? & ? & Hk2).
  unfold keeps_but, same_base. split_and!; try congruence; [by auto..|].
  intros j Hj. rewrite Hk2, Hk1; naive_solver.
Qed.
Lemma words_ok_put i v s : is_u32 v → words_ok s → words_ok (put_word i v s).
Proof.
  intros Hv Hs j. destruct (decide (i = j)) as [->|]; [by rewrite get_put_eq|by rewrite get_put_ne].
Qed.
Lemma keeps_but_put (W : Z → Prop) i v s : W i → is_u32 v → keeps_but W s (put_word i v s).
Proof.
  intros Hi Hv. split_and!; try done; [split_and!; try done; by apply words_ok_put|]. intros j Hj. apply get_put_ne. by intros ->.
Qed.
Lemma keeps_but_free W lim s : keeps_but W s (set_free lim s).
Proof. by split_and!. Qed.
Lemma keeps_but_weaken (W W' : Z → Prop) s s' : (∀ j, W j → W' j) → keeps_but W s s' → keeps_but W' s s'.
Proof. intros HW. by apply (keeps_but_trans W W), keeps_but_refl. Qed.

(** A new table, in the first free frame. *)
Lemma boot_space_add s D T V lim room d e :
  boot_space s D T V lim room → d ∈ boot_entries → T !! d = None →
  e = page_up lim * PAGE_SIZE + 3 →
  boot_space (put_word (word D d) e (set_free ((page_up lim + 1) * PAGE_SIZE) s)) D
    (<[d := page_up lim]> T) V ((page_up lim + 1) * PAGE_SIZE) room.
Proof using Htop.
  intros Hb Hd HT He. pose proof (boot_entry_range d Hd) as Hr. pose proof (page_up_bounds lim) as Hpu.
  assert (∀ d', 0 ≤ d' < 1024 → d' ≠ d →
    get_word (put_word (word D d) e (set_free ((page_up lim + 1) * PAGE_SIZE) s)) (word D d') = get_word s (word D d')) as Hw.
  { intros d' Hd' Hne. rewrite get_put_ne; [done|]. by intros [_ ?]%word_inj. }
  destruct Hb as [H1 H2 H3 H4 H5 H6 H7 H8 H9 H10 H11]. split.
  - done.
  - unfold PAGE_SIZE in *. lia.
  - rewrite map_size_insert_None by done. unfold PAGE_SIZE in *. lia.
  - exact H4.
  - rewrite dom_insert. apply union_subseteq. split; [by apply singleton_subseteq_l|done].
  - done.
  - intros d' f' [[-> <-]|[Hne Hf']]%lookup_insert_Some; [unfold PAGE_SIZE in *; lia|].
    pose proof (H7 _ _ Hf'). unfold PAGE_SIZE in *. lia.
  - intros d1 d2 f' [[-> <-]|[Hne Hf1]]%lookup_insert_Some [[-> Hf']|[Hne' Hf2]]%lookup_insert_Some; try done.
    + pose proof (H7 _ _ Hf2). unfold PAGE_SIZE in *. lia.
    + subst. pose proof (H7 _ _ Hf1). unfold PAGE_SIZE in *. lia.
    + by eapply H8.
  - intros d' f' [[-> <-]|[Hne Hf']]%lookup_insert_Some; [left; by rewrite get_put_eq|].
    rewrite Hw; [by apply H9|by apply boot_entry_range, H5, elem_of_dom; eexists|done].
  - intros d' Hv. rewrite Hw; [by apply H10|by apply H6|]. intros ->. by apply H6 in Hv as [? _].
  - intros d' Hd' [Hn Hne]%lookup_insert_None Hv. rewrite Hw by done. by apply H11.
Qed.

Definition table_flags : Z := Z.lor PERM_PRESENT PERM_WRITEABLE.
Lemma boot_get_page_table_spec s D T V lim room va :
  boot_space s D T V lim room → PDX va ∈ boot_entries →
  ∃ f s' T' lim', boot_get_page_table (static D) va true s = Ret (static f) s' ∧
    boot_space s' D T' V lim' room ∧ T' !! PDX va = Some f ∧ (T ⊆ T' ∧ lim ≤ lim') ∧
    (T !! PDX va ≠ None → T' = T ∧ lim' = lim) ∧
    keeps_but (λ j, T !! PDX va = None ∧ j = word D (PDX va)) s s'.
Proof using Htop.
  intros Hb Hva. pose proof (PDX_range va) as Hr. pose proof (bs_D_low _ _ _ _ _ _ Hb) as HD.
  pose proof (bs_lim _ _ _ _ _ _ Hb) as Hlim. pose proof (bs_top _ _ _ _ _ _ Hb) as Htn.
  pose proof (bs_low _ _ _ _ _ _ Hb) as Hlow.
  unfold boot_get_page_table. mstep (bload_word D (PDX va) s HD Hr). rewrite EXTRACT_frame_of.
  destruct (T !! PDX va) as [f|] eqn:HT.
  - destruct (bs_entry_allows _ _ _ _ _ _ _ _ Hb HT) as [-> _]. pose proof (bs_table _ _ _ _ _ _ Hb _ _ HT) as [Hf Hfl].
    rewrite (bind_Ret _ _ _ _ _ (static_va (f * PAGE_SIZE) s ltac:(unfold PAGE_SIZE in *; lia)
      ltac:(unfold PAGE_SIZE, KERNEL_HEAP_START, KERNEL_BASE in *; lia))).
    rewrite (proj2 (Z.eqb_neq _ _)) by (unfold PAGE_SIZE; lia).
    exists f, s, T, lim. split_and!; [done..|apply keeps_but_refl].
  - assert (PDX va ∉ V) as HV by (intros Hv; by apply (bs_V _ _ _ _ _ _ Hb) in Hv as [? _]).
    rewrite (bs_empty _ _ _ _ _ _ Hb) by done. change (frame_of 0 * PAGE_SIZE) with 0.
    rewrite (bind_Ret _ _ _ _ _ (static_va 0 s ltac:(unfold PAGE_SIZE in *; lia) ltac:(lia))). cbn [Z.eqb].
    pose proof (bs_room _ _ _ _ _ _ Hb) as [Hroom Hsum].
    assert (Z.of_nat (size T) ≤ 65) as Hsz.
    { assert (size (dom T ∪ {[PDX va]}) ≤ size boot_entries)%nat as Hs.
      { apply subseteq_size, union_subseteq. split; [apply Hb|by apply singleton_subseteq_l]. }
      rewrite size_union, size_singleton, size_dom, boot_entries_size in Hs; [lia|].
      apply disjoint_singleton_r. by apply not_elem_of_dom. }
    pose proof (page_up_bounds lim) as Hpu. unfold PAGE_SIZE in Hpu, Hsum.
    rewrite (bind_Ret _ _ _ _ _ (boot_allocate_space_spec s lim PAGE_SIZE PAGE_SIZE
      ltac:(left; apply Hb) ltac:(lia) ltac:(done) ltac:(unfold PAGE_SIZE, KERNEL_HEAP_START, KERNEL_BASE in *; lia))).
    set (f := page_up lim) in *. replace (f * PAGE_SIZE + PAGE_SIZE) with ((f + 1) * PAGE_SIZE) by lia. set (s1 := set_free _ s).
    assert (low_frame f) as Hf by (unfold low_frame, KERNEL_HEAP_START, KERNEL_BASE in *; lia).
    mstep (static_pa f s1 Hf). mstep (bstore_word D (PDX va) (CONSTRUCT_ENTRY (f * PAGE_SIZE) table_flags) s1 HD Hr).
    rewrite construct_eq by (unfold low_frame in Hf; done || lia). change table_flags with 3.
    set (e := u32 (f * PAGE_SIZE + 3)).
    assert (e = f * PAGE_SIZE + 3) as He by (unfold e; apply u32_small; unfold is_u32, PAGE_SIZE, low_frame in *; lia).
    exists f, (put_word (word D (PDX va)) e s1), (<[PDX va := f]> T), ((f + 1) * PAGE_SIZE).
    split_and!; [done| |by rewrite lookup_insert_eq|by apply insert_subseteq|unfold PAGE_SIZE; lia|done|].
    + by apply (boot_space_add s D T V lim room).
    + apply (keeps_but_trans (λ _, False) (λ j, j = word D (PDX va)) _ _ s1); [done|done|apply keeps_but_free|apply keeps_but_put; [done|apply u32_range]].
Qed.

(** ** Mapping a range *)
(** The page of [va] is mapped to physical address [pa] with the given flags. *)
Definition mapped (s : KState) (T : gmap Z Z) (va pa flags : Z) : Prop :=
  ∃ f, T !! PDX va = Some f ∧ get_word s (word f (PTX va)) = pa + flags.
Definition pte_of_page (T : gmap Z Z) (va j : Z) : Prop := ∃ f, T !! PDX va = Some f ∧ j = word f (PTX va).

Lemma same_pte s D T V lim room va va' j :
  boot_space s D T V lim room → pte_of_page T va j → pte_of_page T va' j → PPN va = PPN va'.
Proof.
  intros Hb (f & Hf & ->) (f' & Hf' & [<- Ht]%word_inj); [|apply PTX_range..].
  rewrite !PDX_PTX_PPN. by rewrite (bs_inj _ _ _ _ _ _ Hb _ _ _ Hf Hf'), Ht.
Qed.
Lemma pte_not_directory s D T V lim room va j d :
  boot_space s D T V lim room → pte_of_page T va j → 0 ≤ d < 1024 → j ≠ word D d.
Proof.
  intros Hb (f & Hf & ->) Hd [? _]%word_inj; [|apply PTX_range|done].
  pose proof (bs_table _ _ _ _ _ _ Hb _ _ Hf). lia.
Qed.
Lemma mapped_keeps (W : Z → Prop) s s' D T T' V lim room va pa flags :
  boot_space s' D T' V lim room → T ⊆ T' → keeps_but W s s' → (∀ j, pte_of_page T va j → ¬ W j) →
  mapped s T va pa flags → mapped s' T' va pa flags.
Proof.
  intros Hb Hsub Hk HW (f & Hf & Hw). exists f. split; [by eapply lookup_weaken|].
  destruct Hk as (_ & _ & _ & _ & Hk). rewrite Hk; [done|]. apply HW. by exists f.
Qed.

(** The words that mapping [n] pages from [va] on may write. *)
Definition range_words (D : Z) (T T' : gmap Z Z) (va n j : Z) : Prop :=
  (∃ d, d ∈ boot_entries ∧ T !! d = None ∧ j = word D d) ∨
  (∃ k, 0 ≤ k < n ∧ pte_of_page T' (va + k * PAGE_SIZE) j).

Lemma page_of_range va k : va `mod` PAGE_SIZE = 0 → 0 ≤ va → 0 ≤ k → va + k * PAGE_SIZE < 2 ^ 32 →
  u32 (va + k * PAGE_SIZE) = va + k * PAGE_SIZE ∧ PPN (va + k * PAGE_SIZE) = PPN va + k.
Proof.
  unfold PAGE_SIZE. intros Hm Hv Hk Hb. rewrite !PPN_eq, !u32_small by (unfold is_u32; lia). unfold PAGE_SIZE.
  split; [done|]. by rewrite Z.div_add.
Qed.

Lemma boot_map_range_spec s D T V lim room va size pa perm :
  let n := (size + PAGE_SIZE - 1) `div` PAGE_SIZE in
  let flags := Z.lor perm PERM_PRESENT in
  boot_space s D T V lim room → 0 ≤ size →
  va `mod` PAGE_SIZE = 0 → 0 ≤ va → va + n * PAGE_SIZE ≤ 2 ^ 32 →
  pa `mod` PAGE_SIZE = 0 → 0 ≤ pa → pa + n * PAGE_SIZE ≤ 2 ^ 28 → 0 ≤ flags < PAGE_SIZE →
  (∀ k, 0 ≤ k < n → PDX (va + k * PAGE_SIZE) ∈ boot_entries) →
  ∃ s' T' lim', boot_map_range (static D) va size pa perm s = Ret tt s' ∧
    boot_space s' D T' V lim' room ∧ (T ⊆ T' ∧ lim ≤ lim') ∧
    (∀ k, 0 ≤ k < n → mapped s' T' (va + k * PAGE_SIZE) (pa + k * PAGE_SIZE) flags) ∧
    keeps_but (range_words D T T' va n) s s' ∧
    ((∀ k, 0 ≤ k < n → T !! PDX (va + k * PAGE_SIZE) ≠ None) → T' = T ∧ lim' = lim).
Proof using Htop.
  intros n flags Hb Hs Hva Hva0 Hvab Hpa Hpa0 Hpab Hfl Hds.
  assert (0 ≤ n) as Hn by (apply Z.div_pos; unfold PAGE_SIZE in *; lia).
  unfold boot_map_range. fold n flags.
  destruct (forM_seqZ (λ i s', ∃ T' lim', boot_space s' D T' V lim' room ∧ (T ⊆ T' ∧ lim ≤ lim') ∧
    (∀ k, 0 ≤ k < i → mapped s' T' (va + k * PAGE_SIZE) (pa + k * PAGE_SIZE) flags) ∧
    keeps_but (range_words D T T' va i) s s' ∧
    ((∀ k, 0 ≤ k < i → T !! PDX (va + k * PAGE_SIZE) ≠ None) → T' = T ∧ lim' = lim))
    (λ k, ptr_page_table ← boot_get_page_table (static D) (u32 (va + k * PAGE_SIZE)) true;
          bstore ptr_page_table (PTX (u32 (va + k * PAGE_SIZE))) (CONSTRUCT_ENTRY (u32 (pa + k * PAGE_SIZE)) flags))
    0 n s Hn) as (s' & Hrun & T' & lim' & Hs').
  - exists T, lim. split_and!; [done|done|done|intros; lia|apply keeps_but_refl|done].
  - intros i s1 Hi (T1 & lim1 & Hb1 & [Hsub1 Hle1] & Hm1 & Hk1 & Hsame1). rewrite Z.add_0_l.
    set (a := va + i * PAGE_SIZE). destruct (page_of_range va i) as [Ha HPa]; [done|done|lia|unfold PAGE_SIZE in *; lia|].
    destruct (boot_get_page_table_spec s1 D T1 V lim1 room a Hb1 (Hds i Hi)) as (f & s2 & T2 & lim2 & Hrun & Hb2 & Hf & [Hsub2 Hle2] & Hsame2 & Hk2).
    assert (T2 !! PDX a = Some f) as Hf' by done. pose proof (bs_table_low _ _ _ _ _ _ _ _ Hb2 Hf') as Hlow.
    assert (∀ k, 0 ≤ k < i → ∀ j, pte_of_page T2 (va + k * PAGE_SIZE) j → j ≠ word f (PTX a)) as Hne.
    { intros k Hk j Hj ->. destruct (page_of_range va k) as [_ HPk]; [done|done|lia|unfold PAGE_SIZE in *; lia|].
      assert (PPN (va + k * PAGE_SIZE) = PPN a) as HP by (eapply same_pte; [done|done|by exists f]).
      unfold a in HP. rewrite HPk, HPa in HP. lia. }
    set (e := CONSTRUCT_ENTRY (pa + i * PAGE_SIZE) flags).
    assert (e = pa + i * PAGE_SIZE + flags ∧ is_u32 e) as [He Heu].
    { unfold e. replace (pa + i * PAGE_SIZE) with ((pa / 4096 + i) * PAGE_SIZE) by (unfold PAGE_SIZE in *; zdiv).
      assert (0 ≤ pa / 4096) by (by apply Z.div_pos). rewrite construct_eq by (done || lia).
      split; [done|]. unfold is_u32, PAGE_SIZE in *. zdiv. }
    exists (put_word (word f (PTX a)) (u32 e) s2). split.
    { cbv beta. assert (u32 a = a) as -> by exact Ha. mstep Hrun. rewrite (u32_small (pa + i * PAGE_SIZE)) by (unfold is_u32, PAGE_SIZE in *; lia).
      apply bstore_word; [done|apply PTX_range]. }
    rewrite (u32_small e) by done. pose proof (boot_space_put _ _ _ _ _ _ _ _ (PTX a) e Hb2 Hf' (PTX_range a)) as Hb3.
    exists T2, lim2. split_and!; [done|by etrans|lia| | |].
    + intros k Hk. destruct (decide (k = i)) as [->|Hki]; [exists f; by rewrite get_put_eq|].
      apply (mapped_keeps (λ j, j = word D (PDX a) ∨ j = word f (PTX a)) s1 _ D T1 T2 V lim2 room); [done|done| | |apply Hm1; lia].
      * apply (keeps_but_trans (λ j, T1 !! PDX a = None ∧ j = word D (PDX a)) (λ j, j = word f (PTX a)) _ _ s2);
          [tauto|tauto|done|by apply keeps_but_put].
      * intros j (g & Hg & Hj). apply (lookup_weaken _ T2) in Hg; [|done].
        assert (pte_of_page T2 (va + k * PAGE_SIZE) j) as Hp by (by exists g).
        intros [Hc|Hc]; [|by apply (Hne k ltac:(lia) j)].
        by apply (pte_not_directory _ _ _ _ _ _ _ j (PDX a) Hb2 Hp (PDX_range a)).
    + apply (keeps_but_trans (range_words D T T1 va i) (λ j, (T1 !! PDX a = None ∧ j = word D (PDX a)) ∨ j = word f (PTX a)) _ _ s1); [| |done|].
      * intros j [Hj|(k & Hk & g & Hg & Hj)]; [by left|]. right. exists k. split; [lia|].
        exists g. split; [by eapply lookup_weaken|done].
      * intros j [[HT ->]| ->]; [left|right].
        -- exists (PDX a). split_and!; [by apply Hds|by eapply lookup_weaken_None|done].
        -- exists i. split; [lia|]. by exists f.
      * apply (keeps_but_trans (λ j, T1 !! PDX a = None ∧ j = word D (PDX a)) (λ j, j = word f (PTX a)) _ _ s2);
          [tauto|tauto|done|by apply keeps_but_put].
    + intros Hall. destruct Hsame1 as [-> ->]; [intros k Hk; apply Hall; lia|]. apply Hsame2, (Hall i). lia.
  - exists s', T', lim'. split; [exact Hrun|exact Hs'].
Qed.

(** ** Steps outside the tables *)
(** Entry [d] of the directory becomes the directory itself. *)
Lemma boot_space_self s D T V lim room d p :
  boot_space s D T V lim room → d ∉ boot_entries → d ∉ V → 0 ≤ d < 1024 → p = 3 ∨ p = 5 →
  boot_space (put_word (word D d) (D * PAGE_SIZE + p) s) D T ({[d]} ∪ V) lim room.
Proof using Htop.
  intros Hb Hd Hv Hr Hp.
  assert (∀ d' v, 0 ≤ d' < 1024 → d' ≠ d → get_word (put_word (word D d) v s) (word D d') = get_word s (word D d')) as Hw.
  { intros d' v Hd' Hne. apply get_put_ne. by intros [_ ?]%word_inj. }
  destruct Hb as [H1 H2 H3 H4 H5 H6 H7 H8 H9 H10 H11]. split; try done.
  - intros d' [->%elem_of_singleton|Hd']%elem_of_union; [done|by apply H6].
  - intros d' f Hf. assert (d' ∈ boot_entries) as Hin by (apply H5, elem_of_dom; by eexists).
    rewrite Hw; [by apply H9|by apply boot_entry_range|by intros ->].
  - intros d' [->%elem_of_singleton|Hd']%elem_of_union.
    + rewrite get_put_eq. destruct Hp as [-> | ->]; [by left|by right].
    + rewrite Hw; [by apply H10|by apply H6|by intros ->].
  - intros d' Hd' Hn [Hne Hv']%not_elem_of_union. rewrite Hw; [by apply H11|done|].
    by rewrite not_elem_of_singleton in Hne.
Qed.
(** The table of entry [d] becomes readable by user programs. *)
Lemma boot_space_user s D T V lim room d f :
  boot_space s D T V lim room → T !! d = Some f →
  boot_space (put_word (word D d) (f * PAGE_SIZE + 7) s) D T V lim room.
Proof using Htop.
  intros Hb Hf. pose proof (bs_dom_lookup _ _ _ _ _ _ _ _ Hb Hf) as Hin. pose proof (boot_entry_range d Hin) as Hr.
  assert (∀ d' v, 0 ≤ d' < 1024 → d' ≠ d → get_word (put_word (word D d) v s) (word D d') = get_word s (word D d')) as Hw.
  { intros d' v Hd' Hne. apply get_put_ne. by intros [_ ?]%word_inj. }
  destruct Hb as [H1 H2 H3 H4 H5 H6 H7 H8 H9 H10 H11]. split; try done.
  - intros d' f' Hf'. destruct (decide (d' = d)) as [->|Hne]; [rewrite get_put_eq; right; congruence|].
    rewrite Hw; [by apply H9|apply boot_entry_range, H5, elem_of_dom; by eexists|done].
  - intros d' Hd'. rewrite Hw; [by apply H10|by apply H6|]. intros ->. by apply H6 in Hd' as [? _].
  - intros d' Hd' Hn Hv. rewrite Hw; [by apply H11|done|]. intros ->. congruence.
Qed.
(** An allocation for one of the kernel's arrays. *)
Lemma boot_space_alloc s D T V lim room size align :
  boot_space s D T V lim room → 0 ≤ size → size + PAGE_SIZE ≤ room →
  boot_allocate_space size align s =
    Ret (static (page_up lim)) (set_free (page_up lim * PAGE_SIZE + size) s) ∧
  boot_space (set_free (page_up lim * PAGE_SIZE + size) s) D T V (page_up lim * PAGE_SIZE + size) (room - size - PAGE_SIZE).
Proof using Htop.
  intros Hb Hs Hroom. pose proof (page_up_bounds lim) as Hp. pose proof (bs_lim _ _ _ _ _ _ Hb).
  pose proof (bs_size _ _ _ _ _ _ Hb). pose proof (bs_room _ _ _ _ _ _ Hb). split.
  - apply boot_allocate_space_spec; [left; apply Hb|lia|done|].
    unfold PAGE_SIZE, KERNEL_HEAP_START, KERNEL_BASE in *. lia.
  - destruct Hb as [K1 K2 K3 K4 K5 K6 K7 K8 K9 K10 K11]. split; try done; [unfold PAGE_SIZE in *; lia..|].
    intros d f Hf. pose proof (K7 d f Hf). unfold PAGE_SIZE in *. lia.
Qed.

(** ** The self-check *)
Definition present (flags : Z) : Prop := 0 ≤ flags < PAGE_SIZE ∧ has_perm flags PERM_PRESENT = true.
Lemma check_va2pa_spec s D T V lim room va p flags :
  boot_space s D T V lim room → mapped s T va (p * PAGE_SIZE) flags → low_frame p → present flags →
  check_va2pa (static D) va s = Ret (p * PAGE_SIZE) s.
Proof using Htop.
  intros Hb (f & Hf & Hw) Hp [Hfl Hpr]. pose proof (bs_D_low _ _ _ _ _ _ Hb) as HD.
  pose proof (bs_table_low _ _ _ _ _ _ _ _ Hb Hf) as Hlf. pose proof (bs_table _ _ _ _ _ _ Hb _ _ Hf) as [HDf Hfl'].
  pose proof (bs_lim _ _ _ _ _ _ Hb). pose proof (bs_top _ _ _ _ _ _ Hb). pose proof (bs_low _ _ _ _ _ _ Hb).
  destruct (bs_entry_allows _ _ _ _ _ _ _ _ Hb Hf) as [Hfr Hal].
  unfold check_va2pa. mstep (bload_word D (PDX va) s HD (PDX_range va)).
  assert (has_perm (get_word s (word D (PDX va))) PERM_PRESENT = true) as -> by (by apply andb_true_iff in Hal as [? _]).
  cbn [negb]. rewrite EXTRACT_frame_of, Hfr.
  rewrite (bind_Ret _ _ _ _ _ (static_va (f * PAGE_SIZE) s ltac:(unfold PAGE_SIZE in *; lia)
      ltac:(unfold PAGE_SIZE, KERNEL_HEAP_START, KERNEL_BASE in *; lia))). fold (static f).
  mstep (bload_word f (PTX va) s Hlf (PTX_range va)). rewrite Hw. unfold low_frame in Hp.
  rewrite has_perm_plus by (done || lia). rewrite Hpr. cbn [negb].
  mstep (bload_word f (PTX va) s Hlf (PTX_range va)). rewrite Hw, EXTRACT_frame_of, frame_of_plus by (done || lia).
  done.
Qed.

Lemma boot_space_ext s s' D T V lim room :
  boot s' = boot s → number_of_frames (frames s') = number_of_frames (frames s) →
  (∀ j, get_word s' j = get_word s j) → boot_space s D T V lim room → boot_space s' D T V lim room.
Proof.
  intros Hb Hf Hw [H1 H2 H3 H4 H5 H6 H7 H8 H9 H10 H11]. split; rewrite ?Hb, ?Hf; try done.
  all: intros *; rewrite Hw; eauto.
Qed.

Definition self_entries : gset Z := {[PDX UVPT; PDX VPT]}.
Lemma self_entries_spec d : d ∈ self_entries ↔ d = 957 ∨ d = 959.
Proof.
  unfold self_entries. change (PDX UVPT) with 957. change (PDX VPT) with 959.
  by rewrite elem_of_union, !elem_of_singleton.
Qed.
Lemma pde_expected_spec i : 0 ≤ i < 1024 → pde_expected i = true ↔ i ∈ self_entries ∨ i ∈ boot_entries.
Proof using.
  intros Hi. rewrite self_entries_spec, boot_entries_spec. unfold pde_expected.
  change (PDX VPT) with 959. change (PDX UVPT) with 957. change (PDX (KERNEL_STACK_TOP - 1)) with 958.
  change (PDX UENVS) with 955. change (PDX KERNEL_BASE) with 960.
  rewrite !orb_true_iff, !Z.eqb_eq, Z.leb_le. lia.
Qed.

(** The mappings check_boot_pgdir looks at. *)
Definition kernel_mapped (s : KState) (T : gmap Z Z) (lim bottom : Z) : Prop :=
  (∀ k, 0 ≤ k < page_up lim → mapped s T (KERNEL_BASE + k * PAGE_SIZE) (k * PAGE_SIZE) table_flags) ∧
  (∀ k, 0 ≤ k < 8 → mapped s T (KERNEL_STACK_TOP - KERNEL_STACK_SIZE + k * PAGE_SIZE)
                      ((bottom + k) * PAGE_SIZE) table_flags).
Lemma table_flags_present : present table_flags.
Proof. by split. Qed.

(** A loop of checks that pass. *)
Lemma forM_checks a n (f : Z → K unit) s :
  0 ≤ n → (∀ i, 0 ≤ i < n → f (a + i) s = Ret tt s) → forM (seqZ a n) f s = Ret tt s.
Proof using.
  intros Hn Hf. destruct (forM_seqZ (λ _ s', s' = s) f a n s Hn eq_refl) as (s' & Hr & ->); [|done].
  intros i s1 Hi ->. exists s. split; [by apply Hf|done].
Qed.

Lemma check_boot_pgdir_passes s D T lim room bottom :
  boot_space s D T self_entries lim room → ptr_page_directory (boot s) = static D →
  dom T = boot_entries → 0 ≤ bottom → (bottom + 8) * PAGE_SIZE ≤ top → kernel_mapped s T lim bottom →
  check_boot_pgdir (static bottom) s = Ret tt s.
Proof using Htop.
  intros Hb Hdir Hdom Hb0 Hbt [Hmk Hms]. pose proof (bs_D_low _ _ _ _ _ _ Hb) as HD.
  pose proof (bs_lim _ _ _ _ _ _ Hb) as Hlim. pose proof (page_up_bounds lim) as Hpu.
  assert (∀ p, 0 ≤ p → p < page_up lim ∨ p < bottom + 8 → low_frame p) as Hlow.
  { intros p Hp Hp'. unfold low_frame, PAGE_SIZE, KERNEL_HEAP_START, KERNEL_BASE in *. lia. }
  unfold check_boot_pgdir. rewrite bind_gets. cbn [compose]. rewrite Hdir. unfold get_free_mem.
  rewrite bind_gets. cbn [compose]. rewrite (bs_free _ _ _ _ _ _ Hb).
  replace ((KERNEL_BASE + lim - KERNEL_BASE + PAGE_SIZE - 1) `div` PAGE_SIZE) with (page_up lim)
    by (unfold page_up, PAGE_SIZE; f_equal; lia).
  rewrite (bind_Ret _ _ s tt s).
  2: { apply forM_checks; [unfold PAGE_SIZE in Hpu; lia|]. intros k Hk. rewrite Z.add_0_l. cbv beta.
    rewrite u32_small by (unfold is_u32, PAGE_SIZE, KERNEL_HEAP_START, KERNEL_BASE in *; lia).
    mstep (check_va2pa_spec _ _ _ _ _ _ _ _ _ Hb (Hmk k Hk) (Hlow k ltac:(lia) ltac:(lia)) table_flags_present).
    by rewrite Z.eqb_refl. }
  rewrite (bind_Ret _ _ s tt s).
  2: { apply forM_checks; [done|]. intros k Hk. rewrite Z.add_0_l. cbv beta. change (KERNEL_STACK_SIZE `div` PAGE_SIZE) with 8 in Hk.
    mstep (check_va2pa_spec _ _ _ _ _ _ _ _ _ Hb (Hms k Hk) (Hlow (bottom + k) ltac:(lia) ltac:(lia)) table_flags_present).
    mstep (static_pa bottom s (Hlow bottom ltac:(lia) ltac:(lia))).
    by replace ((bottom + k) * PAGE_SIZE =? bottom * PAGE_SIZE + k * PAGE_SIZE) with true by (symmetry; apply Z.eqb_eq; lia). }
  apply forM_checks; [done|]. intros i Hi. rewrite Z.add_0_l. cbv beta. unfold NPDENTRIES in Hi.
  mstep (bload_word D i s HD Hi). pose proof (pde_expected_spec i Hi) as He.
  destruct (pde_expected i) eqn:Hexp.
  - assert (get_word s (word D i) ≠ 0) as Hne; [|by rewrite (proj2 (Z.eqb_neq _ _) Hne)].
    pose proof (bs_low _ _ _ _ _ _ Hb) as [HD0 _]. intros H0.
    destruct (proj1 He eq_refl) as [Hv|Hv].
    + pose proof (bs_self _ _ _ _ _ _ Hb i Hv) as Hs. rewrite H0 in Hs. unfold PAGE_SIZE in Hs. lia.
    + rewrite <-Hdom in Hv. apply elem_of_dom in Hv as [f Hf]. pose proof (bs_table _ _ _ _ _ _ Hb i f Hf).
      destruct (bs_entry _ _ _ _ _ _ Hb i f Hf); unfold PAGE_SIZE in *; lia.
  - rewrite (bs_empty _ _ _ _ _ _ Hb i Hi); [done| |].
    + apply not_elem_of_dom. rewrite Hdom. intros Hv. discriminate (proj2 He (or_intror Hv)).
    + intros Hv. discriminate (proj2 He (or_introl Hv)).
Qed.

(** ** Turning paging on *)
(** Low entries of the directory, unused before and after. *)
Lemma low_entries s D T lim room j :
  boot_space s D T self_entries lim room → 0 ≤ j < 955 → get_word s (word D j) = 0.
Proof using.
  intros Hb Hj. apply (bs_empty _ _ _ _ _ _ Hb); [lia| |by rewrite self_entries_spec; lia].
  apply not_elem_of_dom. intros Hd. apply (bs_dom _ _ _ _ _ _ Hb) in Hd. rewrite boot_entries_spec in Hd. lia.
Qed.
Lemma turn_on_paging_spec s D T lim room :
  boot_space s D T self_entries lim room → ptr_page_directory (boot s) = static D →
  ∃ s', turn_on_paging s = Ret tt s' ∧ cr3 (hw s') = phys_page_directory (boot s) ∧
    boot s' = boot s ∧ (frames s' = frames s ∧ untouched s' = untouched s) ∧ ∀ j, get_word s' j = get_word s j.
Proof using Htop.
  intros Hb Hdir. pose proof (bs_D_low _ _ _ _ _ _ Hb) as HD. pose proof (bs_lim _ _ _ _ _ _ Hb) as Hlim.
  unfold turn_on_paging. rewrite !bind_gets. cbn [compose]. rewrite Hdir. unfold get_free_mem.
  rewrite bind_gets. cbn [compose]. rewrite (bs_free _ _ _ _ _ _ Hb). change (PDX KERNEL_BASE) with 960.
  set (n := PDX (KERNEL_BASE + lim) - 960).
  assert (0 ≤ n ≤ 24) as Hn.
  { unfold n. rewrite PDX_eq, u32_small by (unfold is_u32, KERNEL_HEAP_START, KERNEL_BASE in *; lia).
    unfold PTSIZE, PAGE_SIZE, NPTENTRIES, KERNEL_HEAP_START, KERNEL_BASE in *. zdiv. }
  destruct (forM_seqZ (λ i s1, boot s1 = boot s ∧ (frames s1 = frames s ∧ untouched s1 = untouched s) ∧
      ∀ j, (∀ k, 0 ≤ k < n → j ≠ word D k) → get_word s1 j = get_word s j)
    (λ j, e ← bload (static D) (960 + j); bstore (static D) j e) 0 n s (proj1 Hn)) as (s1 & Hr1 & Hb1 & [Hf1 Hf1'] & Hw1).
  { by split_and!. }
  { intros i s1 Hi (Hb1 & [Hf1 Hf1'] & Hw1). rewrite Z.add_0_l. mstep (bload_word D (960 + i) s1 HD ltac:(lia)).
    eexists. split; [apply bstore_word; [done|lia]|]. split_and!; [done..|]. intros j Hj.
    rewrite get_put_ne; [by apply Hw1|]. intros <-. by apply (Hj i). }
  rewrite (bind_Ret _ _ _ _ _ Hr1). set (s2 := on_hw (set_cr3 (phys_page_directory (boot s))) s1). rewrite (bind_Ret _ _ s1 tt s2) by done.
  destruct (forM_seqZ (λ i s3, boot s3 = boot s ∧ (frames s3 = frames s ∧ untouched s3 = untouched s) ∧
      (∀ j, (∀ k, 0 ≤ k < n → j ≠ word D k) → get_word s3 j = get_word s j) ∧
      ∀ k, 0 ≤ k < i → get_word s3 (word D k) = 0)
    (λ j, bstore (static D) j 0) 0 n s2 (proj1 Hn)) as (s3 & Hr3 & Hb3 & [Hf3 Hf3'] & Hw3 & Hz3).
  { split_and!; [done..|intros; lia]. }
  { intros i s3 Hi (Hb3 & [Hf3 Hf3'] & Hw3 & Hz3). rewrite Z.add_0_l. eexists.
    split; [apply bstore_word; [done|lia]|]. split_and!; [done|done|done| |].
    - intros j Hj. rewrite get_put_ne; [by apply Hw3|]. intros <-. by apply (Hj i).
    - intros k Hk. destruct (decide (k = i)) as [->|]; [by rewrite get_put_eq|].
      rewrite get_put_ne; [apply Hz3; lia|]. intros [_ ?]%word_inj; [done|lia|lia]. }
  rewrite (bind_Ret _ _ _ _ _ Hr3). eexists. split; [reflexivity|]. split_and!; [done..|].
  intros j. change (get_word s3 j = get_word s j).
  destruct (decide (j / 1024 = D ∧ 0 ≤ j `mod` 1024 < n)) as [[HjD Hjn]|Hj].
  - assert (j = word D (j `mod` 1024)) as -> by (unfold word; rewrite <-HjD; zdiv).
    rewrite Hz3 by done. symmetry. eapply low_entries; [done|lia].
  - apply Hw3. intros k Hk ->. apply Hj. unfold word. rewrite Z_div_mul_small, Z_mod_mul_small by lia. done.
Qed.

(** The tables of the kernel's 256 MB. *)
Lemma kernel_tables_spec s D T V lim room :
  boot_space s D T V lim room →
  ∃ s' T' lim',
    forM (seqZ 0 64) (λ k, boot_get_page_table (static D) (KERNEL_BASE + k * PTSIZE) true;; mret tt) s = Ret tt s' ∧
    boot_space s' D T' V lim' room ∧ T ⊆ T' ∧ (∀ d, 960 ≤ d < 1024 → T' !! d ≠ None) ∧
    keeps_but (λ j, ∃ d, d ∈ boot_entries ∧ T !! d = None ∧ j = word D d) s s'.
Proof using Htop.
  intros Hb.
  destruct (forM_seqZ (λ i s', ∃ T' lim', boot_space s' D T' V lim' room ∧ T ⊆ T' ∧
      (∀ d, 960 ≤ d < 960 + i → T' !! d ≠ None) ∧
      keeps_but (λ j, ∃ d, d ∈ boot_entries ∧ T !! d = None ∧ j = word D d) s s')
    (λ k, boot_get_page_table (static D) (KERNEL_BASE + k * PTSIZE) true;; mret tt) 0 64 s)
    as (s' & Hr & T' & lim' & Hb' & Hs' & Hd' & Hk'); [done| | |].
  - exists T, lim. split_and!; [done|done|intros; lia|apply keeps_but_refl].
  - intros i s1 Hi (T1 & lim1 & Hb1 & Hs1 & Hd1 & Hk1). rewrite Z.add_0_l. cbv beta.
    assert (PDX (KERNEL_BASE + i * PTSIZE) = 960 + i) as Hp.
    { rewrite PDX_eq, u32_small by (unfold is_u32, KERNEL_BASE, PTSIZE, PAGE_SIZE, NPTENTRIES; lia).
      replace (KERNEL_BASE + i * PTSIZE) with ((960 + i) * PTSIZE + 0) by (unfold KERNEL_BASE, PTSIZE, PAGE_SIZE, NPTENTRIES; lia).
      by apply Z_div_mul_small. }
    assert (960 + i ∈ boot_entries) as Hin by (rewrite boot_entries_spec; lia).
    destruct (boot_get_page_table_spec s1 D T1 V lim1 room (KERNEL_BASE + i * PTSIZE) Hb1) as (f & s2 & T2 & lim2 & Hr2 & Hb2 & Hf2 & [Hs2 _] & _ & Hk2);
      [by rewrite Hp|].
    exists s2. mstep Hr2. split; [done|]. exists T2, lim2. split_and!; [done|by etrans| |].
    + intros d Hd. destruct (decide (d = 960 + i)) as [->|]; [rewrite <-Hp, Hf2; done|].
      intros Hn. apply (Hd1 d); [lia|]. by eapply lookup_weaken_None.
    + eapply keeps_but_trans; [| |exact Hk1|exact Hk2]; [done|]. intros j [HT ->]. rewrite Hp in *.
      exists (960 + i). split; [exact Hin|]. split; [by eapply lookup_weaken_None|done].
  - by exists s', T', lim'.
Qed.
End Space.
