(* ===== verification/BootVM.v ===== *)
(** * The address space boot leaves

    initialize_kernel_VM as a whole (kern/memory_manager.c), from the steps specified in BootSpec.v:
    its self-check passes, and paging starts with the kernel mapped at KERNEL_BASE, its stack below
    KERNEL_STACK_TOP, [envs] readable at UENVS, the page tables at VPT and nothing else.
    [stage s0 s D T V lim room]: what holds between two steps; [booted]: what holds at the end.
    The composition with initialize_paging gives the state the kernel heap's theorems start from,
    but for the entries of the heap's pages, which nobody clears. *)
From S2P Require Import Prelude Machine Queue State AddressSpace PageFlags FrameAlloc FrameAllocSpec Paging PagingSpec KHeap KHeapSpec HeapMem PageFile WorkingSet Fault UserEnv UserEnvSpec Boot BootSpec.

(** Words of the directory, and page-table entries below the kernel heap. *)
Definition directory_word (D j : Z) : Prop := ∃ d, 0 ≤ d < 1024 ∧ j = word D d.
Definition low_words (D : Z) (T : gmap Z Z) (j : Z) : Prop :=
  directory_word D j ∨ ∃ va, PDX va < 984 ∧ pte_of_page T va j.
Lemma low_words_mono D T T' j : T ⊆ T' → low_words D T j → low_words D T' j.
Proof.
  intros Hs [Hd|(va & Hva & f & Hf & ->)]; [by left|]. right. exists va. split; [done|].
  exists f. split; [by eapply lookup_weaken|done].
Qed.
Lemma range_low D T T' va n j :
  (∀ k, 0 ≤ k < n → PDX (va + k * PAGE_SIZE) < 984) → range_words D T T' va n j → low_words D T' j.
Proof.
  intros Hd [(d & Hin & _ & ->)|(k & Hk & Hp)].
  - left. exists d. split; [by apply boot_entry_range|done].
  - right. exists (va + k * PAGE_SIZE). split; [by apply Hd|done].
Qed.

Lemma PDX_pages va n d k :
  va = d * PTSIZE → 0 ≤ k < n → n ≤ 1024 → 0 ≤ d < 1024 → PDX (va + k * PAGE_SIZE) = d.
Proof.
  intros -> Hk Hn Hd. rewrite PDX_eq, u32_small by (unfold is_u32, PTSIZE, PAGE_SIZE, NPTENTRIES; lia).
  apply Z_div_mul_small. unfold PTSIZE, PAGE_SIZE, NPTENTRIES. lia.
Qed.

#[export] Instance same_base_preorder : PreOrder same_base.
Proof.
  split; [by intros s; split_and!|].
  intros s1 s2 s3 (? & ? & ? & Ho & Hf) (? & ? & ? & Ho' & Hf'). split_and!; try congruence; by auto.
Qed.

Lemma STACK_page k : 0 ≤ k < 8 → PDX (KERNEL_STACK_TOP - KERNEL_STACK_SIZE + k * PAGE_SIZE) = 958.
Proof.
  intros Hk. rewrite PDX_eq. change (KERNEL_STACK_TOP - KERNEL_STACK_SIZE) with (958 * PTSIZE + 1016 * PAGE_SIZE).
  rewrite u32_small by (unfold is_u32, PTSIZE, PAGE_SIZE, NPTENTRIES; lia).
  rewrite <-Z.add_assoc. apply Z_div_mul_small. unfold PTSIZE, PAGE_SIZE, NPTENTRIES. lia.
Qed.

Section Stage.
Context (top : Z) (Htop : top ≤ KERNEL_HEAP_START - KERNEL_BASE).
Notation boot_space := (boot_space top).

Record stage (s0 s : KState) (D : Z) (T : gmap Z Z) (V : gset Z) (lim room : Z) : Prop := {
  st_space : boot_space s D T V lim room;
  st_dir : ptr_page_directory (boot s) = static D;
  st_phys : phys_page_directory (boot s) = D * PAGE_SIZE;
  st_base : same_base s0 s;
  st_words j : ¬ low_words D T j → get_word s j = get_word s0 j;
}.
Lemma stage_step s0 s s' D T T' V V' lim lim' room room' :
  stage s0 s D T V lim room → boot_space s' D T' V' lim' room' → T ⊆ T' →
  keeps_but (low_words D T') s s' → stage s0 s' D T' V' lim' room'.
Proof using.
  intros [H1 H2 H3 H4 H5] Hb Hs (H4' & ? & ? & ? & Hw). split; try congruence; [by etrans|].
  intros j Hj. rewrite Hw by done. apply H5. intros Hl. by eapply Hj, low_words_mono.
Qed.

(** A mapping survives writes to the directory and to other tables. *)
Lemma mapped_other s s' D T T' V lim room va pa flags n va' :
  boot_space s' D T' V lim room → T ⊆ T' → keeps_but (range_words D T T' va' n) s s' →
  (∀ k, 0 ≤ k < n → PDX (va' + k * PAGE_SIZE) ≠ PDX va) →
  mapped s T va pa flags → mapped s' T' va pa flags.
Proof using.
  intros Hb Hs Hk Hne Hm. eapply mapped_keeps; [done..|by exact Hk| |done].
  intros j (f & Hf & Hj). apply (lookup_weaken _ T') in Hf; [|done].
  assert (pte_of_page T' va j) as Hp by (by exists f). intros [(d & Hd & _ & He)|(k & Hr & Hp')].
  - by apply (pte_not_directory _ _ _ _ _ _ _ _ j d Hb Hp (boot_entry_range d Hd)).
  - apply (Hne k Hr). pose proof (same_pte _ _ _ _ _ _ _ _ _ _ Hb Hp Hp') as HP.
    rewrite !PDX_PTX_PPN in HP. pose proof (PTX_range va). pose proof (PTX_range (va' + k * PAGE_SIZE)).
    unfold NPTENTRIES in HP. lia.
Qed.
Lemma mapped_directory s s' D T T' V lim room va pa flags :
  boot_space s' D T' V lim room → T ⊆ T' → keeps_but (directory_word D) s s' →
  mapped s T va pa flags → mapped s' T' va pa flags.
Proof using.
  intros Hb Hs Hk Hm. eapply mapped_keeps; [done..|by exact Hk| |done].
  intros j (f & Hf & Hj) (d & Hd & He). apply (lookup_weaken _ T') in Hf; [|done].
  by apply (pte_not_directory _ _ _ _ _ _ _ va j d Hb); [exists f|..].
Qed.

(** ** The directory *)
Lemma bmemset0_spec D s :
  low_frame D → ∃ s', bmemset0 (static D) 1024 s = Ret tt s' ∧ keeps_but (directory_word D) s s' ∧
    boot s' = boot s ∧ frames s' = frames s ∧ ∀ i, 0 ≤ i < 1024 → get_word s' (word D i) = 0.
Proof using.
  intros HD. unfold bmemset0.
  destruct (forM_seqZ (λ k s', keeps_but (directory_word D) s s' ∧ boot s' = boot s ∧ frames s' = frames s ∧
    ∀ i, 0 ≤ i < k → get_word s' (word D i) = 0) (λ i, bstore (static D) i 0) 0 1024 s)
    as (s' & Hr & Hk & Hb & Hf & Hz); [done| | |].
  - split_and!; [apply keeps_but_refl|done|done|intros; lia].
  - intros k s1 Hk (Hk1 & Hb1 & Hf1 & Hz1). rewrite Z.add_0_l, bstore_word by done. change (u32 0) with 0.
    eexists. split; [reflexivity|]. split_and!; [|done|done|].
    + eapply keeps_but_trans; [| |exact Hk1|apply (keeps_but_put (directory_word D))]; [done|done|by exists k|done].
    + intros i Hi. destruct (decide (i = k)) as [->|]; [by rewrite get_put_eq|].
      rewrite get_put_ne; [apply Hz1; lia|]. intros [_ ?]%word_inj; [done|lia|lia].
  - exists s'. by split_and!.
Qed.

Lemma directory_phase s e room :
  free_from s e → PAGE_SIZE ≤ e → 0 ≤ room → e + room + 134 * PAGE_SIZE ≤ top →
  top ≤ number_of_frames (frames s) * PAGE_SIZE →
  ∃ s', (∀ A (k : Z → K A),
      (pgdir ← boot_allocate_space PAGE_SIZE PAGE_SIZE; modify (on_boot (set_ptr_page_directory pgdir));;
       bmemset0 pgdir 1024;; phys ← STATIC_KERNEL_PHYSICAL_ADDRESS pgdir;
       modify (on_boot (set_phys_page_directory phys));; k pgdir) s = k (static (page_up e)) s') ∧
    stage s s' (page_up e) ∅ ∅ ((page_up e + 1) * PAGE_SIZE) room.
Proof using Htop.
  intros Hf He Hroom Hsum Hn. pose proof (page_up_bounds e) as Hp. unfold PAGE_SIZE in Hp, He, Hsum.
  unfold KERNEL_HEAP_START, KERNEL_BASE in Htop.
  set (D := page_up e) in *. assert (low_frame D) as HD by (unfold low_frame; lia).
  set (s1 := on_boot (set_ptr_page_directory (static D)) (set_free (D * PAGE_SIZE + PAGE_SIZE) s)).
  destruct (bmemset0_spec D s1 HD) as (s2 & Hr & (Hn2 & _ & _ & _ & Hw) & Hb & Hfr & Hz).
  exists (on_boot (set_phys_page_directory (D * PAGE_SIZE)) s2). split.
  - intros A k. rewrite (bind_Ret _ _ _ _ _ (boot_allocate_space_spec s e PAGE_SIZE PAGE_SIZE Hf
      ltac:(lia) ltac:(done) ltac:(unfold PAGE_SIZE; lia))). fold D. rewrite bind_modify. fold s1.
    mstep Hr. mstep (static_pa D s2 HD). by rewrite bind_modify.
  - assert (∀ i, 0 ≤ i < 1024 → get_word (on_boot (set_phys_page_directory (D * PAGE_SIZE)) s2) (word D i) = 0) as Hz' by exact Hz.
    split; [|by cbn; rewrite Hb|done|done|].
    + split; try done.
      * cbn. rewrite Hb. cbn. by replace (D * PAGE_SIZE + PAGE_SIZE) with ((D + 1) * PAGE_SIZE) by lia.
      * unfold PAGE_SIZE. lia.
      * rewrite map_size_empty. unfold PAGE_SIZE. lia.
      * cbn. by rewrite Hfr.
      * intros d Hr' _ _. by apply Hz'.
    + intros j Hj. apply Hw. intros Hd. apply Hj. by left.
Qed.

(** ** The stack and the kernel's tables *)
Lemma tables_phase s0 s D lim room bottom :
  stage s0 s D ∅ ∅ lim room → 0 ≤ bottom → (bottom + 8) * PAGE_SIZE ≤ top →
  ∃ s' T lim', (∀ A (k : K A),
      (stack ← STATIC_KERNEL_PHYSICAL_ADDRESS (static bottom);
       boot_map_range (static D) (KERNEL_STACK_TOP - KERNEL_STACK_SIZE) KERNEL_STACK_SIZE stack PERM_WRITEABLE;;
       forM (seqZ 0 ((2 ^ 32 - KERNEL_BASE) `div` PTSIZE)) (λ k,
         boot_get_page_table (static D) (KERNEL_BASE + k * PTSIZE) true;; mret tt);; k) s = k s') ∧
    stage s0 s' D T ∅ lim' room ∧ (∀ d, 960 ≤ d < 1024 → T !! d ≠ None) ∧ T !! 958 ≠ None ∧
    ∀ k, 0 ≤ k < 8 → mapped s' T (KERNEL_STACK_TOP - KERNEL_STACK_SIZE + k * PAGE_SIZE)
                       ((bottom + k) * PAGE_SIZE) table_flags.
Proof using Htop.
  intros Hst Hb0 Hbt. assert (low_frame bottom) as Hlow.
  { unfold low_frame, PAGE_SIZE, KERNEL_HEAP_START, KERNEL_BASE in *. lia. }
  pose proof STACK_page as Hpdx.
  destruct (boot_map_range_spec top Htop s D ∅ ∅ lim room (KERNEL_STACK_TOP - KERNEL_STACK_SIZE) KERNEL_STACK_SIZE
    (bottom * PAGE_SIZE) PERM_WRITEABLE (st_space _ _ _ _ _ _ _ Hst)) as (s1 & T1 & lim1 & Hr1 & Hb1 & [Hs1 _] & Hm1 & Hk1 & _);
    [done|done|done|done|by rewrite Z.mod_mul|unfold PAGE_SIZE; lia| |done| |].
  { change ((KERNEL_STACK_SIZE + PAGE_SIZE - 1) `div` PAGE_SIZE) with 8. unfold PAGE_SIZE, KERNEL_HEAP_START, KERNEL_BASE in *. lia. }
  { change ((KERNEL_STACK_SIZE + PAGE_SIZE - 1) `div` PAGE_SIZE) with 8. intros k Hk. rewrite Hpdx by done. rewrite boot_entries_spec. lia. }
  change ((KERNEL_STACK_SIZE + PAGE_SIZE - 1) `div` PAGE_SIZE) with 8 in *.
  assert (stage s0 s1 D T1 ∅ lim1 room) as Hst1.
  { eapply stage_step; [exact Hst|done|done|]. eapply keeps_but_weaken; [|exact Hk1].
    intros j. apply range_low. intros k Hk. by rewrite Hpdx. }
  destruct (kernel_tables_spec top Htop s1 D T1 ∅ lim1 room Hb1) as (s2 & T2 & lim2 & Hr2 & Hb2 & Hs2 & Hd2 & Hk2).
  assert (keeps_but (directory_word D) s1 s2) as Hk2'.
  { eapply keeps_but_weaken; [|exact Hk2]. intros j (d & Hd & _ & ->). exists d. split; [by apply boot_entry_range|done]. }
  exists s2, T2, lim2. split.
  { intros A k. mstep (static_pa bottom s Hlow). mstep Hr1. by rewrite (bind_Ret _ _ _ _ _ Hr2). }
  split_and!; [|done| |].
  - eapply stage_step; [exact Hst1|done|done|]. eapply keeps_but_weaken; [|exact Hk2']. intros j Hj. by left.
  - destruct (Hm1 0 ltac:(lia)) as (f & Hf & _). rewrite (Hpdx 0) in Hf by lia.
    by rewrite (lookup_weaken _ _ _ _ Hf Hs2).
  - intros k Hk. eapply mapped_directory; [exact Hb2|exact Hs2|exact Hk2'|].
    replace ((bottom + k) * PAGE_SIZE) with (bottom * PAGE_SIZE + k * PAGE_SIZE) by lia. by apply Hm1.
Qed.

(** ** The arrays and the entries that list the tables *)
Lemma listing_spec s D T lim room :
  boot_space s D T ∅ lim room → ptr_page_directory (boot s) = static D →
  ∃ s', setup_listing_to_all_page_tables_entries s = Ret tt s' ∧
    boot_space s' D T self_entries lim room ∧ keeps_but (directory_word D) s s'.
Proof using Htop.
  intros Hb Hdir. pose proof (bs_D_low _ Htop _ _ _ _ _ _ Hb) as HD. assert (low_frame D) as [HD1 HD2] by done.
  unfold setup_listing_to_all_page_tables_entries. rewrite bind_gets. cbn [compose]. rewrite Hdir.
  mstep (static_pa D s HD). change (Z.lor PERM_PRESENT PERM_WRITEABLE) with 3.
  change (PDX VPT) with 959. change (PDX UVPT) with 957. rewrite <-Z.lor_assoc.
  change (Z.lor PERM_USER PERM_PRESENT) with 5. fold (CONSTRUCT_ENTRY (D * PAGE_SIZE) 5).
  rewrite !construct_eq by (done || lia).
  mstep (bstore_word D 959 (D * PAGE_SIZE + 3) s HD ltac:(done)).
  rewrite bstore_word by done.
  rewrite !u32_small by (unfold is_u32, PAGE_SIZE; lia).
  eexists. split; [reflexivity|]. split.
  - replace self_entries with ({[957]} ∪ ({[959]} ∪ ∅) : gset Z) by (by rewrite union_empty_r_L).
    repeat (apply boot_space_self; [done| |rewrite boot_entries_spec; lia|set_solver|done|by (left + right)]). done.
  - apply (keeps_but_trans (directory_word D) (directory_word D) _ _ (put_word (word D 959) (D * PAGE_SIZE + 3) s)); try done.
    + apply keeps_but_put; [by exists 959|unfold is_u32, PAGE_SIZE; lia].
    + apply keeps_but_put; [by exists 957|unfold is_u32, PAGE_SIZE; lia].
Qed.

(** What a step outside the tables leaves: [P2] and [P4] of [stage] are about the boot record. *)
Lemma stage_ext s0 s s' D T V lim room :
  stage s0 s D T V lim room → boot s' = boot s → (∀ j, get_word s' j = get_word s j) → untouched s' = untouched s →
  number_of_frames (frames s') = number_of_frames (frames s) →
  (frames_info (frames s) = ∅ → frames_info (frames s') = ∅) → stage s0 s' D T V lim room.
Proof using.
  intros [H1 H2 H3 H4 H5] Hb Hw Hk Hn Hf.
  split; rewrite ?Hb; try done.
  - by eapply boot_space_ext.
  - etrans; [exact H4|]. split_and!; try congruence; [|done]. intros Hs j. rewrite Hw. apply Hs.
  - intros j Hj. rewrite Hw. by apply H5.
Qed.
Lemma stage_alloc s0 s D T V lim room size align :
  stage s0 s D T V lim room → 0 ≤ size → size + PAGE_SIZE ≤ room →
  boot_allocate_space size align s = Ret (static (page_up lim)) (set_free (page_up lim * PAGE_SIZE + size) s) ∧
  stage s0 (set_free (page_up lim * PAGE_SIZE + size) s) D T V (page_up lim * PAGE_SIZE + size) (room - size - PAGE_SIZE).
Proof using Htop.
  intros Hst Hs Hr. destruct (boot_space_alloc _ Htop _ _ _ _ _ _ size align (st_space _ _ _ _ _ _ _ Hst) Hs Hr) as [Ha Hb].
  split; [done|]. eapply stage_step; [exact Hst|done|done|apply keeps_but_free].
Qed.

Definition arrays_size (n : Z) : Z := n * SIZEOF_Frame_Info + PAGES_PER_FILE * SIZEOF_Frame_Info + 2 * PAGE_SIZE.
Lemma arrays_phase s0 s D T lim room :
  stage s0 s D T ∅ lim room → 0 ≤ number_of_frames (frames s) ≤ 2 ^ 20 →
  arrays_size (number_of_frames (frames s)) ≤ room →
  ∃ s' lim', (∀ A (k : K A),
      (n ← gets (number_of_frames ∘ frames);
       boot_allocate_space (u32 (n * SIZEOF_Frame_Info)) PAGE_SIZE;;
       modify (on_frames (set_frames_info ∅));;
       boot_allocate_space (PAGES_PER_FILE * SIZEOF_Frame_Info) PAGE_SIZE;;
       modify (on_pagefile (set_disk_frames_info ∅));;
       setup_listing_to_all_page_tables_entries;; k) s = k s') ∧
    stage s0 s' D T self_entries lim' (room - arrays_size (number_of_frames (frames s))) ∧
    frames_info (frames s') = ∅ ∧ lim ≤ lim' ∧
    ∀ va pa flags, mapped s T va pa flags → mapped s' T va pa flags.
Proof using Htop.
  intros Hst Hn Hroom. set (n := number_of_frames (frames s)) in *.
  unfold arrays_size, SIZEOF_Frame_Info in *. change PAGES_PER_FILE with 133120 in *.
  assert (u32 (n * 24) = n * 24) as Hu by (apply u32_small; unfold is_u32; lia).
  pose proof (page_up_bounds lim) as Hp.
  destruct (stage_alloc s0 s D T ∅ lim room (n * 24) PAGE_SIZE Hst) as [Ha1 Hst1]; [lia|unfold PAGE_SIZE in *; lia|].
  set (lim1 := page_up lim * PAGE_SIZE + n * 24) in *. set (s1 := set_free lim1 s) in *.
  assert (stage s0 (on_frames (set_frames_info ∅) s1) D T ∅ lim1 (room - n * 24 - PAGE_SIZE)) as Hst2 by (by eapply stage_ext).
  pose proof (page_up_bounds lim1) as Hp1.
  destruct (stage_alloc _ _ _ _ _ _ _ (133120 * 24) PAGE_SIZE Hst2) as [Ha3 Hst3]; [done|unfold PAGE_SIZE in *; lia|].
  set (lim3 := page_up lim1 * PAGE_SIZE + 133120 * 24) in *. set (s3 := set_free lim3 _) in *.
  set (s4 := on_pagefile (set_disk_frames_info ∅) s3).
  assert (stage s0 s4 D T ∅ lim3 (room - n * 24 - PAGE_SIZE - 133120 * 24 - PAGE_SIZE)) as Hst4 by (by eapply stage_ext).
  destruct (listing_spec s4 D T _ _ (st_space _ _ _ _ _ _ _ Hst4) (st_dir _ _ _ _ _ _ _ Hst4)) as (s5 & Hr5 & Hb5 & Hk5).
  exists s5, lim3. split.
  { intros A k. rewrite bind_gets. cbn [compose]. fold n. rewrite Hu. mstep Ha1. rewrite bind_modify. mstep Ha3.
    rewrite bind_modify. by mstep Hr5. }
  replace (room - (n * 24 + 133120 * 24 + 2 * PAGE_SIZE)) with (room - n * 24 - PAGE_SIZE - 133120 * 24 - PAGE_SIZE) by lia.
  split_and!.
  - eapply stage_step; [exact Hst4|done|done|]. eapply keeps_but_weaken; [|exact Hk5]. intros j Hj. by left.
  - destruct Hk5 as ((_ & _ & _ & _ & Hf) & _). by apply Hf.
  - unfold lim3, lim1 in *. lia.
  - intros va pa flags Hm. eapply (mapped_directory s4); [exact Hb5|done|exact Hk5|exact Hm].
Qed.

(** ** The environments and the kernel *)
Lemma user_entry f e :
  low_frame f → e = f * PAGE_SIZE + 3 ∨ e = f * PAGE_SIZE + 7 →
  Z.lor e (Z.lor PERM_USER (Z.land PERM_PRESENT (not32 PERM_WRITEABLE))) = f * PAGE_SIZE + 7.
Proof using.
  intros [Hf _] He. change (Z.lor PERM_USER (Z.land PERM_PRESENT (not32 PERM_WRITEABLE))) with 5.
  rewrite <-(construct_eq f 7) by done.
  destruct He as [-> | ->]; rewrite <-construct_eq by done; unfold CONSTRUCT_ENTRY; by rewrite <-Z.lor_assoc.
Qed.

Definition envs_pages : Z := (NENV * SIZEOF_Env + PAGE_SIZE - 1) `div` PAGE_SIZE.
Lemma envs_pages_eq : envs_pages = 256.
Proof using. done. Qed.
Lemma UENVS_page k : 0 ≤ k < 256 → PDX (UENVS + k * PAGE_SIZE) = 955.
Proof using. intros. by apply (PDX_pages _ 256). Qed.

Lemma envs_phase s0 s D T lim room :
  stage s0 s D T self_entries lim room → NENV * SIZEOF_Env + PAGE_SIZE ≤ room →
  ∃ s' T' lim' f, (∀ A (k : K A),
      (envs_va ← boot_allocate_space (NENV * SIZEOF_Env) PAGE_SIZE;
       modify (on_environments (set_envs ∅));;
       envs_pa ← STATIC_KERNEL_PHYSICAL_ADDRESS envs_va;
       boot_map_range (static D) UENVS (NENV * SIZEOF_Env) envs_pa PERM_USER;;
       e ← bload (static D) (PDX UENVS);
       bstore (static D) (PDX UENVS) (Z.lor e (Z.lor PERM_USER (Z.land PERM_PRESENT (not32 PERM_WRITEABLE))));; k) s =
      k s') ∧
    stage s0 s' D T' self_entries lim' (room - NENV * SIZEOF_Env - PAGE_SIZE) ∧
    (T ⊆ T' ∧ page_up lim * PAGE_SIZE + NENV * SIZEOF_Env ≤ lim') ∧ same_base s s' ∧
    T' !! 955 = Some f ∧ get_word s' (word D 955) = f * PAGE_SIZE + 7 ∧
    (∀ k, 0 ≤ k < 256 → mapped s' T' (UENVS + k * PAGE_SIZE) ((page_up lim + k) * PAGE_SIZE) 5) ∧
    ∀ va pa flags, PDX va ≠ 955 → mapped s T va pa flags → mapped s' T' va pa flags.
Proof using Htop.
  intros Hst Hroom. pose proof (page_up_bounds lim) as Hp.
  change (NENV * SIZEOF_Env) with 1048040 in *. set (P := page_up lim) in *.
  destruct (stage_alloc _ _ _ _ _ _ _ 1048040 PAGE_SIZE Hst) as [Ha1 Hst1]; [done|done|].
  pose proof (bs_lim _ _ _ _ _ _ _ (st_space _ _ _ _ _ _ _ Hst)) as Hl0.
  fold P in Ha1, Hst1. set (lim1 := P * PAGE_SIZE + 1048040) in *. set (s1 := set_free lim1 s) in *.
  set (s2 := on_environments (set_envs ∅) s1).
  assert (stage s0 s2 D T self_entries lim1 (room - 1048040 - PAGE_SIZE)) as Hst2 by (by eapply stage_ext).
  pose proof (st_space _ _ _ _ _ _ _ Hst2) as Hb2. pose proof (bs_lim _ _ _ _ _ _ _ Hb2) as Hl2.
  assert (low_frame P) as HP by (unfold low_frame, lim1, PAGE_SIZE, KERNEL_HEAP_START, KERNEL_BASE in *; lia).
  pose proof (bs_D_low _ Htop _ _ _ _ _ _ Hb2) as HD.
  destruct (boot_map_range_spec top Htop s2 D T _ _ _ UENVS 1048040 (P * PAGE_SIZE) PERM_USER Hb2)
    as (s3 & T3 & lim3 & Hr3 & Hb3 & [Hs3 Hle3] & Hm3 & Hk3 & _);
    [done|done|done|done|by rewrite Z.mod_mul|unfold low_frame, PAGE_SIZE in *; lia| |done| |];
    change ((1048040 + PAGE_SIZE - 1) `div` PAGE_SIZE) with 256 in *.
  { unfold lim1, PAGE_SIZE, KERNEL_HEAP_START, KERNEL_BASE in *. lia. }
  { intros k Hk. rewrite UENVS_page by done. rewrite boot_entries_spec. lia. }
  assert (stage s0 s3 D T3 self_entries lim3 (room - 1048040 - PAGE_SIZE)) as Hst3.
  { eapply stage_step; [exact Hst2|done|done|]. eapply keeps_but_weaken; [|exact Hk3].
    intros j. apply range_low. intros k Hk. by rewrite UENVS_page. }
  destruct (Hm3 0 ltac:(lia)) as (f & Hf & _). rewrite UENVS_page in Hf by lia.
  pose proof (bs_table_low _ Htop _ _ _ _ _ _ _ _ Hb3 Hf) as Hlf.
  pose proof (boot_space_user _ Htop _ _ _ _ _ _ _ _ Hb3 Hf) as Hb4.
  assert (is_u32 (f * PAGE_SIZE + 7)) as Hu by (unfold low_frame, is_u32, PAGE_SIZE in *; lia).
  assert (keeps_but (directory_word D) s3 (put_word (word D 955) (f * PAGE_SIZE + 7) s3)) as Hk4.
  { apply keeps_but_put; [by exists 955|done]. }
  exists (put_word (word D 955) (f * PAGE_SIZE + 7) s3), T3, lim3, f. split.
  { intros A k. mstep Ha1. rewrite bind_modify. fold s1 s2. mstep (static_pa P s2 HP). mstep Hr3.
    change (PDX UENVS) with 955. mstep (bload_word D 955 s3 HD ltac:(done)).
    rewrite (user_entry f) by (done || by eapply bs_entry).
    mstep (bstore_word D 955 (f * PAGE_SIZE + 7) s3 HD ltac:(done)). by rewrite u32_small. }
  split_and!; [|done|done| |done|by rewrite get_put_eq| |].
  - eapply stage_step; [exact Hst3|done|done|]. eapply keeps_but_weaken; [|exact Hk4]. intros j Hj. by left.
  - etrans; [|apply Hk4]. etrans; [|apply Hk3]. by split_and!.
  - intros k Hk. eapply (mapped_directory s3); [exact Hb4|reflexivity|exact Hk4|].
    replace ((P + k) * PAGE_SIZE) with (P * PAGE_SIZE + k * PAGE_SIZE) by lia. by apply Hm3.
  - intros va pa flags Hva Hm. eapply (mapped_directory s3); [exact Hb4|reflexivity|exact Hk4|].
    eapply (mapped_other s2); [exact Hb3|done|exact Hk3| |exact Hm]. intros k Hk. rewrite UENVS_page by done. congruence.
Qed.

Lemma KERNEL_page k : 0 ≤ k < 2 ^ 16 → PDX (KERNEL_BASE + k * PAGE_SIZE) = 960 + k / 1024.
Proof using.
  intros Hk. rewrite PDX_eq, u32_small by (unfold is_u32, KERNEL_BASE, PAGE_SIZE; lia).
  unfold KERNEL_BASE, PTSIZE, PAGE_SIZE, NPTENTRIES. zdiv.
Qed.
Lemma kernel_phase s0 s D T lim room :
  stage s0 s D T self_entries lim room → dom T = boot_entries →
  ∃ s', (∀ A (k : K A),
      (limit ← get_free_mem; boot_map_range (static D) KERNEL_BASE (u32 (limit - KERNEL_BASE)) 0 PERM_WRITEABLE;; k) s =
      k s') ∧
    stage s0 s' D T self_entries lim room ∧ same_base s s' ∧
    (∀ k, 0 ≤ k < page_up lim → mapped s' T (KERNEL_BASE + k * PAGE_SIZE) (k * PAGE_SIZE) table_flags) ∧
    (∀ d, 0 ≤ d < 1024 → get_word s' (word D d) = get_word s (word D d)) ∧
    ∀ va pa flags, PDX va < 960 → mapped s T va pa flags → mapped s' T va pa flags.
Proof using Htop.
  intros Hst Hdom. pose proof (st_space _ _ _ _ _ _ _ Hst) as Hb. pose proof (bs_lim _ _ _ _ _ _ _ Hb) as Hl.
  assert (u32 (KERNEL_BASE + lim - KERNEL_BASE) = lim) as Hu.
  { rewrite u32_small; [lia|]. unfold is_u32, KERNEL_HEAP_START, KERNEL_BASE in *. lia. }
  pose proof (page_up_bounds lim) as Hp.
  assert (page_up lim ≤ 24 * 1024) as Hpl by (unfold PAGE_SIZE, KERNEL_HEAP_START, KERNEL_BASE in *; lia).
  assert (∀ k, 0 ≤ k < page_up lim → 960 ≤ PDX (KERNEL_BASE + k * PAGE_SIZE) < 984) as Hpd.
  { intros k Hk. rewrite KERNEL_page by lia. zdiv. }
  assert (∀ d, d ∈ boot_entries → T !! d ≠ None) as HT.
  { intros d Hd. rewrite <-Hdom in Hd. by apply elem_of_dom in Hd as [? ->]. }
  destruct (boot_map_range_spec top Htop s D T _ _ _ KERNEL_BASE lim 0 PERM_WRITEABLE Hb)
    as (s1 & T1 & lim1 & Hr & Hb1 & [Hs1 _] & Hm & Hk & Hsame);
    [lia|done|done| |done|done| |done| |];
    replace ((lim + PAGE_SIZE - 1) `div` PAGE_SIZE) with (page_up lim) in * by (unfold page_up, PAGE_SIZE; f_equal; lia).
  { unfold PAGE_SIZE, KERNEL_BASE in *. lia. }
  { unfold PAGE_SIZE in *. lia. }
  { intros k Hi. rewrite boot_entries_spec. specialize (Hpd k Hi). lia. }
  destruct Hsame as [-> ->].
  { intros k Hi. apply HT. rewrite boot_entries_spec. specialize (Hpd k Hi). lia. }
  exists s1. split.
  { intros A k. unfold get_free_mem. rewrite bind_gets. cbn [compose]. rewrite (bs_free _ _ _ _ _ _ _ Hb), Hu. by mstep Hr. }
  split_and!; [|apply Hk|exact Hm| |].
  - eapply stage_step; [exact Hst|done|done|]. eapply keeps_but_weaken; [|exact Hk].
    intros j. apply range_low. intros k Hk'. apply Hpd, Hk'.
  - intros d Hd. destruct Hk as (_ & _ & _ & _ & Hw). apply Hw. intros [(d' & Hd' & Hn & _)|(k & _ & Hp')].
    + by apply (HT d').
    + by apply (pte_not_directory _ _ _ _ _ _ _ _ _ d Hb1 Hp' Hd).
  - intros va pa flags Hva Hm0. eapply (mapped_other s); [exact Hb1|reflexivity|exact Hk| |exact Hm0].
    intros k Hk'. specialize (Hpd k Hk'). lia.
Qed.

(** ** The whole of initialize_kernel_VM *)
(** The address space when paging is on.  [P]: the first frame of [envs]. *)
Record booted (s0 s : KState) (e bottom D : Z) (T : gmap Z Z) (lim P : Z) : Prop := {
  bo_stage : stage s0 s D T self_entries lim 0;
  bo_root : cr3 (hw s) = D * PAGE_SIZE;
  bo_D : D = page_up e;
  bo_dom : dom T = boot_entries;
  bo_mapped : kernel_mapped s T lim bottom;
  bo_envs k : 0 ≤ k < 256 → mapped s T (UENVS + k * PAGE_SIZE) ((P + k) * PAGE_SIZE) 5;
  bo_user : ∃ f, T !! 955 = Some f ∧ get_word s (word D 955) = f * PAGE_SIZE + 7;
  bo_P : e < P * PAGE_SIZE ∧ (P + 256) * PAGE_SIZE ≤ lim + PAGE_SIZE;
  bo_info : frames_info (frames s) = ∅;
}.
Definition boot_needs (n : Z) : Z := arrays_size n + NENV * SIZEOF_Env + PAGE_SIZE + 134 * PAGE_SIZE.

Lemma initialize_kernel_VM_booted s e bottom :
  free_from s e → PAGE_SIZE ≤ e → 0 ≤ bottom → (bottom + 8) * PAGE_SIZE ≤ top →
  0 ≤ number_of_frames (frames s) ≤ 2 ^ 20 → e + boot_needs (number_of_frames (frames s)) ≤ top →
  top ≤ number_of_frames (frames s) * PAGE_SIZE →
  ∃ s' T lim P, initialize_kernel_VM (static bottom) s = Ret tt s' ∧ booted s s' e bottom (page_up e) T lim P.
Proof using Htop.
  intros Hf He Hb0 Hbt Hn Hneeds Htn. set (n := number_of_frames (frames s)) in *. unfold boot_needs in Hneeds.
  set (room := arrays_size n + NENV * SIZEOF_Env + PAGE_SIZE).
  assert (0 ≤ arrays_size n) as Ha0 by (unfold arrays_size, SIZEOF_Frame_Info; change PAGES_PER_FILE with 133120; unfold PAGE_SIZE; lia).
  destruct (directory_phase s e room Hf He) as (s1 & Hr1 & Hst1);
    [unfold room; change (NENV * SIZEOF_Env) with 1048040; unfold PAGE_SIZE; lia|unfold room; lia|done|].
  set (D := page_up e) in *.
  destruct (tables_phase s s1 D _ room bottom Hst1 Hb0 Hbt) as (s2 & T2 & lim2 & Hr2 & Hst2 & Hd2 & Hd2' & Hm2).
  assert (number_of_frames (frames s2) = n) as Hn2 by apply (st_base _ _ _ _ _ _ _ Hst2).
  destruct (arrays_phase s s2 D T2 lim2 room Hst2) as (s3 & lim3 & Hr3 & Hst3 & Hi3 & Hl3 & Hm3);
    [by rewrite Hn2|rewrite Hn2; unfold room; change (NENV * SIZEOF_Env) with 1048040; unfold PAGE_SIZE; lia|].
  rewrite Hn2 in Hst3.
  destruct (envs_phase s s3 D T2 lim3 _ Hst3) as (s4 & T4 & lim4 & f & Hr4 & Hst4 & [Hs4 Hle4] & Hk4 & Hf4 & Hw4 & He4 & Hm4); [unfold room; lia|].
  assert (dom T4 = boot_entries) as Hdom.
  { apply set_eq. intros d. split; [apply (bs_dom _ _ _ _ _ _ _ (st_space _ _ _ _ _ _ _ Hst4))|].
    assert (∀ d, T2 !! d ≠ None → d ∈ dom T4) as Hin.
    { intros d' Hd. apply elem_of_dom. destruct (T2 !! d') eqn:HT; [|by destruct Hd]. eexists. by eapply lookup_weaken. }
    rewrite boot_entries_spec. intros [-> |[-> |Hd]]; [|by apply Hin|by apply Hin, Hd2]. apply elem_of_dom. by eexists. }
  destruct (kernel_phase s s4 D T4 lim4 _ Hst4 Hdom) as (s5 & Hr5 & Hst5 & Hk5 & Hm5 & Hdir5 & Hm5').
  assert (kernel_mapped s5 T4 lim4 bottom) as Hkm.
  { split; [exact Hm5|]. intros k Hk. apply Hm5', Hm4, Hm3, Hm2; [by rewrite STACK_page|by rewrite STACK_page|done]. }
  pose proof (check_boot_pgdir_passes _ Htop _ _ _ _ _ _ (st_space _ _ _ _ _ _ _ Hst5) (st_dir _ _ _ _ _ _ _ Hst5) Hdom Hb0 Hbt Hkm) as Hc.
  destruct (turn_on_paging_spec _ Htop _ _ _ _ _ (st_space _ _ _ _ _ _ _ Hst5) (st_dir _ _ _ _ _ _ _ Hst5))
    as (s6 & Hr6 & Hcr & Hb6 & [Hf6 Hkh6] & Hw6).
  exists s6, T4, lim4, (page_up lim3). split.
  { unfold initialize_kernel_VM. etrans; [apply Hr1|]. cbv beta. etrans; [apply Hr2|]. etrans; [apply Hr3|].
    etrans; [apply Hr4|]. etrans; [apply Hr5|]. by mstep Hc. }
  assert (∀ va pa flags, mapped s5 T4 va pa flags → mapped s6 T4 va pa flags) as Hm6.
  { intros va pa flags (g & Hg & Hw). exists g. by rewrite Hw6. }
  assert (stage s s6 D T4 self_entries lim4 0) as Hst6.
  { assert (room - arrays_size n - NENV * SIZEOF_Env - PAGE_SIZE = 0) as Hroom0 by (unfold room; lia).
    rewrite Hroom0 in Hst5. eapply stage_ext; [exact Hst5|exact Hb6|exact Hw6|exact Hkh6|by rewrite Hf6|by rewrite Hf6]. }
  split; [done|by rewrite Hcr, (st_phys _ _ _ _ _ _ _ Hst5)|done|done| | | | |].
  - destruct Hkm as [Hkm1 Hkm2]. split; intros k Hk; apply Hm6; [exact (Hkm1 k Hk)|exact (Hkm2 k Hk)].
  - intros k Hk. apply Hm6, Hm5', He4; [by rewrite UENVS_page|done].
  - exists f. split; [done|]. by rewrite Hw6, Hdir5.
  - pose proof (bs_low _ _ _ _ _ _ _ (st_space _ _ _ _ _ _ _ Hst3)). pose proof (page_up_bounds lim3).
    pose proof (page_up_bounds e). change (NENV * SIZEOF_Env) with 1048040 in Hle4. unfold D, PAGE_SIZE in *. lia.
  - rewrite Hf6. apply Hk5, Hk4, Hi3.
Qed.

(** ** Translation *)
Lemma page_offset va o :
  va `mod` PAGE_SIZE = 0 → 0 ≤ o < PAGE_SIZE → 0 ≤ va < 2 ^ 32 →
  PDX (va + o) = PDX va ∧ PTX (va + o) = PTX va ∧ PGOFF (va + o) = o.
Proof using.
  intros Hm Ho Hv. assert (PPN (va + o) = PPN va) as HP.
  { rewrite !PPN_eq, !u32_small by (unfold is_u32, PAGE_SIZE in *; zdiv). unfold PAGE_SIZE in *. zdiv. }
  rewrite !PDX_PTX_PPN in HP. unfold NPTENTRIES in HP. pose proof (PTX_range va). pose proof (PTX_range (va + o)).
  split_and!; [lia|lia|]. unfold PGOFF. rewrite land_0xFFF, u32_small by (unfold is_u32, PAGE_SIZE in *; zdiv).
  unfold PAGE_SIZE in *. zdiv.
Qed.

Lemma mapped_mmu s D T V lim room va o p flags w :
  boot_space s D T V lim room → cr3 (hw s) = D * PAGE_SIZE → mapped s T va (p * PAGE_SIZE) flags →
  low_frame p → present flags → va `mod` PAGE_SIZE = 0 → 0 ≤ o < PAGE_SIZE → 0 ≤ va < 2 ^ 32 →
  mmu (mem (hw s)) (cr3 (hw s)) (va + o) w =
    if negb w || has_perm flags PERM_WRITEABLE then Some (p * PAGE_SIZE + o) else None.
Proof using Htop.
  intros Hb Hcr (f & Hf & Hw) Hp [Hfl Hpr] Hm Ho Hv. destruct (page_offset va o Hm Ho Hv) as (Hd & Ht & Hg).
  destruct (bs_entry_allows _ Htop _ _ _ _ _ _ _ _ Hb Hf) as [Hfr Hal].
  pose proof (bs_D_low _ Htop _ _ _ _ _ _ Hb) as [HD0 HD1]. pose proof (bs_table_low _ Htop _ _ _ _ _ _ _ _ Hb Hf).
  destruct Hp as [Hp0 Hp1]. unfold mmu. rewrite Hd, Ht, Hg, Hcr, frame_of_page by lia.
  change (mem (hw s) !!! word D (PDX va)) with (get_word s (word D (PDX va))). rewrite Hfr.
  change (mem (hw s) !!! word f (PTX va)) with (get_word s (word f (PTX va))). rewrite Hw.
  rewrite frame_of_plus by (done || lia). apply andb_true_iff in Hal as [H1 H2].
  unfold entry_allows. rewrite H1, !has_perm_plus, Hpr by (done || lia). cbn [negb orb] in H2. rewrite H2, orb_true_r. done.
Qed.

(** ** The address space of the booted kernel *)
Section Booted.
Context (s0 s : KState) (e bottom D : Z) (T : gmap Z Z) (lim P : Z).
Hypothesis Hbo : booted s0 s e bottom D T lim P.
Notation translate := (mmu (mem (hw s)) (cr3 (hw s))).

Let Hb := st_space _ _ _ _ _ _ _ (bo_stage _ _ _ _ _ _ _ _ Hbo).
Let Hcr := bo_root _ _ _ _ _ _ _ _ Hbo.

Lemma split_page a va :
  a `mod` PAGE_SIZE = 0 → a ≤ va →
  ∃ k o, va = a + k * PAGE_SIZE + o ∧ 0 ≤ k ∧ 0 ≤ o < PAGE_SIZE ∧ (a + k * PAGE_SIZE) `mod` PAGE_SIZE = 0.
Proof using.
  intros Ha Hva. exists ((va - a) / 4096), ((va - a) `mod` 4096). unfold PAGE_SIZE in *. split_and!; zdiv.
Qed.

Lemma booted_low p : 0 ≤ p → p * PAGE_SIZE < top + PAGE_SIZE → low_frame p.
Proof using Htop. unfold low_frame, PAGE_SIZE, KERNEL_HEAP_START, KERNEL_BASE in *. lia. Qed.

Lemma booted_kernel va w :
  KERNEL_BASE ≤ va < KERNEL_BASE + page_up lim * PAGE_SIZE → translate va w = Some (va - KERNEL_BASE).
Proof using Htop Hbo.
  intros Hva. destruct (split_page KERNEL_BASE va) as (k & o & -> & Hk & Ho & Hm); [done|lia|].
  pose proof (bs_lim _ _ _ _ _ _ _ Hb) as Hl. pose proof (page_up_bounds lim) as Hp.
  assert (k < page_up lim) as Hk' by (unfold PAGE_SIZE in *; lia).
  rewrite (mapped_mmu _ _ _ _ _ _ _ _ k table_flags w Hb Hcr (proj1 (bo_mapped _ _ _ _ _ _ _ _ Hbo) k (conj Hk Hk')));
    [|apply booted_low; unfold PAGE_SIZE in *; lia|apply table_flags_present|done|done|].
  - change (has_perm table_flags PERM_WRITEABLE) with true. rewrite orb_true_r. f_equal. lia.
  - unfold PAGE_SIZE, KERNEL_HEAP_START, KERNEL_BASE in *. lia.
Qed.
Lemma booted_stack va w :
  (bottom + 8) * PAGE_SIZE ≤ top → 0 ≤ bottom →
  KERNEL_STACK_TOP - KERNEL_STACK_SIZE ≤ va < KERNEL_STACK_TOP →
  translate va w = Some (bottom * PAGE_SIZE + (va - (KERNEL_STACK_TOP - KERNEL_STACK_SIZE))).
Proof using Htop Hbo.
  intros Hbt Hb0 Hva. set (a := KERNEL_STACK_TOP - KERNEL_STACK_SIZE) in *.
  destruct (split_page a va) as (k & o & -> & Hk & Ho & Hm); [done|lia|].
  change KERNEL_STACK_TOP with (a + 8 * PAGE_SIZE) in Hva.
  assert (k < 8) as Hk' by (unfold PAGE_SIZE in *; lia).
  rewrite (mapped_mmu _ _ _ _ _ _ _ _ (bottom + k) table_flags w Hb Hcr (proj2 (bo_mapped _ _ _ _ _ _ _ _ Hbo) k (conj Hk Hk')));
    [|apply booted_low; unfold PAGE_SIZE in *; lia|apply table_flags_present|done|done|].
  - change (has_perm table_flags PERM_WRITEABLE) with true. rewrite orb_true_r. f_equal. lia.
  - clear -Hk Hk' a. unfold a, PAGE_SIZE. change (KERNEL_STACK_TOP - KERNEL_STACK_SIZE) with 4022304768. lia.
Qed.
(** [envs] can be read but not written. *)
Lemma booted_envs o w :
  0 ≤ o < 256 * PAGE_SIZE → translate (UENVS + o) w = if w then None else Some (P * PAGE_SIZE + o).
Proof using Htop Hbo.
  intros Ho. destruct (split_page UENVS (UENVS + o)) as (k & o' & He & Hk & Ho' & Hm); [done|lia|].
  assert (k < 256) as Hk' by (unfold PAGE_SIZE in *; lia). rewrite He.
  pose proof (bo_P _ _ _ _ _ _ _ _ Hbo) as HP. pose proof (bs_lim _ _ _ _ _ _ _ Hb) as Hl.
  pose proof (bs_low _ _ _ _ _ _ _ Hb) as HD. pose proof (page_up_bounds e) as He'.
  rewrite (bo_D _ _ _ _ _ _ _ _ Hbo) in HD.
  rewrite (mapped_mmu _ _ _ _ _ _ _ _ (P + k) 5 w Hb Hcr (bo_envs _ _ _ _ _ _ _ _ Hbo k (conj Hk Hk')));
    [|apply booted_low; unfold PAGE_SIZE in *; lia|done|done|done|].
  - change (has_perm 5 PERM_WRITEABLE) with false. rewrite orb_false_r. destruct w; [done|]. cbn [negb]. f_equal. lia.
  - change UENVS with 4005560320 in *. unfold PAGE_SIZE in *. lia.
Qed.
Lemma booted_pde : frame_of (cr3 (hw s)) = D.
Proof using Htop Hbo.
  destruct (bs_D_low _ Htop _ _ _ _ _ _ Hb) as [? ?]. rewrite Hcr. apply frame_of_page. lia.
Qed.
Lemma booted_nothing va w : 0 ≤ va < UENVS → translate va w = None.
Proof using Htop Hbo.
  intros Hva. unfold mmu. rewrite booted_pde.
  change (mem (hw s) !!! word D (PDX va)) with (get_word s (word D (PDX va))).
  assert (0 ≤ PDX va < 955) as Hd.
  { split; [apply PDX_range|]. change UENVS with (955 * PTSIZE) in Hva. rewrite PDX_eq.
    rewrite u32_small by (unfold is_u32, PTSIZE, PAGE_SIZE, NPTENTRIES in *; lia). apply Z.div_lt_upper_bound; [done|lia]. }
  by rewrite (low_entries _ _ _ _ _ _ _ Hb) by done.
Qed.
(** The page tables as an array of 1024 pages, at VPT and at UVPT. *)
Lemma booted_listing base d f o :
  base = VPT ∨ base = UVPT → T !! d = Some f → 0 ≤ o < PAGE_SIZE →
  translate (base + d * PAGE_SIZE + o) false = Some (f * PAGE_SIZE + o).
Proof using Htop Hbo.
  intros Hbase Hd Ho. pose proof (boot_entry_range d (bs_dom_lookup _ _ _ _ _ _ _ _ _ Hb Hd)) as Hr.
  assert (PDX base ∈ self_entries ∧ base = PDX base * PTSIZE ∧ 957 ≤ PDX base ≤ 959) as (Hv & Hbv & Hvr).
  { destruct Hbase as [-> | ->]; rewrite self_entries_spec; [change (PDX VPT) with 959|change (PDX UVPT) with 957]; split_and!; (done || lia). }
  destruct (page_offset (base + d * PAGE_SIZE) o) as (Hpd & Hpt & Hg);
    [rewrite Hbv; unfold PTSIZE, PAGE_SIZE, NPTENTRIES; zdiv|done|rewrite Hbv; unfold PTSIZE, PAGE_SIZE, NPTENTRIES; lia|].
  assert (PDX (base + d * PAGE_SIZE) = PDX base ∧ PTX (base + d * PAGE_SIZE) = d) as [Hpd' Hpt'].
  { assert (PPN (base + d * PAGE_SIZE) = PDX base * 1024 + d) as HP.
    { rewrite PPN_eq, u32_small; rewrite Hbv at 1; unfold is_u32, PTSIZE, PAGE_SIZE, NPTENTRIES; [zdiv|lia]. }
    rewrite PDX_PTX_PPN in HP. unfold NPTENTRIES in HP. pose proof (PTX_range (base + d * PAGE_SIZE)). lia. }
  destruct (bs_entry_allows _ Htop _ _ _ _ _ _ _ _ Hb Hd) as [Hfr Hal].
  destruct (bs_D_low _ Htop _ _ _ _ _ _ Hb) as [HD0 HD1].
  unfold mmu. rewrite booted_pde, Hpd, Hpd', Hpt, Hpt', Hg.
  change (mem (hw s) !!! word D ?x) with (get_word s (word D x)).
  assert (frame_of (get_word s (word D (PDX base))) = D ∧ entry_allows (get_word s (word D (PDX base))) false = true) as [Hs1 Hs2].
  { destruct (bs_self _ _ _ _ _ _ _ Hb _ Hv) as [-> | ->]; (split; [by apply frame_of_plus; [lia|]|]);
      unfold entry_allows; rewrite !has_perm_plus by (done || lia); done. }
  rewrite Hs1, Hs2. change (mem (hw s) !!! word D d) with (get_word s (word D d)). rewrite Hfr.
  apply andb_true_iff in Hal as [H1 _]. unfold entry_allows. by rewrite H1.
Qed.

(** ** The kernel heap's starting point *)
Lemma booted_table d : heap_entry d → T !! d = Some (T !!! d).
Proof using Hbo.
  intros [Hd1 Hd2]. change (PDX KERNEL_HEAP_START) with 984 in Hd1.
  assert (d ∈ dom T) as [f Hf]%elem_of_dom.
  { rewrite (bo_dom _ _ _ _ _ _ _ _ Hbo), boot_entries_spec. lia. }
  by rewrite (lookup_total_correct _ _ _ Hf).
Qed.
Lemma booted_kpage f : 0 ≤ f → (f + 1) * PAGE_SIZE ≤ lim → kpage s (static f) f.
Proof using Htop Hbo.
  intros Hf Hl. pose proof (bs_lim _ _ _ _ _ _ _ Hb) as Hlt. pose proof (page_up_bounds lim).
  unfold kpage. split_and!; [|unfold static, PAGE_SIZE, KERNEL_BASE; zdiv|done|].
  - unfold is_u32, static, PAGE_SIZE, KERNEL_HEAP_START, KERNEL_BASE in *. lia.
  - rewrite booted_kernel; [unfold static; f_equal; lia|]. unfold static, PAGE_SIZE in *. lia.
Qed.
Lemma booted_walk f :
  0 ≤ f → (f + 1) * PAGE_SIZE ≤ lim →
  ∃ g, T !! (960 + f / 1024) = Some g ∧ 960 + f / 1024 < 984 ∧ walk_frames s (static f) = [D; g].
Proof using Htop Hbo.
  intros Hf Hl. pose proof (bs_lim _ _ _ _ _ _ _ Hb) as Hlt.
  assert (f < 24 * 1024) as Hf' by (unfold PAGE_SIZE, KERNEL_HEAP_START, KERNEL_BASE in *; lia).
  assert (960 + f / 1024 ∈ dom T) as [g Hg]%elem_of_dom.
  { rewrite (bo_dom _ _ _ _ _ _ _ _ Hbo), boot_entries_spec. zdiv. }
  exists g. split; [done|]. split; [zdiv|].
  assert (PDX (static f) = 960 + f / 1024) as Hp by (apply KERNEL_page; lia).
  unfold walk_frames, walk_of, walk, pte_word, pde_of, pde_word. cbn [fmap list_fmap]. rewrite booted_pde, Hp.
  change (mem (hw s) !!! word D ?x) with (get_word s (word D x)).
  change (mem (hw s) !!! word D (960 + f / 1024)) with (get_word s (word D (960 + f / 1024))).
  destruct (bs_entry_allows _ Htop _ _ _ _ _ _ _ _ Hb Hg) as [-> _]. unfold word.
  pose proof (PTX_range (static f)). rewrite !Z_div_mul_small by zdiv. done.
Qed.
Lemma booted_space : kernel_space s D (λ d, T !!! d).
Proof using Htop Hbo.
  pose proof (bs_lim _ _ _ _ _ _ _ Hb) as Hl. pose proof (bs_low _ _ _ _ _ _ _ Hb) as [HD HDl].
  pose proof (bs_top _ _ _ _ _ _ _ Hb) as Hn.
  assert (∀ d, heap_entry d → D < T !!! d ∧ (T !!! d + 1) * PAGE_SIZE ≤ lim) as Ht.
  { intros d Hd. by apply (bs_table _ _ _ _ _ _ _ Hb d), booted_table. }
  assert (∀ f d, 0 ≤ f → (f + 1) * PAGE_SIZE ≤ lim → heap_entry d → T !!! d ∉ walk_frames s (static f)) as Hwalk.
  { intros f d Hf Hfl Hd. destruct (booted_walk f Hf Hfl) as (g & Hg & Hlt & ->).
    rewrite !elem_of_cons, elem_of_nil. intros [He|[He|[]]].
    - destruct (Ht d Hd). lia.
    - pose proof (booted_table d Hd) as Hd'. rewrite He in Hd'.
      pose proof (bs_inj _ _ _ _ _ _ _ Hb _ _ _ Hd' Hg). destruct Hd as [Hd1 _].
      change (PDX KERNEL_HEAP_START) with 984 in Hd1. lia. }
  split.
  - apply (st_dir _ _ _ _ _ _ _ (bo_stage _ _ _ _ _ _ _ _ Hbo)).
  - intros d Hd. destruct (bs_entry_allows _ Htop _ _ _ _ _ _ _ _ Hb (booted_table d Hd)) as [Hf Ha].
    split; [done|]. by apply andb_true_iff in Ha as [? _].
  - intros d d' Hd Hd' He. pose proof (booted_table d Hd) as H1. pose proof (booted_table d' Hd') as H2. rewrite He in H1.
    by eapply (bs_inj _ _ _ _ _ _ _ Hb).
  - intros d Hd. destruct (Ht d Hd). unfold PAGE_SIZE, KERNEL_HEAP_START, KERNEL_BASE in *. lia.
  - apply booted_kpage; lia.
  - intros d Hd. destruct (Ht d Hd). apply booted_kpage; lia.
  - intros d Hd. apply Hwalk; [lia|lia|done].
  - intros d d' Hd Hd'. destruct (Ht d Hd). apply Hwalk; [lia|lia|done].
Qed.
(** The heap's tables are not cleared: their entries are what memory held. *)
Lemma booted_heap_entry va :
  heap_page va → heap_pte s (λ d, T !!! d) va = get_word s0 (word (T !!! PDX va) (PTX va)).
Proof using Htop Hbo.
  intros Hva. pose proof (heap_address_entry va (heap_page_address va Hva)) as Hd.
  pose proof (booted_table _ Hd) as Ht. pose proof (PTX_range va) as Hp.
  apply (st_words _ _ _ _ _ _ _ (bo_stage _ _ _ _ _ _ _ _ Hbo)). intros [(d & Hr & He)|(va' & Hlt & f & Hf & He)].
  - apply word_inj in He as [He _]; [|done|done]. pose proof (bs_table _ _ _ _ _ _ _ Hb _ _ Ht). lia.
  - apply word_inj in He as [He _]; [|done|apply PTX_range]. rewrite He in Ht.
    pose proof (bs_inj _ _ _ _ _ _ _ Hb _ _ _ Ht Hf). destruct Hd as [Hd1 _].
    change (PDX KERNEL_HEAP_START) with 984 in Hd1. lia.
Qed.
End Booted.
End Stage.

(** ** initialize_paging after initialize_kernel_VM *)
(** Writing frames that hold no table leaves the kernel's address space. *)
Lemma kernel_space_writes fs s s' D T :
  writes_only fs s s' → kernel_space s D T → D ∉ fs → (∀ d, heap_entry d → T d ∉ fs) →
  clear_of fs s (static D) → (∀ d, heap_entry d → clear_of fs s (static (T d))) → kernel_space s' D T.
Proof.
  intros Hw [K1 K2 K3 K4 K5 K6 K7 K8] HD HT HcD HcT. pose proof Hw as [[m ->] Hk].
  assert (∀ a, clear_of fs s a → walk_frames (on_hw (set_mem m) s) a = walk_frames s a) as Hwk.
  { intros a Ha. unfold walk_frames. by rewrite (proj1 (writes_only_walk _ _ _ _ Hw Ha)). }
  split; try done.
  - intros d Hd. rewrite Hk; [by apply K2|]. intros f i Hf Hi [-> _]%word_inj; [done| |done].
    destruct Hd as [Hd1 Hd2]. change (PDX KERNEL_HEAP_START) with 984 in Hd1. lia.
  - by eapply writes_only_kpage.
  - intros d Hd. eapply writes_only_kpage; [done|by apply HcT|by apply K6].
  - intros d Hd. rewrite Hwk by done. by apply K7.
  - intros d d' Hd Hd'. rewrite Hwk by (by apply HcT). by apply K8.
Qed.

Section Paging.
Context (top : Z) (Htop : top ≤ KERNEL_HEAP_START - KERNEL_BASE).
Context (s0 s : KState) (e bottom D : Z) (T : gmap Z Z) (lim P : Z).
Hypothesis Hbo : booted top s0 s e bottom D T lim P.
Hypothesis He : PHYS_EXTENDED_MEM ≤ e.
Hypothesis Hwords : words_ok s0.

Let Hb := st_space _ _ _ _ _ _ _ _ (bo_stage _ _ _ _ _ _ _ _ _ Hbo).
Lemma paging_D : 256 ≤ D ∧ (D + 1) * PAGE_SIZE ≤ lim.
Proof using Hbo He.
  pose proof (bs_low _ _ _ _ _ _ _ Hb) as [_ H2]. pose proof (page_up_bounds e).
  rewrite (bo_D _ _ _ _ _ _ _ _ _ Hbo) in *. unfold PHYS_EXTENDED_MEM, PAGE_SIZE in *. lia.
Qed.
Lemma paging_table d f : T !! d = Some f → 256 < f ∧ (f + 1) * PAGE_SIZE ≤ lim.
Proof using Hbo He. intros Hf. pose proof (bs_table _ _ _ _ _ _ _ Hb d f Hf). pose proof paging_D. lia. Qed.

Lemma paging_clear f : 0 ≤ f → (f + 1) * PAGE_SIZE ≤ lim → clear_of [1; 2] s (static f).
Proof using Hbo He Htop.
  intros Hf Hl g i Hg Hi. apply walk_frames_word; [|done].
  destruct (booted_walk top Htop _ _ _ _ _ _ _ _ Hbo f Hf Hl) as (h & Hh & _ & ->).
  pose proof (paging_table _ _ Hh). pose proof paging_D.
  rewrite !elem_of_cons, elem_of_nil in *. lia.
Qed.
Lemma booted_pages : boot_pages s.
Proof using Hbo He Htop Hwords.
  pose proof paging_D as [HD Hl]. unfold PAGE_SIZE in Hl.
  assert ((1 + 1) * PAGE_SIZE ≤ lim ∧ (2 + 1) * PAGE_SIZE ≤ lim) as [H1 H2] by (unfold PAGE_SIZE; lia).
  unfold boot_pages. change ZERO_PAGE with (static 1). change TEMP_PAGE with (static 2).
  split_and!; [by eapply booted_kpage|by eapply booted_kpage|by apply paging_clear|by apply paging_clear|].
  by apply (st_base _ _ _ _ _ _ _ _ (bo_stage _ _ _ _ _ _ _ _ _ Hbo)).
Qed.
Lemma booted_range_end : range_end s = page_up lim ∧ page_up lim ≤ number_of_frames (frames s).
Proof using Hbo Htop.
  pose proof (bs_lim _ _ _ _ _ _ _ Hb) as Hl. pose proof (bs_top _ _ _ _ _ _ _ Hb) as Hn. split.
  - unfold range_end. rewrite (bs_free _ _ _ _ _ _ _ Hb).
    replace (KERNEL_BASE + lim - KERNEL_BASE) with lim by lia.
    assert (lim < 2 ^ 27) as Hl' by (unfold KERNEL_HEAP_START, KERNEL_BASE in *; lia). clear -Hl Hl'.
    unfold ROUNDUP, ROUNDDOWN, page_up, PAGE_SIZE, u32. zdiv.
  - unfold page_up, PAGE_SIZE in *. zdiv.
Qed.

Lemma booted_paging (disk : K unit) :
  ∃ s' m, initialize_paging disk s = disk s' ∧ (paging_keeps s s' ∧ paging_sets s s') ∧ kernel_space s' D (λ d, T !!! d) ∧
    allocator s' (reverse (seqZ 3 157 ++ seqZ (page_up lim) (number_of_frames (frames s) - page_up lim)), m) ∧
    ∀ f, m !!! f = boot_references (page_up lim) f.
Proof using Hbo He Htop Hwords.
  pose proof booted_range_end as [Hre Hle]. pose proof paging_D as [HD Hl]. pose proof (bs_lim _ _ _ _ _ _ _ Hb) as Hlim.
  destruct (start_paging_spec s (bo_info _ _ _ _ _ _ _ _ _ Hbo) booted_pages)
    as (s1 & m1 & Hs1 & Ha1 & Hm1 & Hn1 & [Hf1 Hk1] & Hset).
  assert (range_end s1 = range_end s) as Hre1 by (unfold range_end; by rewrite Hf1).
  rewrite (bs_free _ _ _ _ _ _ _ Hb) in Hf1.
  destruct (mark_ranges_spec disk s1 m1 Ha1 Hm1) as (s2 & m2 & Hs2 & (h & l & ->) & Ha2 & Hm2).
  { rewrite Hf1. unfold PHYS_EXTENDED_MEM, PAGE_SIZE in *. lia. }
  { rewrite Hf1. unfold is_u32, KERNEL_HEAP_START, KERNEL_BASE in *. lia. }
  { by rewrite Hre1, Hre, Hn1. }
  rewrite Hre1, Hre, Hn1 in *. destruct Hk1 as ([Hkh Henv] & Hpd & Hhw & Hn & Hw).
  exists (with_free h l s1), m2. rewrite initialize_paging_eq. mstep Hs1.
  split; [exact Hs2|]. split; [split; [split_and!; [exact Hkh|exact Henv|exact Hpd|exact Hhw|exact Hn|exact Hw]|exact Hset]|].
  split; [|split; [exact Ha2|exact Hm2]].
  apply (kernel_space_same (on_hw (set_mem (mem (hw s1))) s)); [by rewrite Hhw|exact Hn|exact Hpd|].
  apply (kernel_space_writes [1; 2] s).
  - split; [by eexists|]. intros j Hj. by apply Hw.
  - by eapply booted_space.
  - rewrite !elem_of_cons, elem_of_nil. lia.
  - intros d Hd. pose proof (paging_table d _ (booted_table _ _ _ _ _ _ _ _ _ Hbo d Hd)).
    rewrite !elem_of_cons, elem_of_nil. lia.
  - apply paging_clear; lia.
  - intros d Hd. pose proof (paging_table d _ (booted_table _ _ _ _ _ _ _ _ _ Hbo d Hd)). apply paging_clear; lia.
Qed.

(** How the processor reaches the heap after that: through tables that are not among the free frames. *)
Lemma booted_way (F : list Z) s' f :
  (∀ f, f ∈ F → 3 ≤ f < 160 ∨ page_up lim ≤ f) → paging_keeps s s' → 0 ≤ f → (f + 1) * PAGE_SIZE ≤ lim →
  reached_apart F s' (static f).
Proof using Hbo He Htop.
  intros HF (_ & _ & Hhw & _ & Hw) Hf Hl g Hg.
  assert (writes_only [1; 2] s (on_hw (set_mem (mem (hw s'))) s)) as Hwr.
  { split; [by eexists|]. intros j Hj. by apply Hw. }
  pose proof (paging_clear f Hf Hl) as Hc. destruct (writes_only_walk _ _ _ _ Hwr Hc) as [Hwalk _].
  assert (walk_frames s' (static f) = walk_frames s (static f)) as ->.
  { unfold walk_frames. rewrite <-Hwalk. unfold walk_of. by rewrite Hhw. }
  destruct (booted_walk top Htop _ _ _ _ _ _ _ _ Hbo f Hf Hl) as (h & Hh & _ & ->).
  pose proof (paging_table _ _ Hh). pose proof paging_D. pose proof (page_up_bounds lim). pose proof (HF g Hg).
  rewrite !elem_of_cons, elem_of_nil. unfold PAGE_SIZE in *. lia.
Qed.
Lemma booted_heap_reached (F : list Z) s' :
  (∀ f, f ∈ F → 3 ≤ f < 160 ∨ page_up lim ≤ f) → paging_keeps s s' → (∀ j, is_u32 (get_word s' j)) →
  heap_reached D (λ d, T !!! d) F s'.
Proof using Hbo He Htop.
  intros HF Hk Hu. pose proof Hk as (_ & _ & Hhw & _ & Hw). pose proof paging_D as [HD HDl]. pose proof (page_up_bounds lim) as Hp.
  assert (∀ d, heap_entry d → 256 < T !!! d ∧ (T !!! d + 1) * PAGE_SIZE ≤ lim) as HT.
  { intros d Hd. eapply paging_table. by eapply booted_table. }
  split.
  - exact Hu.
  - rewrite Hhw. by eapply booted_pde.
  - intros d Hd. rewrite Hw.
    + destruct (bs_entry_allows _ Htop _ _ _ _ _ _ _ _ Hb (booted_table _ _ _ _ _ _ _ _ _ Hbo d Hd)) as [_ Ha].
      by apply andb_true_iff in Ha as [_ ?].
    + intros f i Hf Hi [<- _]%word_inj; [|by apply heap_entry_bounds|done]. rewrite !elem_of_cons, elem_of_nil in Hf. lia.
  - intros Hin%HF. unfold PAGE_SIZE in *. lia.
  - intros d Hd Hin%HF. pose proof (HT d Hd). unfold PAGE_SIZE in *. lia.
  - apply booted_way; (done || lia).
  - intros d Hd. pose proof (HT d Hd). apply booted_way; (done || lia).
Qed.
End Paging.

(** ** Properties *)
(** A kernel image that ends at physical address [e], above the first megabyte, with its stack in
    it, and memory for what boot allocates, in the machine and below the kernel heap. *)
Record boot_fits (s : KState) (e bottom : Z) : Prop := {
  bf_free : free_from s e;
  bf_image : PHYS_EXTENDED_MEM ≤ e;
  bf_stack : 0 ≤ bottom ∧ (bottom + 8) * PAGE_SIZE ≤ e;
  bf_frames : 0 ≤ number_of_frames (frames s) ≤ 2 ^ 20;
  bf_room : e + boot_needs (number_of_frames (frames s)) ≤
            Z.min (number_of_frames (frames s) * PAGE_SIZE) (KERNEL_HEAP_START - KERNEL_BASE);
}.
Definition memory_top (s : KState) (e : Z) : Z := e + boot_needs (number_of_frames (frames s)).
Lemma boot_fits_top s e bottom : boot_fits s e bottom → memory_top s e ≤ KERNEL_HEAP_START - KERNEL_BASE.
Proof. intros [_ _ _ _ H]. unfold memory_top. lia. Qed.
Lemma boot_needs_pos n : 0 ≤ n → 0 ≤ boot_needs n.
Proof.
  intros. unfold boot_needs, arrays_size, SIZEOF_Frame_Info. change PAGES_PER_FILE with 133120.
  change (NENV * SIZEOF_Env) with 1048040. unfold PAGE_SIZE. lia.
Qed.
Lemma boot_fits_booted s e bottom :
  boot_fits s e bottom →
  ∃ s' T lim P, initialize_kernel_VM (static bottom) s = Ret tt s' ∧
    booted (memory_top s e) s s' e bottom (page_up e) T lim P.
Proof.
  intros Hfit. pose proof (boot_fits_top _ _ _ Hfit) as Htop. destruct Hfit as [H1 H2 [H3 H3'] H4 H5].
  pose proof (boot_needs_pos (number_of_frames (frames s)) (proj1 H4)).
  apply initialize_kernel_VM_booted; try done; unfold memory_top; [unfold PHYS_EXTENDED_MEM, PAGE_SIZE in *; lia|lia|lia].
Qed.

(** C6: initialize_kernel_VM, when memory has room below the kernel heap for what it allocates,
    returns, its self-check passed, with paging on and this address space: the kernel's image and
    what boot allocated at KERNEL_BASE, its stack below KERNEL_STACK_TOP, [envs] at UENVS for reading
    only, each page table readable at VPT and at UVPT, and nothing below UENVS; the entries of the
    kernel heap's pages are whatever memory held before. *)
Theorem initialize_kernel_VM_builds s e bottom :
  boot_fits s e bottom →
  ∃ s' (T : gmap Z Z) lim P, initialize_kernel_VM (static bottom) s = Ret tt s' ∧
    let translate := mmu (mem (hw s')) (cr3 (hw s')) in
    (ptr_free_mem (boot s') = KERNEL_BASE + lim ∧ e < lim ≤ memory_top s e ∧ e < P * PAGE_SIZE) ∧
    (∀ va w, KERNEL_BASE ≤ va < KERNEL_BASE + page_up lim * PAGE_SIZE → translate va w = Some (va - KERNEL_BASE)) ∧
    (∀ va w, KERNEL_STACK_TOP - KERNEL_STACK_SIZE ≤ va < KERNEL_STACK_TOP →
       translate va w = Some (bottom * PAGE_SIZE + (va - (KERNEL_STACK_TOP - KERNEL_STACK_SIZE)))) ∧
    (∀ o w, 0 ≤ o < NENV * SIZEOF_Env → translate (UENVS + o) w = if w then None else Some (P * PAGE_SIZE + o)) ∧
    (∀ va w, 0 ≤ va < UENVS → translate va w = None) ∧
    (dom T = boot_entries ∧ ∀ base d f o, base = VPT ∨ base = UVPT → T !! d = Some f → 0 ≤ o < PAGE_SIZE →
       translate (base + d * PAGE_SIZE + o) false = Some (f * PAGE_SIZE + o)) ∧
    ∀ va, heap_page va → heap_pte s' (λ d, T !!! d) va = get_word s (word (T !!! PDX va) (PTX va)).
Proof.
  intros Hfit. pose proof Hfit as [_ Hi [Hb0 Hbe] _ _]. destruct (boot_fits_booted s e bottom Hfit) as (s' & T & lim & P & Hr & Hbo).
  pose proof (boot_fits_top _ _ _ Hfit) as Htop. pose proof (st_space _ _ _ _ _ _ _ _ (bo_stage _ _ _ _ _ _ _ _ _ Hbo)) as Hb.
  pose proof (bs_lim _ _ _ _ _ _ _ Hb) as Hl. pose proof (bs_low _ _ _ _ _ _ _ Hb) as HD. pose proof (page_up_bounds e).
  exists s', T, lim, P. split; [exact Hr|]. split_and!.
  - apply Hb.
  - unfold PAGE_SIZE in *. lia.
  - lia.
  - apply (bo_P _ _ _ _ _ _ _ _ _ Hbo).
  - intros va w. by apply (booted_kernel _ Htop _ _ _ _ _ _ _ _ Hbo).
  - intros va w. apply (booted_stack _ Htop _ _ _ _ _ _ _ _ Hbo); [|done].
    pose proof (bf_frames _ _ _ Hfit) as [Hn0 _]. pose proof (boot_needs_pos _ Hn0) as Hpos. unfold memory_top. lia.
  - intros o w Ho. change (NENV * SIZEOF_Env) with 1048040 in Ho.
    apply (booted_envs _ Htop _ _ _ _ _ _ _ _ Hbo). unfold PAGE_SIZE. lia.
  - intros va w. apply (booted_nothing _ Htop _ _ _ _ _ _ _ _ Hbo).
  - apply (bo_dom _ _ _ _ _ _ _ _ _ Hbo).
  - intros base d f o. apply (booted_listing _ Htop _ _ _ _ _ _ _ _ Hbo).
  - intros va. apply (booted_heap_entry _ Htop _ _ _ _ _ _ _ _ Hbo).
Qed.

(** The kernel heap as boot leaves it: reached by the processor through its 40 tables, the allocator
    at [a], its variables those of the image, no frame waiting to be written out.  The entries of its
    pages are not cleared: each is a word that memory held behind the image, which ends at [e]. *)
Record heap_from_boot (s s' : KState) (e D : Z) (T : Z → Z) (a : astate) : Prop := {
  hb_space : kernel_space s' D T;
  hb_alloc : allocator s' a;
  hb_counts : counts_ok a;
  hb_frames f : f ∈ a.1 → 0 ≤ f < 2 ^ 20 ∧ f < number_of_frames (frames s');
  hb_reached : heap_reached D T a.1 s';
  hb_entries va : heap_page va → ∃ j, e ≤ 4 * j ∧ heap_pte s' T va = get_word s j;
  hb_kheap : kheap s' = kheap s;
  hb_modified : modified_frame_list (frames s') = MkListHead None None 0;
  hb_end : end_of_kernel (boot s') = end_of_kernel (boot s);
}.
(** When no word behind the image has the present bit, as when that memory is zero, no page of the
    heap is mapped: the heap is ready for kmalloc. *)
Definition nothing_present (s : KState) (e : Z) : Prop :=
  ∀ j, e ≤ 4 * j → has_perm (get_word s j) PERM_PRESENT = false.
Lemma heap_from_boot_ready s s' e D T a :
  heap_from_boot s s' e D T a → firstFreeVAInKHeap (kheap s) = KERNEL_HEAP_START → nothing_present s e →
  heap_ready s' D T a.
Proof.
  intros [H1 H2 H3 H4 _ H6 H7 _ _] Hf Hn. split; try done.
  - by rewrite H7, Hf.
  - intros va Hva _. destruct (H6 va Hva) as (j & Hj & ->). by apply Hn.
Qed.

(** initialize_kernel_VM followed by initialize_paging: the kernel's address space with its 40 heap
    tables, and a frame allocator whose free frames are those of base memory from 3 on and those
    behind what boot allocated, the others with one reference. *)
Lemma boot_makes_kernel_heap disk s e bottom :
  boot_fits s e bottom → words_ok s →
  ∃ s' D T lim m, (initialize_kernel_VM (static bottom);; initialize_paging disk) s = disk s' ∧
    e < lim ≤ memory_top s e ∧
    heap_from_boot s s' e D T (reverse (seqZ 3 157 ++ seqZ (page_up lim) (number_of_frames (frames s) - page_up lim)), m) ∧
    (∀ f, m !!! f = boot_references (page_up lim) f) ∧
    env_free_list (environments s') = env_free_list (environments s) ∧
    number_of_frames (frames s') = number_of_frames (frames s).
Proof.
  intros Hfit Hw. pose proof Hfit as [_ Hi _ Hn _]. destruct (boot_fits_booted s e bottom Hfit) as (s1 & T & lim & P & Hr & Hbo).
  pose proof (boot_fits_top _ _ _ Hfit) as Htop. pose proof (bo_stage _ _ _ _ _ _ _ _ _ Hbo) as Hst.
  pose proof (st_space _ _ _ _ _ _ _ _ Hst) as Hb. destruct (st_base _ _ _ _ _ _ _ _ Hst) as (Hnf & _ & [= Hkh Hel] & _).
  pose proof (bs_lim _ _ _ _ _ _ _ Hb) as Hl. pose proof (bs_low _ _ _ _ _ _ _ Hb) as HD. pose proof (page_up_bounds e).
  destruct (booted_paging _ Htop _ _ _ _ _ _ _ _ Hbo Hi Hw disk) as (s2 & m & Hs2 & [Hkeep Hset] & Hks & Ha & Hm).
  pose proof Hkeep as ([Hkh2 He2] & _ & _ & Hnf2 & Hw2). pose proof Hset as (Hmod & Hend & _).
  rewrite Hnf in *. exists s2, (page_up e), (λ d, T !!! d), lim, m. split; [by mstep Hr|].
  split; [unfold PAGE_SIZE in *; lia|]. split; [|split; [exact Hm|split; [by rewrite He2|exact Hnf2]]].
  split.
  - exact Hks.
  - exact Ha.
  - intros f. cbn [snd]. rewrite Hm. unfold boot_references. by case_match.
  - intros f. cbn [fst]. rewrite elem_of_reverse, elem_of_app, !elem_of_seqZ.
    pose proof (booted_range_end _ Htop _ _ _ _ _ _ _ _ Hbo) as [_ Hle]. rewrite Hnf in Hle.
    pose proof (page_up_bounds lim). unfold PHYS_EXTENDED_MEM, PAGE_SIZE in *. lia.
  - eapply (booted_heap_reached _ Htop); [exact Hbo|exact Hi| |exact Hkeep|].
    + intros f. cbn [fst]. rewrite elem_of_reverse, elem_of_app, !elem_of_seqZ. lia.
    + eapply paging_words; [exact Hkeep|exact Hset|]. by apply (st_base _ _ _ _ _ _ _ _ Hst).
  - intros va Hva. pose proof (heap_address_entry va (heap_page_address va Hva)) as Hd.
    pose proof (booted_table _ _ _ _ _ _ _ _ _ Hbo _ Hd) as Ht.
    pose proof (paging_table _ _ _ _ _ _ _ _ _ Hbo Hi _ _ Ht) as [Hlt _]. pose proof (PTX_range va).
    exists (word (T !!! PDX va) (PTX va)). split.
    + pose proof (bs_table _ _ _ _ _ _ _ Hb _ _ Ht). unfold word, PAGE_SIZE in *. lia.
    + transitivity (heap_pte s1 (λ d, T !!! d) va); [|by apply (booted_heap_entry _ Htop _ _ _ _ _ _ _ _ Hbo)].
      apply Hw2. intros f i Hf Hi' [He _]%word_inj; [|done|done]. rewrite !elem_of_cons, elem_of_nil in Hf. lia.
  - by rewrite Hkh2, Hkh.
  - exact Hmod.
  - rewrite Hend. apply (st_base _ _ _ _ _ _ _ _ Hst).
Qed.

(** ** Witnesses *)
(** 32 MB of memory, the kernel image up to 0x130000 with its stack at 0x120000, and a word of the
    memory behind it that holds 7. *)
Definition power_on : KState :=
  on_kheap (set_firstFreeVAInKHeap KERNEL_HEAP_START)
    (on_frames (set_number_of_frames 8192)
      (on_boot (set_end_of_kernel (KERNEL_BASE + 0x130000)) (inhabitant : KState))).
Lemma power_on_fits : boot_fits power_on 0x130000 0x120.
Proof. split; [by right|..]; by vm_compute. Qed.

Lemma initialize_kernel_VM_builds_witness :
  ∃ s', initialize_kernel_VM (static 0x120) power_on = Ret tt s' ∧
    mmu (mem (hw s')) (cr3 (hw s')) (KERNEL_BASE + 0x100000) true = Some 0x100000 ∧
    mmu (mem (hw s')) (cr3 (hw s')) (KERNEL_STACK_TOP - 4) true = Some 0x127FFC ∧
    mmu (mem (hw s')) (cr3 (hw s')) 0x1000 false = None.
Proof.
  destruct (initialize_kernel_VM_builds power_on 0x130000 0x120 power_on_fits)
    as (s' & T & lim & P & Hr & (_ & Hl & _) & Hk & Hs & _ & Hn & _).
  exists s'. split; [exact Hr|]. pose proof (page_up_bounds lim) as Hp. split; [|split].
  - rewrite Hk; [reflexivity|]. unfold PAGE_SIZE in *. lia.
  - rewrite Hs; [reflexivity|]. clear. split; vm_compute; congruence.
  - apply Hn. clear. split; vm_compute; congruence.
Defined.
