(* ===== verification/Link.v ===== *)
(** * Tying the knot

    The functions that call each other through a cycle (State.v, [Extern]) with a bound on the
    depth of the nesting: [kernel n] is the kernel whose recursive calls may nest [n] deep; at
    depth 0 a recursive call runs out of fuel.  A theorem that holds for every instance of
    [Extern], as those of the components do, holds at every depth: no recursive call is made
    on the paths it describes. *)
From S2P Require Import Prelude Machine Queue State PageFlags FrameAlloc Paging KHeap PageFile WorkingSet Fault.

Definition no_fuel : Extern := {|
  x_kmalloc := λ _ _, OutOfFuel;
  x_fault_handler := λ _, OutOfFuel;
  x_pf_read_env_table := λ _ _ _ _, OutOfFuel;
  x_pf_write_env_table := λ _ _ _ _, OutOfFuel;
|}.
Definition one_level (X : Extern) : Extern := {|
  x_kmalloc := @kmalloc X;
  x_fault_handler := @fault_handler X;
  x_pf_read_env_table := @__pf_read_env_table;
  x_pf_write_env_table := @__pf_write_env_table X;
|}.
Fixpoint kernel (n : nat) : Extern :=
  match n with O => no_fuel | Datatypes.S n => one_level (kernel n) end.
