(* ===== verification/LinkSpec.v ===== *)
(** * The components together

    With the recursive calls of Link.v in place: creating a page table takes a page of the kernel
    heap, and what it leaves is the setting the mapping theorems of PagingSpec.v start from. *)
From S2P Require Import Prelude Machine Queue State AddressSpace PageFlags FrameAlloc FrameAllocSpec Paging PagingSpec KHeap KHeapSpec PageFile WorkingSet Fault Link.

(** The running address space shares the kernel heap's table for the next heap page [first]; the
    directory [dir], in frame [df], is reached without the frame [f] and that table. *)
Record table_setting (s : KState) (T : Z → Z) (first dir df f : Z) : Prop := {
  ts_pde : let pde := get_word s (word (frame_of (cr3 (hw s))) (PDX first)) in
           entry_allows pde true = true ∧ frame_of pde = T (PDX first);
  ts_root : frame_of (cr3 (hw s)) ≠ f ∧ frame_of (cr3 (hw s)) ≠ T (PDX first);
  ts_table : T (PDX first) ≠ f;
  ts_dir : kpage s dir df;
  ts_walk : reached_apart [f; T (PDX first)] s dir;
  ts_dir_frame : df ≠ f ∧ df ≠ T (PDX first);
}.

Section Table.
Context `{Extern} (D : Z) (T : Z → Z).

(** What is left of kernel pages when the heap has grown by the page at [first]. *)
Lemma grown_touches s s1 first f :
  pages_mapped T first [f] s s1 → touches [T (PDX first)] s (on_hw (set_mem (mem (hw s1))) s) ∧
  cr3 (hw s1) = cr3 (hw s).
Proof.
  intros [Hfp _ Ho _ _]. destruct Hfp as (Hhw & _). split; [|by rewrite Hhw].
  unfold touches. split_and!; try done. intros j Hj. unfold get_word. cbn. apply Ho.
  intros k Hk. cbn in Hk. assert (k = 0%nat) as -> by lia. cbn. rewrite Z.add_0_r.
  apply Hj; [by left|apply PTX_range].
Qed.
Lemma grown_kpage s s1 first f a g :
  pages_mapped T first [f] s s1 → reached_apart [T (PDX first)] s a → kpage s a g → kpage s1 a g.
Proof.
  intros Hpm Ha Hp. destruct (grown_touches _ _ _ _ Hpm) as [Ht Hcr].
  pose proof (touches_kpage _ _ _ Ht a g Ha Hp) as Hk. unfold kpage in *. by rewrite Hcr.
Qed.
Lemma grown_reached s s1 first f fs a :
  pages_mapped T first [f] s s1 → reached_apart [T (PDX first)] s a → reached_apart fs s a → reached_apart fs s1 a.
Proof.
  intros Hpm Ha Hp. destruct (grown_touches _ _ _ _ Hpm) as [Ht Hcr].
  pose proof (touches_reached _ _ _ Ht fs a Ha Hp) as Hk.
  unfold reached_apart, walk_frames, walk_of in *. by rewrite Hcr.
Qed.

Lemma grown_walk s s1 first f a :
  pages_mapped T first [f] s s1 → reached_apart [T (PDX first)] s a → walk_of s1 a = walk_of s a.
Proof.
  intros Hpm Ha. destruct (grown_touches _ _ _ _ Hpm) as [Ht Hcr].
  destruct (touches_walk _ _ _ Ht a Ha) as [Hw _]. unfold walk_of in *. by rewrite Hcr.
Qed.

(** The new heap page is accessible at its address. *)
Lemma new_page_accessible s s1 first f dir df :
  table_setting s T first dir df f → pages_mapped T first [f] s s1 → heap_page first → 0 ≤ f < 2 ^ 20 →
  kpage s1 first f ∧ reached_apart [f] s1 first ∧
  walk_of s1 first = [word (frame_of (cr3 (hw s))) (PDX first); word (T (PDX first)) (PTX first)].
Proof.
  intros [[Hal Hfr] [HR HRT] HT _ _ _] Hpm [[Hf1 Hf2] Hm] Hf. destruct (grown_touches _ _ _ _ Hpm) as [_ Hcr].
  assert (get_word s1 (word (frame_of (cr3 (hw s))) (PDX first)) = get_word s (word (frame_of (cr3 (hw s))) (PDX first))) as Hpde.
  { apply (pm_other _ _ _ _ _ Hpm). intros k Hk. cbn in Hk. assert (k = 0%nat) as -> by lia.
    cbn. rewrite Z.add_0_r. unfold entry_word. intros [? _]%word_inj; [done|apply PDX_range|apply PTX_range]. }
  destruct (pm_entry _ _ _ _ _ Hpm 0%nat f eq_refl) as [He _]. cbn in He. rewrite Z.add_0_r in He.
  unfold heap_pte, pte in He.
  assert (pde_word (cr3 (hw s1)) first = word (frame_of (cr3 (hw s))) (PDX first)) as H1 by (unfold pde_word; by rewrite Hcr).
  assert (pte_word (mem (hw s1)) (cr3 (hw s1)) first = word (T (PDX first)) (PTX first)) as H2.
  { unfold pte_word, pde_of. rewrite H1. fold (get_word s1 (word (frame_of (cr3 (hw s))) (PDX first))). by rewrite Hpde, Hfr. }
  split; [|split; [|unfold walk_of, walk; by rewrite H1, H2]].
  - unfold kpage. split_and!; [unfold is_u32, KERNEL_HEAP_START, KERNEL_HEAP_MAX in *; lia..|done|lia|].
    rewrite mmu_walk, H2. unfold pde_of. rewrite H1.
    fold (get_word s1 (word (frame_of (cr3 (hw s))) (PDX first))) (get_word s1 (word (T (PDX first)) (PTX first))).
    rewrite Hpde, Hal, He.
    assert (entry_allows (entry_for f HEAP_PERM) true = true) as ->
      by (unfold entry_allows; rewrite !has_perm_entry_for by done; by vm_compute).
    rewrite frame_of_entry_for by done. cbn [andb]. do 2 f_equal. unfold PGOFF. rewrite land_0xFFF.
    rewrite u32_small by (unfold is_u32, KERNEL_HEAP_START, KERNEL_HEAP_MAX in *; lia).
    unfold PAGE_SIZE in *. by rewrite Hm, Z.add_0_r.
  - intros g Hg. apply list_elem_of_singleton in Hg as ->. unfold walk_frames, walk_of, walk.
    rewrite H1, H2. cbn. unfold word. pose proof (PTX_range first). pose proof (PDX_range first).
    rewrite !Z_div_mul_small by lia. rewrite !not_elem_of_cons. repeat split; [congruence..|apply not_elem_of_nil].
Qed.
End Table.

(** The directory entry create_page_table writes. *)
Definition TABLE_PERM : Z := Z.lor PERM_USER PERM_WRITEABLE.
Lemma table_entry_eq f :
  0 ≤ f < 2 ^ 20 →
  Z.lor (Z.lor (Z.lor (Z.land (f * PAGE_SIZE) 0xFFFFF000) PERM_USER) PERM_WRITEABLE) PERM_PRESENT =
  entry_for f TABLE_PERM.
Proof.
  intros Hf. unfold entry_for, CONSTRUCT_ENTRY, TABLE_PERM. rewrite to_physical_address_eq by done.
  assert (is_u32 (f * PAGE_SIZE)) as Hu by (unfold is_u32, PAGE_SIZE; lia).
  assert (Z.land (f * PAGE_SIZE) 0xFFFFF000 = f * PAGE_SIZE) as ->; [|by rewrite !Z.lor_assoc].
  change 0xFFFFF000 with (not32 0xFFF). rewrite <-(u32_small _ Hu) at 1. fold (EXTRACT_ADDRESS (f * PAGE_SIZE)).
  rewrite EXTRACT_ADDRESS_eq, u32_small by done. by rewrite Z.div_mul.
Qed.
Lemma user_PDX_heap va first : 0 ≤ va < USER_TOP → heap_page first → PDX va ≠ PDX first.
Proof.
  intros Hva [[Hf1 Hf2] _]. rewrite !PDX_eq.
  rewrite !u32_small by (unfold is_u32, KERNEL_HEAP_MAX, KERNEL_HEAP_START in *; change USER_TOP with 0xEEC00000 in Hva; lia).
  change USER_TOP with 0xEEC00000 in Hva. change PTSIZE with 4194304.
  unfold KERNEL_HEAP_START in *. zdiv.
Qed.
Lemma user_not_kernel va : 0 ≤ va < USER_TOP → CHECK_IF_KERNEL_ADDRESS va = false.
Proof.
  intros Hva. unfold CHECK_IF_KERNEL_ADDRESS. change USER_TOP with 0xEEC00000 in *.
  rewrite u32_small by (unfold is_u32; lia). apply andb_false_iff. left. apply Z.leb_gt. lia.
Qed.

Section Create.
Context (D : Z) (T : Z → Z) (n : nat).

Lemma create_page_table_spec s dir df va f xs m :
  let first := firstFreeVAInKHeap (kheap s) in
  heap_ready s D T (f :: xs, m) → 0 ≤ idx (kheap s) < KHEAP_ENTRIES → first + PAGE_SIZE < KERNEL_HEAP_MAX →
  table_setting s T first dir df f → 0 ≤ va < USER_TOP → word df (PDX va) ∉ walk_of s dir →
  ∃ s', create_page_table (H := kernel (Datatypes.S n)) dir va s = Ret first s' ∧
    has_table s' dir va first df f ∧ (∀ i, 0 ≤ i < 1024 → get_word s' (word f i) = 0) ∧
    get_word s' (word df (PDX va)) = entry_for f TABLE_PERM ∧
    allocator s' (xs, <[f := 1]> m) ∧ environments s' = environments s ∧
    ∀ w, w ≠ word df (PDX va) → w ≠ entry_word T first → (∀ i, 0 ≤ i < 1024 → w ≠ word f i) →
      get_word s' w = get_word s w.
Proof.
  intros first Hr Hi Hroom Hts Hva Hdirw.
  assert (0 ≤ f < 2 ^ 20) as Hf by (apply (hr_frames _ _ _ _ Hr); by left).
  assert (heap_page first) as Hfirst.
  { destruct (hr_first _ _ _ _ Hr) as [[? ?] ?]. split; [unfold PAGE_SIZE in *; unfold first; lia|done]. }
  assert (kpages PAGE_SIZE = 1) as Hkp by (by vm_compute).
  destruct (@kmalloc_spec (kernel n) D T s PAGE_SIZE [f] xs m Hr) as (s1 & Hs1 & Hpm & Hk & Ha);
    [by rewrite Hkp|done|rewrite Hkp; unfold PAGE_SIZE in *; lia|]. rewrite Hkp in Hs1. fold first in Hs1, Hpm.
  set (s2 := recorded (idx (kheap s)) first 1 s1) in *.
  destruct (new_page_accessible T s s1 first f dir df Hts Hpm Hfirst Hf) as (Hpg & Hre & Hwalk).
  assert (reached_apart [T (PDX first)] s dir) as Hdt
    by (intros x ->%list_elem_of_singleton; apply (ts_walk _ _ _ _ _ _ Hts); in_list).
  assert (kpage s1 dir df) as Hdir by (eapply grown_kpage; [done|done|apply (ts_dir _ _ _ _ _ _ Hts)]).
  assert (reached_apart [f] s1 dir) as Hdf
    by (eapply grown_reached; [done|done|]; intros x ->%list_elem_of_singleton; apply (ts_walk _ _ _ _ _ _ Hts); in_list).
  destruct (pm_entry _ _ _ _ _ Hpm 0%nat f eq_refl) as [He Hrev]. cbn in He, Hrev. rewrite Z.add_0_r in He, Hrev.
  assert (kheap_physical_address (H := kernel (Datatypes.S n)) first s2 = Ret (f * PAGE_SIZE) s2) as Hphys.
  { rewrite (kheap_physical_address_spec s2 D T).
    - change (heap_pte s2 T first) with (heap_pte s1 T first). by rewrite He, frame_of_entry_for.
    - by eapply kernel_space_same; [..|exact Hk].
    - by apply heap_page_address.
    - change (heap_pte s2 T first) with (heap_pte s1 T first). rewrite He. by apply entry_for_u32. }
  destruct (memset0_kpage s2 first f 1024) as (s3 & Hs3 & Hw3 & Hz3 & _);
    [exact Hpg|by apply reached_apart_clear|lia|].
  assert (kpage s3 dir df) as Hdir3 by (eapply writes_only_kpage; [done|by apply reached_apart_clear|exact Hdir]).
  pose proof Hts as [_ [HR HRT] HT _ _ [Hdff HdfT]].
  assert (word df (PDX va) ∉ walk_of s3 dir) as Hw1.
  { destruct (writes_only_walk [f] s2 s3 dir Hw3) as [-> _]; [by apply reached_apart_clear|].
    change (walk_of s2 dir) with (walk_of s1 dir). by rewrite (grown_walk T s s1 first f dir). }
  assert (word df (PDX va) ∉ walk_of s3 first) as Hw2.
  { destruct (writes_only_walk [f] s2 s3 first Hw3) as [-> _]; [by apply reached_apart_clear|].
    change (walk_of s2 first) with (walk_of s1 first). rewrite Hwalk, !not_elem_of_cons.
    pose proof (PDX_range va). pose proof (PDX_range first). pose proof (PTX_range first).
    split_and!; [|by intros [? _]%word_inj|apply not_elem_of_nil].
    intros [_ ?]%word_inj; [|done..]. by apply (user_PDX_heap va first). }
  assert (frames s3 = frames s1 ∧ kheap s3 = kheap s2 ∧ environments s3 = environments s) as (Hfr3 & Hkh3 & He3).
  { destruct Hw3 as [[? ->] _]. destruct (pm_footprint _ _ _ _ _ Hpm) as (_ & _ & _ & _ & Hev & _). done. }
  set (s4 := put_word (word df (PDX va)) (entry_for f TABLE_PERM) s3).
  exists s4. split_and!.
  - unfold create_page_table. change (x_kmalloc PAGE_SIZE) with (@kmalloc (kernel n) PAGE_SIZE).
    mstep Hs1. rewrite (proj2 (Z.eqb_neq _ _)) by (destruct Hfirst as [[? ?] _]; unfold KERNEL_HEAP_START in *; lia).
    mstep Hphys. unfold memset0 in Hs3. mstep Hs3. rewrite table_entry_eq by done.
    mstep (store_kpage s3 dir df Hdir3 (PDX va) (entry_for f TABLE_PERM) (PDX_range va)).
    rewrite u32_small by (by apply entry_for_u32). done.
  - split.
    + by apply kpage_put.
    + unfold s4. rewrite get_put_eq. by apply entry_for_present.
    + unfold s4. rewrite get_put_eq. unfold table_address. rewrite user_not_kernel by done. cbn [negb].
      unfold kheap_virtual_address, gets. f_equal. rewrite EXTRACT_frame_of, frame_of_entry_for by done.
      rewrite u32_small by (unfold is_u32, PAGE_SIZE; lia). rewrite Z.div_mul by done.
      change (kheap (put_word _ _ s3)) with (kheap s3). rewrite Hkh3. exact Hrev.
    + apply kpage_put; [|exact Hw2].
      eapply writes_only_kpage; [done|by apply reached_apart_clear|exact Hpg].
    + destruct Hfirst as [[? ?] _]; unfold KERNEL_HEAP_START in *; lia.
  - intros i Hi'. unfold s4. rewrite get_put_ne; [by apply Hz3|]. intros [? _]%word_inj; [done|apply PDX_range|done].
  - apply get_put_eq.
  - eapply allocator_frames; [|exact Ha]. exact Hfr3.
  - exact He3.
  - intros w Hwd Hwt Hwf. unfold s4. rewrite get_put_ne by done. destruct Hw3 as [_ Hw3]. rewrite Hw3.
    + change (get_word s2 w) with (get_word s1 w). apply (pm_other _ _ _ _ _ Hpm).
      intros k Hk'. cbn in Hk'. assert (k = 0%nat) as -> by lia. cbn. by rewrite Z.add_0_r.
    + intros g i ->%list_elem_of_singleton. apply Hwf.
Qed.

Lemma get_page_table_absent X s dir df va :
  kpage s dir df → 0 ≤ va < USER_TOP → get_word s (word df (PDX va)) = 0 →
  get_page_table (H := X) dir va s = Ret (TABLE_NOT_EXIST, 0) s.
Proof.
  intros Hd Hva Hz. unfold get_page_table. mstep (load_kpage s dir df Hd (PDX va) (PDX_range va)).
  rewrite Hz. unfold table_address. rewrite user_not_kernel by done. cbn [negb].
  unfold kheap_virtual_address. by rewrite bind_gets.
Qed.
End Create.

(** C21: map_frame at a user address that has no page table: a frame is taken for the table, which
    the kernel heap maps at its next page and clears; the directory entry it gets makes the
    hardware translate the page of [va] to the given frame, no other page of the same 4 MB is
    mapped, the frame gains a reference, and every word outside the directory entry, the heap's
    entry and the new table is kept. *)
Theorem map_frame_builds_table D T n s dir df root va f g perm xs m r a' :
  let first := firstFreeVAInKHeap (kheap s) in
  heap_ready s D T (f :: xs, m) → 0 ≤ idx (kheap s) < KHEAP_ENTRIES → first + PAGE_SIZE < KERNEL_HEAP_MAX →
  table_setting s T first dir df f → 0 ≤ va < USER_TOP → word df (PDX va) ∉ walk_of s dir →
  get_word s (word df (PDX va)) = 0 → frame_of root = df →
  0 ≤ g < 2 ^ 20 → 0 ≤ perm < PAGE_SIZE → counts_ok (xs, <[f := 1]> m) →
  fspec (FRetain g) (xs, <[f := 1]> m) = Some (r, a') →
  ∃ s', map_frame (H := kernel (Datatypes.S n)) dir g va perm s = Ret 0 s' ∧ allocator s' a' ∧
    mmu (mem (hw s')) root va false = Some (g * PAGE_SIZE + PGOFF va) ∧
    (∀ va', PDX va' = PDX va → PTX va' ≠ PTX va → mmu (mem (hw s')) root va' false = None) ∧
    ∀ w, w ≠ word df (PDX va) → w ≠ entry_word T first → (∀ i, 0 ≤ i < 1024 → w ≠ word f i) →
      get_word s' w = get_word s w.
Proof.
  intros first Hr Hi Hroom Hts Hva Hw Hz Hroot Hg Hperm Hc Hop.
  destruct (create_page_table_spec D T n s dir df va f xs m Hr Hi Hroom Hts Hva Hw)
    as (s1 & Hs1 & Ht & Hzero & Hde & Ha & _ & Ho). fold first in Hs1, Ht, Ho.
  assert (0 ≤ f < 2 ^ 20) as Hf by (apply (hr_frames _ _ _ _ Hr); by left).
  destruct (map_frame_store (H := kernel (Datatypes.S n)) dir va first df f s1 s1 g perm _ r a' Ht
    ltac:(by left) Hg Hperm Ha Hc Hop) as (s2 & Hs2 & Ha2 & Hu).
  assert (df ≠ f) as Hdf by apply (ts_dir_frame _ _ _ _ _ _ Hts).
  assert (get_word s2 (word df (PDX va)) = entry_for f TABLE_PERM) as Hde2.
  { rewrite <-Hde. eapply entry_update_other; [done|]. intros [? _]%word_inj; [done|apply PDX_range|apply PTX_range]. }
  assert (pte s1 va f = 0) as Hpte by (apply Hzero, PTX_range).
  exists s2. split_and!; [|done|..].
  - unfold map_frame, get_or_create_table. rewrite bind_assoc.
    mstep (get_page_table_absent (kernel (Datatypes.S n)) s dir df va (ts_dir _ _ _ _ _ _ Hts) Hva Hz).
    cbn [Z.eqb TABLE_NOT_EXIST Pos.eqb]. mstep Hs1.
    mstep (load_entry s1 dir va first df f Ht). rewrite Hpte, has_perm_zero by done. exact Hs2.
  - rewrite (mmu_entry s2 root df va f), Hde2, (entry_update_pte _ _ _ _ _ Hu);
      [|done|by rewrite Hde2, frame_of_entry_for].
    by rewrite !entry_for_present, frame_of_entry_for.
  - intros va' Hd Hp. rewrite (mmu_entry s2 root df va' f); [|done|by rewrite Hd, Hde2, frame_of_entry_for].
    assert (get_word s2 (word f (PTX va')) = 0) as Hz'.
    { rewrite (entry_update_other _ _ _ _ _ _ Hu); [apply Hzero, PTX_range|].
      intros [_ ?]%word_inj; [done|apply PTX_range..]. }
    unfold pte. rewrite Hz'. by rewrite has_perm_zero, andb_false_r by done.
  - intros w Hwd Hwt Hwf. rewrite (entry_update_other _ _ _ _ _ _ Hu); [by apply Ho|].
    apply Hwf, PTX_range.
Qed.

(** ** Witness *)

(** Frame 7 at address 8 MB; the table goes to frame 5, at the first page of the kernel heap. *)
Lemma heap_state_setting : table_setting heap_state heap_tables KERNEL_HEAP_START (static 300) 300 5.
Proof.
  split.
  - by vm_compute.
  - by vm_compute.
  - by vm_compute.
  - apply heap_state_kpage. lia.
  - intros x Hx. rewrite heap_state_walk by lia. change (heap_tables (PDX KERNEL_HEAP_START)) with 302 in Hx.
    rewrite !elem_of_cons, elem_of_nil in *. lia.
  - by vm_compute.
Qed.
Lemma one_table_counts : counts_ok ([4; 3], <[5 := 1]> ∅).
Proof.
  intros f. cbn. destruct (decide (5 = f)) as [<-|]; [by vm_compute|].
  by rewrite lookup_total_insert_ne, zero_array.
Qed.
Lemma map_frame_builds_table_witness :
  ∃ s', map_frame (H := kernel 1) (static 300) 7 0x800123 2 heap_state = Ret 0 s' ∧
    mmu (mem (hw s')) (300 * PAGE_SIZE) 0x800123 false = Some (7 * PAGE_SIZE + 0x123) ∧
    allocator s' ([4; 3], <[7 := 1]> (<[5 := 1]> ∅)).
Proof.
  destruct (map_frame_builds_table 300 heap_tables 0 heap_state (static 300) 300 (300 * PAGE_SIZE) 0x800123
    5 7 2 [4; 3] ∅ None ([4; 3], <[7 := 1]> (<[5 := 1]> ∅))) as (s' & Hs' & Ha' & Hm & _);
    [exact heap_state_ready|by vm_compute|by vm_compute|exact heap_state_setting|by vm_compute| |by vm_compute
    |by vm_compute|lia|unfold PAGE_SIZE; lia|exact one_table_counts|vm_compute; reflexivity|].
  - apply (bool_decide_unpack _). vm_compute. exact I.
  - exists s'. split_and!; [exact Hs'|exact Hm|exact Ha'].
Defined.
