(* ===== verification/Hoare.v ===== *)
(** * Hoare triples for kernel code

    [hoare P m Q R]: from a state in [P] the code [m] returns in [Q], and if it panics, faults or
    leaves the kernel it does so in [R].  [changes Rel m]: whatever way [m] ends, its final state
    is related to the initial one; for a preorder this is closed under the constructs of the
    monad, which is what the tactic [changes] uses. *)
From S2P Require Import Prelude.

Section Hoare.
Context {S : Type}.
Implicit Types (P : S → Prop).

Definition hoare {A} P (m : M S A) (Q : A → S → Prop) (R : S → Prop) : Prop :=
  ∀ s, P s → match m s with
             | Ret a s' => Q a s'
             | Panic _ s' | Crash _ s' | Leave _ s' => R s'
             | OutOfFuel => True
             end.

Lemma hoare_conseq {A} P P' (m : M S A) (Q Q' : A → S → Prop) (R R' : S → Prop) :
  hoare P m Q R → (∀ s, P' s → P s) → (∀ a s, Q a s → Q' a s) → (∀ s, R s → R' s) →
  hoare P' m Q' R'.
Proof. intros Hm HP HQ HR s Hs. specialize (Hm s (HP s Hs)). destruct (m s); auto. Qed.
Lemma hoare_post {A} P (m : M S A) (Q Q' : A → S → Prop) R :
  hoare P m Q R → (∀ a s, Q a s → Q' a s) → hoare P m Q' R.
Proof. intros Hm HQ. by apply (hoare_conseq P P m Q Q' R R). Qed.
Lemma hoare_pre {A} P P' (m : M S A) (Q : A → S → Prop) R :
  hoare P m Q R → (∀ s, P' s → P s) → hoare P' m Q R.
Proof. intros Hm HP. by apply (hoare_conseq P P' m Q Q R R). Qed.
(** Facts that do not depend on the state move out of the precondition. *)
Lemma hoare_pure {A} (φ : Prop) P (m : M S A) (Q : A → S → Prop) R :
  (φ → hoare P m Q R) → hoare (λ s, φ ∧ P s) m Q R.
Proof. intros Hm s [Hφ Hs]. by apply (Hm Hφ s). Qed.
Lemma hoare_exist {A B} (P : B → S → Prop) (m : M S A) (Q : A → S → Prop) R :
  (∀ b, hoare (P b) m Q R) → hoare (λ s, ∃ b, P b s) m Q R.
Proof. intros Hm s [b Hs]. by apply (Hm b s). Qed.

Lemma hoare_ret {A} (a : A) P (Q : A → S → Prop) R : (∀ s, P s → Q a s) → hoare P (mret a) Q R.
Proof. done. Qed.
Lemma hoare_bind {A B} P (m : M S A) (f : A → M S B) Q' (Q : B → S → Prop) R :
  hoare P m Q' R → (∀ a, hoare (Q' a) (f a) Q R) → hoare P (m ≫= f) Q R.
Proof.
  intros Hm Hf s Hs. specialize (Hm s Hs). unfold mbind, M_bind. destruct (m s); [|done..].
  by apply Hf.
Qed.
Lemma hoare_bind_ret {A B} (a : A) (f : A → M S B) P (Q : B → S → Prop) R :
  hoare P (f a) Q R → hoare P (mret a ≫= f) Q R.
Proof. done. Qed.
Lemma hoare_bind_undefined {A B} what (f : A → M S B) P (Q : B → S → Prop) (R : S → Prop) :
  (∀ s, P s → R s) → hoare P (undefined what ≫= f) Q R.
Proof. intros HR s Hs. by apply HR. Qed.
Lemma hoare_gets {A B} (g : S → A) (f : A → M S B) P (Q : B → S → Prop) R :
  (∀ a, hoare (λ s, P s ∧ g s = a) (f a) Q R) → hoare P (gets g ≫= f) Q R.
Proof. intros Hf s Hs. rewrite bind_gets. by apply (Hf (g s) s). Qed.
Lemma hoare_modify (g : S → S) P (Q : unit → S → Prop) R :
  (∀ s, P s → Q tt (g s)) → hoare P (modify g) Q R.
Proof. done. Qed.
Lemma hoare_when b (m : M S unit) P (Q : unit → S → Prop) R :
  (b = true → hoare P m Q R) → (∀ s, b = false → P s → Q tt s) → hoare P (when b m) Q R.
Proof. intros Hm Hq. destruct b; [by apply Hm|]. intros s Hs. by apply Hq. Qed.

Lemma hoare_mloop {A B} (I : A → S → Prop) (body : A → M S (A + B)) fuel a (Q : B → S → Prop) R :
  (∀ a, hoare (I a) (body a) (λ r, match r with inl a' => I a' | inr b => Q b end) R) →
  hoare (I a) (mloop fuel body a) Q R.
Proof.
  intros Hb. revert a. induction fuel as [|n IH]; intros a; [done|]. cbn.
  eapply hoare_bind; [apply Hb|]. intros [a'|b]; [apply IH|by apply hoare_ret].
Qed.
Lemma hoare_forM {A} (I : S → Prop) (xs : list A) (f : A → M S unit) R :
  (∀ x, hoare I (f x) (λ _, I) R) → hoare I (forM xs f) (λ _, I) R.
Proof.
  intros Hf. induction xs as [|x xs IH]; [by apply hoare_ret|]. cbn.
  eapply hoare_bind; [apply Hf|]. intros x0; apply IH.
Qed.

(** The state in which the code stops. *)
Definition final {A} (o : outcome S A) : option S :=
  match o with
  | Ret _ s | Panic _ s | Crash _ s | Leave _ s => Some s
  | OutOfFuel => None
  end.
Lemma hoare_final {A} P (m : M S A) R s s' :
  hoare P m (λ _, R) R → P s → final (m s) = Some s' → R s'.
Proof. intros Hm Hs. specialize (Hm s Hs). destruct (m s); naive_solver. Qed.
End Hoare.

(** ** Code that only changes the state along a preorder *)
Section Changes.
Context {S : Type} (Rel : relation S) `{!PreOrder Rel}.

Definition changes {A} (m : M S A) : Prop :=
  ∀ s s', final (m s) = Some s' → Rel s s'.

Lemma changes_hoare {A} (P : S → Prop) (m : M S A) :
  (∀ s s', Rel s s' → P s → P s') → changes m → hoare P m (λ _, P) P.
Proof using.
  intros HP Hm s Hs. specialize (Hm s). destruct (m s); cbn in *; eauto.
Qed.

Lemma changes_ret {A} (a : A) : changes (mret a).
Proof using All. by intros s s' [= ->]. Qed.
Lemma changes_bind {A B} (m : M S A) (f : A → M S B) :
  changes m → (∀ a, changes (f a)) → changes (m ≫= f).
Proof using All.
  intros Hm Hf s s'. specialize (Hm s). unfold mbind, M_bind. destruct (m s) as [a s1| | | |]; auto.
  intros Hs. etrans; [by apply Hm|]. by eapply Hf.
Qed.
Lemma changes_gets {A} (g : S → A) : changes (gets g).
Proof using All. by intros s s' [= ->]. Qed.
Lemma changes_modify (g : S → S) : (∀ s, Rel s (g s)) → changes (modify g).
Proof using. by intros Hg s s' [= <-]. Qed.
Lemma changes_panic {A} msg : changes (@panic S A msg).
Proof using All. by intros s s' [= ->]. Qed.
Lemma changes_undefined {A} msg : changes (@undefined S A msg).
Proof using All. by intros s s' [= ->]. Qed.
Lemma changes_assert b msg : changes (@assert_ S b msg).
Proof using All. destruct b; [apply changes_ret|apply changes_panic]. Qed.
Lemma changes_read_local {A} what (x : option A) : changes (@read_local S A what x).
Proof using All. destruct x; [apply changes_ret|apply changes_undefined]. Qed.
Lemma changes_when b (m : M S unit) : changes m → changes (when b m).
Proof using All. intros. destruct b; [done|apply changes_ret]. Qed.
Lemma changes_out_of_fuel {A} : changes (λ _, @OutOfFuel S A).
Proof using. done. Qed.
Lemma changes_mloop {A B} fuel (body : A → M S (A + B)) a :
  (∀ a, changes (body a)) → changes (mloop fuel body a).
Proof using All.
  intros Hb. revert a. induction fuel as [|n IH]; intros a; [done|]. cbn.
  apply changes_bind; [done|]. intros [a'|b]; [apply IH|apply changes_ret].
Qed.
Lemma changes_forM {A} (xs : list A) (f : A → M S unit) :
  (∀ x, changes (f x)) → changes (forM xs f).
Proof using All.
  intros Hf. induction xs as [|x xs IH]; [apply changes_ret|]. cbn. by apply changes_bind.
Qed.
End Changes.

Create HintDb changes.
#[export] Hint Resolve changes_ret changes_gets changes_panic changes_undefined changes_assert
  changes_read_local changes_out_of_fuel : changes.

(** Follow the code; what is left are the operations without a lemma in the database. *)
Ltac changes_step :=
  match goal with
  | |- forall _, _ => intros ?
  | |- changes _ _ => solve [eauto with changes typeclass_instances]
  | |- changes _ (_ ≫= _) => apply changes_bind; [apply _| |]
  | |- changes _ (when _ _) => apply changes_when; [apply _|]
  | |- changes _ (forM _ _) => apply changes_forM; [apply _|]
  | |- changes _ (mloop _ _ _) => apply changes_mloop; [apply _|]
  | |- changes _ (match ?x with _ => _ end) => destruct x
  | |- changes _ ((match ?x with _ => _ end) _) => destruct x
  | |- changes _ _ => progress cbv beta zeta
  end.
Ltac changes := repeat changes_step.
