(* ===== verification/Quiet.v ===== *)
(** * Code that leaves the life cycle of environments alone

    The life cycle of an environment is its status and its place on the free list or a queue of
    the scheduler ([same_life]).  Memory management does not touch it: every operation of the
    frame allocator, the page tables, the kernel heap, the page file, the working sets and the
    fault handler is [quiet], whatever way it ends.  The functions called through [Extern] are
    assumed to be, and are in the kernel that Link.v assembles. *)
From S2P Require Import Prelude Machine Queue State PageFlags FrameAlloc Paging KHeap PageFile WorkingSet Fault UserEnv Link Hoare.

Definition life_fields (x : Env) : Z * option Z * option Z := (env_status x, env_next x, env_prev x).
Definition queues (r : Sched) : ListHead * ListHead * ListHead * option Z :=
  (env_ready_queue r, env_new_queue r, env_exit_queue r, sched_next r).
Definition same_life (s s' : KState) : Prop :=
  env_free_list (environments s') = env_free_list (environments s) ∧
  queues (sched s') = queues (sched s) ∧
  ∀ e, life_fields (envs (environments s') !!! e) = life_fields (envs (environments s) !!! e).
#[export] Instance same_life_preorder : PreOrder same_life.
Proof.
  split; [done|]. intros s1 s2 s3 (Hf1 & Hq1 & He1) (Hf2 & Hq2 & He2).
  split_and!; [congruence..|]. intros e. by rewrite He2.
Qed.

Notation quiet := (changes same_life).

Lemma quiet_modify (g : KState → KState) :
  (∀ s, environments (g s) = environments s ∧ sched (g s) = sched s) → quiet (modify g).
Proof. intros Hg. apply changes_modify. intros s. destruct (Hg s) as [He Hs]. unfold same_life. by rewrite He, Hs. Qed.
Lemma quiet_upd_env e g : (∀ x, life_fields (g x) = life_fields x) → quiet (upd_env e g).
Proof.
  intros Hg. apply changes_modify. intros s. split_and!; [done..|]. intros z. cbn.
  destruct (decide (e = z)) as [<-|]; [by rewrite array_get_set_eq|by rewrite array_get_set_ne].
Qed.
#[export] Hint Extern 1 (quiet (modify _)) => apply quiet_modify; intros s; split; reflexivity : changes.
#[export] Hint Extern 1 (quiet (upd_env _ _)) => apply quiet_upd_env; intros x; reflexivity : changes.

(** Unfold one definition and follow it. *)
Tactic Notation "quiet_def" reference(f) := intros; unfold f; changes.

(** ** Memory, frames *)
Lemma fault_quiet {A} va : quiet (@fault A va).
Proof. by intros s s' [= ->]. Qed.
#[export] Hint Resolve fault_quiet : changes.
Lemma load_quiet va : quiet (load va). Proof. quiet_def load. Qed.
Lemma store_quiet va v : quiet (store va v). Proof. quiet_def store. Qed.
#[export] Hint Resolve load_quiet store_quiet : changes.
Lemma load_at_quiet a i : quiet (load_at a i). Proof. quiet_def load_at. Qed.
Lemma store_at_quiet a i v : quiet (store_at a i v). Proof. quiet_def store_at. Qed.
Lemma load8_quiet va : quiet (load8 va). Proof. quiet_def load8. Qed.
Lemma store8_quiet va b : quiet (store8 va b). Proof. quiet_def store8. Qed.
#[export] Hint Resolve load_at_quiet store_at_quiet load8_quiet store8_quiet : changes.
Lemma lcr2_quiet v : quiet (lcr2 v). Proof. quiet_def lcr2. Qed.
Lemma lcr3_quiet v : quiet (lcr3 v). Proof. quiet_def lcr3. Qed.
Lemma rcr2_quiet : quiet rcr2. Proof. quiet_def rcr2. Qed.
Lemma rcr3_quiet : quiet rcr3. Proof. quiet_def rcr3. Qed.
Lemma tlbflush_quiet : quiet tlbflush. Proof. quiet_def tlbflush. Qed.
#[export] Hint Resolve lcr2_quiet lcr3_quiet rcr2_quiet rcr3_quiet tlbflush_quiet : changes.
Lemma memset0_quiet va n : quiet (memset0 va n). Proof. quiet_def memset0. Qed.
Lemma get_frame_quiet f : quiet (get_frame f). Proof. quiet_def get_frame. Qed.
Lemma put_frame_quiet f x : quiet (put_frame f x). Proof. quiet_def put_frame. Qed.
Lemma upd_frame_quiet f g : quiet (upd_frame f g).
Proof. intros. unfold upd_frame, get_frame, put_frame. changes. Qed.
Lemma get_env_quiet e : quiet (get_env e). Proof. quiet_def get_env. Qed.
Lemma curenv_ptr_quiet : quiet curenv_ptr. Proof. quiet_def curenv_ptr. Qed.
Lemma to_frame_info_quiet pa : quiet (to_frame_info pa). Proof. quiet_def to_frame_info. Qed.
Lemma static_pa_quiet kva : quiet (STATIC_KERNEL_PHYSICAL_ADDRESS kva).
Proof. quiet_def STATIC_KERNEL_PHYSICAL_ADDRESS. Qed.
Lemma static_va_quiet pa : quiet (STATIC_KERNEL_VIRTUAL_ADDRESS pa).
Proof. quiet_def STATIC_KERNEL_VIRTUAL_ADDRESS. Qed.
#[export] Hint Resolve memset0_quiet get_frame_quiet put_frame_quiet upd_frame_quiet get_env_quiet
  curenv_ptr_quiet to_frame_info_quiet static_pa_quiet static_va_quiet : changes.

(** The functions called through a cycle of the call graph. *)
Class QuietExtern (X : Extern) : Prop := {
  x_kmalloc_quiet size : quiet (x_kmalloc size);
  x_fault_handler_quiet : quiet x_fault_handler;
  x_pf_read_env_table_quiet e va t : quiet (x_pf_read_env_table e va t);
  x_pf_write_env_table_quiet e va t : quiet (x_pf_write_env_table e va t);
}.
#[export] Hint Resolve x_kmalloc_quiet x_fault_handler_quiet x_pf_read_env_table_quiet
  x_pf_write_env_table_quiet : changes.

Lemma table_address_quiet va pde : quiet (table_address va pde).
Proof. intros. unfold table_address, kheap_virtual_address. changes. Qed.
Lemma kheap_virtual_address_quiet pa : quiet (kheap_virtual_address pa).
Proof. quiet_def kheap_virtual_address. Qed.
Lemma update_entry_quiet t i g : quiet (update_entry t i g). Proof. quiet_def update_entry. Qed.
Lemma free_frame_quiet f : quiet (free_frame f).
Proof. intros. unfold free_frame, initialize_frame_info, on_free_list. changes. Qed.
#[export] Hint Resolve table_address_quiet kheap_virtual_address_quiet update_entry_quiet
  free_frame_quiet : changes.

Section QuietKernel.
Context {X : Extern} {QX : QuietExtern X}.

(** ** Flags, frames, page tables *)
Lemma pd_is_table_used_quiet e va : quiet (pd_is_table_used e va). Proof. quiet_def pd_is_table_used. Qed.
Lemma pd_set_table_unused_quiet e va : quiet (pd_set_table_unused e va).
Proof. intros. unfold pd_set_table_unused, tlb_invalidate. changes. Qed.
Lemma pt_set_page_permissions_quiet e va p1 p2 : quiet (pt_set_page_permissions e va p1 p2).
Proof using QX. intros. unfold pt_set_page_permissions, tlb_invalidate. changes. Qed.
Lemma pt_clear_page_table_entry_quiet e va : quiet (pt_clear_page_table_entry e va).
Proof using QX. intros. unfold pt_clear_page_table_entry, tlb_invalidate. changes. Qed.
Lemma pt_get_page_permissions_quiet e va : quiet (pt_get_page_permissions e va).
Proof using QX. quiet_def pt_get_page_permissions. Qed.
End QuietKernel.
#[export] Hint Resolve pd_is_table_used_quiet pd_set_table_unused_quiet pt_set_page_permissions_quiet
  pt_clear_page_table_entry_quiet pt_get_page_permissions_quiet : changes.

Section QuietFrames.
Context {X : Extern} {QX : QuietExtern X}.

Lemma initialize_frame_info_quiet f : quiet (initialize_frame_info f).
Proof. quiet_def initialize_frame_info. Qed.
Lemma allocate_frame_quiet : quiet allocate_frame.
Proof using QX. intros. unfold allocate_frame, on_free_list, initialize_frame_info. changes. Qed.
Lemma decrement_references_quiet f : quiet (decrement_references f).
Proof. quiet_def decrement_references. Qed.
Lemma increment_references_quiet f : quiet (increment_references f).
Proof. quiet_def increment_references. Qed.
Lemma bufferlist_remove_page_quiet f : quiet (bufferlist_remove_page f).
Proof. intros. unfold bufferlist_remove_page, on_modified_list. changes. Qed.
Lemma list_foreach_quiet {E} `{LinkedNode E} (h : KState → gmap Z E) fuel first f :
  (∀ x, quiet (f x)) → quiet (list_foreach h fuel first f).
Proof. intros. unfold list_foreach. changes. Qed.
Lemma list_loop_quiet {E} `{LinkedNode E} {A B} (h : KState → gmap Z E) fuel first (a : A) f (fin : A → B) :
  (∀ a x, quiet (f a x)) → quiet (list_loop h fuel first a f fin).
Proof. intros. unfold list_loop. changes. Qed.
#[local] Hint Extern 2 (quiet (list_foreach _ _ _ _)) => apply list_foreach_quiet; changes : changes.
#[local] Hint Extern 2 (quiet (list_loop _ _ _ _ _ _)) => apply list_loop_quiet; changes : changes.
Lemma foreach_frame_quiet first f : (∀ x, quiet (f x)) → quiet (foreach_frame first f).
Proof.
  intros. unfold foreach_frame, frame_fuel. changes.
Qed.
Lemma count_frames_quiet first p : quiet (count_frames first p).
Proof.
  unfold count_frames, frame_fuel. changes.
Qed.
End QuietFrames.
#[export] Hint Resolve initialize_frame_info_quiet allocate_frame_quiet decrement_references_quiet
  increment_references_quiet bufferlist_remove_page_quiet count_frames_quiet : changes.
#[export] Hint Extern 2 (quiet (list_foreach _ _ _ _)) => apply list_foreach_quiet; changes : changes.
#[export] Hint Extern 2 (quiet (list_loop _ _ _ _ _ _)) => apply list_loop_quiet; changes : changes.
#[export] Hint Extern 2 (quiet (foreach_frame _ _)) => apply foreach_frame_quiet; changes : changes.
Lemma calculate_available_frames_quiet : quiet calculate_available_frames.
Proof. quiet_def calculate_available_frames. Qed.
#[export] Hint Resolve calculate_available_frames_quiet : changes.

Section QuietPaging.
Context {X : Extern} {QX : QuietExtern X}.

Lemma get_page_table_quiet d va : quiet (get_page_table d va).
Proof using QX. intros. unfold get_page_table, lcr2. changes. Qed.
#[local] Hint Resolve get_page_table_quiet : changes.
Lemma kheap_physical_address_quiet va : quiet (kheap_physical_address va).
Proof using QX. quiet_def kheap_physical_address. Qed.
#[local] Hint Resolve kheap_physical_address_quiet : changes.
Lemma create_page_table_quiet d va : quiet (create_page_table d va).
Proof using QX. quiet_def create_page_table. Qed.
#[local] Hint Resolve create_page_table_quiet : changes.
Lemma get_or_create_table_quiet d va : quiet (get_or_create_table d va).
Proof using QX. quiet_def get_or_create_table. Qed.
Lemma get_frame_info_quiet d va : quiet (get_frame_info d va).
Proof using QX. quiet_def get_frame_info. Qed.
#[local] Hint Resolve get_or_create_table_quiet get_frame_info_quiet : changes.
Lemma unmap_frame_quiet d va : quiet (unmap_frame d va).
Proof using QX. intros. unfold unmap_frame, tlb_invalidate. changes. Qed.
#[local] Hint Resolve unmap_frame_quiet : changes.
Lemma map_frame_quiet d f va perm : quiet (map_frame d f va perm).
Proof using QX. quiet_def map_frame. Qed.
Lemma loadtime_map_frame_quiet d f va perm : quiet (loadtime_map_frame d f va perm).
Proof using QX. quiet_def loadtime_map_frame. Qed.
Lemma count_loop_quiet fuel step limit (missing : Z → K bool) start :
  (∀ va, quiet (missing va)) → quiet (count_loop fuel step limit missing start).
Proof. quiet_def count_loop. Qed.
#[local] Hint Extern 2 (quiet (count_loop _ _ _ _ _)) => apply count_loop_quiet; changes : changes.
Lemma calculate_required_frames_quiet d va size : quiet (calculate_required_frames d va size).
Proof using QX. quiet_def calculate_required_frames. Qed.
End QuietPaging.
#[export] Hint Resolve get_page_table_quiet kheap_physical_address_quiet create_page_table_quiet
  get_or_create_table_quiet get_frame_info_quiet unmap_frame_quiet map_frame_quiet
  loadtime_map_frame_quiet calculate_required_frames_quiet : changes.

(** ** The kernel heap *)
Section QuietHeap.
Context {X : Extern} {QX : QuietExtern X}.

Lemma upd_alloc_quiet i g : quiet (upd_alloc i g). Proof. quiet_def upd_alloc. Qed.
Lemma get_alloc_quiet i : quiet (get_alloc i). Proof. quiet_def get_alloc. Qed.
#[local] Hint Resolve upd_alloc_quiet get_alloc_quiet : changes.
Lemma map_heap_page_quiet va : quiet (map_heap_page va).
Proof using QX. intros. unfold map_heap_page, set_virtualAddress. changes. Qed.
#[local] Hint Resolve map_heap_page_quiet : changes.
Lemma kmalloc_quiet size : quiet (kmalloc size).
Proof using QX. intros. unfold kmalloc, get_firstFree, set_firstFree, get_idx, set_kidx. changes. Qed.
Lemma kfree_quiet va : quiet (kfree va).
Proof using QX.
  intros. unfold kfree, kfree_find, set_virtualAddress, tlbflush.
  changes.
Qed.
End QuietHeap.
#[export] Hint Resolve kmalloc_quiet kfree_quiet : changes.

(** ** The page file *)
Section QuietPageFile.
Context {X : Extern} {QX : QuietExtern X}.

Lemma ide_sectors_quiet move lba p n :
  (∀ l a, quiet (move l a)) → quiet (ide_sectors move lba p n).
Proof.
  intros Hm. revert lba p. induction n as [|n IH]; intros lba p; cbn; unfold ide_wait_ready; changes.
Qed.
Lemma read_disk_page_quiet dfn va : quiet (read_disk_page dfn va).
Proof.
  unfold read_disk_page, ide_read. changes. apply ide_sectors_quiet. intros. unfold insl. changes.
Qed.
Lemma write_disk_page_quiet dfn va : quiet (write_disk_page dfn va).
Proof.
  unfold write_disk_page, ide_write. changes. apply ide_sectors_quiet. intros. unfold outsl. changes.
Qed.
Lemma allocate_disk_frame_quiet : quiet allocate_disk_frame.
Proof. unfold allocate_disk_frame, on_disk_free_list, initialize_disk_frame_info. changes. Qed.
Lemma free_disk_frame_quiet dfn : quiet (free_disk_frame dfn).
Proof. unfold free_disk_frame, on_disk_free_list. changes. Qed.
#[local] Hint Resolve read_disk_page_quiet write_disk_page_quiet allocate_disk_frame_quiet
  free_disk_frame_quiet : changes.
Lemma get_disk_page_table_quiet d va c : quiet (get_disk_page_table d va c).
Proof using QX. quiet_def get_disk_page_table. Qed.
Lemma get_disk_page_directory_quiet e : quiet (get_disk_page_directory e).
Proof using QX. quiet_def get_disk_page_directory. Qed.
Lemma get_disk_table_directory_quiet e : quiet (get_disk_table_directory e).
Proof using QX. quiet_def get_disk_table_directory. Qed.
#[local] Hint Resolve get_disk_page_table_quiet get_disk_page_directory_quiet
  get_disk_table_directory_quiet : changes.
Lemma pf_disk_frame_quiet e va : quiet (pf_disk_frame e va).
Proof using QX. quiet_def pf_disk_frame. Qed.
#[local] Hint Resolve pf_disk_frame_quiet : changes.
Lemma pf_add_env_page_quiet e va src : quiet (pf_add_env_page e va src).
Proof using QX. quiet_def pf_add_env_page. Qed.
#[local] Hint Resolve pf_add_env_page_quiet : changes.
Lemma pf_add_empty_env_page_quiet e va z : quiet (pf_add_empty_env_page e va z).
Proof using QX. quiet_def pf_add_empty_env_page. Qed.
Lemma pf_update_env_page_quiet e va f : quiet (pf_update_env_page e va f).
Proof using QX. quiet_def pf_update_env_page. Qed.
Lemma pf_read_env_page_quiet e va : quiet (pf_read_env_page e va).
Proof using QX. quiet_def pf_read_env_page. Qed.
Lemma pf_remove_env_page_quiet e va : quiet (pf_remove_env_page e va).
Proof using QX. quiet_def pf_remove_env_page. Qed.
Lemma pf_calculate_allocated_pages_quiet e : quiet (pf_calculate_allocated_pages e).
Proof. quiet_def pf_calculate_allocated_pages. Qed.
Lemma pf_write_env_table_quiet e va t : quiet (__pf_write_env_table e va t).
Proof using QX. quiet_def __pf_write_env_table. Qed.
Lemma pf_read_env_table_quiet e va t : quiet (__pf_read_env_table e va t).
Proof. quiet_def __pf_read_env_table. Qed.
Lemma pf_remove_env_all_tables_quiet e : quiet (__pf_remove_env_all_tables e).
Proof. quiet_def __pf_remove_env_all_tables. Qed.
#[local] Hint Resolve pf_remove_env_all_tables_quiet : changes.
Lemma pf_free_env_quiet e : quiet (pf_free_env e).
Proof using QX. quiet_def pf_free_env. Qed.
End QuietPageFile.
#[export] Hint Resolve pf_add_env_page_quiet pf_add_empty_env_page_quiet pf_update_env_page_quiet
  pf_read_env_page_quiet pf_remove_env_page_quiet pf_calculate_allocated_pages_quiet
  pf_write_env_table_quiet pf_read_env_table_quiet pf_free_env_quiet : changes.

(** ** Working sets, faults *)
Lemma ws_upd_quiet e i g : quiet (ws_upd e i g). Proof. quiet_def ws_upd. Qed.
Lemma tws_upd_quiet e i g : quiet (tws_upd e i g). Proof. quiet_def tws_upd. Qed.
Lemma ws_get_quiet e i : quiet (ws_get e i). Proof. quiet_def ws_get. Qed.
Lemma tws_get_quiet e i : quiet (tws_get e i). Proof. quiet_def tws_get. Qed.
#[export] Hint Resolve ws_upd_quiet tws_upd_quiet ws_get_quiet tws_get_quiet : changes.

Section QuietFault.
Context {X : Extern} {QX : QuietExtern X}.

Lemma env_page_ws_get_size_quiet e : quiet (env_page_ws_get_size e).
Proof. quiet_def env_page_ws_get_size. Qed.
Lemma env_page_ws_clear_entry_quiet e i : quiet (env_page_ws_clear_entry e i).
Proof. quiet_def env_page_ws_clear_entry. Qed.
Lemma env_page_ws_set_entry_quiet e i va : quiet (env_page_ws_set_entry e i va).
Proof. quiet_def env_page_ws_set_entry. Qed.
Lemma env_page_ws_get_virtual_address_quiet e i : quiet (env_page_ws_get_virtual_address e i).
Proof. quiet_def env_page_ws_get_virtual_address. Qed.
Lemma env_page_ws_get_time_stamp_quiet e i : quiet (env_page_ws_get_time_stamp e i).
Proof. quiet_def env_page_ws_get_time_stamp. Qed.
Lemma addTableToTableWorkingSet_quiet e a : quiet (addTableToTableWorkingSet e a).
Proof. quiet_def addTableToTableWorkingSet. Qed.
#[local] Hint Resolve env_page_ws_get_size_quiet env_page_ws_clear_entry_quiet
  env_page_ws_set_entry_quiet env_page_ws_get_virtual_address_quiet
  env_page_ws_get_time_stamp_quiet : changes.
Lemma update_WS_time_stamps_quiet : quiet update_WS_time_stamps.
Proof using QX. unfold update_WS_time_stamps, age_page, age_table. changes. Qed.
Lemma next_index_quiet i n : quiet (next_index i n). Proof. quiet_def next_index. Qed.
Lemma is_replacement_quiet v : quiet (is_replacement v). Proof. quiet_def is_replacement. Qed.
Lemma isBufferingEnabled_quiet : quiet isBufferingEnabled. Proof. quiet_def isBufferingEnabled. Qed.
#[local] Hint Resolve next_index_quiet is_replacement_quiet isBufferingEnabled_quiet : changes.
Lemma choose_victim_quiet e max start : quiet (choose_victim e max start).
Proof using QX.
  unfold choose_victim, lru_victim, lru_body, clock_victim, clock_body, isPageReplacmentAlgorithmLRU,
    isPageReplacmentAlgorithmFIFO, isPageReplacmentAlgorithmCLOCK. changes.
Qed.
Lemma evict_quiet e i : quiet (evict e i).
Proof using QX. quiet_def evict. Qed.
Lemma bring_page_in_quiet e va i : quiet (bring_page_in e va i).
Proof using QX. quiet_def bring_page_in. Qed.
#[local] Hint Resolve choose_victim_quiet evict_quiet bring_page_in_quiet : changes.
Lemma page_fault_handler_quiet e va : quiet (page_fault_handler e va).
Proof using QX. unfold page_fault_handler, find_empty, placement_body. changes. Qed.
#[local] Hint Resolve page_fault_handler_quiet : changes.
Lemma fault_handler_quiet : quiet fault_handler.
Proof using QX.
  unfold fault_handler, rcr2, tlbflush, table_fault_handler, __page_fault_handler_with_buffering. changes.
Qed.
End QuietFault.
#[export] Hint Resolve env_page_ws_get_size_quiet env_page_ws_clear_entry_quiet
  env_page_ws_set_entry_quiet env_page_ws_get_virtual_address_quiet addTableToTableWorkingSet_quiet
  update_WS_time_stamps_quiet next_index_quiet is_replacement_quiet isBufferingEnabled_quiet
  fault_handler_quiet : changes.

(** The kernel that Link.v assembles, at every depth of nested calls. *)
#[export] Instance no_fuel_quiet : QuietExtern no_fuel.
Proof. split; intros; apply changes_out_of_fuel. Qed.
#[export] Instance one_level_quiet X : QuietExtern X → QuietExtern (one_level X).
Proof. split; intros; unfold one_level; cbn; eauto with changes. Qed.
#[export] Instance kernel_quiet n : QuietExtern (kernel n).
Proof. induction n as [|n IH]; cbn; apply _. Qed.
