(* ===== verification/LifeCycle.v ===== *)
(** * The life cycle of environments

    Every slot of the environment table is on the free list, on one of the scheduler's three
    queues, or loose (an environment under construction or being freed).  [lives s L lo]: the
    lists are the sequences [L], well linked and disjoint, the loose slots are [lo], and the status
    of each environment on a list is the one of that list.  The file proves that every operation
    that moves an environment does so between the lists it should, and that the whole kernel,
    entered by a trap or by the commands of the prompt that create, run and kill environments,
    keeps the life cycle well formed, whatever way it leaves. *)
From S2P Require Import Prelude Machine Queue State PageFlags FrameAlloc FrameAllocSpec Paging KHeap PageFile WorkingSet Fault UserEnv UserEnvSpec Sched SchedSpec Syscall Link Hoare Quiet.

Inductive place := Free | New | Ready | Exit.
#[export] Instance place_eq_dec : EqDecision place.
Proof. solve_decision. Defined.

Definition at_place (s : KState) (p : place) (xs : list Z) : Prop :=
  match p with
  | Free => env_free_slots s xs
  | New => dll (envs (environments s)) (env_new_queue (sched s)) xs
  | Ready => turns s xs
  | Exit => dll (envs (environments s)) (env_exit_queue (sched s)) xs
  end.
(** allocate_environment marks the slot before it leaves the free list. *)
Definition status_fits (p : place) (st : Z) : Prop :=
  match p with
  | Free => st = ENV_FREE ∨ st = ENV_UNKNOWN
  | New => st = ENV_NEW
  | Ready => st = ENV_READY
  | Exit => st = ENV_EXIT
  end.
Definition members (L : place → list Z) (lo : list Z) : list Z := L Free ++ L New ++ L Ready ++ L Exit ++ lo.
Definition lives (s : KState) (L : place → list Z) (lo : list Z) : Prop :=
  (∀ p, at_place s p (L p)) ∧
  (∀ p e, e ∈ L p → status_fits p (env_status (env_at s e))) ∧
  members L lo ≡ₚ seqZ 0 NENV.
Definition life_ok (s : KState) : Prop := ∃ L lo, lives s L lo.

Definition put_at (p : place) (xs : list Z) (L : place → list Z) : place → list Z :=
  λ q, if decide (q = p) then xs else L q.
Lemma put_at_eq p xs L : put_at p xs L p = xs.
Proof. unfold put_at. by rewrite decide_True. Qed.
Lemma put_at_ne p q xs L : q ≠ p → put_at p xs L q = L q.
Proof. intros. unfold put_at. by rewrite decide_False. Qed.

(** ** What the lists depend on *)
Definition head_at (s : KState) (p : place) : ListHead * option Z :=
  match p with
  | Free => (env_free_list (environments s), None)
  | New => (env_new_queue (sched s), None)
  | Ready => (env_ready_queue (sched s), sched_next (sched s))
  | Exit => (env_exit_queue (sched s), None)
  end.
Lemma at_place_agree s s' p xs :
  head_at s' p = head_at s p →
  (∀ x, x ∈ xs → env_next (env_at s' x) = env_next (env_at s x) ∧ env_prev (env_at s' x) = env_prev (env_at s x)) →
  at_place s p xs → at_place s' p xs.
Proof.
  intros Hh Hx. destruct p; cbn in *; injection Hh.
  - unfold env_free_slots. intros ->. by apply dll_agree.
  - intros ->. by apply dll_agree.
  - intros Hn Hq (ys & zs & -> & Hd & Hnx & He). exists ys, zs. rewrite Hn, Hq. split_and!; try done.
    eapply dll_agree; [|done]. intros x Hi. apply Hx. rewrite elem_of_app in *. tauto.
  - intros ->. by apply dll_agree.
Qed.
Lemma at_place_NoDup s p xs : at_place s p xs → NoDup xs.
Proof. destruct p; cbn; [|..|]; try (by intros (_ & _ & _ & ? & _)). apply turns_NoDup. Qed.

(** The lists other than the one at [p]. *)
Definition others (p : place) (L : place → list Z) : list Z :=
  match p with
  | Free => L New ++ L Ready ++ L Exit | New => L Free ++ L Ready ++ L Exit
  | Ready => L Free ++ L New ++ L Exit | Exit => L Free ++ L New ++ L Ready
  end.
Lemma members_split p L lo : members L lo ≡ₚ others p L ++ L p ++ lo.
Proof. unfold members. destruct p; cbn; solve_Permutation. Qed.
Lemma others_put p xs L : others p (put_at p xs L) = others p L.
Proof. by destruct p. Qed.
Lemma in_others p q L e : q ≠ p → e ∈ L q → e ∈ others p L.
Proof. intros Hq He. destruct p, q; try done; cbn; rewrite !elem_of_app; tauto. Qed.
Lemma members_NoDup s L lo : lives s L lo → NoDup (members L lo).
Proof. intros (_ & _ & ->). apply NoDup_seqZ. Qed.
Lemma lives_disjoint s L lo p q e : lives s L lo → q ≠ p → e ∈ L q → e ∉ L p ++ lo.
Proof.
  intros Hl%members_NoDup Hq He%(in_others p) Hin; [|done]. rewrite (members_split p) in Hl.
  apply NoDup_app in Hl as (_ & Hd & _). by apply (Hd e).
Qed.
Lemma lives_loose s L lo p e : lives s L (e :: lo) → e ∉ L p ∧ e ∉ lo.
Proof.
  intros Hl%members_NoDup. rewrite (members_split p) in Hl. apply NoDup_app in Hl as (_ & _ & Hl).
  apply NoDup_app in Hl as (_ & Hd & [? _]%NoDup_cons). split; [|done]. intros He. apply (Hd e He). by left.
Qed.

(** Only the list at [p] and the loose slots change. *)
Lemma lives_change s s' L lo p xs lo' :
  lives s L lo → at_place s' p xs → (∀ q, q ≠ p → head_at s' q = head_at s q) →
  (∀ z, z ∉ L p ++ lo → env_at s' z = env_at s z) →
  (∀ e, e ∈ xs → status_fits p (env_status (env_at s' e))) →
  xs ++ lo' ≡ₚ L p ++ lo →
  lives s' (put_at p xs L) lo'.
Proof.
  intros Hl Hp Hh Ho Hst Hperm. pose proof Hl as (Hat & Hfit & Hm). split_and!.
  - intros q. destruct (decide (q = p)) as [->|Hq]; [by rewrite put_at_eq|]. rewrite put_at_ne by done.
    eapply at_place_agree; [by apply Hh| |apply Hat]. intros x Hx.
    by rewrite Ho by (by eapply lives_disjoint).
  - intros q e. destruct (decide (q = p)) as [->|Hq]; [rewrite put_at_eq; apply Hst|].
    rewrite put_at_ne by done. intros He. rewrite Ho by (by eapply lives_disjoint). by apply Hfit.
  - by rewrite (members_split p), others_put, put_at_eq, Hperm, <-(members_split p).
Qed.

(** Quiet code and the choice of who runs next. *)
Lemma lives_same_life s s' L lo : same_life s s' → lives s L lo → lives s' L lo.
Proof.
  intros (Hf & Hq & He) (Hat & Hfit & Hm). injection Hq as Hr Hn Hx Hs.
  assert (∀ e, life_fields (env_at s' e) = life_fields (env_at s e)) as He' by apply He.
  split_and!; [|intros p e Hp; specialize (He' e); injection He' as -> _ _; by apply Hfit|done].
  intros p. eapply at_place_agree; [|intros x _|apply Hat].
  - destruct p; cbn; congruence.
  - specialize (He' x). by injection He'.
Qed.

(** ** Moving an environment *)
Lemma links_only_env W (h h' : gmap Z Env) :
  links_only W h h' →
  (∀ z, z ∉ W → h' !!! z = h !!! z) ∧ ∀ z, env_status (h' !!! z) = env_status (h !!! z).
Proof. intros [Hr Ho]. split; [done|]. intros z. by apply (env_strip_fields (h' !!! z) (h !!! z)). Qed.
Lemma without_mid e xs ys : NoDup (xs ++ e :: ys) → without e (xs ++ e :: ys) = xs ++ ys.
Proof. intros (_ & _ & Hx & Hy & _)%NoDup_mid. by rewrite without_app, without_cons, !without_notin. Qed.
Lemma elem_of_without e z xs : z ∈ without e xs ↔ z ≠ e ∧ z ∈ xs.
Proof. unfold without. by rewrite list_elem_of_filter. Qed.
Lemma without_perm e xs lo : NoDup xs → e ∈ xs → without e xs ++ e :: lo ≡ₚ xs ++ lo.
Proof.
  intros Hnd (ys & zs & ->)%list_elem_of_split. rewrite without_mid by done. solve_Permutation.
Qed.
Lemma status_upd_env s e (g : Env → Env) z :
  env_at (on_environments (λ r, set_envs (<[e := g (envs r !!! e)]> (envs r)) r) s) z =
  if decide (e = z) then g (env_at s e) else env_at s z.
Proof. unfold env_at. cbn. case_decide; subst; [by rewrite array_get_set_eq|by rewrite array_get_set_ne]. Qed.

(** A state in which the list at [p] lost or got [e] and [e] got status [st], nothing else. *)
Definition moved (s s' : KState) (p : place) (xs xs' : list Z) (e st : Z) : Prop :=
  at_place s' p xs' ∧ (∀ q, q ≠ p → head_at s' q = head_at s q) ∧
  (∀ z, z ∉ e :: xs → env_at s' z = env_at s z) ∧
  (∀ z, z ≠ e → env_status (env_at s' z) = env_status (env_at s z)) ∧
  env_status (env_at s' e) = st.

Lemma moved_out s s' L lo p e st :
  lives s L lo → e ∈ L p → moved s s' p (L p) (without e (L p)) e st →
  lives s' (put_at p (without e (L p)) L) (e :: lo).
Proof.
  intros Hl He (Hp & Hh & Ho & Hst & _). pose proof Hl as (Hat & Hfit & _).
  eapply lives_change; [done..| | |].
  - intros z Hz. apply Ho. rewrite elem_of_cons, elem_of_app in *. naive_solver.
  - intros z [Hz Hin]%elem_of_without. rewrite Hst by done. by apply Hfit.
  - apply without_perm; [|done]. by eapply at_place_NoDup.
Qed.
Lemma moved_in s s' L lo p e st xs :
  lives s L (e :: lo) → xs ≡ₚ e :: L p → status_fits p st → moved s s' p (L p) xs e st →
  lives s' (put_at p xs L) lo.
Proof.
  intros Hl Hxs Hfits (Hp & Hh & Ho & Hst & He). pose proof Hl as (Hat & Hfit & _).
  eapply lives_change; [done..| | |].
  - intros z Hz. apply Ho. rewrite elem_of_app, !elem_of_cons in *. tauto.
  - intros z. rewrite Hxs, elem_of_cons. intros [->|Hz]; [by rewrite He|].
    rewrite Hst; [by apply Hfit|]. intros ->. by apply (lives_loose _ _ _ p) in Hl as [].
  - rewrite Hxs. solve_Permutation.
Qed.

(** *** The new and exit queues, the free list *)
Lemma remove_tail_moved s e xs (h : gmap Z Env) l (q : queue_name) (p : place) st :
  LIST_REMOVE (envs (environments s)) (queue_of q (sched s)) e = (h, l) →
  dll (envs (environments s)) (queue_of q (sched s)) xs → e ∈ xs →
  (q = NewQueue ∧ p = New ∨ q = ExitQueue ∧ p = Exit) →
  ∃ s', (on_queue q (λ h l, LIST_REMOVE h l e);; upd_env e (set_env_status st)) s = Ret tt s' ∧
    moved s s' p xs (without e xs) e st.
Proof.
  intros Hr Hd (ys & zs & ->)%list_elem_of_split Hq. pose proof (dll_remove _ _ ys e zs Hd) as Hs.
  rewrite Hr in Hs. destruct Hs as (Hd' & [Ho Hst]%links_only_env & _).
  assert (NoDup (ys ++ e :: zs)) as Hnd by apply Hd. rewrite without_mid by done.
  apply NoDup_mid in Hnd as (_ & _ & Hy & Hz & _).
  unfold on_queue. rewrite bind_modify, Hr. eexists. split; [done|]. unfold moved.
  split_and!; [|by destruct Hq as [[-> ->]|[-> ->]]; intros []| | |].
  - destruct Hq as [[-> ->]|[-> ->]]; (apply dll_insert_other; [rewrite elem_of_app; tauto|exact Hd']).
  - intros z Hin. rewrite status_upd_env, decide_False by (intros ->; apply Hin; by left).
    apply Ho. rewrite elem_of_cons in Hin. tauto.
  - intros z Hne. rewrite status_upd_env, decide_False by congruence. apply Hst.
  - by rewrite status_upd_env, decide_True.
Qed.
Lemma insert_tail_moved s e xs (q : queue_name) (p : place) st :
  dll (envs (environments s)) (queue_of q (sched s)) xs → e ∉ xs →
  (q = NewQueue ∧ p = New ∨ q = ExitQueue ∧ p = Exit) →
  ∃ s', (upd_env e (set_env_status st);; on_queue q (λ h l, LIST_INSERT_TAIL h l e)) s = Ret tt s' ∧
    moved s s' p xs (xs ++ [e]) e st.
Proof.
  intros Hd He Hq. unfold upd_env. rewrite bind_modify. set (s1 := on_environments _ s).
  assert (dll (envs (environments s1)) (queue_of q (sched s1)) xs) as Hd1 by (by apply dll_insert_other).
  pose proof (dll_insert_tail _ _ xs e Hd1 He) as Hs. unfold on_queue, modify.
  destruct (LIST_INSERT_TAIL (envs (environments s1)) (queue_of q (sched s1)) e) as [h l] eqn:Hi.
  destruct Hs as [Hd' [Ho Hst]%links_only_env]. eexists. split; [done|]. unfold moved.
  split_and!; [|by destruct Hq as [[-> ->]|[-> ->]]; intros []| | |].
  - by destruct Hq as [[-> ->]|[-> ->]].
  - intros z Hin. unfold env_at. cbn. rewrite Ho by done. fold (env_at s1 z). unfold s1.
    rewrite status_upd_env, decide_False; [done|]. intros ->. apply Hin. by left.
  - intros z Hne. unfold env_at. cbn. rewrite Hst. fold (env_at s1 z). unfold s1.
    by rewrite status_upd_env, decide_False.
  - unfold env_at. cbn. rewrite Hst. fold (env_at s1 e). unfold s1. by rewrite status_upd_env, decide_True.
Qed.

(** *** The ready queue *)
Lemma turns_dll s ts :
  turns s ts → ∃ xs ys, ts = ys ++ xs ∧ dll (envs (environments s)) (env_ready_queue (sched s)) (xs ++ ys) ∧
    sched_next (sched s) = hd_or None ys ∧ (ys = [] → xs = []).
Proof. done. Qed.
Lemma links_only_perm W W' (h h' : gmap Z Env) : W ≡ₚ W' → links_only W h h' → links_only W' h h'.
Proof. intros HW [Hr Ho]. split; [done|]. intros z Hz. apply Ho. by rewrite HW. Qed.

(** [s'] is [s] with new links for the nodes of [ts] and [e], another ready queue and [sched_next]. *)
Lemma relinked_moved s s1 s' ts ts' e st h l n :
  turns s' ts' → links_only (e :: ts) (envs (environments s1)) h →
  s' = on_sched (λ r, set_sched_next n (set_env_ready_queue l r)) (on_environments (set_envs h) s1) →
  (∀ q, q ≠ Ready → head_at s1 q = head_at s q) →
  (∀ z, env_at s1 z = if decide (e = z) then set_env_status st (env_at s e) else env_at s z) →
  moved s s' Ready ts ts' e st.
Proof.
  intros Ht [Ho Hst]%links_only_env -> Hh H1. split_and!; [done| | | |].
  - intros q Hq. rewrite <-Hh by done. by destruct q.
  - intros z Hz. unfold env_at at 1. cbn. rewrite Ho by done. fold (env_at s1 z).
    rewrite H1, decide_False; [done|]. intros ->. apply Hz. by left.
  - intros z Hz. unfold env_at at 1. cbn. rewrite Hst. fold (env_at s1 z). by rewrite H1, decide_False.
  - unfold env_at at 1. cbn. rewrite Hst. fold (env_at s1 e). by rewrite H1, decide_True.
Qed.

Lemma insert_ready_moved s ts e :
  turns s ts → e ∉ ts →
  ∃ s', sched_insert_ready e s = Ret tt s' ∧ moved s s' Ready ts (ts ++ [e]) e ENV_READY.
Proof.
  intros Ht He. destruct (insert_ready_turns s ts e Ht He) as (s' & Hs' & Ht').
  exists s'. split; [done|]. destruct Ht as (xs & ys & -> & Hd & Hn & Hys). rewrite elem_of_app in He.
  revert Hs'. unfold sched_insert_ready, upd_env. rewrite bind_modify. set (s1 := on_environments _ s).
  assert (dll (envs (environments s1)) (env_ready_queue (sched s1)) (xs ++ ys)) as Hd1.
  { apply dll_insert_other; [rewrite elem_of_app; tauto|done]. }
  unfold get_sched_next. rewrite bind_gets. cbn [compose]. change (sched_next (sched s1)) with (sched_next (sched s)).
  rewrite Hn. destruct ys as [|n ys]; cbn [hd_or].
  - rewrite (Hys eq_refl) in *.
    pose proof (dll_insert_tail _ _ [] e Hd1 ltac:(apply not_elem_of_nil)) as Hi.
    unfold on_queue. rewrite bind_modify. cbn [queue_of].
    destruct (LIST_INSERT_TAIL (envs (environments s1)) (env_ready_queue (sched s1)) e) as [h l].
    destruct Hi as [_ Hl]. intros [= Hs'].
    eapply (relinked_moved s s1 _ _ _ e _ h l (Some e)); [done|exact Hl|by rewrite <-Hs'|by intros []|].
    intros z. apply status_upd_env.
  - pose proof (dll_insert_before _ _ xs n ys e Hd1) as Hi.
    unfold on_queue, modify. cbn [queue_of].
    destruct (LIST_INSERT_BEFORE (envs (environments s1)) (env_ready_queue (sched s1)) n e) as [h l].
    destruct Hi as [_ Hl]; [rewrite elem_of_app; tauto|]. intros [= Hs'].
    eapply (relinked_moved s s1 _ _ _ e _ h l (sched_next (sched s1))); [done| | |by intros []|].
    + eapply links_only_perm, Hl. solve_Permutation.
    + rewrite <-Hs'. by destruct s1 as [? ? ? ? ? []].
    + intros z. apply status_upd_env.
Qed.

Lemma remove_ready_moved s ts e :
  turns s ts → e ∈ ts →
  ∃ s', sched_remove_ready e s = Ret tt s' ∧ moved s s' Ready ts (without e ts) e ENV_UNKNOWN.
Proof.
  intros Ht He. destruct (remove_ready_turns s ts e Ht He) as (s' & Hs' & Ht').
  exists s'. split; [done|]. destruct Ht as (xs & ys & -> & Hd & Hn & Hys).
  assert (e ∈ xs ++ ys) as (us & vs & Hin)%list_elem_of_split by (rewrite elem_of_app in *; tauto).
  assert (∃ n, move_next e s = Ret tt (on_sched (set_sched_next n) s)) as [n Hmv].
  { destruct ys as [|y ys]; [by rewrite (Hys eq_refl) in Hin; destruct us|].
    destruct (decide (y = e)) as [->|Hne].
    - eexists. by apply (move_next_self s xs e ys).
    - exists (sched_next (sched s)). rewrite (move_next_other s e y) by done.
      by destruct s as [? ? ? ? ? []]. }
  rewrite sched_remove_ready_eq, (bind_Ret _ _ _ _ _ Hmv) in Hs'.
  revert Hs'. set (s1 := on_sched _ s). intros Hs'.
  assert (dll (envs (environments s1)) (env_ready_queue (sched s1)) (us ++ e :: vs)) as Hd1 by (by rewrite <-Hin).
  pose proof (dll_remove _ _ us e vs Hd1) as Hr. unfold on_queue in Hs'. rewrite bind_modify in Hs'. cbn [queue_of] in Hs'.
  destruct (LIST_REMOVE (envs (environments s1)) (env_ready_queue (sched s1)) e) as [h l].
  destruct Hr as (_ & Hl & _). rewrite <-Hin in Hl. injection Hs' as Hs'.
  apply links_only_env in Hl as [Ho Hst].
  assert (∀ z, env_at s' z = if decide (e = z) then set_env_status ENV_UNKNOWN (h !!! e) else h !!! z) as Hat.
  { intros z. rewrite <-Hs'. apply status_upd_env. }
  split_and!; [done|by rewrite <-Hs'; intros []| | |].
  - intros z Hz. rewrite elem_of_cons, elem_of_app in Hz. rewrite Hat, decide_False by (intros ->; tauto).
    apply Ho. rewrite elem_of_app. tauto.
  - intros z Hz. rewrite Hat, decide_False by congruence. apply Hst.
  - by rewrite Hat, decide_True.
Qed.

(** ** Triples of the operations
    [lives_at L lo] as a precondition; every way of stopping early leaves the life cycle well
    formed. *)
Notation lives_at L lo := (λ s, lives s L lo).
Notation "'{{' P '}}' m '{{' Q '}}'" := (hoare P m Q life_ok) (at level 20, P at level 200, m at level 150, Q at level 200).
Lemma lives_ok s L lo : lives s L lo → life_ok s.
Proof. intros. by exists L, lo. Qed.
#[export] Hint Resolve lives_ok : core.

Lemma hoare_moved_out e L lo (m : K unit) p st :
  e ∈ L p → (∀ s, at_place s p (L p) → ∃ s', m s = Ret tt s' ∧ moved s s' p (L p) (without e (L p)) e st) →
  {{ lives_at L lo }} m {{ λ _, lives_at (put_at p (without e (L p)) L) (e :: lo) }}.
Proof.
  intros He Hm s Hl. destruct (Hm s) as (s' & -> & Hmv); [by apply Hl|]. by eapply moved_out.
Qed.
Lemma hoare_moved_in e L lo (m : K unit) p st xs :
  xs ≡ₚ e :: L p → status_fits p st →
  (∀ s, at_place s p (L p) → e ∉ L p → ∃ s', m s = Ret tt s' ∧ moved s s' p (L p) xs e st) →
  {{ lives_at L (e :: lo) }} m {{ λ _, lives_at (put_at p xs L) lo }}.
Proof.
  intros Hxs Hfits Hm s Hl. destruct (Hm s) as (s' & -> & Hmv); [by apply Hl|by apply (lives_loose _ _ _ p) in Hl as []|].
  by eapply moved_in.
Qed.

Lemma remove_new_spec e L lo :
  e ∈ L New →
  {{ lives_at L lo }} sched_remove_new e {{ λ _, lives_at (put_at New (without e (L New)) L) (e :: lo) }}.
Proof.
  intros He. apply (hoare_moved_out _ _ _ _ _ ENV_UNKNOWN); [done|]. intros s Hd.
  destruct (LIST_REMOVE (envs (environments s)) (queue_of NewQueue (sched s)) e) as [h l] eqn:Hr.
  eapply remove_tail_moved; try done. by left.
Qed.
Lemma remove_exit_spec e L lo :
  e ∈ L Exit →
  {{ lives_at L lo }} sched_remove_exit e {{ λ _, lives_at (put_at Exit (without e (L Exit)) L) (e :: lo) }}.
Proof.
  intros He. apply (hoare_moved_out _ _ _ _ _ ENV_UNKNOWN); [done|]. intros s Hd.
  destruct (LIST_REMOVE (envs (environments s)) (queue_of ExitQueue (sched s)) e) as [h l] eqn:Hr.
  eapply remove_tail_moved; try done. by right.
Qed.
Lemma remove_ready_spec e L lo :
  e ∈ L Ready →
  {{ lives_at L lo }} sched_remove_ready e {{ λ _, lives_at (put_at Ready (without e (L Ready)) L) (e :: lo) }}.
Proof.
  intros He. apply (hoare_moved_out _ _ _ _ _ ENV_UNKNOWN); [done|]. intros s Hd. by apply remove_ready_moved.
Qed.
Lemma snoc_perm (e : Z) xs : xs ++ [e] ≡ₚ e :: xs.
Proof. solve_Permutation. Qed.
Lemma insert_new_spec e L lo :
  {{ lives_at L (e :: lo) }} sched_insert_new e {{ λ _, lives_at (put_at New (L New ++ [e]) L) lo }}.
Proof.
  apply (hoare_moved_in _ _ _ _ _ ENV_NEW); [apply snoc_perm|done|]. intros s Hd He.
  eapply insert_tail_moved; try done. by left.
Qed.
Lemma insert_exit_spec e L lo :
  {{ lives_at L (e :: lo) }} sched_insert_exit e {{ λ _, lives_at (put_at Exit (L Exit ++ [e]) L) lo }}.
Proof.
  apply (hoare_moved_in _ _ _ _ _ ENV_EXIT); [apply snoc_perm|done|]. intros s Hd He.
  eapply insert_tail_moved; try done. by right.
Qed.
Lemma insert_ready_spec e L lo :
  {{ lives_at L (e :: lo) }} sched_insert_ready e {{ λ _, lives_at (put_at Ready (L Ready ++ [e]) L) lo }}.
Proof.
  apply (hoare_moved_in _ _ _ _ _ ENV_READY); [apply snoc_perm|done|]. intros s Hd He.
  by apply insert_ready_moved.
Qed.

(** The free list. *)
Lemma free_environment_spec e L lo :
  {{ lives_at L (e :: lo) }} free_environment e {{ λ _, lives_at (put_at Free (e :: L Free) L) lo }}.
Proof.
  apply (hoare_moved_in _ _ _ _ _ ENV_FREE); [done|by left|]. intros s Hd He.
  unfold free_environment, upd_env. rewrite !bind_modify.
  set (s1 := on_environments _ (on_environments _ s)).
  assert (env_free_slots s1 (L Free)) as Hd1 by (by apply dll_insert_other, dll_insert_other).
  pose proof (dll_insert_head (envs (environments s1)) (env_free_list (environments s1)) _ e Hd1 He) as Hi.
  unfold on_env_free_list, modify.
  destruct (LIST_INSERT_HEAD (envs (environments s1)) (env_free_list (environments s1)) e) as [h l] eqn:Hins.
  destruct Hi as [Hd' [Ho Hst]%links_only_env]. eexists. split; [done|].
  unfold on_environments at 1. rewrite Hins.
  assert (∀ z, env_at s1 z = if decide (e = z) then set_env_status ENV_FREE inhabitant else env_at s z) as H1.
  { intros z. unfold env_at, s1. cbn.
    case_decide; subst; [by rewrite !array_get_set_eq|by rewrite !array_get_set_ne]. }
  split_and!; [exact Hd'|by intros []| | |].
  - intros z Hz. unfold env_at. cbn. rewrite Ho by done. fold (env_at s1 z). rewrite H1, decide_False; [done|].
    intros ->. apply Hz. by left.
  - intros z Hz. unfold env_at. cbn. rewrite Hst. fold (env_at s1 z). by rewrite H1, decide_False.
  - unfold env_at. cbn. rewrite Hst. fold (env_at s1 e). by rewrite H1, decide_True.
Qed.
(** complete_environment_initialization sets fields, the status too, before the slot leaves the list. *)
Lemma leave_free_list s s1 e L lo :
  lives s L lo → e ∈ L Free → (∀ q, head_at s1 q = head_at s q) →
  (∀ z, z ≠ e → env_at s1 z = env_at s z) →
  env_next (env_at s1 e) = env_next (env_at s e) ∧ env_prev (env_at s1 e) = env_prev (env_at s e) →
  ∃ s', on_env_free_list (λ h l, LIST_REMOVE h l e) s1 = Ret tt s' ∧
        lives s' (put_at Free (without e (L Free)) L) (e :: lo).
Proof.
  intros Hl He Hh Ho He1. assert (env_free_slots s1 (L Free)) as Hd.
  { apply (at_place_agree s s1 Free); [apply Hh| |apply Hl]. intros x _.
    destruct (decide (x = e)) as [->|]; [done|by rewrite Ho]. }
  apply list_elem_of_split in He as He'. destruct He' as (ys & zs & Hin).
  unfold env_free_slots in Hd. rewrite Hin in Hd. pose proof (dll_remove _ _ ys e zs Hd) as Hr.
  unfold on_env_free_list, modify, on_environments.
  destruct (LIST_REMOVE (envs (environments s1)) (env_free_list (environments s1)) e) as [h l].
  destruct Hr as (Hd' & [Ho' Hst]%links_only_env & _). rewrite <-Hin in Ho'. eexists. split; [done|].
  eapply moved_out; [done|done|]. split_and!; [| | | |reflexivity].
  - rewrite Hin, without_mid by apply Hd. exact Hd'.
  - intros q Hq. rewrite <-Hh. by destruct q.
  - intros z [Hz Hzl]%not_elem_of_cons. rewrite <-Ho by done. by apply Ho'.
  - intros z Hz. rewrite <-Ho by done. apply Hst.
Qed.

(** ** The scheduler *)
Definition same_lists (s s' : KState) : Prop :=
  env_free_list (environments s') = env_free_list (environments s) ∧
  (env_ready_queue (sched s'), env_new_queue (sched s'), env_exit_queue (sched s')) =
  (env_ready_queue (sched s), env_new_queue (sched s), env_exit_queue (sched s)) ∧
  ∀ e, life_fields (env_at s' e) = life_fields (env_at s e).
#[local] Instance same_lists_preorder : PreOrder same_lists.
Proof.
  split; [done|]. intros s1 s2 s3 (Hf1 & Hq1 & He1) (Hf2 & Hq2 & He2).
  split_and!; [congruence..|]. intros e. by rewrite He2.
Qed.
Lemma changes_leave {S A} (Rel : relation S) `{!PreOrder Rel} d : changes Rel (λ s, @Leave S A d s).
Proof. by intros s s' [= ->]. Qed.
Lemma env_run_quiet {A} e : quiet (@env_run A e).
Proof.
  unfold env_run, lcr3, env_pop_tf. changes; try (by apply changes_leave).
  apply changes_modify. by intros s.
Qed.
#[export] Hint Resolve env_run_quiet : changes.
Lemma quiet_same_lists {A} (m : K A) : quiet m → changes same_lists m.
Proof.
  intros Hm s s' Hf. destruct (Hm s s' Hf) as (H1 & H2 & H3). injection H2 as Hr Hn Hx _.
  split_and!; [done|by rewrite Hr, Hn, Hx|done].
Qed.
Lemma scheduler_same_lists {A} : changes same_lists (@fos_scheduler A).
Proof.
  unfold fos_scheduler, put_sched_next, get_sched_next, sched_next_circular, lcr3, back_to_prompt.
  changes; try (by apply changes_modify); try (by apply changes_leave).
  apply quiet_same_lists, env_run_quiet.
Qed.
Lemma fos_scheduler_spec {A} L lo : {{ lives_at L lo }} @fos_scheduler A {{ λ _ _, False }}.
Proof.
  intros s Hl. pose proof Hl as (Hat & Hfit & Hm).
  assert (∃ d s' ts', @fos_scheduler unit s = Leave d s' ∧ turns s' ts' ∧ ts' ≡ₚ L Ready) as (d & s' & ts' & Hs & Ht & Hp).
  { pose proof (Hat Ready) as Ht. cbn in Ht. destruct (L Ready) as [|n ts].
    - destruct (scheduler_idle s Ht) as (s' & ? & ? & _). by exists None, s', [].
    - destruct (scheduler_turns s n ts Ht) as (s' & ? & ? & _). exists (Some n), s', (ts ++ [n]).
      split_and!; [done..|apply snoc_perm]. }
  assert (@fos_scheduler A s = Leave d s') as ->.
  { revert Hs. unfold fos_scheduler, mbind, M_bind, put_sched_next, modify, get_sched_next, gets, env_run.
    cbn. destruct (sched_next_circular _ _) as [a s1| | | |]; try (intros [= <- <-]; done).
    destruct (sched_next (sched s)) as [e|]; [|by intros [= <- <-]]. unfold mbind, M_bind. cbn.
    by destruct (negb _); cbn; intros [= <- <-]. }
  destruct (scheduler_same_lists (A := unit) s s') as (Hf & Hq & He); [by rewrite Hs|].
  exists (put_at Ready ts' L), lo. injection Hq as Hr Hn Hx. split_and!.
  - intros p. destruct (decide (p = Ready)) as [->|Hne]; [by rewrite put_at_eq|]. rewrite put_at_ne by done.
    eapply at_place_agree; [|intros x _|apply Hat].
    + destruct p; cbn; congruence.
    + specialize (He x). by injection He.
  - intros p e Hin. specialize (He e). injection He as -> _ _. apply Hfit.
    destruct (decide (p = Ready)) as [->|Hne]; [by rewrite put_at_eq, Hp in Hin|by rewrite put_at_ne in Hin].
  - by rewrite (members_split Ready), others_put, put_at_eq, Hp, <-(members_split Ready).
Qed.

(** ** Walking a queue *)
Definition place_of (q : queue_name) : place :=
  match q with ReadyQueue => Ready | NewQueue => New | ExitQueue => Exit end.
Lemma place_dll s q xs :
  at_place s (place_of q) xs → ∃ zs, zs ≡ₚ xs ∧ dll (envs (environments s)) (queue_of q (sched s)) zs.
Proof.
  destruct q; cbn; [|by exists xs..]. intros (ys & zs & -> & Hd & _). exists (ys ++ zs).
  split; [solve_Permutation|done].
Qed.
Lemma place_first s q xs x :
  at_place s (place_of q) xs → lh_first (queue_of q (sched s)) = Some x → x ∈ xs.
Proof. intros (zs & <- & (-> & _))%place_dll Hx. by apply hd_or_Some. Qed.
Lemma place_next s q xs x y :
  at_place s (place_of q) xs → x ∈ xs → LIST_NEXT (envs (environments s)) x = Some y → y ∈ xs ∧ y ≠ x.
Proof.
  intros (zs & <- & Hd)%place_dll (us & vs & ->)%list_elem_of_split. rewrite (dll_next _ _ _ _ _ Hd).
  intros Hy%hd_or_Some. destruct Hd as (_ & _ & _ & (_ & _ & _ & Hx & _)%NoDup_mid & _).
  rewrite elem_of_app, elem_of_cons. split; [tauto|]. by intros ->.
Qed.

Definition on_queue_opt (L : place → list Z) (p : place) (x : option Z) : Prop :=
  match x with Some e => e ∈ L p | None => True end.

Lemma foreach_env_spec q (f : Z → K unit) :
  (∀ L lo e, e ∈ L (place_of q) →
     {{ lives_at L lo }} f e
     {{ λ _ s, ∃ L' lo', lives s L' lo' ∧ L' (place_of q) = without e (L (place_of q)) }}) →
  {{ life_ok }} foreach_env q f {{ λ _, life_ok }}.
Proof.
  intros Hf. unfold foreach_env, list_foreach. apply hoare_gets. intros first.
  eapply hoare_pre.
  { apply (hoare_mloop (λ x s, ∃ L lo, lives s L lo ∧ on_queue_opt L (place_of q) x)).
    clear first. intros x. apply hoare_gets. intros h s [(L & lo & Hl & Hx) <-]. cbn.
    destruct x as [x|]; cbn in *; [|by eauto].
    specialize (Hf L lo x Hx s Hl). unfold mbind, M_bind. destruct (f x s) as [[] s'| | | |]; try done.
    destruct Hf as (L' & lo' & Hl' & HL'). exists L', lo'. split; [done|].
    cbn. change (env_next _) with (LIST_NEXT (envs (environments s)) x).
    destruct (LIST_NEXT (envs (environments s)) x) as [y|] eqn:Hn; [|done]. cbn. rewrite HL', elem_of_without.
    destruct (place_next s q (L (place_of q)) x y) as [Hy Hxy]; [by apply Hl|done..]. }
  intros s [(L & lo & Hl) Hs]. exists L, lo. split; [done|]. destruct first as [x|]; [|done]. cbn.
  eapply place_first; [by apply Hl|done].
Qed.
Lemma on_env_with_id_spec q id (f : Z → K unit) :
  (∀ L lo e, e ∈ L (place_of q) → {{ lives_at L lo }} f e {{ λ _, life_ok }}) →
  {{ life_ok }} on_env_with_id q id f {{ λ _, life_ok }}.
Proof.
  intros Hf. unfold on_env_with_id, list_loop. apply hoare_gets. intros first.
  eapply hoare_pre.
  { apply (hoare_mloop (λ '(_, x) s, ∃ L lo, lives s L lo ∧ on_queue_opt L (place_of q) x)).
    clear first. intros [[] x]. apply hoare_gets. intros h s [(L & lo & Hl & Hx) <-]. cbn.
    destruct x as [x|]; cbn in *; [|by eauto]. unfold mbind, M_bind. cbn.
    destruct (_ =? _).
    - specialize (Hf L lo x Hx s Hl). by destruct (f x s).
    - cbn. exists L, lo. split; [done|]. change (env_next _) with (LIST_NEXT (envs (environments s)) x).
      destruct (LIST_NEXT _ x) as [y|] eqn:Hn; [|done].
      by destruct (place_next s q (L (place_of q)) x y) as [Hy _]; [by apply Hl|..]. }
  intros s [(L & lo & Hl) Hs]. exists L, lo. split; [done|]. destruct first as [x|]; [|done]. cbn.
  eapply place_first; [by apply Hl|done].
Qed.

(** ** Quiet code around the moves *)
Lemma hoare_quiet {A} (m : K A) L lo : quiet m → {{ lives_at L lo }} m {{ λ _, lives_at L lo }}.
Proof.
  intros Hm. apply (hoare_conseq (lives_at L lo) _ m (λ _, lives_at L lo) _ (lives_at L lo)); eauto.
  apply (changes_hoare same_life); [|done]. intros s s'. apply lives_same_life.
Qed.
Lemma hoare_quiet_bind {A B} (m : K A) (f : A → K B) L lo Q :
  quiet m → (∀ a, {{ lives_at L lo }} f a {{ Q }}) → {{ lives_at L lo }} m ≫= f {{ Q }}.
Proof. intros Hm Hf. eapply hoare_bind; [by apply hoare_quiet|done]. Qed.
Ltac skip_quiet := repeat
  match goal with
  | |- hoare _ (_ ≫= _) _ _ => apply hoare_quiet_bind; [solve [changes]|intros ?]
  end.

Notation keeps := (changes (λ s s' : KState, life_ok s → life_ok s')).
#[export] Instance keeps_preorder : PreOrder (λ s s' : KState, life_ok s → life_ok s').
Proof. split; [by intros s|intros s1 s2 s3; auto]. Qed.
Lemma keeps_hoare {A} (m : K A) : keeps m ↔ {{ life_ok }} m {{ λ _, life_ok }}.
Proof.
  split.
  - apply (changes_hoare (λ s s', life_ok s → life_ok s')). auto.
  - intros Hm s s' Hf Hs. by eapply (hoare_final life_ok).
Qed.
Lemma quiet_keeps {A} (m : K A) : quiet m → keeps m.
Proof. intros Hm s s' Hf (L & lo & Hl). exists L, lo. eapply lives_same_life; [by apply Hm|done]. Qed.
#[export] Hint Extern 5 (changes (λ s s', life_ok s → life_ok s') _) =>
  apply quiet_keeps; solve [eauto with changes typeclass_instances] : changes.
Lemma hoare_keeps {A} (m : K A) L lo : keeps m → {{ lives_at L lo }} m {{ λ _, life_ok }}.
Proof. intros Hm. eapply hoare_pre; [by apply keeps_hoare|eauto]. Qed.
Lemma keeps_exist {A} (m : K A) : (∀ L lo, {{ lives_at L lo }} m {{ λ _, life_ok }}) → keeps m.
Proof. intros Hm. apply keeps_hoare. intros s (L & lo & Hl). by apply (Hm L lo). Qed.

(** ** Creating and freeing *)
Section Create.
Context {X : Extern} {QX : QuietExtern X}.

Lemma allocate_environment_spec :
  {{ life_ok }} allocate_environment
  {{ λ r s, ∃ L lo, (∀ e, r.2 = Some e → e ∈ L Free) ∧ lives s L lo }}.
Proof using.
  intros s (L & lo & Hl). unfold allocate_environment. rewrite bind_gets.
  pose proof (proj1 Hl Free) as (Hf & _). rewrite Hf.
  destruct (L Free) as [|e xs] eqn:HL; cbn; [by exists L, lo|].
  exists (put_at Free (L Free) L), lo. split; [intros e' [= <-]; rewrite put_at_eq, HL; by left|].
  set (s' := on_environments _ s).
  assert (∀ z, env_at s' z = if decide (e = z) then set_env_status ENV_UNKNOWN (env_at s e) else env_at s z) as Hs'
    by (intros z; apply status_upd_env).
  pose proof Hl as (Hat & Hfit & _).
  eapply lives_change; [done| |by intros []| | |done].
  - apply (at_place_agree s s' Free); [done| |apply (Hat Free)]. intros x _. rewrite Hs'. by case_decide; subst.
  - intros z Hz. rewrite Hs', decide_False; [done|]. intros ->. apply Hz. rewrite HL. by left.
  - intros z Hz. rewrite Hs'. case_decide; [by right|]. by apply (Hfit Free).
Qed.

Lemma for_bytes_quiet start n step f : (∀ a, quiet (f a)) → quiet (for_bytes start n step f).
Proof using. unfold for_bytes. changes. Qed.
#[local] Hint Extern 2 (quiet (for_bytes _ _ _ _)) => apply for_bytes_quiet; changes : changes.

Lemma complete_environment_initialization_spec e L lo :
  e ∈ L Free →
  {{ lives_at L lo }} complete_environment_initialization e
  {{ λ _, lives_at (put_at Free (without e (L Free)) L) (e :: lo) }}.
Proof using.
  intros He. unfold complete_environment_initialization. skip_quiet. intros s Hl. unfold upd_env.
  rewrite !bind_modify. set (s1 := on_environments _ _).
  destruct (leave_free_list s s1 e L lo) as (s' & -> & Hs'); try done.
  - intros z Hz. unfold env_at, s1. cbn. by rewrite !array_get_set_ne.
  - unfold env_at, s1. cbn. by rewrite !array_get_set_eq.
Qed.
Lemma create_user_directory_quiet : quiet create_user_directory.
Proof using QX. unfold create_user_directory. changes. Qed.
Lemma create_user_page_WS_quiet n : quiet (create_user_page_WS n).
Proof using QX. unfold create_user_page_WS. changes. Qed.
#[local] Hint Resolve create_user_directory_quiet create_user_page_WS_quiet : changes.
Lemma initialize_environment_spec e d pa L lo :
  e ∈ L Free →
  {{ lives_at L lo }} initialize_environment e d pa
  {{ λ _, lives_at (put_at Free (without e (L Free)) L) (e :: lo) }}.
Proof using QX.
  intros He. unfold initialize_environment, for_range. skip_quiet.
  by apply complete_environment_initialization_spec.
Qed.

(** Loading the program does not move the environment. *)
Lemma elf_field_quiet p o : quiet (elf_field p o). Proof using. unfold elf_field. changes. Qed.
#[local] Hint Resolve elf_field_quiet : changes.
Lemma program_segment_from_quiet p id : quiet (program_segment_from p id).
Proof using. unfold program_segment_from, check_magic, e_phnum, e_phoff, ph_field. changes. Qed.
Lemma advance_page_index_quiet e : quiet (advance_page_index e).
Proof using. unfold advance_page_index. changes. Qed.
#[local] Hint Resolve program_segment_from_quiet advance_page_index_quiet : changes.
Lemma load_segment_quiet e seg n t : quiet (program_segment_alloc_map_copy_workingset e seg n t).
Proof using QX. unfold program_segment_alloc_map_copy_workingset. changes. Qed.
Lemma pf_add_or_panic_quiet e va src : quiet (pf_add_or_panic e va src).
Proof using QX. unfold pf_add_or_panic. changes. Qed.
#[local] Hint Resolve load_segment_quiet pf_add_or_panic_quiet : changes.
Lemma write_segment_to_page_file_quiet e seg : quiet (write_segment_to_page_file e seg).
Proof using QX. unfold write_segment_to_page_file. changes. Qed.
#[local] Hint Resolve write_segment_to_page_file_quiet : changes.
Lemma load_segments_quiet e p : quiet (load_segments e p).
Proof using QX. unfold load_segments, e_phnum, PROGRAM_SEGMENT_FIRST, PROGRAM_SEGMENT_NEXT. changes. Qed.
Lemma clear_modified_bits_quiet e : quiet (clear_modified_bits e).
Proof using QX. unfold clear_modified_bits. changes. Qed.
Lemma set_environment_entry_point_quiet e p : quiet (set_environment_entry_point e p).
Proof using. unfold set_environment_entry_point, check_magic, e_entry. changes. Qed.
Lemma allocate_stack_quiet e : quiet (allocate_stack e).
Proof using QX. unfold allocate_stack. changes. Qed.
#[local] Hint Resolve load_segments_quiet clear_modified_bits_quiet
  set_environment_entry_point_quiet allocate_stack_quiet : changes.

(** The new environment is on no list yet. *)
Lemma env_create_spec start_of name size :
  {{ life_ok }} env_create start_of name size
  {{ λ r s, match r with None => life_ok s | Some e => ∃ L lo, lives s L (e :: lo) end }}.
Proof using QX.
  unfold env_create. destruct (get_user_program_info start_of name) as [info|]; [|by apply hoare_ret].
  eapply hoare_bind; [apply allocate_environment_spec|]. intros [r e]. cbn [fst snd].
  apply hoare_exist. intros L. apply hoare_exist. intros lo. apply hoare_pure. intros He.
  destruct (r <? 0); [apply hoare_ret; eauto|].
  destruct e as [e|]; [|apply hoare_bind_undefined; eauto]. apply hoare_bind_ret. specialize (He e eq_refl).
  skip_quiet. eapply hoare_bind; [by apply initialize_environment_spec|]. intros []. skip_quiet.
  apply hoare_ret. intros s Hl. by eexists _, _.
Qed.

Lemma remove_pws_user_pages_quiet e : quiet (__remove_pws_user_pages e).
Proof using QX. unfold __remove_pws_user_pages. changes. Qed.
#[local] Hint Resolve remove_pws_user_pages_quiet : changes.
(** Everything that env_free does before free_environment is quiet. *)
Lemma start_env_free_spec e L lo :
  {{ lives_at L (e :: lo) }} start_env_free e
  {{ λ _ s, ∃ L' lo', lives s L' lo' ∧ ∀ p, p ≠ Free → L' p = L p }}.
Proof using QX.
  unfold start_env_free. skip_quiet. destruct a.
  - apply hoare_ret. intros s Hl. by exists L, (e :: lo).
  - unfold env_free. skip_quiet. eapply hoare_post; [apply free_environment_spec|].
    intros ? s Hl. eexists _, _. split; [exact Hl|]. intros p Hp. by apply put_at_ne.
Qed.
Lemma cleanup_buffers_quiet e : quiet (cleanup_buffers e).
Proof using QX. unfold cleanup_buffers. changes. Qed.
Lemma exit_cleanup_quiet e : quiet (exit_cleanup e).
Proof using QX. pose proof cleanup_buffers_quiet. unfold exit_cleanup. changes. Qed.
Lemma curenv_has_id_quiet id : quiet (curenv_has_id id).
Proof using. unfold curenv_has_id. changes. Qed.
#[local] Hint Resolve exit_cleanup_quiet curenv_has_id_quiet : changes.

(** ** Handlers *)
Lemma fos_scheduler_keeps {A} : keeps (@fos_scheduler A).
Proof using. apply keeps_exist. intros L lo. eapply hoare_post; [apply fos_scheduler_spec|done]. Qed.
#[local] Hint Resolve fos_scheduler_keeps : changes.
Lemma if_stopped_keeps : keeps if_stopped_run_scheduler.
Proof using. unfold if_stopped_run_scheduler. changes. Qed.
#[local] Hint Resolve if_stopped_keeps : changes.
(** The body of every loop that moves environments from one queue to the next. *)
Lemma remove_then p L lo e (rm : Z → K unit) (m : K unit) Q :
  {{ lives_at L lo }} rm e {{ λ _, lives_at (put_at p (without e (L p)) L) (e :: lo) }} →
  {{ lives_at (put_at p (without e (L p)) L) (e :: lo) }} m {{ Q }} →
  {{ lives_at L lo }} (rm e;; m) {{ Q }}.
Proof using. intros H1 H2. eapply hoare_bind; [done|]. by intros []. Qed.
Lemma foreach_keeps q f : 
  (∀ L lo e, e ∈ L (place_of q) →
     {{ lives_at L lo }} f e
     {{ λ _ s, ∃ L' lo', lives s L' lo' ∧ L' (place_of q) = without e (L (place_of q)) }}) →
  keeps (foreach_env q f).
Proof using. intros. by apply keeps_hoare, foreach_env_spec. Qed.
Lemma on_env_with_id_keeps q id f :
  (∀ L lo e, e ∈ L (place_of q) → {{ lives_at L lo }} f e {{ λ _, life_ok }}) →
  keeps (on_env_with_id q id f).
Proof using. intros. by apply keeps_hoare, on_env_with_id_spec. Qed.
Lemma then_keeps {B} L lo (m : K unit) (f : K B) (L' : place → list Z) lo' :
  {{ lives_at L lo }} m {{ λ _, lives_at L' lo' }} → keeps f →
  {{ lives_at L lo }} (m;; f) {{ λ _, life_ok }}.
Proof using. intros Hm Hf. eapply hoare_bind; [done|]. intros []. by apply hoare_keeps. Qed.
Lemma ok_then_keeps {A B} P (m : K A) (f : A → K B) :
  {{ P }} m {{ λ _, life_ok }} → (∀ a, keeps (f a)) → {{ P }} (m ≫= f) {{ λ _, life_ok }}.
Proof using. intros Hm Hf. eapply hoare_bind; [done|]. intros a. by apply keeps_hoare. Qed.

Lemma sched_run_all_keeps : keeps sched_run_all.
Proof using.
  unfold sched_run_all. apply changes_bind; [apply _| |changes]. apply foreach_keeps. intros L lo e He.
  eapply remove_then; [by apply remove_new_spec|]. eapply hoare_post; [apply insert_ready_spec|].
  intros ? s Hl. eexists _, _. split; [exact Hl|]. by rewrite put_at_ne, put_at_eq.
Qed.
Lemma sched_run_env_keeps id : keeps (sched_run_env id).
Proof using.
  unfold sched_run_env. apply changes_bind; [apply _| |changes]. apply on_env_with_id_keeps. intros L lo e He.
  eapply remove_then; [by apply remove_new_spec|]. eapply then_keeps; [apply insert_ready_spec|changes].
Qed.
Lemma start_env_free_ok e L lo : {{ lives_at L (e :: lo) }} start_env_free e {{ λ _, life_ok }}.
Proof using QX. eapply hoare_post; [apply start_env_free_spec|]. intros ? s (L' & lo' & Hl & _). eauto. Qed.
Lemma free_foreach q (rm : Z → K unit) :
  (∀ L lo e, e ∈ L (place_of q) →
     {{ lives_at L lo }} rm e {{ λ _, lives_at (put_at (place_of q) (without e (L (place_of q))) L) (e :: lo) }}) →
  keeps (foreach_env q (λ e, rm e;; start_env_free e)).
Proof using QX.
  intros Hrm. apply foreach_keeps. intros L lo e He. eapply remove_then; [by apply Hrm|].
  eapply hoare_post; [apply start_env_free_spec|]. intros ? s (L' & lo' & Hl & HL'). eexists _, _.
  split; [exact Hl|]. rewrite HL' by (by destruct q). by rewrite put_at_eq.
Qed.
Lemma sched_kill_all_keeps {A} : keeps (@sched_kill_all _ A).
Proof using QX.
  unfold sched_kill_all.
  apply changes_bind; [apply _|apply free_foreach; intros; by apply remove_new_spec|intros []].
  apply changes_bind; [apply _|apply free_foreach; intros; by apply remove_ready_spec|intros []].
  apply changes_bind; [apply _|apply free_foreach; intros; by apply remove_exit_spec|intros []].
  apply fos_scheduler_keeps.
Qed.
Lemma sched_exit_env_keeps id : keeps (sched_exit_env id).
Proof using QX.
  unfold sched_exit_env. apply changes_bind; [apply _| |intros done; destruct done; [changes|]].
  { apply on_env_with_id_keeps. intros L lo e He. eapply remove_then; [by apply remove_new_spec|].
    eapply then_keeps; [apply insert_exit_spec|changes]. }
  apply changes_bind; [apply _| |changes]. apply on_env_with_id_keeps. intros L lo e He.
  eapply remove_then; [by apply remove_ready_spec|]. eapply then_keeps; [apply insert_exit_spec|changes].
Qed.
Lemma sched_kill_env_keeps id : keeps (sched_kill_env id).
Proof using QX.
  unfold sched_kill_env. apply changes_bind; [apply _| |intros done; destruct done; [changes|]].
  { apply on_env_with_id_keeps. intros L lo e He. eapply remove_then; [by apply remove_new_spec|].
    apply start_env_free_ok. }
  apply changes_bind; [apply _| |intros done; destruct done; [changes|]].
  { apply on_env_with_id_keeps. intros L lo e He. eapply remove_then; [by apply remove_ready_spec|].
    apply ok_then_keeps; [apply start_env_free_ok|]. intros []. changes.
    apply quiet_keeps, changes_modify. done. }
  apply changes_bind; [apply _| |changes]. apply on_env_with_id_keeps. intros L lo e He.
  eapply remove_then; [by apply remove_exit_spec|]. apply start_env_free_ok.
Qed.
Lemma clock_interrupt_keeps {A} : keeps (@clock_interrupt_handler _ A).
Proof using QX. unfold clock_interrupt_handler, isPageReplacmentAlgorithmLRU. changes. Qed.
Lemma env_exit_keeps {A} : keeps (@env_exit _ A).
Proof using QX. pose proof sched_exit_env_keeps. unfold env_exit. changes. Qed.
(** A new environment goes to the new queue. *)
Lemma create_then_keeps {B} start_of name size (f : option Z → K B) :
  keeps (f None) → (∀ e, keeps (f (Some e))) →
  keeps (env ← env_create start_of name size;
         match env with None => f None | Some e => sched_new_env (Some e);; f (Some e) end).
Proof using QX.
  intros H0 H1. apply keeps_hoare. eapply hoare_bind; [apply env_create_spec|]. intros [e|]; [|by apply keeps_hoare].
  apply hoare_exist. intros L. apply hoare_exist. intros lo. cbn [sched_new_env].
  eapply then_keeps; [apply insert_new_spec|done].
Qed.
End Create.
#[export] Hint Resolve fos_scheduler_keeps sched_run_all_keeps sched_run_env_keeps sched_kill_all_keeps
  sched_kill_env_keeps clock_interrupt_keeps env_exit_keeps : changes.
