(* ===== verification/Strings.v ===== *)
(** * The string library: lib/string.c

    The functions run on a byte-addressed memory (a byte is 0..255).  A loop whose bound is the
    length of a string takes the number of iterations it may use; the theorems show that the
    length of the string is enough. *)
From S2P Require Import Prelude Machine.

(** Memory, and what has been printed (Printf.v). *)
Record CState := MkCState { bytes : gmap Z Z; output : list Z }.
Definition set_bytes (m : gmap Z Z) (s : CState) : CState := MkCState m (output s).
Definition set_output (o : list Z) (s : CState) : CState := MkCState (bytes s) o.
Notation C := (M CState).

Definition rd (p : Z) : C Z := gets (λ s, bytes s !!! p).
Definition wr (p v : Z) : C unit := modify (λ s, set_bytes (<[p := u8 v]> (bytes s)) s).

Section Strings.
Context (fuel : nat).

Definition strlen (s : Z) : C Z :=
  mloop fuel (λ '(s, n),
    c ← rd s; if c =? 0 then mret (inr n) else mret (inl (s + 1, n + 1))) (s, 0).

Definition strnlen (s size : Z) : C Z :=
  mloop fuel (λ '(s, size, n),
    c ← rd s;
    if (0 <? size) && negb (c =? 0) then mret (inl (s + 1, size - 1, n + 1)) else mret (inr n))
    (s, size, 0).

Definition strcpy (dst src : Z) : C Z :=
  mloop fuel (λ '(d, s),
    c ← rd s; wr d c;; if c =? 0 then mret (inr tt) else mret (inl (d + 1, s + 1))) (dst, src);;
  mret dst.

Definition strncpy (dst src size : Z) : C Z :=
  mloop (Z.to_nat (size + 1)) (λ '(i, d, s),
    if negb (i <? size) then mret (inr tt) else
    c ← rd s; wr d c;;
    mret (inl (i + 1, d + 1, if negb (c =? 0) then s + 1 else s))) (0, dst, src);;
  mret dst.

Definition strlcpy (dst src size : Z) : C Z :=
  if 0 <? size then
    d ← mloop fuel (λ '(d, s, size),
      let size := size - 1 in
      c ← rd s;
      if (0 <? size) && negb (c =? 0) then wr d c;; mret (inl (d + 1, s + 1, size))
      else mret (inr d)) (dst, src, size);
    wr d 0;;
    mret (d - dst)
  else mret 0.

Definition strcmp (p q : Z) : C Z :=
  mloop fuel (λ '(p, q),
    a ← rd p; b ← rd q;
    if negb (a =? 0) && (a =? b) then mret (inl (p + 1, q + 1)) else mret (inr (a - b))) (p, q).

Definition strncmp (p q n : Z) : C Z :=
  mloop fuel (λ '(p, q, n),
    a ← rd p; b ← rd q;
    if (0 <? n) && negb (a =? 0) && (a =? b) then mret (inl (p + 1, q + 1, n - 1))
    else if n =? 0 then mret (inr 0) else mret (inr (a - b))) (p, q, n).

(** The results are pointers, [None] for NULL. *)
Definition strchr (s c : Z) : C (option Z) :=
  mloop fuel (λ s,
    a ← rd s;
    if a =? 0 then mret (inr None)
    else if a =? c then mret (inr (Some s)) else mret (inl (s + 1))) s.
Definition strfind (s c : Z) : C Z :=
  mloop fuel (λ s,
    a ← rd s;
    if (a =? 0) || (a =? c) then mret (inr s) else mret (inl (s + 1))) s.

(** [m = n] is an int: nothing is written when n is 2^31 or more. *)
Definition memset (v c n : Z) : C Z :=
  forM (seqZ 0 (s32 n)) (λ i, wr (v + i) c);; mret v.

Definition copy_up (dst src n : Z) : C unit := forM (seqZ 0 n) (λ i, c ← rd (src + i); wr (dst + i) c).
Definition copy_down (dst src n : Z) : C unit :=
  forM (seqZ 0 n) (λ i, c ← rd (src + n - 1 - i); wr (dst + n - 1 - i) c).
Definition memcpy (dst src n : Z) : C Z := copy_up dst src n;; mret dst.
Definition memmove (dst src n : Z) : C Z :=
  (if (src <? dst) && (dst <? src + n) then copy_down dst src n else copy_up dst src n);;
  mret dst.

Definition memcmp (v1 v2 n : Z) : C Z :=
  mloop (Z.to_nat (n + 1)) (λ i,
    if negb (i <? n) then mret (inr 0) else
    a ← rd (v1 + i); b ← rd (v2 + i);
    if negb (a =? b) then mret (inr (a - b)) else mret (inl (i + 1))) 0.
Definition memfind (s c n : Z) : C Z :=
  mloop (Z.to_nat (n + 1)) (λ p,
    if negb (p <? s + n) then mret (inr p) else
    a ← rd p; if a =? u8 c then mret (inr p) else mret (inl (p + 1))) s.

(** ** Numbers *)
Definition is_blank (c : Z) : bool := (c =? 32) || (c =? 9).
(** The digit a character stands for in base 36. *)
Definition digit_of (c : Z) : option Z :=
  if (48 <=? c) && (c <=? 57) then Some (c - 48)
  else if (97 <=? c) && (c <=? 122) then Some (c - 97 + 10)
  else if (65 <=? c) && (c <=? 90) then Some (c - 65 + 10)
  else None.

(** The value and [*endptr]; [long] is 32 bits.  The source computes [(val*base)+dig] without a check:
    when it overflows, which C leaves undefined for a signed type, the model wraps, as the 32-bit
    multiplication and addition of the processor do. *)
Definition strtol (s base : Z) : C (Z * Z) :=
  s ← mloop fuel (λ s, c ← rd s; if is_blank c then mret (inl (s + 1)) else mret (inr s)) s;
  c ← rd s;
  let '(s, neg) := if c =? 43 then (s + 1, false) else if c =? 45 then (s + 1, true) else (s, false) in
  c0 ← rd s; c1 ← rd (s + 1);
  let '(s, base) :=
    if ((base =? 0) || (base =? 16)) && ((c0 =? 48) && (c1 =? 120)) then (s + 2, 16)
    else if (base =? 0) && (c0 =? 48) then (s + 1, 8)
    else if base =? 0 then (s, 10) else (s, base) in
  '(s, val) ← mloop fuel (λ '(s, val),
    c ← rd s;
    match digit_of c with
    | Some dig => if base <=? dig then mret (inr (s, val))
                  else mret (inl (s + 1, s32 (val * base + dig)))
    | None => mret (inr (s, val))
    end) (s, 0);
  mret (if (neg : bool) then s32 (- val) else val, s).

(** C division truncates. *)
Definition ltostr_digits (value s str : Z) : C Z :=
  mloop 12 (λ '(value, s),
    wr (str + s) (Z.rem value 10 + 48);;
    let value := Z.quot value 10 in
    if negb (Z.rem value 10 =? 0) then mret (inl (value, s + 1)) else mret (inr (s + 1)))
    (value, s).
Definition reverse_bytes (str start fin : Z) : C unit :=
  mloop 12 (λ '(start, fin),
    if negb (start <? fin) then mret (inr tt) else
    tmp ← rd (str + start);
    x ← rd (str + fin);
    wr (str + start) x;;
    wr (str + fin) tmp;;
    mret (inl (start + 1, fin - 1))) (start, fin).
Definition ltostr (value str : Z) : C unit :=
  let neg := value <? 0 in
  when neg (wr str 45);;
  let value := if neg then s32 (value * -1) else value in
  s ← ltostr_digits value (if neg then 1 else 0) str;
  reverse_bytes str (if neg then 1 else 0) (s - 1);;
  wr (str + s) 0.

Definition strcconcat (str1 str2 final : Z) : C unit :=
  len1 ← strlen str1;
  len2 ← strlen str2;
  forM (seqZ 0 len1) (λ i, c ← rd (str1 + i); wr (final + i) c);;
  forM (seqZ 0 len2) (λ i, c ← rd (str2 + i); wr (final + len1 + i) c);;
  wr (final + len1 + len2) 0.

Definition MAX_ARGUMENTS : Z := 16.
(** [argv] is returned as the list of the arguments' addresses; [argc] is its length. *)
Definition strsplit (string split_chars : Z) : C (Z * list Z) :=
  mloop fuel (λ '(string, argv),
    string ← mloop fuel (λ p,
      c ← rd p; hit ← strchr split_chars c;
      if negb (c =? 0) && bool_decide (is_Some hit) then wr p 0;; mret (inl (p + 1))
      else mret (inr p)) string;
    c ← rd string;
    if c =? 0 then mret (inr (1, argv)) else
    if Z.of_nat (length argv) =? MAX_ARGUMENTS - 1 then mret (inr (0, argv)) else
    let argv := argv ++ [string] in
    string ← mloop fuel (λ p,
      c ← rd p; hit ← strchr split_chars c;
      if negb (c =? 0) && negb (bool_decide (is_Some hit)) then mret (inl (p + 1))
      else mret (inr p)) string;
    mret (inl (string, argv))) (string, []).
End Strings.
