(* ===== verification/Devices.v ===== *)
(** * I/O ports, the interrupt controller and the clock

    inc/x86.h gives the kernel [inb] and [outb]; what is behind a port is hardware, so the drivers
    take both as an instance of [Ports] over a state of the hardware.  [Dev] holds that state and
    the variables of the drivers: kern/picirq.c, kern/kclock.c, and kern/console.c (Console.v). *)
From S2P Require Import Prelude Machine.

Class Ports (D : Type) := {
  port_in : Z → D → Z * D;
  port_out : Z → Z → D → D;
}.

Record Dev (D : Type) := MkDev {
  dev : D;  (** the hardware *)
  irq_mask_8259A : Z;
  didinit : bool;
  serial_exists : bool;
  addr_6845 : Z;
  crt_buf : Z;  (** address of the text buffer *)
  crt_mem : gmap Z Z;  (** its cells *)
  crt_pos : Z;
  shift : Z;  (** modifier keys (static in kbd_proc_data) *)
  cons_buf : gmap Z Z;  (** [cons.buf] *)
  rpos : Z;
  wpos : Z;
}.
Arguments MkDev {D}.
Arguments dev {D}.
Arguments irq_mask_8259A {D}.
Arguments didinit {D}.
Arguments serial_exists {D}.
Arguments addr_6845 {D}.
Arguments crt_buf {D}.
Arguments crt_mem {D}.
Arguments crt_pos {D}.
Arguments shift {D}.
Arguments cons_buf {D}.
Arguments rpos {D}.
Arguments wpos {D}.
Definition set_dev {D} (v : D) (r : Dev D) : Dev D :=
  MkDev v (irq_mask_8259A r) (didinit r) (serial_exists r) (addr_6845 r) (crt_buf r) (crt_mem r) (crt_pos r) (shift r) (cons_buf r) (rpos r) (wpos r).
Definition set_irq_mask_8259A {D} (v : Z) (r : Dev D) : Dev D :=
  MkDev (dev r) v (didinit r) (serial_exists r) (addr_6845 r) (crt_buf r) (crt_mem r) (crt_pos r) (shift r) (cons_buf r) (rpos r) (wpos r).
Definition set_didinit {D} (v : bool) (r : Dev D) : Dev D :=
  MkDev (dev r) (irq_mask_8259A r) v (serial_exists r) (addr_6845 r) (crt_buf r) (crt_mem r) (crt_pos r) (shift r) (cons_buf r) (rpos r) (wpos r).
Definition set_serial_exists {D} (v : bool) (r : Dev D) : Dev D :=
  MkDev (dev r) (irq_mask_8259A r) (didinit r) v (addr_6845 r) (crt_buf r) (crt_mem r) (crt_pos r) (shift r) (cons_buf r) (rpos r) (wpos r).
Definition set_addr_6845 {D} (v : Z) (r : Dev D) : Dev D :=
  MkDev (dev r) (irq_mask_8259A r) (didinit r) (serial_exists r) v (crt_buf r) (crt_mem r) (crt_pos r) (shift r) (cons_buf r) (rpos r) (wpos r).
Definition set_crt_buf {D} (v : Z) (r : Dev D) : Dev D :=
  MkDev (dev r) (irq_mask_8259A r) (didinit r) (serial_exists r) (addr_6845 r) v (crt_mem r) (crt_pos r) (shift r) (cons_buf r) (rpos r) (wpos r).
Definition set_crt_mem {D} (v : gmap Z Z) (r : Dev D) : Dev D :=
  MkDev (dev r) (irq_mask_8259A r) (didinit r) (serial_exists r) (addr_6845 r) (crt_buf r) v (crt_pos r) (shift r) (cons_buf r) (rpos r) (wpos r).
Definition set_crt_pos {D} (v : Z) (r : Dev D) : Dev D :=
  MkDev (dev r) (irq_mask_8259A r) (didinit r) (serial_exists r) (addr_6845 r) (crt_buf r) (crt_mem r) v (shift r) (cons_buf r) (rpos r) (wpos r).
Definition set_shift {D} (v : Z) (r : Dev D) : Dev D :=
  MkDev (dev r) (irq_mask_8259A r) (didinit r) (serial_exists r) (addr_6845 r) (crt_buf r) (crt_mem r) (crt_pos r) v (cons_buf r) (rpos r) (wpos r).
Definition set_cons_buf {D} (v : gmap Z Z) (r : Dev D) : Dev D :=
  MkDev (dev r) (irq_mask_8259A r) (didinit r) (serial_exists r) (addr_6845 r) (crt_buf r) (crt_mem r) (crt_pos r) (shift r) v (rpos r) (wpos r).
Definition set_rpos {D} (v : Z) (r : Dev D) : Dev D :=
  MkDev (dev r) (irq_mask_8259A r) (didinit r) (serial_exists r) (addr_6845 r) (crt_buf r) (crt_mem r) (crt_pos r) (shift r) (cons_buf r) v (wpos r).
Definition set_wpos {D} (v : Z) (r : Dev D) : Dev D :=
  MkDev (dev r) (irq_mask_8259A r) (didinit r) (serial_exists r) (addr_6845 r) (crt_buf r) (crt_mem r) (crt_pos r) (shift r) (cons_buf r) (rpos r) v.

Section Drivers.
Context {D : Type} `{Ports D}.
Notation Con := (M (Dev D)).

Definition inb (port : Z) : Con Z := λ s,
  let '(v, d) := port_in port (dev s) in Ret (u8 v) (set_dev d s).
Definition outb (port data : Z) : Con unit :=
  modify (λ s, set_dev (port_out port (u8 data) (dev s)) s).

(** ** The 8259A interrupt controllers (kern/picirq.c, kern/picirq.h) *)
Definition IO_PIC1 : Z := 0x20.
Definition IO_PIC2 : Z := 0xA0.
Definition IRQ_SLAVE : Z := 2.
Definition IRQ_OFFSET : Z := 32.

Definition irq_setmask_8259A (mask : Z) : Con unit :=
  modify (set_irq_mask_8259A (u16 mask));;
  init ← gets didinit;
  if negb init then mret tt else
  outb (IO_PIC1 + 1) (u16 mask);;
  outb (IO_PIC2 + 1) (Z.shiftr (u16 mask) 8).

Definition pic_init : Con unit :=
  modify (set_didinit true);;
  outb (IO_PIC1 + 1) 0xFF;; outb (IO_PIC2 + 1) 0xFF;;
  outb IO_PIC1 0x11;; outb (IO_PIC1 + 1) IRQ_OFFSET;;
  outb (IO_PIC1 + 1) (Z.shiftl 1 IRQ_SLAVE);; outb (IO_PIC1 + 1) 0x3;;
  outb IO_PIC2 0x11;; outb (IO_PIC2 + 1) (IRQ_OFFSET + 8);;
  outb (IO_PIC2 + 1) IRQ_SLAVE;; outb (IO_PIC2 + 1) 0x01;;
  outb IO_PIC1 0x68;; outb IO_PIC1 0x0a;;
  outb IO_PIC2 0x68;; outb IO_PIC2 0x0a;;
  mask ← gets irq_mask_8259A;
  if negb (mask =? 0xFFFF) then irq_setmask_8259A mask else mret tt.

(** ** The clock (kern/kclock.c, inc/timerreg.h) *)
Definition IO_RTC : Z := 0x070.
Definition TIMER_CNTR0 : Z := 0x040.
Definition TIMER_MODE : Z := TIMER_CNTR0 + 3.
Definition TIMER_SEL0 : Z := 0x00.
Definition TIMER_RATEGEN : Z := 0x04.
Definition TIMER_LATCH : Z := 0x00.
Definition TIMER_16BIT : Z := 0x30.
Definition TIMER_FREQ : Z := 1193182.
Definition CLOCK_INTERVAL : Z := 20.
Definition TIMER_DIV (x : Z) : Z := (TIMER_FREQ + x `div` 2) `div` x.

Definition mc146818_read (reg : Z) : Con Z := outb IO_RTC reg;; inb (IO_RTC + 1).
Definition mc146818_write (reg datum : Z) : Con unit := outb IO_RTC reg;; outb (IO_RTC + 1) datum.

Definition kclock_read_cnt0 : Con Z :=
  cnt0_lo ← inb TIMER_CNTR0;
  cnt0_hi ← inb TIMER_CNTR0;
  mret (u16 (Z.lor (Z.shiftl cnt0_hi 8) cnt0_lo)).

Definition kclock_read_cnt0_latch : Con Z :=
  old_mode ← inb TIMER_MODE;
  outb TIMER_MODE (Z.lor TIMER_SEL0 TIMER_LATCH);;
  cnt0 ← kclock_read_cnt0;
  outb TIMER_MODE old_mode;;
  mret cnt0.

Definition timer_rate_generator : Z := Z.lor (Z.lor TIMER_SEL0 TIMER_RATEGEN) TIMER_16BIT.
(** [irq_setmask_8259A(irq_mask_8259A & ~(1<<0))] *)
Definition unmask_timer : Con unit :=
  mask ← gets irq_mask_8259A; irq_setmask_8259A (Z.land mask (Z.lnot 1)).

Definition kclock_start : Con unit :=
  kclock_read_cnt0;;
  outb TIMER_MODE timer_rate_generator;;
  outb TIMER_CNTR0 (TIMER_DIV (1000 `div` CLOCK_INTERVAL) `mod` 256);;
  outb TIMER_CNTR0 (TIMER_DIV (1000 `div` CLOCK_INTERVAL) `div` 256);;
  unmask_timer.

Definition kclock_resume : Con unit :=
  cnt0 ← kclock_read_cnt0;
  outb TIMER_MODE timer_rate_generator;;
  outb TIMER_CNTR0 (Z.land cnt0 0x00FF);;
  outb TIMER_CNTR0 (Z.land (Z.shiftr cnt0 8) 0x00FF);;
  kclock_read_cnt0;;
  unmask_timer.

Definition kclock_stop : Con unit :=
  outb TIMER_MODE timer_rate_generator;;
  irq_setmask_8259A 0xFFFF.
End Drivers.
