(* ===== verification/Console.v ===== *)
(** * The console: kern/console.c

    Input: the keyboard and the serial port feed a circular buffer of 512 characters, which
    cons_getc empties.  Output: the parallel port and a text screen of 25 lines of 80 cells. *)
From S2P Require Import Prelude Machine Strings Devices.

(** ** Constants (kern/console.h, inc/kbdreg.h and the head of kern/console.c) *)
Definition COM1 : Z := 0x3F8.
Definition COM_RX : Z := 0.
Definition COM_DLL : Z := 0.
Definition COM_DLM : Z := 1.
Definition COM_IER : Z := 1.
Definition COM_IER_RDI : Z := 0x01.
Definition COM_IIR : Z := 2.
Definition COM_FCR : Z := 2.
Definition COM_LCR : Z := 3.
Definition COM_LCR_DLAB : Z := 0x80.
Definition COM_LCR_WLEN8 : Z := 0x03.
Definition COM_MCR : Z := 4.
Definition COM_LSR : Z := 5.
Definition COM_LSR_DATA : Z := 0x01.
Definition MONO_BASE : Z := 0x3B4.
Definition MONO_BUF : Z := 0xB0000.
Definition CGA_BASE : Z := 0x3D4.
Definition CGA_BUF : Z := 0xB8000.
Definition CRT_ROWS : Z := 25.
Definition CRT_COLS : Z := 80.
Definition CRT_SIZE : Z := CRT_ROWS * CRT_COLS.
Definition KEY_HOME : Z := 0xE0.
Definition KEY_END : Z := 0xE1.
Definition KEY_UP : Z := 0xE2.
Definition KEY_DN : Z := 0xE3.
Definition KEY_LF : Z := 0xE4.
Definition KEY_RT : Z := 0xE5.
Definition KEY_PGUP : Z := 0xE6.
Definition KEY_PGDN : Z := 0xE7.
Definition KEY_INS : Z := 0xE8.
Definition KEY_DEL : Z := 0xE9.
Definition KBSTATP : Z := 0x64.
Definition KBS_DIB : Z := 0x01.
Definition KBDATAP : Z := 0x60.
Definition CONSBUFSIZE : Z := 512.

(** Modifier bits of [shift]. *)
Definition SHIFT : Z := Z.shiftl 1 0.
Definition CTL : Z := Z.shiftl 1 1.
Definition ALT : Z := Z.shiftl 1 2.
Definition CAPSLOCK : Z := Z.shiftl 1 3.
Definition NUMLOCK : Z := Z.shiftl 1 4.
Definition SCROLLLOCK : Z := Z.shiftl 1 5.
Definition E0ESC : Z := Z.shiftl 1 6.

(** ** Key maps: an initialiser's leading elements, then its designated ones *)
Definition array_from (leading : list Z) (designated : list (Z * Z)) : gmap Z Z :=
  list_to_map (designated ++ zip (seqZ 0 (Z.of_nat (length leading))) leading).
Definition shiftcode : gmap Z Z := array_from []
  [(0x1D, CTL); (0x2A, SHIFT); (0x36, SHIFT); (0x38, ALT); (0x9D, CTL); (0xB8, ALT)].
Definition togglecode : gmap Z Z := array_from []
  [(0x3A, CAPSLOCK); (0x45, NUMLOCK); (0x46, SCROLLLOCK)].
Definition normalmap : gmap Z Z := array_from
  [0; 27; 49; 50; 51; 52; 53; 54; 55; 56; 57; 48; 45; 61; 8; 9;
   113; 119; 101; 114; 116; 121; 117; 105; 111; 112; 91; 93; 10; 0; 97; 115;
   100; 102; 103; 104; 106; 107; 108; 59; 39; 96; 0; 92; 122; 120; 99; 118;
   98; 110; 109; 44; 46; 47; 0; 42; 0; 32; 0; 0; 0; 0; 0; 0;
   0; 0; 0; 0; 0; 0; 0; 55; 56; 57; 45; 52; 53; 54; 43; 49;
   50; 51; 48; 46; 0; 0; 0; 0]
  [(0x97, KEY_HOME); (0x9C, 10); (0xB5, 47); (0xC8, KEY_UP); (0xC9, KEY_PGUP); (0xCB, KEY_LF); (0xCD, KEY_RT); (0xCF, KEY_END); (0xD0, KEY_DN); (0xD1, KEY_PGDN); (0xD2, KEY_INS); (0xD3, KEY_DEL)].
Definition shiftmap : gmap Z Z := array_from
  [0; 27; 33; 64; 35; 36; 37; 94; 38; 42; 40; 41; 95; 43; 8; 9;
   81; 87; 69; 82; 84; 89; 85; 73; 79; 80; 123; 125; 10; 0; 65; 83;
   68; 70; 71; 72; 74; 75; 76; 58; 34; 126; 0; 124; 90; 88; 67; 86;
   66; 78; 77; 60; 62; 63; 0; 42; 0; 32; 0; 0; 0; 0; 0; 0;
   0; 0; 0; 0; 0; 0; 0; 55; 56; 57; 45; 52; 53; 54; 43; 49;
   50; 51; 48; 46; 0; 0; 0; 0]
  [(0x97, KEY_HOME); (0x9C, 10); (0xB5, 47); (0xC8, KEY_UP); (0xC9, KEY_PGUP); (0xCB, KEY_LF); (0xCD, KEY_RT); (0xCF, KEY_END); (0xD0, KEY_DN); (0xD1, KEY_PGDN); (0xD2, KEY_INS); (0xD3, KEY_DEL)].
Definition ctlmap : gmap Z Z := array_from
  [0; 0; 0; 0; 0; 0; 0; 0; 0; 0; 0; 0; 0; 0; 0; 0;
   17; 23; 5; 18; 20; 25; 21; 9; 15; 16; 0; 0; 13; 0; 1; 19;
   4; 6; 7; 8; 10; 11; 12; 0; 0; 0; 0; 28; 26; 24; 3; 22;
   2; 14; 13; 0; 0; 239; 0; 0]
  [(0x97, KEY_HOME); (0xB5, 239); (0xC8, KEY_UP); (0xC9, KEY_PGUP); (0xCB, KEY_LF); (0xCD, KEY_RT); (0xCF, KEY_END); (0xD0, KEY_DN); (0xD1, KEY_PGDN); (0xD2, KEY_INS); (0xD3, KEY_DEL)].
(** [charcode[shift & (CTL | SHIFT)]] *)
Definition charcode (i : Z) : gmap Z Z :=
  match i with 0 => normalmap | 1 => shiftmap | _ => ctlmap end.

Section Console.
Context {D : Type} `{Ports D}.
Notation Con := (M (Dev D)).

(** ** Parallel port and screen *)
Definition delay : Con unit := inb 0x84;; inb 0x84;; inb 0x84;; inb 0x84;; mret tt.

Definition lpt_putc (c : Z) : Con unit :=
  mloop 2802 (λ i,
    st ← inb (0x378 + 1);
    if (Z.land st 0x80 =? 0) && (i <? 2800) then delay;; mret (inl (i + 1)) else mret (inr tt)) 0;;
  outb (0x378 + 0) c;;
  outb (0x378 + 2) (Z.lor (Z.lor 0x08 0x04) 0x01);;
  outb (0x378 + 2) 0x08.

Definition set_cell (i v : Z) : Con unit := modify (λ s, set_crt_mem (<[i := u16 v]> (crt_mem s)) s).

(** The probe of the frame buffer reads back what it wrote, or does not: [cga_present]. *)
Definition cga_init (cga_present : bool) : Con unit :=
  modify (set_crt_buf (KERNEL_BASE + if cga_present then CGA_BUF else MONO_BUF));;
  modify (set_addr_6845 (if cga_present then CGA_BASE else MONO_BASE));;
  addr ← gets addr_6845;
  outb addr 14;; hi ← inb (addr + 1);
  outb addr 15;; lo ← inb (addr + 1);
  modify (set_crt_pos (u16 (Z.lor (Z.shiftl hi 8) lo))).

(** [memcpy(crt_buf, crt_buf + CRT_COLS, ...)], blank the last line. *)
Definition scroll : Con unit :=
  forM (seqZ 0 (CRT_SIZE - CRT_COLS)) (λ i,
    c ← gets (λ s, crt_mem s !!! (i + CRT_COLS)); set_cell i c);;
  forM (seqZ (CRT_SIZE - CRT_COLS) CRT_COLS) (λ i, set_cell i (Z.lor 0x0700 32));;
  modify (λ s, set_crt_pos (u16 (crt_pos s - CRT_COLS)) s).

(** [cons_putc] is the call for the spaces of a tab. *)
Definition cga_write (cons_putc : Z → Con unit) (c : Z) : Con unit :=
  pos ← gets crt_pos;
  let ch := Z.land c 0xff in
  let line_start pos := modify (set_crt_pos (u16 (pos - pos `mod` CRT_COLS))) in
  if ch =? 8 then
    when (0 <? pos) (modify (set_crt_pos (pos - 1));;
                     set_cell (pos - 1) (Z.lor (Z.land c (Z.lnot 0xff)) 32))
  else if ch =? 10 then line_start (u16 (pos + CRT_COLS))
  else if ch =? 13 then line_start pos
  else if ch =? 9 then
    cons_putc 32;; cons_putc 32;; cons_putc 32;; cons_putc 32;; cons_putc 32
  else set_cell pos c;; modify (set_crt_pos (u16 (pos + 1))).
Definition move_cursor : Con unit :=
  addr ← gets addr_6845;
  pos ← gets crt_pos;
  outb addr 14;; outb (addr + 1) (Z.shiftr pos 8);;
  outb addr 15;; outb (addr + 1) pos.
Definition cga_putc_with (cons_putc : Z → Con unit) (c : Z) : Con unit :=
  cga_write cons_putc (if Z.land c (Z.lnot 0xFF) =? 0 then Z.lor c 0x0700 else c);;
  pos ← gets crt_pos;
  when (CRT_SIZE <=? pos) scroll;;
  move_cursor.

(** A tab writes spaces, which write none: the recursion is two deep. *)
Fixpoint cons_putc_at (depth : nat) (c : Z) : Con unit :=
  match depth with
  | O => λ _, OutOfFuel
  | Datatypes.S depth => lpt_putc c;; cga_putc_with (cons_putc_at depth) c
  end.
Definition cga_putc (c : Z) : Con unit := cga_putc_with (cons_putc_at 1) c.
Definition cons_putc (c : Z) : Con unit := cons_putc_at 2 c.
Definition cputchar (c : Z) : Con unit := cons_putc c.
(** cprintf of a string without conversions. *)
Definition console_puts (m : string) : Con unit :=
  forM (String.list_ascii_of_string m) (λ c, cputchar (Z.of_nat (Ascii.nat_of_ascii c))).

(** ** Input devices: a character, 0 for none yet, -1 for no data *)
Definition serial_proc_data : Con Z :=
  st ← inb (COM1 + COM_LSR);
  if Z.land st COM_LSR_DATA =? 0 then mret (-1) else inb (COM1 + COM_RX).

Definition serial_init : Con unit :=
  outb (COM1 + COM_FCR) 0;;
  outb (COM1 + COM_LCR) COM_LCR_DLAB;;
  outb (COM1 + COM_DLL) (115200 `div` 9600);;
  outb (COM1 + COM_DLM) 0;;
  outb (COM1 + COM_LCR) (Z.land COM_LCR_WLEN8 (Z.lnot COM_LCR_DLAB));;
  outb (COM1 + COM_MCR) 0;;
  outb (COM1 + COM_IER) COM_IER_RDI;;
  st ← inb (COM1 + COM_LSR);
  modify (set_serial_exists (negb (st =? 0xFF)));;
  inb (COM1 + COM_IIR);;
  inb (COM1 + COM_RX);;
  mret tt.

Definition caps (shift c : Z) : Z :=
  if Z.land shift CAPSLOCK =? 0 then c
  else if (97 <=? c) && (c <=? 122) then c + (65 - 97)
  else if (65 <=? c) && (c <=? 90) then c + (97 - 65)
  else c.

Definition kbd_proc_data : Con Z :=
  st ← inb KBSTATP;
  if Z.land st KBS_DIB =? 0 then mret (-1) else
  data ← inb KBDATAP;
  sh ← gets shift;
  if data =? 0xE0 then modify (set_shift (Z.lor sh E0ESC));; mret 0
  else if negb (Z.land data 0x80 =? 0) then
    let data := if negb (Z.land sh E0ESC =? 0) then data else Z.land data 0x7F in
    modify (set_shift (Z.land sh (not32 (Z.lor (shiftcode !!! data) E0ESC))));;
    mret 0
  else
    let '(data, sh) := if negb (Z.land sh E0ESC =? 0)
                       then (Z.lor data 0x80, Z.land sh (not32 E0ESC)) else (data, sh) in
    let sh := Z.lxor (Z.lor sh (shiftcode !!! data)) (togglecode !!! data) in
    modify (set_shift sh);;
    let c := caps sh (charcode (Z.land sh (Z.lor CTL SHIFT)) !!! data) in
    when ((Z.land (not32 sh) (Z.lor CTL ALT) =? 0) && (c =? KEY_DEL))
      (console_puts ("Rebooting!" +:+ String (Ascii.ascii_of_nat 10) EmptyString);; outb 0x92 0x3);;
    mret c.

(** ** The input buffer *)
Definition cons_push (c : Z) : Con unit :=
  w ← gets wpos;
  if CONSBUFSIZE <=? w then undefined "cons.buf" else
  modify (λ s, set_cons_buf (<[w := u8 c]> (cons_buf s)) s);;
  modify (set_wpos (if w + 1 =? CONSBUFSIZE then 0 else w + 1)).
(** The next character, or 0. *)
Definition cons_pop : Con Z :=
  r ← gets rpos;
  w ← gets wpos;
  if negb (r =? w) then
    if CONSBUFSIZE <=? r then undefined "cons.buf" else
    c ← gets (λ s, cons_buf s !!! r);
    modify (set_rpos (if r + 1 =? CONSBUFSIZE then 0 else r + 1));;
    mret c
  else mret 0.

(** [fuel]: the characters the device may have waiting, plus one. *)
Definition cons_intr (fuel : nat) (proc : Con Z) : Con unit :=
  mloop fuel (λ _ : unit,
    c ← proc;
    if c =? -1 then mret (inr tt)
    else if c =? 0 then mret (inl tt)
    else cons_push c;; mret (inl tt)) tt.
Definition serial_intr (fuel : nat) : Con unit :=
  ex ← gets serial_exists;
  when ex (cons_intr fuel serial_proc_data).
Definition kbd_intr (fuel : nat) : Con unit := cons_intr fuel kbd_proc_data.
Definition kbd_init : Con unit := mret tt.

Definition cons_getc (fuel : nat) : Con Z := serial_intr fuel;; kbd_intr fuel;; cons_pop.

(** One character of each device at most; a keyboard character is needed for a result. *)
Definition cons_getc2 : Con Z :=
  ex ← gets serial_exists;
  when ex (c1 ← serial_proc_data;
           when (negb (c1 =? -1) && negb (c1 =? 0)) (cons_push c1));;
  c2 ← kbd_proc_data;
  when (negb (c2 =? -1) && negb (c2 =? 0)) (cons_push c2);;
  if 0 <? c2 then cons_pop else mret 0.

Definition getchar (fuel : nat) : Con Z :=
  mloop fuel (λ _ : unit,
    c ← cons_getc fuel; if c =? 0 then mret (inl tt) else mret (inr c)) tt.
Definition iscons (fdnum : Z) : bool := true.

Definition console_initialize (cga_present : bool) : Con unit :=
  cga_init cga_present;;
  kbd_init;;
  serial_init;;
  ex ← gets serial_exists;
  when (negb ex)
    (console_puts ("Serial port does not exist!" +:+ String (Ascii.ascii_of_nat 10) EmptyString)).
End Console.
