(* ===== verification/Init.v ===== *)
(** * Kernel entry and panic: kern/init.c

    FOS_initialize calls the parts of the kernel in order, over a [System]: the kernel's state, the
    devices behind their ports (Devices.v, Console.v) and the descriptor tables (Traps.v).  Also
    detect_memory and nvram_read of kern/helpers.c, and [_panic]: a [Panic] of the model is the
    call, [_panic] what the kernel does then.  The clearing of the BSS is the initial state; the
    addresses the linker chooses are parameters. *)
From stdpp Require Import pretty.
From S2P Require Import Prelude Machine Queue State PageFlags FrameAlloc Paging KHeap PageFile WorkingSet Fault UserEnv Sched Syscall Traps Boot Devices Console.

Record System (D : Type) := MkSystem { kernel : KState; devices : Dev D; descriptors : Descriptors }.
Arguments MkSystem {D}.
Arguments kernel {D}.
Arguments devices {D}.
Arguments descriptors {D}.

(** A panic while an environment runs ends it; then another environment runs, or the prompt. *)
Definition _panic `{Extern} {A} : K A :=
  c ← gets (curenv ∘ environments);
  (match c with
   | None => mret tt
   | Some e => x ← get_env e; when (env_status x =? ENV_READY) env_exit
   end);;
  fos_scheduler.

Section Init.
Context `{Extern} {D : Type} `{Ports D}.
Notation Sys := (M (System D)).

Definition lift {S A} (get : System D → S) (put : S → System D → System D) (m : M S A) : Sys A := λ s,
  match m (get s) with
  | Ret a x => Ret a (put x s)
  | Panic msg x => Panic msg (put x s)
  | Crash c x => Crash c (put x s)
  | Leave d x => Leave d (put x s)
  | OutOfFuel => OutOfFuel
  end.
Definition set_kernel (v : KState) (s : System D) : System D := MkSystem v (devices s) (descriptors s).
Definition set_devices (v : Dev D) (s : System D) : System D := MkSystem (kernel s) v (descriptors s).
Definition set_descriptors (v : Descriptors) (s : System D) : System D := MkSystem (kernel s) (devices s) v.
Definition in_kernel {A} (m : K A) : Sys A := lift kernel set_kernel m.
Definition in_devices {A} (m : M (Dev D) A) : Sys A := lift devices set_devices m.
Definition say (m : string) : Sys unit := in_devices (console_puts m).

Definition newline : string := String (Ascii.ascii_of_nat 10) EmptyString.

(** ** Memory detection *)
Definition NVRAM_BASELO : Z := 0x15.
Definition NVRAM_EXTLO : Z := 0x17.
Definition nvram_read (r : Z) : M (Dev D) Z :=
  lo ← mc146818_read r;
  hi ← mc146818_read (r + 1);
  mret (Z.lor lo (Z.shiftl hi 8)).

(** In bytes, from what CMOS says about memory above 1 MB (in KB) and above 16 MB (in 64 KB). *)
Definition maximum_physical_address (extended other : Z) : Z :=
  let size_of_extended_mem := ROUNDDOWN (u32 (extended * 1024)) PAGE_SIZE in
  let size_of_other_mem := ROUNDDOWN (u32 (other * 1024 * 64)) PAGE_SIZE in
  if 0 <? size_of_other_mem then u32 (size_of_other_mem + 16 * 1024 * 1024)
  else if negb (size_of_extended_mem =? 0) then u32 (PHYS_EXTENDED_MEM + size_of_extended_mem)
  else size_of_extended_mem.
(** What the message calls extended memory. *)
Definition reported_extended (extended other : Z) : Z :=
  if 0 <? ROUNDDOWN (u32 (other * 1024 * 64)) PAGE_SIZE
  then u32 (maximum_physical_address extended other - PHYS_EXTENDED_MEM)
  else ROUNDDOWN (u32 (extended * 1024)) PAGE_SIZE.

(** With USE_KHEAP the size of memory is not limited to the kernel's virtual area. *)
Definition detect_memory : Sys unit :=
  base ← in_devices (nvram_read NVRAM_BASELO);
  extended ← in_devices (nvram_read NVRAM_EXTLO);
  other ← in_devices (nvram_read 0x34);
  let size_of_base_mem := ROUNDDOWN (u32 (base * 1024)) PAGE_SIZE in
  let maxpa := maximum_physical_address extended other in
  in_kernel (modify (on_frames (set_number_of_frames (maxpa `div` PAGE_SIZE))));;
  say "Physical memory: ";; say (pretty (maxpa `div` 1024));; say "K available, base = ";;
  say (pretty (size_of_base_mem `div` 1024));; say "K, extended = ";;
  say (pretty (reported_extended extended other `div` 1024));; say ("K" +:+ newline).

(** ** The first function of the kernel *)
Definition tab : string := String (Ascii.ascii_of_nat 9) EmptyString.
Definition print_welcome_message : Sys unit :=
  say (newline +:+ newline +:+ newline);;
  say (tab +:+ tab +:+ "!!!!!!!!!!!!!!!!!!!!!!!!!!!!!!!!!!!!!!!!!!!!!!!!!!!!!!!!!!!!!!!!!" +:+ newline);;
  say (tab +:+ tab +:+ "!!                                                             !!" +:+ newline);;
  say (tab +:+ tab +:+ "!!                   !! FCIS says HELLO !!                     !!" +:+ newline);;
  say (tab +:+ tab +:+ "!!                                                             !!" +:+ newline);;
  say (tab +:+ tab +:+ "!!!!!!!!!!!!!!!!!!!!!!!!!!!!!!!!!!!!!!!!!!!!!!!!!!!!!!!!!!!!!!!!!" +:+ newline);;
  say (newline +:+ newline +:+ newline +:+ newline).

(** Addresses from the linker: the kernel's stack, the entry stubs and the task state. *)
Context (cga_present : bool) (ptr_stack_bottom : Z) (address : Entry → Z) (address_of_ts : Z).

Definition start_console : Sys unit :=
  in_devices (console_initialize cga_present);; print_welcome_message;; detect_memory.
Definition FOS_initialize {A} : Sys A :=
  start_console;;
  in_kernel (initialize_kernel_VM ptr_stack_bottom);;
  in_kernel (initialize_paging initialize_disk_page_file);;
  in_kernel env_init;;
  modify (λ s, set_descriptors (idt_init address address_of_ts (descriptors s)) s);;
  in_kernel setPageReplacmentAlgorithmLRU;;
  in_kernel setUHeapPlacementStrategyFIRSTFIT;;
  in_kernel (enableBuffering 0);;
  in_kernel (enableModifiedBuffer 0);;
  in_devices pic_init;;
  in_devices kclock_start;;
  in_kernel sched_init;;
  say (newline +:+ "Welcome to the FOS kernel command prompt!" +:+ newline);;
  say ("Type 'help' for a list of commands." +:+ newline);;
  in_kernel back_to_prompt.
End Init.
