(* ===== verification/KernelLife.v ===== *)
(** * Every entry into the kernel keeps the life cycle of environments

    The system calls, the trap dispatcher and the commands that create, run and kill environments
    as one transition system: [kernel_step s s'] if entering the kernel in state [s] ends, by
    returning, by running an environment, by a call of panic or by a page fault of the kernel, in
    state [s']; what the kernel does after a panic or a fault is an entry of its own.  The life
    cycle of LifeCycle.v is an invariant of it.  What the devices deliver must not touch it
    ([QuietDevices]).

    The kernel's variables are records of [KState], outside the modelled memory, so the model says
    what the kernel does only as long as no store and no change of a page table reaches them.
    Nothing in the code prevents that (ProtectSpec.v): [kernel_intact] is the part of the steps for
    which it holds. *)
From S2P Require Import Prelude Machine Queue State AddressSpace PageFlags FrameAlloc FrameAllocSpec Paging KHeap PageFile WorkingSet Fault UserEnv UserEnvSpec Sched SchedSpec Syscall Traps TrapsSpec Init Link Hoare Quiet LifeCycle.

Class QuietDevices (D : Devices) : Prop := {
  cons_getc2_quiet : quiet cons_getc2;
  get_virtual_time_quiet : quiet get_virtual_time;
}.
#[export] Hint Resolve cons_getc2_quiet get_virtual_time_quiet : changes.

Section Calls.
Context {X : Extern} {QX : QuietExtern X} {D : Devices} {QD : QuietDevices D}.

Lemma read_string_quiet fuel va : quiet (read_string fuel va).
Proof using. revert va. induction fuel as [|n IH]; intros va; cbn; changes. Qed.
#[local] Hint Resolve read_string_quiet : changes.
Lemma allocateMem_quiet e va size : quiet (allocateMem e va size).
Proof using QX. unfold allocateMem. changes. Qed.
Lemma freeMem_quiet e va size : quiet (freeMem e va size).
Proof using QX. unfold freeMem, free_resident_page, free_table_if_empty, table_is_empty. changes. Qed.
#[local] Hint Resolve allocateMem_quiet freeMem_quiet : changes.
Lemma sys_allocate_page_quiet va perm : quiet (__sys_allocate_page va perm).
Proof using QX. unfold __sys_allocate_page. changes. Qed.
Lemma sys_clearFFL_quiet : quiet sys_clearFFL.
Proof using QX. unfold sys_clearFFL. changes. Qed.
Lemma envid2env_quiet id check : quiet (envid2env id check).
Proof using. unfold envid2env. changes. Qed.
#[local] Hint Resolve sys_allocate_page_quiet sys_clearFFL_quiet envid2env_quiet : changes.
Lemma sys_env_destroy_keeps id : keeps (sys_env_destroy id).
Proof using QX. unfold sys_env_destroy. changes. Qed.
Lemma sys_create_env_keeps start_of name size : keeps (sys_create_env start_of name size).
Proof using QX.
  unfold sys_create_env. apply changes_bind; [apply _|changes|intros n].
  apply (create_then_keeps start_of n size
    (λ env, match env with None => mret E_ENV_CREATION_ERROR | Some e => x ← get_env e; mret (env_id x) end));
    intros; changes.
Qed.
#[local] Hint Resolve sys_env_destroy_keeps sys_create_env_keeps : changes.
Ltac call := unfold Syscall.sys_cputs, cputs_body, sys_cgetc, sys_getenvid, sys_env_exit, __sys_map_frame, __sys_unmap_frame,
  sys_calculate_required_frames, sys_calculate_free_frames, sys_calculate_modified_frames,
  sys_calculate_notmod_frames, sys_pf_calculate_allocated_pages, sys_freeMem, sys_allocateMem, sys_moveMem,
  moveMem, __freeMem_with_buffering, sys_disable_interrupt, sys_enable_interrupt, upd_eflags, sys_createSemaphore, sys_waitSemaphore,
  sys_signalSemaphore, sys_getSemaphoreValue, getSemaphoreNumber, createSemaphore, waitSemaphore, signalSemaphore,
  sys_createSharedObject, sys_getSharedObject, sys_freeSharedObject, createSharedObject, getSharedObject,
  freeSharedObject, sys_getCurrentSharedAddress, sys_getMaxShares, sys_run_env, sys_free_env,
  sys_get_virtual_time, sys_rcr2, sys_bypassPageFault, tst, rsttst, chktst, sys_get_heap_strategy,
  sys_set_uheap_strategy.
Lemma syscall_keeps start_of n a1 a2 a3 a4 a5 : keeps (syscall start_of n a1 a2 a3 a4 a5).
Proof using QX QD. unfold syscall. call. changes. Qed.
End Calls.

(** ** Entries into the kernel *)
Inductive entry :=
  | Trap (tf : Trapframe)                      (** an interrupt, fault or system call, in user or kernel mode *)
  | Panicked                                   (** what follows a panic *)
  | Load (name : string) (page_WS_size : Z)    (** the prompt's load command *)
  | Run (name : string) (page_WS_size : Z)     (** its run command *)
  | RunAll | Kill (envId : Z) | KillAll.

Section Kernel.
Context {X : Extern} {QX : QuietExtern X} {D : Devices} {QD : QuietDevices D}.
Variable start_of : string → Z.

Definition enter (en : entry) : K unit :=
  match en with
  | Trap tf => trap start_of (λ _, mret tt) tf
  | Panicked => _panic
  | Load name size =>
      env ← env_create start_of name size;
      match env with None => mret tt | Some e => sched_new_env (Some e);; mret tt end
  | Run name size =>
      env ← env_create start_of name size;
      match env with
      | None => mret tt
      | Some e => sched_new_env (Some e);; (x ← get_env e; sched_run_env (env_id x))
      end
  | RunAll => sched_run_all
  | Kill envId => sched_kill_env envId
  | KillAll => sched_kill_all
  end.

(** A trap from user mode, or one that interrupts the kernel and for which trap does not go back to
    the interrupted code (it does when page faults are bypassed, on behalf of the tests). *)
Definition no_resume (en : entry) (s : KState) : Prop :=
  match en with
  | Trap tf => Z.land (tf_cs tf) 3 = 3 ∨ tf_trapno tf ≠ T_PGFLT ∨ bypassInstrLength (config s) = 0
  | _ => True
  end.
(** Where the kernel stops without having done what the C standard leaves undefined. *)
Definition stops {A} (o : outcome KState A) : option KState :=
  match o with Crash (Undefined _) _ => None | o => final o end.
(** The addresses of the kernel's code and variables: its image, and the arrays behind it (envs,
    frames_info, disk_frames_info), which boot allocated at [arrays]. *)
Variable arrays : Z → Prop.
Definition kernel_own (s : KState) (va : Z) : Prop :=
  KERNEL_BASE + PHYS_EXTENDED_MEM ≤ va < end_of_kernel (boot s) ∨ arrays va.
Definition kernel_stack (va : Z) : Prop := KERNEL_STACK_TOP - KERNEL_STACK_SIZE ≤ va < KERNEL_STACK_TOP.
Notation kernel_translation s va := (mmu (mem (hw s)) (cr3 (hw s)) va true).
Record kernel_intact (s s' : KState) : Prop := {
  ki_mapped va : kernel_own s va ∨ kernel_stack va → kernel_translation s' va = kernel_translation s va;
  ki_words va pa : kernel_own s va → kernel_translation s va = Some pa →
    get_word s' (pa `div` 4) = get_word s (pa `div` 4);
}.
Definition kernel_step (s s' : KState) : Prop :=
  ∃ en, no_resume en s ∧ stops (enter en s) = Some s' ∧ kernel_intact s s'.
Lemma stops_final {A} (o : outcome KState A) s : stops o = Some s → final o = Some s.
Proof. by destruct o as [| |[]| |]. Qed.

Lemma trap_dispatch_keeps tf : keeps (trap_dispatch start_of tf).
Proof using QX QD.
  pose proof (syscall_keeps start_of). unfold trap_dispatch, isPageReplacmentAlgorithmLRU. changes.
Qed.
Lemma return_to_curenv_quiet {A} : quiet (@return_to_curenv A).
Proof using. unfold return_to_curenv. changes. Qed.
Lemma trap_from_user_keeps {A} tf : keeps (@trap_from_user _ _ start_of A tf).
Proof using QX QD.
  pose proof trap_dispatch_keeps. pose proof @return_to_curenv_quiet. unfold trap_from_user, put_tf. changes.
Qed.
Lemma trap_keeps {A} resume tf : (∀ tf, keeps (resume tf)) → keeps (@trap _ _ start_of A resume tf).
Proof using QX QD.
  intros Hr. pose proof @trap_from_user_keeps. pose proof trap_dispatch_keeps. pose proof @return_to_curenv_quiet.
  unfold trap. changes.
Qed.
Lemma panic_keeps {A} : keeps (@_panic _ A).
Proof using QX. unfold _panic. changes. Qed.
Lemma enter_keeps en : keeps (enter en).
Proof using QX QD.
  destruct en as [tf| |name size|name size| |id|]; cbn [enter];
    [apply trap_keeps; intros; changes|apply panic_keeps| | |changes..].
  - apply (create_then_keeps start_of name size (λ _, mret tt)); intros; changes.
  - apply (create_then_keeps start_of name size
      (λ env, match env with None => mret tt | Some e => x ← get_env e; sched_run_env (env_id x) end));
      intros; changes.
Qed.
Lemma steps_keep s s' : rtc kernel_step s s' → life_ok s → life_ok s'.
Proof using QX QD.
  induction 1 as [|s1 s2 s3 (en & _ & Hen & _) _ IH]; [done|]. intros Hs.
  apply IH, (enter_keeps en s1 s2); [by apply stops_final|done].
Qed.
End Kernel.

(** ** The initial state *)
Lemma dll_nil {E} `{LinkedNode E} (h : gmap Z E) : dll h (MkListHead None None 0) [].
Proof. unfold dll. split_and!; try done. constructor. Qed.
(** Every slot [slots] is on the free list. *)
Definition all_free (slots : list Z) (p : place) : list Z := match p with Free => slots | _ => [] end.
Lemma sched_init_lives s slots :
  env_free_slots s slots → slots ≡ₚ seqZ 0 NENV → (∀ e, e ∈ slots → env_status (env_at s e) = ENV_FREE) →
  ∃ s', sched_init s = Ret tt s' ∧ lives s' (all_free slots) [].
Proof.
  intros Hd Hp Hst. eexists. split; [reflexivity|]. split_and!.
  - intros []; [exact Hd|apply dll_nil| |apply dll_nil].
    exists [], []. split; [done|]. split; [apply dll_nil|done].
  - intros [] e Hin; [left; by apply Hst|by apply not_elem_of_nil in Hin..].
  - unfold members, all_free. by rewrite !app_nil_r.
Qed.
Lemma boot_lives s :
  env_free_slots s [] → ∃ s', (env_init;; sched_init) s = Ret tt s' ∧ lives s' (all_free (seqZ 0 NENV)) [].
Proof.
  intros H0. destruct (env_init_links_all_slots s H0) as (s1 & Hs1 & Hd & Hst).
  rewrite (bind_Ret _ _ _ _ _ Hs1). apply sched_init_lives; [exact Hd|reflexivity|].
  intros e He. apply Hst. revert He. rewrite elem_of_seqZ. clear. lia.
Qed.

(** ** Starting every new environment *)
Definition idle_fields (s : KState) : Z * option Z := (scheduler_status (sched s), curenv (environments s)).
Lemma move_keeps_idle e :
  changes (λ s s', idle_fields s' = idle_fields s) (sched_remove_new e;; sched_insert_ready e).
Proof.
  assert (PreOrder (λ s s' : KState, idle_fields s' = idle_fields s)) by (split; [done|intros ???; congruence]).
  unfold sched_remove_new, sched_insert_ready, on_queue, put_sched_next, upd_env, get_sched_next.
  changes; apply changes_modify; intros s; try done; by case_match.
Qed.

(** One iteration of the loop of sched_run_all. *)
Lemma start_first s L lo e xs :
  lives s L lo → L New = e :: xs →
  ∃ s' L', (sched_remove_new e;; sched_insert_ready e) s = Ret tt s' ∧ lives s' L' lo ∧
    idle_fields s' = idle_fields s ∧ L' New = xs ∧ L' Ready = L Ready ++ [e] ∧
    L' Free = L Free ∧ L' Exit = L Exit.
Proof.
  intros Hl HL. assert (e ∈ L New) as He by (rewrite HL; by left).
  assert (without e (L New) = xs) as Hw.
  { pose proof (at_place_NoDup s New (L New) (proj1 Hl New)) as Hnd. rewrite HL in *.
    apply (without_mid e [] xs Hnd). }
  pose proof (move_keeps_idle e s) as Hid. revert Hid.
  pose proof (remove_new_spec e L lo He s Hl) as Hr.
  destruct (LIST_REMOVE (envs (environments s)) (queue_of NewQueue (sched s)) e) as [h l] eqn:Hlr.
  destruct (remove_tail_moved s e (L New) h l NewQueue New ENV_UNKNOWN) as (s1 & Hs1 & _);
    [done|exact (proj1 Hl New)|done|by left|].
  fold (sched_remove_new e) in Hs1. rewrite Hs1 in Hr. rewrite (bind_Ret _ _ _ _ _ Hs1).
  set (L1 := put_at New (without e (L New)) L) in *.
  destruct (insert_ready_moved s1 (L1 Ready) e) as (s2 & Hs2 & _).
  { exact (proj1 Hr Ready). }
  { by apply (lives_loose s1 L1 lo Ready e) in Hr as []. }
  pose proof (insert_ready_spec e L1 lo s1 Hr) as Hi. rewrite Hs2 in *. intros Hid.
  exists s2, (put_at Ready (L1 Ready ++ [e]) L1). split_and!; [done|done|by apply Hid|..]; by rewrite <-?Hw.
Qed.
(** Its successor in the queue, read before the iteration. *)
Lemma new_first s L lo : lives s L lo → lh_first (env_new_queue (sched s)) = hd_or None (L New).
Proof. intros (Hat & _). apply (Hat New). Qed.
Lemma new_next s L lo e xs :
  lives s L lo → L New = e :: xs → LIST_NEXT (envs (environments s)) e = hd_or None xs.
Proof. intros (Hat & _) HL. specialize (Hat New). cbn in Hat. rewrite HL in Hat. by apply (dll_next _ _ []) in Hat. Qed.

Lemma start_all fuel s L lo :
  lives s L lo → (length (L New) < fuel)%nat →
  ∃ s' L', list_foreach (envs ∘ environments) fuel (hd_or None (L New))
             (λ e, sched_remove_new e;; sched_insert_ready e) s = Ret tt s' ∧
    lives s' L' lo ∧ idle_fields s' = idle_fields s ∧ L' New = [] ∧ L' Ready = L Ready ++ L New ∧
    L' Free = L Free ∧ L' Exit = L Exit.
Proof.
  remember (L New) as xs eqn:HL. symmetry in HL. revert s L HL fuel.
  induction xs as [|e xs IH]; intros s L HL [|fuel] Hl Hf; try (cbn in Hf; lia); unfold list_foreach; cbn [mloop hd_or].
  - exists s, L. split_and!; [done|done|done|done|by rewrite app_nil_r|done|done].
  - rewrite bind_assoc, bind_gets. cbn [compose LOOP_LIST_NEXT]. rewrite (new_next s L lo e xs Hl HL).
    destruct (start_first s L lo e xs Hl HL) as (s1 & L1 & Hs1 & Hl1 & Hid & Hn & Hr & Hfr & Hx).
    destruct (IH s1 L1 Hn fuel Hl1) as (s' & L' & Hs' & Hl' & Hid' & Hn' & Hr' & Hfr' & Hx'); [cbn in Hf; lia|].
    exists s', L'. split_and!; [|done|congruence|done|by rewrite Hr', Hr, <-app_assoc|congruence|congruence].
    rewrite <-Hs'. unfold list_foreach. rewrite bind_assoc, (bind_Ret _ _ _ _ _ Hs1). by rewrite bind_mret.
Qed.
Lemma queue_fits s L lo p : lives s L lo → (length (L p) < queue_fuel)%nat.
Proof.
  intros (_ & _ & Hm). apply Permutation_length in Hm. rewrite (Permutation_length (members_split p L lo)) in Hm.
  rewrite !length_app, length_seqZ in Hm. unfold queue_fuel.
  pose proof NENV_eq. lia.
Qed.

(** ** Properties *)

(** C11: the life cycle of environments is an invariant of the kernel as long as it does not damage
    itself.  From the state in which env_init and sched_init leave the environment table, any sequence
    of entries into the kernel (traps with any registers, from user mode or from kernel mode when trap
    does not go back to the interrupted code: system calls, page faults, clock interrupts; the
    prompt's commands that load, run and kill environments; what follows a panic), however each of
    them ends (it returns, runs an environment, panics or faults), leaves every one of the NENV slots
    on the free list, on exactly one of the new, ready and exit queues, or on none, with the lists
    well linked in both directions, their sizes right, sched_next in the ready queue, and the status
    of every listed environment the status of its list. This is under the condition that no entry of
    the sequence does what C leaves undefined (an array overrun), remaps or unmaps a page of the
    kernel's code, variables or stack, or stores into them: the code does not rule these out, since
    the system calls store through unchecked pointers and a program's access to a page of the kernel
    makes the page fault handler replace and then remove it. *)
Theorem kernel_keeps_life_cycle {X : Extern} {QX : QuietExtern X} {D : Devices} {QD : QuietDevices D}
    (start_of : string → Z) (arrays : Z → Prop) s s1 s2 :
  env_free_slots s [] → (env_init;; sched_init) s = Ret tt s1 → rtc (kernel_step start_of arrays) s1 s2 →
  ∃ L lo, lives s2 L lo.
Proof.
  intros H0 Hb Hs. destruct (boot_lives s H0) as (s1' & Hb' & Hl). rewrite Hb in Hb'. injection Hb' as <-.
  by apply (steps_keep start_of arrays s1 s2 Hs), (lives_ok _ _ _ Hl).
Qed.

(** C17: sched_run_all makes every new environment ready, in the order they were created, behind the
    environments that are ready already, and terminates; if the scheduler was stopped it then
    gives the processor to the first ready environment (to the prompt if there is none), otherwise
    it returns. *)
Theorem sched_run_all_starts_new s L lo :
  lives s L lo →
  ∃ s1 L1, lives s1 L1 lo ∧ L1 New = [] ∧ L1 Ready = L Ready ++ L New ∧ L1 Free = L Free ∧ L1 Exit = L Exit ∧
    (if scheduler_status (sched s) =? SCH_STOPPED
     then ∃ s2, sched_run_all s = Leave (hd_or None (L Ready ++ L New)) s2 ∧
                turns s2 (match L Ready ++ L New with [] => [] | n :: ts => ts ++ [n] end)
     else sched_run_all s = Ret tt s1).
Proof.
  intros Hl. destruct (start_all queue_fuel s L lo Hl) as (s1 & L1 & Hs1 & Hl1 & Hid & Hn & Hr & Hf & Hx);
    [by eapply queue_fits|].
  exists s1, L1. split_and!; [done..|]. injection Hid as Hst _.
  assert (sched_run_all s = if_stopped_run_scheduler s1) as ->.
  { unfold sched_run_all, foreach_env. rewrite bind_assoc, bind_gets. cbn [queue_of].
    rewrite (new_first s L lo Hl). by rewrite (bind_Ret _ _ _ _ _ Hs1). }
  unfold if_stopped_run_scheduler. rewrite bind_gets. cbn [compose]. rewrite Hst.
  destruct (_ =? SCH_STOPPED); [|done]. cbn [when].
  pose proof (proj1 Hl1 Ready) as Ht. cbn in Ht. rewrite Hr in Ht. destruct (L Ready ++ L New) as [|n ts].
  - destruct (scheduler_idle s1 Ht) as (s2 & ? & ? & _). by exists s2.
  - destruct (scheduler_turns s1 n ts Ht) as (s2 & ? & ? & _). by exists s2.
Qed.

(** ** Witnesses *)
Lemma no_devices_quiet : QuietDevices no_devices.
Proof. split; apply changes_ret, _. Qed.
Lemma no_slots : env_free_slots inhabitant [].
Proof. unfold env_free_slots, dll. split_and!; try done. constructor. Qed.
Definition booted : KState := match (env_init;; sched_init) inhabitant with Ret _ s => s | _ => inhabitant end.
Lemma booted_boot : (env_init;; sched_init) inhabitant = Ret tt booted ∧ lives booted (all_free (seqZ 0 NENV)) [].
Proof. unfold booted. by destruct (boot_lives inhabitant no_slots) as (s & -> & Hl). Qed.
Definition after (X : Extern) (en : entry) (s : KState) : KState :=
  match stops (@enter X no_devices (λ _, 0) en s) with Some s' => s' | None => s end.
Definition ends (X : Extern) (en : entry) (s : KState) : bool :=
  match stops (@enter X no_devices (λ _, 0) en s) with Some _ => true | None => false end.
Lemma same_memory_intact arrays s s' :
  mem (hw s') = mem (hw s) → cr3 (hw s') = cr3 (hw s) → kernel_intact arrays s s'.
Proof. intros Hm Hc. split; unfold get_word; intros; by rewrite ?Hm, ?Hc. Qed.
Lemma step_after X arrays en s :
  no_resume en s → ends X en s = true → mem (hw (after X en s)) = mem (hw s) → cr3 (hw (after X en s)) = cr3 (hw s) →
  @kernel_step X no_devices (λ _, 0) arrays s (after X en s).
Proof.
  intros Hn He Hm Hc. exists en. split; [done|]. split; [|by apply same_memory_intact].
  revert He. unfold ends, after. by destruct (stops _).
Qed.
Definition tick : entry := Trap (set_tf_trapno IRQ0_Clock inhabitant).
(** The prompt's runall on the fresh kernel, a clock interrupt, which panics since no environment
    runs, and what follows the panic. *)
(** Arrays in the third megabyte. *)
Definition third_megabyte (va : Z) : Prop := KERNEL_BASE + 0x200000 ≤ va < KERNEL_BASE + 0x300000.
Definition ticked : KState := after (kernel 1) Panicked (after (kernel 1) tick (after (kernel 1) RunAll booted)).
Lemma ticked_steps : rtc (@kernel_step (kernel 1) no_devices (λ _, 0) third_megabyte) booted ticked.
Proof.
  eapply rtc_l; [|eapply rtc_l; [|apply rtc_once]]; apply step_after;
    (exact I || (right; left; discriminate) || (vm_compute; reflexivity)).
Qed.
Lemma kernel_keeps_life_cycle_witness :
  ∃ s2 L lo, rtc (@kernel_step (kernel 1) no_devices (λ _, 0) third_megabyte) booted s2 ∧ lives s2 L lo.
Proof.
  destruct (@kernel_keeps_life_cycle (kernel 1) (kernel_quiet 1) no_devices no_devices_quiet (λ _, 0)
              third_megabyte inhabitant booted ticked no_slots (proj1 booted_boot) ticked_steps) as (L & lo & Hl).
  exists ticked, L, lo. split; [exact ticked_steps|exact Hl].
Defined.
(** A fresh kernel with one new environment, in slot 0. *)
Definition one_new : KState :=
  match (on_env_free_list (λ h l, LIST_REMOVE h l 0);; sched_insert_new 0) booted with
  | Ret _ s => s | _ => inhabitant
  end.
Lemma one_new_lives : ∃ L, lives one_new L [] ∧ L New = [0] ∧ L Ready = [].
Proof.
  assert (0 ∈ seqZ 0 NENV) as H0 by (rewrite elem_of_seqZ, NENV_eq; lia).
  destruct (leave_free_list booted booted 0 _ [] (proj2 booted_boot) H0) as (s1 & Hs1 & Hl1);
    [reflexivity|reflexivity|split; reflexivity|].
  pose proof (insert_new_spec 0 _ [] s1 Hl1) as Hi. unfold one_new. rewrite (bind_Ret _ _ _ _ _ Hs1).
  destruct (insert_tail_moved s1 0 [] NewQueue New ENV_NEW) as (s2 & Hs2 & _);
    [exact (proj1 Hl1 New)|apply not_elem_of_nil|by left|].
  fold (sched_insert_new 0) in Hs2. rewrite Hs2 in *. eexists. split; [exact Hi|]. split; reflexivity.
Qed.
Lemma sched_run_all_starts_new_witness : ∃ s2, sched_run_all one_new = Leave (Some 0) s2 ∧ turns s2 [0].
Proof.
  destruct one_new_lives as (L & Hl & HN & HR).
  destruct (sched_run_all_starts_new one_new L [] Hl) as (s1 & L1 & _ & _ & _ & _ & _ & Hrun).
  rewrite HN, HR in Hrun. assert ((scheduler_status (sched one_new) =? SCH_STOPPED) = true) as Hst by (vm_compute; reflexivity).
  rewrite Hst in Hrun. exact Hrun.
Defined.
