(* ===== verification/StringsSpec.v ===== *)
(** * What the string library promises

    lib/string.c on memory that holds strings: lengths, comparison, moves that may overlap, and
    where ltostr goes wrong.  The number of iterations a string's length calls for is enough. *)
From S2P Require Import Prelude Machine Strings.

Definition byte_at (s : CState) (p : Z) : Z := bytes s !!! p.
Definition bytes_ok (s : CState) : Prop := ∀ p, 0 ≤ byte_at s p < 256.
(** The bytes [l], none of them 0, and a terminator at address [p]. *)
Definition cstring (s : CState) (p : Z) (l : list Z) : Prop :=
  (∀ i c, l !! i = Some c → byte_at s (p + Z.of_nat i) = c ∧ c ≠ 0) ∧
  byte_at s (p + Z.of_nat (length l)) = 0.

Lemma cstring_nil s p : cstring s p [] ↔ byte_at s p = 0.
Proof.
  unfold cstring. cbn. rewrite Z.add_0_r. split; [by intros [_ ?]|]. intros H0. split; [|done].
  intros i c Hi. by rewrite lookup_nil in Hi.
Qed.
Lemma cstring_cons s p c l : cstring s p (c :: l) ↔ byte_at s p = c ∧ c ≠ 0 ∧ cstring s (p + 1) l.
Proof.
  unfold cstring. split.
  - intros [Hi H0]. destruct (Hi O c eq_refl) as [Hc Hn]. cbn in Hc. rewrite Z.add_0_r in Hc.
    split_and!; [done|done| |].
    + intros i d Hd. destruct (Hi (S i) d Hd) as [? ?]. split; [|done].
      by replace (p + 1 + Z.of_nat i) with (p + Z.of_nat (S i)) by lia.
    + rewrite <-H0. f_equal. cbn [length]. lia.
  - intros (Hc & Hn & Hi & H0). split.
    + intros [|i] d Hd; cbn in Hd; [simplify_eq; cbn; by rewrite Z.add_0_r|].
      destruct (Hi i d Hd) as [? ?]. split; [|done].
      by replace (p + Z.of_nat (S i)) with (p + 1 + Z.of_nat i) by lia.
    + rewrite <-H0. f_equal. cbn [length]. lia.
Qed.

(** ** Lengths and comparison *)
Lemma strlen_loop fuel s p l n :
  cstring s p l → (length l < fuel)%nat →
  mloop fuel (λ '(s, n), c ← rd s; if c =? 0 then mret (inr n) else mret (inl (s + 1, n + 1))) (p, n) s
    = Ret (n + Z.of_nat (length l)) s.
Proof.
  revert p n l. induction fuel as [|fuel IH]; intros p n l Hl Hf; [lia|].
  destruct l as [|c l].
  - apply cstring_nil in Hl. apply mloop_break. unfold rd. rewrite bind_gets. fold (byte_at s p).
    rewrite Hl. cbn. unfold mret, M_ret. do 2 f_equal. lia.
  - apply cstring_cons in Hl as (Hc & Hn & Hl).
    rewrite (mloop_next _ _ _ _ (p + 1, n + 1) s).
    + rewrite (IH _ _ l) by (done || cbn in Hf; lia). f_equal. cbn [length]. lia.
    + unfold rd. rewrite bind_gets. fold (byte_at s p). by rewrite Hc, (proj2 (Z.eqb_neq _ _)).
Qed.

(** The difference of the first bytes that differ, a string being followed by 0. *)
Fixpoint compare_strings (l r : list Z) : Z :=
  match l, r with
  | [], [] => 0
  | c :: _, [] => c
  | [], d :: _ => - d
  | c :: l, d :: r => if c =? d then compare_strings l r else c - d
  end.
Lemma compare_strings_eq l r :
  Forall (λ c, 0 < c) l → Forall (λ c, 0 < c) r → compare_strings l r = 0 ↔ l = r.
Proof.
  intros Hl. revert r. induction Hl as [|c l Hc Hl IH]; intros r Hr; destruct Hr as [|d r Hd Hr]; cbn;
    [done|split; [lia|done]|split; [lia|done]|].
  destruct (Z.eqb_spec c d) as [<-|Hne].
  - rewrite IH by done. split; congruence.
  - split; [lia|congruence].
Qed.

Lemma strcmp_spec fuel s p q l r :
  cstring s p l → cstring s q r → (length l < fuel)%nat →
  strcmp fuel p q s = Ret (compare_strings l r) s.
Proof.
  unfold strcmp. revert p q l r. induction fuel as [|fuel IH]; intros p q l r Hl Hr Hf; [lia|].
  destruct l as [|c l].
  - apply cstring_nil in Hl. apply mloop_break. unfold rd. rewrite !bind_gets.
    fold (byte_at s p) (byte_at s q). rewrite Hl. cbn. destruct r as [|d r].
    + apply cstring_nil in Hr. by rewrite Hr.
    + apply cstring_cons in Hr as (-> & _). done.
  - apply cstring_cons in Hl as (Hc & Hn & Hl). destruct r as [|d r].
    + apply cstring_nil in Hr. apply mloop_break. unfold rd. rewrite !bind_gets.
      fold (byte_at s p) (byte_at s q). rewrite Hc, Hr. rewrite (proj2 (Z.eqb_neq c 0)) by done. cbn.
      by rewrite Z.sub_0_r.
    + apply cstring_cons in Hr as (Hd & _ & Hr). destruct (Z.eqb_spec c d) as [<-|Hne].
      * cbn [compare_strings]. rewrite Z.eqb_refl, (mloop_next _ _ _ _ (p + 1, q + 1) s).
        { apply IH; [done|done|cbn in Hf; lia]. }
        unfold rd. rewrite !bind_gets. fold (byte_at s p) (byte_at s q).
        by rewrite Hc, Hd, (proj2 (Z.eqb_neq c 0)), Z.eqb_refl by done.
      * cbn [compare_strings]. rewrite (proj2 (Z.eqb_neq c d)) by done. apply mloop_break.
        unfold rd. rewrite !bind_gets. fold (byte_at s p) (byte_at s q).
        by rewrite Hc, Hd, (proj2 (Z.eqb_neq c 0)), (proj2 (Z.eqb_neq c d)) by done.
Qed.

(** ** Moves *)
Definition put_byte (p v : Z) (s : CState) : CState := set_bytes (<[p := u8 v]> (bytes s)) s.
Lemma byte_put_eq p v s : byte_at (put_byte p v s) p = u8 v.
Proof. unfold byte_at, put_byte. cbn. apply array_get_set_eq. Qed.
Lemma byte_put_ne p q v s : p ≠ q → byte_at (put_byte p v s) q = byte_at s q.
Proof. intros. unfold byte_at, put_byte. cbn. by apply array_get_set_ne. Qed.

(** [k] bytes have been copied from the low end; the rest of the source is still there. *)
Lemma copy_up_spec s dst src n :
  bytes_ok s → 0 ≤ n → (dst ≤ src ∨ src + n ≤ dst) →
  ∃ s', copy_up dst src n s = Ret tt s' ∧ output s' = output s ∧
    (∀ i, 0 ≤ i < n → byte_at s' (dst + i) = byte_at s (src + i)) ∧
    (∀ p, ¬ (dst ≤ p < dst + n) → byte_at s' p = byte_at s p).
Proof.
  intros Hok Hn Hov. unfold copy_up.
  apply (forM_seqZ (λ k s', output s' = output s ∧
    (∀ i, 0 ≤ i < k → byte_at s' (dst + i) = byte_at s (src + i)) ∧
    (∀ p, ¬ (dst ≤ p < dst + k) → byte_at s' p = byte_at s p))); [done|split_and!; [done|lia|done]|].
  intros k s1 Hk (Ho & Hc & Hr). rewrite Z.add_0_l. unfold rd. rewrite bind_gets.
  fold (byte_at s1 (src + k)). exists (put_byte (dst + k) (byte_at s1 (src + k)) s1). split; [done|].
  rewrite Hr by lia. split_and!; [done| |].
  - intros i Hi. destruct (decide (i = k)) as [->|].
    + rewrite byte_put_eq. apply u8_small, Hok.
    + rewrite byte_put_ne by lia. apply Hc. lia.
  - intros p Hp. rewrite byte_put_ne by lia. apply Hr. lia.
Qed.
Lemma copy_down_spec s dst src n :
  bytes_ok s → 0 ≤ n → src ≤ dst →
  ∃ s', copy_down dst src n s = Ret tt s' ∧ output s' = output s ∧
    (∀ i, 0 ≤ i < n → byte_at s' (dst + i) = byte_at s (src + i)) ∧
    (∀ p, ¬ (dst ≤ p < dst + n) → byte_at s' p = byte_at s p).
Proof.
  intros Hok Hn Hov. unfold copy_down.
  destruct (forM_seqZ (λ k s', output s' = output s ∧
    (∀ i, n - k ≤ i < n → byte_at s' (dst + i) = byte_at s (src + i)) ∧
    (∀ p, ¬ (dst + n - k ≤ p < dst + n) → byte_at s' p = byte_at s p))
    (λ i, c ← rd (src + n - 1 - i); wr (dst + n - 1 - i) c) 0 n s) as (s' & Hs' & Ho & Hc & Hr);
    [done|split_and!; [done|lia|done]| |].
  - intros k s1 Hk (Ho & Hc & Hr). rewrite Z.add_0_l. unfold rd. rewrite bind_gets.
    fold (byte_at s1 (src + n - 1 - k)).
    exists (put_byte (dst + n - 1 - k) (byte_at s1 (src + n - 1 - k)) s1). split; [done|].
    rewrite Hr by lia. split_and!; [done| |].
    + intros i Hi. destruct (decide (i = n - 1 - k)) as [->|].
      * replace (dst + (n - 1 - k)) with (dst + n - 1 - k) by lia. rewrite byte_put_eq.
        replace (src + (n - 1 - k)) with (src + n - 1 - k) by lia. apply u8_small, Hok.
      * rewrite byte_put_ne by lia. apply Hc. lia.
    + intros p Hp. rewrite byte_put_ne by lia. apply Hr. lia.
  - exists s'. split_and!; [done|done| |]; intros i Hi; [apply Hc|apply Hr]; lia.
Qed.

(** ** Properties *)

(** Strcmp of two strings returns the difference of the first bytes that differ, within as
    many steps as the first string has bytes: it is 0 exactly when the strings are equal. *)
Theorem strcmp_compares fuel s p q l r :
  cstring s p l → cstring s q r → bytes_ok s → (length l < fuel)%nat →
  strcmp fuel p q s = Ret (compare_strings l r) s ∧ (compare_strings l r = 0 ↔ l = r).
Proof.
  intros Hl Hr Hok Hf. split; [by apply strcmp_spec|].
  assert (∀ p l, cstring s p l → Forall (λ c, 0 < c) l) as Hpos.
  { intros a m [Hi _]. apply Forall_lookup. intros i c Hc. destruct (Hi i c Hc) as [<- Hn].
    specialize (Hok (a + Z.of_nat i)). lia. }
  apply compare_strings_eq; by eapply Hpos.
Qed.

(** Memmove copies [n] bytes correctly however source and destination overlap, returns the
    destination and changes no other byte. *)
Theorem memmove_handles_overlap s dst src n :
  bytes_ok s → 0 ≤ n →
  ∃ s', memmove dst src n s = Ret dst s' ∧ output s' = output s ∧
    (∀ i, 0 ≤ i < n → byte_at s' (dst + i) = byte_at s (src + i)) ∧
    (∀ p, ¬ (dst ≤ p < dst + n) → byte_at s' p = byte_at s p).
Proof.
  intros Hok Hn. unfold memmove.
  destruct (Z.ltb_spec src dst), (Z.ltb_spec dst (src + n)); cbn [andb].
  - destruct (copy_down_spec s dst src n Hok Hn) as (s' & Hs' & ?); [lia|]. exists s'. by mstep Hs'.
  - destruct (copy_up_spec s dst src n Hok Hn) as (s' & Hs' & ?); [lia|]. exists s'. by mstep Hs'.
  - destruct (copy_up_spec s dst src n Hok Hn) as (s' & Hs' & ?); [lia|]. exists s'. by mstep Hs'.
  - destruct (copy_up_spec s dst src n Hok Hn) as (s' & Hs' & ?); [lia|]. exists s'. by mstep Hs'.
Qed.

(** Ltostr stops at a zero among the tens: a number whose tens digit is 0 is written as its
    last digit alone, 105 as "5". *)
Theorem ltostr_stops_at_zero s str v :
  0 ≤ v < 2 ^ 31 → (v / 10) `mod` 10 = 0 →
  ∃ s', ltostr v str s = Ret tt s' ∧ cstring s' str [48 + v `mod` 10].
Proof.
  intros Hv Hz. unfold ltostr. rewrite (proj2 (Z.ltb_ge v 0)) by lia. cbn [when]. rewrite bind_mret.
  assert (Z.rem v 10 = v `mod` 10) as Hrem by (apply Z.rem_mod_nonneg; lia).
  assert (Z.quot v 10 = v / 10) as Hquot by (apply Z.quot_div_nonneg; lia).
  assert (Z.rem (v / 10) 10 = 0) as Hz' by (rewrite Z.rem_mod_nonneg; [done|apply Z.div_pos; lia|lia]).
  assert (ltostr_digits v 0 str s = Ret 1 (put_byte (str + 0) (v `mod` 10 + 48) s)) as Hdig.
  { unfold ltostr_digits. apply mloop_break. unfold wr. rewrite bind_modify, Hrem, Hquot, Hz'. done. }
  mstep Hdig. unfold reverse_bytes. change (1 - 1) with 0.
  rewrite (bind_Ret _ _ _ tt (put_byte (str + 0) (v `mod` 10 + 48) s)) by done.
  eexists. split; [done|]. fold (put_byte (str + 1) 0 (put_byte (str + 0) (v `mod` 10 + 48) s)).
  rewrite Z.add_0_r. pose proof (Z.mod_pos_bound v 10). rewrite cstring_cons, cstring_nil.
  rewrite byte_put_ne, !byte_put_eq, u8_small by lia. split_and!; [lia|lia|done].
Qed.

(** ** Witnesses *)
(** "ab" at 100 and "ac" at 200. *)
Definition two_strings : CState :=
  MkCState (<[100 := 97]> (<[101 := 98]> (<[200 := 97]> (<[201 := 99]> ∅)))) [].
Lemma two_strings_ok : bytes_ok two_strings.
Proof.
  intros p. unfold byte_at, two_strings. cbn [bytes].
  destruct (decide (100 = p)) as [<-|]; [done|]. rewrite array_get_set_ne by done.
  destruct (decide (101 = p)) as [<-|]; [done|]. rewrite array_get_set_ne by done.
  destruct (decide (200 = p)) as [<-|]; [done|]. rewrite array_get_set_ne by done.
  destruct (decide (201 = p)) as [<-|]; [done|]. rewrite array_get_set_ne by done. done.
Qed.
Lemma strcmp_compares_witness : strcmp 3 100 200 two_strings = Ret (-1) two_strings.
Proof.
  apply (strcmp_compares 3 two_strings 100 200 [97; 98] [97; 99]).
  - rewrite !cstring_cons, cstring_nil. by vm_compute.
  - rewrite !cstring_cons, cstring_nil. by vm_compute.
  - apply two_strings_ok.
  - cbn. lia.
Defined.
Lemma memmove_handles_overlap_witness :
  ∃ s', memmove 101 100 2 two_strings = Ret 101 s' ∧ byte_at s' 102 = 98 ∧ byte_at s' 101 = 97.
Proof.
  destruct (memmove_handles_overlap two_strings 101 100 2 two_strings_ok) as (s' & Hs' & _ & Hc & _); [lia|].
  exists s'. split; [exact Hs'|]. split; [exact (Hc 1 ltac:(lia))|exact (Hc 0 ltac:(lia))].
Defined.
Lemma ltostr_stops_at_zero_witness :
  ∃ s', ltostr 105 300 two_strings = Ret tt s' ∧ cstring s' 300 [53].
Proof. apply (ltostr_stops_at_zero two_strings 300 105); [lia|reflexivity]. Defined.
