(* ===== verification/SplitSpec.v ===== *)
(** * Splitting a command line

    strsplit (lib/string.c) cuts a line in place: it overwrites the separators before each word
    with zeros and returns the addresses of the first fifteen words. *)
From S2P Require Import Prelude Machine Strings StringsSpec.

(** ** The words of a line, with their addresses *)
Section Words.
Context (sep : Z → bool).

Fixpoint words (p : Z) (l : list Z) : list (Z * list Z) :=
  match l with
  | [] => []
  | c :: l =>
      let rest := words (p + 1) l in
      if sep c then rest else
      match rest with
      | (a, w) :: ws => if a =? p + 1 then (p, c :: w) :: ws else (p, [c]) :: rest
      | [] => [(p, [c])]
      end
  end.

Definition starts_word (l : list Z) : bool := match l with c :: _ => negb (sep c) | [] => false end.

Lemma words_skip pre p l :
  Forall (λ c, sep c = true) pre → words p (pre ++ l) = words (p + Z.of_nat (length pre)) l.
Proof.
  intros Hpre. revert p. induction Hpre as [|c pre Hc Hpre IH]; intros p; [by rewrite Z.add_0_r|].
  cbn [app words]. rewrite Hc, IH. f_equal. cbn [length]. lia.
Qed.
Lemma words_from p l a w ws : words p l = (a, w) :: ws → p ≤ a ∧ (starts_word l = false → p < a).
Proof.
  revert p a w ws. induction l as [|c l IH]; intros p a w ws; [done|]. cbn [words starts_word].
  destruct (sep c); cbn [negb].
  - intros Hw. apply IH in Hw as [Hle _]. lia.
  - destruct (words (p + 1) l) as [|[a' w'] ws']; [|destruct (a' =? p + 1)]; intros [= <- _ _]; (split; [lia|done]).
Qed.
Lemma words_word w p r :
  w ≠ [] → Forall (λ c, sep c = false) w → starts_word r = false →
  words p (w ++ r) = (p, w) :: words (p + Z.of_nat (length w)) r.
Proof.
  intros Hne Hw Hr. revert p. induction Hw as [|c w Hc Hw IH]; intros p; [done|].
  cbn [app words]. rewrite Hc. destruct w as [|c' w].
  - cbn [app length]. change (Z.of_nat 1) with 1.
    destruct (words (p + 1) r) as [|[a v] ws] eqn:Hws; [done|]. apply words_from in Hws as [_ Hlt].
    specialize (Hlt Hr). by rewrite (proj2 (Z.eqb_neq _ _)) by lia.
  - rewrite IH by done. rewrite Z.eqb_refl. do 2 f_equal. cbn [length]. lia.
Qed.

(** A line is separators, a word, and a rest that starts with no word. *)
Lemma split_line l :
  (Forall (λ c, sep c = true) l) ∨
  ∃ pre w r, l = pre ++ w ++ r ∧ Forall (λ c, sep c = true) pre ∧ w ≠ [] ∧
    Forall (λ c, sep c = false) w ∧ starts_word r = false.
Proof.
  induction l as [|c l IH]; [by left|].
  destruct (sep c) eqn:Hc.
  - destruct IH as [IH|(pre & w & r & -> & Hpre & Hrest)]; [left; by constructor|].
    right. exists (c :: pre), w, r. split; [done|]. split; [by constructor|done].
  - right. destruct (starts_word l) eqn:Hl.
    + destruct IH as [IH|(pre & w & r & -> & Hpre & Hne & Hw & Hr)].
      { destruct l as [|c' l]; [done|]. inversion IH; subst. cbn in Hl. by rewrite H1 in Hl. }
      destruct pre as [|c' pre]; [|cbn in Hl; inversion Hpre; subst; by rewrite H1 in Hl].
      exists [], (c :: w), r. split; [done|]. split; [done|]. split; [done|]. split; [by constructor|done].
    + exists [], [c], l. split; [done|]. split; [done|]. split; [done|]. by split; [constructor|].
Qed.
End Words.

(** ** The loops *)
Lemma cstring_app s p l1 l2 :
  cstring s p (l1 ++ l2) ↔
  (∀ i c, l1 !! i = Some c → byte_at s (p + Z.of_nat i) = c ∧ c ≠ 0) ∧ cstring s (p + Z.of_nat (length l1)) l2.
Proof.
  revert p. induction l1 as [|c l1 IH]; intros p.
  - rewrite Z.add_0_r. split; [|by intros [_ ?]]. intros Hl. by split.
  - cbn [app]. rewrite cstring_cons, IH. cbn [length].
    replace (p + Z.of_nat (Datatypes.S (length l1))) with (p + 1 + Z.of_nat (length l1)) by lia.
    split.
    + intros (Hc & Hn & Hl & Hr). split; [|done]. intros [|i] d Hd; cbn in Hd; [simplify_eq; by rewrite Z.add_0_r|].
      replace (p + Z.of_nat (Datatypes.S i)) with (p + 1 + Z.of_nat i) by lia. by apply Hl.
    + intros (Hl & Hr). destruct (Hl O c eq_refl) as [Hc Hn]. rewrite Z.add_0_r in Hc.
      split_and!; [done|done| |done]. intros i d Hd.
      replace (p + 1 + Z.of_nat i) with (p + Z.of_nat (Datatypes.S i)) by lia. by apply Hl.
Qed.
Lemma cstring_same s s' p l :
  (∀ a, p ≤ a ≤ p + Z.of_nat (length l) → byte_at s' a = byte_at s a) → cstring s p l → cstring s' p l.
Proof.
  intros Hs [Hi H0]. split; [|by rewrite Hs by lia].
  intros i c Hc. pose proof (lookup_lt_Some _ _ _ Hc). rewrite Hs by lia. by apply Hi.
Qed.

Lemma strchr_spec fuel s p l c :
  cstring s p l → (length l < fuel)%nat →
  ∃ r, strchr fuel p c s = Ret r s ∧ (c ≠ 0 → bool_decide (is_Some r) = bool_decide (c ∈ l)).
Proof.
  unfold strchr. revert p l. induction fuel as [|fuel IH]; intros p l Hl Hf; [lia|].
  destruct l as [|d l].
  - apply cstring_nil in Hl. exists None. split; [|intros; symmetry; by apply bool_decide_eq_false, not_elem_of_nil].
    apply mloop_break. unfold rd. rewrite bind_gets. fold (byte_at s p). by rewrite Hl.
  - apply cstring_cons in Hl as (Hd & Hn & Hl). destruct (decide (d = c)) as [->|Hne].
    + exists (Some p). split; [|intros; symmetry; apply bool_decide_eq_true; by left].
      apply mloop_break. unfold rd. rewrite bind_gets. fold (byte_at s p).
      by rewrite Hd, (proj2 (Z.eqb_neq c 0)), Z.eqb_refl.
    + destruct (IH (p + 1) l Hl) as (r & Hr & Hin); [cbn in Hf; lia|]. exists r. split.
      * rewrite (mloop_next _ _ _ _ (p + 1) s); [done|]. unfold rd. rewrite bind_gets. fold (byte_at s p).
        by rewrite Hd, !(proj2 (Z.eqb_neq d _)).
      * intros Hc. rewrite Hin by done. apply bool_decide_ext. rewrite elem_of_cons. naive_solver.
Qed.

Section Split.
Context (fuel : nat) (t : Z) (ds : list Z).
Notation sep := (λ c, bool_decide (c ∈ ds)).
Notation apart s q n := (cstring s t ds ∧ (length ds < fuel)%nat ∧ (t + Z.of_nat (length ds) < q ∨ q + n ≤ t)).

Lemma skip_loop s q pre l :
  cstring s q (pre ++ l) → Forall (λ c, sep c = true) pre → (l = [] ∨ starts_word sep l = true) →
  apart s q (Z.of_nat (length pre)) → ∀ n, (length pre < n)%nat →
  ∃ s', mloop n (λ p, c ← rd p; hit ← strchr fuel t c;
          if negb (c =? 0) && bool_decide (is_Some hit) then wr p 0;; mret (inl (p + 1)) else mret (inr p)) q s
        = Ret (q + Z.of_nat (length pre)) s' ∧ output s' = output s ∧
    (∀ a, q ≤ a < q + Z.of_nat (length pre) → byte_at s' a = 0) ∧
    (∀ a, ¬ (q ≤ a < q + Z.of_nat (length pre)) → byte_at s' a = byte_at s a).
Proof.
  intros Hl Hpre Hstop. revert q s Hl. induction Hpre as [|c pre Hc Hpre IH]; intros q s Hl (Hds & Hfd & Hap) n Hn.
  - destruct n as [|n]; [lia|]. rewrite Z.add_0_r. exists s. split; [|split_and!; [done|cbn; lia|done]].
    cbn [app] in Hl. destruct (strchr_spec fuel s t ds (byte_at s q) Hds Hfd) as (r & Hr & Hin).
    apply mloop_break. unfold rd. rewrite bind_gets. fold (byte_at s q). mstep Hr.
    destruct l as [|c l]; [apply cstring_nil in Hl; by rewrite Hl|].
    apply cstring_cons in Hl as (Hc & Hnz & _). destruct Hstop as [|Hstop]; [done|]. cbn in Hstop.
    rewrite Hc in Hin |- *. rewrite Hin by done. apply negb_true_iff in Hstop. rewrite Hstop, andb_false_r. done.
  - destruct n as [|n]; [lia|]. cbn [app] in Hl. apply cstring_cons in Hl as (Hcq & Hnz & Hl). cbn [length] in *.
    destruct (strchr_spec fuel s t ds (byte_at s q) Hds Hfd) as (r & Hr & Hin).
    set (s1 := put_byte q 0 s).
    assert (∀ a, a ≠ q → byte_at s1 a = byte_at s a) as Hs1 by (intros; by apply byte_put_ne).
    destruct (IH (q + 1) s1) with (n := n) as (s' & Hs' & Ho & Hz & Hrest).
    + eapply cstring_same; [|exact Hl]. intros a Ha. apply Hs1. lia.
    + split; [|split; [done|lia]]. eapply cstring_same; [|exact Hds]. intros a Ha. apply Hs1. lia.
    + lia.
    + exists s'. split_and!; [|done| |].
      * rewrite (mloop_next _ _ _ _ (q + 1) s1).
        { rewrite Hs'. f_equal. lia. }
        unfold rd. rewrite bind_gets. fold (byte_at s q). mstep Hr.
        rewrite Hcq in Hin |- *. rewrite Hin, Hc, (proj2 (Z.eqb_neq _ _)) by done. done.
      * intros a Ha. destruct (decide (a = q)) as [->|]; [|apply Hz; lia].
        rewrite Hrest by lia. unfold s1. by rewrite byte_put_eq.
      * intros a Ha. rewrite Hrest by lia. apply Hs1. lia.
Qed.

Lemma scan_loop s q w r :
  cstring s q (w ++ r) → Forall (λ c, sep c = false) w → starts_word sep r = false →
  cstring s t ds → (length ds < fuel)%nat → ∀ n, (length w < n)%nat →
  mloop n (λ p, c ← rd p; hit ← strchr fuel t c;
    if negb (c =? 0) && negb (bool_decide (is_Some hit)) then mret (inl (p + 1)) else mret (inr p)) q s
  = Ret (q + Z.of_nat (length w)) s.
Proof.
  intros Hl Hw Hr Hds Hfd. revert q Hl. induction Hw as [|c w Hc Hw IH]; intros q Hl n Hn.
  - destruct n as [|n]; [lia|]. rewrite Z.add_0_r. cbn [app] in Hl.
    destruct (strchr_spec fuel s t ds (byte_at s q) Hds Hfd) as (x & Hx & Hin).
    apply mloop_break. unfold rd. rewrite bind_gets. fold (byte_at s q). mstep Hx.
    destruct r as [|c r]; [apply cstring_nil in Hl; by rewrite Hl|].
    apply cstring_cons in Hl as (Hc & Hnz & _). cbn in Hr.
    rewrite Hc in Hin |- *. rewrite Hin by done. by rewrite Hr, andb_false_r.
  - destruct n as [|n]; [lia|]. cbn [app] in Hl. apply cstring_cons in Hl as (Hcq & Hnz & Hl). cbn [length] in *.
    destruct (strchr_spec fuel s t ds (byte_at s q) Hds Hfd) as (x & Hx & Hin).
    rewrite (mloop_next _ _ _ _ (q + 1) s).
    + rewrite IH by (done || lia). f_equal. lia.
    + unfold rd. rewrite bind_gets. fold (byte_at s q). mstep Hx.
      rewrite Hcq in Hin |- *. rewrite Hin, Hc, (proj2 (Z.eqb_neq _ _)) by done. done.
Qed.

(** The outer loop, from address [q] with the line [l] left and the words [argv] found. *)
Definition split_body (x : Z * list Z) : C ((Z * list Z) + (Z * list Z)) :=
  let '(string, argv) := x in
  string ← mloop fuel (λ p,
    c ← rd p; hit ← strchr fuel t c;
    if negb (c =? 0) && bool_decide (is_Some hit) then wr p 0;; mret (inl (p + 1))
    else mret (inr p)) string;
  c ← rd string;
  if c =? 0 then mret (inr (1, argv)) else
  if Z.of_nat (length argv) =? MAX_ARGUMENTS - 1 then mret (inr (0, argv)) else
  let argv := argv ++ [string] in
  string ← mloop fuel (λ p,
    c ← rd p; hit ← strchr fuel t c;
    if negb (c =? 0) && negb (bool_decide (is_Some hit)) then mret (inl (p + 1))
    else mret (inr p)) string;
  mret (inl (string, argv)).

(** What the words found are, once their separators are gone. *)
Definition cut (s s' : CState) (q : Z) (l : list Z) (k : nat) : Prop :=
  output s' = output s ∧
  (∀ a w, (a, w) ∈ take k (words sep q l) → cstring s' a w) ∧
  (∀ a, ¬ (q ≤ a < q + Z.of_nat (length l)) → byte_at s' a = byte_at s a) ∧
  (starts_word sep l = false → byte_at s' q = 0).
Definition split_result (q : Z) (l : list Z) (argv : list Z) : Z * list Z :=
  let k := (15 - length argv)%nat in
  (if decide (length (words sep q l) ≤ k)%nat then 1 else 0, argv ++ take k (words sep q l).*1).

Lemma split_result_cons q l argv a w q' r :
  words sep q l = (a, w) :: words sep q' r → (length argv < 15)%nat →
  split_result q' r (argv ++ [a]) = split_result q l argv.
Proof.
  intros Hw Hlt. unfold split_result. rewrite Hw, length_app. cbn [length fmap list_fmap].
  destruct (15 - length argv)%nat as [|k] eqn:Hk; [lia|]. replace (15 - (length argv + 1))%nat with k by lia.
  cbn [take]. rewrite <-app_assoc. cbn [app]. f_equal.
  destruct (decide _), (decide _); try done; lia.
Qed.

Lemma split_loop n : ∀ s q l argv m,
  (length l ≤ n)%nat → cstring s q l → apart s q (Z.of_nat (length l)) → (length l < fuel)%nat →
  (length argv ≤ 15)%nat → (length l < m)%nat →
  ∃ s', mloop m split_body (q, argv) s = Ret (split_result q l argv) s' ∧ cut s s' q l (15 - length argv).
Proof.
  induction n as [n IH] using lt_wf_ind. intros s q l argv [|m] Hn Hl (Hds & Hfd & Hap) Hf Hargv Hm; [lia|].
  destruct (split_line sep l) as [Hsep|(pre & w & r & -> & Hpre & Hne & Hw & Hr)].
  - destruct (skip_loop s q l [] ltac:(by rewrite app_nil_r) Hsep ltac:(by left) ltac:(done) fuel Hf)
      as (s1 & E1 & Ho & Hz & Hrest).
    assert (byte_at s1 (q + Z.of_nat (length l)) = 0) as H0 by (rewrite Hrest by lia; apply Hl).
    assert (words sep q l = []) as Hws by (by rewrite <-(app_nil_r l), words_skip).
    exists s1. split; [|split_and!; [done|by rewrite Hws, take_nil; intros ? ? ?%elem_of_nil|done|]].
    + apply mloop_break. unfold split_body. mstep E1. unfold rd. rewrite bind_gets.
      fold (byte_at s1 (q + Z.of_nat (length l))). rewrite H0. unfold split_result. rewrite Hws. cbn [fmap list_fmap]. rewrite take_nil, app_nil_r.
      cbn [Z.eqb length]. destruct (decide _); [done|lia].
    + intros _. destruct l; [by rewrite Z.add_0_r in H0|]. apply Hz. cbn. lia.
  - rewrite !length_app in *. pose proof Hl as (_ & Hlw)%cstring_app. pose proof Hlw as (Hwb & Hlr)%cstring_app.
    assert (starts_word sep (w ++ r) = true) as Hst.
    { destruct w as [|c w]; [done|]. inversion Hw; subst. cbn. apply negb_true_iff. done. }
    assert (apart s q (Z.of_nat (length pre))) as Hpa by (split; [done|split; [done|lia]]).
    assert (length pre < fuel)%nat as Hpf by lia.
    destruct (skip_loop s q pre (w ++ r) Hl Hpre (or_intror Hst) Hpa fuel Hpf)
      as (s1 & E1 & Ho & Hz & Hrest).
    set (a := q + Z.of_nat (length pre)) in *. set (q' := a + Z.of_nat (length w)) in *.
    assert (a = q + Z.of_nat (length pre) ∧ q' = a + Z.of_nat (length w)) as [Ea Eq'] by done.
    assert (words sep q (pre ++ w ++ r) = (a, w) :: words sep q' r) as Hws by (by rewrite words_skip, words_word).
    assert (cstring s1 a (w ++ r)) as Hl1.
    { eapply cstring_same; [|exact Hlw]. intros x Hx. apply Hrest. lia. }
    assert (byte_at s1 a ≠ 0) as Hna.
    { destruct w as [|c w]; [done|]. cbn [app] in Hl1. apply cstring_cons in Hl1 as (-> & ? & _). done. }
    assert (starts_word sep (pre ++ w ++ r) = false → byte_at s1 q = 0) as Hq.
    { destruct pre as [|c pre]; intros Hx; [cbn [app] in Hx; congruence|]. apply Hz. cbn [length] in Ea. lia. }
    assert (cstring s1 t ds) as Hds1 by (eapply cstring_same; [|exact Hds]; intros x Hx; apply Hrest; lia).
    destruct (decide (length argv = 15)%nat) as [H15|H15].
    + exists s1. rewrite H15. split; [|split_and!; [done|by intros ? ? ?%elem_of_nil|intros x Hx; rewrite !length_app in Hx; apply Hrest; lia|done]].
      apply mloop_break. unfold split_body. mstep E1. unfold rd. rewrite bind_gets. fold (byte_at s1 a).
      rewrite (proj2 (Z.eqb_neq _ _) Hna), H15. unfold split_result. rewrite Hws, H15. cbn [Nat.sub take fmap list_fmap].
      rewrite app_nil_r. destruct (decide _) as [Hd|]; [cbn in Hd; lia|done].
    + pose proof Hl1 as (_ & Hl2)%cstring_app. fold q' in Hl2.
      assert (0 < length w)%nat as Hwl by (destruct w; [done|cbn; lia]).
      destruct (IH (length r) ltac:(lia) s1 q' r (argv ++ [a]) m) as (s' & E' & Ho' & Hc' & Hrest' & Hq');
        [lia|done|split; [done|split; [done|lia]]|lia|rewrite length_app; cbn; lia|lia|].
      exists s'. split; [|split_and!; [congruence| | |]].
      * rewrite (mloop_next _ _ _ _ (q', argv ++ [a]) s1).
        { rewrite E'. f_equal. apply (split_result_cons _ _ _ _ w); [done|lia]. }
        unfold split_body. mstep E1. unfold rd. rewrite bind_gets. fold (byte_at s1 a).
        rewrite (proj2 (Z.eqb_neq _ _) Hna). rewrite (proj2 (Z.eqb_neq _ _)) by (unfold MAX_ARGUMENTS; lia).
        cbn zeta. mstep (scan_loop s1 a w r Hl1 Hw Hr Hds1 Hfd fuel ltac:(lia)). done.
      * rewrite Hws. destruct (15 - length argv)%nat as [|k] eqn:Hk; [lia|]. cbn [take].
        rewrite length_app in Hc'. cbn [length] in Hc'. replace (15 - (length argv + 1))%nat with k in Hc' by lia.
        intros x v [[= -> ->]|Hin]%elem_of_cons; [|by apply Hc'].
        apply cstring_app in Hl1 as (Hb1 & _). split; [|exact (Hq' Hr)].
        intros i c Hi. pose proof (lookup_lt_Some _ _ _ Hi). rewrite Hrest' by lia. by apply Hb1.
      * intros x Hx. rewrite !length_app in Hx. rewrite Hrest' by lia. apply Hrest. lia.
      * intros Hst'. rewrite Hrest' by lia. by apply Hq.
Qed.
End Split.

(** The words are maximal runs: together they are the line without its separators. *)
Lemma words_concat (sep : Z → bool) p l : concat (words sep p l).*2 = filter (λ c, sep c = false) l.
Proof.
  revert p. induction l as [|c l IH]; intros p; [done|]. cbn [words]. rewrite filter_cons. destruct (sep c); cbn.
  - apply IH.
  - rewrite <-(IH (p + 1)). destruct (words sep (p + 1) l) as [|[a w] ws]; [done|]. by destruct (a =? p + 1).
Qed.

Lemma strsplit_spec fuel s p t l ds :
  cstring s p l → cstring s t ds → (t + Z.of_nat (length ds) < p ∨ p + Z.of_nat (length l) ≤ t) →
  (length l < fuel)%nat → (length ds < fuel)%nat →
  let ws := words (λ c, bool_decide (c ∈ ds)) p l in
  ∃ s', strsplit fuel p t s = Ret (if decide (length ws ≤ 15)%nat then 1 else 0, take 15 ws.*1) s' ∧
    (∀ a w, (a, w) ∈ take 15 ws → cstring s' a w) ∧ concat ws.*2 = filter (λ c, c ∉ ds) l ∧
    output s' = output s ∧ ∀ a, ¬ (p ≤ a < p + Z.of_nat (length l)) → byte_at s' a = byte_at s a.
Proof.
  intros Hl Hds Hap Hf Hfd ws.
  destruct (split_loop fuel t ds (length l) s p l [] fuel) as (s' & E & Ho & Hw & Hr & _); try done; [cbn; lia|].
  exists s'. split; [exact E|]. split; [done|]. split; [|done].
  unfold ws. rewrite words_concat. apply list_filter_iff. intros c. by rewrite bool_decide_eq_false.
Qed.

(** ** Properties *)

(** C31: strsplit on a line and a set of separators, elsewhere in memory, returns the addresses of
    the first fifteen words in order and says whether there were more; each is a terminated
    string holding that word, the words together are the line without its separators, and no
    byte outside the line changes. *)
Theorem strsplit_cuts_words fuel s p t l ds :
  cstring s p l → cstring s t ds → (t + Z.of_nat (length ds) < p ∨ p + Z.of_nat (length l) ≤ t) →
  (length l < fuel)%nat → (length ds < fuel)%nat →
  let ws := words (λ c, bool_decide (c ∈ ds)) p l in
  ∃ s', strsplit fuel p t s = Ret (if decide (length ws ≤ 15)%nat then 1 else 0, take 15 ws.*1) s' ∧
    (∀ a w, (a, w) ∈ take 15 ws → cstring s' a w) ∧ concat ws.*2 = filter (λ c, c ∉ ds) l ∧
    output s' = output s ∧ ∀ a, ¬ (p ≤ a < p + Z.of_nat (length l)) → byte_at s' a = byte_at s a.
Proof. apply strsplit_spec. Qed.

(** ** Witness *)
(** "run  x" at 100 and the separator " " at 50. *)
Definition a_line : CState :=
  MkCState (list_to_map [(100, 114); (101, 117); (102, 110); (103, 32); (104, 32); (105, 120); (50, 32)]) [].
Lemma strsplit_cuts_words_witness :
  ∃ s', strsplit 9 100 50 a_line = Ret (1, [100; 105]) s' ∧ cstring s' 100 [114; 117; 110] ∧ cstring s' 105 [120].
Proof.
  destruct (strsplit_cuts_words 9 a_line 100 50 [114; 117; 110; 32; 32; 120] [32]) as (s' & E & W & _);
    [rewrite !cstring_cons, cstring_nil; by vm_compute|rewrite !cstring_cons, cstring_nil; by vm_compute
    |left; cbn; lia|cbn; lia|cbn; lia|].
  exists s'. split; [exact E|]. split; apply W; vm_compute; in_list.
Defined.
