(* ===== verification/Printf.v ===== *)
(** * Formatted output: lib/printfmt.c

    [putch] appends a character to the output; [printnum] prints an unsigned 64-bit number,
    [vprintfmt] interprets a format string of the memory with a list of arguments (the words the
    callers push; a [long long] takes two). *)
From S2P Require Import Prelude Machine Strings.

Definition putch (ch : Z) : C unit := modify (λ s, set_output (output s ++ [ch]) s).

(** "0123456789abcdef"[d] *)
Definition hex_digit (d : Z) : Z := if d <? 10 then 48 + d else 87 + d.

(** [while (--width > 0) putch(padc)] *)
Definition pad (width padc : Z) : C unit := forM (seqZ 0 (width - 1)) (λ _, putch padc).

(** A 64-bit number has at most 64 digits: the fuel of the callers is enough for every base. *)
Fixpoint printnum (fuel : nat) (num base width padc : Z) : C unit :=
  match fuel with
  | O => λ _, OutOfFuel
  | Datatypes.S n =>
      (if base <=? num then printnum n (num `div` base) base (width - 1) padc
       else pad width padc);;
      putch (hex_digit (num `mod` base))
  end.
Definition NUM_FUEL : nat := 65.

(** ** Arguments *)
Definition u64 (x : Z) : Z := x `mod` 2 ^ 64.
(** The value and the arguments left; reading past the arguments is undefined. *)
Definition va_arg (ap : list Z) : C (Z * list Z) :=
  match ap with a :: ap => mret (a, ap) | [] => undefined "va_arg" end.
Definition va_arg64 (ap : list Z) : C (Z * list Z) :=
  '(lo, ap) ← va_arg ap; '(hi, ap) ← va_arg ap; mret (lo + hi * 2 ^ 32, ap).
Definition getuint (ap : list Z) (lflag : Z) : C (Z * list Z) :=
  if 2 <=? lflag then va_arg64 ap else va_arg ap.
(** Sign extension to 64 bits. *)
Definition getint (ap : list Z) (lflag : Z) : C (Z * list Z) :=
  if 2 <=? lflag then '(v, ap) ← va_arg64 ap; mret (u64 v, ap)
  else '(v, ap) ← va_arg ap; mret (u64 (s32 v), ap).

Definition MAXERROR : Z := 100.
(** [error_string[err]]; the elements after the sixth are NULL. *)
Definition error_string (err : Z) : option string :=
  match err with
  | 1 => Some "unspecified error" | 2 => Some "bad environment" | 3 => Some "invalid parameter"
  | 4 => Some "out of memory" | 5 => Some "out of environments" | 6 => Some "segmentation fault"
  | _ => None
  end%string.
Definition putstring (s : string) : C unit :=
  forM (String.list_ascii_of_string s) (λ c, putch (Z.of_nat (Ascii.nat_of_ascii c))).

(** The fields of a %-escape read so far. *)
Record spec := MkSpec { padc : Z; width : Z; precision : Z; lflag : Z; altflag : bool }.
Definition spec0 : spec := MkSpec 32 (-1) (-1) 0 false.

(** [process_precision] *)
Definition process_precision (s : spec) (p : Z) : spec :=
  if width s <? 0 then MkSpec (padc s) p (-1) (lflag s) (altflag s)
  else MkSpec (padc s) (width s) p (lflag s) (altflag s).

Section Format.
Context (fuel : nat).

(** Decimal digits from [ch], the one before [fmt]. *)
Definition read_number (ch fmt : Z) : C (Z * Z) :=
  mloop fuel (λ '(ch, fmt, precision),
    let precision := s32 (precision * 10 + ch - 48) in
    ch ← rd fmt;
    if (ch <? 48) || (57 <? ch) then mret (inr (precision, fmt))
    else mret (inl (ch, fmt + 1, precision))) (ch, fmt, 0).

(** case 's'; NULL prints the literal "(null)". *)
Definition null_literal : list Z := [40; 110; 117; 108; 108; 41].
(** A [char] is signed: [ch] is negative for the bytes from 128 on. *)
Definition char_of (p i : Z) : C Z :=
  if p =? 0 then mret (nth (Z.to_nat i) null_literal 0) else c ← rd (p + i); mret (s8 c).
Definition length_of (p size : Z) : C Z :=
  if p =? 0 then mret (Z.min 6 size) else strnlen fuel p size.
Definition print_string (s : spec) (p : Z) : C unit :=
  width ← (if (0 <? width s) && negb (padc s =? 45)
           then n ← length_of p (u32 (precision s));
                forM (seqZ 0 (width s - n)) (λ _, putch (padc s));;
                mret (if width s - n <? 0 then width s - n else 0)
           else mret (width s));
  width ← mloop fuel (λ '(i, precision, width),
    ch ← char_of p i;
    if negb (ch =? 0) && ((precision <? 0) || (0 <=? precision - 1)) then
      putch (if altflag s && ((ch <? 32) || (126 <? ch)) then 63 else ch);;
      mret (inl (i + 1, (if precision <? 0 then precision else precision - 1), width - 1))
    else mret (inr width)) (0, precision s, width);
  forM (seqZ 0 width) (λ _, putch 32).

(** The default case: step back to just after the '%'. *)
Definition rewind (fmt : Z) : C Z :=
  mloop fuel (λ fmt, c ← rd (fmt - 1);
    if negb (c =? 37) then mret (inl (fmt - 1)) else mret (inr fmt)) (fmt - 1).

(** The [reswitch] loop: from [fmt], the spec read so far; the result is where the format goes
    on and the arguments left. *)
Definition escape_body (x : Z * spec * list Z) : C ((Z * spec * list Z) + (Z * list Z)) :=
  let '(fmt, s, ap) := x in
  ch ← rd fmt;
  let fmt := fmt + 1 in
  if ch =? 45 then mret (inl (fmt, MkSpec 45 (width s) (precision s) (lflag s) (altflag s), ap))
  else if ch =? 48 then
    mret (inl (fmt, MkSpec 48 (width s) (precision s) (lflag s) (altflag s), ap))
  else if (49 <=? ch) && (ch <=? 57) then
    '(p, fmt) ← read_number ch fmt; mret (inl (fmt, process_precision s p, ap))
  else if ch =? 42 then
    '(p, ap) ← va_arg ap; mret (inl (fmt, process_precision s (s32 p), ap))
  else if ch =? 46 then
    mret (inl (fmt, MkSpec (padc s) (if width s <? 0 then 0 else width s) (precision s) (lflag s)
                      (altflag s), ap))
  else if ch =? 35 then
    mret (inl (fmt, MkSpec (padc s) (width s) (precision s) (lflag s) true, ap))
  else if ch =? 108 then
    mret (inl (fmt, MkSpec (padc s) (width s) (precision s) (lflag s + 1) (altflag s), ap))
  else if ch =? 99 then
    '(a, ap) ← va_arg ap; putch a;; mret (inr (fmt, ap))
  else if ch =? 101 then
    '(a, ap) ← va_arg ap;
    let err := if s32 a <? 0 then s32 (- s32 a) else s32 a in
    (if err <? 0 then undefined "error_string"
     else if MAXERROR <? err then putstring "error ";; printnum NUM_FUEL err 10 (-1) 32
     else match error_string err with
          | None => putstring "error ";; printnum NUM_FUEL err 10 (-1) 32
          | Some m => putstring m
          end);;
    mret (inr (fmt, ap))
  else if ch =? 115 then
    '(p, ap) ← va_arg ap;
    print_string s p;;
    mret (inr (fmt, ap))
  else if ch =? 100 then
    '(num, ap) ← getint ap (lflag s);
    num ← (if 2 ^ 63 <=? num then putch 45;; mret (u64 (- num)) else mret num);
    printnum NUM_FUEL num 10 (width s) (padc s);;
    mret (inr (fmt, ap))
  else if ch =? 117 then
    '(num, ap) ← getuint ap (lflag s);
    printnum NUM_FUEL num 10 (width s) (padc s);; mret (inr (fmt, ap))
  else if ch =? 111 then putch 88;; putch 88;; putch 88;; mret (inr (fmt, ap))
  else if ch =? 112 then
    putch 48;; putch 120;;
    '(num, ap) ← va_arg ap;
    printnum NUM_FUEL (u32 num) 16 (width s) (padc s);; mret (inr (fmt, ap))
  else if ch =? 120 then
    '(num, ap) ← getuint ap (lflag s);
    printnum NUM_FUEL num 16 (width s) (padc s);; mret (inr (fmt, ap))
  else if ch =? 37 then putch 37;; mret (inr (fmt, ap))
  else putch 37;; fmt ← rewind fmt; mret (inr (fmt, ap)).

Definition vprintfmt (fmt : Z) (ap : list Z) : C unit :=
  mloop fuel (λ '(fmt, ap),
    ch ← rd fmt;
    if negb (ch =? 37) then
      if ch =? 0 then mret (inr tt) else putch ch;; mret (inl (fmt + 1, ap))
    else
      '(fmt, ap) ← mloop fuel escape_body (fmt + 1, spec0, ap);
      mret (inl (fmt, ap))) (fmt, ap).
End Format.

(** [struct sprintbuf] and [sprintputch]: characters beyond the buffer are only counted. *)
Record sprintbuf := MkBuf { sb_buf : Z; sb_ebuf : Z; sb_cnt : Z }.
Definition sprintputch (ch : Z) (b : sprintbuf) : C sprintbuf :=
  if sb_buf b <? sb_ebuf b then
    wr (sb_buf b) ch;; mret (MkBuf (sb_buf b + 1) (sb_ebuf b) (sb_cnt b + 1))
  else mret (MkBuf (sb_buf b) (sb_ebuf b) (sb_cnt b + 1)).
Fixpoint sprintputch_all (cs : list Z) (b : sprintbuf) : C sprintbuf :=
  match cs with
  | [] => mret b
  | c :: cs => b ← sprintputch c b; sprintputch_all cs b
  end.
(** vsnprintf once the format has produced the characters [cs]. *)
Definition vsnprintf_chars (buf n : Z) (cs : list Z) : C Z :=
  if (buf =? 0) || (n <? 1) then mret (- E_INVAL) else
  b ← sprintputch_all cs (MkBuf buf (buf + n - 1) 0);
  wr (sb_buf b) 0;;
  mret (sb_cnt b).
(** vsnprintf: the characters of the format go to [sprintputch] and not to the output.  The buffer
    is apart from the format and the strings it names, so they can be collected first. *)
Definition vsnprintf (fuel : nat) (buf n fmt : Z) (ap : list Z) : C Z :=
  if (buf =? 0) || (n <? 1) then mret (- E_INVAL) else
  before ← gets output;
  modify (set_output []);;
  vprintfmt fuel fmt ap;;
  cs ← gets output;
  modify (set_output before);;
  vsnprintf_chars buf n cs.
(** The arguments of [...] are the list. *)
Definition snprintf (fuel : nat) (buf n fmt : Z) (ap : list Z) : C Z := vsnprintf fuel buf n fmt ap.
Definition printfmt (fuel : nat) (fmt : Z) (ap : list Z) : C unit := vprintfmt fuel fmt ap.

(** ** kern/printf.c: [*cnt++] moves the pointer, so the count stays 0 *)
Definition vcprintf (fuel : nat) (fmt : Z) (ap : list Z) : C Z :=
  let cnt := 0 in vprintfmt fuel fmt ap;; mret cnt.

(** ** lib/printf.c: the characters of a call are collected and handed to sys_cputs *)
Record printbuf := MkPrintbuf { pb_buf : list Z; pb_cnt : Z; pb_puts : list (list Z) }.
Definition user_putch (ch : Z) (b : printbuf) : printbuf :=
  let buf := pb_buf b ++ [u8 ch] in
  if Z.of_nat (length buf) =? 256 - 1 then MkPrintbuf [] (pb_cnt b + 1) (pb_puts b ++ [buf])
  else MkPrintbuf buf (pb_cnt b + 1) (pb_puts b).
(** vcprintf once the format has produced the characters [cs]: the calls and the count. *)
Definition user_vcprintf (cs : list Z) : list (list Z) * Z :=
  let b := foldl (λ b ch, user_putch ch b) (MkPrintbuf [] 0 []) cs in (pb_puts b ++ [pb_buf b], pb_cnt b).

(** Every character is passed on once and in order, in chunks the buffer holds, and counted. *)
Lemma user_vcprintf_calls cs :
  concat (user_vcprintf cs).1 = u8 <$> cs ∧ Forall (λ l, (length l ≤ 255)%nat) (user_vcprintf cs).1 ∧
  (user_vcprintf cs).2 = Z.of_nat (length cs).
Proof.
  unfold user_vcprintf. cbn [fst snd]. rewrite concat_app, Forall_app, Forall_singleton. cbn [concat]. rewrite app_nil_r.
  cut (let b := foldl (λ b ch, user_putch ch b) (MkPrintbuf [] 0 []) cs in
       concat (pb_puts b) ++ pb_buf b = u8 <$> cs ∧ Forall (λ l, (length l ≤ 255)%nat) (pb_puts b) ∧
       (length (pb_buf b) < 255)%nat ∧ pb_cnt b = Z.of_nat (length cs)).
  { intros (Hc & Hp & Hb & Hn). split; [done|]. split; [split; [done|lia]|done]. }
  induction cs as [|c cs IH] using rev_ind; [by split_and!; cbn; try lia|]. cbn zeta in *. rewrite foldl_app. cbn [foldl].
  destruct IH as (Hc & Hp & Hb & Hn). set (b := foldl _ _ cs) in *. unfold user_putch.
  rewrite fmap_app, !length_app. cbn [length fmap list_fmap].
  destruct (Z.eqb_spec (Z.of_nat (length (pb_buf b) + 1)) (256 - 1)) as [He|He]; cbn [pb_buf pb_cnt pb_puts].
  - rewrite concat_app. cbn [concat]. rewrite !app_nil_r, app_assoc, Hc. split; [done|].
    split; [|cbn; split; lia]. apply Forall_app. split; [done|]. apply Forall_singleton. rewrite length_app. cbn. lia.
  - rewrite app_assoc, Hc, length_app. cbn [length]. split; [done|]. split; [done|]. split; lia.
Qed.
