(* ===== verification/PrintfSpec.v ===== *)
(** * What formatted output promises

    printnum writes the digits of a number in a base, padded to a width; the conversions %d, %u
    and %x of vprintfmt write numbers that strtol reads back.  A 64-bit number has at most 64
    digits in any base, so the fuel of printnum is enough.  snprintf stays inside its buffer. *)
From S2P Require Import Prelude Machine Strings StringsSpec Printf.

(** ** Digits *)
Definition append (cs : list Z) (s : CState) : CState := set_output (output s ++ cs) s.
Lemma append_nil s : append [] s = s.
Proof. destruct s. unfold append, set_output. cbn. by rewrite app_nil_r. Qed.
Lemma append_append cs ds s : append ds (append cs s) = append (cs ++ ds) s.
Proof. unfold append, set_output. cbn. by rewrite app_assoc. Qed.
Lemma putch_append c s : putch c s = Ret tt (append [c] s).
Proof. done. Qed.
Lemma putch_each {A} (l : list A) c s :
  forM l (λ _, putch c) s = Ret tt (append (replicate (length l) c) s).
Proof.
  revert s. induction l as [|x l IH]; intros s; [by rewrite append_nil|].
  cbn [forM length replicate]. by rewrite (bind_Ret _ _ _ _ _ (putch_append c s)), IH, append_append.
Qed.
Lemma putch_all n c s :
  forM (seqZ 0 n) (λ _, putch c) s = Ret tt (append (replicate (Z.to_nat n) c) s).
Proof. by rewrite putch_each, length_seqZ. Qed.

(** The digits of a number, most significant first; the fuel bounds their number. *)
Fixpoint num_digits (fuel : nat) (base num : Z) : list Z :=
  match fuel with
  | O => []
  | Datatypes.S n =>
      (if base <=? num then num_digits n base (num `div` base) else []) ++ [hex_digit (num `mod` base)]
  end.
(** What printnum writes. *)
Definition padded (width padc : Z) (cs : list Z) : list Z :=
  replicate (Z.to_nat (width - Z.of_nat (length cs))) padc ++ cs.

Section Base.
Context (base : Z) (Hbase : 2 ≤ base ≤ 16).

Lemma drop_digit fuel num :
  0 ≤ num < 2 ^ Z.of_nat (S fuel) → 0 ≤ num `div` base < 2 ^ Z.of_nat fuel.
Proof using Hbase.
  rewrite Nat2Z.inj_succ, Z.pow_succ_r by lia. intros Hn. assert (0 < 2 ^ Z.of_nat fuel) by (apply Z.pow_pos_nonneg; lia).
  split; [apply Z.div_pos; lia|]. apply Z.div_lt_upper_bound; [lia|]. nia.
Qed.

Lemma printnum_spec fuel num width padc s :
  0 ≤ num < 2 ^ Z.of_nat (S fuel) →
  printnum (S fuel) num base width padc s =
    Ret tt (append (padded width padc (num_digits (S fuel) base num)) s).
Proof using Hbase.
  revert num width s. induction fuel as [|fuel IH]; intros num width s Hn.
  all: remember (S fuel) as f eqn:Hf || idtac; cbn [printnum num_digits]; destruct (Z.leb_spec base num).
  - cbn in Hn. lia.
  - unfold pad. by rewrite (bind_Ret _ _ _ _ _ (putch_all _ _ _)), putch_append, append_append.
  - rewrite (bind_Ret _ _ _ _ _ (IH (num `div` base) (width - 1) s (drop_digit _ _ Hn))).
    rewrite putch_append, append_append. do 2 f_equal. unfold padded. rewrite length_app. cbn [length].
    rewrite <-app_assoc. do 2 f_equal. lia.
  - unfold pad. by rewrite (bind_Ret _ _ _ _ _ (putch_all _ _ _)), putch_append, append_append.
Qed.

(** Each digit is one that strtol accepts, and together they have the number as value. *)
Definition digits_value (v : Z) (cs : list Z) : Z :=
  foldl (λ v c, v * base + default 0 (digit_of c)) v cs.
Definition is_digit (c : Z) : Prop := ∃ d, digit_of c = Some d ∧ d < base.

Lemma digit_of_hex d : 0 ≤ d < base → digit_of (hex_digit d) = Some d.
Proof.
  intros Hd. assert (d ∈ seqZ 0 16) as Hin by (apply elem_of_seqZ; lia). clear Hd. revert d Hin.
  apply Forall_forall. repeat constructor.
Qed.
Lemma num_digits_digits fuel num : 0 ≤ num → Forall is_digit (num_digits fuel base num).
Proof.
  revert num. induction fuel as [|fuel IH]; intros num Hn; cbn; [done|].
  pose proof (Z.mod_pos_bound num base ltac:(lia)).
  apply Forall_app. split; [|apply Forall_singleton; exists (num `mod` base); split; [by apply digit_of_hex|lia]].
  destruct (base <=? num); [|done]. apply IH. apply Z.div_pos; lia.
Qed.
Lemma num_digits_value fuel num :
  0 ≤ num < 2 ^ Z.of_nat (S fuel) → digits_value 0 (num_digits (S fuel) base num) = num.
Proof using Hbase.
  revert num. induction fuel as [|fuel IH]; intros num Hn.
  all: pose proof (Z.mod_pos_bound num base ltac:(lia)) as Hmod; remember (S fuel) as f eqn:Hf || idtac;
    cbn [num_digits]; unfold digits_value; rewrite foldl_app; cbn [foldl]; rewrite digit_of_hex by done;
    cbn [default]; destruct (Z.leb_spec base num).
  - cbn in Hn. lia.
  - cbn. apply Z.mod_small. lia.
  - fold (digits_value 0 (num_digits f base (num `div` base))).
    rewrite IH by (by apply drop_digit). rewrite Z.mul_comm. symmetry. apply Z.div_mod. lia.
  - cbn. apply Z.mod_small. lia.
Qed.
Lemma num_digits_length fuel num : (1 ≤ length (num_digits (S fuel) base num) ≤ S fuel)%nat.
Proof.
  revert num. induction fuel as [|fuel IH]; intros num; cbn [num_digits]; rewrite length_app; cbn [length].
  - destruct (base <=? num); cbn; lia.
  - destruct (base <=? num); [specialize (IH (num `div` base)); cbn [num_digits] in IH|]; cbn [length]; lia.
Qed.
End Base.

(** ** Reading a number back *)
Lemma bind_rd {A} p (f : Z → C A) s : (rd p ≫= f) s = f (byte_at s p) s.
Proof. done. Qed.

Section Parse.
Context (base : Z) (Hbase : base = 10 ∨ base = 16).

Lemma strtol_digits fuel s p cs v :
  cstring s p cs → Forall (is_digit base) cs → (length cs < fuel)%nat →
  mloop fuel (λ '(s, val),
    c ← rd s;
    match digit_of c with
    | Some dig => if base <=? dig then mret (inr (s, val))
                  else mret (inl (s + 1, s32 (val * base + dig)))
    | None => mret (inr (s, val))
    end) (p, s32 v) s = Ret (p + Z.of_nat (length cs), s32 (digits_value base v cs)) s.
Proof.
  revert p v fuel. induction cs as [|c cs IH]; intros p v [|fuel] Hc Hd Hf; cbn in Hf; try lia.
  - apply cstring_nil in Hc. apply mloop_break. rewrite bind_rd.
    rewrite Hc. cbn. by rewrite Z.add_0_r.
  - apply cstring_cons in Hc as (Hc & Hn & Hcs). apply Forall_cons in Hd as [(d & Hd & Hlt) Hds].
    rewrite (mloop_next _ _ _ _ (p + 1, s32 (v * base + d)) s); cycle 1.
    { rewrite bind_rd. rewrite Hc, Hd.
      rewrite (proj2 (Z.leb_gt base d)) by done. unfold mret, M_ret. by rewrite s32_step. }
    rewrite IH by (done || lia). f_equal. f_equal; [cbn [length]; lia|].
    unfold digits_value. cbn [foldl]. by rewrite Hd.
Qed.

Lemma digit_not_special c : is_digit base c → is_blank c = false ∧ c ≠ 43 ∧ c ≠ 45 ∧ c ≠ 120.
Proof using Hbase.
  intros (d & Hd & Hlt). unfold digit_of in Hd.
  destruct ((48 <=? c) && (c <=? 57)) eqn:H1; [zify_bool; unfold is_blank; split_and!; lia|].
  destruct ((97 <=? c) && (c <=? 122)) eqn:H2; [zify_bool; simplify_eq; unfold is_blank; split_and!; lia|].
  destruct ((65 <=? c) && (c <=? 90)) eqn:H3; [zify_bool; simplify_eq; unfold is_blank; split_and!; lia|done].
Qed.
(** The byte after a first digit is a digit or the terminator. *)
Lemma second_not_x s p c cs :
  cstring s p (c :: cs) → Forall (is_digit base) cs → byte_at s (p + 1) ≠ 120.
Proof using Hbase.
  intros (_ & _ & Hcs)%cstring_cons Hd. destruct cs as [|c2 cs].
  - apply cstring_nil in Hcs. lia.
  - apply cstring_cons in Hcs as (-> & _). apply Forall_cons in Hd as [Hd _]. by apply digit_not_special in Hd as (_ & _ & _ & ?).
Qed.

Lemma strtol_reads fuel s p (neg : bool) cs :
  cstring s p ((if neg then [45] else []) ++ cs) → cs ≠ [] → Forall (is_digit base) cs →
  (length cs < fuel)%nat →
  strtol fuel p base s =
    Ret (s32 (if neg then - digits_value base 0 cs else digits_value base 0 cs),
         p + (if neg then 1 else 0) + Z.of_nat (length cs)) s.
Proof using Hbase.
  intros Hc Hne Hd Hf. destruct fuel as [|fuel]; [lia|]. unfold strtol.
  set (q := p + if neg then 1 else 0).
  assert (cstring s q cs) as Hq.
  { destruct neg; [by apply cstring_cons in Hc as (_ & _ & ?)|]. unfold q. by rewrite Z.add_0_r. }
  assert (is_blank (byte_at s p) = false ∧ byte_at s p ≠ 43 ∧ (byte_at s p =? 45) = neg) as (Hbl & H43 & H45).
  { destruct neg; [apply cstring_cons in Hc as (-> & _); done|].
    destruct cs as [|c cs]; [done|]. apply cstring_cons in Hc as (-> & _).
    apply Forall_cons in Hd as [Hd _]. apply digit_not_special in Hd as (? & ? & ? & ?).
    split_and!; [done|done|]. by apply Z.eqb_neq. }
  erewrite bind_Ret; [|apply mloop_break; rewrite bind_rd; by rewrite Hbl].
  rewrite bind_rd. rewrite (proj2 (Z.eqb_neq _ _) H43), H45.
  assert ((if neg then (p + 1, true) else (p, false)) = (q, neg)) as ->.
  { unfold q. by destruct neg; rewrite ?Z.add_0_r. }
  rewrite !bind_rd.
  assert (byte_at s (q + 1) ≠ 120) as Hx.
  { destruct cs as [|c cs]; [done|]. apply Forall_cons in Hd as [_ Hd]. by eapply second_not_x. }
  rewrite (proj2 (Z.eqb_neq _ 120) Hx), !andb_false_r.
  assert ((base =? 0) = false) as -> by (apply Z.eqb_neq; lia). cbn [andb].
  change 0 with (s32 0). rewrite (bind_Ret _ _ _ _ _ (strtol_digits (S fuel) s q cs 0 Hq Hd ltac:(lia))).
  unfold mret, M_ret. do 2 f_equal. destruct neg; [apply s32_opp|done].
Qed.
End Parse.

(** ** Conversions *)
(** The text of the word [w] under %d, %u and %x. *)
Inductive conversion := Signed | Unsigned | Hexadecimal.
Definition letter_of (c : conversion) : Z :=
  match c with Signed => 100 | Unsigned => 117 | Hexadecimal => 120 end.
Definition base_of (c : conversion) : Z := match c with Hexadecimal => 16 | _ => 10 end.
Definition negative (c : conversion) (w : Z) : bool := match c with Signed => s32 w <? 0 | _ => false end.
Definition magnitude (c : conversion) (w : Z) : Z :=
  match c with Signed => Z.abs (s32 w) | _ => w end.
Definition number_text (c : conversion) (w : Z) : list Z :=
  (if negative c w then [45] else []) ++ num_digits NUM_FUEL (base_of c) (magnitude c w).

Lemma padded_default cs : padded (-1) 32 cs = cs.
Proof. unfold padded. by replace (Z.to_nat (-1 - Z.of_nat (length cs))) with O by lia. Qed.
Lemma magnitude_range c w : is_u32 w → 0 ≤ magnitude c w < 2 ^ 64.
Proof. intros Hw. pose proof (s32_range w) as Hs32; unfold is_s32 in Hs32. unfold is_u32 in Hw. destruct c; cbn [magnitude]; lia. Qed.
Lemma print_magnitude c w s :
  is_u32 w → printnum NUM_FUEL (magnitude c w) (base_of c) (-1) 32 s =
    Ret tt (append (num_digits NUM_FUEL (base_of c) (magnitude c w)) s).
Proof.
  intros Hw. pose proof (magnitude_range c w Hw). rewrite <-(padded_default (num_digits _ _ _)).
  apply (printnum_spec (base_of c) ltac:(destruct c; cbn; lia) 64).
  assert (2 ^ 64 < 2 ^ Z.of_nat 65) by done. lia.
Qed.

Lemma escape_number fuel c p w s :
  is_u32 w → byte_at s p = letter_of c →
  escape_body fuel (p, spec0, [w]) s = Ret (inr (p + 1, [])) (append (number_text c w) s).
Proof.
  intros Hw Hp. unfold escape_body. rewrite bind_rd, Hp. pose proof (print_magnitude c w) as Hpr.
  pose proof (s32_range w) as Hs32; unfold is_s32 in Hs32. unfold number_text.
  destruct c; cbn [letter_of Z.eqb Pos.eqb andb Z.leb Z.compare Pos.compare Pos.compare_cont lflag spec0 width padc negative base_of] in *.
  all: unfold getint, getuint; cbn [Z.leb Z.compare Pos.compare Pos.compare_cont].
  - rewrite bind_assoc. unfold va_arg. rewrite !bind_mret.
    destruct (Z.ltb_spec (s32 w) 0) as [Hn|Hn].
    + assert (u64 (s32 w) = 2 ^ 64 + s32 w) as Hu by (unfold u64; zdiv).
      rewrite Hu, (proj2 (Z.leb_le _ _)) by lia.
      rewrite bind_assoc, (bind_Ret _ _ _ _ _ (putch_append 45 s)), bind_mret.
      assert (u64 (- (2 ^ 64 + s32 w)) = magnitude Signed w) as -> by (unfold u64; cbn [magnitude]; zdiv).
      by rewrite (bind_Ret _ _ _ _ _ (Hpr _ Hw)), append_append.
    + assert (u64 (s32 w) = s32 w) as Hu by (unfold u64; zdiv).
      rewrite Hu, (proj2 (Z.leb_gt _ _)) by lia. rewrite bind_mret.
      assert (s32 w = magnitude Signed w) as -> by (cbn [magnitude]; lia).
      by rewrite (bind_Ret _ _ _ _ _ (Hpr _ Hw)).
  - unfold va_arg. rewrite bind_mret. by rewrite (bind_Ret _ _ _ _ _ (Hpr _ Hw)).
  - unfold va_arg. rewrite bind_mret. by rewrite (bind_Ret _ _ _ _ _ (Hpr _ Hw)).
Qed.

Lemma vprintfmt_number fuel c fmt w s :
  is_u32 w → cstring s fmt [37; letter_of c] → (2 ≤ fuel)%nat →
  vprintfmt fuel fmt [w] s = Ret tt (append (number_text c w) s).
Proof.
  intros Hw (Hf0 & _ & (Hf1 & _ & Hf2)%cstring_cons)%cstring_cons Hf. apply cstring_nil in Hf2.
  destruct fuel as [|[|fuel]]; [lia|lia|]. unfold vprintfmt.
  rewrite (mloop_next _ _ _ _ (fmt + 1 + 1, []) (append (number_text c w) s)); cycle 1.
  { rewrite bind_rd, Hf0. cbn [Z.eqb Pos.eqb negb].
    by rewrite (bind_Ret _ _ _ _ _ (mloop_break _ _ _ _ _ _ (escape_number (S (S fuel)) c (fmt + 1) w s Hw Hf1))). }
  apply mloop_break. rewrite bind_rd. change (byte_at (append _ s) (fmt + 1 + 1)) with (byte_at s (fmt + 1 + 1)).
  by rewrite Hf2.
Qed.

(** ** Formatting into a buffer *)
(** The first [k] characters are in the buffer, as far as it reaches, and nothing else changed. *)
Definition buffered (buf n k : Z) (cs : list Z) (s s' : CState) (b : sprintbuf) : Prop :=
  b = MkBuf (buf + Z.min k (n - 1)) (buf + n - 1) k ∧ output s' = output s ∧
  (∀ i c, cs !! i = Some c → Z.of_nat i < Z.min k (n - 1) → byte_at s' (buf + Z.of_nat i) = u8 c) ∧
  ∀ a, ¬ (buf ≤ a < buf + n - 1) → byte_at s' a = byte_at s a.

Lemma sprintputch_step buf n (cs : list Z) (k : nat) c s s' b :
  1 ≤ n → cs !! k = Some c → buffered buf n (Z.of_nat k) cs s s' b →
  ∃ b' s'', sprintputch c b s' = Ret b' s'' ∧ buffered buf n (Z.of_nat k + 1) cs s s'' b'.
Proof.
  intros Hn Hc (-> & Ho & Hb & Hr). unfold sprintputch. cbn [sb_buf sb_ebuf sb_cnt].
  destruct (Z.ltb_spec (buf + Z.min (Z.of_nat k) (n - 1)) (buf + n - 1)) as [Hlt|Hge].
  - assert (Z.min (Z.of_nat k) (n - 1) = Z.of_nat k) as -> by lia.
    eexists. exists (put_byte (buf + Z.of_nat k) c s'). split; [done|].
    split; [f_equal; lia|]. split; [done|]. split.
    + intros i d Hi Hik. destruct (decide (i = k)) as [->|Hne].
      * rewrite byte_put_eq. congruence.
      * rewrite byte_put_ne by lia. apply Hb; [done|lia].
    + intros a Ha. rewrite byte_put_ne by lia. by apply Hr.
  - do 2 eexists. split; [done|]. split; [f_equal; lia|]. split; [done|]. split; [|done].
    intros i d Hi Hik. apply Hb; [done|lia].
Qed.
Lemma vsnprintf_chars_spec buf n cs s :
  buf ≠ 0 → 1 ≤ n →
  ∃ s', vsnprintf_chars buf n cs s = Ret (Z.of_nat (length cs)) s' ∧ output s' = output s ∧
    (∀ i c, cs !! i = Some c → Z.of_nat i < n - 1 → byte_at s' (buf + Z.of_nat i) = u8 c) ∧
    byte_at s' (buf + Z.min (Z.of_nat (length cs)) (n - 1)) = 0 ∧
    ∀ a, ¬ (buf ≤ a < buf + n) → byte_at s' a = byte_at s a.
Proof.
  intros Hbuf Hn. unfold vsnprintf_chars. rewrite (proj2 (Z.eqb_neq _ _) Hbuf), (proj2 (Z.ltb_ge n 1)) by lia. cbn [orb].
  assert (∀ ds pre s1 b, cs = pre ++ ds → buffered buf n (Z.of_nat (length pre)) cs s s1 b →
    ∃ b' s2, sprintputch_all ds b s1 = Ret b' s2 ∧ buffered buf n (Z.of_nat (length cs)) cs s s2 b') as Hgo.
  { induction ds as [|d ds IH]; intros pre s1 b Hcs Hb.
    - exists b, s1. split; [done|]. rewrite app_nil_r in Hcs. by rewrite Hcs in Hb |- *.
    - destruct (sprintputch_step buf n cs (length pre) d s s1 b Hn) as (b' & s2 & E & Hb');
        [by rewrite Hcs, list_lookup_middle|done|].
      destruct (IH (pre ++ [d]) s2 b') as (b2 & s3 & E2 & H2); [by rewrite <-app_assoc| |].
      { rewrite length_app. cbn [length]. replace (Z.of_nat (length pre + 1)) with (Z.of_nat (length pre) + 1) by lia. done. }
      exists b2, s3. split; [|done]. cbn. by mstep E. }
  destruct (Hgo cs [] s (MkBuf buf (buf + n - 1) 0)) as (b & s2 & E & -> & Ho & Hb & Hr); [done| |].
  { split; [cbn [length]; f_equal; lia|]. split; [done|]. split; [|done]. intros. cbn in *. lia. }
  mstep E. exists (put_byte (buf + Z.min (Z.of_nat (length cs)) (n - 1)) 0 s2). split; [done|]. split; [done|].
  split; [|split].
  - intros i c Hi Hin. pose proof (lookup_lt_Some _ _ _ Hi). rewrite byte_put_ne by lia. apply Hb; [done|lia].
  - by rewrite byte_put_eq.
  - intros a Ha. rewrite byte_put_ne by lia. apply Hr. lia.
Qed.

(** snprintf of a format that prints [cs]: the buffer holds as much of it as fits and a terminator,
    no byte beyond its [n] is written, nothing is printed, and the result is the full length. *)
Lemma snprintf_fits fuel buf n fmt ap cs s :
  buf ≠ 0 → 1 ≤ n → vprintfmt fuel fmt ap (set_output [] s) = Ret tt (set_output cs s) →
  ∃ s', snprintf fuel buf n fmt ap s = Ret (Z.of_nat (length cs)) s' ∧ output s' = output s ∧
    (∀ i c, cs !! i = Some c → Z.of_nat i < n - 1 → byte_at s' (buf + Z.of_nat i) = u8 c) ∧
    byte_at s' (buf + Z.min (Z.of_nat (length cs)) (n - 1)) = 0 ∧
    ∀ a, ¬ (buf ≤ a < buf + n) → byte_at s' a = byte_at s a.
Proof.
  intros Hbuf Hn Hf. destruct (vsnprintf_chars_spec buf n cs s Hbuf Hn) as (s' & E & H').
  exists s'. split; [|exact H']. unfold snprintf, vsnprintf.
  rewrite (proj2 (Z.eqb_neq _ _) Hbuf), (proj2 (Z.ltb_ge n 1)) by lia. cbn [orb].
  rewrite bind_gets, bind_modify. mstep Hf. rewrite bind_gets, bind_modify. etrans; [|exact E]. by destruct s.
Qed.

(** ** Properties *)

(** C34: a number written by vprintfmt with %d, %u or %x is read back by strtol in the matching
    base: the text of the 32-bit word has at most 66 characters and, wherever a terminated copy
    of it lies, strtol stops at its end with the word's value as a signed integer (a value that
    overflows strtol's long is taken to wrap around). *)
Theorem printed_number_reads_back fuel c fmt w s :
  is_u32 w → cstring s fmt [37; letter_of c] → (67 ≤ fuel)%nat →
  ∃ cs, vprintfmt fuel fmt [w] s = Ret tt (append cs s) ∧ (1 ≤ length cs ≤ 66)%nat ∧
    ∀ s' p, cstring s' p cs →
      strtol fuel p (base_of c) s' = Ret (s32 w, p + Z.of_nat (length cs)) s'.
Proof.
  intros Hw Hfmt Hf. exists (number_text c w).
  assert (1 ≤ length (num_digits NUM_FUEL (base_of c) (magnitude c w)) ≤ 65)%nat as Hlen by apply num_digits_length.
  pose proof (magnitude_range c w Hw) as Hm.
  split_and!; [apply vprintfmt_number; [done|done|lia]| | |]; unfold number_text.
  1,2: rewrite length_app; destruct (negative c w); cbn [length]; lia.
  intros s' p Hc. rewrite (strtol_reads (base_of c) ltac:(destruct c; cbn; lia) fuel s' p (negative c w) _ Hc);
    [|by intros Hnil; rewrite Hnil in Hlen; cbn in Hlen; lia|apply num_digits_digits; [destruct c; cbn; lia|lia]|lia].
  unfold NUM_FUEL. rewrite num_digits_value; [|destruct c; cbn; lia|].
  2: { assert (2 ^ 64 < 2 ^ Z.of_nat (S 64)) by done. lia. }
  f_equal. f_equal; [|rewrite length_app; destruct (negative c w); cbn [length]; lia].
  destruct c; cbn [negative magnitude]; [|done|done].
  transitivity (s32 (s32 w)); [|apply s32_idemp].
  f_equal. destruct (Z.ltb_spec (s32 w) 0); lia.
Qed.

(** ** Witnesses *)
(** "%d" at address 100. *)
Definition format_memory : CState := MkCState (<[100 := 37]> {[101 := 100]}) [].
Lemma printed_number_reads_back_witness :
  ∃ cs, vprintfmt 67 100 [4294966296] format_memory = Ret tt (append cs format_memory) ∧
    cs = [45; 49; 48; 48; 48].
Proof.
  destruct (printed_number_reads_back 67 Signed 100 4294966296 format_memory) as (cs & Hcs & _);
    [done| |lia|].
  - apply cstring_cons. split; [done|]. split; [done|]. apply cstring_cons. split; [done|]. split; [done|].
    by apply cstring_nil.
  - exists cs. split; [exact Hcs|].
    assert (vprintfmt 67 100 [4294966296] format_memory = Ret tt (append [45; 49; 48; 48; 48] format_memory)) as He
      by (vm_compute; reflexivity).
    rewrite He in Hcs. by injection Hcs as <-.
Defined.
