(* ===== verification/ConsoleSpec.v ===== *)
(** * What the console promises

    The input buffer is a queue of at most 511 characters that forgets everything when a 512th
    comes ([ring_push]); the interrupt handlers append what the devices hold, decoded, and
    cons_getc takes the oldest.  The devices are any hardware that obeys [InputDevices], the
    documented behaviour of the status and data ports of an 8042 and a 16550. *)
From S2P Require Import Prelude Machine Strings Devices Console.

(** ** The circular buffer *)
Definition unread {D} (s : Dev D) : list Z :=
  (λ k, cons_buf s !!! ((rpos s + k) `mod` CONSBUFSIZE)) <$> seqZ 0 ((wpos s - rpos s) `mod` CONSBUFSIZE).
Definition ring_ok {D} (s : Dev D) : Prop := 0 ≤ rpos s < CONSBUFSIZE ∧ 0 ≤ wpos s < CONSBUFSIZE.
Definition ring_push (us : list Z) (c : Z) : list Z :=
  if Z.of_nat (length us) =? CONSBUFSIZE - 1 then [] else us ++ [c].

Lemma length_unread {D} (s : Dev D) : Z.of_nat (length (unread s)) = (wpos s - rpos s) `mod` CONSBUFSIZE.
Proof.
  unfold unread, CONSBUFSIZE. rewrite length_fmap, length_seqZ, Z2Nat.id; [done|].
  apply Z.mod_pos_bound. lia.
Qed.

(** [if (++i == CONSBUFSIZE) i = 0] *)
Lemma next_slot i : 0 ≤ i < CONSBUFSIZE →
  (if i + 1 =? CONSBUFSIZE then 0 else i + 1) = (i + 1) `mod` CONSBUFSIZE.
Proof. intros Hi. unfold CONSBUFSIZE in *. destruct (Z.eqb_spec (i + 1) 512); zdiv. Qed.

Lemma cons_push_spec {D} (s : Dev D) c :
  ring_ok s →
  ∃ b w, cons_push c s = Ret tt (set_wpos w (set_cons_buf b s)) ∧
    ring_ok (set_wpos w (set_cons_buf b s)) ∧
    unread (set_wpos w (set_cons_buf b s)) = ring_push (unread s) (u8 c).
Proof.
  intros [Hr Hw]. exists (<[wpos s := u8 c]> (cons_buf s)), ((wpos s + 1) `mod` CONSBUFSIZE). split_and!.
  - unfold cons_push. rewrite bind_gets. rewrite (proj2 (Z.leb_gt _ _)) by lia.
    rewrite bind_modify. unfold modify. by rewrite next_slot.
  - split; cbn; [done|]. unfold CONSBUFSIZE in *. apply Z.mod_pos_bound. lia.
  - unfold ring_push. rewrite length_unread. unfold unread. cbn. unfold CONSBUFSIZE in *.
    destruct (Z.eqb_spec ((wpos s - rpos s) `mod` 512) (512 - 1)) as [He|He].
    + replace (((wpos s + 1) `mod` 512 - rpos s) `mod` 512) with 0 by zdiv. done.
    + replace (((wpos s + 1) `mod` 512 - rpos s) `mod` 512) with ((wpos s - rpos s) `mod` 512 + 1) by zdiv.
      rewrite seqZ_app by (zdiv || lia). rewrite fmap_app. f_equal.
      * apply list_fmap_ext. intros i k Hk. apply lookup_seqZ in Hk as [-> Hk].
        rewrite array_get_set_ne; [done|]. zdiv.
      * rewrite Z.add_0_l. change (seqZ ?x 1) with [x]. cbn. f_equal.
        replace ((rpos s + (wpos s - rpos s) `mod` 512) `mod` 512) with (wpos s) by zdiv.
        by rewrite array_get_set_eq.
Qed.

Lemma cons_pop_spec {D} (s : Dev D) :
  ring_ok s →
  ∃ r, cons_pop s = Ret (default 0 (head (unread s))) (set_rpos r s) ∧ ring_ok (set_rpos r s) ∧
    unread (set_rpos r s) = tail (unread s).
Proof.
  intros [Hr Hw]. unfold cons_pop. rewrite !bind_gets.
  destruct (Z.eqb_spec (rpos s) (wpos s)) as [He|He]; cbn [negb].
  - exists (rpos s). assert (set_rpos (rpos s) s = s) as -> by (by destruct s).
    unfold unread. rewrite He, Z.sub_diag. done.
  - exists ((rpos s + 1) `mod` CONSBUFSIZE). rewrite (proj2 (Z.leb_gt _ _)) by lia.
    rewrite bind_gets, bind_modify, next_slot by done.
    assert (unread s = cons_buf s !!! rpos s :: unread (set_rpos ((rpos s + 1) `mod` CONSBUFSIZE) s)) as ->.
    { unfold unread. cbn. unfold CONSBUFSIZE in *.
      replace ((wpos s - rpos s) `mod` 512) with (1 + (wpos s - (rpos s + 1) `mod` 512) `mod` 512) by zdiv.
      rewrite seqZ_app by (zdiv || lia). rewrite fmap_app. change (seqZ 0 1) with [0].
      cbn [fmap list_fmap app]. f_equal; [f_equal; zdiv|].
      change (seqZ (0 + 1)) with (seqZ (Z.add 1 0)). rewrite <-fmap_add_seqZ, <-list_fmap_compose.
      apply list_fmap_ext. intros i k Hk. apply lookup_seqZ in Hk as [-> Hk]. cbn. f_equal. zdiv. }
    split; [done|]. split; [|done]. split; [|done]. cbn. unfold CONSBUFSIZE in *. apply Z.mod_pos_bound. lia.
Qed.

(** ** The hardware *)
Definition input_port (p : Z) : bool := (p =? KBSTATP) || (p =? KBDATAP) || ((COM1 <=? p) && (p <? COM1 + 8)).

(** A full status bit means a byte in the data register, and reading the register takes the byte;
    the other ports concern other devices. *)
Class InputDevices (D : Type) `{Ports D} := {
  kbd_codes : D → list Z;
  serial_chars : D → list Z;
  kbd_bytes d : Forall (λ c, 0 ≤ c < 256) (kbd_codes d);
  serial_bytes d : Forall (λ c, 0 ≤ c < 256) (serial_chars d);
  kbd_status d : let '(v, d') := port_in KBSTATP d in
    kbd_codes d' = kbd_codes d ∧ serial_chars d' = serial_chars d ∧
    (Z.land (u8 v) KBS_DIB = 0 ↔ kbd_codes d = []);
  kbd_data d c cs : kbd_codes d = c :: cs → let '(v, d') := port_in KBDATAP d in
    v = c ∧ kbd_codes d' = cs ∧ serial_chars d' = serial_chars d;
  serial_status d : let '(v, d') := port_in (COM1 + COM_LSR) d in
    kbd_codes d' = kbd_codes d ∧ serial_chars d' = serial_chars d ∧
    (Z.land (u8 v) COM_LSR_DATA = 0 ↔ serial_chars d = []);
  serial_data d c cs : serial_chars d = c :: cs → let '(v, d') := port_in (COM1 + COM_RX) d in
    v = c ∧ serial_chars d' = cs ∧ kbd_codes d' = kbd_codes d;
  other_in d p : input_port p = false → let '(_, d') := port_in p d in
    kbd_codes d' = kbd_codes d ∧ serial_chars d' = serial_chars d;
  other_out d p v : input_port p = false →
    kbd_codes (port_out p v d) = kbd_codes d ∧ serial_chars (port_out p v d) = serial_chars d;
}.


(** ** The screen

    A terminal: the text cells and the cursor, without rows that move through memory. *)
Record Screen := MkScreen { cell : Z → Z; cursor : Z }.
Definition blank : Z := 0x0720.
Definition scrolled (x : Screen) : Screen :=
  MkScreen (λ i, if i <? CRT_SIZE - CRT_COLS then cell x (i + CRT_COLS) else blank) (cursor x - CRT_COLS).
Definition settle (x : Screen) : Screen := if cursor x <? CRT_SIZE then x else scrolled x.
Definition draw (i c : Z) (x : Screen) : Screen :=
  MkScreen (λ j, if j =? i then u16 c else cell x j) (cursor x).
Definition goto (i : Z) (x : Screen) : Screen := MkScreen (cell x) i.
Definition colored (c : Z) : Z := if Z.land c (Z.lnot 0xFF) =? 0 then Z.lor c 0x0700 else c.
Definition screen_char (c : Z) (x : Screen) : Screen :=
  let ch := Z.land c 0xff in
  if ch =? 8 then
    if 0 <? cursor x
    then goto (cursor x - 1) (draw (cursor x - 1) (Z.lor (Z.land c (Z.lnot 0xff)) 32) x) else x
  else if ch =? 10 then settle (goto ((cursor x `div` CRT_COLS + 1) * CRT_COLS) x)
  else if ch =? 13 then goto (cursor x `div` CRT_COLS * CRT_COLS) x
  else settle (goto (cursor x + 1) (draw (cursor x) c x)).
Definition screen_putc (c : Z) (x : Screen) : Screen :=
  if Z.land (colored c) 0xff =? 9 then Nat.iter 5 (screen_char blank) x else screen_char (colored c) x.

Definition shows {D} (s : Dev D) (x : Screen) : Prop :=
  crt_pos s = cursor x ∧ 0 ≤ cursor x < CRT_SIZE ∧ ∀ i, 0 ≤ i < CRT_SIZE → crt_mem s !!! i = cell x i ∧ 0 ≤ cell x i < 2 ^ 16.

Section Output.
Context {D : Type} `{PD : Ports D, DD : !InputDevices D}.

(** What the output routines leave of the rest of the state. *)
Record same_input (s s' : Dev D) : Prop := {
  si_keys : kbd_codes (dev s') = kbd_codes (dev s);
  si_chars : serial_chars (dev s') = serial_chars (dev s);
  si_addr : addr_6845 s' = addr_6845 s;
  si_exists : serial_exists s' = serial_exists s;
  si_shift : shift s' = shift s;
  si_buf : cons_buf s' = cons_buf s;
  si_rpos : rpos s' = rpos s;
  si_wpos : wpos s' = wpos s;
  si_beyond : ∀ i, CRT_SIZE ≤ i → crt_mem s' !!! i = crt_mem s !!! i;
}.
#[export] Instance same_input_preorder : PreOrder same_input.
Proof.
  split; [by split|]. intros s1 s2 s3 [] []. split; try congruence.
  intros i Hi. transitivity (crt_mem s2 !!! i); auto.
Qed.
(** The screen's controller is not one of the input devices. *)
Definition screen_port (s : Dev D) : Prop :=
  input_port (addr_6845 s) = false ∧ input_port (addr_6845 s + 1) = false.

Lemma outb_spec p v s :
  input_port p = false →
  ∃ s', outb p v s = Ret tt s' ∧ same_input s s' ∧ crt_pos s' = crt_pos s ∧ crt_mem s' = crt_mem s.
Proof.
  intros Hp. destruct (other_out (dev s) p (u8 v) Hp). eexists. split; [done|]. by split.
Qed.
Lemma inb_spec p s :
  input_port p = false →
  ∃ v s', inb p s = Ret v s' ∧ same_input s s' ∧ crt_pos s' = crt_pos s ∧ crt_mem s' = crt_mem s.
Proof.
  intros Hp. pose proof (other_in (dev s) p Hp) as Hin. unfold inb.
  destruct (port_in p (dev s)) as [v d]. destruct Hin. eexists _, _. split; [done|]. by split.
Qed.

(** Output that leaves the screen alone. *)
Definition unseen (s s' : Dev D) : Prop := same_input s s' ∧ crt_pos s' = crt_pos s ∧ crt_mem s' = crt_mem s.
#[export] Instance unseen_preorder : PreOrder unseen.
Proof.
  split; [by repeat split|]. intros s1 s2 s3 (H1 & ? & ?) (H2 & ? & ?).
  split; [by etrans|]. split; congruence.
Qed.

Lemma delay_spec s : ∃ s', delay s = Ret tt s' ∧ unseen s s'.
Proof.
  unfold delay.
  destruct (inb_spec 0x84 s) as (v1 & s1 & E1 & U1); [done|]. mstep E1.
  destruct (inb_spec 0x84 s1) as (v2 & s2 & E2 & U2); [done|]. mstep E2.
  destruct (inb_spec 0x84 s2) as (v3 & s3 & E3 & U3); [done|]. mstep E3.
  destruct (inb_spec 0x84 s3) as (v4 & s4 & E4 & U4); [done|]. mstep E4.
  exists s4. split; [done|]. do 3 (etrans; [done|]). done.
Qed.

Lemma lpt_putc_spec c s : ∃ s', lpt_putc c s = Ret tt s' ∧ unseen s s'.
Proof.
  unfold lpt_putc.
  match goal with |- context [mloop 2802 ?b 0] => destruct (mloop_total
    (λ i s', 0 ≤ i ≤ 2800 ∧ unseen s s') (λ _ s', unseen s s') (λ i _, Z.to_nat (2800 - i)) b 2802 0 s)
    as ([] & s1 & E1 & U1) end; [|done|lia|].
  - intros i s1 [Hi U1]. destruct (inb_spec (0x378 + 1) s1) as (v & s2 & E2 & U2); [done|]. mstep E2.
    assert (unseen s s2) by (by etrans).
    destruct (Z.land v 0x80 =? 0) eqn:Hv; cbn [andb]; [destruct (Z.ltb_spec i 2800)|]; [|by right; eexists _, _..].
    left. destruct (delay_spec s2) as (s3 & E3 & U3). mstep E3. exists (i + 1), s3.
    split; [done|]. split; [split; [lia|by etrans]|lia].
  - mstep E1.
    destruct (outb_spec (0x378 + 0) c s1) as (s2 & E2 & U2); [done|]. mstep E2.
    destruct (outb_spec (0x378 + 2) (Z.lor (Z.lor 0x08 0x04) 0x01) s2) as (s3 & E3 & U3); [done|]. mstep E3.
    destruct (outb_spec (0x378 + 2) 0x08 s3) as (s4 & E4 & U4); [done|].
    exists s4. split; [done|]. do 3 (etrans; [done|]). done.
Qed.

(** A change of cells below [CRT_SIZE] and of the cursor. *)
Lemma drawn_same_input (s : Dev D) m p :
  (∀ i, CRT_SIZE ≤ i → m !!! i = crt_mem s !!! i) → same_input s (set_crt_pos p (set_crt_mem m s)).
Proof. intros Hm. by split. Qed.

Lemma set_cell_spec (s : Dev D) i v :
  0 ≤ i < CRT_SIZE → ∃ m, set_cell i v s = Ret tt (set_crt_mem m s) ∧ m !!! i = u16 v ∧
    ∀ j, j ≠ i → m !!! j = crt_mem s !!! j.
Proof.
  intros Hi. exists (<[i := u16 v]> (crt_mem s)). split; [done|]. split; [apply array_get_set_eq|].
  intros j Hj. by apply array_get_set_ne.
Qed.

Lemma scroll_spec (s : Dev D) x :
  (∀ i, 0 ≤ i < CRT_SIZE → crt_mem s !!! i = cell x i ∧ 0 ≤ cell x i < 2 ^ 16) →
  crt_pos s = cursor x → CRT_SIZE ≤ cursor x < CRT_SIZE + CRT_COLS →
  ∃ s', scroll s = Ret tt s' ∧ same_input s s' ∧ shows s' (scrolled x).
Proof.
  intros Hc Hp Hcur. unfold scroll.
  destruct (forM_seqZ (λ k s1, ∃ m, s1 = set_crt_mem m s ∧
      ∀ i, m !!! i = if (0 <=? i) && (i <? k) then cell x (i + CRT_COLS) else crt_mem s !!! i)
    (λ i, c ← gets (λ s : Dev D, crt_mem s !!! (i + CRT_COLS)); set_cell i c) 0 (CRT_SIZE - CRT_COLS) s)
    as (s1 & H1 & m1 & -> & Hm1).
  - done.
  - exists (crt_mem s). split; [by destruct s|]. intros i. destruct (Z.leb_spec 0 i), (Z.ltb_spec i 0); cbn; (done || lia).
  - intros k s1 Hk (m & -> & Hm). rewrite bind_gets. cbn [crt_mem set_crt_mem].
    change (CRT_SIZE - CRT_COLS) with 1920 in *. change CRT_SIZE with 2000 in *. change CRT_COLS with 80 in *.
    eexists. split; [done|]. exists (<[0 + k := u16 (m !!! (0 + k + 80))]> m). split; [done|].
    intros i. rewrite Hm. rewrite (proj2 (Z.ltb_ge _ _)), andb_false_r by lia.
    destruct (Hc (0 + k + 80) ltac:(lia)) as [-> Hb]. unfold u16. rewrite Z.mod_small by exact Hb.
    destruct (decide (i = k)) as [->|Hne].
    + rewrite Z.add_0_l, array_get_set_eq. rewrite (proj2 (Z.leb_le _ _)), (proj2 (Z.ltb_lt _ _)) by lia. done.
    + rewrite array_get_set_ne, Hm by lia.
      destruct (Z.leb_spec 0 i), (Z.ltb_spec i k), (Z.ltb_spec i (k + 1)); cbn; (done || lia).
  - mstep H1. clear H1.
    destruct (forM_seqZ (λ k s2, ∃ m, s2 = set_crt_mem m s ∧
        ∀ i, m !!! i = if (1920 <=? i) && (i <? 1920 + k) then blank else m1 !!! i)
      (λ i, set_cell i (Z.lor 0x0700 32)) (CRT_SIZE - CRT_COLS) CRT_COLS (set_crt_mem m1 s))
      as (s2 & H2 & m2 & -> & Hm2).
    + done.
    + exists m1. split; [done|]. intros i. destruct (Z.leb_spec 1920 i), (Z.ltb_spec i (1920 + 0)); cbn; (done || lia).
    + intros k s2 Hk (m & -> & Hm). eexists. split; [done|].
      exists (<[CRT_SIZE - CRT_COLS + k := blank]> m). split; [done|]. intros i.
      change (CRT_SIZE - CRT_COLS) with 1920 in *. change CRT_COLS with 80 in *.
      destruct (decide (i = 1920 + k)) as [->|Hne].
      * rewrite array_get_set_eq, (proj2 (Z.leb_le _ _)), (proj2 (Z.ltb_lt _ _)) by lia. done.
      * rewrite array_get_set_ne, Hm by lia.
        destruct (Z.leb_spec 1920 i), (Z.ltb_spec i (1920 + k)), (Z.ltb_spec i (1920 + (k + 1))); cbn; (done || lia).
    + mstep H2. clear H2. eexists. split; [done|].
      change CRT_SIZE with 2000 in *. change CRT_COLS with 80 in *.
      assert (∀ i, m2 !!! i = if (0 <=? i) && (i <? 2000) then cell (scrolled x) i else crt_mem s !!! i) as Hm.
      { intros i. rewrite Hm2, Hm1. cbn [cell scrolled]. change (CRT_SIZE - CRT_COLS) with 1920. change CRT_COLS with 80. change (2000 - 80) with 1920.
        destruct (Z.leb_spec 1920 i), (Z.ltb_spec i (1920 + 80)), (Z.leb_spec 0 i), (Z.ltb_spec i 1920), (Z.ltb_spec i 2000); cbn; (done || lia). }
      split.
      * apply drawn_same_input. intros i Hi. change CRT_SIZE with 2000 in Hi. rewrite Hm.
        rewrite (proj2 (Z.ltb_ge i 2000)), andb_false_r by lia. done.
      * cbn. unfold shows. cbn. rewrite Hp. unfold u16. rewrite Z.mod_small by lia.
        split; [done|]. split; [change CRT_SIZE with 2000; change CRT_COLS with 80; lia|]. intros i Hi. change CRT_SIZE with 2000 in Hi.
        rewrite Hm, (proj2 (Z.leb_le _ _)), (proj2 (Z.ltb_lt _ _)) by lia. split; [done|].
        cbn. change (CRT_SIZE - CRT_COLS) with 1920; change CRT_COLS with 80. destruct (Z.ltb_spec i 1920); [apply Hc; lia|by vm_compute].
Qed.

Lemma unseen_shows s s' x : unseen s s' → shows s x → shows s' x.
Proof. unfold shows. by intros (_ & -> & ->). Qed.
Lemma same_input_port s s' : same_input s s' → screen_port s → screen_port s'.
Proof. unfold screen_port. by intros [_ _ -> _ _ _ _ _ _]. Qed.

Lemma move_cursor_spec s : screen_port s → ∃ s', move_cursor s = Ret tt s' ∧ unseen s s'.
Proof.
  intros [P1 P2]. unfold move_cursor. rewrite !bind_gets.
  destruct (outb_spec (addr_6845 s) 14 s P1) as (s1 & E1 & U1). mstep E1.
  destruct (outb_spec (addr_6845 s + 1) (Z.shiftr (crt_pos s) 8) s1 P2) as (s2 & E2 & U2). mstep E2.
  destruct (outb_spec (addr_6845 s) 15 s2 P1) as (s3 & E3 & U3). mstep E3.
  destruct (outb_spec (addr_6845 s + 1) (crt_pos s) s3 P2) as (s4 & E4 & U4).
  exists s4. split; [done|]. do 3 (etrans; [done|]). done.
Qed.

(** The screen of [x], but for a cursor that may be one line too far. *)
Definition nearly (s : Dev D) (x : Screen) : Prop :=
  crt_pos s = cursor x ∧ 0 ≤ cursor x < CRT_SIZE + CRT_COLS ∧
  ∀ i, 0 ≤ i < CRT_SIZE → crt_mem s !!! i = cell x i ∧ 0 ≤ cell x i < 2 ^ 16.

Lemma shows_nearly s x : shows s x → nearly s x.
Proof.
  intros (Hp & Hr & Hc). split; [done|]. split; [|done].
  change CRT_SIZE with 2000 in *. change CRT_COLS with 80. lia.
Qed.

Lemma settle_spec s x :
  screen_port s → nearly s x →
  ∃ s', (pos ← gets crt_pos; when (CRT_SIZE <=? pos) scroll;; move_cursor) s = Ret tt s' ∧
    same_input s s' ∧ shows s' (settle x).
Proof.
  intros Hport (Hp & Hr & Hc). rewrite bind_gets, Hp. unfold settle.
  destruct (Z.leb_spec CRT_SIZE (cursor x)); cbn [when].
  - rewrite (proj2 (Z.ltb_ge _ _)) by done.
    destruct (scroll_spec s x Hc Hp ltac:(lia)) as (s1 & E1 & I1 & S1). mstep E1.
    destruct (move_cursor_spec s1) as (s2 & E2 & U2); [by eapply same_input_port|].
    exists s2. split; [done|]. split; [etrans; [done|apply U2]|by eapply unseen_shows].
  - rewrite (proj2 (Z.ltb_lt _ _)), bind_mret by done.
    destruct (move_cursor_spec s Hport) as (s2 & E2 & U2).
    exists s2. split; [done|]. split; [apply U2|]. eapply unseen_shows; [done|]. split; [done|]. split; [lia|done].
Qed.
Lemma settle_id x : cursor x < CRT_SIZE → settle x = x.
Proof. intros. unfold settle. by rewrite (proj2 (Z.ltb_lt _ _)). Qed.

Lemma shows_set_cell s m i v x p :
  shows s x → m !!! i = u16 v → (∀ j, j ≠ i → m !!! j = crt_mem s !!! j) → 0 ≤ i < CRT_SIZE →
  0 ≤ p < CRT_SIZE + CRT_COLS →
  nearly (set_crt_pos p (set_crt_mem m s)) (goto p (draw i v x)) ∧
  same_input s (set_crt_pos p (set_crt_mem m s)).
Proof.
  intros (_ & _ & Hc) Hm Hm' Hi Hp. split.
  - split; [done|]. split; [done|]. intros j Hj. cbn.
    destruct (Z.eqb_spec j i) as [->|Hne]; [|rewrite Hm' by done; by apply Hc].
    split; [done|]. unfold u16. by apply Z.mod_pos_bound.
  - apply drawn_same_input. intros j Hj. apply Hm'. lia.
Qed.
Lemma shows_goto s x p :
  shows s x → 0 ≤ p < CRT_SIZE + CRT_COLS → nearly (set_crt_pos p s) (goto p x) ∧ same_input s (set_crt_pos p s).
Proof. intros (_ & _ & Hc) Hp. split; [by split|]. by split. Qed.

(** A character that is not a tab. *)
Lemma cga_char_spec f c s x :
  screen_port s → shows s x → Z.land (colored c) 0xff ≠ 9 →
  ∃ s', cga_putc_with f c s = Ret tt s' ∧ same_input s s' ∧ shows s' (screen_char (colored c) x).
Proof.
  intros Hport Hs Htab. unfold cga_putc_with. fold (colored c).
  assert (∃ s1 x1, cga_write f (colored c) s = Ret tt s1 ∧ same_input s s1 ∧ nearly s1 x1 ∧
            screen_char (colored c) x = settle x1) as (s1 & x1 & E1 & I1 & N1 & ->).
  { pose proof Hs as (Hp & Hr & Hc). change CRT_SIZE with 2000 in Hr. unfold cga_write. rewrite bind_gets, Hp.
    unfold screen_char. destruct (Z.land (colored c) 255 =? 8).
    - destruct (Z.ltb_spec 0 (cursor x)); cbn [when].
      + rewrite bind_modify.
        destruct (set_cell_spec (set_crt_pos (cursor x - 1) s) (cursor x - 1) (Z.lor (Z.land (colored c) (Z.lnot 255)) 32))
          as (m & Em & Hm & Hm'); [change CRT_SIZE with 2000; lia|].
        destruct (shows_set_cell s m (cursor x - 1) _ x (cursor x - 1) Hs Hm Hm') as [N I];
          [change CRT_SIZE with 2000; change CRT_COLS with 80; lia..|].
        eexists _, _. split; [exact Em|]. split; [exact I|]. split; [exact N|].
        rewrite settle_id; [done|]. cbn. change CRT_SIZE with 2000. lia.
      + exists s, x. split; [done|]. split; [done|].
        split; [by apply shows_nearly|]. rewrite settle_id; [done|change CRT_SIZE with 2000; lia].
    - destruct (Z.land (colored c) 255 =? 10); [|destruct (Z.land (colored c) 255 =? 13)].
      + destruct (shows_goto s x ((cursor x `div` CRT_COLS + 1) * CRT_COLS) Hs) as [N I];
          [change CRT_SIZE with 2000; change CRT_COLS with 80; zdiv|].
        eexists _, _. split; [|split; [exact I|split; [exact N|done]]].
        unfold modify. do 3 f_equal. unfold u16. change CRT_COLS with 80. zdiv.
      + destruct (shows_goto s x (cursor x `div` CRT_COLS * CRT_COLS) Hs) as [N I];
          [change CRT_SIZE with 2000; change CRT_COLS with 80; zdiv|].
        eexists _, _. split; [|split; [exact I|split; [exact N|]]].
        * unfold modify. do 3 f_equal. unfold u16. change CRT_COLS with 80. zdiv.
        * rewrite settle_id; [done|]. cbn. change CRT_SIZE with 2000. change CRT_COLS with 80. zdiv.
      + rewrite (proj2 (Z.eqb_neq _ _) Htab).
        destruct (set_cell_spec s (cursor x) (colored c)) as (m & Em & Hm & Hm'); [exact Hr|]. mstep Em.
        destruct (shows_set_cell s m (cursor x) _ x (cursor x + 1) Hs Hm Hm' Hr) as [N I];
          [change CRT_SIZE with 2000; change CRT_COLS with 80; lia|].
        eexists _, _. split; [|split; [exact I|split; [exact N|done]]].
        unfold modify. do 3 f_equal. unfold u16. rewrite Z.mod_small by lia. done. }
  mstep E1. destruct (settle_spec s1 x1) as (s2 & E2 & I2 & S2); [by eapply same_input_port|done|].
  exists s2. split; [exact E2|]. split; [by etrans|done].
Qed.

(** One character on the screen: what [cons_putc] leaves. *)
Definition puts_char (m : M (Dev D) unit) (s : Dev D) (x' : Screen) : Prop :=
  ∃ s', m s = Ret tt s' ∧ same_input s s' ∧ shows s' x'.

Lemma cons_putc_plain n c s x :
  screen_port s → shows s x → Z.land (colored c) 0xff ≠ 9 →
  puts_char (cons_putc_at (Datatypes.S n) c) s (screen_char (colored c) x).
Proof.
  intros Hport Hs Htab. unfold puts_char. cbn [cons_putc_at].
  destruct (lpt_putc_spec c s) as (s1 & E1 & U1). mstep E1.
  destruct (cga_char_spec (cons_putc_at n) c s1 x) as (s2 & E2 & I2 & S2);
    [eapply same_input_port; [apply U1|done]|by eapply unseen_shows|done|].
  exists s2. split; [done|]. split; [etrans; [apply U1|done]|done].
Qed.
Lemma cons_putc_tab n c s x :
  screen_port s → shows s x → Z.land (colored c) 0xff = 9 →
  puts_char (cga_putc_with (cons_putc_at (Datatypes.S n)) c) s (Nat.iter 5 (screen_char blank) x).
Proof.
  intros Hport Hs Htab. unfold cga_putc_with. fold (colored c). unfold cga_write at 1. unfold puts_char.
  rewrite Htab. cbn [Z.eqb Pos.eqb]. rewrite bind_assoc, bind_gets.
  assert (∀ s x, screen_port s → shows s x → ∃ s', cons_putc_at (Datatypes.S n) 32 s = Ret tt s' ∧
            same_input s s' ∧ screen_port s' ∧ shows s' (screen_char blank x)) as Hsp.
  { intros s1 x1 P1 S1. destruct (cons_putc_plain n 32 s1 x1 P1 S1) as (s2 & E2 & I2 & S2); [by vm_compute|].
    exists s2. split_and!; [done|done|by eapply same_input_port|done]. }
  destruct (Hsp s x Hport Hs) as (s1 & E1 & I1 & P1 & S1). rewrite bind_assoc. mstep E1.
  destruct (Hsp s1 _ P1 S1) as (s2 & E2 & I2 & P2 & S2). rewrite bind_assoc. mstep E2.
  destruct (Hsp s2 _ P2 S2) as (s3 & E3 & I3 & P3 & S3). rewrite bind_assoc. mstep E3.
  destruct (Hsp s3 _ P3 S3) as (s4 & E4 & I4 & P4 & S4). rewrite bind_assoc. mstep E4.
  destruct (Hsp s4 _ P4 S4) as (s5 & E5 & I5 & P5 & S5). mstep E5.
  destruct (settle_spec s5 (Nat.iter 5 (screen_char blank) x) P5) as (s6 & E6 & I6 & S6).
  { by apply shows_nearly. }
  rewrite settle_id in S6 by apply S5. exists s6. split; [exact E6|]. split; [|exact S6].
  do 5 (etrans; [eassumption|]). done.
Qed.

Lemma cons_putc_spec c s x :
  screen_port s → shows s x → puts_char (cons_putc c) s (screen_putc c x).
Proof.
  intros Hport Hs. unfold screen_putc. destruct (Z.eqb_spec (Z.land (colored c) 0xff) 9) as [Ht|Ht].
  - unfold puts_char, cons_putc. change (cons_putc_at 2 c) with (lpt_putc c;; cga_putc_with (cons_putc_at 1) c).
    destruct (lpt_putc_spec c s) as (s1 & E1 & U1). mstep E1.
    destruct (cons_putc_tab 0 c s1 x) as (s2 & E2 & I2 & S2);
      [eapply same_input_port; [apply U1|done]|by eapply unseen_shows|done|].
    exists s2. split; [done|]. split; [etrans; [apply U1|done]|done].
  - by apply cons_putc_plain.
Qed.

Lemma putc_all cs s x :
  screen_port s → shows s x → puts_char (forM cs cons_putc) s (foldl (λ x c, screen_putc c x) x cs).
Proof.
  revert s x. induction cs as [|c cs IH]; intros s x Hport Hs; [by exists s|].
  destruct (cons_putc_spec c s x Hport Hs) as (s1 & E1 & I1 & S1).
  destruct (IH s1 _ (same_input_port _ _ I1 Hport) S1) as (s2 & E2 & I2 & S2).
  exists s2. split; [cbn [forM]; by mstep E1|]. split; [by etrans|done].
Qed.
Lemma forM_fmap {S A B} (g : A → B) (f : B → M S unit) xs s : forM (g <$> xs) f s = forM xs (λ x, f (g x)) s.
Proof.
  revert s. induction xs as [|x xs IH]; intros s; [done|]. cbn. by apply bind_ext.
Qed.
Lemma console_puts_spec m s x :
  screen_port s → shows s x →
  ∃ x', puts_char (console_puts m) s x'.
Proof.
  intros Hport Hs. eexists. unfold console_puts, puts_char, cputchar. setoid_rewrite <-(forM_fmap _ cons_putc).
  by apply putc_all.
Qed.
End Output.

(** ** Input *)

(** The input side at a moment: unread characters, modifiers, what the devices still hold. *)
Record Input := MkInput { queue : list Z; mods : Z; keys : list Z; chars : list Z; serial : bool }.

(** A scan code: the character it gives (0: none) and the modifiers after it. *)
Definition key_step (sh data : Z) : Z * Z :=
  if data =? 0xE0 then (0, Z.lor sh E0ESC)
  else if negb (Z.land data 0x80 =? 0) then
    (0, Z.land sh (not32 (Z.lor (shiftcode !!! (if negb (Z.land sh E0ESC =? 0) then data else Z.land data 0x7F)) E0ESC)))
  else
    let '(data, sh) := if negb (Z.land sh E0ESC =? 0)
                       then (Z.lor data 0x80, Z.land sh (not32 E0ESC)) else (data, sh) in
    let sh := Z.lxor (Z.lor sh (shiftcode !!! data)) (togglecode !!! data) in
    (caps sh (charcode (Z.land sh (Z.lor CTL SHIFT)) !!! data), sh).
Definition offer (q : list Z) (c : Z) : list Z := if c =? 0 then q else ring_push q (u8 c).

(** The keyboard routine consumes the scan code; the character is offered to the queue after. *)
Definition scan (i : Input) : Z * Input :=
  match keys i with
  | k :: ks => let '(c, sh) := key_step (mods i) k in (c, MkInput (queue i) sh ks (chars i) (serial i))
  | [] => (-1, i)
  end.
Lemma scan_nil i : keys i = [] → scan i = (-1, i).
Proof. unfold scan. by intros ->. Qed.
Lemma scan_cons i k ks :
  keys i = k :: ks →
  scan i = ((key_step (mods i) k).1, MkInput (queue i) (key_step (mods i) k).2 ks (chars i) (serial i)).
Proof. unfold scan. intros ->. by destruct (key_step (mods i) k). Qed.
Definition receive (i : Input) : Z * Input :=
  match chars i with
  | c :: cs => (c, MkInput (queue i) (mods i) (keys i) cs (serial i))
  | [] => (-1, i)
  end.
Definition enqueue (c : Z) (i : Input) : Input :=
  if c =? -1 then i else MkInput (offer (queue i) c) (mods i) (keys i) (chars i) (serial i).
Definition take_char (i : Input) : Input := enqueue (receive i).1 (receive i).2.
Definition take_key (i : Input) : Input := enqueue (scan i).1 (scan i).2.
Definition take_chars (i : Input) : Input := if serial i then Nat.iter (length (chars i)) take_char i else i.
Definition take_keys (i : Input) : Input := Nat.iter (length (keys i)) take_key i.
Definition pop (i : Input) : Z * Input :=
  (default 0 (head (queue i)), MkInput (tail (queue i)) (mods i) (keys i) (chars i) (serial i)).

(** Every entry of the key maps is a character code. *)
Lemma all_nonneg (m : gmap Z Z) : bool_decide (map_Forall (λ _ x, 0 ≤ x) m) = true → ∀ i, 0 ≤ m !!! i.
Proof.
  intros Hm%bool_decide_eq_true i. rewrite lookup_total_alt.
  destruct (m !! i) as [x|] eqn:Hx; cbn; [|done]. exact (Hm i x Hx).
Qed.
Lemma charcode_cases i : charcode i = normalmap ∨ charcode i = shiftmap ∨ charcode i = ctlmap.
Proof. destruct i as [|[| |]|]; cbn; auto. Qed.
Lemma charcode_nonneg i j : 0 ≤ charcode i !!! j.
Proof. destruct (charcode_cases i) as [-> | [-> | ->]]; apply all_nonneg; vm_compute; reflexivity. Qed.
Lemma caps_nonneg sh c : 0 ≤ c → 0 ≤ caps sh c.
Proof. intros. unfold caps. repeat case_match; zify_bool; lia. Qed.
Lemma key_step_nonneg sh k : 0 ≤ (key_step sh k).1.
Proof.
  unfold key_step. case_match; [done|]. case_match; [done|].
  destruct (negb (Z.land sh E0ESC =? 0)); cbn [fst]; apply caps_nonneg, charcode_nonneg.
Qed.

Section InputSpec.
Context {D : Type} `{PD : Ports D, DD : !InputDevices D}.

Definition input_of (s : Dev D) : Input :=
  MkInput (unread s) (shift s) (kbd_codes (dev s)) (serial_chars (dev s)) (serial_exists s).
Definition console_ok (s : Dev D) : Prop := ring_ok s ∧ screen_port s ∧ ∃ x, shows s x.

(** A reading routine: its result, and the input side it leaves. *)
Definition reads {A} (m : M (Dev D) A) (s : Dev D) (a : A) (i : Input) : Prop :=
  ∃ s', m s = Ret a s' ∧ input_of s' = i ∧ console_ok s'.

Lemma reads_bind {A B} (m : M (Dev D) A) (f : A → M (Dev D) B) s a i b j :
  reads m s a i → (∀ s', input_of s' = i → console_ok s' → reads (f a) s' b j) → reads (m ≫= f) s b j.
Proof.
  intros (s1 & E1 & I1 & O1) Hf. destruct (Hf s1 I1 O1) as (s2 & E2 & I2 & O2).
  exists s2. by mstep E1.
Qed.
Lemma reads_gets {A B} (g : Dev D → A) (f : A → M (Dev D) B) s b j :
  reads (f (g s)) s b j → reads (gets g ≫= f) s b j.
Proof. done. Qed.
Lemma reads_ret {A} (a : A) s : console_ok s → reads (mret a) s a (input_of s).
Proof. intros. by exists s. Qed.

Lemma same_input_view s s' : same_input s s' → input_of s' = input_of s ∧ (ring_ok s → ring_ok s').
Proof.
  intros [Hk Hc _ He Hs Hb Hr Hw _]. unfold input_of, unread, ring_ok. by rewrite Hk, Hc, He, Hs, Hb, Hr, Hw.
Qed.
Lemma same_input_ok s s' x : same_input s s' → shows s' x → console_ok s → console_ok s'.
Proof.
  intros Hsi Hs (Hr & Hp & _). split; [by apply (same_input_view s s')|].
  split; [by eapply same_input_port|by exists x].
Qed.

Lemma reboot_reads (b : bool) m (c : Z) s :
  console_ok s → reads (when b (console_puts m;; outb 0x92 0x3);; mret c) s c (input_of s).
Proof.
  intros Hok. destruct b; cbn [when]; [|by apply reads_ret].
  pose proof Hok as (_ & Hp & x & Hx).
  destruct (console_puts_spec m s x Hp Hx) as (x' & s1 & E1 & I1 & S1).
  unfold reads. rewrite bind_assoc. mstep E1. destruct (outb_spec 0x92 0x3 s1) as (s2 & E2 & U2); [done|]. mstep E2.
  exists s2. split; [done|]. pose proof (unseen_shows _ _ _ U2 S1). destruct U2 as [U2 _].
  assert (same_input s s2) as I2 by (by etrans).
  split; [by apply same_input_view|]. by eapply same_input_ok.
Qed.
Lemma set_shift_reads (sh : Z) s :
  console_ok s → reads (modify (set_shift sh)) s tt
    (MkInput (unread s) sh (kbd_codes (dev s)) (serial_chars (dev s)) (serial_exists s)).
Proof. intros Hok. by exists (set_shift sh s). Qed.

(** A status register that says whether a byte waits, and the data register behind it. *)
Lemma inb_status p s v d' :
  console_ok s → port_in p (dev s) = (v, d') → kbd_codes d' = kbd_codes (dev s) →
  serial_chars d' = serial_chars (dev s) → reads (inb p) s (u8 v) (input_of s).
Proof.
  intros Hok Hin Hk Hc. exists (set_dev d' s). unfold inb. rewrite Hin. split; [done|]. split; [|exact Hok].
  unfold input_of, unread. cbn. by rewrite Hk, Hc.
Qed.
Lemma inb_data p s v d' :
  console_ok s → port_in p (dev s) = (v, d') → 0 ≤ v < 256 →
  reads (inb p) s v (MkInput (unread s) (shift s) (kbd_codes d') (serial_chars d') (serial_exists s)).
Proof.
  intros Hok Hin Hv. exists (set_dev d' s). unfold inb. rewrite Hin, u8_small by done. done.
Qed.

Lemma kbd_proc_data_spec s :
  console_ok s → reads kbd_proc_data s (scan (input_of s)).1 (scan (input_of s)).2.
Proof.
  intros Hok. unfold kbd_proc_data.
  pose proof (kbd_status (dev s)) as Hst. destruct (port_in KBSTATP (dev s)) as [st d1] eqn:Hin.
  destruct Hst as (Hk & Hc & Hst). apply (reads_bind _ _ _ _ _ _ _ (inb_status _ _ _ _ Hok Hin Hk Hc)).
  intros s1 Hi1 Hok1. rewrite <-Hi1. change (kbd_codes (dev s)) with (keys (input_of s)) in Hst. rewrite <-Hi1 in Hst.
  destruct (keys (input_of s1)) as [|k ks] eqn:Hkeys.
  - rewrite (proj2 (Z.eqb_eq _ _)), scan_nil by (by try apply Hst). by apply reads_ret.
  - rewrite (proj2 (Z.eqb_neq _ _)) by (by rewrite Hst). rewrite (scan_cons _ k ks Hkeys). cbn [fst snd].
    pose proof (kbd_bytes (dev s1)) as Hb. pose proof (kbd_data (dev s1) k ks Hkeys) as Hd.
    change (kbd_codes (dev s1)) with (keys (input_of s1)) in Hb. rewrite Hkeys in Hb. inversion Hb as [|? ? Hkr _]; subst.
    destruct (port_in KBDATAP (dev s1)) as [v d2] eqn:Hin2. destruct Hd as (-> & Hk2 & Hc2).
    apply (reads_bind _ _ _ _ _ _ _ (inb_data _ _ _ _ Hok1 Hin2 Hkr)). rewrite Hk2, Hc2.
    intros s2 Hi2 Hok2. apply reads_gets. change (shift s2) with (mods (input_of s2)). rewrite Hi2.
    cbn [mods queue chars serial input_of].
    assert (∀ sh, reads (modify (set_shift sh)) s2 tt
              (MkInput (unread s1) sh ks (serial_chars (dev s1)) (serial_exists s1))) as Hset.
    { intros sh. injection Hi2 as <- _ <- <- <-. by apply set_shift_reads. }
    unfold key_step. destruct (k =? 0xE0); [|destruct (negb (Z.land k 0x80 =? 0))];
      [cbn [fst snd]; apply (reads_bind _ _ _ _ _ _ _ (Hset _)); intros s3 <- Hok3; by apply reads_ret..|].
    destruct (if negb (Z.land (shift s1) E0ESC =? 0) then _ else _) as [data sh]. cbn [fst snd].
    apply (reads_bind _ _ _ _ _ _ _ (Hset _)). intros s3 <- Hok3. by apply reboot_reads.
Qed.

Lemma serial_proc_data_spec s :
  console_ok s → reads serial_proc_data s (receive (input_of s)).1 (receive (input_of s)).2.
Proof.
  intros Hok. unfold serial_proc_data.
  pose proof (serial_status (dev s)) as Hst. destruct (port_in (COM1 + COM_LSR) (dev s)) as [st d1] eqn:Hin.
  destruct Hst as (Hk & Hc & Hst). apply (reads_bind _ _ _ _ _ _ _ (inb_status _ _ _ _ Hok Hin Hk Hc)).
  intros s1 Hi1 Hok1. rewrite <-Hi1. change (serial_chars (dev s)) with (chars (input_of s)) in Hst. rewrite <-Hi1 in Hst.
  unfold receive. destruct (chars (input_of s1)) as [|c cs] eqn:Hchars.
  - rewrite (proj2 (Z.eqb_eq _ _)) by (by apply Hst). by apply reads_ret.
  - rewrite (proj2 (Z.eqb_neq _ _)) by (by rewrite Hst). cbn [fst snd].
    pose proof (serial_bytes (dev s1)) as Hb. pose proof (serial_data (dev s1) c cs Hchars) as Hd.
    change (serial_chars (dev s1)) with (chars (input_of s1)) in Hb. rewrite Hchars in Hb. inversion Hb as [|? ? Hcr _]; subst.
    destruct (port_in (COM1 + COM_RX) (dev s1)) as [v d2] eqn:Hin2. destruct Hd as (-> & Hc2 & Hk2).
    pose proof (inb_data _ _ _ _ Hok1 Hin2 Hcr) as Hr. rewrite Hk2, Hc2 in Hr. exact Hr.
Qed.

Lemma cons_push_reads c s :
  console_ok s → c ≠ -1 → c ≠ 0 → reads (cons_push c) s tt (enqueue c (input_of s)).
Proof.
  intros (Hr & Hok) Hc1 Hc0. destruct (cons_push_spec s c Hr) as (b & w & E & Hr' & Hu).
  eexists. split; [exact E|]. split; [|by split]. unfold enqueue, offer.
  rewrite !(proj2 (Z.eqb_neq _ _)) by done. unfold input_of. by rewrite Hu.
Qed.
Lemma cons_pop_reads s : console_ok s → reads cons_pop s (pop (input_of s)).1 (pop (input_of s)).2.
Proof.
  intros (Hr & Hok). destruct (cons_pop_spec s Hr) as (r & E & Hr' & Hu).
  eexists. split; [exact E|]. split; [|by split]. unfold input_of. by rewrite Hu.
Qed.

(** A device as the interrupt loop sees it: one item at a time until there is none. *)
Record source (proc : M (Dev D) Z) (next : Input → Z * Input) (pending : Input → nat) : Prop := {
  src_reads s : console_ok s → reads proc s (next (input_of s)).1 (next (input_of s)).2;
  src_done i : pending i = 0%nat → next i = (-1, i);
  src_next s n : pending (input_of s) = Datatypes.S n → let i := input_of s in
    0 ≤ (next i).1 ∧ pending (enqueue (next i).1 (next i).2) = n;
}.
Lemma cons_intr_spec proc next pending n fuel s :
  source proc next pending → console_ok s → pending (input_of s) = n → (n < fuel)%nat →
  reads (cons_intr fuel proc) s tt (Nat.iter n (λ i, enqueue (next i).1 (next i).2) (input_of s)).
Proof.
  intros Hsrc. unfold cons_intr. revert fuel s. induction n as [|n IH]; intros [|fuel] s Hok Hn Hf; try lia; cbn [mloop].
  - pose proof (src_reads _ _ _ Hsrc s Hok) as (s1 & E1 & I1 & O1). rewrite (src_done _ _ _ Hsrc) in E1, I1 by done.
    exists s1. rewrite bind_assoc. by mstep E1.
  - pose proof (src_reads _ _ _ Hsrc s Hok) as (s1 & E1 & I1 & O1).
    destruct (src_next _ _ _ Hsrc s _ Hn) as [Hc Hp].
    set (c := (next (input_of s)).1) in *. set (i1 := (next (input_of s)).2) in *.
    unfold reads. rewrite bind_assoc. mstep E1. rewrite (proj2 (Z.eqb_neq c (-1))) by lia.
    rewrite Nat.iter_succ_r. fold c i1.
    assert (∃ s2, (if c =? 0 then mret (inl tt) else cons_push c;; mret (inl tt)) s1 = Ret (inl tt : () + ()) s2 ∧
              input_of s2 = enqueue c i1 ∧ console_ok s2) as (s2 & E2 & I2 & O2).
    { destruct (Z.eqb_spec c 0) as [H0|H0].
      - exists s1. split; [done|]. split; [|done]. rewrite I1. unfold enqueue, offer. rewrite H0. by destruct i1.
      - destruct (cons_push_reads c s1 O1) as (s2 & E2 & I2 & O2); [lia|done|]. exists s2. mstep E2. by rewrite <-I1. }
    mstep E2. rewrite <-I2. apply IH; [done|by rewrite I2|lia].
Qed.

Lemma kbd_source : source kbd_proc_data scan (length ∘ keys).
Proof.
  split.
  - apply kbd_proc_data_spec.
  - intros i Hn%length_zero_iff_nil. by apply scan_nil.
  - intros s n Hn. cbn zeta. cbn [keys input_of compose] in Hn. destruct (kbd_codes (dev s)) as [|k ks] eqn:Hk; [done|].
    rewrite (scan_cons (input_of s) k ks Hk). cbn [fst snd].
    split; [apply key_step_nonneg|]. pose proof (key_step_nonneg (mods (input_of s)) k).
    unfold enqueue. rewrite (proj2 (Z.eqb_neq _ _)) by lia. cbn in *. lia.
Qed.
Lemma serial_source : source serial_proc_data receive (length ∘ chars).
Proof.
  split.
  - apply serial_proc_data_spec.
  - intros i Hn%length_zero_iff_nil. unfold receive. by rewrite Hn.
  - intros s n Hn. cbn zeta. pose proof (serial_bytes (dev s)) as Hb. unfold receive.
    cbn [chars input_of compose] in *. destruct (serial_chars (dev s)) as [|c cs]; [done|].
    inversion Hb; subst. cbn [fst snd]. split; [lia|]. unfold enqueue.
    rewrite (proj2 (Z.eqb_neq _ _)) by lia. cbn in *. lia.
Qed.

Lemma serial_intr_spec fuel s :
  console_ok s → (length (serial_chars (dev s)) < fuel)%nat →
  reads (serial_intr fuel) s tt (take_chars (input_of s)).
Proof.
  intros Hok Hf. apply reads_gets. unfold take_chars. change (serial (input_of s)) with (serial_exists s).
  destruct (serial_exists s); cbn [when]; [|by apply reads_ret].
  exact (cons_intr_spec _ _ _ _ fuel s serial_source Hok eq_refl Hf).
Qed.
Lemma kbd_intr_spec fuel s :
  console_ok s → (length (kbd_codes (dev s)) < fuel)%nat →
  reads (kbd_intr fuel) s tt (take_keys (input_of s)).
Proof. intros Hok Hf. exact (cons_intr_spec _ _ _ _ fuel s kbd_source Hok eq_refl Hf). Qed.

(** The serial interrupt leaves the keyboard alone. *)
Lemma take_char_keys i : keys (take_char i) = keys i.
Proof. unfold take_char, receive, enqueue. destruct (chars i); cbn; [done|by case_match]. Qed.
Lemma take_chars_keys i : keys (take_chars i) = keys i.
Proof.
  unfold take_chars. destruct (serial i); [|done]. generalize (length (chars i)) as n.
  induction n as [|n IH]; [done|]. rewrite <-IH. apply take_char_keys.
Qed.

(** cons_getc: everything the devices hold is queued, then the oldest character is taken. *)
Lemma cons_getc_spec fuel s :
  console_ok s → (length (serial_chars (dev s)) < fuel)%nat → (length (kbd_codes (dev s)) < fuel)%nat →
  let i := take_keys (take_chars (input_of s)) in reads (cons_getc fuel) s (pop i).1 (pop i).2.
Proof.
  intros Hok Hs Hk i. apply (reads_bind _ _ _ _ _ _ _ (serial_intr_spec fuel s Hok Hs)). intros s1 I1 O1.
  apply (reads_bind _ _ _ tt i).
  - subst i. rewrite <-I1. apply kbd_intr_spec; [done|]. change (kbd_codes (dev s1)) with (keys (input_of s1)).
    by rewrite I1, take_chars_keys.
  - intros s2 <- O2. by apply cons_pop_reads.
Qed.

(** ** The console as a transition system

    Between two calls the hardware may receive scan codes and serial bytes. *)
Inductive event :=
  | Getc (c : Z)
  | KbdIntr
  | SerialIntr
  | Putc (c : Z)
  | Arrive (ks cs : list Z).

Definition enough (s : Dev D) : nat := Datatypes.S (length (serial_chars (dev s)) + length (kbd_codes (dev s))).
Inductive console_step : Dev D → event → Dev D → Prop :=
  | step_getc s c s' : cons_getc (enough s) s = Ret c s' → console_step s (Getc c) s'
  | step_kbd s s' : kbd_intr (enough s) s = Ret tt s' → console_step s KbdIntr s'
  | step_serial s s' : serial_intr (enough s) s = Ret tt s' → console_step s SerialIntr s'
  | step_putc s c s' : cons_putc c s = Ret tt s' → console_step s (Putc c) s'
  | step_arrive s d ks cs :
      kbd_codes d = kbd_codes (dev s) ++ ks → serial_chars d = serial_chars (dev s) ++ cs →
      console_step s (Arrive ks cs) (set_dev d s).
Inductive console_run : Dev D → list event → Dev D → Prop :=
  | run_nil s : console_run s [] s
  | run_snoc s1 es s2 e s3 : console_run s1 es s2 → console_step s2 e s3 → console_run s1 (es ++ [e]) s3.

(** The queue's side of an event; a result that is not the queue's is refused. *)
Definition queue_step (e : event) (i : Input) : option Input :=
  match e with
  | Getc c => let '(c', j) := pop (take_keys (take_chars i)) in if c =? c' then Some j else None
  | KbdIntr => Some (take_keys i)
  | SerialIntr => Some (take_chars i)
  | Putc _ => Some i
  | Arrive ks cs => Some (MkInput (queue i) (mods i) (keys i ++ ks) (chars i ++ cs) (serial i))
  end.
Definition queue_run (es : list event) (i : Input) : option Input :=
  foldl (λ o e, o ≫= queue_step e) (Some i) es.

Lemma reads_inv {A} (m : M (Dev D) A) s a i a' s' :
  reads m s a i → m s = Ret a' s' → a' = a ∧ input_of s' = i ∧ console_ok s'.
Proof. intros (s1 & E & I & O) E'. rewrite E in E'. by injection E' as -> ->. Qed.

Lemma putc_reads c s : console_ok s → reads (cons_putc c) s tt (input_of s).
Proof.
  intros Hok. pose proof Hok as (_ & Hp & x & Hx).
  destruct (cons_putc_spec c s x Hp Hx) as (s1 & E1 & I1 & S1). exists s1.
  split; [done|]. split; [by apply same_input_view|by eapply same_input_ok].
Qed.

Lemma console_step_simulates s e s' :
  console_ok s → console_step s e s' → console_ok s' ∧ queue_step e (input_of s) = Some (input_of s').
Proof.
  intros Hok Hst. destruct Hst as [s c s' E|s s' E|s s' E|s c s' E|s d ks cs Hk Hc]; cbn [queue_step].
  - pose proof (cons_getc_spec (enough s) s Hok ltac:(unfold enough; lia) ltac:(unfold enough; lia)) as R.
    destruct (reads_inv _ _ _ _ _ _ R E) as (-> & -> & O). split; [done|].
    destruct (pop _) as [c i]. by rewrite Z.eqb_refl.
  - destruct (reads_inv _ _ _ _ _ _ (kbd_intr_spec (enough s) s Hok ltac:(unfold enough; lia)) E) as (_ & -> & O). done.
  - destruct (reads_inv _ _ _ _ _ _ (serial_intr_spec (enough s) s Hok ltac:(unfold enough; lia)) E) as (_ & -> & O). done.
  - destruct (reads_inv _ _ _ _ _ _ (putc_reads c s Hok) E) as (_ & -> & O). done.
  - split; [exact Hok|]. unfold input_of, unread. cbn. by rewrite Hk, Hc.
Qed.
Lemma console_run_simulates s es s' :
  console_run s es s' → console_ok s → console_ok s' ∧ queue_run es (input_of s) = Some (input_of s').
Proof.
  induction 1 as [s|s1 es s2 e s3 Hr IH Hst]; intros Hok; [done|].
  destruct (IH Hok) as [Hok2 Hq]. destruct (console_step_simulates _ _ _ Hok2 Hst) as [Hok3 Hq3].
  split; [done|]. unfold queue_run in *. by rewrite foldl_app, Hq.
Qed.
(** No call is stuck. *)
Lemma console_step_progress s e :
  console_ok s →
  match e with
  | Getc _ => ∃ c s', console_step s (Getc c) s'
  | Arrive _ _ => True
  | e => ∃ s', console_step s e s'
  end.
Proof.
  intros Hok. destruct e; try done.
  - destruct (cons_getc_spec (enough s) s Hok) as (s' & E & _); [unfold enough; lia..|].
    eexists _, _. by apply step_getc.
  - destruct (kbd_intr_spec (enough s) s Hok) as (s' & E & _); [unfold enough; lia|]. eexists. by apply step_kbd.
  - destruct (serial_intr_spec (enough s) s Hok) as (s' & E & _); [unfold enough; lia|]. eexists. by apply step_serial.
  - destruct (putc_reads c s Hok) as (s' & E & _). eexists. by apply step_putc.
Qed.
End InputSpec.

(** ** Bursts *)
Lemma ring_push_burst cs : foldl ring_push [] cs = drop (512 * (length cs / 512)) cs.
Proof.
  induction cs as [|c cs IH] using rev_ind; [done|].
  rewrite foldl_app, IH. cbn [foldl]. unfold ring_push. rewrite length_drop, length_app. cbn [length].
  pose proof (Nat.div_mod_eq (length cs) 512) as Hd. pose proof (Nat.mod_upper_bound (length cs) 512 ltac:(lia)) as Hm.
  set (q := (length cs / 512)%nat) in *. set (r := (length cs `mod` 512)%nat) in *. change (CONSBUFSIZE - 1) with 511.
  destruct (Z.eqb_spec (Z.of_nat (length cs - 512 * q)) 511) as [He|He].
  - assert (r = 511%nat) as Hr by lia.
    replace ((length cs + 1) / 512)%nat with (q + 1)%nat by (apply (Nat.div_unique _ _ _ 0); lia).
    rewrite drop_ge; [done|]. rewrite length_app. cbn [length]. lia.
  - replace ((length cs + 1) / 512)%nat with q by (apply (Nat.div_unique _ _ _ (r + 1)); lia).
    rewrite drop_app_le by lia. done.
Qed.

Lemma take_chars_burst cs n q m ks b :
  Forall (λ c, 0 < c < 256) cs → length cs = n →
  Nat.iter n take_char (MkInput q m ks cs b) = MkInput (foldl ring_push q cs) m ks [] b.
Proof.
  revert q n. induction cs as [|c cs IH]; intros q n Hb <-; [done|]. inversion Hb; subst.
  cbn [length]. rewrite Nat.iter_succ_r. unfold take_char at 2. cbn [receive chars fst snd queue mods keys serial].
  unfold enqueue, offer. rewrite !(proj2 (Z.eqb_neq _ _)) by lia. cbn [chars queue mods keys serial].
  rewrite u8_small by lia. by apply IH.
Qed.

(** ** Properties *)

(** C28: the input side of the console is a queue of at most 511 characters that the 512th unread one
    empties.  Along every sequence of interrupts, reads, output and arriving data, the calls return
    (no loop runs for ever, no index leaves the buffer), the buffer indices and the cursor stay in
    range, and the characters read are those of that queue: decoded scan codes and serial bytes in
    the order the handlers take them, the oldest first, 0 when there is none. While no more than 511
    are unread nothing is lost; a 512th that arrives before a read makes the write index meet the
    read index, and all of them are forgotten. *)
Theorem console_refines_queue {D} `{PD : Ports D, DD : !InputDevices D} (s s' : Dev D) es :
  console_ok s → console_run s es s' →
  console_ok s' ∧ queue_run es (input_of s) = Some (input_of s') ∧
  (∃ c s1, console_step s' (Getc c) s1) ∧ (∃ s1, console_step s' KbdIntr s1) ∧
  (∃ s1, console_step s' SerialIntr s1) ∧ (∀ c, ∃ s1, console_step s' (Putc c) s1).
Proof.
  intros Hok Hrun. destruct (console_run_simulates _ _ _ Hrun Hok) as [Hok' Hq].
  split; [done|]. split; [done|]. split_and!.
  - exact (console_step_progress s' (Getc 0) Hok').
  - exact (console_step_progress s' KbdIntr Hok').
  - exact (console_step_progress s' SerialIntr Hok').
  - intros c. exact (console_step_progress s' (Putc c) Hok').
Qed.

(** A burst of n serial characters into the empty buffer leaves its last n mod 512
    characters: nothing is lost up to 511, and the 512th makes the buffer look empty, since
    cons_intr does not check that [wpos] catches up with [rpos]. *)
Theorem serial_burst_overruns {D} `{PD : Ports D, DD : !InputDevices D} (s : Dev D) cs fuel :
  console_ok s → serial_exists s = true → unread s = [] →
  serial_chars (dev s) = cs → Forall (λ c, 0 < c < 256) cs → (length cs < fuel)%nat →
  ∃ s', serial_intr fuel s = Ret tt s' ∧ unread s' = drop (512 * (length cs / 512)) cs.
Proof.
  intros Hok Hex Hu Hcs Hb Hf. destruct (serial_intr_spec fuel s Hok) as (s' & E & I & _); [by rewrite Hcs|].
  exists s'. split; [done|]. change (unread s') with (queue (input_of s')). rewrite I. unfold take_chars, input_of.
  cbn [serial chars]. rewrite Hex, Hcs, Hu, (take_chars_burst cs (length cs)) by done. apply ring_push_burst.
Qed.

(** C29: writing any sequence of characters to the console leaves on the screen what the terminal
    specification [screen_putc] says (a character at the cursor, backspace, new line, carriage
    return, tab as five spaces, the text scrolling up at the bottom), with the cursor on the
    screen; no cell outside the 25 lines and nothing of the input side changes. *)
Theorem screen_refines_terminal {D} `{PD : Ports D, DD : !InputDevices D} (s : Dev D) x cs :
  screen_port s → shows s x →
  ∃ s', forM cs cons_putc s = Ret tt s' ∧ shows s' (foldl (λ x c, screen_putc c x) x cs) ∧
    input_of s' = input_of s ∧ ∀ i, CRT_SIZE ≤ i → crt_mem s' !!! i = crt_mem s !!! i.
Proof.
  intros Hp Hs. destruct (putc_all cs s x Hp Hs) as (s' & E & I & S). exists s'.
  split; [done|]. split; [done|]. split; [by apply same_input_view|apply I].
Qed.

(** ** Witnesses *)

(** Hardware that holds the scan codes and the serial bytes not read yet. *)
Definition pending : Type := list Byte.byte * list Byte.byte.
Definition Z_of_byte (b : Byte.byte) : Z := Z.of_N (Byte.to_N b).
#[export] Instance pending_ports : Ports pending := {|
  port_in (p : Z) (d : pending) :=
    if p =? KBSTATP then (match d.1 with [] => 0 | _ => KBS_DIB end, d)
    else if p =? KBDATAP then (default 0 (Z_of_byte <$> head d.1), (tail d.1, d.2))
    else if p =? COM1 + COM_LSR then (match d.2 with [] => 0 | _ => COM_LSR_DATA end, d)
    else if p =? COM1 + COM_RX then (default 0 (Z_of_byte <$> head d.2), (d.1, tail d.2))
    else (0, d);
  port_out (_ _ : Z) (d : pending) := d;
|}.
Lemma bytes_range (bs : list Byte.byte) : Forall (λ c, 0 ≤ c < 256) (Z_of_byte <$> bs).
Proof.
  induction bs as [|b bs IH]; cbn; constructor; [|done].
  unfold Z_of_byte. pose proof (Byte.to_N_bounded b). lia.
Qed.
#[export] Instance pending_devices : InputDevices pending.
Proof.
  refine {| kbd_codes d := Z_of_byte <$> d.1; serial_chars d := Z_of_byte <$> d.2 |}.
  - intros d. apply bytes_range.
  - intros d. apply bytes_range.
  - intros [[|k ks] cs]; by cbn.
  - intros [[|k ks] cs] c cs'; cbn; [done|]. by intros [= <- <-].
  - intros [ks [|c cs]]; by cbn.
  - intros [ks [|c cs]] c' cs'; cbn; [done|]. by intros [= <- <-].
  - intros d p Hp. unfold input_port in Hp. cbn.
    destruct (Z.eqb_spec p KBSTATP), (Z.eqb_spec p KBDATAP), (Z.eqb_spec p (COM1 + COM_LSR)), (Z.eqb_spec p (COM1 + COM_RX));
      subst; done.
  - done.
Defined.

(** A blank screen, nothing typed. *)
Definition quiet_console (ks cs : list Byte.byte) : Dev pending :=
  MkDev (ks, cs) 0xFFFB true true CGA_BASE (KERNEL_BASE + CGA_BUF) ∅ 0 0 ∅ 0 0.
Definition dark : Screen := MkScreen (λ _, 0) 0.
Lemma quiet_shows ks cs : shows (quiet_console ks cs) dark.
Proof. split; [done|]. split; [done|]. intros i _. by rewrite zero_array. Qed.
Lemma quiet_ok ks cs : console_ok (quiet_console ks cs).
Proof. split; [done|]. split; [done|]. exists dark. apply quiet_shows. Qed.

(** Shift and the key of a, then the key alone: two characters, then nothing. *)
Lemma console_refines_queue_witness :
  ∃ s', console_run (quiet_console [Byte.x2a; Byte.x1e; Byte.xaa; Byte.x1e] []) [Getc 65; Getc 97; Getc 0] s' ∧
    console_ok s'.
Proof.
  set (s := quiet_console [Byte.x2a; Byte.x1e; Byte.xaa; Byte.x1e] []).
  assert (∃ s1, console_step s (Getc 65) s1 ∧ ∃ s2, console_step s1 (Getc 97) s2 ∧ ∃ s3, console_step s2 (Getc 0) s3)
    as (s1 & H1 & s2 & H2 & s3 & H3).
  { eexists. split; [apply step_getc; vm_compute; reflexivity|].
    eexists. split; [apply step_getc; vm_compute; reflexivity|].
    eexists. apply step_getc. vm_compute. reflexivity. }
  assert (console_run s [Getc 65; Getc 97; Getc 0] s3) as Hr
    by exact (run_snoc _ [_; _] _ _ _ (run_snoc _ [_] _ _ _ (run_snoc _ [] _ _ _ (run_nil _) H1) H2) H3).
  exists s3. split; [exact Hr|]. exact (proj1 (console_refines_queue s s3 _ (quiet_ok _ _) Hr)).
Defined.

(** 513 times the letter x: one is left. *)
Lemma serial_burst_overruns_witness :
  ∃ s', serial_intr 600 (quiet_console [] (replicate 513 Byte.x78)) = Ret tt s' ∧ unread s' = [0x78].
Proof.
  destruct (serial_burst_overruns (quiet_console [] (replicate 513 Byte.x78)) (replicate 513 0x78) 600)
    as (s' & E & U); [apply quiet_ok|reflexivity|vm_compute; reflexivity|vm_compute; reflexivity| | |].
  - apply Forall_replicate. lia.
  - rewrite length_replicate. lia.
  - exists s'. split; [exact E|]. rewrite U. vm_compute. reflexivity.
Defined.

(** "A", a new line and a tab on a dark screen. *)
Lemma screen_refines_terminal_witness :
  ∃ s', forM [65; 10; 9] cons_putc (quiet_console [] []) = Ret tt s' ∧ crt_pos s' = 85 ∧
    crt_mem s' !!! 0 = 0x0741 ∧ crt_mem s' !!! 80 = 0x0720.
Proof.
  assert (0 ≤ 0 < CRT_SIZE ∧ 0 ≤ 80 < CRT_SIZE) as [R0 R80] by (by vm_compute).
  destruct (screen_refines_terminal (quiet_console [] []) dark [65; 10; 9]) as (s' & E & (Hp & _ & Hc) & _);
    [done|apply quiet_shows|].
  exists s'. split; [exact E|]. split; [rewrite Hp; vm_compute; reflexivity|].
  pose proof (proj1 (Hc 0 R0)) as H0. pose proof (proj1 (Hc 80 R80)) as H80. clear Hc.
  revert H0 H80. generalize (crt_mem s' !!! 0) (crt_mem s' !!! 80). clear.
  vm_compute. intros ? ? -> ->. split; reflexivity.
Defined.
