(* ===== verification/InitSpec.v ===== *)
(** * Kernel entry: what FOS_initialize establishes

    The device code always returns, whatever the ports answer.  FOS_initialize therefore reaches
    the prompt whenever memory has room for what boot allocates, and then the theorems about the
    parts apply: the kernel heap is ready (KHeapSpec.v) if
    memory held no present entry, every environment slot is free and linked
    (LifeCycle.v), the descriptor tables lead each vector to its stub (TrapsSpec.v). *)
From stdpp Require Import pretty.
From S2P Require Import Prelude Machine Queue State AddressSpace PageFlags FrameAlloc FrameAllocSpec Paging PagingSpec KHeap KHeapSpec HeapMem PageFile PageFileSpec WorkingSet Fault UserEnv UserEnvSpec Sched Syscall Traps TrapsSpec Boot BootSpec BootVM Devices Console Init Hoare LifeCycle KernelLife.

(** ** Code that always returns *)
Definition returns {S A} (m : M S A) : Prop := ∀ s, ∃ a s', m s = Ret a s'.
Section Returns.
Context {S : Type}.
Lemma returns_ret {A} (a : A) : returns (mret a : M S A).
Proof. intros s. by eexists _, _. Qed.
Lemma returns_bind {A B} (m : M S A) (f : A → M S B) : returns m → (∀ a, returns (f a)) → returns (m ≫= f).
Proof. intros Hm Hf s. destruct (Hm s) as (a & s1 & Hs1). mstep Hs1. apply Hf. Qed.
Lemma returns_gets {A} (g : S → A) : returns (gets g).
Proof. intros s. by eexists _, _. Qed.
Lemma returns_modify (g : S → S) : returns (modify g).
Proof. intros s. by eexists _, _. Qed.
Lemma returns_when b (m : M S unit) : (b = true → returns m) → returns (when b m).
Proof. destruct b; [by auto|]. intros _. apply returns_ret. Qed.
Lemma returns_forM {X} (xs : list X) (f : X → M S unit) : (∀ x, returns (f x)) → returns (forM xs f).
Proof.
  intros Hf. induction xs as [|x xs IH]; [apply returns_ret|]. cbn. apply returns_bind; [apply Hf|]. intros a; apply IH.
Qed.
End Returns.
Create HintDb returns.
#[export] Hint Resolve returns_ret returns_gets returns_modify : returns.
Ltac returns :=
  repeat match goal with
  | |- returns (_ ≫= _) => apply returns_bind; [|intros ?]
  | |- returns (forM _ _) => apply returns_forM; intros ?
  | |- returns (when _ _) => apply returns_when; intros ?
  | |- returns (if ?b then _ else _) => destruct b eqn:?
  | |- returns (let x := _ in _) => cbv zeta
  end; auto with returns.

Section Devices.
Context {D : Type} `{Ports D}.
Lemma inb_returns port : returns (inb port).
Proof. intros s. unfold inb. destruct (port_in port (dev s)). by eexists _, _. Qed.
Lemma outb_returns port v : returns (outb port v).
Proof. apply returns_modify. Qed.
Hint Resolve inb_returns outb_returns : returns.
Lemma lpt_putc_returns c : returns (lpt_putc c).
Proof.
  unfold lpt_putc. apply returns_bind; [intros s|intros ?; returns].
  match goal with |- context [mloop 2802 ?b 0] => destruct (mloop_total
    (λ i _, 0 ≤ i ≤ 2800) (λ _ _, True) (λ i _, Z.to_nat (2800 - i)) b 2802 0 s) as ([] & s1 & E1 & _);
    [|done|lia|by eexists _, _] end.
  intros i s1 Hi. destruct (inb_returns (0x378 + 1) s1) as (v & s2 & E2). mstep E2.
  destruct (Z.land v 0x80 =? 0); cbn [andb]; [destruct (Z.ltb_spec i 2800)|]; [|by right; eexists _, _..].
  left. assert (returns delay) as Hd by (unfold delay; returns). destruct (Hd s2) as ([] & s3 & E3). mstep E3.
  exists (i + 1), s3. split; [done|]. lia.
Qed.
Hint Resolve lpt_putc_returns : returns.

(** The character that decides what cga_putc does; only a tab recurs. *)
Lemma cga_putc_with_returns f c : (Z.land c 0xFF = 9 → returns (f 32)) → returns (cga_putc_with f c).
Proof.
  intros Hf. unfold cga_putc_with. apply returns_bind; [|intros ?; unfold scroll, move_cursor, set_cell; returns].
  set (c' := if _ : bool then _ else _).
  assert (Z.land c' 0xFF = Z.land c 0xFF) as Hc.
  { unfold c'. case_match; [|done]. rewrite Z.land_lor_distr_l. change (Z.land 0x0700 0xFF) with 0. apply Z.lor_0_r. }
  clearbody c'. unfold cga_write, set_cell. rewrite Hc. returns. all: apply Hf; by apply Z.eqb_eq.
Qed.
Lemma cons_putc_returns c : returns (cons_putc c).
Proof.
  unfold cons_putc. cbn [cons_putc_at]. returns. apply cga_putc_with_returns. intros _. returns.
  by apply cga_putc_with_returns.
Qed.
Hint Resolve cons_putc_returns : returns.
Lemma console_puts_returns m : returns (console_puts m).
Proof. unfold console_puts, cputchar. returns. Qed.
Hint Resolve console_puts_returns : returns.
Lemma console_initialize_returns b : returns (console_initialize b).
Proof. unfold console_initialize, cga_init, kbd_init, serial_init. returns. Qed.
Lemma irq_setmask_returns mask : returns (irq_setmask_8259A mask).
Proof. unfold irq_setmask_8259A. returns. Qed.
Hint Resolve irq_setmask_returns : returns.
Lemma pic_init_returns : returns pic_init.
Proof. unfold pic_init. returns. Qed.
Lemma kclock_start_returns : returns kclock_start.
Proof. unfold kclock_start, kclock_read_cnt0, unmask_timer. returns. Qed.
Lemma nvram_read_returns r : returns (nvram_read r).
Proof. unfold nvram_read, mc146818_read. returns. Qed.
End Devices.

(** ** What a step of the kernel's start leaves alone *)
Definition same_memory (s s' : KState) : Prop :=
  hw s' = hw s ∧ frames s' = frames s ∧ kheap s' = kheap s ∧ boot s' = boot s.
#[export] Instance same_memory_preorder : PreOrder same_memory.
Proof.
  split; [by intros s; split_and!|]. intros s1 s2 s3 (? & ? & ? & ?) (? & ? & ? & ?). split_and!; congruence.
Qed.
Lemma env_init_memory : changes same_memory env_init.
Proof.
  unfold env_init, upd_env, on_env_free_list. changes; by apply changes_modify.
Qed.
Lemma sched_init_memory : changes same_memory sched_init.
Proof. unfold sched_init, put_sched_next. changes; by apply changes_modify. Qed.
Definition same_disk (s s' : KState) : Prop := pagefile s' = pagefile s.
#[export] Instance same_disk_preorder : PreOrder same_disk.
Proof. split; [done|]. intros s1 s2 s3 ? ?. unfold same_disk in *. congruence. Qed.
Lemma env_init_disk : changes same_disk env_init.
Proof. unfold env_init, upd_env, on_env_free_list. changes; by apply changes_modify. Qed.
Lemma sched_init_disk : changes same_disk sched_init.
Proof. unfold sched_init, put_sched_next. changes; by apply changes_modify. Qed.
Lemma heap_from_boot_same s0 s s' e D T a : same_memory s s' → heap_from_boot s0 s e D T a → heap_from_boot s0 s' e D T a.
Proof.
  intros (Hh & Hf & Hk & Hb) [H1 H2 H3 H4 H5 H6 H7 H8 H9]. split.
  - eapply kernel_space_same; [exact Hh|by rewrite Hf|by rewrite Hb|done].
  - by eapply allocator_frames.
  - exact H3.
  - by rewrite Hf.
  - by apply (heap_reached_hw _ _ _ s).
  - intros va Hva. unfold heap_pte, pte, get_word. rewrite Hh. by apply H6.
  - by rewrite Hk.
  - by rewrite Hf.
  - by rewrite Hb.
Qed.

(** ** Lifting *)
Section Lift.
Context {D : Type} `{Ports D}.
Lemma in_kernel_Ret {A} (m : K A) (s : System D) a k :
  m (kernel s) = Ret a k → in_kernel m s = Ret a (set_kernel k s).
Proof. intros Hm. unfold in_kernel, lift. by rewrite Hm. Qed.
Lemma in_kernel_bind {A B} (m : K A) (f : A → K B) (s : System D) :
  (in_kernel m ≫= λ a, in_kernel (f a)) s = in_kernel (m ≫= f) s.
Proof.
  unfold in_kernel, lift, mbind, M_bind. destruct (m (kernel s)) as [a k| | | |]; done.
Qed.
Lemma in_kernel_seq {A} (m1 m2 : K unit) (R : M (System D) A) (s : System D) k :
  (m1;; m2) (kernel s) = Ret tt k → (in_kernel m1;; in_kernel m2;; R) s = R (set_kernel k s).
Proof.
  unfold in_kernel, lift, mbind, M_bind. destruct (m1 (kernel s)) as [[] k1| | | |]; try done. cbn.
  by intros ->.
Qed.
Lemma in_kernel_step {A} (m : K unit) (R : M (System D) A) (s : System D) k :
  m (kernel s) = Ret tt k → (in_kernel m;; R) s = R (set_kernel k s).
Proof. intros Hm. by rewrite (bind_Ret _ _ _ _ _ (in_kernel_Ret m s tt k Hm)). Qed.
Lemma in_devices_returns {A} (m : M (Dev D) A) (s : System D) :
  returns m → ∃ a d, in_devices m s = Ret a (set_devices d s).
Proof. intros Hm. destruct (Hm (devices s)) as (a & d & Hd). exists a, d. unfold in_devices, lift. by rewrite Hd. Qed.
Lemma say_returns m (s : System D) : ∃ d, say m s = Ret tt (set_devices d s).
Proof. destruct (in_devices_returns (console_puts m) s (console_puts_returns m)) as ([] & d & Hd). by exists d. Qed.

(** Output leaves the kernel and the descriptors alone. *)
Definition prints (m : M (System D) unit) : Prop := ∀ s, ∃ d, m s = Ret tt (set_devices d s).
Lemma say_prints m : prints (say m).
Proof. intros s. apply say_returns. Qed.
Lemma prints_bind m1 m2 : prints m1 → prints m2 → prints (m1;; m2).
Proof.
  intros H1 H2 s. destruct (H1 s) as (d1 & Hd1). mstep Hd1. destruct (H2 (set_devices d1 s)) as (d2 & Hd2). by exists d2.
Qed.
Lemma in_devices_prints m : returns m → prints (in_devices m).
Proof. intros Hm s. destruct (in_devices_returns m s Hm) as ([] & d & Hd). by exists d. Qed.
Lemma welcome_prints : prints print_welcome_message.
Proof. unfold print_welcome_message. repeat apply prints_bind; apply say_prints. Qed.

(** The frames memory detection finds, from what CMOS answers. *)
Lemma start_console_spec cga (s : System D) :
  ∃ d extended other, start_console cga s =
    Ret tt (set_kernel (on_frames (set_number_of_frames (maximum_physical_address extended other `div` PAGE_SIZE)) (kernel s))
             (set_devices d s)).
Proof.
  unfold start_console. destruct (in_devices_prints _ (console_initialize_returns cga) s) as (d1 & H1). mstep H1.
  destruct (welcome_prints (set_devices d1 s)) as (d2 & H2). mstep H2.
  unfold detect_memory.
  destruct (in_devices_returns _ (set_devices d2 (set_devices d1 s)) (nvram_read_returns NVRAM_BASELO)) as (base & d3 & H3). mstep H3.
  destruct (in_devices_returns _ (set_devices d3 (set_devices d2 (set_devices d1 s))) (nvram_read_returns NVRAM_EXTLO)) as (ext & d4 & H4). mstep H4.
  destruct (in_devices_returns _ (set_devices d4 (set_devices d3 (set_devices d2 (set_devices d1 s)))) (nvram_read_returns 0x34)) as (oth & d5 & H5). mstep H5.
  cbv zeta. set (n := maximum_physical_address ext oth `div` PAGE_SIZE). set (s5 := set_devices d5 _).
  rewrite (bind_Ret _ _ _ _ _ (in_kernel_Ret (modify (on_frames (set_number_of_frames n))) s5 tt _ eq_refl)).
  set (s6 := set_kernel _ s5).
  match goal with |- ∃ _ _ _, ?m s6 = _ => assert (prints m) as Hp by (repeat (apply prints_bind; [apply say_prints|]); apply say_prints) end.
  destruct (Hp s6) as (d6 & H6). exists d6, ext, oth. rewrite H6. done.
Qed.
End Lift.
Lemma detected_frames extended other :
  0 ≤ maximum_physical_address extended other `div` PAGE_SIZE ≤ 2 ^ 20.
Proof.
  assert (is_u32 (maximum_physical_address extended other)) as Hu.
  { unfold maximum_physical_address. repeat case_match; apply u32_range. }
  unfold is_u32, PAGE_SIZE in *. zdiv.
Qed.

(** ** Properties *)
(** The kernel's state when FOS_initialize is entered: the image in memory up to [e], with the stack
    in it, and its variables as the image has them; the memory behind the image holds anything. *)
Record fresh_kernel (s : KState) (e bottom : Z) : Prop := {
  fk_free : free_from s e;
  fk_image : PHYS_EXTENDED_MEM ≤ e;
  fk_stack : 0 ≤ bottom ∧ (bottom + 8) * PAGE_SIZE ≤ e;
  fk_words : words_ok s;
  fk_heap : firstFreeVAInKHeap (kheap s) = KERNEL_HEAP_START;
  fk_envs : env_free_list (environments s) = MkListHead None None 0;
}.
Lemma fresh_kernel_frames s e bottom n :
  fresh_kernel s e bottom → fresh_kernel (on_frames (set_number_of_frames n) s) e bottom.
Proof. by intros []. Qed.

(** From a kernel with its tables and frames on: the environments, the switches, the scheduler. *)
Definition policies (k : KState) : Prop :=
  _PageRepAlgoType (config k) = PG_REP_LRU ∧ _UHeapPlacementStrategy (config k) = UHP_PLACE_FIRSTFIT ∧
  _EnableBuffering (config k) = 0 ∧ _EnableModifiedBuffer (config k) = 0.
Lemma sched_init_stops k : ∃ k', sched_init k = Ret tt k' ∧ scheduler_status (sched k') = SCH_STOPPED ∧ config k' = config k.
Proof. eexists. split; [reflexivity|]. by split. Qed.
Lemma start_environments k :
  env_free_list (environments k) = MkListHead None None 0 →
  ∃ k1 k2, env_init k = Ret tt k1 ∧
    sched_init (on_config (set__EnableModifiedBuffer 0) (on_config (set__EnableBuffering 0)
      (on_config (set__UHeapPlacementStrategy UHP_PLACE_FIRSTFIT) (on_config (set__PageRepAlgoType PG_REP_LRU) k1)))) = Ret tt k2 ∧
    (same_memory k k2 ∧ same_disk k k2) ∧ lives k2 (all_free (seqZ 0 NENV)) [] ∧ scheduler_status (sched k2) = SCH_STOPPED ∧ policies k2.
Proof.
  intros Hf. assert (env_free_slots k []) as H0 by (unfold env_free_slots; rewrite Hf; apply dll_nil).
  destruct (env_init_links_all_slots k H0) as (k1 & Hk1 & Hd & Hst). exists k1.
  set (k1' := on_config _ _).
  destruct (sched_init_lives k1' (seqZ 0 NENV)) as (k2 & Hk2 & Hl); [exact Hd|reflexivity| |].
  { intros i Hi. apply (Hst i). revert Hi. rewrite elem_of_seqZ. clear. lia. }
  destruct (sched_init_stops k1') as (k2' & Hk2' & Hst' & Hc). rewrite Hk2 in Hk2'. injection Hk2' as <-.
  exists k2. split; [exact Hk1|]. split; [exact Hk2|]. split; [|split; [exact Hl|split; [exact Hst'|]]].
  2: { unfold policies. rewrite Hc. by split_and!. }
  split.
  - etrans; [apply (env_init_memory k k1); by rewrite Hk1|].
    etrans; [|apply (sched_init_memory k1' k2); by rewrite Hk2]. by split_and!.
  - etrans; [apply (env_init_disk k k1); by rewrite Hk1|]. apply (sched_init_disk k1' k2). by rewrite Hk2.
Qed.

(** The kernel boots: the theorem below, with what the kernel's tests need in addition. *)
Lemma FOS_initialize_spec {D : Type} `{Ports D} cga address a (s : System D) e bottom :
  fresh_kernel (kernel s) e bottom →
  ∃ s1, start_console cga s = Ret tt s1 ∧
    let n := number_of_frames (frames (kernel s1)) in
    (e + boot_needs n ≤ Z.min (n * PAGE_SIZE) (KERNEL_HEAP_START - KERNEL_BASE) →
     ∃ s' dir T lim m, FOS_initialize (A := unit) cga (static bottom) address a s = Leave None s' ∧
       number_of_frames (frames (kernel s')) = n ∧
       heap_from_boot (kernel s) (kernel s') e dir T (reverse (seqZ 3 157 ++ seqZ (page_up lim) (n - page_up lim)), m) ∧
       (∀ f, m !!! f = boot_references (page_up lim) f) ∧
       lives (kernel s') (all_free (seqZ 0 NENV)) [] ∧ scheduler_status (sched (kernel s')) = SCH_STOPPED ∧
       descriptors s' = idt_init address a (descriptors s) ∧
       policies (kernel s') ∧
       (e < lim ≤ e + boot_needs n ∧ n ≤ 2 ^ 20) ∧ disk_free (kernel s') (reverse (seqZ 1 (PAGES_PER_FILE - 1)))).
Proof.
  intros Hfresh. destruct (start_console_spec cga s) as (d1 & ext & oth & H1).
  pose proof (detected_frames ext oth) as Hn.
  set (n := maximum_physical_address ext oth `div` PAGE_SIZE) in *.
  eexists. split; [exact H1|]. cbv zeta. cbn [kernel set_kernel frames on_frames set_frames number_of_frames set_number_of_frames].
  intros Hroom.
  set (k0 := on_frames (set_number_of_frames n) (kernel s)) in *.
  destruct (fresh_kernel_frames _ _ _ n Hfresh) as [F1 F2 F3 F4 F5 F6]. fold k0 in F1, F4, F5, F6.
  assert (boot_fits k0 e bottom) as Hfit by (by split).
  destruct (boot_makes_kernel_heap initialize_disk_page_file k0 e bottom Hfit F4)
    as (k1 & dir & T & lim & m & Hk1 & Hlim & Hboot & Hm & Hfree & Hnf).
  destruct (disk_frames_initialised k1) as (k2 & Hk2 & Hdisk & [p Hp]). rewrite Hk2 in Hk1.
  assert (same_memory k1 k2) as Hs12 by (rewrite Hp; split_and!; reflexivity).
  assert (env_free_list (environments k2) = MkListHead None None 0) as Hfree2.
  { rewrite Hp. change (env_free_list (environments k1) = MkListHead None None 0). rewrite Hfree. exact F6. }
  destruct (start_environments k2 Hfree2) as (k3 & k4 & Hk3 & Hk4 & [Hs24 Hd24] & Hl & Hsch & Hpol).
  assert (same_memory k1 k4) as Hs14 by (etrans; eassumption).
  assert (heap_from_boot (kernel s) k4 e dir T (reverse (seqZ 3 157 ++ seqZ (page_up lim) (n - page_up lim)), m)) as Hboot4.
  { apply (heap_from_boot_same _ k1); [exact Hs14|]. destruct Hboot as [B1 B2 B3 B4 B5 B6 B7 B8 B9].
    split; [exact B1|exact B2|exact B3|exact B4|exact B5|exact B6|exact B7|exact B8|exact B9]. }
  assert (disk_free k4 (reverse (seqZ 1 (PAGES_PER_FILE - 1)))) as Hdisk4.
  { unfold disk_free. unfold same_disk in Hd24. rewrite Hd24. exact Hdisk. }
  set (s1 := set_kernel k0 (set_devices d1 s)) in *.
  set (s3 := set_descriptors (idt_init address a (descriptors (set_kernel k3 s1))) (set_kernel k3 s1)).
  destruct (in_devices_prints _ pic_init_returns (set_kernel (on_config (set__EnableModifiedBuffer 0) (on_config (set__EnableBuffering 0)
      (on_config (set__UHeapPlacementStrategy UHP_PLACE_FIRSTFIT) (on_config (set__PageRepAlgoType PG_REP_LRU) k3)))) s3)) as (d2 & H2).
  set (s4 := set_devices d2 _) in *.
  destruct (in_devices_prints _ kclock_start_returns s4) as (d3 & H3). set (s5 := set_devices d3 s4) in *.
  set (s6 := set_kernel k4 s5).
  destruct (say_prints (newline +:+ "Welcome to the FOS kernel command prompt!" +:+ newline) s6) as (d4 & H4).
  destruct (say_prints ("Type 'help' for a list of commands." +:+ newline) (set_devices d4 s6)) as (d5 & H5).
  exists (set_devices d5 (set_devices d4 s6)), dir, T, lim, m. split; [|split; [|split; [|split; [|split; [|split; [|split; [|split; [|split]]]]]]]].
  - unfold FOS_initialize. rewrite (bind_Ret _ _ _ _ _ H1). fold s1.
    assert (kernel s1 = k0) as Hks1 by reflexivity. rewrite <-Hks1 in Hk1.
    rewrite (in_kernel_seq (initialize_kernel_VM (static bottom)) (initialize_paging initialize_disk_page_file) _ s1 k2 Hk1).
    rewrite (in_kernel_step env_init _ (set_kernel k2 s1) k3 Hk3).
    rewrite bind_modify. fold s3.
    set (c1 := on_config (set__PageRepAlgoType PG_REP_LRU) k3) in *.
    set (c2 := on_config (set__UHeapPlacementStrategy UHP_PLACE_FIRSTFIT) c1) in *.
    set (c3 := on_config (set__EnableBuffering 0) c2) in *. set (c4 := on_config (set__EnableModifiedBuffer 0) c3) in *.
    rewrite (in_kernel_step setPageReplacmentAlgorithmLRU _ s3 c1 eq_refl).
    rewrite (in_kernel_step setUHeapPlacementStrategyFIRSTFIT _ (set_kernel c1 s3) c2 eq_refl).
    rewrite (in_kernel_step (enableBuffering 0) _ (set_kernel c2 (set_kernel c1 s3)) c3 eq_refl).
    rewrite (in_kernel_step (enableModifiedBuffer 0) _ (set_kernel c3 (set_kernel c2 (set_kernel c1 s3))) c4 eq_refl).
    change (set_kernel c4 (set_kernel c3 (set_kernel c2 (set_kernel c1 s3)))) with (set_kernel c4 s3).
    etrans; [apply (bind_Ret _ _ _ _ _ H2)|]. fold s4. etrans; [apply (bind_Ret _ _ _ _ _ H3)|]. fold s5.
    rewrite (in_kernel_step sched_init _ s5 k4 Hk4). fold s6.
    etrans; [apply (bind_Ret _ _ _ _ _ H4)|]. etrans; [apply (bind_Ret _ _ _ _ _ H5)|]. reflexivity.
  - destruct Hs14 as (_ & Hf & _). change (number_of_frames (frames k4) = n). rewrite Hf. exact Hnf.
  - exact Hboot4.
  - exact Hm.
  - exact Hl.
  - exact Hsch.
  - reflexivity.
  - exact Hpol.
  - split; [exact Hlim|apply Hn].
  - exact Hdisk4.
Qed.

(** C5: FOS_initialize, on whatever devices, memory size and contents of the memory behind the kernel
    image, reaches the command prompt if the memory CMOS reports has room for what boot allocates;
    then paging is on with the kernel's address space and its 40 heap tables, every free frame is
    known, all environment slots are free and linked in order with the queues empty, the scheduler
    is stopped, the interrupt table is the one of idt_init, and the policies are LRU replacement,
    first fit and no buffering. Boot does not clear its page tables: each entry of a kernel heap page
    is a word that memory held behind the image, and only when none of those words has its present
    bit, as when that memory is zero at power-on, is the kernel heap ready with no page allocated. *)
Theorem FOS_initialize_reaches_prompt {D : Type} `{Ports D} cga address a (s : System D) e bottom :
  fresh_kernel (kernel s) e bottom →
  ∃ s1, start_console cga s = Ret tt s1 ∧
    let n := number_of_frames (frames (kernel s1)) in
    (e + boot_needs n ≤ Z.min (n * PAGE_SIZE) (KERNEL_HEAP_START - KERNEL_BASE) →
     ∃ s' dir T lim m, FOS_initialize (A := unit) cga (static bottom) address a s = Leave None s' ∧
       let heap := (reverse (seqZ 3 157 ++ seqZ (page_up lim) (n - page_up lim)), m) in
       number_of_frames (frames (kernel s')) = n ∧
       heap_from_boot (kernel s) (kernel s') e dir T heap ∧
       (nothing_present (kernel s) e → heap_ready (kernel s') dir T heap) ∧
       (∀ f, m !!! f = boot_references (page_up lim) f) ∧
       lives (kernel s') (all_free (seqZ 0 NENV)) [] ∧ scheduler_status (sched (kernel s')) = SCH_STOPPED ∧
       descriptors s' = idt_init address a (descriptors s) ∧
       (_PageRepAlgoType (config (kernel s')) = PG_REP_LRU ∧
        _UHeapPlacementStrategy (config (kernel s')) = UHP_PLACE_FIRSTFIT ∧
        _EnableBuffering (config (kernel s')) = 0 ∧ _EnableModifiedBuffer (config (kernel s')) = 0)).
Proof.
  intros Hfresh. destruct (FOS_initialize_spec cga address a s e bottom Hfresh) as (s1 & H1 & Hrun).
  exists s1. split; [exact H1|]. intros n Hroom.
  destruct (Hrun Hroom) as (s' & dir & T & lim & m & Hr & Hn & Hh & Hm & Hl & Hst & Hd & Hp & _).
  exists s', dir, T, lim, m. split; [exact Hr|]. cbv zeta. split; [exact Hn|]. split; [exact Hh|]. split.
  - intros Hz. exact (heap_from_boot_ready _ _ _ _ _ _ Hh (fk_heap _ _ _ Hfresh) Hz).
  - exact (conj Hm (conj Hl (conj Hst (conj Hd Hp)))).
Qed.

(** ** Witnesses *)
(** Ports of a machine with 32 MB: the hardware's state is the CMOS register selected last, register
    0x35 holds 1, the line printer is ready, nothing else answers. *)
#[export] Instance small_machine : Ports Z := {|
  port_in p r := if p =? IO_RTC + 1 then (if r =? 0x35 then 1 else 0, r) else if p =? 0x379 then (0x80, r) else (0, r);
  port_out p v r := if p =? IO_RTC then v else r;
|}.
Definition small_kernel : KState :=
  on_kheap (set_firstFreeVAInKHeap KERNEL_HEAP_START)
    (on_boot (set_end_of_kernel (KERNEL_BASE + 0x130000)) (inhabitant : KState)).
Definition small_system (k : KState) : System Z :=
  MkSystem k (MkDev 0 0xFFFB false false 0 0 ∅ 0 0 ∅ 0 0) no_descriptors.
Lemma small_kernel_fresh : fresh_kernel small_kernel 0x130000 0x120.
Proof.
  split; [by right|done|done| |done|done]. intros j. unfold get_word. cbn. by rewrite zero_array.
Qed.
(** Memory that is not zero: the word at 0x200000 holds 7. *)
Definition dirty_kernel : KState := put_word 0x80000 7 small_kernel.
Lemma dirty_kernel_fresh : fresh_kernel dirty_kernel 0x130000 0x120.
Proof.
  destruct small_kernel_fresh as [F1 F2 F3 F4 F5 F6]. split; try done.
  intros j. unfold dirty_kernel. destruct (decide (0x80000 = j)) as [<-|Hj]; [by rewrite get_put_eq|].
  rewrite get_put_ne by exact Hj. apply F4.
Qed.
Definition detected (k : KState) : Z :=
  match start_console true (small_system k) with Ret _ s => number_of_frames (frames (kernel s)) | _ => 0 end.
Lemma detected_small k : detected k = 8192.
Proof. vm_compute. reflexivity. Qed.
Lemma detected_eq k s1 : start_console true (small_system k) = Ret tt s1 → number_of_frames (frames (kernel s1)) = 8192.
Proof. intros Hs1. rewrite <-(detected_small k). unfold detected. by rewrite Hs1. Qed.
Lemma FOS_initialize_reaches_prompt_witness :
  ∃ s', FOS_initialize (A := unit) true (static 0x120) stub_address 0xF0120000 (small_system dirty_kernel) = Leave None s' ∧
    lives (kernel s') (all_free (seqZ 0 NENV)) [] ∧ number_of_frames (frames (kernel s')) = 8192.
Proof.
  destruct (FOS_initialize_reaches_prompt true stub_address 0xF0120000 (small_system dirty_kernel) 0x130000 0x120 dirty_kernel_fresh)
    as (s1 & Hs1 & Hrun).
  assert (number_of_frames (frames (kernel s1)) = 8192) as Hn.
  { exact (detected_eq _ _ Hs1). }
  rewrite Hn in Hrun. destruct Hrun as (s' & dir & T & lim & m & Hr & Hn' & _ & _ & _ & Hl & _); [vm_compute; congruence|].
  exists s'. split; [exact Hr|]. split; [exact Hl|exact Hn'].
Defined.
