(* ===== verification/BootTests.v ===== *)
(** * The booted kernel runs its own tests

    InitSpec.v takes FOS_initialize to the prompt, TestKHeapPass.v runs the tests of the heap from
    a state with a fresh heap; the state at the prompt is one when memory was zero at power-on. *)
From S2P Require Import Link Prelude Machine Queue State AddressSpace PageFlags FrameAlloc FrameAllocSpec Paging KHeap KHeapSpec PageFile PageFileSpec Fault UserEnv Sched Syscall TestKHeap TestKHeapSpec TestKHeapPass Traps TrapsSpec Boot BootSpec BootVM Devices Console Init KernelLife InitSpec.

(** The variables of kern/kheap.c are cleared, and the image ends at [e]. *)
Record cleared_heap (s : KState) (e : Z) : Prop := {
  ch_idx : idx (kheap s) = 0;
  ch_reverse f : virtualAddresses (kheap s) !!! f = 0;
  ch_end : end_of_kernel (boot s) = KERNEL_BASE + e;
}.

(** The frames that are free after boot, when [lim] bytes are taken. *)
Notation free_after lim n := (reverse (seqZ 3 157 ++ seqZ (page_up lim) (n - page_up lim))).

Lemma disk_pages_ok : Forall disk_page (reverse (seqZ 1 (PAGES_PER_FILE - 1))).
Proof.
  apply Forall_forall. intros d. rewrite elem_of_reverse, elem_of_seqZ. unfold disk_page. lia.
Qed.

(** Every word of memory behind the kernel's image is 0. *)
Definition memory_zero (s : KState) (e : Z) : Prop := ∀ j, e ≤ 4 * j → get_word s j = 0.
Lemma memory_zero_present s e : memory_zero s e → nothing_present s e.
Proof. intros Hz j Hj. by rewrite (Hz j Hj). Qed.

Lemma booted_fresh_heap s s' e D T lim n m :
  PHYS_EXTENDED_MEM ≤ e → e < lim → e < 2 ^ 32 → firstFreeVAInKHeap (kheap s) = KERNEL_HEAP_START → cleared_heap s e →
  memory_zero s e → number_of_frames (frames s') = n → n < 2 ^ 32 → heap_from_boot s s' e D T (free_after lim n, m) →
  disk_free s' (reverse (seqZ 1 (PAGES_PER_FILE - 1))) →
  fresh_heap D T (free_after lim n) m (reverse (seqZ 1 (PAGES_PER_FILE - 1))) s'.
Proof.
  intros He Hlim He32 Hfirst [Ci Cr Ce] Hz Hn Hn32 Hboot Hdisk. pose proof (page_up_bounds lim) as Hp.
  assert (∀ f, f ∈ free_after lim n → 3 ≤ f < 160 ∨ page_up lim ≤ f) as HF.
  { intros f. rewrite elem_of_reverse, elem_of_app, !elem_of_seqZ. lia. }
  pose proof (heap_from_boot_ready _ _ _ _ _ _ Hboot Hfirst (memory_zero_present _ _ Hz)) as Hready.
  destruct Hboot as [_ _ _ _ B5 B6 B7 B8 B9].
  unfold PHYS_EXTENDED_MEM, PAGE_SIZE in *. split.
  - exact Hready.
  - by rewrite B7.
  - by rewrite B7.
  - exact B5.
  - intros va Hva. destruct (B6 va Hva) as (j & Hj & ->). by apply Hz.
  - intros f. rewrite B7. apply Cr.
  - split; [rewrite B8; apply dll_nil|exact Hdisk|exact disk_pages_ok|by rewrite Hn].
  - intros H0%HF. lia.
  - intros f Hf%HF Hge. rewrite B9, Ce, Z.add_simpl_l, u32_small by (unfold is_u32; lia). unfold PAGE_SIZE. lia.
Qed.

(** ** Property *)

(** C10: on a machine whose memory behind the kernel image is zero at power-on (boot does not clear its
    page tables) and has room for what boot allocates and the 3336 frames the tests take, whatever the
    devices answer, the kernel that FOS_initialize hands to the command prompt passes the tests of
    its heap test_kmalloc, test_kfree and test_kheap_virt_addr: the one that is run first returns 1,
    so that none of its checks panics and none of its accesses faults. The fourth,
    test_kheap_phys_addr, fails on the same kernel, at a local array larger than the kernel's stack;
    this bound on a single array is all of the stack that is modelled. *)
Theorem booted_kernel_passes_tests `{Extern} {D : Type} `{Ports D} cga address a (s : System D) e bottom :
  fresh_kernel (kernel s) e bottom → cleared_heap (kernel s) e → memory_zero (kernel s) e →
  ∃ s1, start_console cga s = Ret tt s1 ∧
    let n := number_of_frames (frames (kernel s1)) in
    (e + boot_needs n ≤ Z.min (n * PAGE_SIZE) (KERNEL_HEAP_START - KERNEL_BASE) →
     page_up (e + boot_needs n) + 3336 - 157 ≤ n →
     ∃ s', FOS_initialize (A := unit) cga (static bottom) address a s = Leave None s' ∧
       (∃ k, test_kmalloc (kernel s') = Ret 1 k) ∧ (∃ k, test_kfree (kernel s') = Ret 1 k) ∧
       (∃ k, test_kheap_virt_addr (kernel s') = Ret 1 k) ∧
       (∃ k, test_kheap_phys_addr (kernel s') = Crash (Undefined "kernel stack") k)).
Proof.
  intros Hfresh Hclear Hzero. destruct (FOS_initialize_spec cga address a s e bottom Hfresh) as (s1 & H1 & Hrun).
  exists s1. split; [exact H1|]. intros n Hroom Hfree.
  destruct (Hrun Hroom) as (s' & dir & T & lim & m & Hr & Hn & Hboot & _ & _ & _ & _ & _ & [Hlim Hn20] & Hdisk). fold n in Hboot, Hlim, Hn, Hn20.
  exists s'. split; [exact Hr|].
  assert (fresh_heap dir T (free_after lim n) m (reverse (seqZ 1 (PAGES_PER_FILE - 1))) (kernel s')) as Hf.
  { apply (booted_fresh_heap (kernel s) _ e); try done; try apply Hfresh; unfold KERNEL_HEAP_START, KERNEL_BASE in *; lia. }
  destruct (heap_tests_pass _ _ _ _ _ _ Hf) as ((k1 & T1 & _) & (k2 & T2 & _) & (k3 & T3 & _) & (k4 & T4 & _)).
  { rewrite length_reverse, length_app, !length_seqZ. unfold page_up in *. zdiv. }
  split_and!; [by exists k1|by exists k2|by exists k3|by exists k4].
Qed.

(** ** Witness *)
(** The machine with 32 MB of InitSpec.v, its memory zero. *)
Lemma small_kernel_cleared : cleared_heap small_kernel 0x130000.
Proof. split; [reflexivity|intros f; apply zero_array|reflexivity]. Qed.
Lemma small_kernel_zero : memory_zero small_kernel 0x130000.
Proof. intros j _. unfold get_word. cbn. apply zero_array. Qed.
Lemma booted_kernel_passes_tests_witness :
  ∃ s', FOS_initialize (A := unit) true (static 0x120) stub_address 0xF0120000 (small_system small_kernel) = Leave None s' ∧
    (∃ k, test_kmalloc (H := no_fuel) (kernel s') = Ret 1 k) ∧ (∃ k, test_kfree (H := no_fuel) (kernel s') = Ret 1 k).
Proof.
  destruct (booted_kernel_passes_tests (H := no_fuel) true stub_address 0xF0120000 (small_system small_kernel) 0x130000 0x120
    small_kernel_fresh small_kernel_cleared small_kernel_zero) as (s1 & Hs1 & Hrun).
  assert (number_of_frames (frames (kernel s1)) = 8192) as Hn.
  { exact (detected_eq _ _ Hs1). }
  rewrite Hn in Hrun. destruct Hrun as (s' & Hr & Hm & Hk & _); [vm_compute; congruence|vm_compute; congruence|].
  exists s'. split; [exact Hr|]. split; [exact Hm|exact Hk].
Defined.
