(* ===== verification/Prompt.v ===== *)
(** * The command prompt: kern/command_prompt.c and lib/readline.c

    A [Shell] is the kernel, the byte memory that holds the prompt's strings (the line, the
    history, the names of the commands) with what has been printed, and the characters the
    console will deliver (ConsoleSpec.v says in which order).  getchar with nothing more to come
    waits for ever: [OutOfFuel].  The test of the creation functions in kern/test_kheap.c, which
    gives a command itself, is here too; it takes that call as an argument, and [execute] ties the
    knot. *)
From S2P Require Import Prelude Machine Queue State PageFlags FrameAlloc Paging KHeap PageFile WorkingSet Fault UserEnv Sched Syscall TestKHeap Strings Printf.

(** The globals of test_three_creation_functions. *)
Record ThreeTest := MkThreeTest {
  firstCall : bool;
  initFreeFrames : Z;
  initFreeDiskFrames : Z;
}.

Record Shell := MkShell {
  kern : KState;
  text : CState;
  typed : list Z;
  history_size : Z;
  history_write : Z;
  three : ThreeTest;
}.
Definition set_kern (v : KState) (r : Shell) : Shell :=
  MkShell v (text r) (typed r) (history_size r) (history_write r) (three r).
Definition set_text (v : CState) (r : Shell) : Shell :=
  MkShell (kern r) v (typed r) (history_size r) (history_write r) (three r).
Definition set_typed (v : list Z) (r : Shell) : Shell :=
  MkShell (kern r) (text r) v (history_size r) (history_write r) (three r).
Definition set_history_size (v : Z) (r : Shell) : Shell :=
  MkShell (kern r) (text r) (typed r) v (history_write r) (three r).
Definition set_history_write (v : Z) (r : Shell) : Shell :=
  MkShell (kern r) (text r) (typed r) (history_size r) v (three r).
Definition set_three (v : ThreeTest) (r : Shell) : Shell :=
  MkShell (kern r) (text r) (typed r) (history_size r) (history_write r) v.
Notation Sh := (M Shell).

(** Kernel code and string code inside the prompt. *)
Definition lift {R S A} (get : R → S) (put : S → R → R) (m : M S A) : M R A := λ s,
  match m (get s) with
  | Ret a x => Ret a (put x s)
  | Panic msg x => Panic msg (put x s)
  | Crash c x => Crash c (put x s)
  | Leave d x => Leave d (put x s)
  | OutOfFuel => OutOfFuel
  end.
Definition in_kernel {A} (m : K A) : Sh A := lift kern set_kern m.
Definition in_text {A} (m : C A) : Sh A := lift text set_text m.

(** ** Console input and output *)
Definition getchar : Sh Z := λ s,
  match typed s with
  | [] => OutOfFuel
  | c :: cs => Ret c (set_typed cs s)
  end.
Definition cputchar (c : Z) : Sh unit := in_text (putch c).
Definition say (m : string) : Sh unit := in_text (putstring m).
Definition newline : Sh unit := cputchar 10.
(** The conversions the commands use: %d, %x, %08x, %c. *)
Definition say_d (n : Z) : Sh unit :=
  in_text (if n <? 0 then putch 45;; printnum NUM_FUEL (- n) 10 (-1) 32 else printnum NUM_FUEL n 10 (-1) 32).
Definition say_x (n : Z) : Sh unit := in_text (printnum NUM_FUEL (u32 n) 16 (-1) 32).
Definition say_x8 (n : Z) : Sh unit := in_text (printnum NUM_FUEL (u32 n) 16 8 48).
(** %e *)
Definition say_e (err : Z) : Sh unit :=
  let n := if err <? 0 then - err else err in
  match (if MAXERROR <? n then None else error_string n) with
  | None => say "error ";; in_text (printnum NUM_FUEL n 10 (-1) 32)
  | Some m => say m
  end.

Definition BUFLEN : Z := 1024.
Definition E_EOF : Z := -7.

(** ** lib/readline.c *)
(** One character; [i] characters are in the buffer. *)
Definition readline_body (buf i : Z) : Sh (Z + unit) :=
  c ← getchar;
  if c <? 0 then when (negb (c =? - E_EOF)) (say "read error: ";; say_e c;; newline);; mret (inr tt)
  else if (32 <=? c) && (i <? BUFLEN - 1) then
    cputchar c;; in_text (wr (buf + i) c);; mret (inl (i + 1))
  else if (c =? 8) && (0 <? i) then cputchar c;; mret (inl (i - 1))
  else if (c =? 10) || (c =? 13) then cputchar c;; in_text (wr (buf + i) 0);; mret (inr tt)
  else mret (inl i).
Definition readline (fuel : nat) (prompt : string) (buf : Z) : Sh unit :=
  say prompt;; mloop fuel (readline_body buf) 0.

(** readline on a local array of [size] bytes at [buf]: readline stores the character it takes, or the
    terminator, at index [i] without knowing [size]; a store behind the array is undefined. *)
Definition stores (c i : Z) : bool := ((32 <=? c) && (i <? BUFLEN - 1)) || (c =? 10) || (c =? 13).
Definition array_readline_body (size buf i : Z) : Sh (Z + unit) :=
  cs ← gets typed;
  match cs with
  | c :: _ => if (size <=? i) && stores c i then undefined "local array" else readline_body buf i
  | [] => readline_body buf i
  end.
Definition array_readline (fuel : nat) (size : Z) (prompt : string) (buf : Z) : Sh unit :=
  say prompt;; mloop fuel (array_readline_body size buf) 0.

(** [commands[]]: names and descriptions. *)
Definition commands : list (string * string) :=
  [("help", "Display this list of commands");
   ("kernel_info", "Display information about the kernel");
   ("wum", "writes one byte to specific location in given environment");
   ("rum", "reads one byte from specific location in given environment");
   ("wm", "writes one byte to specific location");
   ("rm", "reads one byte from specific location");
   ("rub", "reads block of bytes from specific location in given environment");
   ("kill", "kill the given environment (by its ID) from the system");
   ("rut", "");
   ("aup", "");
   ("meminfo", "");
   ("run", "runs a single user program");
   ("load", "load a single user program to mem with status = NEW");
   ("runall", "run all loaded programs");
   ("printall", "print all loaded programs");
   ("killall", "kill all environments in the system");
   ("lru", "set replacement algorithm to LRU");
   ("fifo", "set replacement algorithm to FIFO");
   ("clock", "set replacement algorithm to CLOCK");
   ("modifiedclock", "set replacement algorithm to modified CLOCK");
   ("rep?", "print current replacement algorithm");
   ("firstfit", "set heap placement strategy to FIRST FIT");
   ("bestfit", "set heap placement strategy to BEST FIT");
   ("nextfit", "set heap placement strategy to NEXT FIT");
   ("worstfit", "set heap placement strategy to WORST FIT");
   ("heap?", "print current heap placement strategy");
   ("nobuff", "");
   ("buff", "");
   ("nomodbuff", "");
   ("modbuff", "");
   ("modbufflength?", "");
   ("modbufflength", "");
   ("tstkmalloc", "Kernel Heap: test kmalloc (return address, size, mem access...etc)");
   ("tstkfree", "Kernel Heap: test kfree (freed frames, mem access...etc)");
   ("tstkphysaddr", "Kernel Heap: test kheap_phys_addr");
   ("tstkvirtaddr", "Kernel Heap: test kheap_virt_addr");
   ("tst3functions", "Env Load: test the creation of new dir, tables and pages WS")]%string.
Definition NUM_OF_COMMANDS : Z := Z.of_nat (length commands).

Section Prompt.
Context `{Extern} (fuel : nat).
(** Where the linker put the programs and symbols, the names of the commands, " \t\r\n",
    history_list and two local buffers; [nested] is execute_command as the last test calls it. *)
Context (start_of symbol : string → Z) (command_name : Z → Z) (WHITESPACE history_list : Z)
  (local_str local_command : Z) (nested : Z → Sh Z).

Definition history_max : Z := 10.
Definition history_min : Z := -1.

(** ** Arguments *)
Definition argument (arguments : list Z) (i : nat) : Sh Z :=
  match arguments !! i with Some p => mret p | None => undefined "arguments" end.
Definition number (arguments : list Z) (i : nat) (base : Z) : Sh Z :=
  p ← argument arguments i; '(v, _) ← in_text (strtol fuel p base); mret v.
(** A C string as the names of programs are passed around. *)
Fixpoint read_name (n : nat) (p : Z) : C string :=
  match n with
  | O => λ _, OutOfFuel
  | Datatypes.S n =>
      c ← rd p;
      if c =? 0 then mret EmptyString else
      rest ← read_name n (p + 1); mret (String (Ascii.ascii_of_nat (Z.to_nat c)) rest)
  end.
(** The environment named by the first argument; NULL makes every command return 0. *)
Definition argument_env (arguments : list Z) : Sh (option Z) :=
  envId ← number arguments 1 10;
  '(_, e) ← in_kernel (envid2env envId false);
  mret e.

(** [oldDir = rcr3(); lcr3(env->env_cr3); ...; lcr3(oldDir)] *)
Definition in_address_space {A} (e : Z) (m : Sh A) : Sh A :=
  oldDir ← in_kernel rcr3;
  x ← in_kernel (get_env e);
  in_kernel (lcr3 (env_cr3 x));;
  a ← m;
  in_kernel (lcr3 oldDir);;
  mret a.

(** ** Commands: the value returned; what they print goes to the output *)
Definition command_help (arguments : list Z) : Sh Z :=
  forM commands (λ c, say c.1;; say " - ";; say c.2;; newline);;
  say "-------------------";; newline;;
  forM (userPrograms start_of) (λ p,
    say "run ";; say (upi_name p);; say " - ";; say (upi_desc p);; say " [User Program]";; newline);;
  mret 0.

Definition command_kernel_info (arguments : list Z) : Sh Z :=
  let line (what : string) (x : string) :=
    say what;; say_x8 (symbol x);; say " (virt)  ";; say_x8 (symbol x - KERNEL_BASE);; say " (phys)";; newline in
  say "Special kernel symbols:";; newline;;
  line "  Start Address of the kernel 			" "start_of_kernel";;
  line "  End address of kernel code  			" "end_of_kernel_code_section";;
  line "  Start addr. of uninitialized data section 	" "start_of_uninitialized_data_section";;
  line "  End address of the kernel   			" "end_of_kernel";;
  say "Kernel executable memory footprint: ";;
  say_d (Z.quot (symbol "end_of_kernel" - symbol "start_of_kernel" + 1023) 1024);; say " KB";; newline;;
  mret 0.

Definition command_writeusermem (arguments : list Z) : Sh Z :=
  env ← argument_env arguments;
  address ← number arguments 3 16;
  match env with
  | None => mret 0
  | Some e =>
      in_address_space e (
        p ← argument arguments 2;
        c ← in_text (rd p);
        in_kernel (store8 (u32 address) c));;
      mret 0
  end.

Definition command_writemem_k (arguments : list Z) : Sh Z :=
  a ← number arguments 1 16;
  let address := u32 (a + KERNEL_BASE) in
  size ← number arguments 2 10;
  p ← argument arguments 3;
  stringLen ← in_text (strlen fuel p);
  forM (seqZ 0 size) (λ c,
    forM (seqZ 0 stringLen) (λ i,
      ch ← in_text (rd (p + i)); in_kernel (store8 (u32 (address + c * stringLen + i)) ch)));;
  mret 0.

Definition command_readusermem (arguments : list Z) : Sh Z :=
  env ← argument_env arguments;
  address ← number arguments 2 16;
  match env with
  | None => mret 0
  | Some e =>
      in_address_space e (
        c ← in_kernel (load8 (u32 address));
        say "value at address ";; say_x address;; say " = ";; cputchar c;; newline);;
      mret 0
  end.

Definition command_readmem_k (arguments : list Z) : Sh Z :=
  a ← number arguments 1 16;
  let address := u32 (a + KERNEL_BASE) in
  size ← number arguments 2 10;
  forM (seqZ 0 size) (λ i, c ← in_kernel (load8 (u32 (address + i))); cputchar c);;
  newline;;
  mret 0.

Definition command_readuserblock (arguments : list Z) : Sh Z :=
  env ← argument_env arguments;
  address ← number arguments 2 16;
  nBytes ← number arguments 3 10;
  match env with
  | None => mret 0
  | Some e =>
      in_address_space e (
        forM (seqZ 0 nBytes) (λ i,
          let ptr := u32 (address + i) in
          c ← in_kernel (load8 ptr);
          say_x8 ptr;; say " : ";; in_text (printnum NUM_FUEL c 16 2 48);; say "  ";; cputchar c;; newline));;
      mret 0
  end.

(** The page table of an address is freed, and its directory entry loses the present bit. *)
Definition remove_table (e address : Z) : K unit :=
  x ← get_env e;
  entry ← load_at (env_page_directory x) (PDX address);
  let table_pa := Z.land entry 0xFFFFF000 in
  (if negb (CHECK_IF_KERNEL_ADDRESS address)
   then table ← kheap_virtual_address table_pa; kfree table
   else f ← to_frame_info table_pa; upd_frame f (set_references 0);; free_frame f);;
  update_entry (env_page_directory x) (PDX address) (λ v, Z.land v (not32 PERM_PRESENT));;
  tlbflush.
Definition command_remove_table (arguments : list Z) : Sh Z :=
  env ← argument_env arguments;
  match env with
  | None => mret 0
  | Some e => address ← number arguments 2 16; in_kernel (remove_table e (u32 address));; mret 0
  end.

Definition command_allocuserpage (arguments : list Z) : Sh Z :=
  env ← argument_env arguments;
  match env with
  | None => mret 0
  | Some e =>
      address ← number arguments 2 16;
      in_kernel (f ← allocate_frame;
                 x ← get_env e;
                 map_frame (env_page_directory x) f (u32 address) (Z.lor PERM_WRITEABLE PERM_USER));;
      mret 0
  end.

Definition command_meminfo (arguments : list Z) : Sh Z :=
  n ← in_kernel calculate_available_frames;
  say "Total available frames = ";; say_d (freeBuffered n + freeNotBuffered n + modified n);;
  say "
Free Buffered = ";; say_d (freeBuffered n);;
  say "
Free Not Buffered = ";; say_d (freeNotBuffered n);;
  say "
Modified = ";; say_d (modified n);; newline;;
  mret 0.

(** [env_create(arguments[1], strtol(arguments[2], NULL, 10))], after the check of their number. *)
Definition create_from (arguments : list Z) : Sh (option Z) :=
  if (Z.of_nat (length arguments) <? 3) then
    say "Error: Please specify a working set size in the third argument, aborting.";; newline;; mret None
  else
    size ← number arguments 2 10;
    p ← argument arguments 1;
    name ← in_text (read_name fuel p);
    in_kernel (env_create start_of name size).
Definition say_id (e : Z) : Sh unit :=
  x ← in_kernel (get_env e); newline;; say "Environment Id= ";; say_d (env_id x);; newline.
Definition command_run_program (arguments : list Z) : Sh Z :=
  env ← create_from arguments;
  match env with
  | None => mret 0
  | Some e =>
      say_id e;;
      in_kernel (sched_new_env (Some e);; x ← get_env e; sched_run_env (env_id x));;
      mret 0
  end.
Definition commnad_load_env (arguments : list Z) : Sh Z :=
  env ← create_from arguments;
  match env with
  | None => mret 0
  | Some e => in_kernel (sched_new_env (Some e));; say_id e;; mret 0
  end.

Definition command_kill_program (arguments : list Z) : Sh Z :=
  envId ← number arguments 1 10; in_kernel (sched_kill_env envId);; mret 0.
Definition command_run_all (arguments : list Z) : Sh Z := in_kernel sched_run_all;; mret 0.
Definition command_kill_all (arguments : list Z) : Sh Z := in_kernel sched_kill_all.

(** sched_print_all (kern/sched.c) *)
Definition print_queue (q : queue_name) (title none : string) : Sh unit :=
  first ← in_kernel (gets (λ s, lh_first (queue_of q (sched s))));
  match first with
  | None => say none;; newline
  | Some _ =>
      say title;; newline;;
      mloop queue_fuel (λ e,
        match e with
        | None => mret (inr tt)
        | Some e =>
            x ← in_kernel (get_env e);
            say "	[";; say_d (env_id x);; say "] ";; say (prog_name x);; newline;;
            next ← in_kernel (gets (λ s, LIST_NEXT (envs (environments s)) e));
            mret (inl next)
        end) first
  end.
Definition sched_print_all : Sh unit :=
  newline;; print_queue NewQueue "The processes in NEW queue are:" "No processes in NEW queue";;
  say "================================================";; newline;;
  print_queue ReadyQueue "The processes in READY queue are:" "No processes in READY queue";;
  say "================================================";; newline;;
  print_queue ExitQueue "The processes in EXIT queue are:" "No processes in EXIT queue".
Definition command_print_all (arguments : list Z) : Sh Z := sched_print_all;; mret 0.

(** Switches. *)
Definition command_set_page_rep_LRU (arguments : list Z) : Sh Z :=
  in_kernel setPageReplacmentAlgorithmLRU;; say "Page replacement algorithm is now LRU";; newline;; mret 0.
Definition command_set_page_rep_CLOCK (arguments : list Z) : Sh Z :=
  in_kernel setPageReplacmentAlgorithmCLOCK;; say "Page replacement algorithm is now CLOCK";; newline;; mret 0.
Definition command_set_page_rep_FIFO (arguments : list Z) : Sh Z :=
  in_kernel setPageReplacmentAlgorithmFIFO;; say "Page replacement algorithm is now FIFO";; newline;; mret 0.
Definition command_set_page_rep_ModifiedCLOCK (arguments : list Z) : Sh Z :=
  in_kernel setPageReplacmentAlgorithmModifiedCLOCK;;
  say "Page replacement algorithm is now Modified CLOCK";; newline;; mret 0.
Definition command_print_page_rep (arguments : list Z) : Sh Z :=
  clock ← in_kernel isPageReplacmentAlgorithmCLOCK;
  lru ← in_kernel isPageReplacmentAlgorithmLRU;
  fifo ← in_kernel isPageReplacmentAlgorithmFIFO;
  modified ← in_kernel isPageReplacmentAlgorithmModifiedCLOCK;
  say (if clock : bool then "Page replacement algorithm is CLOCK"
       else if lru : bool then "Page replacement algorithm is LRU"
       else if fifo : bool then "Page replacement algorithm is FIFO"
       else if modified : bool then "Page replacement algorithm is Modified CLOCK"
       else "Page replacement algorithm is UNDEFINED");; newline;;
  mret 0.

Definition command_set_heap_plac_FIRSTFIT (arguments : list Z) : Sh Z :=
  in_kernel setUHeapPlacementStrategyFIRSTFIT;; say "User Heap placement strategy is now FIRST FIT";; newline;; mret 0.
Definition command_set_heap_plac_BESTFIT (arguments : list Z) : Sh Z :=
  in_kernel setUHeapPlacementStrategyBESTFIT;; say "User Heap placement strategy is now BEST FIT";; newline;; mret 0.
Definition command_set_heap_plac_NEXTFIT (arguments : list Z) : Sh Z :=
  in_kernel setUHeapPlacementStrategyNEXTFIT;; say "User Heap placement strategy is now NEXT FIT";; newline;; mret 0.
Definition command_set_heap_plac_WORSTFIT (arguments : list Z) : Sh Z :=
  in_kernel setUHeapPlacementStrategyWORSTFIT;; say "User Heap placement strategy is now WORST FIT";; newline;; mret 0.
Definition command_print_heap_plac (arguments : list Z) : Sh Z :=
  first ← in_kernel isUHeapPlacementStrategyFIRSTFIT;
  best ← in_kernel isUHeapPlacementStrategyBESTFIT;
  next ← in_kernel isUHeapPlacementStrategyNEXTFIT;
  worst ← in_kernel isUHeapPlacementStrategyWORSTFIT;
  say (if negb (first =? 0) then "User Heap placement strategy is FIRST FIT"
       else if negb (best =? 0) then "User Heap placement strategy is BEST FIT"
       else if negb (next =? 0) then "User Heap placement strategy is NEXT FIT"
       else if negb (worst =? 0) then "User Heap placement strategy is WORST FIT"
       else "User Heap placement strategy is UNDEFINED");; newline;;
  mret 0.

(** Buffering. *)
Definition command_modified_buffer (v : Z) (what : string) (arguments : list Z) : Sh Z :=
  buffering ← in_kernel isBufferingEnabled;
  (if (buffering : bool) then in_kernel (enableModifiedBuffer v);; say what
   else say "Buffering is not enabled. Please enable buffering first.");;
  newline;; mret 0.
Definition command_disable_modified_buffer : list Z → Sh Z := command_modified_buffer 0 "Modified Buffer is now DISABLED".
Definition command_enable_modified_buffer : list Z → Sh Z := command_modified_buffer 1 "Modified Buffer is now ENABLED".
Definition command_disable_buffering (arguments : list Z) : Sh Z :=
  in_kernel (enableBuffering 0;; enableModifiedBuffer 0);; say "Buffering is now DISABLED";; newline;; mret 0.
(** [str] is the address of the local [char str[100]]. *)
Definition SIZEOF_str : Z := 100.
Definition command_enable_buffering (str : Z) (arguments : list Z) : Sh Z :=
  in_kernel (enableBuffering 1;; enableModifiedBuffer 1);;
  len ← in_kernel getModifiedBufferLength;
  when (len =? 0)
    (say "Modified buffer enabled but with length = 0";; newline;;
     array_readline fuel SIZEOF_str "Please enter the modified buff length = " str;;
     '(v, _) ← in_text (strtol fuel str 10);
     in_kernel (setModifiedBufferLength (u32 v));;
     len ← in_kernel getModifiedBufferLength;
     say "Modified buffer length updated = ";; say_d (s32 len);; newline);;
  say "Buffering is now ENABLED";; newline;; mret 0.
Definition warn_buffering : Sh unit :=
  buffering ← in_kernel isBufferingEnabled;
  modified ← in_kernel isModifiedBufferEnabled;
  if negb buffering then say "Buffering is not enabled. Please enable buffering to use the modified buffer.";; newline
  else if modified =? 0 then say "Modified Buffering is not enabled. Please enable modified buffering.";; newline
  else mret tt.
Definition command_set_modified_buffer_length (arguments : list Z) : Sh Z :=
  warn_buffering;;
  v ← number arguments 1 10;
  in_kernel (setModifiedBufferLength (u32 v));;
  len ← in_kernel getModifiedBufferLength;
  say "Modified buffer length updated = ";; say_d (s32 len);; newline;; mret 0.
Definition command_get_modified_buffer_length (arguments : list Z) : Sh Z :=
  warn_buffering;;
  len ← in_kernel getModifiedBufferLength;
  say "Modified buffer length = ";; say_d (s32 len);; newline;; mret 0.
(** ** test_three_creation_functions (kern/test_kheap.c) *)
(** [char command[100] = "run fos_add 4096"] *)
Definition RUN_FOS_ADD : list Z := [114; 117; 110; 32; 102; 111; 115; 95; 97; 100; 100; 32; 52; 48; 57; 54].
Definition write_command : C unit :=
  forM (seqZ 0 100) (λ i, wr (local_command + i) (RUN_FOS_ADD !!! Z.to_nat i)).
Definition first_call : Sh unit :=
  t ← gets three;
  modify (set_three (MkThreeTest false (initFreeFrames t) (initFreeDiskFrames t)));;
  freeFrames ← in_kernel sys_calculate_free_frames;
  modify (set_three (MkThreeTest false (s32 freeFrames) (initFreeDiskFrames t)));;
  freeDiskFrames ← in_kernel pf_calculate_free_frames;
  modify (set_three (MkThreeTest false (s32 freeFrames) (s32 freeDiskFrames)));;
  in_text write_command;;
  nested local_command;;
  mret tt.
(** The first environment of the exit queue that ran fos_add. *)
Definition find_fos_add : K (option Z) :=
  first ← gets (λ s, lh_first (queue_of ExitQueue (sched s)));
  mloop queue_fuel (λ ptr_env,
    match ptr_env with
    | None => mret (inr None)
    | Some e =>
        x ← get_env e;
        if bool_decide (prog_name x = "fos_add"%string) then mret (inr (Some e)) else
        next ← gets (λ s, LIST_NEXT (envs (environments s)) e);
        mret (inl next)
    end) first.
Definition creation_checked (initFreeFrames initFreeDiskFrames : Z) : K Z :=
  e ← find_fos_add;
  e ← (match e with Some e => mret e | None => undefined "e" end);
  x ← get_env e;
  assert_ (pageFaultsCounter x =? 0) "Page fault is occur while not expected to. Review the three creation fuctions";;
  pagesInWS ← env_page_ws_get_size e;
  curFreeFrames ← sys_calculate_free_frames;
  curFreeDiskFrames ← pf_calculate_free_frames;
  assert_ (s32 (initFreeDiskFrames - curFreeDiskFrames) =? pagesInWS) "Page file is changed while it's not expected to. (pages are wrongly allocated/de-allocated in PageFile)";;
  assert_ (s32 (initFreeFrames - curFreeFrames) =? 12 + 2 * 1 + 2 * 3 + 1 + pagesInWS) "Wrong allocation: pages are not loaded successfully into memory";;
  ptr ← kmalloc (4 * kilo);
  assert_ (ptr =? KERNEL_HEAP_START + (12 + 2 * 1 + 2 * 3 + 1) * PAGE_SIZE) "Wrong start address for the allocated space... make sure you create the dir, table and page WS in KERNEL HEAP";;
  mret 1.
Definition test_three_creation_functions : Sh Z :=
  t ← gets three;
  when (firstCall t) first_call;;
  t ← gets three;
  in_kernel (creation_checked (initFreeFrames t) (initFreeDiskFrames t)).

Definition command_test_kmalloc (arguments : list Z) : Sh Z := in_kernel test_kmalloc;; mret 0.
Definition command_test_kfree (arguments : list Z) : Sh Z := in_kernel test_kfree;; mret 0.
Definition command_test_kheap_phys_addr (arguments : list Z) : Sh Z := in_kernel test_kheap_phys_addr;; mret 0.
Definition command_test_kheap_virt_addr (arguments : list Z) : Sh Z := in_kernel test_kheap_virt_addr;; mret 0.
Definition command_test_three_creation_functions (arguments : list Z) : Sh Z := test_three_creation_functions;; mret 0.

Definition functions_to_execute : list (list Z → Sh Z) :=
  [command_help;
   command_kernel_info;
   command_writeusermem;
   command_readusermem;
   command_writemem_k;
   command_readmem_k;
   command_readuserblock;
   command_kill_program;
   command_remove_table;
   command_allocuserpage;
   command_meminfo;
   command_run_program;
   commnad_load_env;
   command_run_all;
   command_print_all;
   command_kill_all;
   command_set_page_rep_LRU;
   command_set_page_rep_FIFO;
   command_set_page_rep_CLOCK;
   command_set_page_rep_ModifiedCLOCK;
   command_print_page_rep;
   command_set_heap_plac_FIRSTFIT;
   command_set_heap_plac_BESTFIT;
   command_set_heap_plac_NEXTFIT;
   command_set_heap_plac_WORSTFIT;
   command_print_heap_plac;
   command_disable_buffering;
   command_enable_buffering local_str;
   command_disable_modified_buffer;
   command_enable_modified_buffer;
   command_get_modified_buffer_length;
   command_set_modified_buffer_length;
   command_test_kmalloc;
   command_test_kfree;
   command_test_kheap_phys_addr;
   command_test_kheap_virt_addr;
   command_test_three_creation_functions].

(** ** The interpreter *)
Definition lookup_command (p : Z) : C (option nat) :=
  mloop (length commands + 1) (λ i,
    if negb (i <? NUM_OF_COMMANDS) then mret (inr None) else
    d ← strcmp fuel p (command_name i);
    if d =? 0 then mret (inr (Some (Z.to_nat i))) else mret (inl (i + 1))) 0.
Definition execute_command (command_string : Z) : Sh Z :=
  '(_, arguments) ← in_text (strsplit fuel command_string WHITESPACE);
  match arguments with
  | [] => mret 0
  | p :: _ =>
      found ← in_text (lookup_command p);
      match found ≫= (λ i, functions_to_execute !! i) with
      | Some function_to_execute => function_to_execute arguments
      | None => say "Unknown command '";; in_text (print_string fuel spec0 p);; say "'";; newline;; mret 0
      end
  end.

(** ** The prompt's line editor: history on the up and down keys, completion on tab *)
Record Editor := MkEditor {
  ed_i : Z;                (** characters in the buffer *)
  found_matches : bool;
  matches : list Z;        (** the first [current_match] elements *)
  used_match : Z;
  history_index : Z;
  history_used : bool;
}.
Definition erase (i : Z) : Sh unit := forM (seqZ 0 i) (λ _, cputchar 8).
(** The line becomes the string at [src]: its length. *)
Definition replace_line (buf src i : Z) : Sh Z :=
  in_text (strcpy fuel buf src);;
  erase i;;
  n ← in_text (strlen fuel src);
  in_text (print_string fuel spec0 buf);;
  mret n.
Definition history_entry (index : Z) : Z := history_list + 1024 * index.
Definition history_key (buf c : Z) (e : Editor) : Sh Editor :=
  size ← gets history_size;
  if size =? 0 then mret (MkEditor (ed_i e) false (matches e) (used_match e) (history_index e) (history_used e)) else
  w ← gets history_write;
  let index := if history_used e then history_index e else w in
  let index := if c =? 226 then if index - 1 =? history_min then size - 1 else index - 1
               else if size <=? index + 1 then 0 else index + 1 in
  n ← replace_line buf (history_entry index) (ed_i e);
  mret (MkEditor n false (matches e) (used_match e) index true).
Definition find_matches (buf i : Z) : C (list Z) :=
  mloop (length commands + 1) (λ '(current_command, found),
    if negb (current_command <? NUM_OF_COMMANDS) then mret (inr found) else
    d ← strncmp fuel buf (command_name current_command) i;
    mret (inl (current_command + 1, if d =? 0 then found ++ [current_command] else found))) (0, []).
Definition tab_key (buf : Z) (e : Editor) : Sh Editor :=
  '(found, ms, used) ←
    (if found_matches e then mret (true, matches e, used_match e) else
     ms ← in_text (find_matches buf (ed_i e));
     mret (negb (bool_decide (ms = [])), ms, 0));
  if found : bool then
    m ← (match ms !! Z.to_nat used with Some m => mret m | None => undefined "matches" end);
    n ← replace_line buf (command_name m) (ed_i e);
    mret (MkEditor n found ms (if used + 1 =? Z.of_nat (length ms) then 0 else used + 1) (history_index e) false)
  else mret (MkEditor (ed_i e) found ms used (history_index e) false).
Definition edited (i : Z) (e : Editor) : Editor :=
  MkEditor i false (matches e) (used_match e) (history_index e) false.
Definition command_prompt_readline_body (buf : Z) (e : Editor) : Sh (Editor + unit) :=
  c ← getchar;
  if c <? 0 then when (negb (c =? - E_EOF)) (say "read error: ";; say_e c;; newline);; mret (inr tt)
  else if (c =? 226) || (c =? 227) then e ← history_key buf c e; mret (inl e)
  else if (32 <=? c) && (ed_i e <? BUFLEN - 1) then
    cputchar c;; in_text (wr (buf + ed_i e) c);; mret (inl (edited (ed_i e + 1) e))
  else if (c =? 8) && (0 <? ed_i e) then cputchar c;; mret (inl (edited (ed_i e - 1) e))
  else if (c =? 10) || (c =? 13) then cputchar c;; in_text (wr (buf + ed_i e) 0);; mret (inr tt)
  else if c =? 9 then e ← tab_key buf e; mret (inl e)
  else mret (inl e).
Definition command_prompt_readline (prompt : string) (buf : Z) : Sh unit :=
  say prompt;;
  mloop fuel (command_prompt_readline_body buf) (MkEditor 0 false [] 0 0 false).

(** The loop of the prompt; [lines] bounds the commands given. *)
Definition save_history (command_line : Z) : Sh unit :=
  w ← gets history_write;
  in_text (strcpy fuel (history_entry w) command_line);;
  modify (set_history_write (if w + 1 =? history_max then 0 else w + 1));;
  size ← gets history_size;
  when (negb (size =? 10)) (modify (set_history_size (size + 1))).
Definition run_command_prompt (lines : nat) (command_line : Z) : Sh unit :=
  mloop lines (λ _ : unit,
    command_prompt_readline "FOS> " command_line;;
    save_history command_line;;
    r ← execute_command command_line;
    mret (if r <? 0 then inr tt else inl tt)) tt.
End Prompt.

(** execute_command with its own call from the last test.  The line given there does not name that
    test, so one level is enough. *)
Definition execute `{Extern} fuel start_of symbol command_name WHITESPACE local_str local_command : Z → Sh Z :=
  let at_level := execute_command fuel start_of symbol command_name WHITESPACE local_str local_command in
  at_level (at_level (λ _ _, OutOfFuel)).
