(* ===== verification/PromptSpec.v ===== *)
(** * What the command prompt promises

    readline edits a line as the keys say and stays inside a buffer of 1024 bytes;
    execute_command runs the function of the command its first word names. *)
From S2P Require Import Prelude Machine State PageFlags PageFile Syscall Link Strings StringsSpec SplitSpec Printf UserEnv Prompt.

(** ** Reading a line *)

(** The line being edited, and what is typed next: the line at the first new line. *)
Fixpoint edit (line cs : list Z) : option (list Z * list Z) :=
  match cs with
  | [] => None
  | c :: cs =>
      if (32 <=? c) && (Z.of_nat (length line) <? BUFLEN - 1) then edit (line ++ [c]) cs
      else if (c =? 8) && negb (bool_decide (line = [])) then edit (removelast line) cs
      else if (c =? 10) || (c =? 13) then Some (line, cs)
      else edit line cs
  end.

(** The bytes of the line are in the buffer, and nothing else has changed. *)
Definition in_buffer (s s' : Shell) (buf : Z) (line : list Z) : Prop :=
  kern s' = kern s ∧ history_size s' = history_size s ∧ history_write s' = history_write s ∧
  (length line < 1024)%nat ∧ Forall (λ c, 32 ≤ c < 256) line ∧
  (∀ i c, line !! i = Some c → byte_at (text s') (buf + Z.of_nat i) = c) ∧
  (∀ a, ¬ (buf ≤ a < buf + BUFLEN) → byte_at (text s') a = byte_at (text s) a).

Lemma in_text_write (s : Shell) p v : in_text (wr p v) s = Ret tt (set_text (put_byte p v (text s)) s).
Proof. done. Qed.
Lemma in_text_putch (s : Shell) c : in_text (putch c) s = Ret tt (set_text (set_output (output (text s) ++ [c]) (text s)) s).
Proof. done. Qed.

Lemma in_buffer_echo s s1 buf line c :
  in_buffer s s1 buf line → in_buffer s (set_text (set_output (output (text s1) ++ [c]) (text s1)) s1) buf line.
Proof. done. Qed.
Lemma in_buffer_typed s s1 buf line cs : in_buffer s s1 buf line → in_buffer s (set_typed cs s1) buf line.
Proof. done. Qed.
Lemma in_buffer_app s s1 buf line c :
  in_buffer s s1 buf line → 32 ≤ c < 256 → (length line < 1023)%nat →
  in_buffer s (set_text (put_byte (buf + Z.of_nat (length line)) c (text s1)) s1) buf (line ++ [c]).
Proof.
  intros (Hk & Hh1 & Hh2 & _ & Hc & Hb & Hr) Hc' Hl. split_and!; try done.
  - rewrite length_app. cbn. lia.
  - apply Forall_app. split; [done|by constructor].
  - intros i d Hi. cbn [text set_text]. apply lookup_app_Some in Hi as [Hi|[Hge Hi]].
    + pose proof (lookup_lt_Some _ _ _ Hi). rewrite byte_put_ne by lia. by apply Hb.
    + apply list_lookup_singleton_Some in Hi as [Hz <-]. replace i with (length line) by lia.
      rewrite byte_put_eq. by apply u8_small; lia.
  - intros a Ha. cbn [text set_text]. unfold BUFLEN in *. rewrite byte_put_ne by lia. by apply Hr.
Qed.
Lemma in_buffer_removelast s s1 buf line : in_buffer s s1 buf line → in_buffer s s1 buf (removelast line).
Proof.
  intros (Hk & Hh1 & Hh2 & Hl & Hc & Hb & Hr).
  assert (∃ tl, line = removelast line ++ tl) as [tl He].
  { destruct (decide (line = [])) as [->|Hne]; [by exists []|]. exists [List.last line 0].
    by apply app_removelast_last. }
  split_and!; try done.
  - rewrite He, length_app in Hl. lia.
  - rewrite He in Hc. by apply Forall_app in Hc as [? _].
  - intros i c Hi. apply Hb. rewrite He. by apply lookup_app_l_Some.
Qed.

Lemma length_removelast {A} (l : list A) : length (removelast l) = (length l - 1)%nat.
Proof.
  induction l as [|x l IH]; [done|]. destruct l as [|y l]; [done|].
  change (removelast (x :: y :: l)) with (x :: removelast (y :: l)). cbn [length] in *. lia.
Qed.

Lemma readline_loop buf s : ∀ cs line s1 fuel line' rest,
  typed s1 = cs → Forall (λ c, 0 < c < 256) cs → in_buffer s s1 buf line →
  edit line cs = Some (line', rest) → (length cs ≤ fuel)%nat →
  ∃ s', mloop fuel (readline_body buf) (Z.of_nat (length line)) s1 = Ret tt s' ∧ typed s' = rest ∧
    in_buffer s s' buf line' ∧ byte_at (text s') (buf + Z.of_nat (length line')) = 0.
Proof.
  induction cs as [|c cs IH]; intros line s1 [|fuel] line' rest Ht Hcs Hb He Hf; cbn [length] in Hf; try (done || lia).
  inversion Hcs as [|? ? Hc Hcs']; subst. cbn [edit] in He.
  assert (getchar s1 = Ret c (set_typed cs s1)) as Hg by (unfold getchar; by rewrite Ht).
  assert (∀ a s2, readline_body buf (Z.of_nat (length line)) s1 = Ret (inl a) s2 →
            mloop (Datatypes.S fuel) (readline_body buf) (Z.of_nat (length line)) s1 = mloop fuel (readline_body buf) a s2)
    as Hnext by (intros; by apply mloop_next).
  apply (in_buffer_typed _ _ _ _ cs) in Hb. pose proof (in_buffer_echo _ _ _ _ c Hb) as Hbe.
  assert (readline_body buf (Z.of_nat (length line)) s1 =
    (if (32 <=? c) && (Z.of_nat (length line) <? BUFLEN - 1) then
       cputchar c;; in_text (wr (buf + Z.of_nat (length line)) c);; mret (inl (Z.of_nat (length line) + 1))
     else if (c =? 8) && (0 <? Z.of_nat (length line)) then cputchar c;; mret (inl (Z.of_nat (length line) - 1))
     else if (c =? 10) || (c =? 13) then
       cputchar c;; in_text (wr (buf + Z.of_nat (length line)) 0);; mret (inr tt)
     else mret (inl (Z.of_nat (length line)))) (set_typed cs s1)) as Hbody.
  { unfold readline_body. mstep Hg. by rewrite (proj2 (Z.ltb_ge c 0)) by lia. }
  clear Hg. destruct ((32 <=? c) && (Z.of_nat (length line) <? BUFLEN - 1)) eqn:H1.
  - apply andb_true_iff in H1 as [H1%Z.leb_le H2%Z.ltb_lt]. unfold BUFLEN in H2.
    pose proof (in_buffer_app _ _ _ _ c Hbe ltac:(lia) ltac:(lia)) as Hb2.
    rewrite (Hnext _ _ Hbody). replace (Z.of_nat (length line) + 1) with (Z.of_nat (length (line ++ [c])))
      by (rewrite length_app; cbn; lia).
    apply IH; [done|done|exact Hb2|done|lia].
  - destruct ((c =? 8) && negb (bool_decide (line = []))) eqn:H2.
    + apply andb_true_iff in H2 as [H8 Hne%negb_true_iff%bool_decide_eq_false].
      rewrite H8 in Hbody. cbn [andb] in Hbody.
      assert (0 < length line)%nat as Hl by (destruct line; [done|cbn; lia]).
      rewrite (proj2 (Z.ltb_lt _ _)) in Hbody by lia.
      rewrite (Hnext _ _ Hbody). replace (Z.of_nat (length line) - 1) with (Z.of_nat (length (removelast line)))
        by (rewrite length_removelast; lia).
      apply IH; [done|done|by apply in_buffer_removelast|done|lia].
    + assert ((c =? 8) && (0 <? Z.of_nat (length line)) = false) as H2'.
      { destruct (c =? 8); cbn [andb] in *; [|done]. apply negb_false_iff, bool_decide_eq_true in H2. by subst. }
      rewrite H2' in Hbody. destruct ((c =? 10) || (c =? 13)).
      * injection He as <- <-. eexists. split; [apply mloop_break; exact Hbody|]. split; [done|].
        pose proof Hbe as (? & ? & ? & Hl & Hall & Hbb & Hr). split; [split_and!; try done|apply byte_put_eq].
        -- intros i d Hi. pose proof (lookup_lt_Some _ _ _ Hi). cbn [text set_text].
           etrans; [by apply byte_put_ne; lia|by apply Hbb].
        -- intros a Ha. cbn [text set_text]. unfold BUFLEN in *. etrans; [by apply byte_put_ne; lia|by apply Hr].
      * rewrite (Hnext _ _ Hbody). apply IH; [done|done|exact Hb|done|lia].
Qed.

Lemma putstring_spec m (t : CState) : ∃ o, putstring m t = Ret tt (set_output o t).
Proof.
  unfold putstring. generalize (String.list_ascii_of_string m) as l. intros l. revert t.
  induction l as [|c l IH]; intros t; [exists (output t); by destruct t|].
  destruct (IH (set_output (output t ++ [Z.of_nat (Ascii.nat_of_ascii c)]) t)) as [o Ho]. exists o. cbn [forM].
  by rewrite (bind_Ret _ _ _ tt (set_output (output t ++ [Z.of_nat (Ascii.nat_of_ascii c)]) t)).
Qed.
Lemma say_spec m (s : Shell) : ∃ o, say m s = Ret tt (set_text (set_output o (text s)) s).
Proof. destruct (putstring_spec m (text s)) as [o Ho]. exists o. unfold say, in_text, lift. by rewrite Ho. Qed.

(** print_string of a C string, without width or precision. *)
Lemma print_string_loop p w : ∀ n i wd t,
  p ≠ 0 → Forall (λ c, 0 < c < 256) w → cstring t (p + i) w → (length w < n)%nat →
  ∃ o, mloop n (λ '(i, precision, width),
    ch ← char_of p i;
    if negb (ch =? 0) && ((precision <? 0) || (0 <=? precision - 1)) then
      putch (if altflag spec0 && ((ch <? 32) || (126 <? ch)) then 63 else ch);;
      mret (inl (i + 1, (if precision <? 0 then precision else precision - 1), width - 1))
    else mret (inr width)) (i, -1, wd) t = Ret (wd - Z.of_nat (length w)) (set_output o t).
Proof.
  induction w as [|c w IH]; intros [|n] i wd t Hp Hr Hw Hn; cbn [length] in *; try lia.
  - apply cstring_nil in Hw. exists (output t). rewrite Z.sub_0_r. apply mloop_break.
    unfold char_of. rewrite (proj2 (Z.eqb_neq _ _) Hp). unfold rd. rewrite bind_assoc, bind_gets.
    fold (byte_at t (p + i)). rewrite Hw. cbn. by destruct t.
  - apply cstring_cons in Hw as (Hc & Hnz & Hw). replace (p + i + 1) with (p + (i + 1)) in Hw by lia.
    inversion Hr as [|? ? Hcr Hr']; subst c.
    destruct (IH n (i + 1) (wd - 1) (set_output (output t ++ [s8 (byte_at t (p + i))]) t) Hp Hr' Hw ltac:(lia)) as [o Ho]. exists o.
    replace (wd - Z.of_nat (Datatypes.S (length w))) with (wd - 1 - Z.of_nat (length w)) by lia.
    etrans; [|exact Ho]. apply mloop_next. unfold char_of. rewrite (proj2 (Z.eqb_neq _ _) Hp). unfold rd. rewrite bind_assoc, bind_gets.
    fold (byte_at t (p + i)). rewrite bind_mret. by rewrite (proj2 (Z.eqb_neq (s8 _) 0)) by (unfold s8; zdiv).
Qed.
Lemma print_string_spec fuel p w t :
  p ≠ 0 → Forall (λ c, 0 < c < 256) w → cstring t p w → (length w < fuel)%nat → ∃ o, print_string fuel spec0 p t = Ret tt (set_output o t).
Proof.
  intros Hp Hr Hw Hf. unfold print_string. change ((0 <? width spec0) && negb (padc spec0 =? 45)) with false.
  cbn iota. rewrite bind_mret.
  rewrite <-(Z.add_0_r p) in Hw.
  destruct (print_string_loop p w fuel 0 (width spec0) t Hp Hr Hw Hf) as [o Ho]. exists o. mstep Ho.
  rewrite seqZ_nil; [done|]. cbn. lia.
Qed.
(** ** Finding a command *)
Definition codes (m : string) : list Z := (λ c, Z.of_nat (Ascii.nat_of_ascii c)) <$> String.list_ascii_of_string m.
(** The first command with that name. *)
Definition command_of (w : list Z) : option nat := fst <$> list_find (λ c, codes c.1 = w) commands.

Section Execute.
Context `{Extern} (fuel : nat) (start_of symbol : string → Z) (command_name : Z → Z) (WHITESPACE history_list : Z)
  (local_str local_command : Z) (nested : Z → Sh Z).
Notation functions := (functions_to_execute fuel start_of symbol local_str local_command nested).
Notation execute := (execute_command fuel start_of symbol command_name WHITESPACE local_str local_command nested).

(** The names are where the compiler put them. *)
Definition names_in (t : CState) : Prop :=
  ∀ k c, commands !! k = Some c → cstring t (command_name (Z.of_nat k)) (codes c.1).

Lemma names_pos k c : commands !! k = Some c → Forall (λ c, 0 < c) (codes c.1).
Proof.
  intros Hk%list_elem_of_lookup_2. revert c Hk. apply Forall_forall.
  apply (bool_decide_unpack _). vm_compute. exact I.
Qed.
Lemma lookup_from t p w suf : ∀ pre,
  names_in t → Forall (λ c, 0 < c) w → cstring t p w → (length w < fuel)%nat → commands = pre ++ suf →
  mloop (length suf + 1) (λ i,
    if negb (i <? NUM_OF_COMMANDS) then mret (inr None) else
    d ← strcmp fuel p (command_name i);
    if d =? 0 then mret (inr (Some (Z.to_nat i))) else mret (inl (i + 1))) (Z.of_nat (length pre)) t
  = Ret ((λ x, (length pre + x.1)%nat) <$> list_find (λ c, codes c.1 = w) suf) t.
Proof.
  induction suf as [|c suf IH]; intros pre Hn Hok Hw Hf Hc.
  - apply mloop_break. unfold NUM_OF_COMMANDS. rewrite Hc, app_nil_r, (proj2 (Z.ltb_ge _ _)) by lia. done.
  - assert (commands !! length pre = Some c) as Hk by (by rewrite Hc, list_lookup_middle).
    pose proof (strcmp_spec fuel t p _ w _ Hw (Hn _ _ Hk) Hf) as Hs.
    assert (Z.of_nat (length pre) <? NUM_OF_COMMANDS = true) as Hlt.
    { apply Z.ltb_lt. unfold NUM_OF_COMMANDS. apply lookup_lt_Some in Hk. lia. }
    pose proof (compare_strings_eq w (codes c.1) Hok (names_pos _ _ Hk)) as Heq.
    cbn [list_find]. destruct (decide (codes c.1 = w)) as [Hd|Hd].
    + apply mloop_break. rewrite Hlt. cbn [negb]. mstep Hs. rewrite (proj2 (Z.eqb_eq _ _)) by (by apply Heq).
      cbn. by rewrite Nat2Z.id, Nat.add_0_r.
    + cbn [length Nat.add]. rewrite (mloop_next _ _ _ _ (Z.of_nat (length pre) + 1) t).
      * replace (Z.of_nat (length pre) + 1) with (Z.of_nat (length (pre ++ [c]))) by (rewrite length_app; cbn; lia).
        rewrite IH by (try done; by rewrite <-app_assoc). f_equal.
        destruct (list_find (λ c0, codes c0.1 = w) suf) as [[k x]|]; cbn; [|done]. f_equal. rewrite length_app. cbn. lia.
      * rewrite Hlt. cbn [negb]. mstep Hs. rewrite (proj2 (Z.eqb_neq _ _)); [done|]. intros H0%Heq. congruence.
Qed.
Lemma lookup_command_spec t p w :
  names_in t → Forall (λ c, 0 < c) w → cstring t p w → (length w < fuel)%nat →
  lookup_command fuel command_name p t = Ret (command_of w) t.
Proof.
  intros Hn Hok Hw Hf. pose proof (lookup_from t p w commands [] Hn Hok Hw Hf eq_refl) as E.
  unfold lookup_command. etrans; [exact E|]. done.
Qed.

End Execute.

Definition separators : list Z := [9; 13; 10; 32].
Lemma execute_command_spec `{Extern} fuel start_of symbol command_name WHITESPACE local_str local_command nested s p line :
  0 < p → cstring (text s) p line → Forall (λ c, 0 < c < 256) line → cstring (text s) WHITESPACE separators →
  (WHITESPACE + 4 < p ∨ p + Z.of_nat (length line) ≤ WHITESPACE) →
  names_in command_name (text s) →
  (∀ k c, commands !! k = Some c → let a := command_name (Z.of_nat k) in
     a + Z.of_nat (length (codes c.1)) < p ∨ p + Z.of_nat (length line) ≤ a) →
  (length line < fuel)%nat → (4 < fuel)%nat →
  let ws := words (λ c, bool_decide (c ∈ separators)) p line in
  let execute := execute_command fuel start_of symbol command_name WHITESPACE local_str local_command nested in
  ∃ t, (∀ a w, (a, w) ∈ take 15 ws → cstring t a w) ∧
    match ws with
    | [] => execute p s = Ret 0 (set_text t s)
    | (a, w) :: _ =>
        match command_of w ≫= λ k, (functions_to_execute fuel start_of symbol local_str local_command nested !! k : option (list Z → Sh Z)) with
        | Some function_to_execute => execute p s = function_to_execute (take 15 ws.*1) (set_text t s)
        | None => ∃ o, execute p s = Ret 0 (set_text (set_output o t) s)
        end
    end.
Proof.
  intros Hp Hl Hpos Hsep Hap Hn Hna Hf Hf4 ws execute.
  destruct (strsplit_spec fuel (text s) p WHITESPACE line separators Hl Hsep Hap Hf Hf4)
    as (t & E & Hw & Hcat & _ & Hr). fold ws in E, Hw, Hcat.
  assert (in_text (strsplit fuel p WHITESPACE) s =
    Ret (if decide (length ws ≤ 15)%nat then 1 else 0, take 15 ws.*1) (set_text t s)) as E1
    by (unfold in_text, lift; by rewrite E).
  exists t. split; [done|]. unfold execute, execute_command. destruct ws as [|[a w] ws'] eqn:Hws.
  - by mstep E1.
  - assert (cstring t a w) as Haw by (apply Hw; by left).
    assert (Forall (λ c, 0 < c < 256) w) as Hwr.
    { rewrite Forall_forall in *. intros c Hc. apply Hpos. cut (c ∈ filter (λ c, c ∉ separators) line).
      { by intros [_ ?]%list_elem_of_filter. }
      rewrite <-Hcat. cbn. apply elem_of_app. by left. }
    assert (Forall (λ c, 0 < c) w) as Hwp by (eapply Forall_impl; [exact Hwr|]; cbn; lia).
    assert (length w < fuel)%nat as Hwf.
    { apply (f_equal length) in Hcat. cbn in Hcat. rewrite length_app in Hcat.
      pose proof (length_filter (λ c, c ∉ separators) line). lia. }
    assert (names_in command_name t) as Hn'.
    { intros k c Hk. eapply cstring_same; [|by apply Hn]. intros x Hx. apply Hr. specialize (Hna k c Hk). cbn in Hna. lia. }
    pose proof (lookup_command_spec fuel command_name t a w Hn' Hwp Haw Hwf) as Hlk.
    assert (p ≤ a) as Hpa by (by eapply words_from).
    assert (in_text (lookup_command fuel command_name a) (set_text t s) = Ret (command_of w) (set_text t s)) as E2
      by (unfold in_text, lift; cbn [text set_text]; by rewrite Hlk).
    destruct (command_of w ≫= _) as [f|] eqn:Hc.
    + mstep E1. cbn [fmap list_fmap fst take]. mstep E2. by rewrite Hc.
    + destruct (say_spec "Unknown command '" (set_text t s)) as [o1 E3]. cbn [text set_text] in E3.
      destruct (print_string_spec fuel a w (set_output o1 t)) as [o2 E4]; [lia|done|done|done|].
      assert (in_text (print_string fuel spec0 a) (set_text (set_output o1 t) s) = Ret tt (set_text (set_output o2 t) s))
        as E5 by (unfold in_text, lift; cbn [text set_text]; by rewrite E4).
      destruct (say_spec "'" (set_text (set_output o2 t) s)) as [o3 E6]. cbn [text set_text] in E6.
      exists (o3 ++ [10]). mstep E1. cbn [fmap list_fmap fst take]. mstep E2. rewrite Hc. mstep E3. mstep E5. by mstep E6.
Qed.

(** ** The command that test_three_creation_functions gives *)
Lemma write_command_spec p t :
  ∃ t', write_command p t = Ret tt t' ∧ cstring t' p RUN_FOS_ADD ∧
    ∀ a, ¬ (p ≤ a < p + 100) → byte_at t' a = byte_at t a.
Proof.
  destruct (forM_seqZ (λ n t', (∀ i, 0 ≤ i < n → byte_at t' (p + i) = u8 (RUN_FOS_ADD !!! Z.to_nat i)) ∧
      ∀ a, ¬ (p ≤ a < p + 100) → byte_at t' a = byte_at t a)
    (λ i, wr (p + i) (RUN_FOS_ADD !!! Z.to_nat i)) 0 100 t) as (t' & E & Hb & Hr); [lia|split; [lia|done]| |].
  - intros i t1 Hi [Hb Hr]. exists (put_byte (p + (0 + i)) (RUN_FOS_ADD !!! Z.to_nat (0 + i)) t1). split; [done|]. split.
    + intros j Hj. destruct (decide (j = i)) as [->|Hne]; [apply byte_put_eq|]. rewrite byte_put_ne by lia. apply Hb. lia.
    + intros a Ha. rewrite byte_put_ne by lia. by apply Hr.
  - exists t'. split; [exact E|]. split; [|exact Hr]. split.
    + intros i c Hi. pose proof (lookup_lt_Some _ _ _ Hi) as Hlt. cbn [length RUN_FOS_ADD] in Hlt.
      rewrite Hb, Nat2Z.id, (list_lookup_total_correct _ _ _ Hi) by lia.
      apply list_elem_of_lookup_2 in Hi. revert c Hi. apply Forall_forall. repeat (constructor; [done|]). constructor.
    + rewrite Hb by (cbn; lia). done.
Qed.
Lemma words_run_fos_add p :
  words (λ c, bool_decide (c ∈ separators)) p RUN_FOS_ADD =
    [(p, [114; 117; 110]); (p + 4, [102; 111; 115; 95; 97; 100; 100]); (p + 12, [52; 48; 57; 54])].
Proof.
  change RUN_FOS_ADD with ([114; 117; 110] ++ [32] ++ [102; 111; 115; 95; 97; 100; 100] ++ [32] ++ [52; 48; 57; 54] ++ []).
  rewrite words_word, words_skip, words_word, words_skip, words_word; try done;
    try (repeat (constructor; [done|]); constructor). cbn [words].
  rewrite <-!Z.add_assoc. reflexivity.
Qed.

Lemma in_kernel_same {A} (m : K A) s a : m (kern s) = Ret a (kern s) → in_kernel m s = Ret a s.
Proof. intros E. unfold in_kernel, lift. rewrite E. by destruct s. Qed.

(** The first call counts the free frames, and its command reaches command_run_program with the
    words "run", "fos_add" and "4096", whatever execute_command would do one level deeper. *)
Lemma first_call_runs_fos_add `{Extern} fuel start_of symbol command_name WHITESPACE local_str p nested s fr fd :
  0 < p → (20 < fuel)%nat → names_in command_name (text s) → cstring (text s) WHITESPACE separators →
  (WHITESPACE + 4 < p ∨ p + 100 ≤ WHITESPACE) →
  (∀ k c, commands !! k = Some c → let a := command_name (Z.of_nat k) in
     a + Z.of_nat (length (codes c.1)) < p ∨ p + 100 ≤ a) →
  sys_calculate_free_frames (kern s) = Ret fr (kern s) → pf_calculate_free_frames (kern s) = Ret fd (kern s) →
  ∃ t, cstring t (p + 4) (codes "fos_add") ∧ cstring t (p + 12) (codes "4096") ∧
    first_call p (execute_command fuel start_of symbol command_name WHITESPACE local_str p nested) s =
      (command_run_program fuel start_of [p; p + 4; p + 12];; mret tt)
        (set_text t (set_three (MkThreeTest false (s32 fr) (s32 fd)) s)).
Proof.
  intros Hp Hf Hn Hsep Hap Hna Hfr Hfd.
  destruct (write_command_spec p (text s)) as (t & E & Hl & Hr).
  set (s1 := set_text t (set_three (MkThreeTest false (s32 fr) (s32 fd)) s)).
  destruct (execute_command_spec fuel start_of symbol command_name WHITESPACE local_str p nested s1 p RUN_FOS_ADD)
    as (t' & Hw & Ex); try done; cbn [length RUN_FOS_ADD]; try lia.
  - repeat (constructor; [lia|]). constructor.
  - eapply cstring_same; [|exact Hsep]. intros x Hx. cbn [length separators] in Hx. apply Hr. lia.
  - intros k c Hk. eapply cstring_same; [|by apply Hn]. intros x Hx. apply Hr. specialize (Hna k c Hk). cbn in Hna. lia.
  - intros k c Hk. specialize (Hna k c Hk). cbn in Hna |- *. lia.
  - cbv zeta in Hw, Ex. rewrite words_run_fos_add in Hw, Ex. exists t'. split; [apply Hw; in_list|]. split; [apply Hw; in_list|].
    assert (command_of [114; 117; 110] = Some 11%nat) as Hc by (vm_compute; reflexivity).
    rewrite Hc in Ex. cbn [mbind option_bind functions_to_execute lookup list_lookup] in Ex.
    unfold first_call. rewrite bind_gets, bind_modify.
    rewrite (bind_Ret _ _ _ _ _ (in_kernel_same _ (set_three _ s) _ Hfr)), bind_modify.
    rewrite (bind_Ret _ _ _ _ _ (in_kernel_same _ (set_three _ (set_three _ s)) _ Hfd)), bind_modify.
    assert (∀ r x y, in_text (write_command p) (set_three r (set_three x (set_three y s))) = Ret tt (set_text t (set_three r s))) as Et
      by (intros; unfold in_text, lift; cbn [text set_three]; by rewrite E).
    rewrite (bind_Ret _ _ _ _ _ (Et _ _ _)). unfold mbind, M_bind.
    unfold s1 in Ex. rewrite Ex. reflexivity.
Qed.

Lemma readline_spec fuel prompt buf s line rest :
  Forall (λ c, 0 < c < 256) (typed s) → edit [] (typed s) = Some (line, rest) → (length (typed s) ≤ fuel)%nat →
  ∃ s', readline fuel prompt buf s = Ret tt s' ∧ typed s' = rest ∧ cstring (text s') buf line ∧
    Z.of_nat (length line) < BUFLEN ∧ kern s' = kern s ∧
    ∀ a, ¬ (buf ≤ a < buf + BUFLEN) → byte_at (text s') a = byte_at (text s) a.
Proof.
  intros Hc He Hf. destruct (say_spec prompt s) as [o Ho].
  set (s1 := set_text (set_output o (text s)) s) in *.
  destruct (readline_loop buf s (typed s) [] s1 fuel line rest) as (s' & E & Ht & Hb & H0); [done|done| |done|done|].
  { split_and!; try done; cbn; lia. }
  exists s'. destruct Hb as (Hk & _ & _ & Hl & Hall & Hb & Hr). split_and!; [|done| |unfold BUFLEN; lia|done|done].
  - unfold readline. mstep Ho. exact E.
  - split; [|done]. intros i c Hi. split; [by apply Hb|]. rewrite Forall_lookup in Hall. specialize (Hall i c Hi). lia.
Qed.

(** ** Properties *)

(** C32: readline, given the characters the console delivers, leaves in its buffer the line the
    editing keys make of them (printable characters are added up to 1023, backspace removes the
    last, the line ends at a new line or carriage return) with its terminator, takes exactly the
    characters up to that key, and writes no byte outside the 1024 of the buffer. *)
Theorem readline_edits fuel prompt buf s line rest :
  Forall (λ c, 0 < c < 256) (typed s) → edit [] (typed s) = Some (line, rest) → (length (typed s) ≤ fuel)%nat →
  ∃ s', readline fuel prompt buf s = Ret tt s' ∧ typed s' = rest ∧ cstring (text s') buf line ∧
    Z.of_nat (length line) < BUFLEN ∧ kern s' = kern s ∧
    ∀ a, ¬ (buf ≤ a < buf + BUFLEN) → byte_at (text s') a = byte_at (text s) a.
Proof. apply readline_spec. Qed.

(** C30: execute_command on a line whose first word is the name of a command runs that command's
    function on the words of the line (the first fifteen), each a string of its own; an empty
    line and an unknown command return 0 without touching the kernel. *)
Theorem execute_command_dispatches `{Extern} fuel start_of symbol command_name WHITESPACE local_str local_command nested s p line :
  0 < p → cstring (text s) p line → Forall (λ c, 0 < c < 256) line → cstring (text s) WHITESPACE separators →
  (WHITESPACE + 4 < p ∨ p + Z.of_nat (length line) ≤ WHITESPACE) →
  names_in command_name (text s) →
  (∀ k c, commands !! k = Some c → let a := command_name (Z.of_nat k) in
     a + Z.of_nat (length (codes c.1)) < p ∨ p + Z.of_nat (length line) ≤ a) →
  (length line < fuel)%nat → (4 < fuel)%nat →
  let ws := words (λ c, bool_decide (c ∈ separators)) p line in
  let execute := execute_command fuel start_of symbol command_name WHITESPACE local_str local_command nested in
  ∃ t, (∀ a w, (a, w) ∈ take 15 ws → cstring t a w) ∧
    match ws with
    | [] => execute p s = Ret 0 (set_text t s)
    | (a, w) :: _ =>
        match command_of w ≫= λ k, (functions_to_execute fuel start_of symbol local_str local_command nested !! k : option (list Z → Sh Z)) with
        | Some function_to_execute => execute p s = function_to_execute (take 15 ws.*1) (set_text t s)
        | None => ∃ o, execute p s = Ret 0 (set_text (set_output o t) s)
        end
    end.
Proof. apply execute_command_spec. Qed.

(** ** Witnesses *)

(** A prompt whose memory holds the names of the commands from 4096 on, 32 bytes apart, the
    separators at 3000 and [line] at 100. *)
Definition name_address (i : Z) : Z := 4096 + 32 * i.
Definition string_at (p : Z) (l : list Z) : list (Z * Z) := zip (seqZ p (Z.of_nat (length l))) l.
Definition prompt_memory (line : list Z) : gmap Z Z :=
  list_to_map (string_at 100 line ++ string_at 3000 separators ++
    concat (imap (λ i c, string_at (name_address (Z.of_nat i)) (codes c.1)) commands)).
Definition prompt_state (line keys : list Z) : Shell :=
  MkShell inhabitant (MkCState (prompt_memory line) []) keys 0 0 (MkThreeTest true 0 0).

(** "ab", a backspace, "c" and the enter key, then one more character. *)
Lemma readline_edits_witness :
  ∃ s', readline 10 "? " 500 (prompt_state [] [97; 98; 8; 99; 10; 120]) = Ret tt s' ∧ typed s' = [120] ∧
    cstring (text s') 500 [97; 99].
Proof.
  destruct (readline_edits 10 "? " 500 (prompt_state [] [97; 98; 8; 99; 10; 120]) [97; 99] [120])
    as (s' & E & Ht & Hs & _); [|vm_compute; reflexivity|cbn; lia|].
  - cbn [typed prompt_state]. repeat constructor.
  - exists s'. split; [exact E|]. split; [exact Ht|exact Hs].
Defined.

(** Checking by computation that memory holds a string. *)
Fixpoint holds_string (t : CState) (p : Z) (l : list Z) : bool :=
  match l with
  | [] => byte_at t p =? 0
  | c :: l => (byte_at t p =? c) && negb (c =? 0) && holds_string t (p + 1) l
  end.
Lemma holds_string_ok t p l : holds_string t p l = true → cstring t p l.
Proof.
  revert p. induction l as [|c l IH]; intros p Hh; cbn in Hh; zify_bool.
  - by apply cstring_nil.
  - apply cstring_cons. split_and!; [done|done|by apply IH].
Qed.
Lemma commands_all (P : nat → string * string → bool) :
  forallb (λ x, P x.1 x.2) (imap (λ k c, (k, c)) commands) = true →
  ∀ k c, commands !! k = Some c → P k c = true.
Proof.
  intros Hall k c Hk. rewrite forallb_forall in Hall.
  apply (Hall (k, c)), list_elem_of_In, list_elem_of_lookup. exists k. by rewrite list_lookup_imap, Hk.
Qed.

(** "lru " sets the replacement algorithm. *)
Lemma execute_command_dispatches_witness :
  ∃ t s', execute_command (H := no_fuel) 20 (λ _, 0) (λ _, 0) name_address 3000 600 700 (λ _, mret 0) 100
      (prompt_state [108; 114; 117; 32] []) = Ret 0 s' ∧ cstring t 100 [108; 114; 117] ∧
    _PageRepAlgoType (config (kern s')) = PG_REP_LRU.
Proof.
  destruct (execute_command_dispatches (H := no_fuel) 20 (λ _, 0) (λ _, 0) name_address 3000 600 700 (λ _, mret 0)
    (prompt_state [108; 114; 117; 32] []) 100 [108; 114; 117; 32]) as (t & Hw & E).
  - lia.
  - apply holds_string_ok. vm_compute. reflexivity.
  - repeat constructor.
  - apply holds_string_ok. vm_compute. reflexivity.
  - right. cbn. lia.
  - intros k c Hk. apply holds_string_ok. revert k c Hk.
    apply (commands_all (λ k c, holds_string _ _ (codes c.1))). vm_compute. reflexivity.
  - intros k c Hk. right. unfold name_address. cbn [length]. lia.
  - cbn. lia.
  - lia.
  - exists t. eexists. split; [etrans; [exact E|vm_compute; reflexivity]|].
    split; [apply Hw; vm_compute; in_list|vm_compute; reflexivity].
Defined.
