(* ===== verification/KDebug.v ===== *)
(** * Debugging information: kern/kdebug.c

    The symbol table the linker leaves in the image: stab_binsearch brackets an address between
    two stabs of a type, debuginfo_eip names the function and the file of an address.  The table
    and its strings are bytes of the memory of Strings.v; the linker's symbols are parameters. *)
From S2P Require Import Prelude Machine Strings.

(** ** inc/stab.h *)
Definition N_FUN : Z := 0x24.
Definition N_SO : Z := 0x64.
Definition N_SOL : Z := 0x84.
(** [sizeof(struct Stab)]: a word, two bytes, a half word and a pointer. *)
Definition SIZEOF_Stab : Z := 12.

Definition word_at (s : CState) (p : Z) : Z :=
  bytes s !!! p + bytes s !!! (p + 1) * 2 ^ 8 + bytes s !!! (p + 2) * 2 ^ 16 + bytes s !!! (p + 3) * 2 ^ 24.
Definition rd32 (p : Z) : C Z := gets (λ s, word_at s p).

Definition n_strx (stabs i : Z) : C Z := rd32 (stabs + i * SIZEOF_Stab).
Definition n_type (stabs i : Z) : C Z := rd (stabs + i * SIZEOF_Stab + 4).
Definition n_value (stabs i : Z) : C Z := rd32 (stabs + i * SIZEOF_Stab + 8).

(** ** stab_binsearch *)
(** [while (m >= l && stabs[m].n_type != type) m--;] *)
Definition back_to_type (stabs l type : Z) (m : Z) : C Z :=
  mloop (Z.to_nat (m - l + 2)) (λ m,
    if negb (l <=? m) then mret (inr m) else
    t ← n_type stabs m;
    if negb (t =? type) then mret (inl (m - 1)) else mret (inr m)) m.

(** The locals of the search: [l], [r], [any_matches], [*region_left], [*region_right], [addr].
    [addr] points to words: [addr++] adds four bytes. *)
Record search := MkSearch
  { sl : Z; sr : Z; any_matches : bool; region_left : Z; region_right : Z; saddr : Z }.
Definition search_body (stabs type : Z) (x : search) : C (search + search) :=
  let '(MkSearch l r any_matches lft rgt addr) := x in
  if negb (l <=? r) then mret (inr x) else
  let true_m := Z.quot (l + r) 2 in
  m ← back_to_type stabs l type true_m;
  if m <? l then mret (inl (MkSearch (true_m + 1) r any_matches lft rgt addr)) else
  v ← n_value stabs m;
  if v <? addr then mret (inl (MkSearch (true_m + 1) r true m rgt addr))
  else if addr <? v then mret (inl (MkSearch l (m - 1) true lft (m - 1) addr))
  else mret (inl (MkSearch m r true m rgt (u32 (addr + 4)))).

(** Each iteration shortens the range, an exact match only every other time: twice the length
    of the range is enough. *)
Definition stab_binsearch (stabs region_left0 region_right0 type addr : Z) : C (Z * Z) :=
  x ← mloop (Z.to_nat (2 * (region_right0 - region_left0 + 2))) (search_body stabs type)
        (MkSearch region_left0 region_right0 false region_left0 region_right0 addr);
  if negb (any_matches x) then mret (region_left x, region_left x - 1)
  else
    l ← mloop (Z.to_nat (region_right x - region_left x + 2)) (λ l,
          if negb (region_left x <? l) then mret (inr l) else
          t ← n_type stabs l;
          if negb (t =? type) then mret (inl (l - 1)) else mret (inr l)) (region_right x);
    mret (l, region_right x).

(** ** debuginfo_eip *)
Record Eipdebuginfo := MkEip
  { eip_file : Z; eip_line : Z; eip_fn_name : Z; eip_fn_namelen : Z; eip_fn_addr : Z; eip_fn_narg : Z }.

(** The bounds of the two tables, for the kernel and as the user program's linker script lays
    them out at USTABDATA, and the literal "<unknown>". *)
Class Symbols := {
  STAB_BEGIN : Z; STAB_END : Z; STABSTR_BEGIN : Z; STABSTR_END : Z;
  UNKNOWN : Z;
}.
Definition USTABDATA : Z := PTSIZE `div` 2.

Section Debuginfo.
Context `{Symbols} (fuel : nat).

Definition tables_of (addr : Z) : C (Z * Z * Z * Z) :=
  if USER_LIMIT <=? addr then mret (STAB_BEGIN, STAB_END, STABSTR_BEGIN, STABSTR_END)
  else
    stabs ← rd32 USTABDATA; stab_end ← rd32 (USTABDATA + 4);
    stabstr ← rd32 (USTABDATA + 8); stabstr_end ← rd32 (USTABDATA + 12);
    mret (stabs, stab_end, stabstr, stabstr_end).

(** The search backwards from [lline] for a file name. *)
Definition back_to_file (stabs lfile : Z) (lline : Z) : C Z :=
  mloop (Z.to_nat (lline - lfile + 2)) (λ lline,
    if negb (lfile <=? lline) then mret (inr lline) else
    t ← n_type stabs lline; v ← n_value stabs lline;
    if negb (t =? N_SOL) && (negb (t =? N_SO) || (v =? 0)) then mret (inl (lline - 1))
    else mret (inr lline)) lline.

(** The result and [*info], which is filled in even when the result is negative.  The line
    number and the number of arguments are never looked up. *)
Definition debuginfo_eip (addr : Z) : C (Z * Eipdebuginfo) :=
  let info0 := MkEip UNKNOWN 0 UNKNOWN 9 addr 0 in
  '(stabs, stab_end, stabstr, stabstr_end) ← tables_of addr;
  last ← (if stabstr_end <=? stabstr then mret 1 else rd (stabstr_end - 1));
  if (stabstr_end <=? stabstr) || negb (last =? 0) then mret (-1, info0) else
  '(lfile, rfile) ← stab_binsearch stabs 0 (Z.quot (stab_end - stabs) SIZEOF_Stab - 1) N_SO addr;
  if lfile =? 0 then mret (-1, info0) else
  '(lfun, rfun) ← stab_binsearch stabs lfile rfile N_FUN addr;
  '(name, fn_addr, lline) ←
    (if lfun <=? rfun then
       strx ← n_strx stabs lfun; v ← n_value stabs lfun;
       mret (if strx <? u32 (stabstr_end - stabstr) then stabstr + strx else UNKNOWN, v, lfun)
     else mret (UNKNOWN, addr, lfile));
  e ← strfind fuel name 58;
  lline ← back_to_file stabs lfile lline;
  strx ← (if lfile <=? lline then n_strx stabs lline else mret 0);
  let file := if (lfile <=? lline) && (strx <? u32 (stabstr_end - stabstr)) then stabstr + strx
              else UNKNOWN in
  mret (0, MkEip file 0 name (e - name) fn_addr 0).
End Debuginfo.
