(* ===== verification/KDebugSpec.v ===== *)
(** * What the symbol table search promises

    stab_binsearch against a reference that looks at every stab of the range: on a table sorted
    by address both give the same brackets.  Where the code's [addr++] and its treatment of
    addresses before the first stab depart from the comment is part of the statement. *)
From S2P Require Import Prelude Machine Strings StringsSpec KDebug.

(** ** Filters of a range *)
Lemma seqZ_split a b L n :
  L ≤ a ≤ b → b ≤ L + n → seqZ L n = seqZ L (a - L) ++ seqZ a (b - a) ++ seqZ b (L + n - b).
Proof.
  intros. replace n with ((a - L) + ((b - a) + (L + n - b))) at 1 by lia.
  rewrite seqZ_app, (seqZ_app _ (b - a)) by lia. do 2 f_equal; [|f_equal]; f_equal; lia.
Qed.
Lemma seqZ_one x : seqZ x (x + 1 - x) = [x].
Proof.
  replace (x + 1 - x) with 1 by lia. unfold seqZ. change (Z.to_nat 1) with 1%nat. cbn [seq fmap list_fmap].
  done.
Qed.
Lemma filter_seqZ_none (P : Z → Prop) `{!∀ x, Decision (P x)} a n :
  (∀ i, a ≤ i < a + n → ¬ P i) → filter P (seqZ a n) = [].
Proof.
  intros Hn. destruct (filter P (seqZ a n)) as [|i l] eqn:Hf; [done|].
  assert (i ∈ filter P (seqZ a n)) as [HP [? ?]%elem_of_seqZ]%list_elem_of_filter by (rewrite Hf; by left).
  destruct (Hn i); [lia|done].
Qed.
Lemma last_filter_seqZ (P : Z → Prop) `{!∀ x, Decision (P x)} L n x :
  L ≤ x < L + n → P x → (∀ i, x < i < L + n → ¬ P i) → last (filter P (seqZ L n)) = Some x.
Proof.
  intros Hx HP Hn. rewrite (seqZ_split x (x + 1)), !filter_app by lia.
  rewrite (filter_seqZ_none P (x + 1)) by (intros; apply Hn; lia).
  rewrite seqZ_one, filter_cons_True by done. cbn. apply last_snoc.
Qed.
Lemma head_filter_seqZ (P : Z → Prop) `{!∀ x, Decision (P x)} L n x :
  L ≤ x < L + n → P x → (∀ i, L ≤ i < x → ¬ P i) → head (filter P (seqZ L n)) = Some x.
Proof.
  intros Hx HP Hn. rewrite (seqZ_split x (x + 1)), !filter_app by lia.
  rewrite (filter_seqZ_none P L) by (intros; apply Hn; lia).
  by rewrite seqZ_one, filter_cons_True.
Qed.

(** ** The reference *)
Definition stab_type (s : CState) (stabs i : Z) : Z := byte_at s (stabs + i * SIZEOF_Stab + 4).
Definition stab_value (s : CState) (stabs i : Z) : Z := word_at s (stabs + i * SIZEOF_Stab + 8).

(** The brackets of [addr] in [L, R]: from the last stab of the type at or below [addr] (the
    first of the range when there is none) to just before the next stab of the type. *)
Definition brackets (s : CState) (stabs type L R addr : Z) : Z * Z :=
  let range := seqZ L (R - L + 1) in
  match filter (λ i, stab_type s stabs i = type) range with
  | [] => (L, L - 1)
  | _ =>
      let rgt := default (R + 1)
        (head (filter (λ i, stab_type s stabs i = type ∧ addr < stab_value s stabs i) range)) - 1 in
      (Z.min (default L
         (last (filter (λ i, stab_type s stabs i = type ∧ stab_value s stabs i ≤ addr) range))) rgt, rgt)
  end.

Section Search.
Context (s : CState) (stabs type L R addr : Z).
Notation ty := (stab_type s stabs).
Notation va := (stab_value s stabs).

(** The stabs of the type in the range are in order of address, and a stab at [addr] itself has
    no other one in the four bytes that follow it. *)
Record stabs_ok : Prop := {
  so_range : 0 ≤ L ≤ R + 1;
  so_addr : 0 ≤ addr < 2 ^ 32 - 4;
  so_sorted i j : L ≤ i < j → j ≤ R → ty i = type → ty j = type → va i ≤ va j;
  so_gap i j : L ≤ i ≤ R → L ≤ j ≤ R → ty i = type → ty j = type →
    va i = addr → va j ≤ addr ∨ addr + 4 < va j;
}.

Lemma n_type_eq i : n_type stabs i s = Ret (ty i) s.
Proof. done. Qed.
Lemma n_value_eq i : n_value stabs i s = Ret (va i) s.
Proof. done. Qed.

Lemma back_to_type_spec l m :
  l ≤ m + 1 →
  ∃ m', back_to_type stabs l type m s = Ret m' s ∧ l - 1 ≤ m' ≤ m ∧
    (∀ i, m' < i ≤ m → ty i ≠ type) ∧ (l ≤ m' → ty m' = type).
Proof.
  intros Hlm. unfold back_to_type.
  match goal with |- context [mloop _ ?b _] => set (body := b) end.
  destruct (mloop_total (λ x s', s' = s ∧ l - 1 ≤ x ≤ m ∧ ∀ i, x < i ≤ m → ty i ≠ type)
    (λ m' s', s' = s ∧ l - 1 ≤ m' ≤ m ∧ (∀ i, m' < i ≤ m → ty i ≠ type) ∧ (l ≤ m' → ty m' = type))
    (λ x _, Z.to_nat (x - l + 1)) body (Z.to_nat (m - l + 2)) m s)
    as (m' & s' & Hr & -> & Hm); [|split_and!; try lia; done|lia|by exists m'].
  intros x ? (-> & Hx & Hn). subst body. cbn beta.
  destruct (Z.leb_spec l x) as [Hl|Hl]; cbn [negb]; cycle 1.
  { right. exists x, s. split; [done|]. split_and!; [done|lia|lia|done|lia]. }
  rewrite (bind_Ret _ _ _ _ _ (n_type_eq x)).
  destruct (Z.eqb_spec (ty x) type) as [Ht|Ht]; cbn [negb].
  - right. exists x, s. split_and!; try done; lia.
  - left. exists (x - 1), s. split_and!; try done; try lia.
    intros i Hi. destruct (decide (i = x)) as [->|]; [done|]. apply Hn. lia.
Qed.

(** The range that is left, and what is known on both sides of it. *)
Record search_inv (x : search) : Prop := {
  si_left : L ≤ sl x;
  si_right : sr x ≤ R;
  si_order : sl x ≤ sr x + 1;
  si_region : region_right x = sr x;
  si_addr : saddr x = addr ∨
    (saddr x = addr + 4 ∧ ∃ k, L ≤ k ≤ R ∧ ty k = type ∧ va k = addr);
  si_below i : L ≤ i < sl x → ty i = type → va i ≤ addr;
  si_above i : sr x < i ≤ R → ty i = type → addr < va i;
  si_last : (region_left x = L ∧ ∀ i, L ≤ i < sl x → ty i ≠ type) ∨
    (L ≤ region_left x ≤ sr x ∧ ty (region_left x) = type ∧ va (region_left x) ≤ addr ∧
     ∀ i, region_left x < i < sl x → ty i ≠ type);
  si_next : sr x = R ∨ (sr x < R ∧ ty (sr x + 1) = type);
  si_none : any_matches x = false →
    sr x = R ∧ region_left x = L ∧ ∀ i, L ≤ i < sl x → ty i ≠ type;
  si_some : any_matches x = true → ∃ k, L ≤ k ≤ R ∧ ty k = type;
}.
Definition search_measure (x : search) : nat :=
  Z.to_nat (sr x - sl x + 1 + if saddr x =? addr then 1 else 0).

Lemma search_body_step x :
  stabs_ok → search_inv x →
  (∃ x', search_body stabs type x s = Ret (inl x') s ∧ search_inv x' ∧
     (search_measure x' < search_measure x)%nat) ∨
  (search_body stabs type x s = Ret (inr x) s ∧ sl x = sr x + 1).
Proof.
  intros Hok Hx. pose proof (so_range Hok) as HLR. pose proof (so_addr Hok) as Hwa.
  destruct x as [l r any lft rgt a]. unfold search_body.
  destruct Hx as [Hl Hr Ho Hreg Ha Hb Hab Hla Hne Hno Hso]. cbn in *. subst rgt.
  destruct (Z.leb_spec l r) as [Hlr|Hlr]; cbn [negb]; [|right; split; [done|lia]].
  left. set (tm := Z.quot (l + r) 2).
  assert (tm = (l + r) / 2) as Htm by (apply Z.quot_div_nonneg; lia).
  assert (l ≤ tm ≤ r) as Htr by (rewrite Htm; zdiv). clearbody tm. clear Htm.
  destruct (back_to_type_spec l tm) as (m & Hm & Hmr & Hmn & Hmt); [lia|]. mstep Hm.
  destruct (Z.ltb_spec m l) as [Hml|Hml].
  { eexists. split; [done|]. split; [|unfold search_measure; cbn; destruct (a =? addr); lia].
    assert (∀ i, l ≤ i < tm + 1 → ty i ≠ type) as Hlt by (intros; apply Hmn; lia).
    split; cbn; try done; try lia.
    - intros i Hi Hty. destruct (decide (i < l)); [by apply Hb; lia|]. destruct (Hlt i); [lia|done].
    - destruct Hla as [[-> Hn]|(? & ? & ? & Hn)].
      + left. split; [done|]. intros i Hi. destruct (decide (i < l)); [apply Hn; lia|apply Hlt; lia].
      + right. split_and!; try done; try lia. intros i Hi. destruct (decide (i < l)); [apply Hn; lia|apply Hlt; lia].
    - intros Hf. destruct (Hno Hf) as (-> & -> & Hn). split_and!; [done|done|].
      intros i Hi. destruct (decide (i < l)); [apply Hn; lia|apply Hlt; lia]. }
  specialize (Hmt Hml). rewrite (bind_Ret _ _ _ _ _ (n_value_eq m)).
  assert (a = addr ∨ a = addr + 4 ∧ (va m ≤ addr ∨ addr + 4 < va m)) as Hcmp.
  { destruct Ha as [?|(? & k & ? & ? & ?)]; [by left|right]. split; [done|].
    apply (so_gap Hok k m); try done; lia. }
  assert (va m ≤ addr → ∀ i, L ≤ i ≤ tm → ty i = type → va i ≤ addr) as Hdown.
  { intros Hv i Hi Hty. destruct (decide (i = m)) as [->|]; [done|].
    destruct (decide (i < m)); [|destruct (Hmn i); [lia|done]].
    transitivity (va m); [|done]. apply (so_sorted Hok); try done; lia. }
  destruct (Z.ltb_spec (va m) a) as [Hv|Hv].
  { assert (va m ≤ addr) as Hva by lia.
    eexists. split; [done|]. split; [|unfold search_measure; cbn; destruct (a =? addr); lia].
    split; cbn; try done; try lia.
    - intros i Hi. apply Hdown; [done|lia].
    - right. split_and!; try done; try lia. intros i Hi. apply Hmn. lia.
    - intros _. exists m. split; [lia|done]. }
  destruct (Z.ltb_spec a (va m)) as [Hv'|Hv'].
  { assert (addr < va m) as Hva by lia.
    eexists. split; [done|]. split; [|unfold search_measure; cbn; destruct (a =? addr); lia].
    split; cbn; try done; try lia.
    - intros i Hi Hty. destruct (decide (i = m)) as [->|]; [done|].
      apply Z.lt_le_trans with (va m); [done|]. apply (so_sorted Hok); try done; lia.
    - destruct Hla as [?|(Hlf & Hlt & Hlv & ?)]; [by left|right]. split_and!; try done; try lia.
      destruct (decide (lft = m)) as [->|]; [lia|].
      destruct (decide (m < lft)); [|lia].
      assert (va m ≤ va lft) by (apply (so_sorted Hok); try done; lia). lia.
    - right. replace (m - 1 + 1) with m by lia. split; [lia|done].
    - intros _. exists m. split; [lia|done]. }
  assert (va m = addr ∧ a = addr) as [Hva ->] by lia.
  eexists. split; [done|]. unfold search_measure. cbn.
  assert (u32 (addr + 4) = addr + 4) as -> by (apply u32_small; unfold is_u32; lia).
  split; [|rewrite Z.eqb_refl, (proj2 (Z.eqb_neq (addr + 4) addr)) by lia; lia].
  split; cbn; try done; try lia.
  - right. split; [done|]. exists m. split_and!; try done; lia.
  - intros i Hi. apply Hdown; lia.
  - right. split_and!; try done; lia.
  - intros _. exists m. split; [lia|done].
Qed.

(** The last loop walks down from the right end to the last stab of the type. *)
Lemma search_runs :
  stabs_ok →
  ∃ x, mloop (Z.to_nat (2 * (R - L + 2))) (search_body stabs type) (MkSearch L R false L R addr) s = Ret x s ∧
    search_inv x ∧ sl x = sr x + 1.
Proof.
  intros Hok. pose proof (so_range Hok) as HLR.
  destruct (mloop_total (λ x s', s' = s ∧ search_inv x) (λ x s', s' = s ∧ search_inv x ∧ sl x = sr x + 1)
    (λ x _, search_measure x) (search_body stabs type) (Z.to_nat (2 * (R - L + 2)))
    (MkSearch L R false L R addr) s) as (x & ? & Hx & -> & Hi); [| | |by exists x].
  - intros x ? [-> Hi]. destruct (search_body_step x Hok Hi) as [(x' & Hb & Hi' & Hm)|[Hb He]].
    + left. exists x', s. by split_and!.
    + right. exists x, s. by split_and!.
  - split; [done|]. split; cbn; try done; try lia; auto.
    + left. split; [done|]. intros; lia.
    + intros _. split_and!; [done|done|]. intros; lia.
  - unfold search_measure. cbn. rewrite Z.eqb_refl. lia.
Qed.
Lemma walk_down_spec l r :
  l ≤ r + 1 → (∀ i, l < i ≤ r → ty i ≠ type) →
  mloop (Z.to_nat (r - l + 2)) (λ i,
    if negb (l <? i) then mret (inr i) else
    t ← n_type stabs i;
    if negb (t =? type) then mret (inl (i - 1)) else mret (inr i)) r s = Ret (Z.min l r) s.
Proof.
  intros Hlr Hn. match goal with |- mloop _ ?b _ _ = _ => set (body := b) end.
  destruct (mloop_total (λ x s', s' = s ∧ x ≤ r ∧ (l ≤ x ∨ x = r)) (λ x s', s' = s ∧ x = Z.min l r)
    (λ x _, Z.to_nat (x - l)) body (Z.to_nat (r - l + 2)) r s) as (x & s' & Hr & -> & ->);
    [|split_and!; try done; lia| |done].
  - intros x ? (-> & Hx & Hl). subst body. cbn beta.
    destruct (Z.ltb_spec l x) as [Hlx|Hlx]; cbn [negb].
    + left. exists (x - 1), s. rewrite (bind_Ret _ _ _ _ _ (n_type_eq x)), (proj2 (Z.eqb_neq _ _)) by (apply Hn; lia).
      split_and!; try done; lia.
    + right. exists x, s. split_and!; try done. lia.
  - lia.
Qed.

Lemma brackets_none : (∀ i, L ≤ i ≤ R → ty i ≠ type) → brackets s stabs type L R addr = (L, L - 1).
Proof. intros Hn. unfold brackets. rewrite filter_seqZ_none; [done|]. intros; apply Hn; lia. Qed.
Lemma brackets_some x :
  search_inv x → sl x = sr x + 1 → any_matches x = true →
  brackets s stabs type L R addr = (Z.min (region_left x) (sr x), sr x).
Proof.
  intros Hx He Ha. unfold brackets. pose proof (si_left x Hx) as Hxl. pose proof (si_right x Hx) as Hxr.
  destruct (filter (λ i, ty i = type) (seqZ L (R - L + 1))) as [|i0 l0] eqn:Hf.
  { destruct (si_some x Hx Ha) as (k & Hk & Hty). exfalso.
    assert (k ∈ filter (λ i, ty i = type) (seqZ L (R - L + 1))) as Hin.
    { apply list_elem_of_filter. split; [done|]. apply elem_of_seqZ. lia. }
    rewrite Hf in Hin. by apply not_elem_of_nil in Hin. }
  assert (default (R + 1) (head (filter (λ i, ty i = type ∧ addr < va i) (seqZ L (R - L + 1)))) = sr x + 1) as ->.
  { destruct (si_next x Hx) as [Hs|[Hs Hty]].
    - rewrite filter_seqZ_none; [cbn; lia|]. intros i Hi [Hty Hv]. pose proof (si_below x Hx i). lia.
    - rewrite (head_filter_seqZ _ L _ (sr x + 1)); [done|lia| |].
      + split; [done|]. apply (si_above x Hx); [lia|done].
      + intros i Hi [Hty' Hv]. pose proof (si_below x Hx i). lia. }
  replace (sr x + 1 - 1) with (sr x) by lia. f_equal. f_equal.
  destruct (si_last x Hx) as [[Hl Hn]|(Hl & Hty & Hv & Hn)].
  - rewrite filter_seqZ_none; [done|]. intros i Hi [Hty Hv].
    destruct (decide (i < sl x)); [by apply (Hn i); [lia|]|]. pose proof (si_above x Hx i). lia.
  - rewrite (last_filter_seqZ _ L _ (region_left x)); [done|lia|done|].
    intros i Hi [Hty' Hv']. destruct (decide (i < sl x)); [by apply (Hn i); [lia|]|].
    pose proof (si_above x Hx i). lia.
Qed.
End Search.

(** ** Properties *)
(** C33: on a table sorted by address stab_binsearch ends, reads nothing it could fault on and
    returns the brackets of the reference, which looks at every stab of the range: the last stab
    of the type at or below the address and the position before the next one.  When no stab of
    the type is at or below the address the left end is the start of the range (or the position
    before it) and not, as the comment has it, greater than the right end.  The hypothesis that
    no other stab lies within four bytes after an exact match is needed, because [addr++] moves
    a pointer to words. *)
Theorem stab_binsearch_brackets s stabs type L R addr :
  stabs_ok s stabs type L R addr →
  stab_binsearch stabs L R type addr s = Ret (brackets s stabs type L R addr) s.
Proof.
  intros Hok. destruct (search_runs s stabs type L R addr Hok) as (x & Hx & Hi & He).
  unfold stab_binsearch. mstep Hx. destruct (any_matches x) eqn:Ha; cbn [negb].
  - rewrite (brackets_some _ _ _ _ _ _ x Hi He Ha), (si_region _ _ _ _ _ _ _ Hi).
    erewrite bind_Ret; [done|]. pose proof (si_left _ _ _ _ _ _ _ Hi).
    destruct (si_last _ _ _ _ _ _ _ Hi) as [[Hl Hn]|(? & ? & ? & Hn)];
      (apply walk_down_spec; [lia|intros; apply Hn; lia]).
  - destruct (si_none _ _ _ _ _ _ _ Hi Ha) as (Hr & Hl & Hn).
    rewrite brackets_none; [by rewrite Hl|]. intros i Hir. apply Hn. lia.
Qed.

(** ** Witnesses *)
(** A table of (type, address) pairs, as bytes from address 0. *)
Fixpoint stab_bytes (p : Z) (l : list (Z * Z)) : gmap Z Z :=
  match l with
  | [] => ∅
  | (t, v) :: l =>
      <[p + 4 := t]> (<[p + 8 := u8 v]> (<[p + 9 := u8 (v / 2 ^ 8)]> (<[p + 10 := u8 (v / 2 ^ 16)]>
        (<[p + 11 := u8 (v / 2 ^ 24)]> (stab_bytes (p + SIZEOF_Stab) l)))))
  end.
(** The stabs of the comment, without most of the ones in between. *)
Definition comment_stabs : CState :=
  MkCState (stab_bytes 0 [(N_SO, 0xf0100000); (N_FUN, 0xf0100010); (N_SO, 0xf0100040); (N_SO, 0xf0100176);
    (N_SO, 0xf0100178); (N_FUN, 0xf0100180); (N_SO, 0xf0100652); (N_SO, 0xf0100654); (N_SO, 0xf0100849)]) [].

Lemma stab_binsearch_brackets_witness :
  stab_binsearch 0 0 8 N_SO 0xf0100184 comment_stabs = Ret (4, 5) comment_stabs.
Proof.
  refine (eq_trans (stab_binsearch_brackets comment_stabs 0 N_SO 0 8 0xf0100184 _) _); [|vm_compute; reflexivity].
  assert (forallb (λ i, forallb (λ j, implb ((i <? j) && (stab_type comment_stabs 0 i =? N_SO)
      && (stab_type comment_stabs 0 j =? N_SO)) (stab_value comment_stabs 0 i <=? stab_value comment_stabs 0 j))
    (seqZ 0 9)) (seqZ 0 9) = true) as Hs by (vm_compute; reflexivity).
  assert (forallb (λ i, negb (stab_value comment_stabs 0 i =? 0xf0100184)) (seqZ 0 9) = true) as Hg
    by (vm_compute; reflexivity).
  rewrite forallb_forall in Hs. rewrite forallb_forall in Hg. split.
  - lia.
  - lia.
  - intros i j Hi Hj Ht1 Ht2. specialize (Hs i). rewrite forallb_forall in Hs.
    assert (implb _ _ = true) as H by (apply (Hs ltac:(apply list_elem_of_In, elem_of_seqZ; lia) j); apply list_elem_of_In, elem_of_seqZ; lia).
    rewrite Ht1, Ht2, (proj2 (Z.ltb_lt i j)) in H by lia. cbn in H. by apply Z.leb_le.
  - intros i j Hi Hj Ht1 Ht2 Hv. specialize (Hg i ltac:(apply list_elem_of_In, elem_of_seqZ; lia)).
    rewrite Hv in Hg. by vm_compute in Hg.
Defined.

(** Stabs closer than a word: the stab at the address itself is passed over for the one two
    bytes later. *)
Lemma stab_binsearch_close_stabs :
  stab_binsearch 0 0 8 N_SO 0xf0100652 comment_stabs = Ret (7, 7) comment_stabs ∧
  brackets comment_stabs 0 N_SO 0 8 0xf0100652 = (6, 6).
Proof. split; vm_compute; reflexivity. Qed.
