(* ===== verification/Loader.v ===== *)
(** * The boot loader: boot/main.c

    cmain reads the kernel's ELF image from the first IDE drive, one sector at a time, and jumps
    to its entry point.  Memory is a map of bytes; the drive is behind the ports of Devices.v. *)
From S2P Require Import Prelude Machine Devices.

Definition SECTSIZE : Z := 512.
Definition ELFHDR : Z := 0x10000.
Definition BOOT_ELF_MAGIC : Z := 0x464C457F.

Record BState (D : Type) := MkBState { bdev : D; bmem : gmap Z Z }.
Arguments MkBState {D}.
Arguments bdev {D}.
Arguments bmem {D}.

Section Loader.
Context {D : Type} `{Ports D} (fuel : nat).
Notation B := (M (BState D)).

Definition bin (p : Z) : B Z := λ s,
  let '(v, d) := port_in p (bdev s) in Ret v (MkBState d (bmem s)).
Definition bout (p v : Z) : B unit := modify (λ s, MkBState (port_out p v (bdev s)) (bmem s)).
Definition bwrite (a v : Z) : B unit := modify (λ s, MkBState (bdev s) (<[a := u8 v]> (bmem s))).
Definition bbyte (m : gmap Z Z) (a : Z) : Z := m !!! a.
(** A little-endian word, or half word, of memory. *)
Definition half_of (m : gmap Z Z) (a : Z) : Z := bbyte m a + bbyte m (a + 1) * 2 ^ 8.
Definition word_of (m : gmap Z Z) (a : Z) : Z := half_of m a + half_of m (a + 2) * 2 ^ 16.
Definition bload16 (a : Z) : B Z := gets (λ s, half_of (bmem s) a).
Definition bload32 (a : Z) : B Z := gets (λ s, word_of (bmem s) a).
Definition bstore32 (a v : Z) : B unit :=
  bwrite a v;; bwrite (a + 1) (v / 2 ^ 8);; bwrite (a + 2) (v / 2 ^ 16);; bwrite (a + 3) (v / 2 ^ 24).

(** [while ((inb(0x1F7) & 0xC0) != 0x40)] *)
Definition waitdisk : B unit :=
  mloop fuel (λ _, v ← bin 0x1F7;
    if negb (Z.land (u8 v) 0xC0 =? 0x40) then mret (inl tt) else mret (inr tt)) tt.

(** inc/x86.h: [cnt] words from the port. *)
Definition insl (port addr cnt : Z) : B unit :=
  forM (seqZ 0 cnt) (λ i, v ← bin port; bstore32 (addr + 4 * i) v).

Definition readsect (dst offset : Z) : B unit :=
  waitdisk;;
  bout 0x1F2 1;;
  bout 0x1F3 (u8 offset);;
  bout 0x1F4 (u8 (Z.shiftr offset 8));;
  bout 0x1F5 (u8 (Z.shiftr offset 16));;
  bout 0x1F6 (u8 (Z.lor (Z.shiftr offset 24) 0xE0));;
  bout 0x1F7 0x20;;
  waitdisk;;
  insl 0x1F0 dst (SECTSIZE / 4).

(** [va] is rounded down to a sector; a sector too many may be read at the end. *)
Definition readseg (va count offset : Z) : B unit :=
  let va := Z.land va 0xFFFFFF in
  let end_va := u32 (va + count) in
  let va := Z.land va (not32 (SECTSIZE - 1)) in
  let offset := u32 (offset / SECTSIZE + 1) in
  mloop (Z.to_nat (end_va / SECTSIZE + 2)) (λ '(va, offset),
    if negb (va <? end_va) then mret (inr tt) else
    readsect va offset;;
    mret (inl (u32 (va + SECTSIZE), u32 (offset + 1)))) (va, offset).

Definition bleave (dest : option Z) : B unit := λ s, Leave dest s.
(** The jump to the kernel never returns, nor does the loop after [bad]: [Leave]. *)
Definition cmain : B unit :=
  readseg ELFHDR (SECTSIZE * 8) 0;;
  magic ← bload32 ELFHDR;
  if negb (magic =? BOOT_ELF_MAGIC) then
    bout 0x8A00 0x8A00;; bout 0x8A00 0x8E00;; bleave None
  else
    phoff ← bload32 (ELFHDR + 28);
    phnum ← bload16 (ELFHDR + 44);
    let ph := u32 (ELFHDR + phoff) in
    forM (seqZ 0 phnum) (λ i,
      va ← bload32 (ph + 32 * i + 8);
      memsz ← bload32 (ph + 32 * i + 20);
      offset ← bload32 (ph + 32 * i + 4);
      readseg va memsz offset);;
    entry ← bload32 (ELFHDR + 24);
    bleave (Some (Z.land entry 0xFFFFFF)).
End Loader.
