(* ===== verification/LoaderSpec.v ===== *)
(** * What the boot loader promises

    Over a drive that serves sectors ([IdeDrive]), readseg copies the bytes of the disk image to
    memory, and cmain loads every segment of the kernel's ELF image and jumps to its entry. *)
From S2P Require Import Prelude Machine Devices Loader.

Lemma land_not_low x k :
  is_u32 x → 0 ≤ k ≤ 32 → Z.land x (not32 (Z.ones k)) = x / 2 ^ k * 2 ^ k.
Proof.
  intros Hx Hk. rewrite <-Z.shiftl_mul_pow2, <-Z.shiftr_div_pow2 by lia.
  apply Z.bits_inj'. intros n Hn. rewrite Z.land_spec, Z.shiftl_spec by done.
  destruct (decide (n < 32)) as [H32|H32].
  - unfold not32, u32. rewrite Z.mod_pow2_bits_low, Z.lnot_spec by lia. destruct (decide (n < k)).
    + rewrite Z.ones_spec_low, (Z.testbit_neg_r _ (n - k)) by lia. apply andb_false_r.
    + rewrite Z.ones_spec_high, Z.shiftr_spec by lia. rewrite andb_true_r. f_equal. lia.
  - rewrite Z.shiftr_spec by lia. rewrite <-(u32_small x Hx). unfold u32.
    by rewrite !Z.mod_pow2_bits_high by lia.
Qed.
Lemma land_low x k : 0 ≤ k → Z.land x (Z.ones k) = x `mod` 2 ^ k.
Proof. apply Z.land_ones. Qed.

(** ** The drive *)
(** The registers of the drive hold what was written to them; the read command makes the words of
    the addressed sector (28-bit LBA) available at the data port; the drive is busy for a bounded
    number of polls. *)
Class IdeDrive (D : Type) `{Ports D} := {
  sector : Z → Z → Z;
  sector_word n i : is_u32 (sector n i);
  busy : D → nat;
  latency : nat;
  busy_bound d : (busy d ≤ latency)%nat;
  task : D → gmap Z Z;
  pending : D → list Z;
  status_busy d n : busy d = S n → let '(v, d') := port_in 0x1F7 d in
    Z.land (u8 v) 0xC0 ≠ 0x40 ∧ busy d' = n ∧ pending d' = pending d;
  status_ready d : busy d = O → let '(v, d') := port_in 0x1F7 d in
    Z.land (u8 v) 0xC0 = 0x40 ∧ busy d' = O ∧ pending d' = pending d;
  register_write d p v : 0x1F2 ≤ p ≤ 0x1F6 → 0 ≤ v < 256 → task (port_out p v d) = <[p := v]> (task d);
  read_command d : task d !!! 0x1F2 = 1 → Z.land (task d !!! 0x1F6) 0xF0 = 0xE0 →
    pending (port_out 0x1F7 0x20 d) =
      sector (task d !!! 0x1F3 + task d !!! 0x1F4 * 2 ^ 8 + task d !!! 0x1F5 * 2 ^ 16 +
              Z.land (task d !!! 0x1F6) 0xF * 2 ^ 24) <$> seqZ 0 128;
  data_read d w ws : busy d = O → pending d = w :: ws → let '(v, d') := port_in 0x1F0 d in
    v = w ∧ busy d' = O ∧ pending d' = ws;
}.

Section Loads.
Context {D : Type} `{PD : Ports D, ID : !IdeDrive D}.
Notation st := (BState D).

(** The bytes of the disk. *)
Definition image (n : Z) : Z := u8 (sector (n / SECTSIZE) (n `mod` SECTSIZE / 4) / 2 ^ (8 * (n `mod` 4))).

Context (fuel : nat) (Hfuel : (latency < fuel)%nat).

Lemma waitdisk_spec (s : st) :
  ∃ d, waitdisk fuel s = Ret tt (MkBState d (bmem s)) ∧ busy d = O ∧ pending d = pending (bdev s).
Proof using Hfuel.
  unfold waitdisk. pose proof (busy_bound (bdev s)) as Hb.
  destruct (mloop_total (λ _ s', bmem s' = bmem s ∧ pending (bdev s') = pending (bdev s))
    (λ _ s', bmem s' = bmem s ∧ busy (bdev s') = O ∧ pending (bdev s') = pending (bdev s))
    (λ _ s', busy (bdev s'))
    (λ _, v ← bin 0x1F7; if negb (Z.land (u8 v) 0xC0 =? 0x40) then mret (inl tt) else mret (inr tt))
    fuel tt s) as ([] & [d m] & Hr & Hm & Hb' & Hp); [|done|lia|].
  - intros [] [d m] [Hm Hp]. cbn in Hm, Hp. unfold bin, mbind, M_bind. cbn.
    destruct (busy d) as [|n] eqn:Hbd.
    + pose proof (status_ready d Hbd) as Hs. destruct (port_in 0x1F7 d) as [v d'].
      destruct Hs as (Hv & Hb1 & Hp1). right. rewrite Hv. cbn. exists tt, (MkBState d' m).
      cbn. by rewrite Hp1.
    + pose proof (status_busy d n Hbd) as Hs. destruct (port_in 0x1F7 d) as [v d'].
      destruct Hs as (Hv & Hb1 & Hp1). left. rewrite (proj2 (Z.eqb_neq _ _) Hv). cbn.
      exists tt, (MkBState d' m). cbn. rewrite Hp1. split_and!; (done || lia).
  - cbn in *. subst m. exists d. done.
Qed.

(** Writing a word puts down its four bytes. *)
Definition byte (w k : Z) : Z := u8 (w / 2 ^ (8 * k)).
Lemma bstore32_spec (s : st) a w :
  ∃ m, bstore32 a w s = Ret tt (MkBState (bdev s) m) ∧
    ∀ b, m !!! b = if decide (a ≤ b < a + 4) then byte w (b - a) else bmem s !!! b.
Proof.
  eexists. split; [done|]. intros b. cbn. unfold byte. destruct (decide (a ≤ b < a + 4)) as [Hin|Hout].
  - destruct (decide (b = a + 3)) as [->|]; [rewrite array_get_set_eq; by replace (a + 3 - a) with 3 by lia|].
    rewrite array_get_set_ne by lia.
    destruct (decide (b = a + 2)) as [->|]; [rewrite array_get_set_eq; by replace (a + 2 - a) with 2 by lia|].
    rewrite array_get_set_ne by lia.
    destruct (decide (b = a + 1)) as [->|]; [rewrite array_get_set_eq; by replace (a + 1 - a) with 1 by lia|].
    rewrite array_get_set_ne by lia. assert (b = a) as -> by lia.
    rewrite array_get_set_eq, Z.sub_diag. cbn. by rewrite Z.div_1_r.
  - by rewrite !array_get_set_ne by lia.
Qed.

Lemma loader_insl_spec (s : st) a n ws :
  0 ≤ n → busy (bdev s) = O → pending (bdev s) = ws → Z.of_nat (length ws) = n →
  ∃ d m, insl 0x1F0 a n s = Ret tt (MkBState d m) ∧
    ∀ b, m !!! b = if decide (a ≤ b < a + 4 * n) then byte (ws !!! Z.to_nat ((b - a) / 4)) ((b - a) `mod` 4)
                   else bmem s !!! b.
Proof.
  intros Hn Hb Hp Hlen. unfold insl.
  destruct (forM_seqZ (λ i s', busy (bdev s') = O ∧ pending (bdev s') = drop (Z.to_nat i) ws ∧
     ∀ b, bmem s' !!! b = if decide (a ≤ b < a + 4 * i) then byte (ws !!! Z.to_nat ((b - a) / 4)) ((b - a) `mod` 4)
                   else bmem s !!! b)
    (λ i, v ← bin 0x1F0; bstore32 (a + 4 * i) v) 0 n s) as ([d m] & Hr & _ & _ & Hm); [done| | |by exists d, m].
  - split_and!; [done|by rewrite drop_0|]. intros b. rewrite decide_False by lia. done.
  - intros i [d m] Hi (Hb1 & Hp1 & Hm1). cbn in Hb1, Hp1, Hm1.
    destruct (lookup_lt_is_Some_2 ws (Z.to_nat i)) as [w Hw]; [lia|].
    rewrite (drop_S _ w) in Hp1 by done. rewrite Z.add_0_l.
    unfold bin, mbind, M_bind. cbn [bdev bmem].
    pose proof (data_read d w _ Hb1 Hp1) as Hd. destruct (port_in 0x1F0 d) as [v d']. destruct Hd as (-> & Hb2 & Hp2).
    destruct (bstore32_spec (MkBState d' m) (a + 4 * i) w) as (m2 & Hs2 & Hm2).
    exists (MkBState d' m2). split; [exact Hs2|]. cbn. split_and!; [done|by replace (Z.to_nat (i + 1)) with (S (Z.to_nat i)) by lia|].
    intros b. rewrite Hm2. cbn. rewrite Hm1.
    destruct (decide (a + 4 * i ≤ b < a + 4 * i + 4)) as [Hin|Hout].
    + rewrite decide_True by lia. replace ((b - a) / 4) with i by zdiv.
      rewrite (list_lookup_total_correct _ _ _ Hw). f_equal. zdiv.
    + destruct (decide (a ≤ b < a + 4 * i)); [by rewrite decide_True by lia|by rewrite decide_False by lia].
Qed.

(** The drive register of a 28-bit sector number. *)
Lemma device_register x :
  0 ≤ x < 16 → let r := u8 (Z.lor x 0xE0) in 0 ≤ r < 256 ∧ Z.land r 0xF0 = 0xE0 ∧ Z.land r 0xF = x.
Proof.
  intros Hx. assert (x ∈ seqZ 0 16) as Hin by (apply elem_of_seqZ; lia). clear Hx. revert x Hin.
  apply Forall_forall. repeat (apply Forall_cons; split; [by vm_compute|]). constructor.
Qed.
Lemma lba_bytes n :
  0 ≤ n < 2 ^ 28 →
  u8 n + u8 (Z.shiftr n 8) * 2 ^ 8 + u8 (Z.shiftr n 16) * 2 ^ 16 + Z.shiftr n 24 * 2 ^ 24 = n.
Proof. intros Hn. rewrite !Z.shiftr_div_pow2 by done. unfold u8. zdiv. Qed.

Lemma image_byte off k : 0 ≤ k < SECTSIZE →
  image (off * SECTSIZE + k) = byte (sector off (k / 4)) (k `mod` 4).
Proof.
  unfold SECTSIZE. intros Hk. unfold image, byte, SECTSIZE.
  replace ((off * 512 + k) / 512) with off by zdiv. replace ((off * 512 + k) `mod` 512) with k by zdiv.
  by replace ((off * 512 + k) `mod` 4) with (k `mod` 4) by zdiv.
Qed.

Lemma readsect_spec (s : st) dst off :
  0 ≤ off < 2 ^ 28 →
  ∃ d m, readsect fuel dst off s = Ret tt (MkBState d m) ∧
    ∀ b, m !!! b = if decide (dst ≤ b < dst + SECTSIZE) then image (off * SECTSIZE + (b - dst)) else bmem s !!! b.
Proof using Hfuel.
  intros Hoff. unfold readsect. destruct (waitdisk_spec s) as (d0 & Hw0 & _ & _). mstep Hw0.
  unfold bout. rewrite !bind_modify. cbn [bdev bmem].
  assert (0 ≤ Z.shiftr off 24 < 16) as Hx by (rewrite Z.shiftr_div_pow2 by done; zdiv).
  destruct (device_register _ Hx) as (Hr & Hr1 & Hr2).
  set (r := u8 (Z.lor (Z.shiftr off 24) 0xE0)) in *.
  set (d5 := port_out 0x1F6 r _).
  assert (pending (port_out 0x1F7 0x20 d5) = sector off <$> seqZ 0 128) as Hpend.
  { assert (task d5 = <[0x1F6 := r]> (<[0x1F5 := u8 (Z.shiftr off 16)]> (<[0x1F4 := u8 (Z.shiftr off 8)]>
      (<[0x1F3 := u8 off]> (<[0x1F2 := 1]> (task d0)))))) as Ht.
    { unfold d5. rewrite !register_write; try done; apply u8_range || lia. }
    assert (task d5 !!! 0x1F2 = 1 ∧ task d5 !!! 0x1F3 = u8 off ∧ task d5 !!! 0x1F4 = u8 (Z.shiftr off 8) ∧
      task d5 !!! 0x1F5 = u8 (Z.shiftr off 16) ∧ task d5 !!! 0x1F6 = r) as (H2 & H3 & H4 & H5 & H6).
    { rewrite Ht. split_and!; repeat rewrite array_get_set_ne by done; apply array_get_set_eq. }
    rewrite read_command by (rewrite ?H2, ?H6; done). by rewrite H3, H4, H5, H6, Hr2, lba_bytes. }
  destruct (waitdisk_spec (MkBState (port_out 0x1F7 0x20 d5) (bmem s))) as (d6 & Hw6 & Hb6 & Hp6). mstep Hw6.
  cbn [bmem bdev] in *. rewrite Hpend in Hp6. change (SECTSIZE / 4) with 128.
  destruct (loader_insl_spec (MkBState d6 (bmem s)) dst 128 _ ltac:(lia) Hb6 Hp6) as (d & m & Hi & Hm);
    [by rewrite length_fmap, length_seqZ|].
  exists d, m. split; [exact Hi|]. intros b. rewrite Hm. change (4 * 128) with SECTSIZE.
  destruct (decide (dst ≤ b < dst + SECTSIZE)) as [Hb|Hb]; [|done].
  rewrite image_byte by (unfold SECTSIZE in *; lia). f_equal.
  apply list_lookup_total_correct. rewrite list_lookup_fmap, fmap_Some. exists ((b - dst) / 4). split; [|done].
  unfold SECTSIZE in *. apply lookup_seqZ. zdiv.
Qed.

(** The sectors a segment covers in memory: from the first one, [seg_start], [seg_sectors] many. *)
Definition seg_address (va : Z) : Z := va `mod` 2 ^ 24.
Definition seg_start (va : Z) : Z := seg_address va / SECTSIZE * SECTSIZE.
Definition seg_sectors (va count : Z) : Z :=
  (seg_address va + count - seg_start va + (SECTSIZE - 1)) / SECTSIZE.
Definition seg_extent (va count b : Z) : bool :=
  (seg_start va <=? b) && (b <? seg_start va + seg_sectors va count * SECTSIZE).

Lemma readseg_spec (s : st) va count off :
  0 ≤ count < 2 ^ 31 → is_u32 off →
  ∃ d m, readseg fuel va count off s = Ret tt (MkBState d m) ∧
    ∀ b, m !!! b = if seg_extent va count b
                   then image ((off / SECTSIZE + 1) * SECTSIZE + (b - seg_start va)) else bmem s !!! b.
Proof using Hfuel.
  intros Hc Ho. unfold readseg, seg_extent. change 0xFFFFFF with (Z.ones 24). rewrite land_low by done.
  fold (seg_address va). assert (0 ≤ seg_address va < 2 ^ 24) as Ha by (apply Z.mod_pos_bound; lia).
  change (SECTSIZE - 1) with (Z.ones 9). rewrite land_not_low by (unfold is_u32; lia). change (2 ^ 9) with SECTSIZE.
  fold (seg_start va). set (a := seg_address va) in *. set (lo := seg_start va).
  assert (lo ≤ a < lo + SECTSIZE ∧ 0 ≤ lo) as Hlo by (unfold lo, seg_start, SECTSIZE; fold a; zdiv).
  assert (u32 (a + count) = a + count) as -> by (apply u32_small; unfold is_u32; lia).
  set (o := off / SECTSIZE + 1). assert (1 ≤ o ≤ 2 ^ 23) as Hob by (unfold o, is_u32, SECTSIZE in *; zdiv).
  assert (u32 o = o) as -> by (apply u32_small; unfold is_u32; lia).
  assert (lo + (seg_sectors va count - 1) * SECTSIZE < a + count ≤ lo + seg_sectors va count * SECTSIZE ∧
          0 ≤ seg_sectors va count) as Hn by (unfold seg_sectors; fold a lo; unfold SECTSIZE in *; zdiv).
  set (n := seg_sectors va count) in *. clearbody n lo a o.
  destruct (mloop_total
    (λ '(va, off) s', ∃ k, 0 ≤ k ≤ n ∧ va = lo + k * SECTSIZE ∧ off = o + k ∧
       ∀ b, bmem s' !!! b = if decide (lo ≤ b < lo + k * SECTSIZE) then image (o * SECTSIZE + (b - lo)) else bmem s !!! b)
    (λ _ s', ∀ b, bmem s' !!! b = if decide (lo ≤ b < lo + n * SECTSIZE) then image (o * SECTSIZE + (b - lo))
                                  else bmem s !!! b)
    (λ '(va, _) _, Z.to_nat ((a + count - va + (SECTSIZE - 1)) / SECTSIZE))
    (λ '(va, offset), if negb (va <? a + count) then mret (inr tt) else
       readsect fuel va offset;; mret (inl (u32 (va + SECTSIZE), u32 (offset + 1))))
    (Z.to_nat ((a + count) / SECTSIZE + 2)) (lo, o) s) as ([] & [d m] & Hr & Hm);
    [| | |exists d, m; split; [done|]; intros b; rewrite Hm; destruct (Z.leb_spec lo b), (Z.ltb_spec b (lo + n * SECTSIZE)); cbn [andb];
          [by rewrite decide_True by lia|by rewrite decide_False by lia..]].
  - intros [va1 off1] s1 (k & Hk & -> & -> & Hm). destruct (Z.ltb_spec (lo + k * SECTSIZE) (a + count)) as [Hlt|Hge]; cbn [negb].
    + left. assert (k < n) by (unfold SECTSIZE in *; lia).
      destruct (readsect_spec s1 (lo + k * SECTSIZE) (o + k)) as (d & m & Hs & Hm2); [unfold SECTSIZE in *; lia|].
      exists (lo + (k + 1) * SECTSIZE, o + (k + 1)), (MkBState d m). mstep Hs. split_and!.
      * unfold mret, M_ret. unfold SECTSIZE in *. rewrite !u32_small by (unfold is_u32; lia). do 3 f_equal; lia.
      * exists (k + 1). split_and!; [lia..|done|done|]. cbn. intros b. rewrite Hm2, Hm.
        destruct (decide (lo + k * SECTSIZE ≤ b < lo + k * SECTSIZE + SECTSIZE)) as [Hin|Hout].
        -- rewrite decide_True by (unfold SECTSIZE in *; lia). f_equal. unfold SECTSIZE in *. lia.
        -- destruct (decide (lo ≤ b < lo + k * SECTSIZE));
             [by rewrite decide_True by (unfold SECTSIZE in *; lia)|by rewrite decide_False by (unfold SECTSIZE in *; lia)].
      * unfold SECTSIZE in *. zdiv.
    + right. exists tt, s1. split; [done|]. assert (k = n) as -> by (unfold SECTSIZE in *; lia). done.
  - exists 0. split_and!; [lia..| |]; [lia|]. intros b. by rewrite decide_False by lia.
  - unfold SECTSIZE in *. zdiv.
Qed.

(** ** The kernel's image *)
(** The kernel starts at the second sector of the disk. *)
Definition kernel_byte (n : Z) : Z := image (SECTSIZE + n).
Definition kernel_half (n : Z) : Z := kernel_byte n + kernel_byte (n + 1) * 2 ^ 8.
Definition kernel_word (n : Z) : Z := kernel_half n + kernel_half (n + 2) * 2 ^ 16.

Definition phoff : Z := kernel_word 28.
Definition phnum : Z := kernel_half 44.
Definition p_offset (i : Z) : Z := kernel_word (phoff + 32 * i + 4).
Definition p_va (i : Z) : Z := kernel_word (phoff + 32 * i + 8).
Definition p_memsz (i : Z) : Z := kernel_word (phoff + 32 * i + 20).

(** What the loader presumes of the image: the program headers are in its first page; a segment
    lies at the same place within a sector in memory and on the disk; no segment covers the page
    the ELF header is read to, or a segment loaded before it. *)
Record loadable : Prop := {
  ld_magic : kernel_word 0 = BOOT_ELF_MAGIC;
  ld_headers : 0 ≤ phoff ∧ phoff + 32 * phnum ≤ 4096;
  ld_size i : 0 ≤ i < phnum → p_memsz i < 2 ^ 31;
  ld_aligned i : 0 ≤ i < phnum → seg_address (p_va i) `mod` SECTSIZE = p_offset i `mod` SECTSIZE;
  ld_header_apart i b : 0 ≤ i < phnum → ELFHDR ≤ b < ELFHDR + 4096 → seg_extent (p_va i) (p_memsz i) b = false;
  ld_apart i j k : 0 ≤ i < j → j < phnum → 0 ≤ k < p_memsz i →
    seg_extent (p_va j) (p_memsz j) (seg_address (p_va i) + k) = false;
}.

Lemma image_range n : 0 ≤ image n < 256.
Proof. apply u8_range. Qed.
Lemma kernel_word_range n : is_u32 (kernel_word n).
Proof using.
  clear Hfuel fuel.
  unfold kernel_word, kernel_half, kernel_byte, is_u32.
  pose proof (image_range (SECTSIZE + n)). pose proof (image_range (SECTSIZE + (n + 1))).
  pose proof (image_range (SECTSIZE + (n + 2))). pose proof (image_range (SECTSIZE + (n + 2 + 1))). lia.
Qed.

Lemma bind_bload32 {A} a (f : Z → M st A) s : (bload32 a ≫= f) s = f (word_of (bmem s) a) s.
Proof. done. Qed.
Lemma bind_bload16 {A} a (f : Z → M st A) s : (bload16 a ≫= f) s = f (half_of (bmem s) a) s.
Proof. done. Qed.

(** The first page of the kernel is in memory. *)
Definition header_loaded (s : st) : Prop := ∀ k, 0 ≤ k < 4096 → bmem s !!! (ELFHDR + k) = kernel_byte k.
Lemma header_half s p : header_loaded s → 0 ≤ p ≤ 4094 → half_of (bmem s) (ELFHDR + p) = kernel_half p.
Proof using.
  clear Hfuel fuel.
  intros Hh Hp. unfold half_of, bbyte, kernel_half. rewrite <-Z.add_assoc, !Hh by lia. done.
Qed.
Lemma header_word s p : header_loaded s → 0 ≤ p ≤ 4092 → word_of (bmem s) (ELFHDR + p) = kernel_word p.
Proof using.
  clear Hfuel fuel.
  intros Hh Hp. unfold word_of, kernel_word. by rewrite <-Z.add_assoc, !header_half by (done || lia).
Qed.

Definition segment_loaded (s : st) (i : Z) : Prop :=
  ∀ k, 0 ≤ k < p_memsz i → bmem s !!! (seg_address (p_va i) + k) = kernel_byte (p_offset i + k).

Lemma load_header (s : st) : ∃ s', readseg fuel ELFHDR (SECTSIZE * 8) 0 s = Ret tt s' ∧ header_loaded s'.
Proof using Hfuel.
  destruct (readseg_spec s ELFHDR (SECTSIZE * 8) 0) as (d & m & Hr & Hm); [done|done|].
  eexists. split; [exact Hr|]. intros k Hk. cbn. rewrite Hm. unfold seg_extent.
  change (seg_start ELFHDR) with ELFHDR. change (seg_sectors ELFHDR (SECTSIZE * 8)) with 8.
  rewrite (proj2 (Z.leb_le _ _)), (proj2 (Z.ltb_lt _ _)) by (unfold SECTSIZE; lia). cbn [andb].
  unfold kernel_byte. f_equal. change (0 / SECTSIZE) with 0. unfold SECTSIZE. lia.
Qed.

Lemma load_segment (s : st) i :
  loadable → 0 ≤ i < phnum → header_loaded s → (∀ j, 0 ≤ j < i → segment_loaded s j) →
  ∃ s', readseg fuel (p_va i) (p_memsz i) (p_offset i) s = Ret tt s' ∧ header_loaded s' ∧
    ∀ j, 0 ≤ j < i + 1 → segment_loaded s' j.
Proof using Hfuel.
  intros Hl Hi Hh Hs. destruct (readseg_spec s (p_va i) (p_memsz i) (p_offset i)) as (d & m & Hr & Hm).
  { split; [apply kernel_word_range|by apply ld_size]. }
  { apply kernel_word_range. }
  eexists. split; [exact Hr|]. split.
  - intros k Hk. cbn. rewrite Hm, (ld_header_apart Hl) by (done || lia). by apply Hh.
  - intros j Hj k Hk. cbn. rewrite Hm. destruct (decide (j = i)) as [->|].
    + pose proof (ld_aligned Hl i Hi) as Hal. set (a := seg_address (p_va i)) in *.
      assert (seg_extent (p_va i) (p_memsz i) (a + k) = true) as ->.
      { apply andb_true_iff. split; [apply Z.leb_le|apply Z.ltb_lt];
          unfold seg_sectors, seg_start; fold a; unfold SECTSIZE in *; zdiv. }
      unfold kernel_byte. f_equal. unfold seg_start. fold a. unfold SECTSIZE in *. zdiv.
    + rewrite (ld_apart Hl j i k) by (done || lia). by apply Hs; [lia|].
Qed.
End Loads.

(** ** Properties *)

(** C35: from a drive that holds a loadable kernel image from its second sector on, cmain reads
    every segment of the program header table to its physical address (the low 24 bits of its
    virtual address), byte for byte, and jumps to the entry point's low 24 bits; on an image
    without the ELF magic number it never returns.  The polling loops end because the drive is
    busy for a bounded number of polls. *)
Theorem cmain_loads_kernel {D} `{PD : Ports D, ID : !IdeDrive D} (s : BState D) fuel :
  (latency < fuel)%nat →
  (kernel_word 0 ≠ BOOT_ELF_MAGIC → ∃ s', cmain fuel s = Leave None s') ∧
  (loadable → ∃ s', cmain fuel s = Leave (Some (kernel_word 24 `mod` 2 ^ 24)) s' ∧
     ∀ i, 0 ≤ i < phnum → segment_loaded s' i).
Proof.
  intros Hfuel. destruct (load_header fuel Hfuel s) as (s1 & Hs1 & Hh).
  unfold cmain. rewrite (bind_Ret _ _ _ _ _ Hs1). rewrite bind_bload32.
  change (word_of (bmem s1) ELFHDR) with (word_of (bmem s1) (ELFHDR + 0)).
  rewrite (header_word s1 0 Hh) by lia. split.
  - intros Hm. rewrite (proj2 (Z.eqb_neq _ _) Hm). cbn [negb]. unfold bout. rewrite !bind_modify. by eexists.
  - intros Hl. rewrite (ld_magic Hl), Z.eqb_refl. cbn [negb]. rewrite bind_bload32.
    rewrite header_word by (done || lia). fold phoff. rewrite bind_bload16.
    rewrite header_half by (done || lia). fold phnum.
    destruct (ld_headers Hl) as [Hp0 Hp1].
    assert (0 ≤ phnum) as Hn.
    { unfold phnum, kernel_half, kernel_byte. pose proof (image_range (SECTSIZE + 44)).
      pose proof (image_range (SECTSIZE + (44 + 1))). lia. }
    assert (u32 (ELFHDR + phoff) = ELFHDR + phoff) as -> by (apply u32_small; unfold is_u32, ELFHDR; lia).
    match goal with |- context [forM _ ?f] => set (body := f) end.
    destruct (forM_seqZ (λ i s', header_loaded s' ∧ ∀ j, 0 ≤ j < i → segment_loaded s' j) body 0 phnum s1)
      as (s2 & Hs2 & Hh2 & Hseg); [done|split; [done|intros; lia]| |].
    { intros i s3 Hi [Hh3 Hs3]. rewrite Z.add_0_l. subst body. cbn beta.
      rewrite !bind_bload32, <-!Z.add_assoc, !header_word by (done || lia).
      rewrite !Z.add_assoc. by apply load_segment. }
    rewrite (bind_Ret _ _ _ _ _ Hs2). rewrite bind_bload32, header_word by (done || lia).
    change 0xFFFFFF with (Z.ones 24). rewrite land_low by done. exists s2. done.
Qed.

(** ** Witnesses *)
(** A drive that is busy for at most two polls; its second sector holds an ELF header with one
    segment, of 600 bytes at offset 4096, for virtual address 0xF0100000. *)
Record drive := MkDrive { dr_busy : nat; dr_task : gmap Z Z; dr_pending : list Z }.
Definition elf_sector (i : Z) : Z :=
  if i =? 0 then BOOT_ELF_MAGIC else if i =? 6 then 0xF0100000 else if i =? 7 then 52 else if i =? 11 then 1
  else if i =? 14 then 4096 else if i =? 15 then 0xF0100000 else if i =? 18 then 600 else 0.
Definition drive_sector (n i : Z) : Z := if n =? 1 then elf_sector i else u32 (n * 128 + i).
Definition drive_lba (t : gmap Z Z) : Z :=
  t !!! 0x1F3 + t !!! 0x1F4 * 2 ^ 8 + t !!! 0x1F5 * 2 ^ 16 + Z.land (t !!! 0x1F6) 0xF * 2 ^ 24.
#[export] Instance drive_ports : Ports drive := {|
  port_in p d :=
    if p =? 0x1F7 then
      match Nat.min (dr_busy d) 2 with
      | O => (0x40, MkDrive O (dr_task d) (dr_pending d))
      | S n => (0x80, MkDrive n (dr_task d) (dr_pending d))
      end
    else match dr_pending d with [] => (0, d) | w :: ws => (w, MkDrive (dr_busy d) (dr_task d) ws) end;
  port_out p v d :=
    if p =? 0x1F7 then MkDrive 2 (dr_task d) (drive_sector (drive_lba (dr_task d)) <$> seqZ 0 128)
    else MkDrive (dr_busy d) (<[p := v]> (dr_task d)) (dr_pending d);
|}.
Lemma drive_sector_word n i : is_u32 (drive_sector n i).
Proof.
  unfold drive_sector, elf_sector. repeat (destruct (_ =? _); [by unfold is_u32|]).
  destruct (n =? 1); [|apply u32_range]. repeat (destruct (_ =? _); [by unfold is_u32|]). by unfold is_u32.
Qed.
#[export, refine] Instance drive_ide : IdeDrive drive := {|
  sector := drive_sector; busy d := Nat.min (dr_busy d) 2; latency := 2%nat;
  task := dr_task; pending := dr_pending;
|}.
Proof.
  - apply drive_sector_word.
  - intros d. lia.
  - intros d n Hb. cbn. rewrite Hb. cbn. split_and!; [done| |done]. lia.
  - intros d Hb. cbn. rewrite Hb. done.
  - intros d p v Hp _. cbn. by rewrite (proj2 (Z.eqb_neq _ _)) by lia.
  - done.
  - intros d w ws Hb Hp. cbn. by rewrite Hp.
Defined.

Lemma drive_loadable : loadable.
Proof.
  assert (phnum = 1) as Hn by (vm_compute; reflexivity).
  split.
  - vm_compute. reflexivity.
  - vm_compute. split; intros Hc; discriminate Hc.
  - rewrite Hn. intros i Hi. assert (i = 0) as -> by lia. vm_compute. reflexivity.
  - rewrite Hn. intros i Hi. assert (i = 0) as -> by lia. vm_compute. reflexivity.
  - rewrite Hn. intros i b Hi Hb. assert (i = 0) as -> by lia. unfold seg_extent.
    assert (seg_start (p_va 0) = 0x100000) as -> by (vm_compute; reflexivity).
    rewrite (proj2 (Z.leb_gt _ _)); [done|]. unfold ELFHDR in Hb. lia.
  - rewrite Hn. lia.
Qed.

Lemma cmain_loads_kernel_witness :
  ∃ s', cmain 3 (MkBState (MkDrive 0 ∅ []) ∅) = Leave (Some 0x100000) s' ∧
    bmem s' !!! (0x100000 + 599) = kernel_byte (4096 + 599).
Proof.
  assert (phnum = 1) as Hn by (vm_compute; reflexivity).
  assert (seg_address (p_va 0) = 0x100000) as Ha by (vm_compute; reflexivity).
  assert (p_memsz 0 = 600) as Hs by (vm_compute; reflexivity).
  assert (p_offset 0 = 4096) as Ho by (vm_compute; reflexivity).
  assert (kernel_word 24 `mod` 2 ^ 24 = 0x100000) as He by (vm_compute; reflexivity).
  destruct (@cmain_loads_kernel drive drive_ports drive_ide (MkBState (MkDrive 0 ∅ []) ∅) 3 (Nat.lt_succ_diag_r 2)) as [_ Hload].
  destruct (Hload drive_loadable) as (s' & Hc & Hseg). rewrite He in Hc. exists s'. split; [exact Hc|].
  assert (0 ≤ 0 < phnum) as H0 by (rewrite Hn; lia).
  pose proof (Hseg 0 H0 599) as Hb. rewrite Ha, Ho, Hs in Hb. apply Hb. lia.
Defined.
