(* ===== verification/Sorting.v ===== *)
(** * Sorting programs: user/quicksort.c and user/mergesort_noleakage.c

    The functions the programs sort with, and fill and check the array with.  [Elements] is a list
    of the numbers in it; an access outside it is undefined behaviour.  Recursion takes a depth. *)
From S2P Require Import Prelude Machine.

(** The array; [int] values are integers. *)
Notation Arr := (M (list Z)).
Definition elem (i : Z) : Arr Z := λ xs,
  if i <? 0 then Crash (Undefined "index") xs else
  match xs !! Z.to_nat i with Some x => Ret x xs | None => Crash (Undefined "index") xs end.
Definition set_elem (i v : Z) : Arr unit := λ xs,
  if (i <? 0) || (Z.of_nat (length xs) <=? i) then Crash (Undefined "index") xs
  else Ret tt (<[Z.to_nat i := v]> xs).

(** ** Quick sort *)
Definition Swap (First Second : Z) : Arr unit :=
  Tmp ← elem First;
  y ← elem Second;
  set_elem First y;;
  set_elem Second Tmp.

(** The two inner loops; the bound is the length of the range. *)
Definition scan_up (startIndex finalIndex i : Z) : Arr Z :=
  mloop (Z.to_nat (finalIndex - startIndex + 2)) (λ i,
    if negb (i <=? finalIndex) then mret (inr i) else
    x ← elem startIndex; y ← elem i;
    if y <=? x then mret (inl (i + 1)) else mret (inr i)) i.
Definition scan_down (startIndex finalIndex j : Z) : Arr Z :=
  mloop (Z.to_nat (finalIndex - startIndex + 2)) (λ j,
    if negb (startIndex <? j) then mret (inr j) else
    x ← elem startIndex; y ← elem j;
    if x <=? y then mret (inl (j - 1)) else mret (inr j)) j.
(** [while (i <= j)]: the final [i] and [j]. *)
Definition partition (startIndex finalIndex : Z) : Arr (Z * Z) :=
  mloop (Z.to_nat (2 * (finalIndex - startIndex) + 4)) (λ '(i, j),
    if negb (i <=? j) then mret (inr (i, j)) else
    i ← scan_up startIndex finalIndex i;
    j ← scan_down startIndex finalIndex j;
    when (i <=? j) (Swap i j);;
    mret (inl (i, j))) (startIndex + 1, finalIndex).

Fixpoint QSort (fuel : nat) (startIndex finalIndex : Z) : Arr unit :=
  if finalIndex <=? startIndex then mret tt else
  match fuel with
  | O => λ _, OutOfFuel
  | Datatypes.S fuel =>
      '(i, j) ← partition startIndex finalIndex;
      Swap startIndex j;;
      QSort fuel startIndex (j - 1);;
      QSort fuel i finalIndex
  end.
Definition QuickSort (NumOfElements : Z) : Arr unit := QSort (Z.to_nat NumOfElements) 0 (NumOfElements - 1).

Definition CheckSorted (NumOfElements : Z) : Arr Z :=
  mloop (Z.to_nat NumOfElements + 1) (λ i,
    if negb (i <? NumOfElements - 1) then mret (inr 1) else
    x ← elem i; y ← elem (i + 1);
    if y <? x then mret (inr 0) else mret (inl (i + 1))) 0.

(** ** Filling the array *)
Definition InitializeAscending (NumOfElements : Z) : Arr unit :=
  forM (seqZ 0 NumOfElements) (λ i, set_elem i i).
Definition InitializeDescending (NumOfElements : Z) : Arr unit :=
  forM (seqZ 0 NumOfElements) (λ i, set_elem i (NumOfElements - i - 1)).
(** With fewer than three elements [Repetition] is 0 and [i % Repetition] divides by it. *)
Definition InitializeSemiRandom (NumOfElements : Z) : Arr unit :=
  let Repetition := NumOfElements `quot` 3 in
  forM (seqZ 0 NumOfElements) (λ i,
    if Repetition =? 0 then undefined "division by zero" else set_elem i (i `rem` Repetition)).

(** ** Merge sort, on positions from 1 *)
(** [for (i = 0; i < n; i++) Left[i] = A[first + i]] of a new array. *)
Definition copy_from (first n : Z) : Arr (list Z) :=
  '(_, copied) ← mloop (Z.to_nat n + 1) (λ '(i, copied),
    if negb (i <? n) then mret (inr (i, copied)) else
    x ← elem (first + i); mret (inl (i + 1, copied ++ [x]))) (0, []);
  mret copied.

(** [Left[i]] and [Right[i]]. *)
Definition copied (copy : list Z) (i : Z) : Arr Z :=
  match copy !! Z.to_nat i with Some x => mret x | None => undefined "index" end.

(** [A[k - 1] = Left[leftIndex++]], or the same of [Right]; and the next [k]. *)
Definition take_left (Left : list Z) (k leftIndex rightIndex : Z) : Arr (Z * Z * Z) :=
  x ← copied Left leftIndex; set_elem (k - 1) x;; mret (k + 1, leftIndex + 1, rightIndex).
Definition take_right (Right : list Z) (k leftIndex rightIndex : Z) : Arr (Z * Z * Z) :=
  x ← copied Right rightIndex; set_elem (k - 1) x;; mret (k + 1, leftIndex, rightIndex + 1).

Definition Merge (p q r : Z) : Arr unit :=
  let leftCapacity := q - p + 1 in
  let rightCapacity := r - q in
  Left ← copy_from (p - 1) leftCapacity;
  Right ← copy_from q rightCapacity;
  mloop (Z.to_nat (r - p + 2)) (λ '(k, leftIndex, rightIndex),
    if negb (k <=? r) then mret (inr tt) else
    next ←
      (if (leftIndex <? leftCapacity) && (rightIndex <? rightCapacity) then
         left ← copied Left leftIndex; right ← copied Right rightIndex;
         if left <? right then take_left Left k leftIndex rightIndex
         else take_right Right k leftIndex rightIndex
       else if leftIndex <? leftCapacity then take_left Left k leftIndex rightIndex
       else take_right Right k leftIndex rightIndex);
    mret (inl next)) (p, 0, 0).

Fixpoint MSort (fuel : nat) (p r : Z) : Arr unit :=
  if r <=? p then mret tt else
  match fuel with
  | O => λ _, OutOfFuel
  | Datatypes.S fuel =>
      let q := (p + r) `quot` 2 in
      MSort fuel p q;;
      MSort fuel (q + 1) r;;
      Merge p q r
  end.
