(* ===== verification/SortingSpec.v ===== *)
(** * Sorting: both programs sort

    [QuickSort] and [MSort] return, with a sorted permutation of the array, and [CheckSorted] then
    returns 1, which is what the programs test. *)
From S2P Require Import Prelude Machine Sorting.
From Stdlib Require Import Sorted.

(** The element at position [i]. *)
Notation at_ xs i := (xs !!! Z.to_nat i).
Definition sorted_on (s f : Z) (xs : list Z) : Prop := ∀ a b, s ≤ a ≤ b → b ≤ f → at_ xs a ≤ at_ xs b.

Lemma elem_at i (xs : list Z) : 0 ≤ i < Z.of_nat (length xs) → elem i xs = Ret (at_ xs i) xs.
Proof.
  intros Hi. unfold elem. rewrite (proj2 (Z.ltb_ge i 0)) by lia.
  destruct (lookup_lt_is_Some_2 xs (Z.to_nat i)) as [x Hx]; [lia|].
  by rewrite Hx, (list_lookup_total_correct _ _ _ Hx).
Qed.
Lemma set_elem_at i v (xs : list Z) :
  0 ≤ i < Z.of_nat (length xs) → set_elem i v xs = Ret tt (<[Z.to_nat i := v]> xs).
Proof.
  intros Hi. unfold set_elem.
  by rewrite (proj2 (Z.ltb_ge i 0)), (proj2 (Z.leb_gt _ i)) by lia.
Qed.

(** ** Arrays with two elements exchanged *)
Definition swapped (a b : Z) (xs : list Z) : list Z :=
  <[Z.to_nat b := at_ xs a]> (<[Z.to_nat a := at_ xs b]> xs).
Lemma swapped_length a b xs : length (swapped a b xs) = length xs.
Proof. unfold swapped. by rewrite !length_insert. Qed.
Lemma swapped_at a b xs k :
  0 ≤ a < Z.of_nat (length xs) → 0 ≤ b < Z.of_nat (length xs) → 0 ≤ k →
  at_ (swapped a b xs) k = if k =? b then at_ xs a else if k =? a then at_ xs b else at_ xs k.
Proof.
  intros Ha Hb Hk. unfold swapped. destruct (Z.eqb_spec k b) as [->|Hkb].
  - rewrite list_lookup_total_insert_eq; [done|]. rewrite length_insert. lia.
  - rewrite list_lookup_total_insert_ne by lia. destruct (Z.eqb_spec k a) as [->|Hka].
    + rewrite list_lookup_total_insert_eq; [done|lia].
    + by rewrite list_lookup_total_insert_ne by lia.
Qed.
Lemma swapped_perm a b xs :
  0 ≤ a < Z.of_nat (length xs) → 0 ≤ b < Z.of_nat (length xs) → swapped a b xs ≡ₚ xs.
Proof.
  intros Ha Hb. apply Permutation_inj. split; [apply swapped_length|].
  exists (λ k, if decide (k = Z.to_nat b) then Z.to_nat a else
               if decide (k = Z.to_nat a) then Z.to_nat b else k). split.
  - intros x y. repeat case_decide; lia.
  - intros k. destruct (decide (k < length xs)%nat) as [Hk|Hk].
    + rewrite (list_lookup_lookup_total_lt (swapped a b xs)) by (by rewrite swapped_length).
      rewrite <-(Nat2Z.id k), swapped_at by lia. rewrite !Nat2Z.id.
      destruct (Z.eqb_spec (Z.of_nat k) b), (Z.eqb_spec (Z.of_nat k) a);
        repeat case_decide; try lia; symmetry; apply list_lookup_lookup_total_lt; lia.
    + rewrite !lookup_ge_None_2; [done| |rewrite swapped_length; lia].
      repeat case_decide; lia.
Qed.
Lemma Swap_swapped a b (xs : list Z) :
  0 ≤ a < Z.of_nat (length xs) → 0 ≤ b < Z.of_nat (length xs) →
  Swap a b xs = Ret tt (swapped a b xs).
Proof.
  intros Ha Hb. unfold Swap. mstep (elem_at a xs Ha). mstep (elem_at b xs Hb).
  mstep (set_elem_at a (at_ xs b) xs Ha). rewrite set_elem_at; [done|]. by rewrite length_insert.
Qed.

(** ** Arrays rearranged between two positions *)
Record rearranged (s f : Z) (xs ys : list Z) : Prop := MkRearranged {
  r_perm : ys ≡ₚ xs;
  r_outside k : 0 ≤ k → k < s ∨ f < k → at_ ys k = at_ xs k;
  r_inside (P : Z → Prop) :
    (∀ k, s ≤ k ≤ f → P (at_ xs k)) → ∀ k, s ≤ k ≤ f → P (at_ ys k) }.
Lemma rearranged_refl s f xs : rearranged s f xs xs.
Proof. by split. Qed.
Lemma rearranged_trans s f xs ys zs :
  rearranged s f xs ys → rearranged s f ys zs → rearranged s f xs zs.
Proof.
  intros [p1 o1 i1] [p2 o2 i2]. split.
  - by rewrite p2.
  - intros k H0 Hk. by rewrite o2, o1.
  - intros P HP. by apply i2, i1.
Qed.
Lemma rearranged_length s f xs ys : rearranged s f xs ys → length ys = length xs.
Proof. intros [p _ _]. by apply Permutation_length. Qed.
Lemma rearranged_wider s f s' f' xs ys :
  0 ≤ s' → s' ≤ s → f ≤ f' → rearranged s f xs ys → rearranged s' f' xs ys.
Proof.
  intros H0 Hs Hf [p o i]. split; [done|intros k Hk Hout; apply o; lia|].
  intros P HP k Hk. destruct (decide (s ≤ k ≤ f)) as [Hin|Hin].
  - apply (i P); [|done]. intros k' Hk'. apply HP. lia.
  - rewrite o by lia. apply HP. lia.
Qed.
Lemma rearranged_swapped a b xs :
  0 ≤ a ≤ b → b < Z.of_nat (length xs) → rearranged a b xs (swapped a b xs).
Proof.
  intros Ha Hb. split.
  - apply swapped_perm; lia.
  - intros k H0 Hk. rewrite swapped_at by lia.
    rewrite !(proj2 (Z.eqb_neq _ _)) by lia. done.
  - intros P HP k Hk. rewrite swapped_at by lia. destruct (k =? b); [apply HP; lia|].
    destruct (k =? a); apply HP; lia.
Qed.

(** ** The loops of [QSort] *)
Section Partition.
Context (s f : Z) (Hs : 0 ≤ s) (Hsf : s < f).

Lemma scan_up_spec i (xs : list Z) :
  f < Z.of_nat (length xs) → s < i ≤ f + 1 →
  ∃ i', scan_up s f i xs = Ret i' xs ∧ i ≤ i' ≤ f + 1 ∧
        (∀ k, i ≤ k < i' → at_ xs k ≤ at_ xs s) ∧ (i' ≤ f → at_ xs s < at_ xs i').
Proof using Hs Hsf.
  intros Hlen Hi.
  destruct (mloop_total
    (λ i' xs', xs' = xs ∧ i ≤ i' ≤ f + 1 ∧ ∀ k, i ≤ k < i' → at_ xs k ≤ at_ xs s)
    (λ i' xs', xs' = xs ∧ (i ≤ i' ≤ f + 1 ∧ (∀ k, i ≤ k < i' → at_ xs k ≤ at_ xs s)) ∧
               (i' ≤ f → at_ xs s < at_ xs i'))
    (λ i' _, Z.to_nat (f + 1 - i'))
    (λ i, if negb (i <=? f) then mret (inr i) else
          x ← elem s; y ← elem i; if y <=? x then mret (inl (i + 1)) else mret (inr i))
    (Z.to_nat (f - s + 2)) i xs) as (i' & xs' & Hl & -> & [Hi' Hle] & Hgt).
  - intros i' xs' (-> & Hi' & Hle). destruct (Z.leb_spec i' f) as [Hf|Hf]; cbn [negb].
    2:{ right. eexists _, _. split; [done|]. split_and!; try done; lia. }
    rewrite (bind_Ret _ _ _ _ _ (elem_at s xs ltac:(lia))).
    rewrite (bind_Ret _ _ _ _ _ (elem_at i' xs ltac:(lia))).
    destruct (Z.leb_spec (at_ xs i') (at_ xs s)).
    + left. eexists _, _. split; [done|]. split_and!; try done; try lia.
      intros k Hk. destruct (decide (k = i')) as [->|]; [done|apply Hle; lia].
    + right. eexists _, _. split; [done|]. split_and!; try done; lia.
  - split_and!; try done; lia.
  - lia.
  - exists i'. by split.
Qed.

Lemma scan_down_spec j (xs : list Z) :
  f < Z.of_nat (length xs) → s ≤ j ≤ f →
  ∃ j', scan_down s f j xs = Ret j' xs ∧ s ≤ j' ≤ j ∧
        (∀ k, j' < k ≤ j → at_ xs s ≤ at_ xs k) ∧ (s < j' → at_ xs j' < at_ xs s).
Proof using Hs Hsf.
  intros Hlen Hj.
  destruct (mloop_total
    (λ j' xs', xs' = xs ∧ s ≤ j' ≤ j ∧ ∀ k, j' < k ≤ j → at_ xs s ≤ at_ xs k)
    (λ j' xs', xs' = xs ∧ (s ≤ j' ≤ j ∧ (∀ k, j' < k ≤ j → at_ xs s ≤ at_ xs k)) ∧
               (s < j' → at_ xs j' < at_ xs s))
    (λ j' _, Z.to_nat (j' - s))
    (λ j, if negb (s <? j) then mret (inr j) else
          x ← elem s; y ← elem j; if x <=? y then mret (inl (j - 1)) else mret (inr j))
    (Z.to_nat (f - s + 2)) j xs) as (j' & xs' & Hl & -> & [Hj' Hle] & Hgt).
  - intros j' xs' (-> & Hj' & Hle). destruct (Z.ltb_spec s j') as [Hf|Hf]; cbn [negb].
    2:{ right. eexists _, _. split; [done|]. split_and!; try done; lia. }
    rewrite (bind_Ret _ _ _ _ _ (elem_at s xs ltac:(lia))).
    rewrite (bind_Ret _ _ _ _ _ (elem_at j' xs ltac:(lia))).
    destruct (Z.leb_spec (at_ xs s) (at_ xs j')).
    + left. eexists _, _. split; [done|]. split_and!; try done; try lia.
      intros k Hk. destruct (decide (k = j')) as [->|]; [done|apply Hle; lia].
    + right. eexists _, _. split; [done|]. split_and!; try done; lia.
  - split_and!; try done; lia.
  - lia.
  - exists j'. by split.
Qed.

(** What holds of [i] and [j] between the iterations. *)
Record scanned (xs0 : list Z) (ij : Z * Z) (xs : list Z) : Prop := MkScanned {
  sc_rearranged : rearranged (s + 1) f xs0 xs;
  sc_i : s < ij.1 ≤ f + 1;
  sc_j : s ≤ ij.2 ≤ f;
  sc_below k : s < k < ij.1 → at_ xs k ≤ at_ xs s;
  sc_above k : ij.2 < k ≤ f → at_ xs s ≤ at_ xs k }.
(** Both scans stop at once only before the first exchange. *)
Definition partition_measure (ij : Z * Z) (xs : list Z) : nat :=
  Z.to_nat (2 * (ij.2 - ij.1 + 2) +
    if (at_ xs s <? at_ xs ij.1) && (at_ xs ij.2 <? at_ xs s) then 1 else 0).

Lemma scanned_exchange xs0 i j xs :
  f < Z.of_nat (length xs) → i < j → at_ xs s < at_ xs i → at_ xs j < at_ xs s →
  scanned xs0 (i, j) xs → scanned xs0 (i, j) (swapped i j xs).
Proof using Hs Hsf.
  intros Hlen Hij Hi Hj [Hr Hsi Hsj Hbelow Habove]; cbn in *.
  assert (Hat : ∀ k, s ≤ k → k ≠ i → k ≠ j → at_ (swapped i j xs) k = at_ xs k).
  { intros k Hk Hki Hkj. rewrite swapped_at by lia.
    by rewrite !(proj2 (Z.eqb_neq _ _)) by lia. }
  split; cbn; try done.
  - eapply rearranged_trans; [exact Hr|].
    apply (rearranged_wider i j); [lia..|]. apply rearranged_swapped; lia.
  - intros k Hk. rewrite (Hat s), (Hat k) by lia. apply Hbelow; lia.
  - intros k Hk. rewrite (Hat s), (Hat k) by lia. apply Habove; lia.
Qed.

Lemma partition_spec (xs : list Z) :
  f < Z.of_nat (length xs) →
  ∃ i j ys, partition s f xs = Ret (i, j) ys ∧ scanned xs (i, j) ys ∧ j < i.
Proof using Hs Hsf.
  intros Hlen0.
  destruct (mloop_total (scanned xs) (λ ij ys, scanned xs ij ys ∧ ij.2 < ij.1) partition_measure
    (λ '(i, j), if negb (i <=? j) then mret (inr (i, j)) else
       i ← scan_up s f i; j ← scan_down s f j; when (i <=? j) (Swap i j);; mret (inl (i, j)))
    (Z.to_nat (2 * (f - s) + 4)) (s + 1, f) xs) as ([i j] & ys & Hl & Hsc & Hij).
  - intros [i j] ys Hsc. pose proof Hsc as [Hr Hi Hj Hbelow Habove]; cbn in *.
    assert (Hlen : f < Z.of_nat (length ys)) by (by rewrite (rearranged_length _ _ _ _ Hr)).
    destruct (Z.leb_spec i j) as [Hij|Hij]; cbn [negb].
    2:{ right. eexists _, _. split; [done|]. split; [done|]. cbn; lia. }
    left.
    destruct (scan_up_spec i ys Hlen ltac:(lia)) as (i' & Hup & Hi' & Hle & Hgt).
    destruct (scan_down_spec j ys Hlen ltac:(lia)) as (j' & Hdown & Hj' & Hge & Hlt).
    mstep Hup. mstep Hdown.
    assert (Hsc' : scanned xs (i', j') ys).
    { split; cbn; try done; try lia.
      - intros k Hk. destruct (decide (k < i)); [apply Hbelow|apply Hle]; lia.
      - intros k Hk. destruct (decide (j < k)); [apply Habove|apply Hge]; lia. }
    destruct (Z.leb_spec i' j') as [Hij'|Hij']; cbn [when].
    + specialize (Hgt ltac:(lia)). specialize (Hlt ltac:(lia)).
      assert (i' ≠ j') by (intros ->; lia).
      mstep (Swap_swapped i' j' ys ltac:(lia) ltac:(lia)).
      eexists _, _. split; [done|].
      split; [by apply scanned_exchange; [|lia|..]|].
      unfold partition_measure; cbn. rewrite !swapped_at by lia.
      rewrite !(proj2 (Z.eqb_neq s _)) by lia. rewrite !Z.eqb_refl.
      rewrite (proj2 (Z.eqb_neq i' j')) by lia.
      rewrite (proj2 (Z.ltb_ge (at_ ys s) (at_ ys j'))) by lia. cbn.
      destruct (decide (i' = i ∧ j' = j)) as [[-> ->]|]; [|case_match; lia].
      by rewrite !(proj2 (Z.ltb_lt _ _)) by lia; cbn; lia.
    + eexists _, _. split; [done|]. split; [done|].
      unfold partition_measure; cbn. repeat case_match; lia.
  - split; cbn; try lia. apply rearranged_refl.
  - unfold partition_measure; cbn. case_match; lia.
  - by exists i, j, ys.
Qed.
End Partition.

(** ** Quick sort *)

(** The array once the pivot is between the parts: [j] is its place. *)
Record parted (s f i j : Z) (xs : list Z) : Prop := MkParted {
  pt_bounds : s ≤ j ∧ j < i ∧ i ≤ f + 1 ∧ j ≤ f;
  pt_below k : s ≤ k < j → at_ xs k ≤ at_ xs j;
  pt_middle k : j ≤ k < i → at_ xs k = at_ xs j;
  pt_above k : i ≤ k ≤ f → at_ xs j ≤ at_ xs k }.
Lemma scanned_parted s f xs0 i j xs :
  0 ≤ s → s < f → f < Z.of_nat (length xs) → scanned s f xs0 (i, j) xs → j < i →
  parted s f i j (swapped s j xs) ∧ rearranged s f xs0 (swapped s j xs).
Proof.
  intros Hs Hsf Hlen [Hr Hi Hj Hbelow Habove] Hij; cbn in *.
  assert (Hat : ∀ k, s < k → k ≠ j → at_ (swapped s j xs) k = at_ xs k).
  { intros k Hk Hkj. rewrite swapped_at by lia. by rewrite !(proj2 (Z.eqb_neq _ _)) by lia. }
  assert (Hpivot : at_ (swapped s j xs) j = at_ xs s).
  { rewrite swapped_at by lia. by rewrite Z.eqb_refl. }
  split.
  - split; [lia|..]; intros k Hk; rewrite Hpivot.
    + destruct (decide (k = s)) as [->|].
      * rewrite swapped_at by lia. rewrite (proj2 (Z.eqb_neq s j)), Z.eqb_refl by lia.
        apply Hbelow; lia.
      * rewrite Hat by lia. apply Hbelow; lia.
    + destruct (decide (k = j)) as [->|]; [done|]. rewrite Hat by lia.
      apply Z.le_antisymm; [apply Hbelow|apply Habove]; lia.
    + rewrite Hat by lia. apply Habove; lia.
  - eapply rearranged_trans; [apply (rearranged_wider (s + 1) f); [lia..|exact Hr]|].
    apply (rearranged_wider s j); [lia..|]. apply rearranged_swapped; lia.
Qed.

(** Sorting the two parts of a parted array sorts it. *)
Lemma parted_sorted s f i j xs ys zs :
  0 ≤ s → parted s f i j xs →
  rearranged s (j - 1) xs ys → sorted_on s (j - 1) ys →
  rearranged i f ys zs → sorted_on i f zs → sorted_on s f zs.
Proof.
  intros Hs [Hb Hbelow Hmiddle Habove] [_ Ho1 Hi1] Hsy [_ Ho2 Hi2] Hsz.
  assert (Hlow : ∀ k, s ≤ k < j → at_ zs k ≤ at_ xs j).
  { intros k Hk. rewrite Ho2 by lia.
    apply (Hi1 (λ x, x ≤ at_ xs j)); [|lia]. intros k' ?. apply Hbelow; lia. }
  assert (Hmid : ∀ k, j ≤ k < i → at_ zs k = at_ xs j).
  { intros k Hk. rewrite Ho2, Ho1 by lia. by apply Hmiddle. }
  assert (Hhigh : ∀ k, i ≤ k ≤ f → at_ xs j ≤ at_ zs k).
  { intros k Hk. apply (Hi2 (λ x, at_ xs j ≤ x)); [|lia]. intros k' ?.
    rewrite Ho1 by lia. apply Habove; lia. }
  intros a b Hab Hbf. destruct (decide (a < j)), (decide (b < j)), (decide (b < i)),
    (decide (a < i)); try lia.
  - rewrite !Ho2 by lia. apply Hsy; lia.
  - rewrite (Hmid b) by lia. apply Hlow; lia.
  - etrans; [apply Hlow; lia|apply Hhigh; lia].
  - rewrite !Hmid by lia. lia.
  - rewrite (Hmid a) by lia. apply Hhigh; lia.
  - apply Hsz; lia.
Qed.

Lemma QSort_spec fuel s f (xs : list Z) :
  0 ≤ s → f < Z.of_nat (length xs) → f - s ≤ Z.of_nat fuel →
  ∃ ys, QSort fuel s f xs = Ret tt ys ∧ rearranged s f xs ys ∧ sorted_on s f ys.
Proof.
  revert s f xs. induction fuel as [|fuel IH]; intros s f xs Hs Hf Hfuel; cbn;
    destruct (Z.leb_spec f s) as [Hfs|Hfs].
  1,3: exists xs; split_and!; [done|apply rearranged_refl|];
       intros a b Hab Hbf; replace b with a by lia; done.
  - lia.
  - destruct (partition_spec s f Hs Hfs xs Hf) as (i & j & ys & Hp & Hsc & Hij).
    assert (Hlen : f < Z.of_nat (length ys)).
    { by rewrite (rearranged_length _ _ _ _ (sc_rearranged _ _ _ _ _ Hsc)). }
    destruct (scanned_parted s f xs i j ys Hs Hfs Hlen Hsc Hij) as [Hpt Hr].
    pose proof (pt_bounds _ _ _ _ _ Hpt) as Hb.
    mstep Hp. mstep (Swap_swapped s j ys ltac:(lia) ltac:(lia)).
    pose proof (swapped_length s j ys) as Hlen1.
    destruct (IH s (j - 1) (swapped s j ys)) as (zs & Hz & Hrz & Hsz); [lia..|]. mstep Hz.
    pose proof (rearranged_length _ _ _ _ Hrz) as Hlen2.
    destruct (IH i f zs) as (ws & Hw & Hrw & Hsw); [lia..|].
    exists ws. split_and!; [exact Hw| |by eapply parted_sorted].
    eapply rearranged_trans; [exact Hr|]. eapply rearranged_trans.
    + by apply (rearranged_wider s (j - 1)); [lia..|].
    + by apply (rearranged_wider i f); [lia..|].
Qed.

(** ** [CheckSorted] *)
Lemma CheckSorted_sorted (xs : list Z) :
  sorted_on 0 (Z.of_nat (length xs) - 1) xs → CheckSorted (Z.of_nat (length xs)) xs = Ret 1 xs.
Proof.
  intros Hsorted. set (n := Z.of_nat (length xs)) in *.
  destruct (mloop_total (λ i ys, ys = xs ∧ 0 ≤ i) (λ r ys, ys = xs ∧ r = 1)
    (λ i _, Z.to_nat (n - i))
    (λ i, if negb (i <? n - 1) then mret (inr 1) else
       x ← elem i; y ← elem (i + 1); if y <? x then mret (inr 0) else mret (inl (i + 1)))
    (Z.to_nat n + 1) 0 xs) as (r & ys & Hl & -> & ->); [|by split|lia|exact Hl].
  intros i ys [-> Hi]. destruct (Z.ltb_spec i (n - 1)); cbn [negb].
  2:{ right. by eexists _, _. }
  left. rewrite (bind_Ret _ _ _ _ _ (elem_at i xs ltac:(lia))).
  rewrite (bind_Ret _ _ _ _ _ (elem_at (i + 1) xs ltac:(lia))).
  rewrite (proj2 (Z.ltb_ge _ _)) by (apply Hsorted; lia).
  eexists _, _. split; [done|]. split; [split; [done|lia]|lia].
Qed.
Lemma sorted_on_Sorted (xs : list Z) :
  sorted_on 0 (Z.of_nat (length xs) - 1) xs → Sorted Z.le xs.
Proof.
  intros Hsorted. induction xs as [|x xs IH]; [by constructor|]. constructor.
  - apply IH. intros a b Hab Hb.
    specialize (Hsorted (a + 1) (b + 1) ltac:(lia) ltac:(cbn; lia)).
    by rewrite !Z2Nat.inj_add, !Nat.add_1_r in Hsorted by lia.
  - destruct xs as [|y xs]; constructor.
    by specialize (Hsorted 0 1 ltac:(lia) ltac:(cbn; lia)).
Qed.

Lemma rearranged_checked (xs ys : list Z) :
  let n := Z.of_nat (length xs) in
  rearranged 0 (n - 1) xs ys → sorted_on 0 (n - 1) ys →
  ys ≡ₚ xs ∧ Sorted Z.le ys ∧ CheckSorted n ys = Ret 1 ys.
Proof.
  intros n Hr Hsorted. assert (Hn : n = Z.of_nat (length ys)).
  { unfold n. by rewrite (rearranged_length _ _ _ _ Hr). }
  rewrite Hn in Hsorted |- *. split; [apply (r_perm _ _ _ _ Hr)|].
  split; [by apply sorted_on_Sorted|by apply CheckSorted_sorted].
Qed.

Lemma QuickSort_spec (xs : list Z) :
  let n := Z.of_nat (length xs) in
  ∃ ys, QuickSort n xs = Ret tt ys ∧ ys ≡ₚ xs ∧ Sorted Z.le ys ∧ CheckSorted n ys = Ret 1 ys.
Proof.
  intros n. unfold QuickSort.
  destruct (QSort_spec (Z.to_nat n) 0 (n - 1) xs) as (ys & Hq & Hr & Hsorted); [lia..|].
  by exists ys; split; [|apply rearranged_checked].
Qed.

(** C38: quick sort terminates on every array, without leaving it, with an ordered permutation of
    its elements; the program's check then reports success. *)
Theorem QuickSort_sorts (xs : list Z) :
  let n := Z.of_nat (length xs) in
  ∃ ys, QuickSort n xs = Ret tt ys ∧ ys ≡ₚ xs ∧ Sorted Z.le ys ∧ CheckSorted n ys = Ret 1 ys.
Proof. apply QuickSort_spec. Qed.

(** ** Merge sort *)

(** The elements at the positions from [a] up to [b], [b] excluded. *)
Definition slice (a b : Z) (xs : list Z) : list Z := (λ k, at_ xs k) <$> seqZ a (b - a).
Lemma slice_app a b c xs : a ≤ b ≤ c → slice a c xs = slice a b xs ++ slice b c xs.
Proof.
  intros ?. unfold slice. replace (c - a) with ((b - a) + (c - b)) by lia.
  rewrite seqZ_app, fmap_app by lia. by replace (a + (b - a)) with b by lia.
Qed.
Lemma slice_snoc a b xs : a ≤ b → slice a (b + 1) xs = slice a b xs ++ [at_ xs b].
Proof.
  intros ?. rewrite (slice_app a b) by lia. unfold slice at 2. by replace (b + 1 - b) with 1 by lia.
Qed.
Lemma slice_none a b xs : b ≤ a → slice a b xs = [].
Proof. intros. unfold slice. by rewrite seqZ_nil by lia. Qed.
Lemma slice_ext a b xs ys : (∀ k, a ≤ k < b → at_ xs k = at_ ys k) → slice a b xs = slice a b ys.
Proof.
  intros Hext. apply list_fmap_ext. intros i k [-> Hi]%lookup_seqZ. apply Hext. lia.
Qed.
Lemma slice_all xs : slice 0 (Z.of_nat (length xs)) xs = xs.
Proof.
  apply list_eq_same_length with (length xs); [done|by unfold slice; rewrite length_fmap, length_seqZ; lia|].
  intros i x y Hi Hx Hy. unfold slice in Hx.
  apply list_lookup_fmap_Some in Hx as (k & -> & [-> Hk]%lookup_seqZ).
  rewrite <-(list_lookup_total_correct _ _ _ Hy). f_equal. lia.
Qed.
Lemma slice_Forall (P : Z → Prop) a b xs : Forall P (slice a b xs) ↔ ∀ k, a ≤ k < b → P (at_ xs k).
Proof.
  unfold slice. rewrite Forall_fmap, Forall_forall. split; intros H k Hk; apply H.
  - apply elem_of_seqZ. lia.
  - apply elem_of_seqZ in Hk. lia.
Qed.

Lemma copied_slice a b i xs ys :
  0 ≤ i < b - a → copied (slice a b xs) i ys = Ret (at_ xs (a + i)) ys.
Proof.
  intros Hi. unfold copied, slice. rewrite list_lookup_fmap, lookup_seqZ_lt by lia. cbn.
  by rewrite Z2Nat.id by lia.
Qed.
Lemma copy_from_slice first n (xs : list Z) :
  0 ≤ first → 0 ≤ n → first + n ≤ Z.of_nat (length xs) →
  copy_from first n xs = Ret (slice first (first + n) xs) xs.
Proof.
  intros Hfirst Hn Hlen. unfold copy_from.
  destruct (mloop_total
    (λ '(i, copied) ys, ys = xs ∧ 0 ≤ i ≤ n ∧ copied = slice first (first + i) xs)
    (λ r ys, ys = xs ∧ r.2 = slice first (first + n) xs)
    (λ r _, Z.to_nat (n - r.1))
    (λ '(i, copied), if negb (i <? n) then mret (inr (i, copied)) else
       x ← elem (first + i); mret (inl (i + 1, copied ++ [x])))
    (Z.to_nat n + 1) (0, []) xs) as ([i c] & ys & Hl & -> & Hc).
  - intros [i c] ys (-> & Hi & ->). destruct (Z.ltb_spec i n) as [Hin|Hin]; cbn [negb].
    + left. rewrite (bind_Ret _ _ _ _ _ (elem_at (first + i) xs ltac:(lia))).
      eexists _, _. split; [done|]. split; [|cbn; lia]. split_and!; [done|lia..|].
      by rewrite Z.add_assoc, slice_snoc by lia.
    + right. eexists _, _. split; [done|]. split; [done|]. cbn. by replace i with n by lia.
  - split_and!; [done|lia..|]. by rewrite slice_none by lia.
  - cbn. lia.
  - mstep Hl. cbn in Hc. by subst c.
Qed.

(** One more element at the end of a sorted range. *)
Lemma set_elem_snoc lo k v (ys : list Z) :
  0 ≤ lo ≤ k → k < Z.of_nat (length ys) → sorted_on lo (k - 1) ys →
  (∀ a, lo ≤ a < k → at_ ys a ≤ v) →
  ∃ zs, set_elem k v ys = Ret tt zs ∧ length zs = length ys ∧ sorted_on lo k zs ∧
        slice lo (k + 1) zs = slice lo k ys ++ [v] ∧
        at_ zs k = v ∧ ∀ a, 0 ≤ a → a ≠ k → at_ zs a = at_ ys a.
Proof.
  intros Hlo Hk Hsorted Hle. exists (<[Z.to_nat k := v]> ys).
  assert (Hv : at_ (<[Z.to_nat k := v]> ys) k = v) by (rewrite list_lookup_total_insert_eq; [done|lia]).
  assert (Hne : ∀ a, 0 ≤ a → a ≠ k → at_ (<[Z.to_nat k := v]> ys) a = at_ ys a).
  { intros. by rewrite list_lookup_total_insert_ne by lia. }
  split_and!; [by rewrite set_elem_at by lia|by rewrite length_insert| | |done|done].
  - intros a b Hab Hb. destruct (decide (b = k)) as [->|].
    + rewrite Hv. destruct (decide (a = k)) as [->|]; [by rewrite Hv|].
      rewrite Hne by lia. apply Hle. lia.
    + rewrite !Hne by lia. apply Hsorted; lia.
  - rewrite slice_snoc, Hv by lia. f_equal. apply slice_ext. intros. apply Hne; lia.
Qed.

Section Merge.
Context (p q r : Z) (xs : list Z).
Context (Hp : 1 ≤ p) (Hpq : p ≤ q) (Hqr : q < r) (Hr : r ≤ Z.of_nat (length xs)).
Context (Hleft : sorted_on (p - 1) (q - 1) xs) (Hright : sorted_on q (r - 1) xs).

(** After [l] elements of the left half and [m] of the right one. *)
Record merged (k l m : Z) (ys : list Z) : Prop := MkMerged {
  mg_k : k = p + l + m;
  mg_l : 0 ≤ l ≤ q - p + 1;
  mg_m : 0 ≤ m ≤ r - q;
  mg_length : length ys = length xs;
  mg_outside a : 0 ≤ a → a < p - 1 ∨ k - 1 ≤ a → at_ ys a = at_ xs a;
  mg_sorted : sorted_on (p - 1) (k - 2) ys;
  mg_below_left a b : p - 1 ≤ a < k - 1 → p - 1 + l ≤ b < q → at_ ys a ≤ at_ xs b;
  mg_below_right a b : p - 1 ≤ a < k - 1 → q + m ≤ b < r → at_ ys a ≤ at_ xs b;
  mg_perm : slice (p - 1) (k - 1) ys ≡ₚ slice (p - 1) (p - 1 + l) xs ++ slice q (q + m) xs }.

Lemma take_left_merged k l m ys :
  merged k l m ys → l < q - p + 1 → (m < r - q → at_ xs (p - 1 + l) ≤ at_ xs (q + m)) →
  ∃ zs, take_left (slice (p - 1) q xs) k l m ys = Ret (k + 1, l + 1, m) zs ∧
        merged (k + 1) (l + 1) m zs.
Proof using Hp Hqr Hr Hleft Hright.
  intros [Hk Hl Hm Hlen Hout Hs Hbl Hbr Hperm] Hlt Hle. unfold take_left.
  rewrite (bind_Ret _ _ _ _ _ (copied_slice (p - 1) q l xs ys ltac:(lia))).
  destruct (set_elem_snoc (p - 1) (k - 1) (at_ xs (p - 1 + l)) ys) as
    (zs & Hset & Hzlen & Hzs & Hzsl & Hzv & Hzne); [lia|lia|by replace (k - 1 - 1) with (k - 2) by lia| |].
  { intros a Ha. apply Hbl; lia. }
  mstep Hset. exists zs. split; [done|].
  assert (Hself : ∀ b, p - 1 + l ≤ b < q → at_ xs (p - 1 + l) ≤ at_ xs b) by (intros; apply Hleft; lia).
  assert (Hother : ∀ b, q + m ≤ b < r → at_ xs (p - 1 + l) ≤ at_ xs b).
  { intros b Hb. etrans; [apply Hle; lia|]. apply Hright; lia. }
  split; try lia.
  - intros a Ha Ho. rewrite Hzne by lia. apply Hout; lia.
  - by replace (k + 1 - 2) with (k - 1) by lia.
  - intros a b Ha Hb. destruct (decide (a = k - 1)) as [->|].
    + rewrite Hzv. apply Hself; lia.
    + rewrite Hzne by lia. apply Hbl; lia.
  - intros a b Ha Hb. destruct (decide (a = k - 1)) as [->|].
    + rewrite Hzv. apply Hother; lia.
    + rewrite Hzne by lia. apply Hbr; lia.
  - replace (k + 1 - 1) with (k - 1 + 1) by lia. rewrite Hzsl, Hperm.
    rewrite Z.add_assoc, (slice_snoc (p - 1)) by lia. solve_Permutation.
Qed.
Lemma take_right_merged k l m ys :
  merged k l m ys → m < r - q → (l < q - p + 1 → at_ xs (q + m) ≤ at_ xs (p - 1 + l)) →
  ∃ zs, take_right (slice q r xs) k l m ys = Ret (k + 1, l, m + 1) zs ∧
        merged (k + 1) l (m + 1) zs.
Proof using Hp Hpq Hr Hleft Hright.
  intros [Hk Hl Hm Hlen Hout Hs Hbl Hbr Hperm] Hlt Hle. unfold take_right.
  rewrite (bind_Ret _ _ _ _ _ (copied_slice q r m xs ys ltac:(lia))).
  destruct (set_elem_snoc (p - 1) (k - 1) (at_ xs (q + m)) ys) as
    (zs & Hset & Hzlen & Hzs & Hzsl & Hzv & Hzne); [lia|lia|by replace (k - 1 - 1) with (k - 2) by lia| |].
  { intros a Ha. apply Hbr; lia. }
  mstep Hset. exists zs. split; [done|].
  assert (Hself : ∀ b, q + m ≤ b < r → at_ xs (q + m) ≤ at_ xs b) by (intros; apply Hright; lia).
  assert (Hother : ∀ b, p - 1 + l ≤ b < q → at_ xs (q + m) ≤ at_ xs b).
  { intros b Hb. etrans; [apply Hle; lia|]. apply Hleft; lia. }
  split; try lia.
  - intros a Ha Ho. rewrite Hzne by lia. apply Hout; lia.
  - by replace (k + 1 - 2) with (k - 1) by lia.
  - intros a b Ha Hb. destruct (decide (a = k - 1)) as [->|].
    + rewrite Hzv. apply Hother; lia.
    + rewrite Hzne by lia. apply Hbl; lia.
  - intros a b Ha Hb. destruct (decide (a = k - 1)) as [->|].
    + rewrite Hzv. apply Hself; lia.
    + rewrite Hzne by lia. apply Hbr; lia.
  - replace (k + 1 - 1) with (k - 1 + 1) by lia. rewrite Hzsl, Hperm.
    rewrite Z.add_assoc, (slice_snoc q) by lia. solve_Permutation.
Qed.

Lemma merged_rearranged l m ys :
  merged (r + 1) l m ys → rearranged (p - 1) (r - 1) xs ys ∧ sorted_on (p - 1) (r - 1) ys.
Proof using Hp Hpq Hqr Hr.
  intros [Hk Hl Hm Hlen Hout Hs _ _ Hperm].
  assert (l = q - p + 1 ∧ m = r - q) as [-> ->] by lia.
  replace (p - 1 + (q - p + 1)) with q in Hperm by lia.
  replace (q + (r - q)) with r in Hperm by lia.
  rewrite <-slice_app in Hperm by lia. replace (r + 1 - 1) with r in Hperm by lia.
  split; [|by replace (r - 1) with (r + 1 - 2) by lia]. split.
  - assert (Hparts : ∀ zs, length zs = length xs →
      zs = slice 0 (p - 1) zs ++ slice (p - 1) r zs ++ slice r (Z.of_nat (length xs)) zs).
    { intros zs Hz. rewrite <-!slice_app by lia. by rewrite <-Hz, slice_all. }
    transitivity (slice 0 (p - 1) xs ++ slice (p - 1) r xs ++ slice r (Z.of_nat (length xs)) xs);
      [|by rewrite <-Hparts].
    rewrite (Hparts ys Hlen), Hperm.
    rewrite (slice_ext 0 (p - 1) ys xs), (slice_ext r _ ys xs); [done|..];
      intros; apply Hout; lia.
  - intros k Hk0 Hko. apply Hout; lia.
  - intros P HP k Hk'. assert (Hall : Forall P (slice (p - 1) r ys)).
    { rewrite Hperm. apply slice_Forall. intros. apply HP. lia. }
    rewrite slice_Forall in Hall. apply Hall. lia.
Qed.

Lemma Merge_spec :
  ∃ ys, Merge p q r xs = Ret tt ys ∧ rearranged (p - 1) (r - 1) xs ys ∧ sorted_on (p - 1) (r - 1) ys.
Proof using All.
  unfold Merge.
  rewrite (bind_Ret _ _ _ _ _ (copy_from_slice (p - 1) (q - p + 1) xs ltac:(lia) ltac:(lia) ltac:(lia))).
  rewrite (bind_Ret _ _ _ _ _ (copy_from_slice q (r - q) xs ltac:(lia) ltac:(lia) ltac:(lia))).
  replace (p - 1 + (q - p + 1)) with q by lia. replace (q + (r - q)) with r by lia.
  match goal with |- context [mloop ?n ?b ?a] =>
    destruct (mloop_total (λ '(k, l, m) ys, merged k l m ys ∧ k ≤ r + 1)
      (λ _ ys, ∃ l m, merged (r + 1) l m ys) (λ kl _, Z.to_nat (r + 1 - kl.1.1)) b n a xs)
      as ([] & ys & Hl & l & m & Hmg) end.
  - intros [[k l] m] ys [Hmg Hkr]. pose proof Hmg as [Hk Hl Hm _ _ _ _ _ _].
    destruct (Z.leb_spec k r) as [Hle|Hgt]; cbn [negb].
    2:{ right. eexists _, _. split; [done|]. exists l, m. by replace (r + 1) with k by lia. }
    left. destruct (Z.ltb_spec l (q - p + 1)) as [Hll|Hll], (Z.ltb_spec m (r - q)) as [Hmm|Hmm];
      cbn [andb]; try lia.
    + assert (Hcl := copied_slice (p - 1) q l xs ys ltac:(lia)).
      assert (Hcr := copied_slice q r m xs ys ltac:(lia)).
      destruct (Z.ltb_spec (at_ xs (p - 1 + l)) (at_ xs (q + m))) as [Hlt|Hge].
      * destruct (take_left_merged k l m ys Hmg Hll ltac:(lia)) as (zs & Hz & Hmg').
        exists (k + 1, l + 1, m), zs. split; [|split; [split; [exact Hmg'|lia]|cbn; lia]].
        rewrite (bind_Ret _ _ _ (k + 1, l + 1, m) zs); [reflexivity|].
        mstep Hcl. mstep Hcr. by rewrite (proj2 (Z.ltb_lt _ _) Hlt).
      * destruct (take_right_merged k l m ys Hmg Hmm ltac:(lia)) as (zs & Hz & Hmg').
        exists (k + 1, l, m + 1), zs. split; [|split; [split; [exact Hmg'|lia]|cbn; lia]].
        rewrite (bind_Ret _ _ _ (k + 1, l, m + 1) zs); [reflexivity|].
        mstep Hcl. mstep Hcr. by rewrite (proj2 (Z.ltb_ge _ _) Hge).
    + destruct (take_left_merged k l m ys Hmg Hll ltac:(lia)) as (zs & Hz & Hmg').
      exists (k + 1, l + 1, m), zs. split; [by mstep Hz|]. split; [split; [exact Hmg'|lia]|cbn; lia].
    + destruct (take_right_merged k l m ys Hmg Hmm ltac:(lia)) as (zs & Hz & Hmg').
      exists (k + 1, l, m + 1), zs. split; [by mstep Hz|]. split; [split; [exact Hmg'|lia]|cbn; lia].
  - split; [|lia]. split; try lia; try done.
    + intros a b Hab Hb. lia.
    + by rewrite !slice_none by lia.
  - cbn. lia.
  - exists ys. split; [exact Hl|]. by eapply merged_rearranged.
Qed.
End Merge.

Lemma MSort_spec fuel p r (xs : list Z) :
  1 ≤ p → r ≤ Z.of_nat (length xs) → r - p ≤ Z.of_nat fuel →
  ∃ ys, MSort fuel p r xs = Ret tt ys ∧ rearranged (p - 1) (r - 1) xs ys ∧ sorted_on (p - 1) (r - 1) ys.
Proof.
  revert p r xs. induction fuel as [|fuel IH]; intros p r xs Hp Hr Hfuel; cbn;
    destruct (Z.leb_spec r p) as [Hrp|Hrp].
  1,3: exists xs; split_and!; [done|apply rearranged_refl|];
       intros a b Hab Hb; replace b with a by lia; done.
  - lia.
  - rewrite Z.quot_div_nonneg by lia. set (q := (p + r) / 2). assert (p ≤ q < r) by (unfold q; zdiv).
    destruct (IH p q xs) as (ys & Hy & Hry & Hsy); [lia..|]. mstep Hy.
    pose proof (rearranged_length _ _ _ _ Hry).
    destruct (IH (q + 1) r ys) as (zs & Hz & Hrz & Hsz); [lia..|]. mstep Hz.
    pose proof (rearranged_length _ _ _ _ Hrz).
    replace (q + 1 - 1) with q in Hrz, Hsz by lia.
    destruct (Merge_spec p q r zs) as (ws & Hw & Hrw & Hsw); [lia..| |done|].
    { intros a b Hab Hb. rewrite !(r_outside _ _ _ _ Hrz) by lia. apply Hsy; lia. }
    exists ws. split; [exact Hw|]. split; [|done].
    eapply rearranged_trans; [|eapply rearranged_trans; [|exact Hrw]].
    + by apply (rearranged_wider (p - 1) (q - 1)); [lia..|].
    + by apply (rearranged_wider q (r - 1)); [lia..|].
Qed.

(** Merge sort, which works on positions counted from 1 and copies both halves before it merges
    them, terminates on every array with an ordered permutation of its elements, and the
    program's check then reports success. *)
Theorem MSort_sorts (xs : list Z) :
  let n := Z.of_nat (length xs) in
  ∃ ys, MSort (length xs) 1 n xs = Ret tt ys ∧ ys ≡ₚ xs ∧ Sorted Z.le ys ∧ CheckSorted n ys = Ret 1 ys.
Proof.
  intros n. destruct (MSort_spec (length xs) 1 n xs) as (ys & Hq & Hr & Hsorted); [lia..|].
  by exists ys; split; [|apply rearranged_checked].
Qed.
