(* ===== verification/Programs.v ===== *)
(** * A whole user program: _main of user/quicksort.c

    The program reads a number, allocates that many ints with malloc, fills, sorts and checks
    them, gives the memory back and asks whether to repeat.  A [Program] is the console and the
    byte memory with the line (a [Shell] of Prompt.v, whose kernel the program does not see), the
    user heap, and the ints of the block [Elements] points to.  The two system calls that count
    frames at the start have no effect. *)
From S2P Require Import Prelude Machine UHeap Strings Printf Prompt Sorting.

Record Program := MkProgram {
  console : Shell;
  heap : UState;
  Elements : list Z;
}.
Definition set_console (v : Shell) (r : Program) : Program := MkProgram v (heap r) (Elements r).
Definition set_heap (v : UState) (r : Program) : Program := MkProgram (console r) v (Elements r).
Definition set_Elements (v : list Z) (r : Program) : Program := MkProgram (console r) (heap r) v.
Notation Prog := (M Program).
Definition in_console {A} (m : Sh A) : Prog A := lift console set_console m.
Definition in_heap {A} (m : M UState A) : Prog A := lift heap set_heap m.
Definition in_elements {A} (m : Arr A) : Prog A := lift Elements set_Elements m.

(** [char Line[255]] *)
Definition SIZEOF_Line : Z := 255.

Section Quicksort.
(** The local [Line], and the words that a new block shows. *)
Context (fuel : nat) (Line : Z) (fresh : Z → Z).

Definition SIZEOF_int : Z := 4.
(** The ints of a block; NULL has none: every access through it fails. *)
Definition block_ints (p size : Z) : list Z :=
  if p =? 0 then [] else (λ i, s32 (fresh (p + SIZEOF_int * i))) <$> seqZ 0 (size `div` SIZEOF_int).

(** switch (Chose) *)
Definition initialize (Chose NumOfElements : Z) : Arr unit :=
  if Chose =? 97 then InitializeAscending NumOfElements
  else if Chose =? 98 then InitializeDescending NumOfElements
  else InitializeSemiRandom NumOfElements.
Definition ask : Sh Z := Chose ← getchar; cputchar (s8 Chose);; newline;; mret (s8 Chose).
Definition report (Sorted : Z) : Prog unit :=
  if Sorted =? 0 then panic "The array is NOT sorted correctly" else
  in_console (
    newline;; say "===============================================";; newline;;
    say "Congratulations!! The array is sorted correctly";; newline;;
    say "===============================================";; newline;; newline).

(** The body of [do ... while (Chose == 'y')]: the answer. *)
Definition quicksort_round : Prog Z :=
  in_console (array_readline fuel SIZEOF_Line "Enter the number of elements: " Line);;
  '(NumOfElements, _) ← in_console (in_text (strtol fuel Line 10));
  let size := u32 (SIZEOF_int * NumOfElements) in
  p ← in_heap (malloc size);
  modify (set_Elements (block_ints p size));;
  in_console (
    say "Choose the initialization method:";; newline;; say "a) Ascending";; newline;;
    say "b) Descending";; newline;; say "c) Semi random";; newline;; say "Select: ");;
  Chose ← in_console ask;
  in_elements (initialize Chose NumOfElements);;
  in_elements (QuickSort NumOfElements);;
  Sorted ← in_elements (CheckSorted NumOfElements);
  report Sorted;;
  in_console (say "Freeing the Heap...";; newline;; newline);;
  in_heap (free p);;
  in_console (say "Do you want to repeat (y/n): ");;
  Chose ← in_console ask;
  in_console newline;;
  mret Chose.
(** [rounds] bounds the rounds. *)
Definition quicksort_main (rounds : nat) : Prog unit :=
  mloop rounds (λ _ : unit,
    Chose ← quicksort_round;
    mret (if Chose =? 121 then inl tt else inr tt)) tt.
End Quicksort.
