(* ===== verification/ProgramsSpec.v ===== *)
(** * What a whole user program does: the quick sort of user/quicksort.c

    The theorem puts together what is proved of its parts: the line editor, strtol, the user heap
    and the sorting functions. *)
From S2P Require Import Prelude Machine UHeap UHeapSpec Strings StringsSpec Printf PrintfSpec Prompt PromptSpec Sorting SortingSpec Programs.
From Stdlib Require Import Sorted.

(** ** The console *)
Lemma in_console_ret {A} (m : Sh A) (s : Program) a c :
  m (console s) = Ret a c → in_console m s = Ret a (set_console c s).
Proof. intros E. unfold in_console, lift. by rewrite E. Qed.
Lemma in_heap_ret {A} (m : M UState A) (s : Program) a c :
  m (heap s) = Ret a c → in_heap m s = Ret a (set_heap c s).
Proof. intros E. unfold in_heap, lift. by rewrite E. Qed.
Lemma in_elements_ret {A} (m : Arr A) (s : Program) a c :
  m (Elements s) = Ret a c → in_elements m s = Ret a (set_Elements c s).
Proof. intros E. unfold in_elements, lift. by rewrite E. Qed.

(** Code that only prints. *)
Definition prints (m : Sh unit) : Prop := ∀ s, ∃ o, m s = Ret tt (set_text (set_output o (text s)) s).
Lemma prints_say m : prints (say m).
Proof. intros s. apply say_spec. Qed.
Lemma cputchar_prints c : prints (cputchar c).
Proof. intros s. by eexists. Qed.
Lemma prints_then m k : prints m → prints k → prints (m;; k).
Proof.
  intros Hm Hk s. destruct (Hm s) as [o1 E1], (Hk (set_text (set_output o1 (text s)) s)) as [o2 E2].
  exists o2. by mstep E1.
Qed.
#[local] Hint Resolve prints_say cputchar_prints prints_then : prints.
#[local] Hint Extern 1 (prints newline) => apply cputchar_prints : prints.

(** What a program still has to read, its heap and its array: output aside, its state. *)
Definition same_program (s s' : Program) : Prop :=
  typed (console s') = typed (console s) ∧ heap s' = heap s ∧ Elements s' = Elements s.

Lemma in_console_prints m s : prints m → ∃ s', in_console m s = Ret tt s' ∧ same_program s s'.
Proof.
  intros Hm. destruct (Hm (console s)) as [o Ho]. eexists. split; [by apply in_console_ret|]. done.
Qed.

(** ** The line that is typed *)
Lemma edit_plain ds : ∀ acc rest,
  Forall (λ c, 48 ≤ c ≤ 57) ds → Z.of_nat (length acc + length ds) < BUFLEN →
  edit acc (ds ++ 10 :: rest) = Some (acc ++ ds, rest).
Proof.
  induction ds as [|c ds IH]; intros acc rest Hd Hl; cbn [app edit].
  - by rewrite app_nil_r.
  - apply Forall_cons in Hd as [Hc Hd]. cbn [length] in Hl. unfold BUFLEN in *.
    rewrite (proj2 (Z.leb_le 32 c)), (proj2 (Z.ltb_lt _ _)) by lia. cbn [andb].
    rewrite IH, <-app_assoc; [done|done|]. rewrite length_app. cbn [length]. lia.
Qed.
(** As long as a line of digits fits in the array it is read as by readline; a longer one overruns
    the array. *)
Lemma plain_digit_body buf i c cs s :
  48 ≤ c ≤ 57 → i < BUFLEN - 1 → typed s = c :: cs →
  ∃ s', readline_body buf i s = Ret (inl (i + 1)) s' ∧ typed s' = cs.
Proof.
  intros Hc Hi Ht. assert (getchar s = Ret c (set_typed cs s)) as Hg by (unfold getchar; by rewrite Ht).
  eexists. split.
  - unfold readline_body. mstep Hg. rewrite (proj2 (Z.ltb_ge c 0)), (proj2 (Z.leb_le 32 c)), (proj2 (Z.ltb_lt _ _)) by lia.
    cbn [andb]. reflexivity.
  - done.
Qed.
Lemma array_readline_loop size buf rest : size < BUFLEN → ∀ ds i fuel s,
  Forall (λ c, 48 ≤ c ≤ 57) ds → typed s = ds ++ 10 :: rest → i + Z.of_nat (length ds) < size →
  mloop fuel (array_readline_body size buf) i s = mloop fuel (readline_body buf) i s.
Proof.
  intros Hsize. induction ds as [|c ds IH]; intros i [|fuel] s Hd Ht Hi; try done; cbn [app length] in Ht, Hi;
    assert (array_readline_body size buf i s = readline_body buf i s) as Hb
      by (unfold array_readline_body; rewrite bind_gets, Ht, (proj2 (Z.leb_gt _ _)) by lia; done).
  - assert (getchar s = Ret 10 (set_typed rest s)) as Hg by (unfold getchar; by rewrite Ht).
    assert (∃ s', readline_body buf i s = Ret (inr tt) s') as [s' Hr].
    { eexists. unfold readline_body. mstep Hg. cbn [Z.ltb Z.leb Z.compare Z.eqb Pos.eqb andb orb]. reflexivity. }
    rewrite Hr in Hb. by rewrite (mloop_break _ _ _ _ _ _ Hb), (mloop_break _ _ _ _ _ _ Hr).
  - apply Forall_cons in Hd as [Hc Hd].
    destruct (plain_digit_body buf i c (ds ++ 10 :: rest) s Hc ltac:(lia) Ht) as (s' & Hr & Ht').
    rewrite Hr in Hb. rewrite (mloop_next _ _ _ _ _ _ Hb), (mloop_next _ _ _ _ _ _ Hr). apply IH; [done|done|lia].
Qed.
Lemma array_readline_fits fuel size prompt buf ds rest s :
  size < BUFLEN → Forall (λ c, 48 ≤ c ≤ 57) ds → typed s = ds ++ 10 :: rest → Z.of_nat (length ds) < size →
  array_readline fuel size prompt buf s = readline fuel prompt buf s.
Proof.
  intros Hsize Hd Ht Hl. unfold array_readline, readline. destruct (say_spec prompt s) as [o Ho]. mstep Ho. mstep Ho.
  apply (array_readline_loop size buf rest Hsize ds); [done|exact Ht|lia].
Qed.
Lemma array_readline_overruns fuel size prompt buf ds rest s :
  0 ≤ size < BUFLEN - 1 → Forall (λ c, 48 ≤ c ≤ 57) ds → typed s = ds ++ 10 :: rest → size ≤ Z.of_nat (length ds) →
  size < Z.of_nat fuel → ∃ s', array_readline fuel size prompt buf s = Crash (Undefined "local array") s'.
Proof.
  intros Hsize Hd Ht Hl Hf. unfold array_readline. destruct (say_spec prompt s) as [o Ho]. mstep Ho.
  set (s1 := set_text _ s). assert (typed s1 = ds ++ 10 :: rest) as Ht1 by exact Ht. clearbody s1. clear Ht Ho s.
  assert (∀ ds i fuel s, Forall (λ c, 48 ≤ c ≤ 57) ds → typed s = ds ++ 10 :: rest → i ≤ size → size ≤ i + Z.of_nat (length ds) →
    size - i < Z.of_nat fuel → ∃ s', mloop fuel (array_readline_body size buf) i s = Crash (Undefined "local array") s') as Hloop;
    [|apply (Hloop ds); (done || lia)].
  clear -Hsize. intros ds. induction ds as [|c ds IH]; intros i [|fuel] s Hd Ht Hi Hl Hf; cbn [app length] in Ht, Hl; try lia.
  - exists s. apply mloop_crash. unfold array_readline_body. rewrite bind_gets, Ht, (proj2 (Z.leb_le _ _)) by lia.
    unfold stores. cbn [Z.eqb Pos.eqb]. by rewrite orb_true_r.
  - apply Forall_cons in Hd as [Hc Hd]. destruct (decide (i = size)) as [->|Hne].
    + exists s. apply mloop_crash. unfold array_readline_body. rewrite bind_gets, Ht, (proj2 (Z.leb_le _ _)) by lia.
      unfold stores. by rewrite (proj2 (Z.leb_le 32 c)), (proj2 (Z.ltb_lt _ _)) by lia.
    + destruct (plain_digit_body buf i c (ds ++ 10 :: rest) s Hc ltac:(lia) Ht) as (s' & Hr & Ht').
      rewrite (mloop_next _ _ _ _ (i + 1) s').
      * apply IH; (done || lia).
      * unfold array_readline_body. by rewrite bind_gets, Ht, (proj2 (Z.leb_gt _ _)) by lia.
Qed.
Lemma plain_digits ds : Forall (λ c, 48 ≤ c ≤ 57) ds → Forall (is_digit 10) ds.
Proof.
  intros Hd. eapply Forall_impl; [exact Hd|]. cbn. intros c Hc. exists (c - 48). unfold digit_of.
  rewrite (proj2 (Z.leb_le 48 c)), (proj2 (Z.leb_le c 57)) by lia. split; [done|lia].
Qed.

(** ** The heap between two rounds: every page is free *)
Definition all_free (s : UState) : Prop := heap_rel ∅ s ∧ heap_strategy s = UHP_PLACE_FIRSTFIT.

Lemma all_free_malloc s size :
  all_free s → 0 < size ≤ PAGE_SIZE * UHEAP_PAGES →
  ∃ a s', malloc size s = Ret (page a) s' ∧ page a ≠ 0 ∧ ∃ s'', free (page a) s' = Ret tt s'' ∧ all_free s''.
Proof.
  intros [Hrel Hst] Hs. pose proof Hrel as [Hinv _ Hb _].
  assert (PAGE_SIZE * UHEAP_PAGES = 2 ^ 29) as Hmax by reflexivity. rewrite Hmax in Hs.
  destruct (ROUNDUP_pages size) as [_ Hn]; [lia|]. set (n := pages_of size) in *.
  assert (∀ q, ¬ used (UHeap_Tracker s) q) as Hno.
  { intros q (p & Hp). assert ((∅ : aheap) !! page p = Some (PAGE_SIZE * UHeap_Tracker s !!! p)) as Hx.
    { apply Hb. exists p. split_and!; [done|lia|done]. }
    by rewrite lookup_empty in Hx. }
  assert (n ≤ UHEAP_PAGES) as Hle by (unfold n, pages_of; rewrite UHEAP_PAGES_val; unfold PAGE_SIZE; zdiv).
  destruct (firstfit_search_spec s n (inv_wf s Hinv) Hn) as (go & a & Hf & Hr).
  destruct go; [|destruct Hr as [_ Hr]; destruct (Hr 0); split_and!; [lia|lia|intros q _; apply Hno]].
  destruct Hr as [Hfr _]. pose proof (malloc_search_first s size Hst) as Hm. fold n in Hm. rewrite <-Hm in Hf.
  assert (heap_rel (<[page a := PAGE_SIZE * n]> (∅ : aheap)) (malloc_post n a s)) as Hrel' by by apply heap_rel_malloc.
  exists a, (malloc_post n a s). split; [apply (malloc_after_search size n s a s); [lia|done..]|].
  split; [by eapply free_range_nonzero|]. eexists. split.
  { apply free_block; [apply (rel_inv _ _ Hrel')|]. unfold malloc_post. cbn [UHeap_Tracker]. rewrite array_get_set_eq. lia. }
  split; [|done]. rewrite <-(delete_insert_id (∅ : aheap) (page a) (PAGE_SIZE * n)) by apply lookup_empty. by apply heap_rel_free.
Qed.

(** ** The array *)
(** What the chosen initialisation writes. *)
Definition values (Chose n : Z) : list Z :=
  (λ i, if Chose =? 97 then i else if Chose =? 98 then n - i - 1 else i `rem` (n `quot` 3)) <$> seqZ 0 n.

Lemma write_all (f : Z → Z) n xs :
  Z.of_nat (length xs) = n → forM (seqZ 0 n) (λ i, set_elem i (f i)) xs = Ret tt (f <$> seqZ 0 n).
Proof.
  intros Hn.
  destruct (forM_seqZ (λ k ys, ys = (f <$> seqZ 0 k) ++ drop (Z.to_nat k) xs) (λ i, set_elem i (f i)) 0 n xs)
    as (ys & E & ->); [lia|done| |].
  - intros i ys Hi ->. eexists. split.
    + apply set_elem_at. rewrite length_app, length_fmap, length_seqZ, length_drop. lia.
    + rewrite Z.add_0_l, seqZ_app, fmap_app, <-app_assoc by lia. rewrite insert_app_r_alt by (rewrite length_fmap, length_seqZ; lia).
      f_equal. rewrite length_fmap, length_seqZ. replace (_ - _)%nat with 0%nat by lia.
      destruct (lookup_lt_is_Some_2 xs (Z.to_nat i)) as [x Hx]; [lia|]. rewrite (drop_S _ _ _ Hx).
      cbn. do 2 f_equal. lia.
  - rewrite E. f_equal. rewrite drop_ge by lia. apply app_nil_r.
Qed.
Lemma initialize_values Chose n xs :
  Z.of_nat (length xs) = n → (Chose = 97 ∨ Chose = 98 ∨ 3 ≤ n) → initialize Chose n xs = Ret tt (values Chose n).
Proof.
  intros Hn Hc. unfold initialize, values. destruct (Z.eqb_spec Chose 97); [by apply write_all|].
  destruct (Z.eqb_spec Chose 98); [by apply write_all|]. unfold InitializeSemiRandom.
  assert (n `quot` 3 ≠ 0) as Hne by (rewrite Z.quot_div_nonneg by lia; zdiv).
  rewrite (proj2 (Z.eqb_neq _ _) Hne). by apply write_all.
Qed.

(** ** A round *)
(** What the user types in it: a number, the initialisation, the answer. *)
Record input := MkInput { digits : list Z; chosen : Z; answer : Z }.
Definition keys (r : input) : list Z := digits r ++ [10; chosen r; answer r].
Definition number_of (r : input) : Z := digits_value 10 0 (digits r).
(** A positive number of ints that fit in the heap, in fewer digits than [Line] has bytes; the program
    divides by a third of the number unless one of the first two initialisations is chosen. *)
Record proper (r : input) : Prop := {
  in_digits : Forall (λ c, 48 ≤ c ≤ 57) (digits r) ∧ digits r ≠ [] ∧ Z.of_nat (length (digits r)) < SIZEOF_Line;
  in_number : 0 < number_of r ≤ 2 ^ 27;
  in_chosen : 0 < chosen r < 128 ∧ (chosen r = 97 ∨ chosen r = 98 ∨ 3 ≤ number_of r);
  in_answer : 0 < answer r < 128;
}.

(** The array a round leaves: what was written into it, in order. *)
Definition sorted_values (r : input) (xs : list Z) : Prop :=
  xs ≡ₚ values (chosen r) (number_of r) ∧ Sorted Z.le xs.

Section Round.
Context (fuel : nat) (Line : Z) (fresh : Z → Z).

Lemma read_number_line s r rest :
  proper r → typed (console s) = keys r ++ rest → Forall (λ c, 0 < c < 256) (typed (console s)) →
  (length (typed (console s)) < fuel)%nat →
  ∃ s0 s' e, in_console (array_readline fuel SIZEOF_Line "Enter the number of elements: " Line) s = Ret tt s0 ∧
    in_console (in_text (strtol fuel Line 10)) s0 = Ret (number_of r, e) s' ∧
    typed (console s') = chosen r :: answer r :: rest ∧ heap s' = heap s.
Proof.
  intros [(Hd & Hne & Hlen) Hn _ _] Ht Hc Hf.
  destruct (readline_spec fuel "Enter the number of elements: " Line (console s) (digits r) (chosen r :: answer r :: rest))
    as (c & E & Htc & Hline & _); [done| |lia|].
  { rewrite Ht. unfold keys. rewrite <-app_assoc. cbn [app]. rewrite edit_plain; [done|done|].
    unfold SIZEOF_Line, BUFLEN in *. cbn [length]. lia. }
  rewrite <-(array_readline_fits fuel SIZEOF_Line _ Line (digits r) (chosen r :: answer r :: rest)) in E;
    [|done|done|by rewrite Ht; unfold keys; rewrite <-app_assoc|done].
  assert (length (digits r) < fuel)%nat as Hfd by (rewrite Ht in Hf; unfold keys in Hf; rewrite !length_app in Hf; lia).
  pose proof (strtol_reads 10 ltac:(lia) fuel (text c) Line false (digits r) Hline Hne (plain_digits _ Hd) Hfd) as Hs.
  cbn zeta iota in Hs. fold (number_of r) in Hs.
  assert (s32 (number_of r) = number_of r) as Hs32 by (unfold s32; rewrite Z.mod_small; lia). rewrite Hs32 in Hs.
  exists (set_console c s), (set_console c s). eexists. split; [by apply in_console_ret|].
  split; [|split; [exact Htc|reflexivity]]. unfold in_console, in_text, lift.
  cbn [console set_console]. rewrite Hs. by destruct c.
Qed.

Lemma ask_reads s c rest :
  typed (console s) = c :: rest → 0 < c < 128 →
  ∃ s', in_console ask s = Ret c s' ∧ typed (console s') = rest ∧ heap s' = heap s ∧ Elements s' = Elements s.
Proof.
  intros Ht Hc. assert (s8 c = c) as Hs by (unfold s8; rewrite Z.mod_small; lia).
  assert (getchar (console s) = Ret c (set_typed rest (console s))) as E by (unfold getchar; by rewrite Ht).
  eexists. split; [|split; [|split]]; [apply in_console_ret; unfold ask; mstep E; rewrite Hs; reflexivity|done..].
Qed.

Lemma sorts s r :
  proper r → Z.of_nat (length (Elements s)) = number_of r →
  let n := number_of r in
  ∃ ys, sorted_values r ys ∧
    in_elements (initialize (chosen r) n) s = Ret tt (set_Elements (values (chosen r) n) s) ∧
    in_elements (QuickSort n) (set_Elements (values (chosen r) n) s) = Ret tt (set_Elements ys s) ∧
    in_elements (CheckSorted n) (set_Elements ys s) = Ret 1 (set_Elements ys s).
Proof.
  intros [_ Hn [_ Hc] _] Hlen n. destruct (QuickSort_spec (values (chosen r) n)) as (ys & Eq & Hperm & Hsorted & Echeck).
  assert (Z.of_nat (length (values (chosen r) n)) = n) as Hv by (unfold values; rewrite length_fmap, length_seqZ; lia).
  rewrite Hv in Eq, Echeck. exists ys. split; [done|]. split; [|split].
  - apply in_elements_ret. by apply initialize_values.
  - unfold in_elements, lift. cbn [Elements set_Elements]. by rewrite Eq.
  - unfold in_elements, lift. cbn [Elements set_Elements]. by rewrite Echeck.
Qed.
Lemma report_prints s : ∃ s', report 1 s = Ret tt s' ∧ same_program s s'.
Proof. unfold report. apply in_console_prints. eauto 12 with prints. Qed.

(** The round: the number is read, the array is filled, sorted and found sorted, the block is given
    back, and the answer is the last character. *)
Lemma quicksort_round_spec s r rest :
  proper r → typed (console s) = keys r ++ rest → Forall (λ c, 0 < c < 256) (typed (console s)) →
  (length (typed (console s)) < fuel)%nat → all_free (heap s) →
  ∃ s', quicksort_round fuel Line fresh s = Ret (answer r) s' ∧ typed (console s') = rest ∧
    all_free (heap s') ∧ sorted_values r (Elements s').
Proof.
  intros Hr Ht Hc Hf Hfree. pose proof Hr as [_ Hn [Hc1 Hc2] Ha].
  set (n := number_of r) in *. assert (u32 (SIZEOF_int * n) = 4 * n) as Hsize by (apply u32_small; unfold SIZEOF_int, is_u32; lia).
  destruct (read_number_line s r rest Hr Ht Hc Hf) as (s0 & s1 & e & E0 & E1 & T1 & H1). fold n in E1.
  rewrite <-H1 in Hfree. destruct (all_free_malloc (heap s1) (4 * n) Hfree) as (a & h & Em & Ha0 & h' & Ef & Hfree').
  { rewrite UHEAP_PAGES_val. unfold PAGE_SIZE. lia. }
  set (s2 := set_Elements (block_ints fresh (page a) (4 * n)) (set_heap h s1)).
  edestruct (in_console_prints (say "Choose the initialization method:";; newline;; say "a) Ascending";; newline;;
    say "b) Descending";; newline;; say "c) Semi random";; newline;; say "Select: ") s2) as (s3 & E3 & T3 & H3 & A3);
    [eauto 12 with prints|].
  destruct (ask_reads s3 (chosen r) (answer r :: rest)) as (s4 & E4 & T4 & H4 & A4); [by rewrite T3|done|].
  assert (Z.of_nat (length (Elements s4)) = n) as Hlen.
  { rewrite A4, A3. cbn [s2 Elements set_Elements]. unfold block_ints. rewrite (proj2 (Z.eqb_neq _ _) Ha0).
    rewrite length_fmap, length_seqZ. unfold SIZEOF_int. zdiv. }
  destruct (sorts s4 r Hr Hlen) as (ys & Hys & E5 & E6 & E7). fold n in E5, E6, E7. set (s5 := set_Elements ys s4) in *.
  destruct (report_prints s5) as (s6 & E8 & T6 & H6 & A6).
  edestruct (in_console_prints (say "Freeing the Heap...";; newline;; newline) s6) as (s7 & E9 & T7 & H7 & A7);
    [eauto with prints|].
  assert (heap s7 = h) as Hh by (rewrite H7, H6; cbn [s5 heap set_Elements]; rewrite H4, H3; reflexivity).
  assert (in_heap (free (page a)) s7 = Ret tt (set_heap h' s7)) as E10 by (apply in_heap_ret; by rewrite Hh).
  destruct (in_console_prints (say "Do you want to repeat (y/n): ") (set_heap h' s7)) as (s8 & E11 & T8 & H8 & A8);
    [eauto with prints|].
  destruct (ask_reads s8 (answer r) rest) as (s9 & E12 & T9 & H9 & A9); [by rewrite T8; cbn [console set_heap]; rewrite T7, T6|done|].
  destruct (in_console_prints newline s9) as (s10 & E13 & T10 & H10 & A10); [eauto with prints|].
  exists s10. split.
  - unfold quicksort_round. mstep E0. mstep E1. cbn zeta. rewrite Hsize.
    rewrite (bind_Ret _ _ _ _ _ (in_heap_ret _ s1 _ _ Em)), bind_modify. fold s2.
    mstep E3. mstep E4. mstep E5. mstep E6. mstep E7. mstep E8. mstep E9. mstep E10. mstep E11. mstep E12. by mstep E13.
  - split; [by rewrite T10|]. rewrite H10, H9, H8. split; [done|]. rewrite A10, A9, A8. cbn [Elements set_heap].
    rewrite A7, A6. done.
Qed.
End Round.

(** ** Property *)

(** C37: the quick sort program, on a console where the user types any number of rounds (a positive
    number of ints that fit in the user heap, in fewer than 255 digits, a way to fill the array, which
    for one or two ints is ascending or descending since the third way divides by a third of the
    number, and whether to go on) and with an empty first-fit heap, runs through all of them and returns after the round whose answer
    is not y: it reads exactly what was typed for them, no access fails, the check finds every
    array sorted, the last array is the values it was filled with in order, and at the end every
    page of the heap, also in the kernel's view, has been given back. *)
Theorem quicksort_program_sorts fuel Line fresh rounds rs r rest s :
  Forall (λ r, proper r ∧ answer r = 121) rs → proper r → answer r ≠ 121 →
  typed (console s) = concat (keys <$> rs ++ [r]) ++ rest → Forall (λ c, 0 < c < 256) (typed (console s)) →
  (length (typed (console s)) < fuel)%nat → (length rs < rounds)%nat → all_free (heap s) →
  ∃ s', quicksort_main fuel Line fresh rounds s = Ret tt s' ∧ typed (console s') = rest ∧
    all_free (heap s') ∧ sorted_values r (Elements s').
Proof.
  intros Hrs Hr Ha Ht Hc Hf Hn Hfree. unfold quicksort_main. revert rounds s Ht Hc Hf Hn Hfree.
  induction Hrs as [|r1 rs [Hr1 Ha1] _ IH]; intros [|rounds] s Ht Hc Hf Hn Hfree; try (cbn in Hn; lia).
  - cbn [fmap list_fmap concat app] in Ht. rewrite app_nil_r in Ht.
    destruct (quicksort_round_spec fuel Line fresh s r rest) as (s' & E & H'); [done..|].
    exists s'. split; [|exact H']. apply mloop_break. mstep E. by rewrite (proj2 (Z.eqb_neq _ _) Ha).
  - cbn [fmap list_fmap concat app] in Ht. rewrite <-app_assoc in Ht.
    destruct (quicksort_round_spec fuel Line fresh s r1 (concat (keys <$> rs ++ [r]) ++ rest)) as (s1 & E & T1 & F1 & _); [done..|].
    rewrite (mloop_next _ _ _ _ tt s1) by (mstep E; by rewrite Ha1).
    rewrite Ht in Hc, Hf. apply Forall_app in Hc as [_ Hc]. rewrite length_app in Hf.
    apply IH; [exact T1|by rewrite T1|rewrite T1; lia|cbn in Hn; lia|done].
Qed.

(** Two rounds: 5 ints, semi random, again; then 12 ints, descending, and an n. *)
Definition two_rounds : Program :=
  MkProgram (prompt_state [] [53; 10; 99; 121; 49; 50; 10; 98; 110; 104; 105]) (uheap_init UHP_PLACE_FIRSTFIT) [].
Ltac proper_input :=
  split; cbn [digits chosen answer];
  [split; [repeat (constructor; [lia|]); constructor|split; [discriminate|reflexivity]]
  |vm_compute; split; [reflexivity|discriminate]
  |split; [lia|first [left; reflexivity|right; left; reflexivity|right; right; vm_compute; discriminate]]
  |lia].
Lemma quicksort_program_sorts_witness :
  ∃ s', quicksort_main 20 5000 (λ _, 7) 5 two_rounds = Ret tt s' ∧ typed (console s') = [104; 105] ∧
    all_free (heap s') ∧ sorted_values (MkInput [49; 50] 98 110) (Elements s').
Proof.
  apply (quicksort_program_sorts 20 5000 (λ _, 7) 5 [MkInput [53] 99 121] (MkInput [49; 50] 98 110) [104; 105] two_rounds).
  - apply Forall_singleton. split; [proper_input|reflexivity].
  - proper_input.
  - discriminate.
  - reflexivity.
  - cbn. repeat (constructor; [lia|]). constructor.
  - cbn. lia.
  - cbn. lia.
  - split; [apply heap_rel_init; by left|reflexivity].
Defined.
